(* ===== verification/_CoqProject ===== *)
-Q . S2P
Prelude.v
Json.v
Models.v
PyText.v
Utf8.v
Accelerator.v
JsonText.v
PyDyn.v
Regex.v
Observability.v
Security.v
Classifier.v
ClassifierProps.v
ToolValidation.v
ToolValidationProps.v
Execution.v
Transport.v
Metrics.v
Breaker.v
BreakerSpec.v
BreakerFSM.v
BreakerProps.v
Config.v
Registry.v
Profile.v
Telemetry.v
Requirements.v
RoutingStores.v
Router.v
RouterProps.v
Pools.v
PoolsProps.v
ToolLedger.v
SqliteStore.v
SqliteProps.v
DurableLedger.v
DurableProps.v
ClusterStore.v
IR.v
AgentState.v
Continuation.v
ContinuationSqlite.v
ContinuationProps.v
Sse.v
SseProps.v
CodecOpenAI.v
CodecOpenAIProps.v
CodecAnthropic.v
CodecGemini.v
Translators.v
Adapters.v
Context.v
Pruner.v
PrunerProps.v
ResponseValidation.v
Interfaces.v
Prepare.v
LedgerLaws.v
Executor.v
ExecutorDemo.v
ExecutorProps.v
ExecutorSafety.v
ExecutorRuns.v
ExecutorStream.v
ExecutorFrame.v
ExecutorInvariants.v
ExecutorBudget.v
Demo.v
ExecutorStreamProps.v
Gateway.v
GatewayProps.v
Mcp.v
McpProps.v
ProxyWire.v
Canary.v
Discovery.v
LegacyRouter.v
Proxy.v
ProxyProps.v
Runner.v
