(* ===== verification/Prelude.v ===== *)
(** * DuraLLM: a verification library

    DuraLLM ([src/src/durallm], Python; file names below are relative to it) is
    a gateway between agents and LLM providers.  A request is routed to an
    endpoint of a pool; failures are classified, retried, rotated to another key
    or failed over to another endpoint; answers are validated; tool calls are
    recorded in an idempotency ledger so that a side effect is never dispatched
    twice.  This library models the program as executable Rocq definitions and
    proves its correctness properties.

    ** The program and the files that model it

    A client speaks to the HTTP proxy, which decodes the request into the
    normalised form and calls the gateway facade.  The gateway wraps the executor
    in a continuation turn.  The executor is at the centre: it asks the router for
    a candidate (which reads the capability registry, telemetry, lanes, breakers,
    prompt cache and quality estimates), adapts the request with the context
    manager, reserves budget, asks the breaker for a permit, prepares the wire
    request and dispatches it through a provider adapter, classifies or validates
    the answer, keeps the tool ledger and the attempt store, and decides what to do
    next.  MCP calls run through the same tool ledger.  A nightly canary and the
    discovery of free models keep the pools up to date; the first-generation router
    works on the pools alone.

    A name ending in [Props] is a file of theorems, or the module of theorems that
    ends its component's file.

    Foundations:
    - [Prelude]: floats as rationals, the state-and-exception monad [M] with
      clock readings, its Hoare triples and the [preserve] tactic, the readings of
      a run ([ticking], the [ticks] tactic), insertion-ordered dictionaries, stable
      sorting, hint databases [durallm] and [ticking].
    - [Json], [PyText], [Utf8], [Regex], [JsonText] with [JsonTextProps], [PyDyn]:
      the parts of Python the code uses: JSON values, string methods and numerals,
      decoding of bytes, [re] with a backtracking matcher proved sound and complete
      for a declarative semantics, [json.dumps] and [json.loads] with their round
      trip, and attribute access on values of unknown type.
    - [Models]: errors.py, models.py.

    Execution and failure handling:
    - [Classifier], [ClassifierProps]: classifier.py, [classify_failure].
    - [Execution], [ExecutionProps]: execution/policy.py, deadline.py, ledger.py,
      agent/failover_plan.py, _env.py.
    - [Metrics]: breaker/metrics.py; [Breaker]: breaker/circuit_breaker.py and
      state.py; [BreakerSpec]: functional specifications of its methods;
      [BreakerFSM]: the guarded state machine, the refinement and the invariants;
      [BreakerProps]: properties; [Registry]: breaker/registry.py.
    - [Config], [ConfigProps]: config.py.
    - [Executor]: execution/executor.py, [GatewayExecutor.execute];
      [ExecutorDemo]: concrete gateways; [ExecutorProps]: progress and
      termination; [ExecutorSafety]: what a client receives; [ExecutorRuns]: two
      runs that show defects.
    - [ExecutorStream], [ExecutorStreamProps]: [open_native_stream] and
      [NativeStreamHandle] of execution/executor.py, with concrete runs in
      [StreamRuns].
    - [ExecutorFrame]: what one pass of the executor leaves alone, as triples for
      every step; [ExecutorInvariants]: the invariants of breakers, telemetry and
      registry over histories of requests and streams; [ExecutorBudget]: the
      reservations a request makes and gives back, for any attempt store of the
      class [CalmStore].

    Routing:
    - [Profile]: capability/profile.py, registry.py; [Telemetry]:
      health/telemetry.py; [Requirements]: routing/requirements.py, tokenizer.py,
      decision.py, scorer.py; [RoutingStores], [RoutingStoresProps]:
      routing/resources.py, budget.py, cache.py, keys.py, quality.py; [Router],
      [RouterProps]: routing/router.py.
    - [Pools], [PoolsProps]: pools.py; [Canary], [CanaryProps]: canary.py;
      [Discovery], [DiscoveryProps]: discovery.py; [LegacyRouter],
      [LegacyRouterProps]: router.py and [classify_api_error] of classifier.py.
    - [Accelerator], [AcceleratorProps]: performance/accelerator.py, the choice of an
      event loop included ([EventLoop]).

    State that survives:
    - [ToolLedger], [ToolLedgerProps]: agent/idempotency.py; [SqliteStore],
      [SqliteProps]: storage/sqlite.py, contracts.py; [DurableLedger],
      [DurableProps]: storage/tool_ledger.py, processes over one database as an
      interleaving of events; [ClusterStore], [ClusterProps]: storage/cluster.py.
    - [AgentState], [AgentStateProps]: agent/state.py and its snapshots;
      [Continuation], [ContinuationSqlite], [ContinuationProps]: continuation/.

    Wire formats and transport:
    - [IR]: protocol/ir.py; [CodecOpenAI], [CodecOpenAIProps], [CodecAnthropic],
      [CodecGemini]: protocol/; [Sse], [SseProps]: streaming/.
    - [Translators], [TranslatorsProps]: translators.py.
    - [Transport], [TransportProps], [Adapters], [AdaptersProps], [Prepare],
      [PrepareProps]: providers/adapters.py; [Pruner], [PrunerProps]: pruner.py.
    - [Security], [SecurityProps]: security/; [Observability],
      [ObservabilityProps]: observability/logger.py.
    - [Context], [ContextProps]: agent/context.py; [ToolValidation],
      [ToolValidationProps]: agent/tool_validation.py; [ResponseValidation]:
      validation/response.py.

    Composition:
    - [Interfaces]: what components promise to each other, as classes: [Runtime],
      [ProviderAdapter] (providers/base.py), [ToolLedgerOps] with
      [ToolLedgerLaws], [AttemptStoreOps], the continuation store; [LedgerLaws]:
      both ledgers satisfy the laws.
    - [Gateway], [GatewayProps]: gateway.py; [Mcp], [McpProps]: mcp/proxy.py;
      [ProxyWire], [ProxyWireProps], [Proxy], [ProxyProps]: proxy.py, from the
      request handlers to the pages, the choice of the stores and the start.
    - [Demo]: demo.py with the programmable provider of
      src/tests/faults/mock_provider.py, run on the modelled executor.
    - [Runner], [OpenClaw], [RunnerProps]: src/examples/durable_runner.py and
      openclaw_example.py.

    ** State and operations

    A class is a record of its attributes and a method a computation in
    [M exn state result]: it reads and writes its state, may raise, and consumes
    readings of the clocks it is given.  Clocks, random draws and uuids are
    functions of the reading number, so theorems hold for all of them; where a
    theorem needs a monotone clock it says so.  Objects shared by several
    components (the router's breakers and telemetry, the policy an attempt ledger
    points to, the breaker a registry returns, the pool manager) have one copy,
    reached through [zoom] or an accessor.  A database transaction rolls back on an
    exception.  A dictionary is an association list where order matters and a
    [gmap] where it does not.  What the network does is a function of the request,
    or a trace of events where its timing matters; a file is its content.

    ** What the theorems show

    - Executor: [execute] and [open_native_stream] terminate; a returned response
      is a sane HTTP 200 answer of an endpoint of the pool whose tool calls are all
      validated and not pending elsewhere; an opened stream is
      one provider's own bytes, and reading it files one attempt.  Over histories
      of requests and streams the breakers keep their bounds and legal paths and the
      telemetry adds up; a request gives back every budget reservation it makes,
      whichever way it ends.
    - Ledgers and stores: an operation is dispatched at most once over any
      interleaving with crashes; receipts survive restarts; recovery fails
      closed for all later events; commits are fenced; sessions are compare-and-swap; rows only move
      along their life cycle.  An MCP handler runs only past both idempotency
      checks, and never again once it succeeded while the receipt is retained.
    - Continuations: checkpoints form a chain, every process moves a session along
      the abstract life cycle, a turn inside a request is always closed.
    - Breakers: every method refines a state machine labelled by the method and
      guarded by thresholds, waits and free probe slots, whose invariants bound
      permits and probes; how it recovers, what never opens it; the metrics windows
      equal reference windows of the whole history.
    - Routing: a selected endpoint passes every filter in the state the call began
      in, at clock readings of the call, and is best for its strategy; the
      constraint check is exact; a budget is exceeded only by what settlements
      report beyond their reservations; keys rotate fairly; token buckets limit
      bursts and the rate whatever the clock does; pools are isolated but for the
      account lockouts they share, selection from them is sound and a quiet pool
      gives every usable route its turn; discovery and canary only add what they
      found.
    - Wire formats: requests, answers and synthetic streams survive the codecs,
      up to what a dialect cannot express, however the bytes are cut; cleaning a schema terminates; pruning keeps the
      conversation; a key reaches nothing but its header; upstream URLs are
      screened by their text, request lines cannot be split, sockets wait within their deadlines and
      are closed, failed handshakes included.
    - Servers: the two HTTP servers agree on generation requests, each with its own
      relay of a stream, and differ in the envelope of one refusal; HEAD announces what GET serves; the tool-operation
      endpoint keeps the ledger's promises.
    - Demo and examples: the demonstration prints its transcript whatever the
      runtime's identifiers and texts are; the watchdog of the unattended runner
      ends the turns that stand still in a repository with files and no others, and the settings of the user
      are kept or backed up.
    - Validation and classification: accepted arguments conform to the validator's
      dialect of JSON Schema, repairs are syntactic only, conforming calls are untouched; every
      classification is consistent, allows a fallback, and is decided by the status for
      plain errors.
    - Context: compaction meets the budget or raises, and keeps the task; a summary
      quotes the diagnostic lines, each once.
    - Defects shown by theorems: key rotation, unread streams and leaked permits
      wedge a breaker, disconnecting clients trip it and a small window disables
      it; malformed calls share a receipt; fencing tokens restart after a release;
      a re-prepared cluster operation forgets its receipt; a rejected key pins the
      first-generation router to its route; previews of prompts are not masked; the
      repair of arguments edits texts; an answer may cost more than was reserved; a
      receipt is forgotten after its retention; a repository without files blinds the watchdog, a second run is refused by the
      settings of the first, and the turn of the OpenClaw example may never end; and
      those named in the files.

    ** Bounds and fuel

    [execute] and [open_native_stream] take fuel; [execute_terminates] and
    [open_native_stream_terminates] show that four times (attempt limit + pool size
    + 1) passes suffice.  [validate_schema] recurses on the nesting of the schema;
    its fuel is the depth [jdepth], which [validate_schema_fuel] proves to be
    enough; [clean_gemini_schema] has nine levels of references more.  A regular
    expression's star is unrolled at most once per character, which
    [matches_sound_complete] shows to lose no match; [re.sub] takes at most one step
    per character.  The JSON parser has the length of the text plus one, the line
    and frame scanners the length of their buffer, since each step consumes a
    byte.  The eviction loops of the context manager and of the pruner run once
    per message at most, which [evict_turns_stops] and the pruner's theorem show to
    reach their exit.  The search for a power of two has its capacity as fuel.
    [dispatch] of the first-generation router counts its attempts down.  The loops
    of the runner and of the OpenClaw example have no bound in the code: their fuel
    is the number of rounds observed, and running out of it is a result of its own
    ([None], or no end); the watchdog's theorem says when it suffices.  Decimal
    numerals take as many steps as the number itself.  Everything else is
    structural recursion.

    ** Modelling choices and limits

    Floats are exact rationals: rounding is not modelled.  Text is a sequence of
    bytes, and lengths are those of ASCII text except where a file says otherwise.
    SHA-256, HTTP-date parsing, [ast.literal_eval], [str] of a compound value and
    the rendering of a float are parameters, as is the JSON codec where its text
    does not matter.  Where the code would go on with a value of a type its records
    do not have, the model raises [Untyped].  Log output is dropped; rendered
    messages are structured values where no code reads them.  Failover
    notifications and sleeps are recorded by the executor in order.  Attempt records
    are values, so a record finished a second time after it was stored keeps its
    first outcome.  Locks are not modelled: a method runs to its end, and
    concurrency is an interleaving of method calls.

    Not modelled: package files, which only re-export names; the sockets, threads
    and signal handlers under the servers, the runner and the canary, whose effects
    are listed in order instead; [argparse], whose result is an argument; the SQL
    engine, its pragmas and the file it writes; logging; exports of a record to a
    dictionary that no code reads; the command line of discovery.py, which prints
    what it found; and the benchmarks and tests of the repository, which are
    clients of the library. *)

From stdpp Require Import base tactics list gmap strings sorting.
From Stdlib Require Import QArith Qround Lqa.

(** ** Python floats

    Python's [float] quantities (seconds, milliseconds, rates, dollars) are
    modelled by exact rationals; comparisons are boolean functions so that
    every operation of the library evaluates. *)

Declare Scope float_scope.
Delimit Scope float_scope with float.

Definition Qltb (x y : Q) : bool := negb (Qle_bool y x).
Definition Qeqb (x y : Q) : bool := Qle_bool x y && Qle_bool y x.

Notation "x ⪯ y" := (Qle_bool x y) (at level 70, no associativity) : float_scope.
Notation "x ≺ y" := (Qltb x y) (at level 70, no associativity) : float_scope.
Open Scope float_scope.

(** [max(a, b)] and [min(a, b)]: Python returns the first argument on a tie. *)
Definition py_max (a b : Q) : Q := if a ≺ b then b else a.
Definition py_min (a b : Q) : Q := if b ≺ a then b else a.

Lemma Qle_bool_true x y : Qle_bool x y = true <-> (x <= y)%Q.
Proof. apply Qle_bool_iff. Qed.

Lemma Qle_bool_false x y : Qle_bool x y = false <-> (y < x)%Q.
Proof.
  rewrite <- not_true_iff_false, Qle_bool_iff. split; [apply Qnot_le_lt | apply Qlt_not_le].
Qed.

Lemma Qltb_true x y : Qltb x y = true <-> (x < y)%Q.
Proof. unfold Qltb. rewrite negb_true_iff. apply Qle_bool_false. Qed.

Lemma Qltb_false x y : Qltb x y = false <-> (y <= x)%Q.
Proof. unfold Qltb. rewrite negb_false_iff. apply Qle_bool_true. Qed.

(** [qbool] turns every boolean comparison of the context into a proposition. *)
Ltac qbool :=
  repeat match goal with
  | H : Qle_bool _ _ = true |- _ => apply Qle_bool_true in H
  | H : Qle_bool _ _ = false |- _ => apply Qle_bool_false in H
  | H : Qltb _ _ = true |- _ => apply Qltb_true in H
  | H : Qltb _ _ = false |- _ => apply Qltb_false in H
  | |- Qle_bool _ _ = true => apply Qle_bool_true
  | |- Qle_bool _ _ = false => apply Qle_bool_false
  | |- Qltb _ _ = true => apply Qltb_true
  | |- Qltb _ _ = false => apply Qltb_false
  end.

(** [q_solve]: case analysis on the remaining boolean comparisons and
    conditionals, then linear arithmetic over the rationals. *)
Ltac q_atomic x := lazymatch x with context [if _ then _ else _] => fail | _ => idtac end.
Ltac q_cases :=
  repeat match goal with
  | |- context [Qltb ?x ?y] => q_atomic x; q_atomic y; let E := fresh "E" in destruct (Qltb x y) eqn:E
  | |- context [Qle_bool ?x ?y] => q_atomic x; q_atomic y; let E := fresh "E" in destruct (Qle_bool x y) eqn:E
  end.
Ltac q_solve := unfold py_max, py_min in *; q_cases; qbool; try lra.

Lemma py_max_ge_l a b : (a <= py_max a b)%Q.
Proof. q_solve. Qed.
Lemma py_max_ge_r a b : (b <= py_max a b)%Q.
Proof. q_solve. Qed.
Lemma py_max_lub a b c : (a <= c)%Q -> (b <= c)%Q -> (py_max a b <= c)%Q.
Proof. q_solve. Qed.
Lemma py_max_mono_r a b b' : (b <= b')%Q -> (py_max a b <= py_max a b')%Q.
Proof. q_solve. Qed.
Lemma py_min_le_l a b : (py_min a b <= a)%Q.
Proof. q_solve. Qed.
Lemma py_min_le_r a b : (py_min a b <= b)%Q.
Proof. q_solve. Qed.
Lemma py_min_glb a b c : (c <= a)%Q -> (c <= b)%Q -> (c <= py_min a b)%Q.
Proof. q_solve. Qed.

(** Counts as floats. *)
Definition Qnat (n : nat) : Q := inject_Z (Z.of_nat n).
Lemma Qnat_nonneg n : (0 <= Qnat n)%Q.
Proof. change 0%Q with (inject_Z 0). unfold Qnat. rewrite <- Zle_Qle. lia. Qed.
Lemma Qnat_pos n : (n <> 0)%nat -> (0 < Qnat n)%Q.
Proof. intros. change 0%Q with (inject_Z 0). unfold Qnat. rewrite <- Zlt_Qlt. lia. Qed.
Lemma Qnat_le n m : (n <= m)%nat <-> (Qnat n <= Qnat m)%Q.
Proof. unfold Qnat. rewrite <- Zle_Qle. lia. Qed.

Create HintDb durallm discriminated.
#[export] Hint Resolve py_max_ge_l py_max_ge_r py_max_lub
  py_min_le_l py_min_le_r py_min_glb : durallm.

(** Python's truthiness of a string. *)
Definition truthy (s : string) : bool := negb (String.eqb s "").

(** [str.lower()] on ASCII text. *)
Definition ascii_lower (c : Ascii.ascii) : Ascii.ascii :=
  let n := Ascii.nat_of_ascii c in
  if ((65 <=? n) && (n <=? 90))%nat then Ascii.ascii_of_nat (n + 32) else c.
Fixpoint py_lower (s : string) : string :=
  match s with
  | EmptyString => EmptyString
  | String c s' => String (ascii_lower c) (py_lower s')
  end.

(** ** Results, exceptions and state

    A method of an object is a function of the object's state and of the
    number of clock readings made so far.  It returns a value or raises, and
    in both cases leaves the state it had built: a Python exception does not
    undo the assignments made before it.

    A clock is a function from readings to instants: the [n]-th reading of the
    process sees [clk n].  Two readings in one method therefore may differ,
    as they may in the code. *)

Inductive res (E A : Type) : Type :=
| Ok (a : A)
| Raise (e : E).
Arguments Ok {E A} a.
Arguments Raise {E A} e.

Definition res_ok {E A} (r : res E A) : bool :=
  match r with Ok _ => true | Raise _ => false end.

Definition M (E S A : Type) : Type := S -> nat -> res E A * S * nat.

#[export] Instance M_ret {E S} : MRet (M E S) := fun A a s n => (Ok a, s, n).
#[export] Instance M_bind {E S} : MBind (M E S) := fun A B k m s n =>
  match m s n with
  | (Ok a, s', n') => k a s' n'
  | (Raise e, s', n') => (Raise e, s', n')
  end.

Definition raise {E S A} (e : E) : M E S A := fun s n => (Raise e, s, n).
Definition get {E S} : M E S S := fun s n => (Ok s, s, n).
Definition put {E S} (s : S) : M E S unit := fun _ n => (Ok tt, s, n).
Definition modify {E S} (f : S -> S) : M E S unit := fun s n => (Ok tt, f s, n).
Definition gets {E S A} (f : S -> A) : M E S A := fun s n => (Ok (f s), s, n).
Definition read_clock {E S} (clk : nat -> Q) : M E S Q :=
  fun s n => (Ok (clk n), s, Datatypes.S n).
(** [try: m  except Exception: h] *)
Definition try_except {E S A} (m : M E S A) (h : M E S A) : M E S A := fun s n =>
  match m s n with
  | (Raise _, s', n') => h s' n'
  | o => o
  end.
(** [if b: m] *)
Definition when {E S} (b : bool) (m : M E S unit) : M E S unit :=
  if b then m else mret tt.
(** [for x in l: f x] *)
Fixpoint for_each {E S A} (l : list A) (f : A -> M E S unit) : M E S unit :=
  match l with
  | [] => mret tt
  | x :: l' => f x ;; for_each l' f
  end.

(** A database transaction: an exception rolls back every write. *)
Definition transaction {E S A} (m : M E S A) : M E S A := fun s n =>
  match m s n with
  | (Raise e, _, n') => (Raise e, s, n')
  | o => o
  end.

(** A method of a component run inside the state of the object that owns it. *)
Definition zoom {E S T A} (get : S -> T) (put : T -> S -> S) (m : M E T A) : M E S A := fun s n =>
  let '(r, t, n') := m (get s) n in (r, put t s, n').

Definition out_res {E S A} (o : res E A * S * nat) : res E A := o.1.1.
Definition out_st {E S A} (o : res E A * S * nat) : S := o.1.2.
Definition out_tick {E S A} (o : res E A * S * nat) : nat := o.2.

(** Running a sequence one call at a time. *)
Lemma bind_ok {E S A B} (m : M E S A) (k : A -> M E S B) s n a s' n' :
  m s n = (Ok a, s', n') -> mbind k m s n = k a s' n'.
Proof. intros Hm. unfold mbind, M_bind. by rewrite Hm. Qed.
Lemma bind_raise {E S A B} (m : M E S A) (k : A -> M E S B) s n e s' n' :
  m s n = (Raise e, s', n') -> mbind k m s n = (Raise e, s', n').
Proof. intros Hm. unfold mbind, M_bind. by rewrite Hm. Qed.
Lemma bind_inv {E S A B} (m : M E S A) (k : A -> M E S B) s n b s' n' :
  mbind k m s n = (Ok b, s', n') -> exists a s1 n1, m s n = (Ok a, s1, n1) /\ k a s1 n1 = (Ok b, s', n').
Proof.
  unfold mbind, M_bind. destruct (m s n) as [[[a|e] s1] n1]; [|done]. intros H. by exists a, s1, n1.
Qed.
Lemma zoom_inv {E S T A} (g : S -> T) (p : T -> S -> S) (m : M E T A) s n r s' n' :
  zoom g p m s n = (r, s', n') -> exists t, m (g s) n = (r, t, n') /\ s' = p t s.
Proof. unfold zoom. destruct (m (g s) n) as [[r1 t] n1]. intros [= <- <- <-]. by exists t. Qed.
(** One call of a sequence that is known to return. *)
Ltac mstep := erewrite bind_ok by (first [reflexivity | eassumption]); cbv beta.
Lemma try_ok {E S A} (m h : M E S A) s n a s' n' :
  m s n = (Ok a, s', n') -> try_except m h s n = (Ok a, s', n').
Proof. intros Hm. unfold try_except. by rewrite Hm. Qed.
Lemma try_raise {E S A} (m h : M E S A) s n e s' n' :
  m s n = (Raise e, s', n') -> try_except m h s n = h s' n'.
Proof. intros Hm. unfold try_except. by rewrite Hm. Qed.

(** Methods that never turn the count of clock readings back; the readings of a
    call are then those between its start and its end. *)
Definition ticking {E S A} (m : M E S A) : Prop := forall s k, (k <= out_tick (m s k))%nat.
Definition in_run (n n' m : nat) : Prop := (n <= m < n')%nat.

Lemma in_run_widen n n' n1 n1' m : in_run n1 n1' m -> (n <= n1)%nat -> (n1' <= n')%nat -> in_run n n' m.
Proof. unfold in_run. lia. Qed.

Lemma ticking_after {E S A B} (m : M E S A) (f : A -> M E S B) s k j :
  (j <= out_tick (m s k))%nat -> (forall a, ticking (f a)) -> (j <= out_tick (mbind f m s k))%nat.
Proof.
  intros Hm Hf. unfold mbind, M_bind. destruct (m s k) as [[[a|x] s1] k1]; [|done].
  specialize (Hf a s1 k1). unfold out_tick in *. simpl in *. lia.
Qed.
Lemma ticking_bind {E S A B} (m : M E S A) (f : A -> M E S B) : ticking m -> (forall a, ticking (f a)) -> ticking (mbind f m).
Proof. intros Hm Hf s k. by apply ticking_after. Qed.
Lemma ticking_try {E S A} (m h : M E S A) : ticking m -> ticking h -> ticking (try_except m h).
Proof.
  intros Hm Hh s k. specialize (Hm s k). unfold try_except. destruct (m s k) as [[[a|x] s1] k1]; [done|].
  specialize (Hh s1 k1). unfold out_tick in *. simpl in *. lia.
Qed.
Lemma ticking_for_each {E S A} (f : A -> M E S unit) l : (forall x, ticking (f x)) -> ticking (for_each l f).
Proof. intros Hf. induction l as [|x l IH]; simpl; [by intros ? ?|]. apply ticking_bind; [done | by intros _]. Qed.
Lemma ticking_ret {E S A} (a : A) : ticking (mret a : M E S A).
Proof. by intros s k. Qed.
Lemma ticking_raise {E S A} e : ticking (raise e : M E S A).
Proof. by intros s k. Qed.
Lemma ticking_get {E S} : ticking (get : M E S S).
Proof. by intros s k. Qed.
Lemma ticking_gets {E S A} (f : S -> A) : ticking (gets f : M E S A).
Proof. by intros s k. Qed.
Lemma ticking_modify {E S} (f : S -> S) : ticking (modify f : M E S unit).
Proof. by intros s k. Qed.
Lemma ticking_clock {E S} clk : ticking (read_clock clk : M E S Q).
Proof. intros s k. unfold out_tick. simpl. lia. Qed.
Create HintDb ticking discriminated.
#[export] Hint Resolve ticking_ret ticking_raise ticking_get ticking_gets ticking_modify ticking_clock : ticking.
Ltac ticks := repeat first [ solve [auto with ticking] | apply ticking_bind; [|intros ?] | apply ticking_try
  | apply ticking_for_each; intros ? | case_match ].

(** [triple P m Q]: started in a state of [P], the method ends (returning or
    raising) with a result and a state of [Q]. *)
Definition triple {E S A} (P : S -> Prop) (m : M E S A) (R : res E A -> S -> Prop) : Prop :=
  forall s n, P s -> R (out_res (m s n)) (out_st (m s n)).

Section triples.
Context {E S : Type}.
Implicit Types P : S -> Prop.

Lemma triple_conseq {A} P P' (m : M E S A) (R R' : res E A -> S -> Prop) :
  triple P' m R' -> (forall s, P s -> P' s) -> (forall r s, R' r s -> R r s) -> triple P m R.
Proof. intros H HP HR s n Hs. apply HR, H, HP, Hs. Qed.

Lemma triple_ret {A} P (a : A) (R : res E A -> S -> Prop) :
  (forall s, P s -> R (Ok a) s) -> triple P (mret a) R.
Proof. intros H s n Hs. exact (H s Hs). Qed.

Lemma triple_raise {A} P e (R : res E A -> S -> Prop) :
  (forall s, P s -> R (Raise e) s) -> triple P (raise e) R.
Proof. intros H s n Hs. exact (H s Hs). Qed.

Lemma triple_modify P (f : S -> S) (R : res E unit -> S -> Prop) :
  (forall s, P s -> R (Ok tt) (f s)) -> triple P (modify f) R.
Proof. intros H s n Hs. exact (H s Hs). Qed.

Lemma triple_bind {A B} P (m : M E S A) (k : A -> M E S B)
    (R1 : res E A -> S -> Prop) (R : res E B -> S -> Prop) :
  triple P m R1 ->
  (forall a, triple (R1 (Ok a)) (k a) R) ->
  (forall e s, R1 (Raise e) s -> R (Raise e) s) ->
  triple P (mbind k m) R.
Proof.
  intros Hm Hk He s n Hs. specialize (Hm s n Hs).
  unfold mbind, M_bind. destruct (m s n) as [[[a|e] s'] n'] eqn:Eq; cbn in *.
  - exact (Hk a s' n' Hm).
  - exact (He e s' Hm).
Qed.

Lemma triple_get_bind {B} P (k : S -> M E S B) (R : res E B -> S -> Prop) :
  (forall s0, P s0 -> triple (fun s => s = s0) (k s0) R) -> triple P (mbind k get) R.
Proof. intros Hk s n Hs. exact (Hk s Hs s n eq_refl). Qed.

Lemma triple_clock_bind {B} P clk (k : Q -> M E S B) (R : res E B -> S -> Prop) :
  (forall t, triple P (k t) R) -> triple P (mbind k (read_clock clk)) R.
Proof. intros Hk s n Hs. exact (Hk (clk n) s _ Hs). Qed.

Lemma triple_try {A} P (m h : M E S A) (R : res E A -> S -> Prop) (P' : S -> Prop) :
  triple P m (fun r s => match r with Ok _ => R r s | Raise _ => P' s end) ->
  triple P' h R -> triple P (try_except m h) R.
Proof.
  intros Hm Hh s n Hs. specialize (Hm s n Hs). unfold try_except.
  destruct (m s n) as [[[a|e] s'] n'] eqn:Eq; cbn in *; [exact Hm | exact (Hh s' n' Hm)].
Qed.

(** Preservation of a state predicate, whatever the outcome. *)
Definition preserves {A} (P : S -> Prop) (m : M E S A) : Prop := triple P m (fun _ s => P s).

Lemma preserves_ret {A} P (a : A) : preserves P (mret a : M E S A).
Proof. by apply triple_ret. Qed.
Lemma preserves_raise {A} P e : preserves P (raise e : M E S A).
Proof. by apply triple_raise. Qed.
Lemma preserves_bind {A B} P (m : M E S A) (k : A -> M E S B) :
  preserves P m -> (forall a, preserves P (k a)) -> preserves P (mbind k m).
Proof. intros Hm Hk. eapply triple_bind; [exact Hm | exact Hk | done]. Qed.
Lemma preserves_get P : preserves P (get : M E S S).
Proof. by intros s n Hs. Qed.
Lemma preserves_gets {A} P (f : S -> A) : preserves P (gets f : M E S A).
Proof. by intros s n Hs. Qed.
Lemma preserves_clock P clk : preserves P (read_clock clk : M E S Q).
Proof. by intros s n Hs. Qed.
Lemma preserves_modify P (f : S -> S) :
  (forall s, P s -> P (f s)) -> preserves P (modify f : M E S unit).
Proof. intros H. by apply triple_modify. Qed.
Lemma preserves_try {A} P (m h : M E S A) :
  preserves P m -> preserves P h -> preserves P (try_except m h).
Proof.
  intros Hm Hh. eapply triple_try; [|exact Hh].
  eapply triple_conseq; [exact Hm | done | by intros [] ? ?].
Qed.
Lemma preserves_transaction {A} P (m : M E S A) : preserves P m -> preserves P (transaction m).
Proof.
  intros Hm s n Hs. specialize (Hm s n Hs). unfold transaction.
  by destruct (m s n) as [[[a|e] s'] n'].
Qed.
Lemma preserves_when P b (m : M E S unit) : preserves P m -> preserves P (when b m).
Proof. intros H. destruct b; [exact H | apply preserves_ret]. Qed.
Lemma preserves_for_each {A} P (l : list A) (f : A -> M E S unit) :
  (forall x, preserves P (f x)) -> preserves P (for_each l f).
Proof.
  intros Hf. induction l as [|x l IH]; [apply preserves_ret|].
  apply preserves_bind; [apply Hf | intros _; exact IH].
Qed.
End triples.

(** [preserve] walks through a method, splitting its sequencing, conditionals
    and loops, and leaves the assignments to be justified. *)
Ltac preserve :=
  repeat lazymatch goal with
  | |- preserves _ (mbind _ _) => apply preserves_bind; [|intros ?]
  | |- preserves _ (mret _) => apply preserves_ret
  | |- preserves _ (raise _) => apply preserves_raise
  | |- preserves _ get => apply preserves_get
  | |- preserves _ (gets _) => apply preserves_gets
  | |- preserves _ (read_clock _) => apply preserves_clock
  | |- preserves _ (transaction _) => apply preserves_transaction
  | |- preserves _ (try_except _ _) => apply preserves_try
  | |- preserves _ (when _ _) => apply preserves_when
  | |- preserves _ (for_each _ _) => apply preserves_for_each; intros ?
  | |- preserves _ (modify _) => apply preserves_modify; intros ? ?
  | |- preserves _ (let _ := _ in _) => cbv zeta
  | |- preserves _ (match ?x with _ => _ end) => destruct x
  end.

#[export] Hint Resolve preserves_ret preserves_raise preserves_bind preserves_get
  preserves_gets preserves_clock preserves_modify preserves_try preserves_when
  preserves_for_each : durallm.

(** ** Insertion-ordered dictionaries

    A Python [dict] (and [OrderedDict]) remembers insertion order; assigning
    to an existing key keeps its position.  Where the code depends on that
    order (eviction of the oldest entry, iteration over values) the model is
    an association list with the operations below. *)

Abbreviation odict K V := (list (K * V)) (only parsing).

Section odict.
Context {K V : Type} `{EqDecision K}.
Implicit Types (d : odict K V) (k : K) (v : V).

Fixpoint od_get (k : K) (d : odict K V) : option V :=
  match d with
  | [] => None
  | (k', v) :: d' => if decide (k = k') then Some v else od_get k d'
  end.

(** [d[k] = v] *)
Fixpoint od_set (k : K) (v : V) (d : odict K V) : odict K V :=
  match d with
  | [] => [(k, v)]
  | (k', v') :: d' => if decide (k = k') then (k', v) :: d' else (k', v') :: od_set k v d'
  end.

(** [d.pop(k, None)] *)
Definition od_pop (k : K) (d : odict K V) : odict K V := filter (fun p => p.1 <> k) d.

Definition od_keys (d : odict K V) : list K := d.*1.
Definition od_values (d : odict K V) : list V := d.*2.
Definition od_mem (k : K) (d : odict K V) : bool :=
  match od_get k d with Some _ => true | None => false end.

Definition od_wf (d : odict K V) : Prop := NoDup (od_keys d).

Lemma od_get_set_eq d k v : od_get k (od_set k v d) = Some v.
Proof. induction d as [|[k' v'] d IH]; simpl; repeat (case_decide; simpl); congruence. Qed.

Lemma od_get_set_ne d k k' v : k <> k' -> od_get k (od_set k' v d) = od_get k d.
Proof.
  intros Hne. induction d as [|[k2 v2] d IH]; simpl; repeat (case_decide; simpl); congruence.
Qed.

Lemma od_get_set_cases d k k' v : od_get k (od_set k' v d) = if decide (k = k') then Some v else od_get k d.
Proof. case_decide; [subst; apply od_get_set_eq | by apply od_get_set_ne]. Qed.

Lemma od_get_pop_eq d k : od_get k (od_pop k d) = None.
Proof.
  unfold od_pop. induction d as [|[k' v'] d IH]; [done|].
  rewrite filter_cons. case_decide as Hd; simpl in *; [|done].
  rewrite decide_False; [done | congruence].
Qed.

Lemma od_get_pop_ne d k k' : k <> k' -> od_get k (od_pop k' d) = od_get k d.
Proof.
  intros Hne. unfold od_pop. induction d as [|[k2 v2] d IH]; [done|].
  rewrite filter_cons. case_decide as Hd; simpl in *; [by rewrite IH|].
  rewrite decide_False; [done | congruence].
Qed.

Lemma od_get_None d k : od_get k d = None <-> k ∉ od_keys d.
Proof.
  unfold od_keys. induction d as [|[k' v'] d IH]; simpl; [set_solver|].
  case_decide; set_solver.
Qed.

Lemma od_get_In d k v : od_get k d = Some v -> (k, v) ∈ d.
Proof.
  induction d as [|[k' v'] d IH]; simpl; [done|].
  case_decide; intros; simplify_eq; set_solver.
Qed.

Lemma od_In_get d k v : od_wf d -> (k, v) ∈ d -> od_get k d = Some v.
Proof.
  unfold od_wf, od_keys. induction d as [|[k' v'] d IH]; simpl; [set_solver|].
  intros [Hn Hd]%NoDup_cons [Heq|Hin]%elem_of_cons.
  - simplify_eq. by rewrite decide_True.
  - rewrite decide_False; [by apply IH|].
    intros ->. apply Hn, list_elem_of_fmap. by exists (k', v).
Qed.

Lemma od_keys_set d k v :
  od_keys (od_set k v d) = if decide (k ∈ od_keys d) then od_keys d else od_keys d ++ [k].
Proof.
  unfold od_keys. induction d as [|[k' v'] d IH]; csimpl; [done|].
  destruct (decide (k = k')) as [->|Hne]; csimpl.
  - rewrite decide_True; [done | set_solver].
  - rewrite IH. destruct (decide (k ∈ d.*1)).
    + rewrite decide_True; [done | set_solver].
    + rewrite decide_False; [done | set_solver].
Qed.

(** A new key goes to the end. *)
Lemma od_set_new d k v : k ∉ od_keys d -> od_set k v d = d ++ [(k, v)].
Proof.
  unfold od_keys. induction d as [|[k' v'] d IH]; [done|]. csimpl. rewrite not_elem_of_cons. intros [Hne Hin].
  rewrite decide_False by done. by rewrite IH.
Qed.
Lemma od_set_last d k v w : k ∉ od_keys d ->
  od_set k w (d ++ [(k, v)]) = d ++ [(k, w)] /\ od_get k (d ++ [(k, v)]) = Some v.
Proof.
  unfold od_keys. induction d as [|[k' v'] d IH]; csimpl; [intros _; by rewrite !decide_True|]. rewrite not_elem_of_cons.
  intros [Hne Hin]. rewrite !decide_False by done. by destruct (IH Hin) as [-> ->].
Qed.

Lemma od_keys_set_in d k v w : od_get k d = Some w -> od_keys (od_set k v d) = od_keys d.
Proof.
  intros H. rewrite od_keys_set, decide_True; [done|]. apply od_get_In in H. apply list_elem_of_fmap. by exists (k, w).
Qed.

Lemma od_set_same d k v : od_get k d = Some v -> od_set k v d = d.
Proof. induction d as [|[k' v'] d IH]; simpl; [done|]. case_decide; intros; simplify_eq; [done | by rewrite IH]. Qed.

Lemma od_set_set d k v w : od_set k w (od_set k v d) = od_set k w d.
Proof. induction d as [|[k' v'] d IH]; simpl; repeat (case_decide; simpl); congruence. Qed.

Lemma od_wf_nil : od_wf [].
Proof. apply NoDup_nil_2. Qed.

Lemma od_wf_set d k v : od_wf d -> od_wf (od_set k v d).
Proof.
  unfold od_wf. rewrite od_keys_set. case_decide; [done|]. intros Hd.
  apply NoDup_app. split_and!; [done | set_solver | apply NoDup_singleton].
Qed.

Lemma Forall_sub {A} (P : A -> Prop) (l l' : list A) : sublist l' l -> Forall P l -> Forall P l'.
Proof. intros Hs. rewrite !Forall_forall. intros Hl x Hx. apply Hl. by eapply elem_of_sublist. Qed.

Lemma od_pop_sublist d k : sublist (od_pop k d) d.
Proof. apply sublist_filter. Qed.

Lemma od_wf_sublist d d' : sublist d' d -> od_wf d -> od_wf d'.
Proof.
  intros Hs Hd. unfold od_wf, od_keys in *. eapply sublist_NoDup; [exact Hd|].
  by apply fmap_sublist.
Qed.

Lemma od_pop_absent d k : od_get k d = None -> od_pop k d = d.
Proof.
  unfold od_pop. induction d as [|[k' v'] d IH]; [done|]. simpl. case_decide as Hd; [done|]. intros Hn.
  rewrite filter_cons, decide_True by (simpl; congruence). by rewrite IH.
Qed.

Lemma od_wf_pop d k : od_wf d -> od_wf (od_pop k d).
Proof. apply od_wf_sublist, od_pop_sublist. Qed.

Lemma od_set_elem d k v p : p ∈ od_set k v d -> p = (k, v) \/ p ∈ d.
Proof.
  induction d as [|[k' v'] d IH]; simpl; [set_solver|].
  case_decide; set_solver.
Qed.

Lemma od_length_set d k v : (length (od_set k v d) <= S (length d))%nat.
Proof. induction d as [|[k' v'] d IH]; simpl; [lia|]. case_decide; simpl; lia. Qed.

(** A property of all entries survives assignment and removal. *)
Lemma od_Forall_set (P : K * V -> Prop) d k v : P (k, v) -> Forall P d -> Forall P (od_set k v d).
Proof.
  rewrite !Forall_forall. intros Hp Hd p [->|Hin]%od_set_elem; auto.
Qed.
Lemma od_Forall_pop (P : K * V -> Prop) d k : Forall P d -> Forall P (od_pop k d).
Proof. apply Forall_sub, od_pop_sublist. Qed.
End odict.

#[export] Hint Rewrite @od_get_set_eq @od_get_pop_eq : durallm.
#[export] Hint Resolve od_wf_nil od_wf_set od_wf_pop od_Forall_set od_Forall_pop : durallm.

(** [drop_while p l]: the loop [while l and p(l[0]): l.popleft()]. *)
Fixpoint drop_while {A} (p : A -> bool) (l : list A) : list A :=
  match l with
  | [] => []
  | x :: l' => if p x then drop_while p l' else l
  end.

(** [drop_excess m l]: the loop [while len(l) > m: l.popleft()], for a
    non-negative bound [m]. *)
Definition drop_excess {A} (m : nat) (l : list A) : list A := drop (length l - m) l.

Lemma drop_while_suffix {A} (p : A -> bool) l : exists l1, l = l1 ++ drop_while p l /\ Forall (fun x => p x = true) l1.
Proof.
  induction l as [|x l [l1 [Heq Hl]]]; simpl; [by exists []|].
  destruct (p x) eqn:E; [|by exists []].
  exists (x :: l1). split; [simpl; congruence | by constructor].
Qed.

Lemma drop_while_sublist {A} (p : A -> bool) l : sublist (drop_while p l) l.
Proof.
  destruct (drop_while_suffix p l) as [l1 [Heq _]]. rewrite Heq at 2. apply sublist_inserts_l. done.
Qed.

Lemma drop_excess_sublist {A} m (l : list A) : sublist (drop_excess m l) l.
Proof. apply sublist_drop. Qed.

Lemma drop_excess_length {A} m (l : list A) : length (drop_excess m l) = Nat.min (length l) m.
Proof. unfold drop_excess. rewrite length_drop. lia. Qed.

(** ** Stable sorting

    [list.sort(key=...)] is stable: [le x y] says that [x], met first, may stay
    before [y]. *)
Section sorting.
Context {A : Type} (le : A -> A -> bool).

Fixpoint insert_by (x : A) (l : list A) : list A :=
  match l with
  | [] => [x]
  | y :: l' => if le x y then x :: l else y :: insert_by x l'
  end.
Definition sort_by (l : list A) : list A := foldr insert_by [] l.

Lemma insert_by_perm x l : insert_by x l ≡ₚ x :: l.
Proof.
  induction l as [|y l IH]; simpl; [done|]. destruct (le x y); [done|].
  rewrite IH. apply Permutation_swap.
Qed.
Lemma sort_by_perm l : sort_by l ≡ₚ l.
Proof. induction l as [|x l IH]; simpl; [done|]. rewrite insert_by_perm. by constructor. Qed.

(** The head of a sorted list is first for a total preorder. *)
Context (Htot : forall x y, le x y = false -> le y x = true).
Context (Htrans : forall x y z, le x y = true -> le y z = true -> le x z = true).

Definition heads (l : list A) : Prop :=
  match l with [] => True | x :: l' => Forall (fun y => le x y = true) l' end.

Lemma insert_by_heads x l : heads l -> heads (insert_by x l).
Proof.
  destruct l as [|y l]; simpl; [by constructor|]. intros Hy. destruct (le x y) eqn:E; simpl.
  - constructor; [done|]. eapply Forall_impl; [exact Hy|]. intros z Hz. by eapply Htrans.
  - rewrite insert_by_perm. constructor; [by apply Htot | done].
Qed.
Lemma sort_by_heads l : heads (sort_by l).
Proof. induction l as [|x l IH]; simpl; [done|]. by apply insert_by_heads. Qed.
End sorting.

Lemma concat_singletons {A} (l : list A) : concat (map (fun x => [x]) l) = l.
Proof. induction l as [|x l IH]; [done|]. cbn [map concat app]. by rewrite IH. Qed.
