(* ===== verification/Json.v ===== *)
(** * JSON values

    The dynamically typed payloads the gateway carries: tool arguments,
    receipts, schemas, session payloads.  A Python [dict] keeps insertion
    order, so an object is an association list. *)

From stdpp Require Import base tactics list strings.
From Stdlib Require Import QArith.
From S2P Require Import Prelude.

Inductive json : Type :=
| JNull
| JBool (b : bool)
| JInt (z : Z)
| JFloat (q : Q)
| JStr (s : string)
| JArr (l : list json)
| JObj (fields : list (string * json)).

(** Induction that reaches the elements of arrays and objects. *)
Section json_ind.
Variable P : json -> Prop.
Hypothesis HNull : P JNull.
Hypothesis HBool : forall b, P (JBool b).
Hypothesis HInt : forall z, P (JInt z).
Hypothesis HFloat : forall q, P (JFloat q).
Hypothesis HStr : forall s, P (JStr s).
Hypothesis HArr : forall l, Forall P l -> P (JArr l).
Hypothesis HObj : forall fs, Forall (fun kv => P (snd kv)) fs -> P (JObj fs).

Fixpoint json_nested_ind (j : json) : P j :=
  match j with
  | JNull => HNull
  | JBool b => HBool b
  | JInt z => HInt z
  | JFloat q => HFloat q
  | JStr s => HStr s
  | JArr l => HArr l ((fix go l := match l return Forall P l with
      | [] => Forall_nil_2 P
      | x :: l' => Forall_cons_2 P x l' (json_nested_ind x) (go l')
      end) l)
  | JObj fs => HObj fs ((fix go fs := match fs return Forall (fun kv => P (snd kv)) fs with
      | [] => Forall_nil_2 _
      | kv :: fs' => Forall_cons_2 (fun kv => P (snd kv)) kv fs' (json_nested_ind (snd kv)) (go fs')
      end) fs)
  end.
End json_ind.

(** [obj.get(k)] on a value known to be a dict, [None] otherwise. *)
Definition jget (k : string) (j : json) : option json :=
  match j with JObj fs => od_get k fs | _ => None end.

(** Python truthiness of a JSON value. *)
Definition jtruthy (j : json) : bool :=
  match j with
  | JNull => false
  | JBool b => b
  | JInt z => negb (Z.eqb z 0)
  | JFloat q => negb (Qeqb q 0)
  | JStr s => truthy s
  | JArr l => match l with [] => false | _ => true end
  | JObj fs => match fs with [] => false | _ => true end
  end.
