(* ===== verification/Models.v ===== *)
(** * Domain models and exceptions

    [src/durallm/errors.py] and [src/durallm/models.py]: the exception
    hierarchy of the gateway, the failure taxonomy, the classification record
    every component consumes and the audit record of one attempt. *)

From stdpp Require Import base tactics list gmap strings.
From Stdlib Require Import QArith Lqa.
From S2P Require Import Prelude Json.

(** ** Exceptions *)

(** One constructor per exception class raised by the modelled code, carrying
    the fields the class stores (rendered messages are not modelled, their
    ingredients are).  The last constructors are the built-in and storage
    exceptions the same code raises. *)
Inductive exn : Type :=
| BreakerOpenError (breaker_id : string) (remaining_wait_seconds : Q)
| BreakerForcedOpenError (breaker_id : string)
| ProbeAdmissionDeniedError (breaker_id : string)
| DeadlineExceededError (deadline_ms elapsed_ms : Q)
| NoHealthyRouteError (pool : string)
| NoCandidateMatchesError (pool : string)
| CycleDetectedError (candidate_id : string) (history : list string)
| NonRecoverableFailureError (endpoint_id : string)
| RetryBudgetExhaustedError (limit : nat)
| FallbackBudgetExhaustedError (limit : nat)
| SchemaValidationError
| UnsafeToolCallError (tool_name raw_arguments : string)
| IndeterminateToolOperationError (logical_operation_id tool_name : string)
| ToolOperationProtocolError (status_code : Z)
| ContextOverflowError (required_tokens available_budget : Z)
| ProtocolTranslationError
| ConfigurationError
| ContinuationProtocolError (status_code : Z)
| DurableStoreError (what : string)
| LeaseUnavailableError (resource : string)
| RuntimeError (what : string)
| ValueError (what : string)
| KeyError (key : string).

(** [isinstance(e, BreakerOpenError)]: the forced variant is a subclass. *)
Definition is_BreakerOpenError (e : exn) : bool :=
  match e with BreakerOpenError _ _ | BreakerForcedOpenError _ => true | _ => false end.

(** [isinstance(e, NoHealthyRouteError)] *)
Definition is_NoHealthyRouteError (e : exn) : bool :=
  match e with NoHealthyRouteError _ | NoCandidateMatchesError _ => true | _ => false end.

(** [isinstance(e, DurableStoreError)] *)
Definition is_DurableStoreError (e : exn) : bool :=
  match e with DurableStoreError _ | LeaseUnavailableError _ => true | _ => false end.

(** [isinstance(e, CircuitBreakerGatewayError)] *)
Definition is_GatewayError (e : exn) : bool :=
  match e with
  | DurableStoreError _ | LeaseUnavailableError _ | RuntimeError _ | ValueError _ | KeyError _ => false
  | _ => true
  end.

(** ** Failure taxonomy *)

Inductive FailureCategory : Type :=
| INFRASTRUCTURE | RATE_LIMIT | REQUEST_INCOMPATIBILITY
| SEMANTIC_AGENT_FAILURE | CLIENT_FAULT | UNKNOWN.

Inductive FailoverReason : Type :=
| rate_limit | upstream_rate_limit | billing | auth | model_not_found | overloaded
| server_error | timeout | ssl_cert_verification | payload_too_large
| output_cap_exceeded | context_overflow | waf_blocked | connection_refused
| schema_incompatible | malformed_tool_call | empty_completion | client_error | unknown.

#[export] Instance FailureCategory_eq_dec : EqDecision FailureCategory.
Proof. solve_decision. Defined.
#[export] Instance FailoverReason_eq_dec : EqDecision FailoverReason.
Proof. solve_decision. Defined.

Definition FailoverReason_value (r : FailoverReason) : string :=
  match r with
  | rate_limit => "rate_limit" | upstream_rate_limit => "upstream_rate_limit"
  | billing => "billing" | auth => "auth" | model_not_found => "model_not_found"
  | overloaded => "overloaded" | server_error => "server_error" | timeout => "timeout"
  | ssl_cert_verification => "ssl_cert_verification"
  | payload_too_large => "payload_too_large"
  | output_cap_exceeded => "output_cap_exceeded"
  | context_overflow => "context_overflow" | waf_blocked => "waf_blocked"
  | connection_refused => "connection_refused"
  | schema_incompatible => "schema_incompatible"
  | malformed_tool_call => "malformed_tool_call"
  | empty_completion => "empty_completion" | client_error => "client_error"
  | unknown => "unknown"
  end.

Record FailureClassification : Type := {
  fc_category : FailureCategory;
  fc_reason : FailoverReason;
  fc_should_fallback : bool;
  fc_retryable : bool;
  fc_poisons_health : bool;
  fc_is_permanent : bool;
  fc_status_code : option Z;
  fc_retry_after_seconds : option Q;
  fc_message : string;
  (* [details]: an absent dictionary and an empty one are both falsy to every reader *)
  fc_details : odict string json;
}.

(** ** Attempt records

    The token, cost and [transformed] fields of the record are never assigned by
    the gateway and are left out. *)

Record AttemptRecord : Type := {
  attempt_id : string;
  ar_request_id : string;
  ar_operation_id : string;
  ar_provider : string;
  ar_model : string;
  ar_endpoint_id : string;
  ar_attempt_index : nat;
  ar_fallback_index : nat;
  ar_start_time : Q;
  ar_end_time : option Q;
  ar_latency_ms : Q;
  ar_ttft_ms : option Q;
  ar_status_code : option Z;
  ar_success : bool;
  ar_failure : option FailureClassification;
  ar_compacted : bool;
}.

(** [AttemptRecord.finish], [now] being the reading of [time.monotonic()]. *)
Definition attempt_finish (now : Q) (success : bool) (status_code : option Z)
    (failure : option FailureClassification) (a : AttemptRecord) : AttemptRecord :=
  {| attempt_id := attempt_id a; ar_request_id := ar_request_id a;
     ar_operation_id := ar_operation_id a; ar_provider := ar_provider a;
     ar_model := ar_model a; ar_endpoint_id := ar_endpoint_id a;
     ar_attempt_index := ar_attempt_index a; ar_fallback_index := ar_fallback_index a;
     ar_start_time := ar_start_time a;
     ar_end_time := Some now;
     ar_latency_ms := py_max 0 ((now - ar_start_time a) * 1000);
     ar_ttft_ms := ar_ttft_ms a;
     ar_status_code := status_code; ar_success := success; ar_failure := failure;
     ar_compacted := ar_compacted a |}.

Lemma attempt_finish_latency now ok sc f a :
  (0 <= ar_latency_ms (attempt_finish now ok sc f a))%Q.
Proof. apply py_max_ge_l. Qed.
