(* ===== verification/PyText.v ===== *)
(** * Python text operations

    The string methods the gateway uses, on ASCII text: membership, prefixes,
    stripping, splitting, numerals.  They are library functions of the language
    and are written out so that the models that use them evaluate. *)

From stdpp Require Import base tactics list strings.
From Stdlib Require Import QArith Ascii.
From S2P Require Import Prelude.

Definition chr (n : nat) : ascii := ascii_of_nat n.
Definition code (c : ascii) : nat := nat_of_ascii c.

Definition is_digit (c : ascii) : bool := ((48 <=? code c) && (code c <=? 57))%nat.
Definition is_space (c : ascii) : bool :=
  ((code c =? 32) || ((9 <=? code c) && (code c <=? 13)) || ((28 <=? code c) && (code c <=? 31)))%nat.

(** [s.startswith(p)] *)
Definition starts_with (p s : string) : bool := String.prefix p s.

(** [p in s] *)
Fixpoint contains (p s : string) : bool :=
  String.prefix p s || match s with EmptyString => false | String _ s' => contains p s' end.

(** [any(p in s for p in ps)] *)
Definition contains_any (ps : list string) (s : string) : bool := existsb (fun p => contains p s) ps.

Fixpoint lstrip (s : string) : string :=
  match s with
  | String c s' => if is_space c then lstrip s' else s
  | EmptyString => EmptyString
  end.

Fixpoint rev_onto (s acc : string) : string :=
  match s with EmptyString => acc | String c s' => rev_onto s' (String c acc) end.
Definition str_rev (s : string) : string := rev_onto s EmptyString.

(** [s.strip()] *)
Definition strip (s : string) : string := str_rev (lstrip (str_rev (lstrip s))).

(** [s.endswith(p)] *)
Definition ends_with (p s : string) : bool := String.prefix (str_rev p) (str_rev s).

(** [s[:n]] *)
Definition str_take (n : nat) (s : string) : string := String.substring 0 n s.

(** [s.split(sep)] for a one-character separator. *)
Fixpoint split_on (sep : ascii) (s : string) : list string :=
  match s with
  | EmptyString => [EmptyString]
  | String c s' =>
      if ascii_dec c sep then EmptyString :: split_on sep s'
      else match split_on sep s' with
           | w :: ws => String c w :: ws
           | [] => [String c EmptyString]
           end
  end.

(** [sep.join(ws)] *)
Fixpoint join (sep : string) (ws : list string) : string :=
  match ws with
  | [] => EmptyString
  | [w] => w
  | w :: ws' => (w ++ sep ++ join sep ws')%string
  end.

(** The longest prefix of digits, its value and its length, and the rest. *)
Fixpoint digits (s : string) (acc : Z) (len : nat) : Z * nat * string :=
  match s with
  | String c s' =>
      if is_digit c then digits s' (10 * acc + Z.of_nat (code c - 48)) (S len) else (acc, len, s)
  | EmptyString => (acc, len, s)
  end.

Definition Qpow10 (z : Z) : Q :=
  match z with
  | Z.neg p => / inject_Z (10 ^ Z.pos p)
  | _ => inject_Z (10 ^ z)
  end.

Definition sign_of (s : string) : Z * string :=
  match s with
  | String c s' =>
      if (code c =? 45)%nat then ((-1)%Z, s') else if (code c =? 43)%nat then (1%Z, s') else (1%Z, s)
  | EmptyString => (1%Z, s)
  end.

(** [float(s)] on decimal numerals; [None] stands for [ValueError].  The
    literals [inf] and [nan] and digit separators are not modelled. *)
Definition py_float (s : string) : option Q :=
  let '(sg, s1) := sign_of (strip s) in
  let '(ip, il, s2) := digits s1 0 0 in
  let '(fp, fl, s3) := match s2 with
    | String c s' => if (code c =? 46)%nat then digits s' 0 0 else (0%Z, 0%nat, s2)
    | EmptyString => (0%Z, 0%nat, s2)
    end in
  if ((il =? 0) && (fl =? 0))%nat then None else
  let mant := (inject_Z sg * (inject_Z ip + inject_Z fp * Qpow10 (- Z.of_nat fl)))%Q in
  match s3 with
  | EmptyString => Some (Qred mant)
  | String c s' =>
      if ((code c =? 101) || (code c =? 69))%nat then
        let '(es, s4) := sign_of s' in
        let '(e, el, s5) := digits s4 0 0 in
        match s5 with
        | EmptyString => if (el =? 0)%nat then None else Some (Qred (mant * Qpow10 (es * e)))
        | _ => None
        end
      else None
  end.

(** [int(s)] on decimal numerals; [None] stands for [ValueError]. *)
Definition py_int (s : string) : option Z :=
  let '(sg, s1) := sign_of (strip s) in
  let '(ip, il, s2) := digits s1 0 0 in
  match s2 with
  | EmptyString => if (il =? 0)%nat then None else Some (sg * ip)%Z
  | _ => None
  end.

(** [str(n)] for a natural number. *)
Definition digit_string (d : nat) : string := String (chr (48 + d)) "".
Fixpoint nat_to_string (fuel n : nat) : string :=
  match fuel with
  | O => ""
  | S f => if (n <? 10)%nat then digit_string n
           else (nat_to_string f (n / 10) ++ digit_string (n mod 10))%string
  end.
Definition py_str_nat (n : nat) : string := nat_to_string (S n) n.

(** [str(z)] *)
Definition py_str_int (z : Z) : string :=
  if (z <? 0)%Z then ("-" ++ py_str_nat (Z.to_nat (- z)))%string else py_str_nat (Z.to_nat z).

(** [s.isdigit()] on ASCII text. *)
Fixpoint all_digits (s : string) : bool :=
  match s with EmptyString => true | String c s' => is_digit c && all_digits s' end.
Definition py_isdigit (s : string) : bool := truthy s && all_digits s.

(** [s[-n:]] *)
Definition str_last (n : nat) (s : string) : string := String.substring (String.length s - n) n s.

(** The part of [s] before the first occurrence of [sep]: [s.split(sep)[0]]. *)
Fixpoint before (sep s : string) : string :=
  if String.prefix sep s then EmptyString
  else match s with EmptyString => EmptyString | String c s' => String c (before sep s') end.

(** [s.splitlines()] *)
Definition is_linebreak (c : ascii) : bool :=
  let n := code c in ((10 <=? n) && (n <=? 13) || (28 <=? n) && (n <=? 30))%nat.
Fixpoint splitlines_go (s : string) : string * list string :=
  match s with
  | EmptyString => (EmptyString, [])
  | String c s' =>
      let '(w, ws) := splitlines_go s' in
      if is_linebreak c then
        let rest := match s' with
          | EmptyString => []
          | String c2 _ =>
              (* a line feed after a carriage return belongs to the same break *)
              if ((code c =? 13) && (code c2 =? 10))%nat then ws else w :: ws
          end in
        (EmptyString, rest)
      else (String c w, ws)
  end.
Definition splitlines (s : string) : list string :=
  match s with
  | EmptyString => []
  | _ => let '(w, ws) := splitlines_go s in w :: ws
  end.

(** ** Facts *)

Lemma app_string_cons c a b : (String c a ++ b)%string = String c (a ++ b)%string.
Proof. reflexivity. Qed.

Lemma prefix_true p s : String.prefix p s = true <-> exists t, s = (p ++ t)%string.
Proof.
  revert s. induction p as [|c p IH]; intros s; simpl.
  - split; [intros _; by exists s | by destruct s].
  - destruct s as [|c' s]; [split; [done | intros [t Ht]; done]|].
    change (String.prefix (String c p) (String c' s)) with (if ascii_dec c c' then String.prefix p s else false).
    setoid_rewrite app_string_cons.
    destruct (ascii_dec c c') as [->|Hne].
    + rewrite IH. split; intros [t Ht]; exists t; [by subst | by simplify_eq].
    + split; [done | intros [t Ht]; simplify_eq].
Qed.

(** Membership of a substring, as a proposition. *)
Lemma contains_unfold p s :
  contains p s = String.prefix p s || match s with EmptyString => false | String _ s' => contains p s' end.
Proof. by destruct s. Qed.

Lemma contains_true p s : contains p s = true <-> exists a b, s = (a ++ p ++ b)%string.
Proof.
  induction s as [|c s IH]; rewrite contains_unfold, orb_true_iff, prefix_true.
  - split.
    + intros [[t Ht]|?]; [by exists EmptyString, t | done].
    + intros (a & b & Hab). left. destruct a; [by exists b | done].
  - rewrite IH. split.
    + intros [[t Ht]|(a & b & Hab)]; [by exists EmptyString, t | exists (String c a), b; by subst].
    + intros (a & b & Hab). destruct a as [|c' a]; [left; by exists b|].
      right. exists a, b. rewrite app_string_cons in Hab. by simplify_eq.
Qed.

Lemma split_on_nonempty sep s : split_on sep s <> [].
Proof. destruct s as [|c s]; simpl; [done|]. destruct (ascii_dec c sep); [done|]. by destruct (split_on sep s). Qed.

(** Splitting and joining again is the identity. *)
Lemma join_split sep s : join (String sep EmptyString) (split_on sep s) = s.
Proof.
  induction s as [|c s IH]; [done|]. simpl.
  pose proof (split_on_nonempty sep s) as Hn.
  destruct (ascii_dec c sep) as [->|].
  - destruct (split_on sep s) as [|w ws] eqn:E; [done|]. by rewrite <- IH.
  - destruct (split_on sep s) as [|w ws] eqn:E; [done|]. rewrite <- IH. by destruct ws.
Qed.

Example splitlines_examples :
  splitlines (String "a" (String (chr 10) (String (chr 10) "b"))) = ["a"; ""; "b"] /\
  splitlines (String "a" (String (chr 13) (String (chr 10) "b"))) = ["a"; "b"] /\
  splitlines (String "a" (String (chr 13) (String (chr 10) (String (chr 10) "b")))) = ["a"; ""; "b"] /\
  splitlines (String "a" (String (chr 10) "")) = ["a"].
Proof. vm_compute. repeat split. Qed.

Example py_float_examples :
  py_float "12.5" = Some (25 # 2) /\ py_float " -3e2 " = Some (inject_Z (-300)) /\ py_float "x" = None /\
  py_float "" = None /\ py_int "-42" = Some (-42)%Z /\ py_int "4.2" = None.
Proof. vm_compute. repeat split. Qed.
