(* ===== verification/Utf8.v ===== *)
(** * UTF-8

    [bytes.decode("utf-8")] and [str.strip()] on text held as its UTF-8 bytes.
    Text is a sequence of bytes throughout the library, so decoding is the
    identity on well-formed input and fails on the rest; stripping removes the
    encodings of Unicode white space. *)

From stdpp Require Import base tactics list strings.
From Stdlib Require Import Ascii.
From S2P Require Import Prelude PyText.

Definition byte_in (lo hi : nat) (c : ascii) : bool := ((lo <=? code c) && (code c <=? hi))%nat.
(** A continuation byte. *)
Definition is_cont : ascii -> bool := byte_in 128 191.

(** The strict decoder accepts the well-formed byte sequences of the standard:
    no overlong forms, no surrogates, nothing above U+10FFFF. *)
Fixpoint utf8_valid (s : string) : bool :=
  match s with
  | EmptyString => true
  | String a s1 =>
      if (code a <? 128)%nat then utf8_valid s1 else
      match s1 with
      | EmptyString => false
      | String b s2 =>
          if byte_in 194 223 a then is_cont b && utf8_valid s2 else
          match s2 with
          | EmptyString => false
          | String c s3 =>
              if byte_in 224 239 a then
                (if (code a =? 224)%nat then byte_in 160 191 b
                 else if (code a =? 237)%nat then byte_in 128 159 b else is_cont b)
                && is_cont c && utf8_valid s3
              else
              match s3 with
              | EmptyString => false
              | String d s4 =>
                  byte_in 240 244 a &&
                  (if (code a =? 240)%nat then byte_in 144 191 b
                   else if (code a =? 244)%nat then byte_in 128 143 b else is_cont b)
                  && is_cont c && is_cont d && utf8_valid s4
              end
          end
      end
  end.

(** [line_bytes.decode("utf-8")]; [None] stands for [UnicodeDecodeError]. *)
Definition utf8_decode (s : string) : option string := if utf8_valid s then Some s else None.

(** [s[:n]]: the first [n] characters, each with its continuation bytes. *)
Fixpoint utake (n : nat) (s : string) : string :=
  match s with
  | EmptyString => EmptyString
  | String c s' =>
      if is_cont c then String c (utake n s')
      else match n with O => EmptyString | S n' => String c (utake n' s') end
  end.

(** The UTF-8 encoding of a code point that is not a surrogate. *)
Definition byte (n : Z) : ascii := chr (Z.to_nat n).
Definition utf8_encode (cp : Z) : string :=
  (if cp <? 128 then String (byte cp) ""
   else if cp <? 2048 then String (byte (192 + cp / 64)) (String (byte (128 + cp mod 64)) "")
   else if cp <? 65536 then
     String (byte (224 + cp / 4096)) (String (byte (128 + cp / 64 mod 64)) (String (byte (128 + cp mod 64)) ""))
   else
     String (byte (240 + cp / 262144)) (String (byte (128 + cp / 4096 mod 64))
       (String (byte (128 + cp / 64 mod 64)) (String (byte (128 + cp mod 64)) ""))))%Z.

(** [s.decode("utf-8", errors="replace")]: each maximal ill-formed piece becomes
    [instead], which is U+FFFD.  A lead byte is given by the number of continuation
    bytes it needs and the range of the first of them. *)
Definition lead (a : ascii) : option (nat * (nat * nat)) :=
  if byte_in 194 223 a then Some (1, (128, 191))
  else if byte_in 224 239 a then
    Some (2, if (code a =? 224)%nat then (160, 191) else if (code a =? 237)%nat then (128, 159) else (128, 191))
  else if byte_in 240 244 a then
    Some (3, if (code a =? 240)%nat then (144, 191) else if (code a =? 244)%nat then (128, 143) else (128, 191))
  else None.
Fixpoint utf8_lossy (instead s : string) : string :=
  match s with
  | EmptyString => EmptyString
  | String a s1 =>
      if (code a <? 128)%nat then String a (utf8_lossy instead s1) else
      match lead a with
      | None => instead ++ utf8_lossy instead s1
      | Some (k, (lo, hi)) =>
          match s1 with
          | EmptyString => instead
          | String b s2 =>
              if byte_in lo hi b then
                match k with
                | 1 => String a (String b (utf8_lossy instead s2))
                | _ =>
                    match s2 with
                    | EmptyString => instead
                    | String c s3 =>
                        if is_cont c then
                          match k with
                          | 2 => String a (String b (String c (utf8_lossy instead s3)))
                          | _ =>
                              match s3 with
                              | EmptyString => instead
                              | String d s4 =>
                                  if is_cont d then String a (String b (String c (String d (utf8_lossy instead s4))))
                                  else instead ++ utf8_lossy instead s3
                              end
                          end
                        else instead ++ utf8_lossy instead s2
                    end
                end
              else instead ++ utf8_lossy instead s1
          end
      end
  end%string.
Definition replacement : string := utf8_encode 65533.
Definition utf8_replace : string -> string := utf8_lossy replacement.
(** [errors="ignore"] *)
Definition utf8_ignore : string -> string := utf8_lossy "".

(** The white space beyond ASCII that [str.strip()] removes. *)
Definition wide_spaces : list string :=
  map utf8_encode ([133; 160; 5760] ++ map (fun n => 8192 + Z.of_nat n)%Z (seq 0 11) ++ [8232; 8233; 8239; 8287; 12288])%Z.

(** One leading white-space character, given the encodings to look for. *)
Definition space_prefix (spaces : list string) (s : string) : option nat :=
  match s with
  | EmptyString => None
  | String c _ => if is_space c then Some 1%nat
                  else String.length <$> find (fun w => String.prefix w s) spaces
  end.
Fixpoint str_drop (n : nat) (s : string) : string :=
  match n, s with
  | S n', String _ s' => str_drop n' s'
  | _, _ => s
  end.
Fixpoint strip_left (spaces : list string) (fuel : nat) (s : string) : string :=
  match fuel with
  | O => s
  | S f => match space_prefix spaces s with
           | Some n => strip_left spaces f (str_drop n s)
           | None => s
           end
  end.
Definition ulstrip (s : string) : string := strip_left wide_spaces (String.length s) s.
Definition urstrip (s : string) : string :=
  str_rev (strip_left (map str_rev wide_spaces) (String.length s) (str_rev s)).
(** [s.strip()] *)
Definition ustrip (s : string) : string := urstrip (ulstrip s).

(** The length in bytes of the line boundary at the head of [s]: those of
    [str.splitlines()], with CR LF as one. *)
Definition break_len (s : string) : option nat :=
  match s with
  | EmptyString => None
  | String c s' =>
      if is_linebreak c then
        match s' with
        | String d _ => if ((code c =? 13) && (code d =? 10))%nat then Some 2%nat else Some 1%nat
        | EmptyString => Some 1%nat
        end
      else String.length <$> find (fun w => String.prefix w s) (map utf8_encode [133; 8232; 8233]%Z)
  end.
Fixpoint usplit_go (fuel : nat) (s : string) : list string :=
  match fuel with
  | O => [s]
  | S f =>
      match s with
      | EmptyString => [EmptyString]
      | String c s' =>
          match break_len s with
          | Some n => EmptyString :: (if String.eqb (str_drop n s) "" then [] else usplit_go f (str_drop n s))
          | None => match usplit_go f s' with w :: ws => String c w :: ws | [] => [String c ""] end
          end
      end
  end.
(** [s.splitlines()] *)
Definition usplitlines (s : string) : list string := if String.eqb s "" then [] else usplit_go (S (String.length s)) s.

Example usplitlines_examples :
  usplitlines (String "a" (String (chr 10) (String (chr 10) "b"))) = ["a"; ""; "b"] /\
  usplitlines (String "a" (String (chr 13) (String (chr 10) "b"))) = ["a"; "b"] /\
  usplitlines (String "a" (utf8_encode 8232 ++ "b")) = ["a"; "b"] /\ usplitlines (String "a" (String (chr 10) "")) = ["a"] /\
  usplitlines (String (chr 10) "") = [""].
Proof. vm_compute. repeat split. Qed.

Example ustrip_examples :
  ustrip "  a b  " = "a b" /\ ustrip (String (chr 194) (String (chr 160) "x")) = "x" /\
  ustrip (String "x" (utf8_encode 8232)) = "x" /\ ustrip (String (chr 195) (String (chr 160) "")) = String (chr 195) (String (chr 160) "") /\
  utf8_valid (utf8_encode 8364) = true /\ utf8_valid (String (chr 226) (String (chr 130) "")) = false.
Proof. vm_compute. repeat split. Qed.

(** ** Facts *)

Lemma string_ind2 (P : string -> Prop) :
  P "" -> (forall c, P (String c "")) -> (forall a b s, P s -> P (String b s) -> P (String a (String b s))) ->
  forall s, P s.
Proof.
  intros H0 H1 H2. cut (forall s, P s /\ forall c, P (String c s)); [intros H s; apply H|].
  induction s as [|c s [IH1 IH2]]; split; auto.
Qed.

Lemma length_app_string a b : String.length (a ++ b)%string = (String.length a + String.length b)%nat.
Proof. induction a as [|c a IH]; [done|]. rewrite app_string_cons. simpl. by rewrite IH. Qed.
Lemma app_string_assoc a b c : ((a ++ b) ++ c = a ++ b ++ c)%string.
Proof. induction a as [|x a IH]; [done|]. by rewrite !app_string_cons, IH. Qed.
Lemma app_string_nil a : (a ++ "")%string = a.
Proof. induction a as [|x a IH]; [done|]. by rewrite app_string_cons, IH. Qed.

(** Well-formedness is closed under concatenation. *)
Lemma utf8_valid_app a b : utf8_valid a = true -> utf8_valid b = true -> utf8_valid (a ++ b)%string = true.
Proof.
  intros Ha Hb. remember (String.length a) as n eqn:Hn.
  revert a Hn Ha. induction n as [n IH] using lt_wf_ind. intros a Hn Ha.
  destruct a as [|c1 a]; [done|]. rewrite app_string_cons. cbn [utf8_valid] in *.
  destruct (code c1 <? 128)%nat; [by eapply IH; [|reflexivity|]; simpl in *; [lia|]|].
  destruct a as [|c2 a]; [done|]. rewrite app_string_cons.
  destruct (byte_in 194 223 c1).
  { apply andb_true_iff in Ha as [-> Ha]. by eapply IH; [|reflexivity|]; simpl in *; [lia|]. }
  destruct a as [|c3 a]; [done|]. rewrite app_string_cons.
  destruct (byte_in 224 239 c1).
  { apply andb_true_iff in Ha as [-> Ha]. by eapply IH; [|reflexivity|]; simpl in *; [lia|]. }
  destruct a as [|c4 a]; [done|]. rewrite app_string_cons.
  apply andb_true_iff in Ha as [-> Ha]. by eapply IH; [|reflexivity|]; simpl in *; [lia|].
Qed.

(** ASCII text is well formed. *)
Fixpoint all_chars (p : ascii -> bool) (s : string) : bool :=
  match s with EmptyString => true | String c s' => p c && all_chars p s' end.
Definition is_ascii (c : ascii) : bool := (code c <? 128)%nat.

Lemma all_chars_app p a b : all_chars p (a ++ b)%string = all_chars p a && all_chars p b.
Proof. induction a as [|c a IH]; [done|]. rewrite app_string_cons. simpl. by rewrite IH, andb_assoc. Qed.
Lemma ascii_utf8 s : all_chars is_ascii s = true -> utf8_valid s = true.
Proof.
  induction s as [|c s IH]; [done|]. intros [Hc Hs]%andb_true_iff. cbn [utf8_valid]. unfold is_ascii in Hc.
  rewrite Hc. by apply IH.
Qed.

Lemma rev_onto_app a b acc : rev_onto (a ++ b) acc = rev_onto b (rev_onto a acc).
Proof. revert acc. induction a as [|c a IH]; intros acc; [done|]. rewrite app_string_cons. apply IH. Qed.
Lemma rev_onto_acc a acc : rev_onto a acc = (str_rev a ++ acc)%string.
Proof.
  revert acc. induction a as [|c a IH]; intros acc; [done|]. unfold str_rev. simpl. rewrite !IH, app_string_assoc. done.
Qed.
Lemma str_rev_app a b : str_rev (a ++ b) = (str_rev b ++ str_rev a)%string.
Proof. unfold str_rev at 1. by rewrite rev_onto_app, rev_onto_acc. Qed.
Lemma str_rev_involutive a : str_rev (str_rev a) = a.
Proof.
  induction a as [|c a IH]; [done|]. change (String c a) with (String c "" ++ a)%string.
  by rewrite str_rev_app, str_rev_app, IH.
Qed.

(** Text that begins and ends with visible ASCII characters is left alone. *)
Definition visible (c : ascii) : bool := byte_in 33 126 c.
Lemma visible_no_space c s spaces : visible c = true ->
  Forall (fun w => match w with String d _ => is_ascii d = false | EmptyString => False end) spaces ->
  space_prefix spaces (String c s) = None.
Proof.
  intros Hc Hw. unfold space_prefix.
  assert (is_space c = false /\ is_ascii c = true) as [-> Ha].
  { revert Hc. clear. unfold visible, byte_in, is_space, is_ascii. generalize (code c). intros n H.
    apply andb_true_iff in H as [H1%Nat.leb_le H2%Nat.leb_le]. split; [|apply Nat.ltb_lt; lia].
    rewrite !orb_false_iff, !andb_false_iff, Nat.eqb_neq, !Nat.leb_gt. lia. }
  destruct (find _ _) as [w|] eqn:E; [|done]. apply List.find_some in E as [Hin Hp]. rewrite Forall_forall in Hw.
  specialize (Hw w ltac:(by apply list_elem_of_In)). destruct w as [|d w]; [done|].
  simpl in Hp. destruct (ascii_dec d c) as [->|]; [congruence | done].
Qed.

Lemma ustrip_visible a b s : visible a = true -> visible b = true ->
  ustrip (String a (s ++ String b ""))%string = String a (s ++ String b "")%string.
Proof.
  intros Ha Hb. unfold ustrip, ulstrip.
  assert (forall fuel x spaces, strip_left spaces fuel x = x \/ space_prefix spaces x <> None) as Hstop.
  { intros [|f] x spaces; simpl; [by left|]. destruct (space_prefix spaces x); [by right | by left]. }
  destruct (Hstop (String.length (String a (s ++ String b ""))) (String a (s ++ String b ""))%string wide_spaces) as [-> | Hne].
  2: { destruct Hne. apply visible_no_space; [done|]. by vm_compute; repeat constructor. }
  unfold urstrip. set (t := String a (s ++ String b "")%string).
  assert (str_rev t = String b (str_rev (String a s))) as Et.
  { subst t. change (String a (s ++ String b ""))%string with (String a s ++ String b "")%string. by rewrite str_rev_app. }
  destruct (Hstop (String.length t) (str_rev t) (map str_rev wide_spaces)) as [-> | Hne]; [apply str_rev_involutive|].
  destruct Hne. rewrite Et. apply visible_no_space; [done|]. by vm_compute; repeat constructor.
Qed.

(** Lenient decoding leaves well-formed text alone. *)
Lemma utf8_lossy_valid instead s : utf8_valid s = true -> utf8_lossy instead s = s.
Proof.
  induction s as [s IH] using (induction_ltof1 _ String.length). unfold ltof in IH. destruct s as [|a s]; [done|].
  cbn [utf8_valid utf8_lossy]. destruct (code a <? 128)%nat eqn:Ea; [intros H; rewrite IH; [done|cbn; lia|done]|].
  destruct s as [|b s]; [done|]. unfold lead. destruct (byte_in 194 223 a) eqn:E1.
  { intros [Hb H]%andb_true_iff. unfold is_cont in Hb. rewrite Hb, IH; [done|cbn; lia|done]. }
  destruct s as [|c s]; [done|]. destruct (byte_in 224 239 a) eqn:E2.
  { intros [[Hb Hc]%andb_true_iff H]%andb_true_iff. unfold is_cont in Hb. 
    destruct (code a =? 224)%nat, (code a =? 237)%nat; rewrite Hb, Hc, IH; try done; cbn; lia. }
  destruct s as [|d s]; [done|].
  intros [[[[He Hb]%andb_true_iff Hc]%andb_true_iff Hd]%andb_true_iff H]%andb_true_iff. rewrite He. unfold is_cont in Hb.
  destruct (code a =? 240)%nat, (code a =? 244)%nat; rewrite Hb, Hc, Hd, IH; try done; cbn; lia.
Qed.
Lemma utf8_replace_valid s : utf8_valid s = true -> utf8_replace s = s.
Proof. apply utf8_lossy_valid. Qed.

(** ** Numerals *)

Lemma app_last_inj a b c d : (a ++ String c "" = b ++ String d "")%string -> a = b /\ c = d.
Proof.
  revert b. induction a as [|x a IH]; intros [|y b] H.
  - by injection H.
  - exfalso. rewrite app_string_cons in H. injection H as _ H. by destruct b.
  - exfalso. rewrite app_string_cons in H. injection H as _ H. by destruct a.
  - rewrite !app_string_cons in H. injection H as -> [-> ->]%IH. done.
Qed.
Lemma app_string_inj a b c : (a ++ b = a ++ c)%string -> b = c.
Proof. induction a as [|x a IH]; [done|]. rewrite !app_string_cons. intros [= H]. by apply IH. Qed.

Lemma nat_to_string_nonempty f n : nat_to_string (S f) n <> "".
Proof.
  cbn [nat_to_string]. destruct (n <? 10)%nat; [done|]. destruct (nat_to_string f (n / 10)); done.
Qed.
Lemma digit_code d : (d < 10)%nat -> code (chr (48 + d)) = (48 + d)%nat.
Proof. intros H. unfold code, chr. apply nat_ascii_embedding. lia. Qed.

Lemma nat_to_string_inj f g n m : (n < f)%nat -> (m < g)%nat -> nat_to_string f n = nat_to_string g m -> n = m.
Proof.
  assert (forall x y, (x < 10)%nat -> (y < 10)%nat -> chr (48 + x) = chr (48 + y) -> x = y) as Hdigit.
  { intros x y Hx Hy E. apply (f_equal code) in E. rewrite !digit_code in E by done. lia. }
  revert g n m. induction f as [|f IH]; intros [|g] n m Hn Hm; try lia. cbn [nat_to_string].
  pose proof (Nat.mod_upper_bound n 10) as Hmn. pose proof (Nat.mod_upper_bound m 10) as Hmm.
  destruct (Nat.ltb_spec n 10) as [Hn1|Hn1], (Nat.ltb_spec m 10) as [Hm1|Hm1]; unfold digit_string; intros E.
  - injection E as E. by apply Hdigit.
  - exfalso. destruct g as [|g]; [lia|]. pose proof (nat_to_string_nonempty g (m / 10)) as Hne.
    destruct (nat_to_string (S g) (m / 10)) as [|a s]; [done|]. rewrite app_string_cons in E. injection E as _ E. by destruct s.
  - exfalso. destruct f as [|f]; [lia|]. pose proof (nat_to_string_nonempty f (n / 10)) as Hne.
    destruct (nat_to_string (S f) (n / 10)) as [|a s]; [done|]. rewrite app_string_cons in E. injection E as _ E. by destruct s.
  - apply app_last_inj in E as [E1 E2]. apply Hdigit in E2; [|lia..].
    apply IH in E1; [|apply Nat.Div0.div_lt_upper_bound; lia..].
    rewrite (Nat.div_mod_eq n 10), (Nat.div_mod_eq m 10). congruence.
Qed.
Lemma py_str_nat_inj n m : py_str_nat n = py_str_nat m -> n = m.
Proof. apply nat_to_string_inj; lia. Qed.
