(* ===== verification/Accelerator.v ===== *)
(** * Performance accelerator

    [src/durallm/performance/accelerator.py]: the frame relay, the token estimators
    and the ring-buffer metrics.  Bytes are text; a call of the generator [feed] is
    run to its end.  A duration is stored exactly here, not rounded to 32 bits.
    The event-loop helpers run on a small model of asyncio: a policy, the loop it has
    set, and the loops made so far. *)

From stdpp Require Import base tactics list strings.
From Stdlib Require Import QArith Ascii Sorted.
From S2P Require Import Prelude PyText Utf8.

(** ** Frame relay *)

Module Relay.

(** [bytes.find(p)] *)
Fixpoint find_at (p s : string) : option nat :=
  if String.prefix p s then Some O
  else match s with EmptyString => None | String _ s' => S <$> find_at p s' end.

Definition lf : ascii := chr 10.
Definition cr : ascii := chr 13.
Definition LF2 : string := String lf (String lf "").
Definition CRLF2 : string := String cr (String lf (String cr (String lf ""))).

Record FastStreamRelay : Type := {
  buffer : string;
  check_errors : bool;
  bytes_relayed : nat;
  frames_relayed : nat;
}.
Definition new_relay (delimiter_check_errors : bool) : FastStreamRelay :=
  {| buffer := ""; check_errors := delimiter_check_errors; bytes_relayed := 0; frames_relayed := 0 |}.

(** Where the next frame ends. *)
Definition end_frame (b : string) : option nat :=
  match find_at LF2 b with
  | Some idx => Some (idx + 2)%nat
  | None => (fun idx => idx + 4)%nat <$> find_at CRLF2 b
  end.
(** The scan of [feed]; every frame takes bytes off the buffer. *)
Fixpoint relay_scan (fuel : nat) (b : string) : list string * string :=
  match fuel with
  | O => ([], b)
  | S f =>
      match end_frame b with
      | None => ([], b)
      | Some e => let '(fs, rest) := relay_scan f (str_drop e b) in (str_take e b :: fs, rest)
      end
  end.
Definition relay_feed (chunk : string) (r : FastStreamRelay) : list string * FastStreamRelay :=
  if negb (truthy chunk) then ([], r) else
  let b := (buffer r ++ chunk)%string in
  let '(fs, rest) := relay_scan (String.length b) b in
  (fs, {| buffer := rest; check_errors := check_errors r; bytes_relayed := bytes_relayed r + String.length chunk;
          frames_relayed := frames_relayed r + length fs |}).
Definition relay_flush (r : FastStreamRelay) : option string * FastStreamRelay :=
  if negb (truthy (buffer r)) then (None, r)
  else (Some (buffer r), {| buffer := ""; check_errors := check_errors r; bytes_relayed := bytes_relayed r; frames_relayed := S (frames_relayed r) |}).

Definition q (s : string) : string := String (chr 34) (s ++ String (chr 34) "")%string.
Definition detect_stream_error (frame : string) (r : FastStreamRelay) : bool :=
  check_errors r && (contains (q "error" ++ ":") frame || contains (q "statusCode" ++ ":") frame || contains (q "type" ++ ":" ++ q "error") frame).

(** A whole stream: its chunks in order. *)
Fixpoint relay_all (chunks : list string) (r : FastStreamRelay) : list string * FastStreamRelay :=
  match chunks with
  | [] => ([], r)
  | c :: cs => let '(f1, r1) := relay_feed c r in let '(f2, r2) := relay_all cs r1 in (f1 ++ f2, r2)
  end.
End Relay.

(** ** Token estimators *)

Module FastTokenEstimator.
Definition in_text (s : string) (c : ascii) : bool := contains (String c "") s.
(** [ch in s]; what the two sets hold is ASCII, so that bytes can be looked up. *)
Definition SPACES : string := String (chr 32) (String (chr 9) (String (chr 10) (String (chr 13) ""))).
Definition PUNCTUATION : string :=
  ("{}[]():;,." ++ String (chr 34) (String (chr 39) (String (chr 92) "")) ++ "/<>!@#$%^&*+-=|~" ++ String (chr 96) "?")%string.
Fixpoint count (p : ascii -> bool) (s : string) : nat :=
  match s with EmptyString => O | String c s' => ((if p c then 1 else 0) + count p s')%nat end.

(** [len(text)]: the characters that begin in it. *)
Definition ulen (s : string) : nat := count (fun c => negb (is_cont c)) s.

Definition estimate_text_tokens (text : string) : Z :=
  let n := Z.of_nat (ulen text) in
  if (n =? 0)%Z then 0 else if (n <=? 4)%Z then 1 else
  let sample := utake (Nat.min (ulen text) 256) text in
  let sample_len := inject_Z (Z.min n 256) in
  let spaces := inject_Z (Z.of_nat (count (in_text SPACES) sample)) in
  let punct := inject_Z (Z.of_nat (count (fun c => negb (in_text SPACES c) && in_text PUNCTUATION c) sample)) in
  if (12 # 100) ≺ punct / sample_len then Z.max 1 (n * 10 / 32)
  else if (20 # 100) ≺ spaces / sample_len then Z.max 1 (Z.shiftr n 2)
  else Z.max 1 (n * 10 / 37).

Definition estimate_bytes_tokens (data : string) : Z :=
  let n := Z.of_nat (String.length data) in
  if (n <=? 4)%Z then (if (0 <? n)%Z then 1 else 0) else Z.max 1 (n * 10 / 38).
End FastTokenEstimator.

(** ** Ring-buffer metrics *)

Module Ring.

(** [while power < capacity: power <<= 1] *)
Fixpoint next_power (fuel : nat) (power capacity : Z) : Z :=
  match fuel with
  | O => power
  | S f => if (power <? capacity)%Z then next_power f (Z.shiftl power 1) capacity else power
  end.

Record FastSlidingWindow : Type := {
  ring_capacity : Z;
  mask : Z;
  duration_s : Q;
  head_ : Z;
  count_ : Z;
  timestamps : list Q;
  outcomes : list bool;
  durations : list Q;
}.
Definition new_window (capacity : Z) (window_duration_s : Q) : FastSlidingWindow :=
  let power := next_power (Z.to_nat capacity) 1 capacity in
  {| ring_capacity := power; mask := power - 1; duration_s := window_duration_s; head_ := 0; count_ := 0;
     timestamps := replicate (Z.to_nat power) 0%Q; outcomes := replicate (Z.to_nat power) false; durations := replicate (Z.to_nat power) 0%Q |}.

(** [record(success, duration_ms, timestamp)] at the time [now] it ends up with. *)
Definition ring_record (success : bool) (duration_ms now : Q) (w : FastSlidingWindow) : FastSlidingWindow :=
  let idx := Z.to_nat (Z.land (head_ w) (mask w)) in
  {| ring_capacity := ring_capacity w; mask := mask w; duration_s := duration_s w;
     head_ := head_ w + 1; count_ := if (count_ w <? ring_capacity w)%Z then count_ w + 1 else count_ w;
     timestamps := <[idx := now]> (timestamps w); outcomes := <[idx := success]> (outcomes w); durations := <[idx := duration_ms]> (durations w) |}.

Record totals : Type := { total_calls : Z; successful_calls : Z; failed_calls : Z; total_duration : Q }.
Definition no_totals : totals := {| total_calls := 0; successful_calls := 0; failed_calls := 0; total_duration := 0 |}.
Definition add_call (success : bool) (duration : Q) (t : totals) : totals :=
  {| total_calls := total_calls t + 1; successful_calls := successful_calls t + (if success then 1 else 0);
     failed_calls := failed_calls t + (if success then 0 else 1); total_duration := total_duration t + duration |}.

(** The backward scan; [None] is an index out of the arrays. *)
Fixpoint scan_back (w : FastSlidingWindow) (cutoff : Q) (n : nat) (i : Z) (t : totals) : option totals :=
  match n with
  | O => Some t
  | S n' =>
      let idx := Z.to_nat (Z.land (head_ w - 1 - i) (mask w)) in
      match timestamps w !! idx, outcomes w !! idx, durations w !! idx with
      | Some ts, Some ok, Some d => if ts ≺ cutoff then Some t else scan_back w cutoff n' (i + 1) (add_call ok d t)
      | _, _, _ => None
      end
  end.

Record metrics : Type := { m_totals : totals; failure_rate : Q; avg_latency_ms : Q }.
Definition summarise (t : totals) : metrics :=
  let n := inject_Z (total_calls t) in
  {| m_totals := t;
     failure_rate := if (0 <? total_calls t)%Z then inject_Z (failed_calls t) / n * 100 else 0;
     avg_latency_ms := if (0 <? total_calls t)%Z then total_duration t / n else 0 |}.
Definition ring_snapshot (now : Q) (w : FastSlidingWindow) : option metrics :=
  summarise <$> scan_back w (now - duration_s w) (Z.to_nat (count_ w)) 0 no_totals.
End Ring.

(** ** Event loops *)

Module EventLoop.
Inductive policy : Type := StandardPolicy | UvloopPolicy.
#[export] Instance policy_eq_dec : EqDecision policy.
Proof. solve_decision. Defined.

(** A policy object remembers the loop that was set under it; loops are numbered in the
    order they are made, each by the policy in force. *)
Record Asyncio : Type := { current_policy : policy; set_loop : option nat; loops : list policy }.

Section loops.
(** Whether uvloop can be imported, and whether [asyncio.get_event_loop] makes a loop
    when none is set (it raises RuntimeError otherwise). *)
Context (uvloop_installed makes_loop : bool).
Local Abbreviation L := (M unit Asyncio).

(** [is_uvloop_active] *)
Definition is_uvloop_active : L bool :=
  if uvloop_installed then gets (fun a => bool_decide (current_policy a = UvloopPolicy)) else mret false.
(** [uvloop.install()]: a fresh policy object. *)
Definition install : L unit := modify (fun a => {| current_policy := UvloopPolicy; set_loop := None; loops := loops a |}).
(** [asyncio.new_event_loop()], [asyncio.set_event_loop(loop)], [asyncio.get_event_loop()] *)
Definition new_event_loop : L nat := fun a n =>
  (Ok (length (loops a)), {| current_policy := current_policy a; set_loop := set_loop a; loops := loops a ++ [current_policy a] |}, n).
Definition set_event_loop (i : nat) : L unit :=
  modify (fun a => {| current_policy := current_policy a; set_loop := Some i; loops := loops a |}).
Definition get_event_loop : L nat :=
  a ← get;
  match set_loop a with
  | Some i => mret i
  | None => if makes_loop then (i ← new_event_loop; set_event_loop i ;; mret i) else raise tt
  end.
(** [get_accelerated_event_loop] *)
Definition get_accelerated_event_loop : L nat :=
  (if uvloop_installed then active ← is_uvloop_active; when (negb active) install else mret tt) ;;
  try_except get_event_loop (i ← new_event_loop; set_event_loop i ;; mret i).
End loops.
End EventLoop.


(** ** What the accelerator guarantees

    The relay loses and invents no byte; the ring buffer counts exactly the newest
    entries of its history; the estimators stay in a fixed band. *)
Module AcceleratorProps.

(** ** The relay *)

Import Relay.

Fixpoint texts (l : list string) : string := match l with [] => "" | w :: l' => (w ++ texts l')%string end.
Lemma texts_app a b : texts (a ++ b) = (texts a ++ texts b)%string.
Proof. induction a as [|w a IH]; [done|]. cbn [texts app]. by rewrite IH, app_string_assoc. Qed.

Lemma take_drop_string n s : (str_take n s ++ str_drop n s)%string = s.
Proof. revert n. induction s as [|c s IH]; intros [|n]; try done. cbn. by rewrite <- (IH n) at 3. Qed.
Lemma take_app_string n a b : (n <= String.length a)%nat -> str_take n (a ++ b) = str_take n a /\ str_drop n (a ++ b) = (str_drop n a ++ b)%string.
Proof.
  revert n. induction a as [|c a IH]; intros [|n] Hn; cbn in Hn; try lia; [by destruct b | done|].
  rewrite app_string_cons. destruct (IH n) as [H1 H2]; [lia|]. cbn. split; [f_equal; exact H1 | exact H2].
Qed.
Lemma drop_length n s : (String.length (str_drop n s) = String.length s - n)%nat.
Proof. revert n. induction s as [|c s IH]; intros [|n]; try done. cbn. apply IH. Qed.

Lemma prefix_app p a b : (String.length p <= String.length a)%nat -> String.prefix p (a ++ b) = String.prefix p a.
Proof.
  revert a. induction p as [|c p IH]; intros a Hp; [by destruct a, b|]. destruct a as [|d a]; cbn in Hp; [lia|]. rewrite app_string_cons. cbn.
  destruct (ascii_dec c d); [|done]. apply IH. lia.
Qed.
Lemma prefix_length p s : String.prefix p s = true -> (String.length p <= String.length s)%nat.
Proof.
  revert s. induction p as [|c p IH]; intros [|d s] H; cbn in *; try lia; try done. destruct (ascii_dec c d); [|done].
  specialize (IH s H). lia.
Qed.
Lemma prefix_take p s : String.prefix p s = true -> str_take (String.length p) s = p.
Proof.
  revert s. induction p as [|c p IH]; intros [|d s] H; try done. cbn in H. destruct (ascii_dec c d) as [->|]; [|done].
  cbn. f_equal. by apply IH.
Qed.

Lemma find_bound p s i : find_at p s = Some i -> (i + String.length p <= String.length s)%nat.
Proof.
  revert i. induction s as [|c s IH]; intros i; cbn [find_at].
  - destruct (String.prefix p "") eqn:E; [|done]. intros [= <-]. by apply prefix_length in E.
  - destruct (String.prefix p (String c s)) eqn:E; [intros [= <-]; by apply prefix_length in E|].
    destruct (find_at p s) as [j|]; [|done]. intros [= <-]. specialize (IH j eq_refl). cbn. lia.
Qed.
Lemma find_app p a b i : find_at p a = Some i -> find_at p (a ++ b) = Some i.
Proof.
  revert i. induction a as [|c a IH]; intros i H; pose proof (find_bound p _ i H) as Hb; cbn [find_at] in H.
  - destruct p; [|done]. injection H as <-. by destruct b.
  - rewrite app_string_cons. cbn [find_at]. rewrite <- app_string_cons, prefix_app by lia.
    destruct (String.prefix p (String c a)); [done|]. destruct (find_at p a) as [j|] eqn:E; [|done]. injection H as <-. by rewrite (IH j eq_refl).
Qed.
Lemma find_ends p s i : find_at p s = Some i -> exists a, str_take (i + String.length p) s = (a ++ p)%string.
Proof.
  revert i. induction s as [|c s IH]; intros i; cbn [find_at].
  - destruct (String.prefix p "") eqn:E; [|done]. intros [= <-]. exists "". by apply prefix_take.
  - destruct (String.prefix p (String c s)) eqn:E; [intros [= <-]; exists ""; by apply prefix_take|].
    destruct (find_at p s) as [j|]; [|done]. intros [= <-]. destruct (IH j eq_refl) as [a Ha]. exists (String c a).
    rewrite app_string_cons, <- Ha. done.
Qed.

Definition framed (f : string) : Prop := exists a, f = (a ++ LF2)%string \/ f = (a ++ CRLF2)%string.
Lemma end_frame_spec b e : end_frame b = Some e -> (2 <= e <= String.length b)%nat /\ framed (str_take e b).
Proof.
  unfold end_frame. destruct (find_at LF2 b) as [i|] eqn:E1.
  - intros [= <-]. pose proof (find_bound _ _ _ E1) as Hb. cbn in Hb. split; [lia|]. destruct (find_ends _ _ _ E1) as [a Ha]. exists a. by left.
  - destruct (find_at CRLF2 b) as [i|] eqn:E2; [|done]. intros [= <-]. pose proof (find_bound _ _ _ E2) as Hb. cbn in Hb. split; [lia|].
    destruct (find_ends _ _ _ E2) as [a Ha]. exists a. by right.
Qed.

(** The frames of a text that is all there. *)
Definition frames (b : string) : list string * string := relay_scan (String.length b) b.
Lemma scan_fuel n b : (String.length b <= n)%nat -> relay_scan n b = frames b.
Proof.
  unfold frames. revert b. induction n as [n IH] using lt_wf_ind. intros b Hn.
  destruct n as [|n]; [by destruct b; [|cbn in Hn; lia]|]. cbn [relay_scan].
  destruct (end_frame b) as [e|] eqn:E; [|by destruct (String.length b); cbn [relay_scan]; rewrite ?E].
  destruct (end_frame_spec _ _ E) as [He _]. destruct (String.length b) as [|m] eqn:El; [lia|]. cbn [relay_scan]. rewrite E.
  assert (String.length (str_drop e b) <= m)%nat by (rewrite drop_length, El; lia).
  rewrite (IH n) by lia. destruct (decide (m < S n)%nat) as [Hm|Hm]; [by rewrite (IH m) by lia | lia].
Qed.
Lemma frames_unfold b : frames b = match end_frame b with
  | None => ([], b) | Some e => let '(fs, rest) := frames (str_drop e b) in (str_take e b :: fs, rest) end.
Proof.
  unfold frames at 1. destruct (String.length b) as [|m] eqn:El; [by destruct b|]. cbn [relay_scan].
  destruct (end_frame b) as [e|] eqn:E; [|done]. destruct (end_frame_spec _ _ E) as [He _].
  by rewrite scan_fuel by (rewrite drop_length, El; lia).
Qed.
Lemma frames_lossless b : (texts (fst (frames b)) ++ snd (frames b))%string = b /\ Forall framed (fst (frames b)).
Proof.
  induction b as [b IH] using (induction_ltof1 _ String.length). unfold ltof in IH. rewrite frames_unfold.
  destruct (end_frame b) as [e|] eqn:E; [|done]. destruct (end_frame_spec _ _ E) as [He Hf].
  destruct (IH (str_drop e b)) as [H1 H2]; [rewrite drop_length; lia|]. destruct (frames (str_drop e b)) as [fs rest]. cbn [fst snd texts] in *.
  split; [by rewrite app_string_assoc, H1, take_drop_string | by constructor].
Qed.

(** Text without carriage returns is framed alike however it is cut. *)
Definition cr_free (s : string) : bool := all_chars (fun c => negb (code c =? 13)%nat) s.
Lemma cr_free_drop n s : cr_free s = true -> cr_free (str_drop n s) = true.
Proof.
  revert n. induction s as [|c s IH]; intros [|n] H; try done. cbn. apply IH. by apply andb_true_iff in H as [_ H].
Qed.
Lemma cr_free_find s : cr_free s = true -> find_at CRLF2 s = None.
Proof.
  induction s as [|c s IH]; [done|]. intros [Hc Hs]%andb_true_iff. cbn [find_at]. rewrite (IH Hs).
  assert (String.prefix CRLF2 (String c s) = false) as ->; [|done]. unfold CRLF2. cbn [String.prefix].
  destruct (ascii_dec cr c) as [<-|]; [discriminate Hc | done].
Qed.
Lemma end_frame_free s : cr_free s = true -> end_frame s = (fun i => i + 2)%nat <$> find_at LF2 s.
Proof. intros H. unfold end_frame. rewrite (cr_free_find s H). by destruct (find_at LF2 s). Qed.

Lemma frames_app a b : cr_free (a ++ b) = true ->
  frames (a ++ b) = let '(f1, r1) := frames a in let '(f2, r2) := frames (r1 ++ b) in (f1 ++ f2, r2).
Proof.
  induction a as [a IH] using (induction_ltof1 _ String.length). unfold ltof in IH. intros Hf.
  pose proof Hf as Hf'. unfold cr_free in Hf'. rewrite all_chars_app in Hf'. apply andb_true_iff in Hf' as [Ha Hb]. fold (cr_free a) in Ha.
  rewrite (frames_unfold a). destruct (end_frame a) as [e|] eqn:E; [|by destruct (frames (a ++ b))].
  destruct (end_frame_spec _ _ E) as [He _]. rewrite end_frame_free in E by done. destruct (find_at LF2 a) as [i|] eqn:Ei; [|done].
  cbn in E. assert (end_frame (a ++ b) = Some e) as E' by (by rewrite end_frame_free, (find_app _ _ b _ Ei) by done).
  rewrite frames_unfold, E'. destruct (take_app_string e a b ltac:(lia)) as [-> ->].
  rewrite IH; [|rewrite drop_length; lia|].
  2: { unfold cr_free. rewrite all_chars_app. apply andb_true_iff. split; [by apply cr_free_drop | done]. }
  destruct (frames (str_drop e a)) as [f1 r1]. by destruct (frames (r1 ++ b)) as [f2 r2].
Qed.

(** ** The whole stream *)

Lemma feed_frames chunk r : relay_feed chunk r = if truthy chunk then
    (fst (frames (buffer r ++ chunk)), {| buffer := snd (frames (buffer r ++ chunk)); check_errors := check_errors r;
       bytes_relayed := bytes_relayed r + String.length chunk; frames_relayed := frames_relayed r + length (fst (frames (buffer r ++ chunk))) |})
  else ([], r).
Proof. unfold relay_feed, frames. destruct (truthy chunk); cbn [negb]; [|done]. by destruct (relay_scan _ _). Qed.

Lemma relay_all_lossless chunks r : let '(fs, r') := relay_all chunks r in
  (texts fs ++ buffer r' = buffer r ++ texts chunks)%string /\ Forall framed fs /\
  bytes_relayed r' = (bytes_relayed r + String.length (texts chunks))%nat /\ frames_relayed r' = (frames_relayed r + length fs)%nat.
Proof.
  revert r. induction chunks as [|c cs IH]; intros r; cbn [relay_all texts]; [rewrite !Nat.add_0_r; by rewrite app_string_nil|].
  rewrite feed_frames. destruct (truthy c) eqn:Ec.
  2: { destruct c; [|done]. specialize (IH r). by destruct (relay_all cs r). }
  destruct (frames_lossless (buffer r ++ c)) as [Hl Hf]. destruct (frames (buffer r ++ c)) as [f1 rest]. cbn [fst snd] in *.
  set (r1 := Build_FastStreamRelay _ _ _ _). specialize (IH r1). destruct (relay_all cs r1) as [f2 r2].
  destruct IH as (I1 & I2 & I3 & I4). cbn [r1 buffer bytes_relayed frames_relayed] in *.
  rewrite texts_app, app_string_assoc, I1, <- app_string_assoc, Hl, app_string_assoc. split_and!; [done | by apply Forall_app | |].
  - rewrite I3, length_app_string. lia.
  - rewrite I4, length_app. lia.
Qed.

Lemma frames_rest b : end_frame (snd (frames b)) = None.
Proof.
  induction b as [b IH] using (induction_ltof1 _ String.length). unfold ltof in IH. rewrite frames_unfold.
  destruct (end_frame b) as [e|] eqn:E; [|done]. destruct (end_frame_spec _ _ E) as [He _].
  specialize (IH (str_drop e b)). rewrite drop_length in IH. destruct (frames (str_drop e b)). apply IH. lia.
Qed.
Lemma relay_all_frames chunks r : cr_free (buffer r ++ texts chunks) = true -> end_frame (buffer r) = None ->
  (fst (relay_all chunks r), buffer (snd (relay_all chunks r))) = frames (buffer r ++ texts chunks).
Proof.
  revert r. induction chunks as [|c cs IH]; intros r Hf He; cbn [relay_all texts] in *.
  { rewrite app_string_nil. by rewrite frames_unfold, He. }
  rewrite feed_frames. destruct (truthy c) eqn:Ec; [|destruct c; [|done]; rewrite <- IH by done; by destruct (relay_all cs r)].
  rewrite <- app_string_assoc in *. rewrite (frames_app (buffer r ++ c) (texts cs)) by exact Hf.
  destruct (frames_lossless (buffer r ++ c)) as [Hl _]. pose proof (frames_rest (buffer r ++ c)) as Hrest.
  destruct (frames (buffer r ++ c)) as [f1 rest] eqn:Efr. cbn [fst snd] in *.
  set (r1 := Build_FastStreamRelay _ _ _ _). specialize (IH r1). cbn [r1 buffer] in IH.
  destruct (relay_all cs r1) as [f2 r2]. cbn [fst snd] in *. rewrite <- IH; [done| |done].
  rewrite <- Hl, app_string_assoc in Hf. unfold cr_free in *. rewrite all_chars_app in Hf. by apply andb_true_iff in Hf as [_ Hf].
Qed.

(** ** Claims on the relay *)

(** The relay hands on every byte once and in order.  Over any chunks, the frames
    it yields and what [flush] returns at the end are together the bytes that came
    in; every frame ends with a blank line; both counters are exact; and for a
    stream without carriage returns the frames do not depend on how the stream was
    cut into chunks. *)
Theorem relay_lossless check chunks :
  let '(fs, r) := relay_all chunks (new_relay check) in
  (texts fs ++ default "" (fst (relay_flush r)) = texts chunks)%string /\ Forall framed fs /\
  bytes_relayed r = String.length (texts chunks) /\
  frames_relayed (snd (relay_flush r)) = (length fs + match fst (relay_flush r) with Some _ => 1 | None => 0 end)%nat /\
  (cr_free (texts chunks) = true -> forall chunks', texts chunks' = texts chunks -> fst (relay_all chunks' (new_relay check)) = fs).
Proof.
  pose proof (relay_all_lossless chunks (new_relay check)) as H. pose proof (relay_all_frames chunks (new_relay check)) as Hc.
  destruct (relay_all chunks (new_relay check)) as [fs r] eqn:E. destruct H as (H1 & H2 & H3 & H4). cbn [new_relay buffer bytes_relayed frames_relayed fst snd] in *.
  change ("" ++ texts chunks)%string with (texts chunks) in *.
  split_and!; [|done|exact H3| |].
  - rewrite <- H1. unfold relay_flush. by destruct (buffer r).
  - unfold relay_flush. destruct (buffer r); cbn; rewrite H4; cbn; lia.
  - intros Hf chunks' Ht. pose proof (relay_all_frames chunks' (new_relay check)) as Hc'. cbn [new_relay buffer] in Hc'.
    change ("" ++ texts chunks')%string with (texts chunks') in Hc'.
    rewrite Ht in Hc'. specialize (Hc Hf eq_refl). specialize (Hc' Hf eq_refl). congruence.
Qed.

Definition mixed : list string := [("data: a" ++ CRLF2)%string; ("data: b" ++ LF2)%string].
(** With both kinds of blank line the frames depend on the chunks.  A frame that ends
    with CR LF CR LF and one that ends with LF LF are two frames when they arrive in
    two chunks and one frame when they arrive together, since the scan looks for the
    first kind only when the buffer has none of the second. *)
Theorem relay_mixed_merges check :
  fst (relay_all mixed (new_relay check)) = mixed /\
  fst (relay_all [texts mixed] (new_relay check)) = [texts mixed].
Proof. by destruct check. Qed.

(** ** The ring buffer *)

Import Ring.

Lemma next_power_spec f i capacity : (0 <= i)%Z -> (capacity <= 2 ^ i * 2 ^ Z.of_nat f)%Z ->
  exists k, (0 <= k)%Z /\ next_power f (2 ^ i) capacity = (2 ^ k)%Z /\ (capacity <= 2 ^ k)%Z /\ ((2 ^ k < 2 * capacity)%Z \/ k = i).
Proof.
  revert i. induction f as [|f IH]; intros i Hi Hc; cbn [next_power].
  { exists i. rewrite Z.mul_1_r in Hc. split_and!; [done..|by right]. }
  destruct (Z.ltb_spec (2 ^ i) capacity) as [Hlt|Hge]; [|exists i; split_and!; [done..|by right]].
  assert (Z.shiftl (2 ^ i) 1 = 2 ^ (i + 1))%Z as -> by (rewrite Z.shiftl_mul_pow2, Z.pow_add_r by lia; done).
  destruct (IH (i + 1)%Z) as (k & Hk & E & Hck & Hub); [lia| |].
  { rewrite Nat2Z.inj_succ, Z.pow_succ_r in Hc by lia. rewrite Z.pow_add_r by lia. lia. }
  exists k. split_and!; [done..|]. left. destruct Hub as [?| ->]; [done|]. rewrite Z.pow_add_r by lia. lia.
Qed.
Lemma capacity_spec capacity : (1 <= capacity)%Z ->
  exists k, (0 <= k)%Z /\ next_power (Z.to_nat capacity) 1 capacity = (2 ^ k)%Z /\ (capacity <= 2 ^ k < 2 * capacity)%Z.
Proof.
  intros Hc. destruct (next_power_spec (Z.to_nat capacity) 0 capacity) as (k & Hk & E & H1 & H2); [done| |].
  { rewrite Z2Nat.id, Z.mul_1_l by lia. pose proof (Z.pow_gt_lin_r 2 capacity). lia. }
  exists k. split_and!; [done..|lia|]. destruct H2 as [?| ->]; [done | lia].
Qed.

(** What was recorded, newest first. *)
Record entry : Type := { e_time : Q; e_ok : bool; e_duration : Q }.
Definition recorded (capacity : Z) (dur : Q) (hist : list entry) : FastSlidingWindow :=
  foldr (fun e w => ring_record (e_ok e) (e_duration e) (e_time e) w) (new_window capacity dur) hist.

(** The slot of the [m]-th record. *)
Definition slot (k m : Z) : nat := Z.to_nat (m mod 2 ^ k).
Lemma slot_land k m : (0 <= k)%Z -> Z.to_nat (Z.land m (2 ^ k - 1)) = slot k m.
Proof. intros Hk. unfold slot. rewrite <- Z.land_ones by done. by rewrite Z.ones_equiv. Qed.
Lemma slot_bound k m : (0 <= k)%Z -> (slot k m < Z.to_nat (2 ^ k))%nat.
Proof. intros Hk. unfold slot. pose proof (Z.mod_pos_bound m (2 ^ k) ltac:(lia)). lia. Qed.
Lemma slot_distinct k m j : (0 <= k)%Z -> (0 < j < 2 ^ k)%Z -> slot k m <> slot k (m - j).
Proof.
  intros Hk Hj E. unfold slot in E. pose proof (Z.mod_pos_bound m (2 ^ k) ltac:(lia)). pose proof (Z.mod_pos_bound (m - j) (2 ^ k) ltac:(lia)).
  assert (m mod 2 ^ k = (m - j) mod 2 ^ k)%Z as E' by lia.
  pose proof (Z.div_mod m (2 ^ k) ltac:(lia)) as D1. pose proof (Z.div_mod (m - j) (2 ^ k) ltac:(lia)) as D2.
  assert (j = 2 ^ k * (m / 2 ^ k - (m - j) / 2 ^ k))%Z as Ej by lia.
  destruct (Z_dec (m / 2 ^ k - (m - j) / 2 ^ k) 0) as [[?|?]| ?]; nia.
Qed.

Record ring_inv (k : Z) (dur : Q) (hist : list entry) (w : FastSlidingWindow) : Prop := {
  inv_capacity : ring_capacity w = (2 ^ k)%Z;
  inv_mask : mask w = (2 ^ k - 1)%Z;
  inv_duration : duration_s w = dur;
  inv_sizes : length (timestamps w) = Z.to_nat (2 ^ k) /\ length (outcomes w) = Z.to_nat (2 ^ k) /\ length (durations w) = Z.to_nat (2 ^ k);
  inv_head : head_ w = Z.of_nat (length hist);
  inv_count : count_ w = Z.min (Z.of_nat (length hist)) (2 ^ k);
  inv_slots : forall j e, (Z.of_nat j < count_ w)%Z -> hist !! j = Some e ->
    let i := slot k (head_ w - 1 - Z.of_nat j) in
    timestamps w !! i = Some (e_time e) /\ outcomes w !! i = Some (e_ok e) /\ durations w !! i = Some (e_duration e);
}.

Lemma ring_inv_new capacity dur k : (0 <= k)%Z -> next_power (Z.to_nat capacity) 1 capacity = (2 ^ k)%Z -> ring_inv k dur [] (new_window capacity dur).
Proof. intros Hk E. unfold new_window. rewrite E. split; cbn; try done; [by rewrite !length_replicate | lia]. Qed.

Lemma ring_inv_record k dur hist w e : (0 <= k)%Z -> ring_inv k dur hist w ->
  ring_inv k dur (e :: hist) (ring_record (e_ok e) (e_duration e) (e_time e) w).
Proof.
  intros Hk [Hc Hm Hd (L1 & L2 & L3) Hh Hn Hs]. unfold ring_record. rewrite Hm, slot_land by done. pose proof (slot_bound k (head_ w) Hk) as Hb.
  split; cbn [ring_capacity mask duration_s head_ count_ timestamps outcomes durations]; try done.
  - by rewrite !length_insert.
  - rewrite Hh. cbn [length]. lia.
  - rewrite Hc, Hn. cbn [length]. destruct (Z.ltb_spec (Z.min (Z.of_nat (length hist)) (2 ^ k)) (2 ^ k)); lia.
  - intros j e' Hj He. destruct j as [|j]; cbn [lookup list_lookup] in He.
    + injection He as <-. replace (head_ w + 1 - 1 - Z.of_nat 0)%Z with (head_ w) by lia. rewrite !list_lookup_insert_eq by lia. done.
    + assert (Z.of_nat j < count_ w /\ Z.of_nat (S j) < 2 ^ k)%Z as [Hj' Hj2].
      { rewrite Hc in Hj. apply lookup_lt_Some in He. destruct (Z.ltb_spec (count_ w) (2 ^ k)); lia. }
      replace (head_ w + 1 - 1 - Z.of_nat (S j))%Z with (head_ w - Z.of_nat (S j))%Z by lia.
      pose proof (slot_distinct k (head_ w) (Z.of_nat (S j)) Hk ltac:(lia)) as Hne. rewrite !list_lookup_insert_ne by exact Hne.
      destruct (Hs j e' Hj' He) as (A & B & C). replace (head_ w - 1 - Z.of_nat j)%Z with (head_ w - Z.of_nat (S j))%Z in * by lia. done.
Qed.

Lemma ring_inv_recorded capacity dur k hist : (0 <= k)%Z -> next_power (Z.to_nat capacity) 1 capacity = (2 ^ k)%Z ->
  ring_inv k dur hist (recorded capacity dur hist).
Proof. intros Hk E. induction hist as [|e hist IH]; [by apply ring_inv_new | by apply ring_inv_record]. Qed.

(** The reference: the newest entries, up to the first that is too old. *)
Fixpoint tally (cutoff : Q) (l : list entry) (t : totals) : totals :=
  match l with
  | [] => t
  | e :: l' => if e_time e ≺ cutoff then t else tally cutoff l' (add_call (e_ok e) (e_duration e) t)
  end.

Lemma scan_back_tally k dur hist w cutoff n i t : (0 <= k)%Z -> ring_inv k dur hist w -> (Z.of_nat (i + n) <= count_ w)%Z ->
  scan_back w cutoff n (Z.of_nat i) t = Some (tally cutoff (take n (drop i hist)) t).
Proof.
  intros Hk Hinv. revert i t. induction n as [|n IH]; intros i t Hn; [done|]. cbn [scan_back].
  assert (i < length hist)%nat as Hi by (destruct Hinv as [_ _ _ _ _ Hc _]; lia).
  destruct (lookup_lt_is_Some_2 hist i Hi) as [e He]. destruct (inv_slots _ _ _ _ Hinv i e ltac:(lia) He) as (A & B & C).
  rewrite (inv_mask _ _ _ _ Hinv), slot_land by done. rewrite A, B, C. rewrite (drop_S hist e i He). cbn [take tally].
  destruct (e_time e ≺ cutoff); [done|]. replace (Z.of_nat i + 1)%Z with (Z.of_nat (S i)) by lia. apply IH. lia.
Qed.

(** Newest first: no entry is older than a later one of the list. *)
Definition newest_first (l : list entry) : Prop := StronglySorted (fun a b => e_time b <= e_time a)%Q l.
Definition live (cutoff : Q) (e : entry) : bool := negb (e_time e ≺ cutoff).

Lemma tally_live cutoff l t : newest_first l ->
  let ls := List.filter (live cutoff) l in
  total_calls (tally cutoff l t) = (total_calls t + Z.of_nat (length ls))%Z /\
  successful_calls (tally cutoff l t) = (successful_calls t + Z.of_nat (length (List.filter e_ok ls)))%Z /\
  failed_calls (tally cutoff l t) = (failed_calls t + Z.of_nat (length (List.filter (fun e => negb (e_ok e)) ls)))%Z.
Proof.
  intros Hs. revert t. induction Hs as [|e l Hs IH Hall]; intros t; cbn [tally]; [cbn; lia|].
  cbn [List.filter]. assert (live cutoff e = negb (e_time e ≺ cutoff)) as -> by done. destruct (e_time e ≺ cutoff) eqn:E; cbn [negb].
  - assert (List.filter (live cutoff) l = []) as ->; [|cbn; lia].
    clear IH Hs. induction Hall as [|e' l He' Hall IHl]; [done|]. cbn [List.filter]. assert (live cutoff e' = negb (e_time e' ≺ cutoff)) as -> by done.
    assert ((e_time e' ≺ cutoff) = true) as -> by (rewrite Qltb_true in *; eapply Qle_lt_trans; eauto). exact IHl.
  - destruct (IH (add_call (e_ok e) (e_duration e) t)) as (I1 & I2 & I3). rewrite I1, I2, I3. cbn [length List.filter add_call total_calls successful_calls failed_calls].
    destruct (e_ok e); cbn [negb length]; lia.
Qed.

(** C33: The ring buffer refines a plain history.  For a capacity of at least one, the
    buffer has the next power of two as its capacity; after any records its snapshot
    never reads out of its arrays and is that of the newest entries of the history,
    as many as fit, up to the first that left the window; and when the records came
    in the order of their times it counts exactly the entries that are in the
    window, by outcome. *)
Theorem ring_refines_history capacity dur hist now : (1 <= capacity)%Z ->
  let w := recorded capacity dur hist in
  let cutoff := (now - dur)%Q in
  let kept := take (Z.to_nat (ring_capacity w)) hist in
  (capacity <= ring_capacity w < 2 * capacity)%Z /\ (exists k, ring_capacity w = 2 ^ k)%Z /\
  ring_snapshot now w = Some (summarise (tally cutoff kept no_totals)) /\
  (newest_first hist ->
     let ls := List.filter (live cutoff) kept in
     exists m, ring_snapshot now w = Some m /\
       total_calls (m_totals m) = Z.of_nat (length ls) /\
       successful_calls (m_totals m) = Z.of_nat (length (List.filter e_ok ls)) /\
       failed_calls (m_totals m) = Z.of_nat (length (List.filter (fun e => negb (e_ok e)) ls))).
Proof.
  intros Hc w cutoff kept. destruct (capacity_spec capacity Hc) as (k & Hk & E & Hb).
  pose proof (ring_inv_recorded capacity dur k hist Hk E) as Hinv. fold w in Hinv. pose proof Hinv as [Hcap _ Hd _ _ Hn _].
  assert (ring_snapshot now w = Some (summarise (tally cutoff kept no_totals))) as Hs.
  { unfold ring_snapshot. rewrite Hd. fold cutoff. change 0%Z with (Z.of_nat 0).
    rewrite (scan_back_tally k dur hist w cutoff (Z.to_nat (count_ w)) 0 no_totals Hk Hinv) by lia. rewrite drop_0.
    assert (take (Z.to_nat (count_ w)) hist = kept) as ->; [|done]. subst kept. rewrite Hcap, Hn.
    destruct (Z.min_spec (Z.of_nat (length hist)) (2 ^ k)) as [[? ->]|[? ->]]; [|done]. rewrite !take_ge by lia. done. }
  split_and!; [rewrite Hcap; lia | rewrite Hcap; lia | by exists k | exact Hs |].
  intros Hsort ls. eexists. split; [exact Hs|]. cbn [summarise m_totals].
  assert (newest_first kept) as Hk'.
  { subst kept. revert Hsort. generalize (Z.to_nat (ring_capacity w)). clear. intros n H. revert n.
    induction H as [|e l Hl IH Hall]; intros [|n]; cbn; constructor; [apply IH | by apply Forall_take]. }
  destruct (tally_live cutoff kept no_totals Hk') as (A & B & C). exact (conj A (conj B C)).
Qed.

Definition demo_history : list entry :=
  [{| e_time := 9; e_ok := false; e_duration := 3 |}; {| e_time := 8; e_ok := true; e_duration := 1 |}; {| e_time := 2; e_ok := true; e_duration := 5 |}].
Lemma ring_refines_history_witness :
  exists m, ring_snapshot 10 (recorded 3 5 demo_history) = Some m /\ total_calls (m_totals m) = 2%Z /\ failed_calls (m_totals m) = 1%Z.
Proof.
  destruct (ring_refines_history 3 5 demo_history 10) as (_ & _ & _ & H); [lia|].
  destruct H as (m & Hm & A & _ & C).
  - repeat constructor; vm_compute; discriminate.
  - exists m. split_and!; [exact Hm | exact A | exact C].
Defined.

(** ** The estimators *)

Import FastTokenEstimator.

(** The estimators stay in a band.  A text of more than four characters is
    estimated between a quarter and five sixteenths of its length, rounded down and
    never below one; a shorter one is one token, the empty one none; and the byte
    estimator stays in the same band. *)
Theorem estimates_bounded text :
  (ulen text = 0%nat -> estimate_text_tokens text = 0%Z) /\
  ((0 < ulen text <= 4)%nat -> estimate_text_tokens text = 1%Z) /\
  (let n := Z.of_nat (ulen text) in (4 < n)%Z -> (Z.max 1 (n / 4) <= estimate_text_tokens text <= Z.max 1 (n * 10 / 32))%Z) /\
  (let n := Z.of_nat (String.length text) in (4 < n)%Z -> (Z.max 1 (n / 4) <= estimate_bytes_tokens text <= Z.max 1 (n * 10 / 32))%Z).
Proof.
  unfold estimate_text_tokens, estimate_bytes_tokens. split_and!.
  - by intros ->.
  - intros H. destruct (Z.eqb_spec (Z.of_nat (ulen text)) 0); [lia|]. destruct (Z.leb_spec (Z.of_nat (ulen text)) 4); [done | lia].
  - set (n := Z.of_nat (ulen text)). intros Hn. destruct (Z.eqb_spec n 0); [lia|]. destruct (Z.leb_spec n 4); [lia|]. cbv zeta.
    rewrite Z.shiftr_div_pow2 by lia. change (2 ^ 2)%Z with 4%Z.
    repeat case_match; split; apply Z.max_le_compat_l; Z.to_euclidean_division_equations; lia.
  - set (n := Z.of_nat (String.length text)). intros Hn. destruct (Z.leb_spec n 4); [lia|]. split; apply Z.max_le_compat_l; Z.to_euclidean_division_equations; lia.
Qed.


(** *** Event loops *)

(** A loop is always returned, and it is the one in force; it is uvloop's when that
    library can be imported and the standard policy was in force; asking again changes
    nothing. *)
Theorem accelerated_loop_stable uvloop_installed makes_loop a n :
  let run := EventLoop.get_accelerated_event_loop uvloop_installed makes_loop in
  exists i a', run a n = (Ok i, a', n) /\ EventLoop.set_loop a' = Some i /\ run a' n = (Ok i, a', n) /\
    out_res (EventLoop.is_uvloop_active uvloop_installed a' n) = Ok uvloop_installed /\
    (uvloop_installed = true -> EventLoop.current_policy a = EventLoop.StandardPolicy -> EventLoop.loops a' !! i = Some EventLoop.UvloopPolicy).
Proof.
  intros run. destruct a as [pol cur ls], uvloop_installed, pol, cur as [c|], makes_loop.
  all: eexists _, _; split_and!; [reflexivity | done | reflexivity | done | intros Hu Hp; try discriminate Hu; try discriminate Hp].
  all: cbn; by rewrite list_lookup_middle.
Qed.
End AcceleratorProps.
