(* ===== verification/JsonText.v ===== *)
(** * JSON text

    Python's [json.dumps(value, ensure_ascii=False)] and [json.loads(text)],
    written out: the standard library functions through which every payload of
    the gateway passes.  Components that only need some codec take the functions
    as arguments; the class [JsonCodec] states what they rely on and
    [python_json] shows that the functions below provide it.

    Limits: a float is printed by the argument [float_repr]; the literals [NaN]
    and [Infinity] and unpaired surrogate escapes, which have no [json] value,
    are rejected. *)

From stdpp Require Import base tactics list strings.
From Stdlib Require Import QArith Ascii.
From S2P Require Import Prelude PyText Utf8 Json.

Definition chq : ascii := chr 34. (* double quote *)
Definition chb : ascii := chr 92. (* backslash *)
Definition is_ch (n : nat) (c : ascii) : bool := (code c =? n)%nat.

(** ** Printing *)

Definition hex_digit (n : nat) : ascii := if (n <? 10)%nat then chr (48 + n) else chr (87 + n).

(** [ESCAPE_DCT] of the encoder. *)
Definition esc_char (c : ascii) : string :=
  let n := code c in
  if (n =? 34)%nat then String chb (String chq "")
  else if (n =? 92)%nat then String chb (String chb "")
  else if (n =? 8)%nat then String chb "b"
  else if (n =? 9)%nat then String chb "t"
  else if (n =? 10)%nat then String chb "n"
  else if (n =? 12)%nat then String chb "f"
  else if (n =? 13)%nat then String chb "r"
  else if (n <? 32)%nat then
    String chb (String (chr 117) (String (chr 48) (String (chr 48) (String (hex_digit (n / 16)) (String (hex_digit (n mod 16)) "")))))
  else String c "".
Fixpoint esc_string (s : string) : string :=
  match s with EmptyString => "" | String c s' => (esc_char c ++ esc_string s')%string end.
Definition dumps_string (s : string) : string := String chq (esc_string s ++ String chq "")%string.

(** Decimal digits of a positive integer, most significant first. *)
Fixpoint dec_digits (fuel : nat) (z : Z) (acc : string) : string :=
  let acc' := String (chr (Z.to_nat (48 + z mod 10))) acc in
  match fuel with
  | O => acc'
  | S f => if (z <? 10)%Z then acc' else dec_digits f (z / 10) acc'
  end.
Definition dec_nonneg (z : Z) : string := dec_digits (Z.to_nat (Z.log2 z)) z "".
Definition dumps_int (z : Z) : string :=
  if (z <? 0)%Z then String (chr 45) (dec_nonneg (- z)) else dec_nonneg z.

Section dumps.
Context (float_repr : Q -> string).

Fixpoint dumps (j : json) : string :=
  match j with
  | JNull => "null"
  | JBool b => if b then "true" else "false"
  | JInt z => dumps_int z
  | JFloat q => float_repr q
  | JStr s => dumps_string s
  | JArr l => (String (chr 91) (join ", " (map dumps l)) ++ String (chr 93) "")%string
  | JObj fs => (String (chr 123) (join ", " (map (fun kv => dumps_string (fst kv) ++ ": " ++ dumps (snd kv)) fs))
                ++ String (chr 125) "")%string
  end.
End dumps.

(** ** Parsing *)

(** [WHITESPACE]: space, tab, line feed, carriage return. *)
Definition is_json_space (c : ascii) : bool := is_ch 32 c || is_ch 9 c || is_ch 10 c || is_ch 13 c.
Fixpoint skip_ws (s : string) : string :=
  match s with
  | String c s' => if is_json_space c then skip_ws s' else s
  | EmptyString => s
  end.

Definition hex_value (c : ascii) : option Z :=
  let n := code c in
  if byte_in 48 57 c then Some (Z.of_nat (n - 48))
  else if byte_in 97 102 c then Some (Z.of_nat (n - 87))
  else if byte_in 65 70 c then Some (Z.of_nat (n - 55))
  else None.
Definition hex4 (a b c d : ascii) : option Z :=
  a ← hex_value a; b ← hex_value b; c ← hex_value c; d ← hex_value d;
  Some (((a * 16 + b) * 16 + c) * 16 + d)%Z.

(** [BACKSLASH] of the decoder. *)
Definition unescape (c : ascii) : option ascii :=
  if is_ch 34 c || is_ch 92 c || is_ch 47 c then Some c
  else if is_ch 98 c then Some (chr 8) else if is_ch 102 c then Some (chr 12)
  else if is_ch 110 c then Some (chr 10) else if is_ch 114 c then Some (chr 13)
  else if is_ch 116 c then Some (chr 9) else None.

Definition cons_char (p : string) (r : option (string * string)) : option (string * string) :=
  '(x, rest) ← r; Some ((p ++ x)%string, rest).

(** The body of a string literal, after its opening quote. *)
Fixpoint parse_string (s : string) : option (string * string) :=
  match s with
  | EmptyString => None
  | String c s1 =>
      if is_ch 34 c then Some (EmptyString, s1)
      else if is_ch 92 c then
        match s1 with
        | EmptyString => None
        | String e s2 =>
            if is_ch 117 e then
              match s2 with
              | String h1 (String h2 (String h3 (String h4 s3))) =>
                  match hex4 h1 h2 h3 h4 with
                  | None => None
                  | Some u =>
                      if (55296 <=? u)%Z && (u <=? 56319)%Z then
                        match s3 with
                        | String b (String v (String l1 (String l2 (String l3 (String l4 s4))))) =>
                            if is_ch 92 b && is_ch 117 v then
                              match hex4 l1 l2 l3 l4 with
                              | Some w =>
                                  if (56320 <=? w)%Z && (w <=? 57343)%Z
                                  then cons_char (utf8_encode (65536 + (u - 55296) * 1024 + (w - 56320))) (parse_string s4)
                                  else None
                              | None => None
                              end
                            else None
                        | _ => None
                        end
                      else if (56320 <=? u)%Z && (u <=? 57343)%Z then None
                      else cons_char (utf8_encode u) (parse_string s3)
                  end
              | _ => None
              end
            else match unescape e with
                 | Some d => cons_char (String d "") (parse_string s2)
                 | None => None
                 end
        end
      else if (code c <? 32)%nat then None
      else cons_char (String c "") (parse_string s1)
  end.

(** [NUMBER_RE]: an integer part without leading zeros, then an optional
    fraction and exponent. *)
Definition int_part (s : string) : option (Z * string) :=
  match s with
  | EmptyString => None
  | String c s' =>
      if is_ch 48 c then Some (0%Z, s')
      else if is_digit c then let '(v, _, rest) := digits s 0 0 in Some (v, rest)
      else None
  end.
Definition frac_part (s : string) : option (Q * string) :=
  match s with
  | String c s' =>
      if is_ch 46 c then
        let '(v, len, rest) := digits s' 0 0 in
        if (len =? 0)%nat then None else Some ((inject_Z v * Qpow10 (- Z.of_nat len))%Q, rest)
      else None
  | EmptyString => None
  end.
Definition exp_part (s : string) : option (Z * string) :=
  match s with
  | String c s' =>
      if is_ch 101 c || is_ch 69 c then
        let '(sg, s1) := sign_of s' in
        let '(v, len, rest) := digits s1 0 0 in
        if (len =? 0)%nat then None else Some ((sg * v)%Z, rest)
      else None
  | EmptyString => None
  end.
Definition parse_number (s : string) : option (json * string) :=
  let '(sg, s1) := match s with
    | String c s' => if is_ch 45 c then ((-1)%Z, s') else (1%Z, s)
    | EmptyString => (1%Z, s)
    end in
  '(i, s2) ← int_part s1;
  match frac_part s2, exp_part s2 with
  | Some (f, s3), _ =>
      match exp_part s3 with
      | Some (e, s4) => Some (JFloat (Qred (inject_Z sg * (inject_Z i + f) * Qpow10 e)), s4)
      | None => Some (JFloat (Qred (inject_Z sg * (inject_Z i + f))), s3)
      end
  | None, Some (e, s4) => Some (JFloat (Qred (inject_Z sg * inject_Z i * Qpow10 e)), s4)
  | None, None => Some (JInt (sg * i), s2)
  end.

Definition expect (n : nat) (s : string) : option string :=
  match s with String c s' => if is_ch n c then Some s' else None | EmptyString => None end.
Definition keyword (w : string) (v : json) (s : string) : option (json * string) :=
  if String.prefix w s then Some (v, str_drop (String.length w) s) else None.
Definition parse_scalar (s : string) : option (json * string) :=
  match keyword "null" JNull s, keyword "true" (JBool true) s, keyword "false" (JBool false) s with
  | Some r, _, _ | None, Some r, _ | None, None, Some r => Some r
  | None, None, None => parse_number s
  end.

Fixpoint parse_value (fuel : nat) (s : string) : option (json * string) :=
  match fuel with
  | O => None
  | S f =>
      match s with
      | EmptyString => None
      | String c s' =>
          if is_ch 34 c then '(x, rest) ← parse_string s'; Some (JStr x, rest)
          else if is_ch 123 c then
            let s1 := skip_ws s' in
            match expect 125 s1 with
            | Some rest => Some (JObj [], rest)
            | None => '(fs, rest) ← parse_members f s1 []; Some (JObj fs, rest)
            end
          else if is_ch 91 c then
            let s1 := skip_ws s' in
            match expect 93 s1 with
            | Some rest => Some (JArr [], rest)
            | None => '(l, rest) ← parse_elements f s1; Some (JArr l, rest)
            end
          else parse_scalar s
      end
  end
with parse_members (fuel : nat) (s : string) (acc : list (string * json)) : option (list (string * json) * string) :=
  match fuel with
  | O => None
  | S f =>
      s1 ← expect 34 s;
      '(k, s2) ← parse_string s1;
      s3 ← expect 58 (skip_ws s2);
      '(v, s4) ← parse_value f (skip_ws s3);
      let s5 := skip_ws s4 in
      let acc' := od_set k v acc in
      match expect 125 s5 with
      | Some rest => Some (acc', rest)
      | None => s6 ← expect 44 s5; parse_members f (skip_ws s6) acc'
      end
  end
with parse_elements (fuel : nat) (s : string) : option (list json * string) :=
  match fuel with
  | O => None
  | S f =>
      '(v, s1) ← parse_value f s;
      let s2 := skip_ws s1 in
      match expect 93 s2 with
      | Some rest => Some ([v], rest)
      | None => s3 ← expect 44 s2; '(l, rest) ← parse_elements f (skip_ws s3); Some (v :: l, rest)
      end
  end.

(** [json.loads(text)]; [None] stands for [JSONDecodeError]. *)
Definition loads (s : string) : option json :=
  match parse_value (S (String.length s)) (skip_ws s) with
  | Some (j, rest) => if String.eqb (skip_ws rest) "" then Some j else None
  | None => None
  end.

Definition quoted (s : string) : string := String chq (s ++ String chq "")%string.
Definition demo_json : json :=
  JObj [("a", JArr [JInt (-120); JNull; JBool true]); ("b", JStr (String chq (String (chr 10) (String (chr 1) "x"))));
        ("c", JObj []); ("d", JObj [("e", JArr []); ("f", JInt 0)])].

Example dumps_loads_demo :
  loads (dumps (fun _ => "1.5") demo_json) = Some demo_json /\
  loads (" [1, 2.50e1 ,-0 ] ") = Some (JArr [JInt 1; JFloat (25 # 1); JInt 0]) /\
  loads "[1,]" = None /\ loads "01" = None /\ loads "" = None /\
  loads (quoted (String chb "u20ac")) = Some (JStr (utf8_encode 8364)) /\
  loads (quoted (String chb ("ud83d" ++ String chb "ude00")%string)) = Some (JStr (utf8_encode 128512)) /\
  dumps (fun _ => "") (JInt 1700000000) = "1700000000".
Proof. vm_compute. repeat split. Qed.

(** ** JSON text: round trip and shape

    [loads (dumps j) = Some j] for every value without floats, and the facts
    about the printed text the stream protocols rely on: one line of well-formed
    UTF-8, delimited by braces when the value is an object. *)
Module JsonTextProps.

(** The values that print exactly: no floats, well-formed text, distinct keys. *)
Fixpoint json_ok (j : json) : bool :=
  match j with
  | JNull | JBool _ | JInt _ => true
  | JFloat _ => false
  | JStr s => utf8_valid s
  | JArr l => forallb json_ok l
  | JObj fs => bool_decide (NoDup (map fst fs)) && forallb (fun kv => utf8_valid (fst kv) && json_ok (snd kv)) fs
  end.

Fixpoint jsize (j : json) : nat :=
  match j with
  | JArr l => S (list_sum (map (fun x => S (jsize x)) l))
  | JObj fs => S (list_sum (map (fun kv => S (jsize (snd kv))) fs))
  | _ => 1
  end.

(** ** Characters and strings *)

Lemma app_string_nil_cons c s : (String c "" ++ s)%string = String c s.
Proof. reflexivity. Qed.

Lemma code_bound c : (code c < 256)%nat.
Proof. apply nat_ascii_bounded. Qed.

Lemma parse_string_esc_char c t : parse_string (esc_char c ++ t) = cons_char (String c "") (parse_string t).
Proof. destruct c as [[] [] [] [] [] [] [] []]; reflexivity. Qed.

Lemma parse_string_esc s rest : parse_string (esc_string s ++ String chq rest) = Some (s, rest).
Proof.
  induction s as [|c s IH]; [reflexivity|]. cbn [esc_string].
  rewrite app_string_assoc, parse_string_esc_char, IH. reflexivity.
Qed.

Definition printable (c : ascii) : bool := (32 <=? code c)%nat.
Lemma esc_string_printable s : all_chars printable (esc_string s) = true.
Proof.
  induction s as [|c s IH]; [done|]. cbn [esc_string]. rewrite all_chars_app, IH, andb_true_r.
  destruct c as [[] [] [] [] [] [] [] []]; reflexivity.
Qed.

(** A character escaped by the encoder is ASCII, every other one is itself. *)
Lemma esc_char_wide c : is_ascii c = false -> esc_char c = String c "".
Proof. by destruct c as [[] [] [] [] [] [] [] []]. Qed.
Lemma esc_char_narrow c : is_ascii c = true -> all_chars is_ascii (esc_char c) = true.
Proof. by destruct c as [[] [] [] [] [] [] [] []]. Qed.

Lemma byte_in_wide lo hi c : (128 <= lo)%nat -> byte_in lo hi c = true -> is_ascii c = false.
Proof.
  intros Hlo. unfold byte_in, is_ascii. rewrite andb_true_iff, !Nat.leb_le, Nat.ltb_ge. lia.
Qed.

Lemma cont_wide c : is_cont c = true -> is_ascii c = false.
Proof. apply byte_in_wide. lia. Qed.
Lemma byte_in_cont lo hi c : (128 <= lo)%nat -> (hi <= 191)%nat -> byte_in lo hi c = true -> is_cont c = true.
Proof. intros ? ?. unfold is_cont, byte_in. rewrite !andb_true_iff, !Nat.leb_le. lia. Qed.
Lemma second_cont (x y : bool) lo1 hi1 lo2 hi2 c : (128 <= lo1)%nat -> (hi1 <= 191)%nat -> (128 <= lo2)%nat -> (hi2 <= 191)%nat ->
  (if x then byte_in lo1 hi1 c else if y then byte_in lo2 hi2 c else is_cont c) = true -> is_cont c = true.
Proof. intros ? ? ? ?. destruct x, y; first [by apply byte_in_cont | done]. Qed.
Lemma lead_not_cont lo hi c : (192 <= lo)%nat -> byte_in lo hi c = true -> is_cont c = false.
Proof. intros ?. unfold is_cont, byte_in. rewrite andb_true_iff, andb_false_iff, !Nat.leb_le, !Nat.leb_gt. lia. Qed.
Lemma ascii_test c : (code c <? 128)%nat = is_ascii c.
Proof. reflexivity. Qed.

Ltac peel :=
  rewrite !app_string_cons; cbn [utf8_valid]; match goal with |- context [("" ++ ?t)%string] => change ("" ++ t)%string with t end;
  match goal with H1 : _ = true, H2 : utf8_valid _ = true |- _ => rewrite H1, H2; reflexivity end.

(** Peeling one character off a well-formed string. *)
Lemma utf8_valid_inv c s : utf8_valid (String c s) = true ->
  (is_ascii c = true /\ utf8_valid s = true) \/
  exists p t, s = (p ++ t)%string /\ is_cont c = false /\ all_chars is_cont p = true /\ is_ascii c = false /\
    utf8_valid t = true /\ (forall t', utf8_valid t' = true -> utf8_valid (String c (p ++ t'))%string = true).
Proof.
  cbn [utf8_valid]. rewrite ascii_test. destruct (is_ascii c) eqn:Ec; [by left|]. intros H. right.
  destruct s as [|c2 s]; [done|]. destruct (byte_in 194 223 c) eqn:E2.
  { apply andb_true_iff in H as [H1 H2]. apply lead_not_cont in E2; [|lia]. exists (String c2 ""), s.
    cbn [all_chars]. rewrite H1. split_and!; try done. intros t' Ht'. peel. }
  destruct s as [|c3 s]; [done|]. destruct (byte_in 224 239 c) eqn:E3.
  { apply andb_true_iff in H as [H1 H2]. apply lead_not_cont in E3; [|lia]. exists (String c2 (String c3 "")), s.
    cbn [all_chars]. pose proof H1 as [Hs H3]%andb_true_iff.
    apply second_cont in Hs; [|lia..]. rewrite Hs, H3. split_and!; try done. intros t' Ht'. peel. }
  destruct s as [|c4 s]; [done|].
  apply andb_true_iff in H as [H1 H2]. exists (String c2 (String c3 (String c4 ""))), s.
  cbn [all_chars]. pose proof H1 as [[[E4 Hs]%andb_true_iff H3]%andb_true_iff H4]%andb_true_iff. apply lead_not_cont in E4; [|lia].
  apply second_cont in Hs; [|lia..]. rewrite Hs, H3, H4. split_and!; try done. intros t' Ht'. peel.
Qed.

Lemma esc_string_app a b : esc_string (a ++ b)%string = (esc_string a ++ esc_string b)%string.
Proof. induction a as [|c a IH]; [done|]. rewrite app_string_cons. cbn [esc_string]. by rewrite IH, app_string_assoc. Qed.
Lemma esc_string_cont p : all_chars is_cont p = true -> esc_string p = p.
Proof.
  induction p as [|c p IH]; [done|]. intros [Hc%cont_wide Hp]%andb_true_iff. cbn [esc_string].
  by rewrite esc_char_wide, IH.
Qed.

Lemma esc_string_utf8 s : utf8_valid s = true -> utf8_valid (esc_string s) = true.
Proof.
  remember (String.length s) as n eqn:Hn. revert s Hn. induction n as [n IH] using lt_wf_ind. intros [|c s] -> H; [done|].
  apply utf8_valid_inv in H as [[Hc Hs]|(p & t & -> & _ & Hp & Hc & Ht & Hclose)].
  - cbn [esc_string]. apply utf8_valid_app; [by apply ascii_utf8, esc_char_narrow|]. eapply IH; [|done|done]. simpl. lia.
  - cbn [esc_string]. rewrite esc_char_wide, app_string_nil_cons, esc_string_app, esc_string_cont by done.
    apply Hclose. eapply IH; [|done|done]. cbn [String.length]. rewrite length_app_string. lia.
Qed.

Lemma utake_cont n p t : all_chars is_cont p = true -> utake n (p ++ t) = (p ++ utake n t)%string.
Proof.
  induction p as [|c p IH]; [done|]. intros [Hc Hp]%andb_true_iff. rewrite !app_string_cons. cbn [utake]. by rewrite Hc, IH.
Qed.
Lemma utake_utf8 n s : utf8_valid s = true -> utf8_valid (utake n s) = true.
Proof.
  remember (String.length s) as m eqn:Hm. revert n s Hm. induction m as [m IH] using lt_wf_ind. intros n [|c s] -> H; [done|].
  apply utf8_valid_inv in H as [[Hc Hs]|(p & t & -> & Hl & Hp & Hc & Ht & Hclose)]; cbn [utake].
  - replace (is_cont c) with false by (destruct (is_cont c) eqn:E; [apply cont_wide in E; congruence | done]).
    destruct n as [|n]; [done|]. cbn [utf8_valid]. rewrite ascii_test, Hc. eapply IH; [|done|done]. simpl. lia.
  - rewrite Hl. destruct n as [|n]; [done|]. rewrite utake_cont by done. apply Hclose. eapply IH; [|done|done].
    simpl. rewrite length_app_string. lia.
Qed.

(** ** Numerals *)


Definition dec_num (p : string) (z : Z) : Prop :=
  (forall a len rest, digits (p ++ rest) a len = digits rest (a * 10 ^ Z.of_nat (String.length p) + z)%Z (len + String.length p)) /\
  all_chars is_digit p = true /\
  exists c p', p = String c p' /\ (is_ch 48 c = true -> z = 0%Z /\ p' = EmptyString).

Lemma digit_char d : (0 <= d < 10)%Z ->
  let c := chr (Z.to_nat (48 + d)) in is_digit c = true /\ Z.of_nat (code c - 48) = d /\ (is_ch 48 c = true -> d = 0%Z).
Proof.
  intros Hd. assert (d = 0 \/ d = 1 \/ d = 2 \/ d = 3 \/ d = 4 \/ d = 5 \/ d = 6 \/ d = 7 \/ d = 8 \/ d = 9)%Z as H by lia.
  repeat destruct H as [-> | H]; try (split_and!; vm_compute; congruence). subst. split_and!; vm_compute; congruence.
Qed.

Lemma dec_num_digit d : (0 <= d < 10)%Z -> dec_num (String (chr (Z.to_nat (48 + d))) "") d.
Proof.
  intros Hd. destruct (digit_char _ Hd) as (Hc & Hv & H0). split_and!.
  - intros a len rest. rewrite app_string_cons. cbn [digits String.append String.length]. rewrite Hc, Hv. f_equal; lia.
  - cbn [all_chars]. by rewrite Hc.
  - eexists _, _. split; [done|]. intros E. split; [by apply H0 | done].
Qed.

Lemma dec_digits_spec f z acc : (0 <= z < 10 ^ (1 + Z.of_nat f))%Z ->
  exists p, dec_digits f z acc = (p ++ acc)%string /\ dec_num p z.
Proof.
  revert z acc. induction f as [|f IH]; intros z acc Hz; cbn [dec_digits].
  - eexists. split; [by rewrite <- app_string_nil_cons|]. rewrite (Z.mod_small z 10) by lia. apply dec_num_digit. lia.
  - destruct (Z.ltb_spec z 10) as [Hlt|Hge].
    + eexists. split; [by rewrite <- app_string_nil_cons|]. rewrite (Z.mod_small z 10) by lia. apply dec_num_digit. lia.
    + assert (0 <= z mod 10 < 10)%Z as Hm by (apply Z.mod_pos_bound; lia).
      destruct (digit_char _ Hm) as (Hd & Hv & _).
      assert (0 <= z / 10 < 10 ^ (1 + Z.of_nat f))%Z as Hq.
      { split; [apply Z.div_pos; lia|]. apply Z.div_lt_upper_bound; [lia|].
        replace (1 + Z.of_nat (S f))%Z with (1 + (1 + Z.of_nat f))%Z in Hz by lia.
        rewrite Z.pow_add_r in Hz by lia. lia. }
      destruct (IH (z / 10)%Z (String (chr (Z.to_nat (48 + z mod 10))) acc) Hq) as (p & -> & Hp & Hall & c & p' & -> & Hc).
      set (d := chr (Z.to_nat (48 + z mod 10))) in *.
      exists (String c p' ++ String d "")%string. split; [by rewrite app_string_assoc|]. split_and!.
      * intros a len rest. rewrite app_string_assoc, Hp. rewrite app_string_cons. cbn [digits String.append]. rewrite Hd, Hv.
        rewrite length_app_string. cbn [String.length]. f_equal; [|lia].
        rewrite Nat2Z.inj_add, Z.pow_add_r by lia. change (10 ^ Z.of_nat 1)%Z with 10%Z.
        pose proof (Z.div_mod z 10). lia.
      * rewrite all_chars_app, Hall. cbn [all_chars]. by rewrite Hd.
      * eexists _, _. split; [by rewrite app_string_cons|]. intros E. destruct (Hc E) as [Hz0 _].
        pose proof (Z.div_str_pos z 10). lia.
Qed.

Lemma dec_nonneg_spec z : (0 <= z)%Z -> dec_num (dec_nonneg z) z.
Proof.
  intros Hz. unfold dec_nonneg. destruct (dec_digits_spec (Z.to_nat (Z.log2 z)) z "") as (p & -> & Hp).
  - split; [done|]. rewrite Z2Nat.id by apply Z.log2_nonneg. destruct (Z.eq_dec z 0) as [->|Hne]; [done|].
    destruct (Z.log2_spec z) as [_ H]; [lia|]. eapply Z.lt_le_trans; [exact H|].
    replace (1 + Z.log2 z)%Z with (Z.succ (Z.log2 z)) by lia. apply Z.pow_le_mono_l. lia.
  - by rewrite app_string_nil.
Qed.

(** What may follow a value inside a document. *)
Definition closes (s : string) : bool :=
  match s with String c _ => is_ch 44 c || is_ch 93 c || is_ch 125 c | EmptyString => true end.

Lemma closes_shape s : closes s = true ->
  (forall a len, digits s a len = (a, len, s)) /\ frac_part s = None /\ exp_part s = None /\ skip_ws s = s.
Proof. destruct s as [|[[] [] [] [] [] [] [] []] s]; intros H; first [discriminate H | by split_and!]. Qed.

Lemma parse_nonneg z rest : (0 <= z)%Z -> closes rest = true ->
  int_part (dec_nonneg z ++ rest) = Some (z, rest) /\
  exists c p, dec_nonneg z = String c p /\ is_digit c = true.
Proof.
  intros Hz Hr. destruct (dec_nonneg_spec z Hz) as (Hd & Hall & c & p & Ep & Hc). rewrite Ep in *.
  cbn [all_chars] in Hall. apply andb_true_iff in Hall as [Hdc _]. split; [|by eauto].
  specialize (Hd 0%Z 0%nat rest). rewrite app_string_cons in *. unfold int_part. destruct (is_ch 48 c) eqn:E.
  - destruct (Hc eq_refl) as [-> ->]. done.
  - rewrite Hdc, Hd. destruct (closes_shape _ Hr) as (-> & _). done.
Qed.

Lemma parse_int z rest : closes rest = true -> parse_number (dumps_int z ++ rest) = Some (JInt z, rest).
Proof.
  intros Hr. destruct (closes_shape _ Hr) as (_ & Hf & He & _). unfold dumps_int. destruct (Z.ltb_spec z 0) as [Hz|Hz].
  - destruct (parse_nonneg (- z) rest) as [Hp _]; [lia | done|]. rewrite app_string_cons. unfold parse_number.
    change (is_ch 45 (chr 45)) with true. cbn match. rewrite Hp. cbn. rewrite Hf, He. repeat f_equal. lia.
  - destruct (parse_nonneg z rest) as (Hp & c & p & Ep & Hc); [lia | done|]. rewrite Ep, app_string_cons in *.
    unfold parse_number. assert (is_ch 45 c = false) as -> by by destruct c as [[] [] [] [] [] [] [] []].
    rewrite Hp. cbn. rewrite Hf, He. repeat f_equal. lia.
Qed.

(** ** Values *)

Lemma is_digit_scalar c s : is_digit c = true \/ is_ch 45 c = true ->
  is_ch 34 c = false /\ is_ch 123 c = false /\ is_ch 91 c = false /\ is_json_space c = false /\ is_ch 93 c = false /\
  parse_scalar (String c s) = parse_number (String c s).
Proof. destruct c as [[] [] [] [] [] [] [] []]; intros [H|H]; first [discriminate H | by split_and!]. Qed.

Lemma dumps_int_head z : exists c s, dumps_int z = String c s /\ (is_digit c = true \/ is_ch 45 c = true).
Proof.
  unfold dumps_int. destruct (Z.ltb_spec z 0) as [Hz|Hz]; [by eauto|].
  destruct (parse_nonneg z "" Hz eq_refl) as (_ & c & p & Ep & Hc). eauto.
Qed.

Lemma dumps_head fr j : json_ok j = true -> exists c s, dumps fr j = String c s /\ is_json_space c = false /\ is_ch 93 c = false.
Proof.
  destruct j as [|[]|z|q|s|l|fs]; try (intros _; eexists _, _; by split_and!); intros H.
  - destruct (dumps_int_head z) as (c & s & E & Hc). exists c, s. cbn [dumps]. rewrite E.
    destruct (is_digit_scalar c "" Hc) as (_ & _ & _ & ? & ? & _). done.
  - discriminate H.
Qed.
Lemma dumps_skip fr j rest : json_ok j = true -> skip_ws (dumps fr j ++ rest) = (dumps fr j ++ rest)%string.
Proof. intros (c & s & -> & Hs & _)%(dumps_head fr). rewrite app_string_cons. cbn [skip_ws]. by rewrite Hs. Qed.

Lemma parse_scalar_int f z rest : closes rest = true -> parse_value (S f) (dumps_int z ++ rest) = Some (JInt z, rest).
Proof.
  intros Hr. pose proof (parse_int z rest Hr) as Hp. destruct (dumps_int_head z) as (c & s & E & Hc).
  rewrite E, app_string_cons in *. destruct (is_digit_scalar c (s ++ rest) Hc) as (H1 & H2 & H3 & _ & _ & H4).
  cbn [parse_value]. by rewrite H1, H2, H3, H4.
Qed.

Lemma join_cons sep w ws t :
  (join sep (w :: ws) ++ t = w ++ match ws with [] => t | _ => sep ++ join sep ws ++ t end)%string.
Proof. destruct ws as [|w2 ws]; [done|]. change (join sep (w :: w2 :: ws)) with (w ++ sep ++ join sep (w2 :: ws))%string. by rewrite !app_string_assoc. Qed.

Section roundtrip.
Context (fr : Q -> string).

Definition parses_back (j : json) : Prop :=
  json_ok j = true -> forall fuel rest, (jsize j <= fuel)%nat -> closes rest = true ->
    parse_value fuel (dumps fr j ++ rest) = Some (j, rest).

Lemma comma_shape t :
  skip_ws (", " ++ t) = (", " ++ t)%string /\ expect 93 (", " ++ t) = None /\ expect 125 (", " ++ t) = None /\
  expect 44 (", " ++ t) = Some (" " ++ t)%string /\ skip_ws (" " ++ t) = skip_ws t /\ closes (", " ++ t) = true.
Proof. done. Qed.

Lemma colon_shape t : expect 58 (skip_ws (": " ++ t)) = Some (" " ++ t)%string.
Proof. done. Qed.
Lemma space_shape t : skip_ws (" " ++ t) = skip_ws t.
Proof. done. Qed.

Lemma parse_elements_ok l rest : Forall parses_back l -> forallb json_ok l = true ->
  forall fuel, l <> [] -> (list_sum (map (fun x => S (jsize x)) l) <= fuel)%nat ->
  parse_elements fuel (join ", " (map (dumps fr) l) ++ String (chr 93) rest) = Some (l, rest).
Proof.
  intros Hl. induction Hl as [|x l Hx Hl IH]; [done|]. intros [Ox Ol]%andb_true_iff fuel _ Hf.
  destruct fuel as [|fuel]; [unfold list_sum in *; simpl in Hf; lia|]. cbn [map parse_elements] in *.
  rewrite join_cons. destruct l as [|y l]; cbn [map].
  - rewrite Hx by (done || (unfold list_sum in *; simpl in *; lia)). done.
  - set (t := (join ", " (dumps fr y :: map (dumps fr) l) ++ String (chr 93) rest)%string) in *.
    destruct (comma_shape t) as (E1 & E2 & _ & E4 & E5 & E6).
    rewrite Hx by (done || (unfold list_sum in *; simpl in *; lia)). cbn [option_bind mbind]. rewrite E1, E2, E4. cbn [option_bind mbind].
    rewrite E5. assert (skip_ws t = t) as ->.
    { subst t. rewrite join_cons. apply dumps_skip. by apply andb_true_iff in Ol as [? _]. }
    rewrite IH by (done || (unfold list_sum in *; simpl in *; lia)). done.
Qed.

Definition member (kv : string * json) : string := (dumps_string (fst kv) ++ ": " ++ dumps fr (snd kv))%string.

Lemma members_head x l t : exists s, (join ", " (member x :: map member l) ++ t)%string = String chq s.
Proof. rewrite join_cons. unfold member at 1, dumps_string. rewrite app_string_assoc, app_string_cons. eauto. Qed.

Lemma parse_members_ok fs rest : Forall (fun kv => parses_back (snd kv)) fs ->
  forallb (fun kv => utf8_valid (fst kv) && json_ok (snd kv)) fs = true ->
  forall fuel acc, fs <> [] -> NoDup (map fst (acc ++ fs)) -> (list_sum (map (fun kv => S (jsize (snd kv))) fs) <= fuel)%nat ->
  parse_members fuel (join ", " (map member fs) ++ String (chr 125) rest) acc = Some (acc ++ fs, rest).
Proof.
  intros Hl. induction Hl as [|[k x] l Hx Hl IH]; [done|]. intros [[_ Ox]%andb_true_iff Ol]%andb_true_iff fuel acc _ Hnd Hf.
  destruct fuel as [|fuel]; [unfold list_sum in *; simpl in Hf; lia|]. cbn [map parse_members fst snd] in *.
  rewrite join_cons. unfold member at 1, dumps_string. cbn [fst snd].
  rewrite app_string_assoc, app_string_cons, !app_string_assoc. cbn [expect]. change (is_ch 34 chq) with true. cbn match. cbn [option_bind mbind].
  rewrite app_string_nil_cons, parse_string_esc. cbn [option_bind mbind].
  rewrite colon_shape. cbn [option_bind mbind]. rewrite space_shape, dumps_skip by done.
  assert (k ∉ map fst acc) as Hk.
  { rewrite map_app in Hnd. apply NoDup_app in Hnd as (_ & H & _). intros Hin. apply (H k Hin). left. }
  destruct l as [|y l]; cbn [map].
  - rewrite Hx by (done || (unfold list_sum in *; simpl in *; lia)). cbn. by rewrite od_set_new.
  - set (t := (join ", " (member y :: map member l) ++ String (chr 125) rest)%string) in *.
    destruct (comma_shape t) as (E1 & _ & E3 & E4 & E5 & E6).
    rewrite Hx by (done || (unfold list_sum in *; simpl in *; lia)). cbn [option_bind mbind]. rewrite E1, E3, E4. cbn [option_bind mbind].
    rewrite E5. assert (skip_ws t = t) as ->.
    { subst t. destruct (members_head y l (String (chr 125) rest)) as [s ->]. done. }
    rewrite od_set_new by done. rewrite IH; [by rewrite <- app_assoc | done | done | by rewrite <- app_assoc | unfold list_sum in *; simpl in *; lia].
Qed.

Lemma dumps_parses_back j : parses_back j.
Proof.
  induction j as [|b|z|q|s|l IH|fs IH] using json_nested_ind; intros Hok [|fuel] rest Hf Hr; try (unfold list_sum in *; simpl in Hf; lia); try done.
  - by destruct rest.
  - by destruct b, rest.
  - by apply parse_scalar_int.
  - cbn [dumps]. unfold dumps_string. rewrite app_string_cons, app_string_assoc, app_string_nil_cons. cbn [parse_value].
    change (is_ch 34 chq) with true. cbn match. by rewrite parse_string_esc.
  - cbn [dumps]. rewrite app_string_assoc, app_string_cons, app_string_nil_cons. cbn [parse_value].
    change (is_ch 34 (chr 91)) with false. change (is_ch 123 (chr 91)) with false. change (is_ch 91 (chr 91)) with true. cbn match zeta.
    destruct l as [|x l]; [done|].
    assert (exists c s, (join ", " (map (dumps fr) (x :: l)) ++ String (chr 93) rest)%string = String c s /\
      is_json_space c = false /\ is_ch 93 c = false) as (c & s & E & Hc & Hc').
    { cbn [map]. rewrite join_cons. apply andb_true_iff in Hok as [Hx _].
      destruct (dumps_head fr x Hx) as (c & s & -> & ? & ?). rewrite app_string_cons. eauto. }
    pose proof (parse_elements_ok (x :: l) rest IH Hok fuel ltac:(done) ltac:(cbn [jsize] in Hf; lia)) as Hp. rewrite E in Hp |- *.
    cbn [skip_ws]. rewrite Hc. cbn [expect]. rewrite Hc', Hp. done.
  - cbn [dumps]. rewrite app_string_assoc, app_string_cons, app_string_nil_cons. cbn [parse_value].
    change (is_ch 34 (chr 123)) with false. change (is_ch 123 (chr 123)) with true. cbn match zeta.
    destruct fs as [|x l]; [done|]. apply andb_true_iff in Hok as [Hnd%bool_decide_eq_true Hok].
    pose proof (parse_members_ok (x :: l) rest IH Hok fuel [] ltac:(done) Hnd ltac:(cbn [jsize] in Hf; lia)) as Hp. fold member.
    change (map (fun kv => _) (x :: l)) with (map member (x :: l)) in *.
    destruct (members_head x l (String (chr 125) rest)) as [s E]. cbn [map] in Hp |- *. rewrite E in Hp |- *. change (skip_ws (String chq s)) with (String chq s). change (expect 125 (String chq s)) with (@None string).
    cbn match. rewrite Hp. done.
Qed.
End roundtrip.

(** ** Size and shape of the printed text *)

Lemma join_length {A} (f : A -> string) (n : A -> nat) l : Forall (fun x => (n x <= String.length (f x))%nat) l ->
  (list_sum (map (fun x => S (n x)) l) <= S (String.length (join ", " (map f l))))%nat.
Proof.
  induction 1 as [|x l Hx Hl IH]; [simpl; lia|]. cbn [map]. change (list_sum (?a :: ?l)) with (a + list_sum l)%nat.
  rewrite <- (app_string_nil (join _ _)), join_cons. destruct l as [|y l]; cbn [map] in *.
  - rewrite app_string_nil. simpl. lia.
  - rewrite app_string_nil, !length_app_string. simpl (String.length ", "). lia.
Qed.

Lemma dumps_size fr j : json_ok j = true -> (jsize j <= String.length (dumps fr j))%nat.
Proof.
  induction j as [|b|z|q|s|l IH|fs IH] using json_nested_ind; intros Hok; try (simpl; lia); try done.
  - destruct b; simpl; lia.
  - cbn [dumps]. destruct (dumps_int_head z) as (c & s & -> & _). simpl. lia.
  - cbn [dumps jsize]. rewrite app_string_cons. cbn [String.length]. rewrite length_app_string.
    assert (list_sum (map (fun x => S (jsize x)) l) <= S (String.length (join ", " (map (dumps fr) l))))%nat as H.
    { apply join_length. rewrite Forall_forall in IH |- *. cbn [json_ok] in Hok. rewrite forallb_forall in Hok.
      intros x Hx. apply IH; [done|]. by apply Hok, list_elem_of_In. }
    simpl (String.length (String _ _)). lia.
  - cbn [dumps jsize]. rewrite app_string_cons. cbn [String.length]. rewrite length_app_string.
    assert (list_sum (map (fun kv => S (jsize (snd kv))) fs) <= S (String.length (join ", " (map (member fr) fs))))%nat as H.
    { apply join_length. rewrite Forall_forall in IH |- *. cbn [json_ok] in Hok.
      apply andb_true_iff in Hok as [_ Hok]. rewrite forallb_forall in Hok.
      intros x Hx. unfold member. rewrite !length_app_string. transitivity (String.length (dumps fr (snd x))); [|lia].
      apply IH; [done|]. apply list_elem_of_In, Hok, andb_true_iff in Hx as [_ ?]. done. }
    unfold member in H. simpl (String.length (String _ _)). lia.
Qed.

(** Printing and parsing again is the identity. *)
Lemma loads_dumps fr j : json_ok j = true -> loads (dumps fr j) = Some j.
Proof.
  intros Hok. unfold loads. pose proof (dumps_skip fr j "" Hok) as Hs. rewrite app_string_nil in Hs.
  pose proof (dumps_parses_back fr j Hok (S (String.length (dumps fr j))) "") as H. rewrite app_string_nil in H.
  pose proof (dumps_size fr j Hok). rewrite Hs, H by (done || lia). done.
Qed.

(** One line of well-formed text. *)
Definition one_line (s : string) : bool := all_chars printable s && utf8_valid s.
Lemma one_line_app a b : one_line a = true -> one_line b = true -> one_line (a ++ b) = true.
Proof.
  unfold one_line. rewrite !andb_true_iff, all_chars_app. intros [-> Ha] [-> Hb]. split; [done | by apply utf8_valid_app].
Qed.
Lemma one_line_join ws : Forall (fun w => one_line w = true) ws -> one_line (join ", " ws) = true.
Proof.
  induction 1 as [|w ws Hw Hws IH]; [done|]. rewrite <- (app_string_nil (join _ _)), join_cons.
  apply one_line_app; [done|]. destruct ws; [done|]. repeat apply one_line_app; done.
Qed.
Lemma one_line_string s : utf8_valid s = true -> one_line (dumps_string s) = true.
Proof.
  intros Hs. unfold dumps_string. change (String chq ?t) with (String chq "" ++ t)%string at 1.
  apply one_line_app; [done|]. apply one_line_app; [|done].
  unfold one_line. by rewrite esc_string_printable, esc_string_utf8.
Qed.
Lemma one_line_int z : one_line (dumps_int z) = true.
Proof.
  assert (forall n, (0 <= n)%Z -> one_line (dec_nonneg n) = true) as H.
  { intros n Hn. destruct (dec_nonneg_spec n Hn) as (_ & H & _). unfold one_line. apply andb_true_iff. split; [|apply ascii_utf8];
      revert H; clear; induction (dec_nonneg n) as [|c s IH]; [done | cbn [all_chars] | done | cbn [all_chars]];
      intros [Hc Hs]%andb_true_iff; rewrite (IH Hs), andb_true_r; revert Hc; by destruct c as [[] [] [] [] [] [] [] []]. }
  unfold dumps_int. destruct (Z.ltb_spec z 0); [|by apply H].
  change (String (chr 45) ?t) with (String (chr 45) "" ++ t)%string. apply one_line_app; [done | apply H; lia].
Qed.

Lemma dumps_one_line fr j : json_ok j = true -> one_line (dumps fr j) = true.
Proof.
  induction j as [|b|z|q|s|l IH|fs IH] using json_nested_ind; intros Hok; try done.
  - by destruct b.
  - apply one_line_int.
  - by apply one_line_string.
  - cbn [dumps]. change (String (chr 91) ?t) with (String (chr 91) "" ++ t)%string at 1.
    repeat apply one_line_app; try done. apply one_line_join, Forall_forall. intros w (x & -> & Hx)%list_elem_of_fmap.
    cbn [json_ok] in Hok. rewrite forallb_forall in Hok. rewrite Forall_forall in IH. apply IH; [done|].
    by apply Hok, list_elem_of_In.
  - cbn [dumps]. change (String (chr 123) ?t) with (String (chr 123) "" ++ t)%string at 1.
    repeat apply one_line_app; try done. apply one_line_join, Forall_forall. intros w (x & -> & Hx)%list_elem_of_fmap.
    cbn [json_ok] in Hok. apply andb_true_iff in Hok as [_ Hok]. rewrite forallb_forall in Hok. rewrite Forall_forall in IH.
    pose proof Hx as [H1 H2]%list_elem_of_In%Hok%andb_true_iff.
    apply one_line_app; [by apply one_line_string|]. apply one_line_app; [done | by apply IH].
Qed.

(** ** What the stream protocols need of a JSON codec *)

Class JsonCodec (dumps : json -> string) (loads : string -> option json) : Prop := {
  codec_roundtrip : forall j, json_ok j = true -> loads (dumps j) = Some j;
  codec_line : forall j, json_ok j = true -> one_line (dumps j) = true;
  codec_object : forall fs, exists t, dumps (JObj fs) = String (chr 123) (t ++ String (chr 125) "");
}.

#[export] Instance python_json fr : JsonCodec (dumps fr) loads.
Proof. split; [apply loads_dumps | apply dumps_one_line | intros fs; eexists; reflexivity]. Qed.

End JsonTextProps.
