(* ===== verification/PyDyn.v ===== *)
(** * Dynamically typed values

    How the wire codecs read JSON: attribute access, iteration, truthiness and
    conversion of values whose type is not known, with the exceptions Python
    raises.  The library's message records are typed; where the code would store
    a value of another type in them the model raises [Untyped], so such inputs
    are outside the theorems that speak of a returned record. *)

From stdpp Require Import base tactics list strings.
From Stdlib Require Import QArith Ascii.
From S2P Require Import Prelude PyText Json.

Inductive dyn_error : Type := AttributeError | TypeError | KeyError | IndexError | Untyped.

Section dynamic.
Context {S : Type}.
Abbreviation D := (M dyn_error S).

(** [j.get(k)] and [j.get(k, d)]: only a dict has the method. *)
Definition py_get_or (k : string) (d : json) (j : json) : D json :=
  match j with JObj fs => mret (default d (od_get k fs)) | _ => raise AttributeError end.
Definition py_get (k : string) (j : json) : D json := py_get_or k JNull j.

(** [j[k]] for a text key. *)
Definition py_item (k : string) (j : json) : D json :=
  match j with
  | JObj fs => match od_get k fs with Some v => mret v | None => raise KeyError end
  | _ => raise TypeError
  end.

(** [k in j] *)
Definition py_in (k : string) (j : json) : D bool :=
  match j with
  | JObj fs => mret (od_mem k fs)
  | JArr l => mret (existsb (fun x => match x with JStr s => String.eqb s k | _ => false end) l)
  | JStr s => mret (contains k s)
  | _ => raise TypeError
  end.

(** What [for x in j] ranges over: a dict yields its keys, a string its
    characters; other scalars are not iterable. *)
Definition py_iter (j : json) : D (list json) :=
  match j with
  | JArr l => mret l
  | JObj fs => mret (map (fun kv => JStr (fst kv)) fs)
  | JStr s => mret (map (fun c => JStr (String c "")) (String.list_ascii_of_string s))
  | _ => raise TypeError
  end.

(** [j[0]] *)
Definition py_first (j : json) : D json :=
  match j with
  | JArr (x :: _) => mret x
  | JStr (String c _) => mret (JStr (String c ""))
  | JArr [] | JStr EmptyString => raise IndexError
  | JObj _ => raise KeyError
  | _ => raise TypeError
  end.

(** The right-hand side of [text += j]. *)
Definition py_text (j : json) : D string :=
  match j with JStr s => mret s | _ => raise TypeError end.

(** A value stored in a field of the given type. *)
Definition want_str (j : json) : D string := match j with JStr s => mret s | _ => raise Untyped end.
Definition want_opt_str (j : json) : D (option string) :=
  match j with JStr s => mret (Some s) | JNull => mret None | _ => raise Untyped end.
Definition want_int (j : json) : D Z := match j with JInt z => mret z | _ => raise Untyped end.
Definition want_opt_int (j : json) : D (option Z) :=
  match j with JInt z => mret (Some z) | JNull => mret None | _ => raise Untyped end.
Definition want_opt_num (j : json) : D (option Q) :=
  match j with JInt z => mret (Some (inject_Z z)) | JFloat q => mret (Some q) | JNull => mret None | _ => raise Untyped end.

End dynamic.

(** [[f(x) for x in l]] *)
Fixpoint map_m {E S A B} (f : A -> M E S B) (l : list A) : M E S (list B) :=
  match l with
  | [] => mret []
  | x :: l' => y ← f x; ys ← map_m f l'; mret (y :: ys)
  end.

(** [a or b] *)
Definition jor (a b : json) : json := if jtruthy a then a else b.
(** [None] is an absent optional value. *)
Definition jopt (j : json) : option json := match j with JNull => None | _ => Some j end.
Definition is_dict (j : json) : bool := match j with JObj _ => true | _ => false end.
(** [j == s] for a text [s]. *)
Definition jeqs (s : string) (j : json) : bool := match j with JStr t => String.eqb s t | _ => false end.

(** [str(j)]: [py_repr] renders what is not a text. *)
Definition py_str (py_repr : json -> string) (j : json) : string := match j with JStr s => s | _ => py_repr j end.

Lemma map_m_ok {S A B} (f : A -> M dyn_error S B) (g : A -> B) l s n :
  (forall x, x ∈ l -> f x s n = (Ok (g x), s, n)) -> map_m f l s n = (Ok (map g l), s, n).
Proof.
  induction l as [|x l IH]; intros H; [done|]. cbn [map_m map].
  rewrite (bind_ok _ _ _ _ _ _ _ (H x ltac:(left))). cbv beta. rewrite (bind_ok _ _ _ _ _ _ _ (IH ltac:(intros; apply H; by right))). done.
Qed.

(** A field of a dict. *)
Lemma get_ok {S} k d fs v (s : S) n : default d (od_get k fs) = v -> py_get_or k d (JObj fs) s n = (Ok v, s, n).
Proof. intros <-. reflexivity. Qed.

(** Reads one optional field of a dict, known from [F]. *)
Ltac read_field F :=
  lazymatch type of F with od_get ?k ?fs = _ =>
    erewrite bind_ok by (apply get_ok; lazymatch goal with |- default _ (od_get _ ?gs) = _ => change (od_get k gs) with (od_get k fs) end;
      rewrite F; reflexivity); cbv beta
  end.
