(* ===== verification/Regex.v ===== *)
(** * Regular expressions

    The part of Python's [re] the gateway uses, as an executable backtracking
    matcher: the list of the possible matches at a position, in the order the
    engine tries them (alternatives left to right, greedy repetitions longest
    first, lazy ones shortest first), so that its head is the match Python
    reports.  The matcher is proved sound and complete for the usual declarative
    semantics.  Captured groups are listed by their opening parenthesis; in the
    expressions used every group takes part in a match exactly once. *)

From stdpp Require Import base tactics list sets strings.
From Stdlib Require Import QArith Ascii.
From S2P Require Import Prelude PyText.

Inductive regex : Type :=
| RChar (p : ascii -> bool)
| REps
| REnd
| RSeq (a b : regex)
| RAlt (a b : regex)
| RStar (greedy : bool) (a : regex)
| RGroup (a : regex).

(** [$]: the end of the text, or just before a final line feed. *)
Definition at_end (s : string) : bool :=
  match s with
  | EmptyString => true
  | String c EmptyString => (code c =? 10)%nat
  | _ => false
  end.

(** The text between a position and a later one. *)
Definition consumed (s rest : string) : string := str_take (String.length s - String.length rest) s.

Abbreviation mtch := (list string * string)%type.

(** Sequencing of matches. *)
Definition then_match (f : string -> list mtch) (m : mtch) : list mtch :=
  map (fun m' => (fst m ++ fst m', snd m')) (f (snd m)).

(** Repetition; an iteration that consumes nothing is not repeated. *)
Fixpoint star (greedy : bool) (f : string -> list mtch) (fuel : nat) (s : string) : list mtch :=
  let more := match fuel with
    | O => []
    | S n => concat (map (then_match (star greedy f n))
               (filter (fun m => (String.length (snd m) < String.length s)%nat) (f s)))
    end in
  if greedy then more ++ [([], s)] else ([], s) :: more.

Fixpoint matches (r : regex) (s : string) : list mtch :=
  match r with
  | RChar p => match s with String c s' => if p c then [([], s')] else [] | EmptyString => [] end
  | REps => [([], s)]
  | REnd => if at_end s then [([], s)] else []
  | RSeq a b => concat (map (then_match (matches b)) (matches a s))
  | RAlt a b => matches a s ++ matches b s
  | RStar g a => star g (matches a) (String.length s) s
  | RGroup a => map (fun m => (consumed s (snd m) :: fst m, snd m)) (matches a s)
  end.

(** [re.match(r, s)]: the groups of the first match at the start. *)
Definition re_match (r : regex) (s : string) : option mtch := head (matches r s).

(** [re.search(r, s)]: the leftmost match; its groups. *)
Fixpoint search (r : regex) (s : string) : option (list string) :=
  match matches r s with
  | m :: _ => Some (fst m)
  | [] => match s with String _ s' => search r s' | EmptyString => None end
  end.

(** [re.sub(r, f, s)] for an expression that never matches the empty text. *)
Fixpoint re_sub_go (fuel : nat) (r : regex) (f : list string -> string) (s : string) : string :=
  match fuel, s with
  | S n, String c s' =>
      match matches r s with
      | (g, rest) :: _ =>
          if (String.length rest <? String.length s)%nat then (f g ++ re_sub_go n r f rest)%string
          else String c (re_sub_go n r f s')
      | [] => String c (re_sub_go n r f s')
      end
  | _, _ => s
  end.
Definition re_sub (r : regex) (f : list string -> string) (s : string) : string := re_sub_go (String.length s) r f s.

(** ** Building blocks *)

Definition ch (c : ascii) : regex := RChar (Ascii.eqb c).
Fixpoint lit (s : string) : regex :=
  match s with
  | EmptyString => REps
  | String c EmptyString => ch c
  | String c s' => RSeq (ch c) (lit s')
  end.
Definition any_of (s : string) : regex :=
  RChar (fun c => contains (String c "") s).
Definition digit : regex := RChar is_digit.
Definition space : regex := RChar is_space.
Definition many (a : regex) : regex := RStar true a.
Definition plus (a : regex) : regex := RSeq a (many a).
Definition opt (a : regex) : regex := RAlt a REps.
Definition dot : regex := RChar (fun c => negb (code c =? 10)%nat).
Fixpoint seqs (l : list regex) : regex :=
  match l with [] => REps | [a] => a | a :: l' => RSeq a (seqs l') end.
Fixpoint alts (l : list regex) : regex :=
  match l with [] => RAlt REps REps | [a] => a | a :: l' => RAlt a (alts l') end.

(** ** Declarative semantics

    [lang r w rest]: the expression matches the text [w] when [rest] follows. *)
Inductive lang : regex -> string -> string -> Prop :=
| LChar p c rest : p c = true -> lang (RChar p) (String c "") rest
| LEps rest : lang REps "" rest
| LEnd rest : at_end rest = true -> lang REnd "" rest
| LSeq a b u v rest : lang a u (v ++ rest) -> lang b v rest -> lang (RSeq a b) (u ++ v) rest
| LAltL a b u rest : lang a u rest -> lang (RAlt a b) u rest
| LAltR a b u rest : lang b u rest -> lang (RAlt a b) u rest
| LStar0 g a rest : lang (RStar g a) "" rest
| LStarS g a u v rest : lang a u (v ++ rest) -> lang (RStar g a) v rest -> lang (RStar g a) (u ++ v) rest
| LGroup a u rest : lang a u rest -> lang (RGroup a) u rest.

Lemma string_app_assoc a b c : ((a ++ b) ++ c = a ++ b ++ c)%string.
Proof. induction a as [|x a IH]; [done|]. by rewrite !app_string_cons, IH. Qed.
Lemma string_app_length a b : String.length (a ++ b) = (String.length a + String.length b)%nat.
Proof. induction a as [|x a IH]; [done|]. rewrite app_string_cons. simpl. by rewrite IH. Qed.

(** Some match of [r] at [s] leaves [rest]. *)
Definition reach (ms : list mtch) (rest : string) : Prop := exists g, (g, rest) ∈ ms.

Lemma reach_nil rest : reach [] rest <-> False.
Proof. split; [intros [g H]; set_solver | done]. Qed.
Lemma reach_one g s rest : reach [(g, s)] rest <-> s = rest.
Proof. split; [intros [g' H%list_elem_of_singleton]; by simplify_eq | intros ->; exists g; set_solver]. Qed.
Lemma reach_app a b rest : reach (a ++ b) rest <-> reach a rest \/ reach b rest.
Proof. unfold reach. setoid_rewrite elem_of_app. split; [intros [g [?|?]]; eauto | intros [[g ?]|[g ?]]; eauto]. Qed.
Lemma reach_cons m a rest : reach (m :: a) rest <-> snd m = rest \/ reach a rest.
Proof. destruct m as [g s]. rewrite (reach_app [(g, s)] a). by rewrite reach_one. Qed.
Lemma reach_then ms f rest :
  reach (concat (map (then_match f) ms)) rest <-> exists mid, reach ms mid /\ reach (f mid) rest.
Proof.
  induction ms as [|[g s] ms IH]; simpl.
  - rewrite reach_nil. split; [done | intros (mid & H & _); by apply reach_nil in H].
  - rewrite reach_app, IH. unfold then_match at 1; simpl. setoid_rewrite reach_cons. simpl. split.
    + intros [[g' H]|(mid & ? & ?)]; [|by eauto].
      apply list_elem_of_fmap in H as ([g2 s2] & Heq & Hin). simpl in Heq. simplify_eq.
      exists s. split; [by left | by exists g2].
    + intros (mid & [<-|?] & Hr); [|by eauto]. left. destruct Hr as [g2 Hin]. exists (g ++ g2).
      apply list_elem_of_fmap. by exists (g2, rest).
Qed.
Lemma reach_group (h : mtch -> list string) ms rest :
  reach (map (fun m => (h m, snd m)) ms) rest <-> reach ms rest.
Proof.
  split; intros [g H].
  - apply list_elem_of_fmap in H as ([g2 s2] & Heq & Hin). simpl in Heq. simplify_eq. by exists g2.
  - eexists. apply list_elem_of_fmap. by exists (g, rest).
Qed.
Lemma reach_star g f fuel s rest :
  reach (star g f fuel s) rest <->
  rest = s \/ exists n mid, fuel = S n /\ reach (f s) mid /\ (String.length mid < String.length s)%nat /\
                            reach (star g f n mid) rest.
Proof.
  assert (Hm : forall n, reach (concat (map (then_match (star g f n))
      (filter (fun m => (String.length (snd m) < String.length s)%nat) (f s)))) rest <->
    exists mid, reach (f s) mid /\ (String.length mid < String.length s)%nat /\ reach (star g f n mid) rest).
  { intros n. rewrite reach_then. split.
    - intros (mid & [g' H] & Hr). apply list_elem_of_filter in H as [Hl Hin]. simpl in Hl.
      exists mid. split_and!; [by exists g' | done | done].
    - intros (mid & [g' H] & Hl & Hr). exists mid. split; [|done]. exists g'. by apply list_elem_of_filter. }
  destruct fuel as [|n]; destruct g; simpl;
    rewrite ?reach_app, ?reach_cons, ?reach_one, ?reach_nil, ?Hm; simpl;
    (split; [intuition; try naive_solver | intros [->|(n' & mid & [= <-] & ?)]; eauto]).
Qed.

(** The loop of a repetition, given that its body is matched exactly. *)
Section star.
Context (g : bool) (a : regex).
Context (body : forall s rest, reach (matches a s) rest <-> exists w, s = (w ++ rest)%string /\ lang a w rest).

Lemma star_sound fuel s rest :
  reach (star g (matches a) fuel s) rest -> exists w, s = (w ++ rest)%string /\ lang (RStar g a) w rest.
Proof.
  revert s. induction fuel as [|n IH]; intros s; rewrite reach_star.
  - intros [->|(n & mid & ? & _)]; [|done]. exists "". by split; [|constructor].
  - intros [->|(n' & mid & [= <-] & (u & -> & Hu)%body & _ & (v & -> & Hv)%IH)].
    + exists "". by split; [|constructor].
    + exists (u ++ v)%string. split; [by rewrite string_app_assoc | by constructor].
Qed.
Lemma star_complete w rest : lang (RStar g a) w rest ->
  reach (star g (matches a) (String.length (w ++ rest)) (w ++ rest)) rest.
Proof.
  intros Hl. remember (RStar g a) as r eqn:Hr.
  assert (Hf : forall fuel, (String.length (w ++ rest) <= fuel)%nat ->
            reach (star g (matches a) fuel (w ++ rest)) rest); [|by apply Hf].
  induction Hl as [| | | | | | |g' a' u v rest Hu _ Hv IH|]; simplify_eq; intros fuel Hfuel.
  - rewrite reach_star. by left.
  - specialize (IH eq_refl). destruct u as [|c u]; [apply IH; by simpl in Hfuel|].
    rewrite reach_star. right. rewrite !string_app_length in Hfuel. simpl in Hfuel.
    destruct fuel as [|n]; [lia|]. exists n, (v ++ rest)%string. rewrite string_app_assoc.
    split_and!; [done | apply body; by eexists | |].
    + rewrite (string_app_length (String c u)). simpl. lia.
    + apply IH. rewrite string_app_length. lia.
Qed.
End star.

(** The matcher finds exactly the declarative matches. *)
Theorem matches_sound_complete r : forall s rest,
  reach (matches r s) rest <-> exists w, s = (w ++ rest)%string /\ lang r w rest.
Proof.
  induction r as [p| | |a IHa b IHb|a IHa b IHb|g a IHa|a IHa]; intros s rest; simpl.
  - split.
    + destruct s as [|c s]; [by rewrite reach_nil|]. destruct (p c) eqn:E; [|by rewrite reach_nil].
      rewrite reach_one. intros <-. exists (String c ""). split; [done | by constructor].
    + intros (w & -> & Hl). inversion Hl; simplify_eq/=. case_match; [by rewrite reach_one | congruence].
  - rewrite reach_one. split; [intros ->; exists ""; by split; [|constructor]|].
    intros (w & -> & Hl). by inversion Hl.
  - split.
    + destruct (at_end s) eqn:E; [|by rewrite reach_nil]. rewrite reach_one. intros <-. exists "".
      by split; [|constructor].
    + intros (w & -> & Hl). inversion Hl; simplify_eq/=. change ("" ++ rest)%string with rest in *. case_match; [by rewrite reach_one | congruence].
  - rewrite reach_then. split.
    + intros (mid & (u & -> & Hu)%IHa & (v & -> & Hv)%IHb). exists (u ++ v)%string.
      split; [by rewrite string_app_assoc | by constructor].
    + intros (w & -> & Hl). inversion Hl; subst. exists (v ++ rest)%string. rewrite IHa, IHb, string_app_assoc.
      split; by eexists.
  - rewrite reach_app, IHa, IHb. split.
    + intros [(w & ? & ?)|(w & ? & ?)]; exists w; split; [done | by constructor | done | by apply LAltR].
    + intros (w & -> & Hl). inversion Hl; subst; eauto.
  - split; [by apply star_sound | intros (w & -> & Hl); by apply star_complete].
  - rewrite (reach_group (fun m => consumed s (snd m) :: fst m)), IHa. split.
    + intros (w & -> & Hl). exists w. by split; [|constructor].
    + intros (w & -> & Hl). inversion Hl; subst. eauto.
Qed.

(** [re.search] succeeds exactly when some part of the text matches. *)
Lemma search_iff r s :
  (exists g, search r s = Some g) <-> exists a w b, s = (a ++ w ++ b)%string /\ lang r w b.
Proof.
  assert (Hnil : forall s, matches r s = [] <-> ~ exists rest, reach (matches r s) rest).
  { intros s'. split; [intros -> (rest & H); by apply reach_nil in H|].
    destruct (matches r s') as [|[g rest] ms]; [done|]. intros H. destruct H. exists rest. apply reach_cons. by left. }
  induction s as [|c s IH]; cbn [search].
  - destruct (matches r "") as [|[g rest] ms] eqn:E.
    + split; [by intros [g ?]|]. intros (a & w & b & Heq & Hl). exfalso. apply (proj1 (Hnil "") E). exists b.
      apply matches_sound_complete. exists w. destruct a; [by split | done].
    + split; [|eauto]. intros _. destruct (proj1 (matches_sound_complete r "" rest)) as (w & Hw & Hl).
      { rewrite E. apply reach_cons. by left. } exists "", w, rest. by split.
  - destruct (matches r (String c s)) as [|[g rest] ms] eqn:E.
    + rewrite IH. split.
      * intros (a & w & b & -> & Hl). exists (String c a), w, b. by split.
      * intros (a & w & b & Heq & Hl). destruct a as [|c' a].
        -- exfalso. apply (proj1 (Hnil (String c s)) E). exists b. apply matches_sound_complete. by exists w.
        -- rewrite app_string_cons in Heq. simplify_eq. by exists a, w, b.
    + split; [|eauto]. intros _. destruct (proj1 (matches_sound_complete r (String c s) rest)) as (w & Hw & Hl).
      { rewrite E. apply reach_cons. by left. } exists "", w, rest. by split.
Qed.
