(* ===== verification/Observability.v ===== *)
(** * Structured logging

    [src/durallm/observability/logger.py]: the redaction of what is logged, and the
    event written.  The expressions that ignore case do so for ASCII letters, and
    their white space is ASCII white space.  What the standard library's logger does
    with a line is not modelled: a line goes to it at a level, or to a stream. *)

From stdpp Require Import base tactics list strings.
From Stdlib Require Import QArith Ascii.
From S2P Require Import Prelude PyText Utf8 Json Regex Accelerator.

(** ** Patterns *)

Definition SENSITIVE_KEY_PATTERN : regex := seqs [alts [
  seqs [lit "api"; opt (any_of "_-"); lit "key"]; seqs [lit "secret"; opt (any_of "_-"); lit "key"];
  lit "authorization"; lit "bearer"; lit "secret"; lit "token"; lit "password"; lit "cookie"]; REnd].
(** [SENSITIVE_KEY_PATTERN.search(str(k))]; the case is ignored. *)
Definition sensitive (k : string) : bool := match search SENSITIVE_KEY_PATTERN (py_lower k) with Some _ => true | None => false end.

Definition key_char (c : ascii) : bool :=
  is_digit c || ((65 <=? code c) && (code c <=? 90))%nat || ((97 <=? code c) && (code c <=? 122))%nat || (code c =? 95)%nat || (code c =? 45)%nat.
(** [c{n,}] *)
Definition at_least (n : nat) (a : regex) : regex := seqs (replicate n a ++ [many a]).
Definition SECRET_VALUE_PATTERN : regex := alts [
  seqs [lit "sk-"; at_least 20 (RChar key_char)]; seqs [lit "gsk_"; at_least 20 (RChar key_char)]; seqs [lit "AIza"; at_least 30 (RChar key_char)]].

(** A literal of lower-case letters, in any case. *)
Fixpoint lit_any_case (s : string) : regex :=
  match s with
  | EmptyString => REps
  | String c s' => RSeq (RChar (fun d => String.eqb (py_lower (String d "")) (String c ""))) (lit_any_case s')
  end.
Definition BEARER_PATTERN : regex :=
  seqs [RGroup (seqs [lit_any_case "bearer"; plus space]); plus (RChar (fun c => negb (is_space c)))].

(** ** Redaction *)

Definition mask_text (s : string) : string :=
  re_sub BEARER_PATTERN (fun g => nth 0 g "" ++ "[REDACTED_API_KEY]")%string (re_sub SECRET_VALUE_PATTERN (fun _ => "[REDACTED_API_KEY]") s).

Definition PREVIEW_KEYS : list string := ["prompt"; "messages"; "content"].
Definition preview (max_chars : nat) (v : string) : string :=
  if (max_chars <? FastTokenEstimator.ulen v)%nat then (utake max_chars v ++ "... [TRUNCATED_OBSERVABILITY_PREVIEW]")%string else v.
Definition text_of (j : json) : option string := match j with JStr s => Some s | _ => None end.

Fixpoint redact_sensitive_data (max_chars : nat) (j : json) : json :=
  match j with
  | JObj fs => JObj (map (fun kv => (fst kv,
      if sensitive (fst kv) then JStr "[REDACTED]"
      else match existsb (String.eqb (fst kv)) PREVIEW_KEYS, text_of (snd kv) with
           | true, Some v => JStr (preview max_chars v)
           | _, _ => redact_sensitive_data max_chars (snd kv)
           end)) fs)
  | JArr l => JArr (map (redact_sensitive_data max_chars) l)
  | JStr s => JStr (mask_text s)
  | _ => j
  end.

(** ** Events *)

Definition LEVELS : odict string Z := [("DEBUG", 10); ("INFO", 20); ("WARNING", 30); ("ERROR", 40)]%Z.
Definition MAX_PREVIEW : nat := 120.
Definition event_payload (now : Q) (name level event : string) (request_id : option string) (metadata : odict string json) : json :=
  JObj [("timestamp", JFloat now); ("logger", JStr name); ("level", JStr level); ("event", JStr event);
        ("request_id", match request_id with Some s => JStr s | None => JNull end);
        ("data", redact_sensitive_data MAX_PREVIEW (JObj metadata))].

(** Where a line goes: to the stream, or to the named logger at a level. *)
Inductive log_line : Type := ToStream (line : string) | ToLogger (level : Z) (line : string).
Definition log_event (json_dumps : json -> string) (upper : string -> string) (to_stream : bool) (name : string) (now : Q)
    (level event : string) (request_id : option string) (metadata : odict string json) : log_line :=
  let line := json_dumps (event_payload now name (upper level) event request_id metadata) in
  if to_stream then ToStream (line ++ String (chr 10) "")%string else ToLogger (default 20%Z (od_get (upper level) LEVELS)) line.

(** ** What redaction guarantees *)
Module ObservabilityProps.

(** A member of an object, at any depth. *)
Inductive occurs (k : string) (v : json) : json -> Prop :=
| occurs_here fs : (k, v) ∈ fs -> occurs k v (JObj fs)
| occurs_member fs k' w : (k', w) ∈ fs -> occurs k v w -> occurs k v (JObj fs)
| occurs_item l w : w ∈ l -> occurs k v w -> occurs k v (JArr l).

(** One member of a redacted object. *)
Definition redact_member (max_chars : nat) (kv : string * json) : string * json :=
  (fst kv, if sensitive (fst kv) then JStr "[REDACTED]"
    else match existsb (String.eqb (fst kv)) PREVIEW_KEYS, text_of (snd kv) with
         | true, Some v => JStr (preview max_chars v)
         | _, _ => redact_sensitive_data max_chars (snd kv)
         end).
Lemma redact_object max_chars fs : redact_sensitive_data max_chars (JObj fs) = JObj (map (redact_member max_chars) fs).
Proof. done. Qed.

(** What a member holds after redaction. *)
Definition safe_member (max_chars : nat) (k : string) (v : json) : Prop :=
  (sensitive k = true -> v = JStr "[REDACTED]") /\
  (forall t, v = JStr t -> sensitive k = false ->
     (existsb (String.eqb k) PREVIEW_KEYS = true /\ exists s, t = preview max_chars s) \/ exists s, t = mask_text s).

Lemma redact_member_safe max_chars kv : safe_member max_chars (fst kv) (snd (redact_member max_chars kv)).
Proof.
  destruct kv as [k v]. unfold redact_member, safe_member. cbn [fst snd]. split; [by intros ->|].
  intros t Ht Hs. rewrite Hs in Ht. destruct (existsb (String.eqb k) PREVIEW_KEYS), v; try discriminate Ht; injection Ht as <-; eauto.
Qed.
Lemma redacted_members max_chars j k v : occurs k v (redact_sensitive_data max_chars j) -> safe_member max_chars k v.
Proof.
  revert k v. induction j as [|b|z|q|s|l IH|fs IH] using json_nested_ind; intros k v H; try (by inversion H).
  - cbn [redact_sensitive_data] in H. inversion H as [| |? w Hw Ho]; subst. apply list_elem_of_fmap in Hw as (x & -> & Hx).
    rewrite Forall_forall in IH. by eapply IH.
  - rewrite redact_object in H. inversion H as [? Hin|? k' w Hin Ho|]; subst; apply list_elem_of_fmap in Hin as (kv & E & Hkv).
    + pose proof (redact_member_safe max_chars kv) as Hs. rewrite <- E in Hs. destruct kv. by injection E as <- _.
    + rewrite Forall_forall in IH. specialize (IH kv Hkv). destruct kv as [k2 x]. apply (f_equal snd) in E. unfold redact_member in E. cbn [fst snd] in *. subst w.
      destruct (sensitive k2); [by inversion Ho|].
      destruct (existsb (String.eqb k2) PREVIEW_KEYS), (text_of x); try (by apply IH); inversion Ho.
Qed.

(** ** Claims *)

(** What is logged has no secret member.  At any depth of a redacted value, the value
    under a key whose name ends with one of the sensitive words, in any case, is
    replaced; every other text was masked, or is a preview of a prompt, messages or
    content; and token counts are not taken for secrets. *)
Theorem redaction_covers_keys max_chars j k v :
  occurs k v (redact_sensitive_data max_chars j) ->
  (sensitive k = true -> v = JStr "[REDACTED]") /\
  (forall t, v = JStr t -> sensitive k = false ->
     (existsb (String.eqb k) PREVIEW_KEYS = true /\ exists s, t = preview max_chars s) \/ exists s, t = mask_text s) /\
  forallb sensitive ["api_key"; "X-API-Key"; "Authorization"; "access_token"; "Set-Cookie"; "client_secret"] = true /\
  existsb sensitive ["input_tokens"; "max_tokens"; "status"] = false.
Proof. intros H. destruct (redacted_members _ _ _ _ H) as [H1 H2]. split_and!; [exact H1 | exact H2 | vm_compute; reflexivity | vm_compute; reflexivity]. Qed.

Lemma redaction_covers_keys_witness :
  let j := JObj [("headers", JArr [JObj [("X-Api-Key", JStr "sk-1")]])] in
  occurs "X-Api-Key" (JStr "[REDACTED]") (redact_sensitive_data 120 j) /\ (sensitive "X-Api-Key" = true -> JStr "[REDACTED]" = JStr "[REDACTED]").
Proof.
  intros j. assert (occurs "X-Api-Key" (JStr "[REDACTED]") (redact_sensitive_data 120 j)) as H.
  { eapply occurs_member; [left|]. eapply occurs_item; [left|]. apply occurs_here. left. }
  split; [exact H|]. exact (proj1 (redaction_covers_keys 120 j "X-Api-Key" (JStr "[REDACTED]") H)).
Defined.

Definition demo_key : string := "sk-abcdefghijklmnopqrstuvwx".
(** A secret in a preview is logged.  The text under prompt, messages or content is cut
    but not masked: a short one is logged as it is, key included, although the same
    text anywhere else is masked. *)
Theorem previews_leak_secrets :
  (forall v, (FastTokenEstimator.ulen v <= 120)%nat -> forall k, k ∈ PREVIEW_KEYS ->
     redact_sensitive_data 120 (JObj [(k, JStr v)]) = JObj [(k, JStr v)]) /\
  redact_sensitive_data 120 (JObj [("content", JStr ("my key is " ++ demo_key)); ("error", JStr ("my key is " ++ demo_key))]) =
    JObj [("content", JStr ("my key is " ++ demo_key)); ("error", JStr "my key is [REDACTED_API_KEY]")] /\
  redact_sensitive_data 120 (JStr "Authorization: Bearer xyz") = JStr "Authorization: Bearer [REDACTED_API_KEY]".
Proof.
  split_and!; [|vm_compute; reflexivity | vm_compute; reflexivity]. intros v Hv k Hk.
  assert (preview 120 v = v) as Ep by (unfold preview; destruct (Nat.ltb_spec 120 (FastTokenEstimator.ulen v)); [lia | done]).
  rewrite redact_object. cbn [map]. unfold redact_member. cbn [fst snd].
  assert (sensitive k = false /\ existsb (String.eqb k) PREVIEW_KEYS = true) as [-> ->]; [|cbn [text_of]; by rewrite Ep].
  rewrite list_elem_of_In in Hk. destruct Hk as [<-|[<-|[<-|[]]]]; split; vm_compute; reflexivity.
Qed.

End ObservabilityProps.
