(* ===== verification/Security.v ===== *)
(** * Security hardening

    [src/durallm/security/defense.py]: the check of upstream addresses, header
    sanitising and the payload ceiling.  Addresses are taken apart the way
    [urllib.parse] does it. *)

From stdpp Require Import base tactics list strings sets.
From Stdlib Require Import QArith Ascii.
From S2P Require Import Prelude PyText Utf8 Regex.

Inductive security_error : Type :=
| DisallowedScheme (scheme : string)
| NoHostname
| BlockedHost (host : string)
| MetadataService
| MalformedUrl
| PayloadTooLarge (size limit : Z).

(** ** [urlparse] *)

(** [s.partition(sep)] without the separator: the text before the first [sep] and
    the text after it, if there is one. *)
Fixpoint partition (sep : ascii) (s : string) : string * option string :=
  match s with
  | EmptyString => (EmptyString, None)
  | String c s' =>
      if Ascii.eqb c sep then (EmptyString, Some s')
      else let '(a, b) := partition sep s' in (String c a, b)
  end.
(** [s.rpartition(sep)[2]] *)
Fixpoint after_last (sep : ascii) (s : string) : string :=
  match s with
  | EmptyString => EmptyString
  | String c s' => if contains (String sep "") s' then after_last sep s' else if Ascii.eqb c sep then s' else s
  end.

Definition is_alpha (c : ascii) : bool := byte_in 65 90 c || byte_in 97 122 c.
Definition scheme_char (c : ascii) : bool := is_alpha c || is_digit c || contains (String c "") "+-.".

(** [_splitnetloc]: up to the first delimiter. *)
Fixpoint take_netloc (s : string) : string :=
  match s with
  | EmptyString => EmptyString
  | String c s' => if contains (String c "") "/?#" then EmptyString else String c (take_netloc s')
  end.
(** Leading controls and blanks, and every tab and line break, are dropped. *)
Fixpoint lstrip_controls (s : string) : string :=
  match s with String c s' => if (code c <=? 32)%nat then lstrip_controls s' else s | EmptyString => s end.
Fixpoint remove_chars (p : ascii -> bool) (s : string) : string :=
  match s with EmptyString => s | String c s' => if p c then remove_chars p s' else String c (remove_chars p s') end.
Definition tab_or_break (c : ascii) : bool := ((code c =? 9) || (code c =? 10) || (code c =? 13))%nat.

(** The scheme and what follows it. *)
Definition split_scheme (url : string) : string * string :=
  match partition ":" url with
  | (String c s, Some rest) =>
      if is_alpha c && all_chars scheme_char s then (py_lower (String c s), rest) else ("", url)
  | _ => ("", url)
  end.

Record SplitResult : Type := { url_scheme : string; url_netloc : string }.
Definition bracket_balance (netloc : string) : bool := Bool.eqb (contains "[" netloc) (contains "]" netloc).
Definition urlparse (url : string) : option SplitResult :=
  let '(scheme, rest) := split_scheme (remove_chars tab_or_break (lstrip_controls url)) in
  let netloc := if starts_with "//" rest then take_netloc (str_drop 2 rest) else "" in
  if bracket_balance netloc then Some {| url_scheme := scheme; url_netloc := netloc |} else None.

(** [parsed.hostname or ""]: without user, port and brackets; a zone keeps its case. *)
Definition hostname (u : SplitResult) : string :=
  let hostinfo := after_last "@" (url_netloc u) in
  let host := match partition "[" hostinfo with
              | (_, Some bracketed) => fst (partition "]" bracketed)
              | _ => fst (partition ":" hostinfo) end in
  match partition "%" host with
  | (h, Some zone) => py_lower h ++ "%" ++ zone
  | (h, None) => py_lower h
  end%string.

(** ** The upstream check *)

Definition dotted : regex := RSeq (ch ".") (plus digit).
(** [BLOCKED_HOST_PATTERNS], on text already in lower case. *)
Definition blocked_alternatives : list regex :=
  [seqs [lit "169.254"; dotted; dotted]; seqs [lit "127"; dotted; dotted; dotted]; lit "localhost"; lit "0.0.0.0"; lit "::1";
   lit "metadata.google.internal"; seqs [lit "10"; dotted; dotted; dotted];
   seqs [lit "172."; alts [RSeq (ch "1") (RChar (byte_in 54 57)); RSeq (ch "2") digit; RSeq (ch "3") (RChar (byte_in 48 49))]; dotted; dotted];
   seqs [lit "192.168"; dotted; dotted]].
Definition BLOCKED_HOST_PATTERNS : regex := RSeq (alts blocked_alternatives) REnd.
Definition blocked (host : string) : bool := match re_match BLOCKED_HOST_PATTERNS host with Some _ => true | None => false end.

Definition MAX_PAYLOAD_BYTES : Z := 10000000.
Definition DEFAULT_SCHEMES : list string := ["https"; "http"; "mock"].

Definition validate_upstream_url (url : string) (allowed_schemes : list string) (allow_localhost : bool) : res security_error bool :=
  match urlparse url with
  | None => Raise MalformedUrl
  | Some parsed =>
      if negb (truthy (url_scheme parsed)) || negb (existsb (String.eqb (py_lower (url_scheme parsed))) allowed_schemes)
      then Raise (DisallowedScheme (url_scheme parsed))
      else
        let host := py_lower (hostname parsed) in
        if negb (truthy host) then Raise NoHostname
        else if negb allow_localhost && blocked host then Raise (BlockedHost host)
        else if String.eqb host "169.254.169.254" || String.eqb host "metadata.google.internal" then Raise MetadataService
        else Ok true
  end.

(** ** Headers and payloads *)

Definition crlf (c : ascii) : bool := ((code c =? 13) || (code c =? 10))%nat.
(** [CRLF_PATTERN.sub("", x).strip()] *)
Definition clean_header (x : string) : string := ustrip (remove_chars crlf x).
Definition sanitize_headers (headers : odict string string) : odict string string :=
  foldl (fun clean kv => if truthy (clean_header (fst kv)) then od_set (clean_header (fst kv)) (clean_header (snd kv)) clean else clean) [] headers.

Definition enforce_payload_limit (size_bytes max_allowed_bytes : Z) : res security_error unit :=
  if (max_allowed_bytes <? size_bytes)%Z then Raise (PayloadTooLarge size_bytes max_allowed_bytes) else Ok tt.

(** ** Properties of the security checks *)
Module SecurityProps.

(** The texts the pattern is to refuse: loopback, link-local and private networks as
    dotted decimal quadruples, and the names of this host and of the cloud metadata
    service. *)
Inductive private_host : string -> Prop :=
  | private_name h : h ∈ ["localhost"; "0.0.0.0"; "::1"; "metadata.google.internal"] -> private_host h
  | private_loopback a b c : py_isdigit a = true -> py_isdigit b = true -> py_isdigit c = true ->
      private_host ("127." ++ a ++ "." ++ b ++ "." ++ c)
  | private_ten a b c : py_isdigit a = true -> py_isdigit b = true -> py_isdigit c = true ->
      private_host ("10." ++ a ++ "." ++ b ++ "." ++ c)
  | private_link a b : py_isdigit a = true -> py_isdigit b = true -> private_host ("169.254." ++ a ++ "." ++ b)
  | private_192 a b : py_isdigit a = true -> py_isdigit b = true -> private_host ("192.168." ++ a ++ "." ++ b)
  | private_172 n a b : (16 <= n <= 31)%nat -> py_isdigit a = true -> py_isdigit b = true ->
      private_host ("172." ++ py_str_nat n ++ "." ++ a ++ "." ++ b).

Create HintDb lang.
#[export] Hint Constructors lang : lang.

Lemma lang_literal s rest : lang (lit s) s rest.
Proof.
  induction s as [|c s IH]; [constructor|]. destruct s as [|d s].
  - constructor. by apply Ascii.eqb_eq.
  - change (String c (String d s)) with (String c "" ++ String d s)%string. cbn [lit]. constructor; [|done]. constructor. by apply Ascii.eqb_eq.
Qed.
Lemma lang_digits s rest : all_digits s = true -> lang (many digit) s rest.
Proof.
  induction s as [|c s IH]; [constructor|]. cbn [all_digits]. intros [Hc Hs]%andb_true_iff.
  change (String c s) with (String c "" ++ s)%string. constructor; [by constructor | by apply IH].
Qed.
Lemma lang_plus_digit s rest : py_isdigit s = true -> lang (plus digit) s rest.
Proof.
  unfold py_isdigit. destruct s as [|c s]; [done|]. cbn [truthy all_digits]. intros [_ [Hc Hs]%andb_true_iff]%andb_true_iff.
  change (String c s) with (String c "" ++ s)%string. constructor; [by constructor | by apply lang_digits].
Qed.
Lemma lang_dotted s rest : py_isdigit s = true -> lang dotted ("." ++ s) rest.
Proof. intros H. constructor; [by constructor | by apply lang_plus_digit]. Qed.
#[export] Hint Resolve lang_literal lang_plus_digit lang_dotted : lang.

Lemma lang_alts r l w rest : r ∈ l -> lang r w rest -> lang (alts l) w rest.
Proof.
  intros Hr Hw. induction Hr as [r l|r r' l Hr IH]; destruct l as [|r2 l]; cbn [alts]; eauto with lang. by apply elem_of_nil in Hr.
Qed.

Lemma blocked_lang r h : r ∈ blocked_alternatives -> lang r h "" -> blocked h = true.
Proof.
  intros Hr H. unfold blocked, re_match.
  assert (reach (matches BLOCKED_HOST_PATTERNS h) "") as [g Hg].
  { apply matches_sound_complete. exists (h ++ "")%string. split; [by rewrite !app_string_nil|].
    constructor; [|by constructor]. change ("" ++ "")%string with "". by eapply lang_alts. }
  by destruct (matches BLOCKED_HOST_PATTERNS h); [apply elem_of_nil in Hg|].
Qed.

Lemma lang_quad p a b c rest : py_isdigit a = true -> py_isdigit b = true -> py_isdigit c = true ->
  lang (seqs [lit p; dotted; dotted; dotted]) (p ++ "." ++ a ++ "." ++ b ++ "." ++ c) rest.
Proof.
  intros Ha Hb Hc. change ("." ++ a ++ "." ++ b ++ "." ++ c)%string with (("." ++ a) ++ ("." ++ b) ++ "." ++ c)%string.
  cbn [seqs]. eauto 10 with lang.
Qed.
Lemma lang_pair p a b rest : py_isdigit a = true -> py_isdigit b = true ->
  lang (seqs [lit p; dotted; dotted]) (p ++ "." ++ a ++ "." ++ b) rest.
Proof.
  intros Ha Hb. change ("." ++ a ++ "." ++ b)%string with (("." ++ a) ++ "." ++ b)%string. cbn [seqs]. eauto 10 with lang.
Qed.

Lemma lang_172 n rest : (16 <= n <= 31)%nat ->
  lang (alts [RSeq (ch "1") (RChar (byte_in 54 57)); RSeq (ch "2") digit; RSeq (ch "3") (RChar (byte_in 48 49))]) (py_str_nat n) rest.
Proof.
  intros Hn. set (r := alts _).
  assert (forall m, m ∈ seq 16 16 -> lang r (py_str_nat m) rest) as H; [|by apply H, elem_of_seq; lia].
  intros m Hm. assert (exists c d, py_str_nat m = (String c "" ++ String d "")%string /\
    ((Ascii.eqb "1" c && byte_in 54 57 d) || (Ascii.eqb "2" c && is_digit d) || (Ascii.eqb "3" c && byte_in 48 49 d)) = true) as (c & d & -> & Hcd).
  { cbn in Hm. repeat (apply elem_of_cons in Hm as [->|Hm]; [do 2 eexists; split; [cbv; reflexivity | reflexivity]|]). by apply elem_of_nil in Hm. }
  apply orb_true_iff in Hcd as [[[? ?]%andb_true_iff|[? ?]%andb_true_iff]%orb_true_iff|[? ?]%andb_true_iff]; subst r; cbn [alts];
    [apply LAltL | apply LAltR, LAltL | apply LAltR, LAltR]; apply LSeq; by constructor.
Qed.

(** Finds an element in a literal list. *)
Ltac member := first [left | right; member].

Lemma private_blocked h : private_host h -> blocked h = true.
Proof.
  destruct 1 as [h Hh|a b c Ha Hb Hc|a b c Ha Hb Hc|a b Ha Hb|a b Ha Hb|n a b Hn Ha Hb].
  - apply (blocked_lang (lit h)); [|apply lang_literal].
    repeat (apply elem_of_cons in Hh as [->|Hh]; [unfold blocked_alternatives; member|]). by apply elem_of_nil in Hh.
  - eapply blocked_lang; [|by apply (lang_quad "127")]. unfold blocked_alternatives. member.
  - eapply blocked_lang; [|by apply (lang_quad "10")]. unfold blocked_alternatives. member.
  - eapply blocked_lang; [|by apply (lang_pair "169.254")]. unfold blocked_alternatives. member.
  - eapply blocked_lang; [|by apply (lang_pair "192.168")]. unfold blocked_alternatives. member.
  - eapply (blocked_lang (seqs [lit "172."; _; dotted; dotted])); [unfold blocked_alternatives; do 7 right; left|].
    change ("." ++ a ++ "." ++ b)%string with (("." ++ a) ++ "." ++ b)%string. cbn [seqs].
    constructor; [apply lang_literal|]. constructor; [by apply lang_172|]. eauto with lang.
Qed.

(** ** Claims *)

(** C38: what the upstream check refuses.  The scheme of an accepted URL is one of
    the allowed ones, it has a host, and the host is never the text of the cloud
    metadata service's address or name.  With local upstreams not allowed, the
    lower-cased host is moreover none of the texts of [private_host]: the names it
    lists, and dotted decimal quadruples in 127/8, 10/8, 169.254/16, 192.168/16 and
    172.16/12.  The check is of these texts: other spellings of such addresses
    pass it (see [loopback_aliases_accepted]), and with local upstreams allowed it
    refuses none of them but the metadata service. *)
Theorem upstream_check_sound url schemes allow :
  validate_upstream_url url schemes allow = Ok true ->
  exists u, urlparse url = Some u /\ py_lower (url_scheme u) ∈ schemes /\ hostname u <> "" /\
  (allow = false -> ~ private_host (py_lower (hostname u))) /\
  py_lower (hostname u) <> "169.254.169.254" /\ py_lower (hostname u) <> "metadata.google.internal".
Proof.
  unfold validate_upstream_url. destruct (urlparse url) as [u|]; [|done]. intros H. exists u. split; [done|].
  destruct (negb (truthy (url_scheme u)) || _) eqn:E1; [done|]. apply orb_false_iff in E1 as [_ E1%negb_false_iff].
  destruct (truthy (py_lower (hostname u))) eqn:E2; [|done]. cbn [negb] in H.
  destruct (negb allow && _) eqn:E3; [done|]. destruct (String.eqb _ _ || _) eqn:E4; [done|].
  apply orb_false_iff in E4 as [E4%String.eqb_neq E5%String.eqb_neq]. split_and!; [| |intros ->; intros Hp%private_blocked; by rewrite Hp in E3|done..].
  - apply existsb_exists in E1 as (x & Hx & ->%String.eqb_eq). by apply list_elem_of_In.
  - intros E. by rewrite E in E2.
Qed.

(** the check compares the host's text, so loopback written another way
    passes it: the mapped IPv6 form, the short form and the decimal form are all
    accepted although the check promises to refuse loopback hosts. *)
Theorem loopback_aliases_accepted :
  Forall (fun url => validate_upstream_url url DEFAULT_SCHEMES false = Ok true)
    ["http://[::ffff:127.0.0.1]/v1"; "http://127.1:8080/"; "http://2130706433/"; "http://[0:0:0:0:0:0:0:1]/"] /\
  Forall (fun url => validate_upstream_url url DEFAULT_SCHEMES false <> Ok true)
    ["http://127.0.0.1/v1"; "http://[::1]/"; "http://LOCALHOST:11434/"; "https://user@10.1.2.3/"; "file:///etc/passwd"].
Proof. split; repeat (constructor; [vm_compute; (reflexivity || discriminate)|]); constructor. Qed.

Lemma upstream_check_sound_witness :
  exists u, urlparse "https://api.example.com:443/v1" = Some u /\ py_lower (url_scheme u) ∈ DEFAULT_SCHEMES /\ hostname u <> "" /\
  (false = false -> ~ private_host (py_lower (hostname u))) /\
  py_lower (hostname u) <> "169.254.169.254" /\ py_lower (hostname u) <> "metadata.google.internal".
Proof. apply (upstream_check_sound "https://api.example.com:443/v1" DEFAULT_SCHEMES false). vm_compute. exact eq_refl. Defined.

(** ** Headers *)

Lemma remove_chars_all p s : all_chars (fun c => negb (p c)) (remove_chars p s) = true.
Proof. induction s as [|c s IH]; [done|]. cbn [remove_chars]. destruct (p c) eqn:E; [done|]. cbn [all_chars]. by rewrite E. Qed.
Lemma all_chars_drop p n s : all_chars p s = true -> all_chars p (str_drop n s) = true.
Proof.
  revert s. induction n as [|n IH]; intros [|c s] H; try done. cbn [str_drop]. cbn [all_chars] in H. apply IH. by apply andb_true_iff in H as [_ H].
Qed.
Lemma all_chars_strip p spaces f s : all_chars p s = true -> all_chars p (strip_left spaces f s) = true.
Proof.
  revert s. induction f as [|f IH]; intros s H; [done|]. cbn [strip_left]. destruct (space_prefix spaces s); [|done]. by apply IH, all_chars_drop.
Qed.
Lemma all_chars_rev p s : all_chars p s = true -> all_chars p (str_rev s) = true.
Proof.
  induction s as [|c s IH]; [done|]. cbn [all_chars]. intros [Hc Hs]%andb_true_iff.
  change (String c s) with (String c "" ++ s)%string. rewrite str_rev_app, all_chars_app, (IH Hs). cbn. by rewrite Hc.
Qed.
Lemma all_chars_ustrip p s : all_chars p s = true -> all_chars p (ustrip s) = true.
Proof. intros H. unfold ustrip, urstrip, ulstrip. by apply all_chars_rev, all_chars_strip, all_chars_rev, all_chars_strip. Qed.

(** No name or value that leaves the sanitiser holds a carriage return or a line
    feed, no name is empty, and no name occurs twice. *)
Definition clean_entry (kv : string * string) : Prop :=
  kv.1 <> "" /\ all_chars (fun c => negb (crlf c)) kv.1 = true /\ all_chars (fun c => negb (crlf c)) kv.2 = true.

(** sanitised headers cannot inject a header or split a response: names and
    values are free of CR and LF, names are non-empty and unique. *)
Theorem sanitize_headers_safe headers :
  Forall clean_entry (sanitize_headers headers) /\ NoDup (od_keys (sanitize_headers headers)).
Proof.
  unfold sanitize_headers.
  assert (forall clean, Forall clean_entry clean /\ NoDup (od_keys clean) ->
    let out := foldl (fun clean kv => if truthy (clean_header (fst kv)) then od_set (clean_header (fst kv)) (clean_header (snd kv)) clean else clean)
      clean headers in Forall clean_entry out /\ NoDup (od_keys out)) as H; [|apply H; split; constructor].
  induction headers as [|[k v] headers IH]; intros clean [Hc Hn]; [done|]. cbn [foldl fst snd]. apply IH.
  destruct (truthy (clean_header k)) eqn:E; [|done]. split; [|by apply od_wf_set].
  apply od_Forall_set; [|done]. split_and!; [intros E2; cbn [fst] in E2; by rewrite E2 in E|..]; apply all_chars_ustrip, remove_chars_all.
Qed.

End SecurityProps.
