(* ===== verification/Classifier.v ===== *)
(** * The failure classifier

    [src/durallm/classifier.py]: error text, HTTP status and headers are mapped
    to the classification the breaker, the router and the executor act on.  The
    rules are the code's, in its order.  [wall] is [time.time]; the parser of
    HTTP dates ([email.utils.parsedate_tz] and [mktime_tz]) is a parameter. *)

From stdpp Require Import base tactics list strings.
From Stdlib Require Import QArith Qround Ascii.
From S2P Require Import Prelude Json Models PyText Regex.

Local Open Scope string_scope.

(** ** Numbers in error texts *)

Definition int_group (g : option (list string)) (i : nat) : option Z := g ≫= fun l => l !! i ≫= py_int.

Definition tpm_limit_re : regex :=
  seqs [alts [lit "input tokens per minute"; lit "itpm"; lit "tpm"]; many (RChar (fun c => negb (is_digit c)));
        lit "limit"; many space; RGroup (plus digit)].
Definition limit_requested_re : regex :=
  seqs [lit "limit"; many space; RGroup (plus digit); lit ","; many space; lit "requested"; many space; plus digit].

(** [parse_input_tpm_limit] *)
Definition parse_input_tpm_limit (error_msg : string) : option Z :=
  let msg := py_lower error_msg in
  match search tpm_limit_re msg with
  | Some g => int_group (Some g) 0
  | None =>
      if contains "token" msg || contains "tpm" msg || contains "request too large" msg
      then int_group (search limit_requested_re msg) 0 else None
  end.

Definition try_again_re : regex :=
  seqs [lit "try again in"; plus space; RGroup (plus (any_of "0123456789.")); many space; lit "s"].

(** [parse_retry_after_from_body] *)
Definition parse_retry_after_from_body (error_msg : string) : option Q :=
  match search try_again_re (py_lower error_msg) with
  | Some (g :: _) => match py_float g with Some q => Some (py_max (1 # 10) q) | None => None end
  | _ => None
  end.

Definition dquote : ascii := chr 34.
Definition quote_mark : regex := opt (any_of (String (chr 96) (String (chr 39) (String dquote "")))).

Definition otpm_re : regex :=
  seqs [alts [lit "output tokens per minute"; lit "otpm"]; many (RChar (fun c => negb (is_digit c)));
        lit "limit"; many space; RGroup (plus digit)].
Definition max_tokens_le_re : regex :=
  seqs [lit "max_tokens"; quote_mark; plus space; lit "must be less than or equal to"; plus space; quote_mark; RGroup (plus digit)].
Definition le_re : regex := seqs [lit "less than or equal to"; plus space; quote_mark; RGroup (plus digit)].
Definition range_re : regex :=
  seqs [lit "range of max_tokens should be"; many space; lit "["; many space; plus digit; many space; lit ","; many space;
        RGroup (plus digit); many space; lit "]"].
Definition exceeds_re : regex :=
  seqs [lit "exceeds model"; opt (lit "'s"); lit " maximum output tokens"; many space; opt (lit "("); many space;
        RGroup (plus digit); many space; opt (lit ")")].
Definition available_re : regex :=
  seqs [lit "available"; plus (RChar (fun c => Ascii.eqb c (chr 95) || is_space c)); lit "tokens";
        plus (RChar (fun c => Ascii.eqb c (chr 58) || is_space c)); RGroup (plus digit)].

(** [parse_output_cap_from_error] *)
Definition parse_output_cap_from_error (error_msg : string) : option Z :=
  let msg := py_lower error_msg in
  match search otpm_re msg with Some g => int_group (Some g) 0 | None =>
  match search max_tokens_le_re msg with Some g => int_group (Some g) 0 | None =>
  match (if contains "max_tokens" msg || contains "token" msg then search le_re msg else None) with
  | Some g => int_group (Some g) 0 | None =>
  match search range_re msg with Some g => int_group (Some g) 0 | None =>
  match search exceeds_re msg with Some g => int_group (Some g) 0 | None =>
  int_group (search available_re msg) 0
  end end end end end.

(** ** Pattern tables *)

Definition BILLING_PATTERNS : list string :=
  ["insufficient credits"; "credit balance"; "billing"; "payment required"; "out of credits"; "usage limit reached";
   "monthly spending cap"; "insufficient_quota"; "quota_exceeded"; "account_deactivated"; "balance is too low";
   "free-models-per-day"; "free model requests"; "add 5 credits"].
Definition DEPRECATION_PATTERNS : list string :=
  ["deprecated"; "decommissioned"; "model does not exist"; "model not found"; "model_not_found"; "has been removed";
   "is no longer available"; "is not found for api version"; "end of life"; "eol"; "has reached its end of life";
   "sunset"; "no longer supported"].
Definition UPSTREAM_429_PATTERNS : list string :=
  ["temporarily rate-limited upstream"; "upstream_provider_shared_pool"; "provider returned error"; "daily"; "quota exceeded"].
Definition WAF_PATTERNS : list string :=
  ["cloudflare"; "just a moment..."; "challenge-running"; "ddos protection"; "ray id";
   "attention required! | cloudflare"; "security verification"].
Definition SSL_PATTERNS : list string :=
  ["certificate verify failed"; "self signed certificate"; "sslcertverificationerror"; "sslerror"].
Definition OUTPUT_CAP_PATTERNS : list string :=
  ["must be less than or equal to"; "less than or equal to"; "range of max_tokens should be"; "maximum output tokens";
   "available_tokens"; "available tokens"; "max_tokens is less than the context_window"; "on output tokens";
   "output tokens per minute"; "otpm"].
Definition CONTEXT_OVERFLOW_PATTERNS : list string :=
  ["context_length_exceeded"; "payload too large"; "maximum context length"; "token count exceeds limit";
   "request size exceeds"; "too many tokens"; "prompt is too long"; "prompt too long"].
Definition TPM_RATE_LIMIT_PATTERNS : list string :=
  ["tokens per minute"; "tpm limit"; "input tokens per minute"; "itpm"].
Definition SCHEMA_INCOMPATIBILITY_PATTERNS : list string :=
  ["unrecognized parameter"; "unknown field"; "additionalproperties"; "$schema"; "invalid_request_error";
   "unknown parameter"; "schema validation error"].
Definition TOOL_MALFORMED_PATTERNS : list string :=
  ["malformed tool call"; "failed to parse function arguments"; "invalid json in tool arguments"; "invalid_tool_call";
   "missing required argument"; "missing required parameter"; "invalid tool argument"; "unknown tool";
   "schema validation failed"].
Definition CLIENT_FAULT_PATTERNS : list string :=
  ["invalid api key"; "unauthorized"; "incorrect api key"; "bad request syntax"; "malformed json request"].

(** ** Classification *)

(** What the classifier can see of the [error] object: its text, its class name
    and the optional attributes it looks for ([body] rendered by [str]). *)
Record error_value : Type := {
  err_str : string;
  err_type : string;
  err_status_code : option Z;
  err_code : option Z;
  err_response_status : option Z;
  err_body : option string;
}.
(** A plain string passed as the error. *)
Definition text_error (s : string) : error_value :=
  {| err_str := s; err_type := "str"; err_status_code := None; err_code := None; err_response_status := None; err_body := None |}.

Definition code_in (codes : list Z) (c : option Z) : bool :=
  match c with Some z => existsb (Z.eqb z) codes | None => false end.
(** [code or d] *)
Definition code_or (c : option Z) (d : Z) : option Z :=
  match c with Some z => if (z =? 0)%Z then Some d else Some z | None => Some d end.
(** [a or b] on optional floats. *)
Definition q_or (a b : option Q) : option Q :=
  match a with Some q => if Qeqb q 0 then b else a | None => b end.

(** [{k.lower(): v for k, v in headers.items()}] *)
Definition clean_headers (headers : odict string string) : odict string string :=
  fold_left (fun d kv => od_set (py_lower (fst kv)) (snd kv) d) headers [].

Definition limit_then_requested_re : regex :=
  seqs [lit "limit"; many space; RGroup (plus digit); RStar false dot; lit "requested"; many space; RGroup (plus digit)].
Definition wait_re : regex :=
  seqs [lit "try again in "; RGroup (seqs [plus digit; opt (seqs [lit "."; plus digit])]); opt (lit "s")].

Section classifier.
Context {S : Type} (wall : nat -> Q) (parse_http_date : string -> option Q).
Local Abbreviation C := (M exn S).

(** [calculate_seconds_until_utc_midnight]: the instants of [datetime.now] are
    those of [time.time], days being 86400 seconds long. *)
Definition day : Q := 86400.
Definition calculate_seconds_until_utc_midnight : C Q :=
  now ← read_clock wall;
  let tomorrow := (inject_Z (Qfloor (now / day)) + 1) * day in
  mret (py_max 60 (tomorrow - now)).

(** [parse_retry_after] *)
Definition parse_retry_after (header_val : option string) : C (option Q) :=
  match header_val with
  | None => mret None
  | Some h =>
      if truthy h then
        match py_float (strip h) with
        | Some q => mret (Some (py_max 0 q))
        | None =>
            match parse_http_date (strip h) with
            | Some timestamp => now ← read_clock wall; mret (Some (py_max 0 (timestamp - now)))
            | None => mret None
            end
        end
      else mret None
  end.

(** Every classification the function builds allows the fallback. *)
Definition classified (cat : FailureCategory) (reason : FailoverReason) (retryable poisons permanent : bool)
    (status : option Z) (retry_after : option Q) (msg : string) (details : odict string json) : FailureClassification :=
  {| fc_category := cat; fc_reason := reason; fc_should_fallback := true; fc_retryable := retryable;
     fc_poisons_health := poisons; fc_is_permanent := permanent; fc_status_code := status;
     fc_retry_after_seconds := retry_after; fc_message := msg; fc_details := details |}.

(** The status code the rules look at. *)
Definition effective_code (e : error_value) (status_code : option Z) : option Z :=
  match status_code with Some z => Some z | None =>
  match err_status_code e with Some z => Some z | None =>
  match err_code e with Some z => Some z | None => err_response_status e end end end.

(** The text the rules look at. *)
Definition effective_message (e : error_value) : string :=
  let msg := py_lower (err_str e) in
  match err_body e with Some b => msg ++ " " ++ py_lower b | None => msg end.

(** Rule 3c: the request is larger than the per-minute limit. *)
Definition requested_over_limit (msg : string) : bool :=
  let m_req := search limit_then_requested_re msg in
  match int_group m_req 0, int_group m_req 1 with
  | Some limit_val, Some req_val => (limit_val <? req_val)%Z
  | _, _ => false
  end.
Definition oversized_tpm (msg : string) : bool :=
  let is_oversized := requested_over_limit msg ||
    (contains "request too large" msg &&
     (contains "tokens per minute" msg || contains "tpm" msg || match parse_input_tpm_limit msg with Some _ => true | None => false end)) in
  is_oversized && (negb (contains "try again in" msg) || requested_over_limit msg).

(** Rule 3d: the wait stated in the text. *)
Definition stated_wait (msg : string) : Q :=
  match search wait_re msg with
  | Some (g :: _) => default 3 (py_float g)
  | _ => 3
  end.

(** The rules after the daily-quota rule, which all build their result without
    reading a clock. *)
Definition classify_rest (ty : string) (code : option Z) (msg : string) (retry_after : option Q) : FailureClassification :=
  (* 4b *)
  if code_in [402%Z] code || contains_any BILLING_PATTERNS msg then
    classified RATE_LIMIT billing false true true (Some 402%Z) None msg []
  (* 5 *)
  else if code_in [429%Z] code || contains_any TPM_RATE_LIMIT_PATTERNS msg || contains "ratelimit" ty then
    let delay := q_or retry_after (parse_retry_after_from_body msg) in
    let delay := match delay with
                 | None => if contains_any TPM_RATE_LIMIT_PATTERNS msg then Some 60 else None
                 | d => d end in
    classified RATE_LIMIT (if contains_any UPSTREAM_429_PATTERNS msg then upstream_rate_limit else rate_limit)
      true true false (Some 429%Z) delay msg []
  (* 6 *)
  else if (code_in [404; 410; 400]%Z code && contains_any DEPRECATION_PATTERNS msg) || code_in [410%Z] code then
    classified REQUEST_INCOMPATIBILITY model_not_found false false true (code_or code 410) None msg []
  else if code_in [404%Z] code then
    classified REQUEST_INCOMPATIBILITY model_not_found false false true (Some 404%Z) None msg []
  (* 7 *)
  else if contains_any TOOL_MALFORMED_PATTERNS msg then
    classified SEMANTIC_AGENT_FAILURE malformed_tool_call false false false (code_or code 200) None msg []
  (* 8 *)
  else if code_in [400%Z] code && contains_any SCHEMA_INCOMPATIBILITY_PATTERNS msg then
    classified REQUEST_INCOMPATIBILITY schema_incompatible false false false (Some 400%Z) None msg []
  (* 9 *)
  else if code_in [401; 403]%Z code || contains "access denied" msg || contains "forbidden" msg || contains_any CLIENT_FAULT_PATTERNS msg then
    let is_perm := code_in [401; 403]%Z code ||
      contains_any ["access denied"; "forbidden"; "invalid api key"; "incorrect api key"; "unauthorized"] msg in
    classified (if contains_any CLIENT_FAULT_PATTERNS msg then CLIENT_FAULT else INFRASTRUCTURE) auth
      false false is_perm (code_or code 403) None msg []
  (* 10 *)
  else if contains_any WAF_PATTERNS msg then
    classified INFRASTRUCTURE waf_blocked false true false (code_or code 403) None msg []
  (* 11 *)
  else if code_in [408; 500; 502; 503; 504; 529]%Z code || contains "overloaded" msg || contains "bad gateway" msg || contains "gateway timeout" msg then
    let is_overload := code_in [503; 529]%Z code || contains "overloaded" msg in
    classified INFRASTRUCTURE (if is_overload then overloaded else server_error) true true false code None msg []
  (* 12 *)
  else if contains "timeout" msg || contains "timed out" msg || contains "connecttimeout" ty then
    classified INFRASTRUCTURE timeout true true false (code_or code 504) None msg []
  else if match code with Some z => (400 <=? z)%Z && (z <? 500)%Z | None => false end then
    classified REQUEST_INCOMPATIBILITY client_error false false false code None msg []
  else
    classified UNKNOWN unknown true true false code None msg [].

(** [classify_failure] *)
Definition classify_failure (error : error_value) (status_code : option Z) (headers : odict string string)
    : C FailureClassification :=
  let code := effective_code error status_code in
  let msg := effective_message error in
  let ty := py_lower (err_type error) in
  retry_after ← parse_retry_after (od_get "retry-after" (clean_headers headers));
  (* 1 *)
  if contains_any SSL_PATTERNS msg || contains "sslerror" ty then
    mret (classified INFRASTRUCTURE ssl_cert_verification false true false code None msg [])
  (* 2 *)
  else if contains "connection refused" msg || contains "errno 61" msg || contains "errno 111" msg then
    mret (classified INFRASTRUCTURE connection_refused false true false (Some 599%Z) None msg [])
  (* 3 *)
  else if (code_in [400; 429]%Z code || match code with None => true | Some _ => false end) && contains_any OUTPUT_CAP_PATTERNS msg then
    mret (classified REQUEST_INCOMPATIBILITY output_cap_exceeded true false false (code_or code 400) None msg [])
  (* 3b *)
  else if contains "empty response body" msg || contains "empty completion" msg then
    mret (classified SEMANTIC_AGENT_FAILURE empty_completion true false false (code_or code 502) None msg [])
  (* 3c *)
  else if oversized_tpm msg then
    mret (classified REQUEST_INCOMPATIBILITY payload_too_large false false false (code_or code 413) None msg
            (match parse_input_tpm_limit msg with
             | Some z => if (z =? 0)%Z then [] else [("token_limit", JInt z)] | None => [] end))
  (* 3d *)
  else if (contains "tokens per minute" msg || contains "tpm" msg || contains "try again in" msg) &&
          (contains "rate" msg || contains "limit" msg || code_in [413; 429]%Z code) then
    let delay := q_or retry_after (Some (stated_wait msg)) in
    mret (classified RATE_LIMIT rate_limit true true false (code_or code 429) delay msg [])
  (* 4 *)
  else if code_in [413%Z] code || contains_any CONTEXT_OVERFLOW_PATTERNS msg then
    mret (classified REQUEST_INCOMPATIBILITY payload_too_large false false false (Some 413%Z) None msg [])
  (* 4a *)
  else if contains "free-models-per-day" msg || contains "free model requests" msg then
    reset_seconds ← calculate_seconds_until_utc_midnight;
    mret (classified RATE_LIMIT billing false false false (code_or code 429) (Some reset_seconds) msg
            [("account_wide", JBool true); ("reset_seconds", JFloat reset_seconds)])
  else mret (classify_rest ty code msg retry_after).
End classifier.
