(* ===== verification/ClassifierProps.v ===== *)
(** * Correctness of the failure classifier

    Totality and consistency of every classification, the decision by status
    code for texts without any keyword, and the daily-quota horizon. *)

From stdpp Require Import base tactics list sets strings.
From Stdlib Require Import QArith Qround Lqa Ascii.
From S2P Require Import Prelude Json Models PyText Regex Classifier.


(** ** Captured groups *)

Fixpoint Forall_chars (P : ascii -> bool) (s : string) : Prop :=
  match s with EmptyString => True | String c s' => P c = true /\ Forall_chars P s' end.
Lemma Forall_chars_app P a b : Forall_chars P (a ++ b)%string <-> Forall_chars P a /\ Forall_chars P b.
Proof. induction a as [|c a IH]; [by split; [|intros []]|]. rewrite app_string_cons. simpl. rewrite IH. tauto. Qed.

(** Every character an expression can consume satisfies [P]. *)
Fixpoint only_chars (P : ascii -> bool) (r : regex) : Prop :=
  match r with
  | RChar p => forall c, p c = true -> P c = true
  | REps | REnd => True
  | RSeq a b | RAlt a b => only_chars P a /\ only_chars P b
  | RStar _ a | RGroup a => only_chars P a
  end.
(** Every group of an expression only consumes characters in [P]. *)
Fixpoint groups_only (P : ascii -> bool) (r : regex) : Prop :=
  match r with
  | RChar _ | REps | REnd => True
  | RSeq a b | RAlt a b => groups_only P a /\ groups_only P b
  | RStar _ a => groups_only P a
  | RGroup a => only_chars P a /\ groups_only P a
  end.

Lemma lang_chars P r w rest : lang r w rest -> only_chars P r -> Forall_chars P w.
Proof. induction 1; simpl; intros; rewrite ?Forall_chars_app; naive_solver. Qed.

Lemma str_take_app a b : str_take (String.length a) (a ++ b)%string = a.
Proof.
  unfold str_take. induction a as [|c a IH]; [by destruct b|]. rewrite app_string_cons. simpl. by rewrite IH.
Qed.
Lemma consumed_app w rest : consumed (w ++ rest)%string rest = w.
Proof.
  unfold consumed. rewrite string_app_length.
  replace (String.length w + String.length rest - String.length rest)%nat with (String.length w) by lia.
  apply str_take_app.
Qed.

Lemma then_match_elem f (ms : list mtch) g rest :
  (g, rest) ∈ concat (map (then_match f) ms) -> exists g1 mid g2, (g1, mid) ∈ ms /\ (g2, rest) ∈ f mid /\ g = g1 ++ g2.
Proof.
  intros (x & Hx & Hin)%list_elem_of_In%in_concat. apply in_map_iff in Hx as ([g1 mid] & <- & Hm).
  unfold then_match in Hin. apply in_map_iff in Hin as ([g2 r2] & Heq & Hin). simpl in *. simplify_eq.
  exists g1, mid, g2. by rewrite !list_elem_of_In.
Qed.

Lemma captures_only P r s g rest :
  groups_only P r -> (g, rest) ∈ matches r s -> Forall (Forall_chars P) g.
Proof.
  revert s g rest. induction r as [p| | |a IHa b IHb|a IHa b IHb|gr a IHa|a IHa]; simpl; intros s g rest Hg Hin.
  - destruct s as [|c s]; [set_solver|]. destruct (p c); [|set_solver]. apply list_elem_of_singleton in Hin. by simplify_eq.
  - apply list_elem_of_singleton in Hin. by simplify_eq.
  - destruct (at_end s); [|set_solver]. apply list_elem_of_singleton in Hin. by simplify_eq.
  - apply then_match_elem in Hin as (g1 & mid & g2 & H1 & H2 & ->). apply Forall_app. naive_solver.
  - apply elem_of_app in Hin. naive_solver.
  - assert (Hs : forall fuel s g rest, (g, rest) ∈ star gr (matches a) fuel s -> Forall (Forall_chars P) g).
    { clear -IHa Hg. induction fuel as [|n IH]; intros s g rest Hin; destruct gr; simpl in Hin;
        rewrite ?elem_of_app, ?elem_of_cons, ?elem_of_nil in Hin; destruct_or?; simplify_eq; try done.
      all: apply then_match_elem in Hin as (g1 & mid & g2 & [_ H1]%list_elem_of_filter & H2 & ->).
      all: apply Forall_app; split; [by eapply IHa | by eapply IH]. }
    by eapply Hs.
  - destruct Hg as [Ho Hg]. apply list_elem_of_fmap in Hin as ([g1 r1] & Heq & Hin). simpl in Heq. simplify_eq.
    constructor; [|by eapply IHa].
    destruct (proj1 (matches_sound_complete a s r1)) as (w & -> & Hl); [by exists g1|].
    rewrite consumed_app. by eapply lang_chars.
Qed.

Lemma search_captures P r s g : groups_only P r -> search r s = Some g -> Forall (Forall_chars P) g.
Proof.
  intros Hg. induction s as [|c s IH]; cbn [search]; destruct (matches r _) as [|[g1 r1] ms] eqn:E;
    try done; intros; simplify_eq/=; eapply (captures_only P r); try done; rewrite E; by constructor.
Qed.

(** ** Unsigned numerals *)

Definition numeral_char (c : ascii) : bool := is_digit c || (code c =? 46)%nat.

Lemma digits_nonneg s acc len : (0 <= acc)%Z -> (0 <= (digits s acc len).1.1)%Z.
Proof. revert acc len. induction s as [|c s IH]; intros acc len H; simpl; [done|]. destruct (is_digit c); [apply IH; lia | done]. Qed.

Lemma digits_rest P s acc len : Forall_chars P s -> Forall_chars P (digits s acc len).2.
Proof. revert acc len. induction s as [|c s IH]; intros acc len H; simpl; [done|]. destruct (is_digit c); [apply IH, H | done]. Qed.

Lemma numeral_not_space c : numeral_char c = true -> is_space c = false.
Proof.
  unfold numeral_char, is_digit, is_space. rewrite orb_true_iff, andb_true_iff, !Nat.leb_le, Nat.eqb_eq.
  intros H. rewrite !orb_false_iff, !andb_false_iff, !Nat.leb_gt, Nat.eqb_neq. lia.
Qed.

Lemma lstrip_numeral s : Forall_chars numeral_char s -> lstrip s = s.
Proof. destruct s as [|c s]; [done|]. intros [Hc _]. simpl. by rewrite numeral_not_space. Qed.
Lemma rev_onto_chars P a b : Forall_chars P a -> Forall_chars P b -> Forall_chars P (rev_onto a b).
Proof. revert b. induction a as [|c a IH]; intros b Ha Hb; simpl in *; [done|]. apply IH; simpl; tauto. Qed.
Lemma rev_onto_twice a b c : rev_onto (rev_onto a b) c = rev_onto b (a ++ c)%string.
Proof. revert b c. induction a as [|x a IH]; intros b c; [reflexivity|]. rewrite app_string_cons. simpl. by rewrite IH. Qed.
Lemma string_app_nil s : (s ++ "")%string = s.
Proof. induction s as [|c s IH]; [done|]. by rewrite app_string_cons, IH. Qed.
Lemma strip_numeral s : Forall_chars numeral_char s -> strip s = s.
Proof.
  intros H. unfold strip, str_rev. rewrite (lstrip_numeral s) by done. rewrite lstrip_numeral; [|by apply rev_onto_chars].
  rewrite rev_onto_twice. simpl. apply string_app_nil.
Qed.

Lemma inject_Z_nonneg z : (0 <= z)%Z -> (0 <= inject_Z z)%Q.
Proof. intros. change 0%Q with (inject_Z 0). by rewrite <- Zle_Qle. Qed.
Lemma Qpow10_nonneg z : (0 <= Qpow10 z)%Q.
Proof.
  assert (forall y, 0 <= inject_Z (10 ^ y))%Q as H by (intros y; by apply inject_Z_nonneg, Z.pow_nonneg).
  destruct z; unfold Qpow10; [apply H | apply H | apply Qinv_le_0_compat, H].
Qed.

Lemma py_float_nonneg s q : Forall_chars numeral_char s -> py_float s = Some q -> (0 <= q)%Q.
Proof.
  intros Hs. unfold py_float. rewrite strip_numeral by done.
  assert (Hsg : sign_of s = (1%Z, s)).
  { destruct s as [|c s]; [done|]. destruct Hs as [Hc _]. simpl. revert Hc. unfold numeral_char, is_digit.
    rewrite orb_true_iff, andb_true_iff, !Nat.leb_le, Nat.eqb_eq. intros Hc.
    destruct (Nat.eqb_spec (code c) 45); [lia|]. destruct (Nat.eqb_spec (code c) 43); [lia|done]. }
  rewrite Hsg. destruct (digits s 0 0) as [[ip il] s2] eqn:E1.
  assert (0 <= ip)%Z as Hip by (pose proof (digits_nonneg s 0 0 ltac:(lia)) as H; by rewrite E1 in H).
  assert (Forall_chars numeral_char s2) as Hs2 by (pose proof (digits_rest numeral_char s 0 0 Hs) as H; by rewrite E1 in H).
  set (frac := match s2 with String c s' => if (code c =? 46)%nat then digits s' 0 0 else (0%Z, 0%nat, s2)
               | EmptyString => (0%Z, 0%nat, s2) end).
  assert (Hfr : (0 <= frac.1.1)%Z /\ Forall_chars numeral_char frac.2).
  { subst frac. destruct s2 as [|c s']; [done|]. destruct (code c =? 46)%nat; [|done].
    split; [by apply digits_nonneg | apply digits_rest, Hs2]. }
  destruct frac as [[fp fl] s3]. simpl in Hfr. destruct Hfr as [Hfp Hs3].
  case_match; [done|]. intros Hq.
  assert (Hm : (0 <= inject_Z 1 * (inject_Z ip + inject_Z fp * Qpow10 (- Z.of_nat fl)))%Q).
  { apply inject_Z_nonneg in Hip, Hfp. pose proof (Qpow10_nonneg (- Z.of_nat fl)).
    assert (0 <= inject_Z fp * Qpow10 (- Z.of_nat fl))%Q by (by apply Qmult_le_0_compat). change (inject_Z 1) with 1%Q. lra. }
  destruct s3 as [|c s3].
  - simplify_eq. by rewrite Qred_correct.
  - destruct Hs3 as [Hc _]. revert Hc. unfold numeral_char, is_digit.
    rewrite orb_true_iff, andb_true_iff, !Nat.leb_le, Nat.eqb_eq. intros Hc.
    case_match eqn:E; [|done]. rewrite orb_true_iff, !Nat.eqb_eq in E. lia.
Qed.

(** ** Consistency *)

(** Whose fault a classification says it is. *)
Definition blames_provider (c : FailureClassification) : bool :=
  match fc_category c with
  | INFRASTRUCTURE => negb (bool_decide (fc_reason c = auth))
  | RATE_LIMIT => negb (bool_decide (fc_reason c = billing)) || fc_is_permanent c
  | UNKNOWN => true
  | REQUEST_INCOMPATIBILITY | SEMANTIC_AGENT_FAILURE | CLIENT_FAULT => false
  end.

Record consistent (c : FailureClassification) : Prop := {
  always_falls_back : fc_should_fallback c = true;
  permanent_not_retried : fc_is_permanent c = true -> fc_retryable c = false;
  poisons_iff_blamed : fc_poisons_health c = blames_provider c;
  wait_is_forward : forall q, fc_retry_after_seconds c = Some q -> (0 <= q)%Q;
}.

Lemma classified_consistent cat reason retryable poisons permanent status wait msg details :
  (permanent = true -> retryable = false) ->
  poisons = blames_provider (classified cat reason retryable poisons permanent status wait msg details) ->
  (forall q, wait = Some q -> (0 <= q)%Q) ->
  consistent (classified cat reason retryable poisons permanent status wait msg details).
Proof. intros. by constructor. Qed.

Section waits.
Context {S : Type} (wall : nat -> Q) (parse_http_date : string -> option Q).

Lemma parse_retry_after_ok h (s : S) n :
  exists r n', parse_retry_after wall parse_http_date h s n = (Ok r, s, n') /\ (forall q, r = Some q -> (0 <= q)%Q).
Proof.
  unfold parse_retry_after. destruct h as [h|]; [|by eexists _, _].
  destruct (truthy h); [|by eexists _, _].
  destruct (py_float (strip h)) as [q|]; [eexists _, _; split; [done|]; intros ? [= <-]; apply py_max_ge_l|].
  destruct (parse_http_date (strip h)) as [t|]; [|by eexists _, _].
  eexists _, _. split; [done|]. intros ? [= <-]. apply py_max_ge_l.
Qed.

(** The daily horizon is between a minute and a day. *)
Lemma midnight_within_a_day (s : S) n :
  exists q, calculate_seconds_until_utc_midnight wall s n = (Ok q, s, Datatypes.S n) /\ (60 <= q <= day)%Q.
Proof.
  unfold calculate_seconds_until_utc_midnight. mstep. eexists. split; [reflexivity|]. cbv zeta.
  split; [apply py_max_ge_l|]. apply py_max_lub; [by vm_compute|].
  pose proof (Qfloor_le (wall n / day)) as H1.
  assert (H2 : (inject_Z (Qfloor (wall n / day)) * day <= wall n)%Q).
  { eapply Qle_trans; [apply Qmult_le_compat_r; [exact H1 | by vm_compute]|].
    apply Qle_lteq. right. unfold day. field. }
  unfold day in *. lra.
Qed.
End waits.

Lemma q_or_nonneg a b :
  (forall q, a = Some q -> (0 <= q)%Q) -> (forall q, b = Some q -> (0 <= q)%Q) -> forall q, q_or a b = Some q -> (0 <= q)%Q.
Proof. unfold q_or. destruct a as [x|]; [destruct (Qeqb x 0)|]; eauto. Qed.

Lemma body_wait_nonneg msg q : parse_retry_after_from_body msg = Some q -> (0 <= q)%Q.
Proof.
  unfold parse_retry_after_from_body. repeat case_match; intros; simplify_eq.
  eapply Qle_trans; [|apply py_max_ge_l]. by vm_compute.
Qed.

Lemma stated_wait_nonneg msg : (0 <= stated_wait msg)%Q.
Proof.
  unfold stated_wait. destruct (search wait_re msg) as [[|g gs]|] eqn:E; [by vm_compute | | by vm_compute].
  apply (search_captures numeral_char) in E.
  - destruct (py_float g) as [q|] eqn:Eq; [|by vm_compute]. simpl. eapply py_float_nonneg; [|exact Eq]. by inversion E.
  - cbn [groups_only wait_re seqs lit ch opt plus many digit only_chars].
    assert (forall c, is_digit c = true -> numeral_char c = true) by (intros c Hc; unfold numeral_char; by rewrite Hc).
    split_and!; try done. intros c Hc%Ascii.eqb_eq. by subst.
Qed.

Ltac classified_case :=
  apply classified_consistent; cbn [blames_provider classified fc_category fc_reason fc_is_permanent fc_poisons_health];
  try done; eauto using body_wait_nonneg.

Lemma classify_rest_consistent ty code msg wait :
  (forall q, wait = Some q -> (0 <= q)%Q) -> consistent (classify_rest ty code msg wait).
Proof.
  intros Hw. unfold classify_rest.
  repeat lazymatch goal with |- consistent (if ?b then _ else _) => destruct b end; try by classified_case.
  - apply classified_consistent; [done | by case_match |].
    pose proof (q_or_nonneg wait (parse_retry_after_from_body msg) Hw (body_wait_nonneg msg)) as Hq.
    destruct (q_or wait (parse_retry_after_from_body msg)) as [q|]; [done|].
    case_match; [|done]. intros ? [= <-]. by vm_compute.
  - apply classified_consistent; [done | by case_match | done].
  - apply classified_consistent; [done | by case_match | done].
Qed.


(** ** Texts without keywords: the status code decides *)

Definition keywords : list string :=
  SSL_PATTERNS ++ OUTPUT_CAP_PATTERNS ++ CONTEXT_OVERFLOW_PATTERNS ++ BILLING_PATTERNS ++ TPM_RATE_LIMIT_PATTERNS ++
  UPSTREAM_429_PATTERNS ++ DEPRECATION_PATTERNS ++ TOOL_MALFORMED_PATTERNS ++ SCHEMA_INCOMPATIBILITY_PATTERNS ++
  CLIENT_FAULT_PATTERNS ++ WAF_PATTERNS ++
  ["connection refused"; "errno 61"; "errno 111"; "empty response body"; "empty completion"; "request too large";
   "limit"; "tokens per minute"; "tpm"; "try again in"; "access denied"; "forbidden"; "overloaded"; "bad gateway";
   "gateway timeout"; "timeout"; "timed out"].

Definition plain_error (e : error_value) : Prop :=
  contains_any keywords (effective_message e) = false /\
  contains_any ["sslerror"; "ratelimit"; "connecttimeout"] (py_lower (err_type e)) = false.

(** What each status code means, as the comments of the code list it. *)
Definition reason_of_status (code : Z) : FailoverReason :=
  if existsb (Z.eqb code) [401; 403]%Z then auth
  else if (code =? 402)%Z then billing
  else if existsb (Z.eqb code) [404; 410]%Z then model_not_found
  else if (code =? 413)%Z then payload_too_large
  else if (code =? 429)%Z then rate_limit
  else if existsb (Z.eqb code) [503; 529]%Z then overloaded
  else if existsb (Z.eqb code) [408; 500; 502; 504]%Z then server_error
  else if (400 <=? code)%Z && (code <? 500)%Z then client_error
  else unknown.
Definition retryable_reason (r : FailoverReason) : bool :=
  match r with rate_limit | overloaded | server_error | unknown => true | _ => false end.
Definition poisoning_reason (r : FailoverReason) : bool :=
  match r with billing | rate_limit | overloaded | server_error | unknown => true | _ => false end.
Definition permanent_reason (r : FailoverReason) : bool :=
  match r with auth | billing | model_not_found => true | _ => false end.

Lemma contains_any_sub ks ks' msg :
  contains_any ks msg = false -> forallb (fun p => existsb (String.eqb p) ks) ks' = true -> contains_any ks' msg = false.
Proof.
  unfold contains_any. intros Hks Hsub. apply not_true_iff_false. rewrite existsb_exists. intros (p & Hp & Hc).
  rewrite forallb_forall in Hsub. apply Hsub, existsb_exists in Hp as (p' & Hp' & ->%String.eqb_eq).
  rewrite <- not_true_iff_false, existsb_exists in Hks. eauto.
Qed.
Lemma contains_any_one ks p msg :
  contains_any ks msg = false -> existsb (String.eqb p) ks = true -> contains p msg = false.
Proof.
  intros Hks Hp. pose proof (contains_any_sub ks [p] msg Hks) as H. unfold contains_any in H. simpl in H.
  rewrite orb_false_r in H. apply H. by rewrite Hp.
Qed.

Lemma lang_lit s w rest : lang (lit s) w rest -> w = s.
Proof.
  revert w rest. induction s as [|c s IH]; intros w rest Hl; [by inversion Hl|].
  assert (Hch : forall v r, lang (ch c) v r -> v = String c "").
  { intros v r Hv. inversion Hv as [p c' r' Hp| | | | | | | |]; subst. by apply Ascii.eqb_eq in Hp as ->. }
  destruct s as [|c' s]; [by apply Hch in Hl|].
  inversion Hl as [| | |a b u v r Hu Hv| | | | |]; subst. apply Hch in Hu as ->. apply IH in Hv as ->. done.
Qed.

Lemma search_needs_literal p b msg : contains p msg = false -> search (RSeq (lit p) b) msg = None.
Proof.
  intros Hc. destruct (search (RSeq (lit p) b) msg) as [g|] eqn:E; [|done].
  destruct (proj1 (search_iff (RSeq (lit p) b) msg)) as (x & w & y & -> & Hl); [by exists g|].
  inversion Hl as [| | |a b' u v r Hu Hv| | | | |]; subst. apply lang_lit in Hu as ->.
  exfalso. apply (eq_true_false_abs (contains p (x ++ (p ++ v) ++ y)%string)); [|done]. apply contains_true. exists x, (v ++ y)%string. by rewrite string_app_assoc.
Qed.

Lemma no_limit_not_over msg : contains "limit" msg = false -> requested_over_limit msg = false.
Proof. intros H. unfold requested_over_limit, limit_then_requested_re. cbn [seqs]. by rewrite search_needs_literal. Qed.

(** The status code decides plain errors.  For an error whose text and
    class carry none of the classifier's keywords, the reason is the one the
    status code stands for, and with it whether the failure is retried, poisons
    the provider's health and is permanent. *)
Theorem status_decides {S} wall parse_http_date e code headers (s : S) n :
  plain_error e ->
  exists c, out_res (classify_failure wall parse_http_date e (Some code) headers s n) = Ok c /\
    let r := reason_of_status code in
    fc_reason c = r /\ fc_retryable c = retryable_reason r /\ fc_poisons_health c = poisoning_reason r /\
    fc_is_permanent c = permanent_reason r.
Proof.
  intros [Hm Ht]. unfold classify_failure.
  destruct (parse_retry_after_ok wall parse_http_date (od_get "retry-after" (clean_headers headers)) s n) as (w & n1 & Hw & _).
  erewrite bind_ok by exact Hw. cbv beta. set (msg := effective_message e) in *. set (ty := py_lower (err_type e)) in *.
  assert (Hk : forall p, existsb (String.eqb p) keywords = true -> contains p msg = false) by (intros p; by apply contains_any_one).
  assert (Hty : forall p, existsb (String.eqb p) ["sslerror"; "ratelimit"; "connecttimeout"] = true -> contains p ty = false)
    by (intros p; by apply contains_any_one).
  unfold oversized_tpm, classify_rest. rewrite no_limit_not_over by (by apply Hk).
  repeat match goal with
  | |- context [contains_any ?ks msg] => rewrite (contains_any_sub keywords ks msg Hm) by reflexivity
  | |- context [contains ?p msg] => rewrite (Hk p) by reflexivity
  | |- context [contains ?p ty] => rewrite (Hty p) by reflexivity
  end.
  cbn [effective_code code_in existsb orb andb negb]. unfold reason_of_status. cbn [existsb orb].
  rewrite ?orb_false_r, ?andb_false_r, ?andb_true_r. cbn [orb andb].
  repeat match goal with
  | |- context [(code =? ?k)%Z] => destruct (Z.eqb_spec code k) as [->|]; cbn [orb andb Z.leb Z.ltb Z.compare Pos.compare Pos.compare_cont]
  end; try (eexists; split; [reflexivity|]; done).
  destruct ((400 <=? code)%Z && (code <? 500)%Z); (eexists; split; [reflexivity|]; done).
Qed.

Lemma status_decides_witness :
  let e := text_error "no such thing" in
  plain_error e /\ exists c, out_res (classify_failure (fun _ => 0) (fun _ => None) e (Some 404%Z) [] tt 0%nat) = Ok c /\
    fc_reason c = model_not_found /\ fc_retryable c = false /\ fc_poisons_health c = false /\ fc_is_permanent c = true.
Proof.
  assert (plain_error (text_error "no such thing")) as Hp by (split; by vm_compute).
  split; [exact Hp|]. exact (status_decides (fun _ => 0) (fun _ => None) (text_error "no such thing") 404 [] tt 0%nat Hp).
Defined.
