(* ===== verification/ToolValidation.v ===== *)
(** * Tool-call validation

    [src/durallm/agent/tool_validation.py].  Arguments and schemas are JSON
    values; a validation rewrites the argument dictionary in place, so the model
    passes the dictionary and the list of normalisations through.  The lax JSON
    parser ([json.loads(..., strict=False)]), [ast.literal_eval] ([None]: the
    call raises, or yields something no JSON value denotes) and the rendering of
    floats are parameters.  Messages are kept as data. *)

From stdpp Require Import base tactics list sets strings.
From Stdlib Require Import QArith Ascii.
From S2P Require Import Prelude Json Models PyText Regex.

Inductive ToolCallResult : Type := VALID | NORMALIZED | INVALID | UNSAFE_TO_REPAIR.

#[export] Instance ToolCallResult_eq_dec : EqDecision ToolCallResult.
Proof. solve_decision. Defined.

(** The messages a rejected call carries. *)
Inductive validation_error : Type :=
| MissingRequired (path : string) (keys : list json)
| DisallowedExtra (path : string) (keys : list string)
| WrongType (field expected : string) (got : json)
| ItemNotObject (idx : nat) (field : string) (got : json)
| UnknownTool (tool : string) (known : list string)
| Unparseable
| MalformedArguments.

Abbreviation fields := (odict string json).

Record ToolValidationReport : Type := {
  tv_tool_name : string;
  tv_status : ToolCallResult;
  validated_arguments : fields;
  tv_raw_arguments : string;
  normalizations_applied : list string;
  tv_error : option validation_error;
}.

(** [is_executable] *)
Definition is_executable (r : ToolValidationReport) : bool :=
  match tv_status r with VALID | NORMALIZED => true | _ => false end.

Record ToolCallValidator : Type := {
  strict : bool;
  allow_syntactic_repairs : bool;
  allow_semantic_repairs : bool;
}.
Definition new_validator (strict : bool) : ToolCallValidator :=
  {| strict := strict; allow_syntactic_repairs := true; allow_semantic_repairs := false |}.

(** Calling a dict method on another value, or using one where the language
    forbids it. *)
Definition attribute_error {A} : res exn A := Raise (RuntimeError "AttributeError").
Definition type_error {A} : res exn A := Raise (RuntimeError "TypeError").

Definition res_bind {A B} (r : res exn A) (k : A -> res exn B) : res exn B :=
  match r with Ok a => k a | Raise e => Raise e end.
Notation "'let!' x ':=' r 'in' k" := (res_bind r (fun x => k))
  (at level 200, x pattern, r at level 100, k at level 200, right associativity).

Definition as_object (j : json) : res exn fields :=
  match j with JObj fs => Ok fs | _ => attribute_error end.

(** [for k in v] *)
Definition iterate (v : json) : res exn (list json) :=
  match v with
  | JArr l => Ok l
  | JObj fs => Ok (map (fun kv => JStr (fst kv)) fs)
  | JStr s => Ok (map (fun c => JStr (String c "")) (String.list_ascii_of_string s))
  | _ => type_error
  end.

(** [k in d] for a dict [d]: an unhashable key raises. *)
Definition in_dict (k : json) (d : fields) : res exn bool :=
  match k with
  | JStr s => Ok (od_mem s d)
  | JArr _ | JObj _ => type_error
  | _ => Ok false
  end.
(** [k in v] for a string [k]. *)
Definition str_in (k : string) (v : json) : res exn bool :=
  match v with
  | JObj fs => Ok (od_mem k fs)
  | JArr l => Ok (existsb (fun x => match x with JStr s => String.eqb s k | _ => false end) l)
  | JStr s => Ok (contains k s)
  | _ => type_error
  end.

(** [[k for k in l if k not in d]] *)
Fixpoint missing_keys (l : list json) (d : fields) : res exn (list json) :=
  match l with
  | [] => Ok []
  | k :: l' => let! b := in_dict k d in let! r := missing_keys l' d in Ok (if b : bool then r else k :: r)
  end.
Fixpoint extra_keys (ks : list string) (props : json) : res exn (list string) :=
  match ks with
  | [] => Ok []
  | k :: ks' => let! b := str_in k props in let! r := extra_keys ks' props in Ok (if b : bool then r else k :: r)
  end.

Definition type_is (t : string) (spec : fields) : bool :=
  match od_get "type" spec with Some (JStr s) => String.eqb s t | _ => false end.
(** [spec.get(k)] is truthy *)
Definition has (k : string) (spec : fields) : bool :=
  match od_get k spec with Some v => jtruthy v | None => false end.

Section validator.
Context (json_dumps : json -> string) (json_loads_lax literal_eval : string -> option json) (float_str : Q -> string).
Context (cfg : ToolCallValidator).

(** *** Syntactic normalisation *)

Definition fence : string := String (chr 96) (String (chr 96) (String (chr 96) "")).
Definition word_char (c : ascii) : bool :=
  is_digit c || ((65 <=? code c) && (code c <=? 90))%nat || ((97 <=? code c) && (code c <=? 122))%nat ||
  (code c =? 95)%nat || (code c =? 45)%nat.
Definition open_fence_re : regex := seqs [lit fence; opt (plus (RChar word_char)); many space].
Definition close_fence_re : regex := seqs [many space; lit fence; REnd].
Definition trailing_comma_re : regex := seqs [lit ","; many space; RGroup (any_of "]}")].

Definition strip_fences (cleaned : string) : string :=
  let opened := match re_match open_fence_re cleaned with Some (_, rest) => rest | None => cleaned end in
  re_sub close_fence_re (fun _ => "") opened.

(** [normalize_json_syntax] *)
Definition normalize_json_syntax (raw : string) : option fields * list string :=
  if negb (truthy (strip raw)) then (Some [], ["empty_to_dict"]) else
  let cleaned := strip raw in
  let '(cleaned, norms) :=
    if starts_with fence cleaned then (strip_fences cleaned, ["strip_markdown_fences"]) else (cleaned, []) in
  let no_commas := re_sub trailing_comma_re (fun g => nth 0 g "") cleaned in
  let '(cleaned, norms) :=
    if String.eqb no_commas cleaned then (cleaned, norms) else (no_commas, norms ++ ["strip_trailing_commas"]) in
  match json_loads_lax cleaned with
  | Some (JObj fs) => (Some fs, norms)
  | Some _ => (None, ["non_dict_json"])
  | None =>
      match literal_eval cleaned with
      | Some (JObj fs) => (Some fs, norms ++ ["python_dict_to_json"])
      | _ => (None, ["unparseable_json"])
      end
  end.

(** *** Schema validation *)

(** What checking one value yields: an error, or the value to store and the
    normalisations made. *)
Abbreviation checked := (option validation_error * json * list string)%type.

Definition coerce_note (field suffix : string) : string := ("coerce_" ++ field ++ suffix)%string.

(** The scalar cases of the loop body. *)
Definition check_integer (field : string) (val : json) : checked :=
  match val with
  | JInt _ | JBool _ => (None, val, [])
  | JStr s =>
      if py_isdigit s && allow_syntactic_repairs cfg
      then match py_int s with
           | Some z => (None, JInt z, [coerce_note field "_str_to_int"])
           | None => (Some (WrongType field "integer" val), val, [])
           end
      else (Some (WrongType field "integer" val), val, [])
  | _ => (Some (WrongType field "integer" val), val, [])
  end.
Definition check_number (field : string) (val : json) : checked :=
  match val with
  | JInt _ | JFloat _ | JBool _ => (None, val, [])
  | JStr s =>
      if allow_syntactic_repairs cfg
      then match py_float s with
           | Some q => (None, JFloat q, [coerce_note field "_str_to_number"])
           | None => (Some (WrongType field "number" val), val, [])
           end
      else (Some (WrongType field "number" val), val, [])
  | _ => (Some (WrongType field "number" val), val, [])
  end.
Definition check_boolean (field : string) (val : json) : checked :=
  match val with
  | JBool _ => (None, val, [])
  | JStr s =>
      if (String.eqb (py_lower s) "true" || String.eqb (py_lower s) "false") && allow_syntactic_repairs cfg
      then (None, JBool (String.eqb (py_lower s) "true"), [coerce_note field "_str_to_bool"])
      else (Some (WrongType field "boolean" val), val, [])
  | _ => (Some (WrongType field "boolean" val), val, [])
  end.
(** [str(v)] of a scalar. *)
Definition py_str_scalar (v : json) : option string :=
  match v with
  | JInt z => Some (py_str_int z)
  | JFloat q => Some (float_str q)
  | JBool b => Some (if b then "True" else "False")
  | _ => None
  end.
Definition check_string (field : string) (val : json) : checked :=
  match val with
  | JStr _ => (None, val, [])
  | _ =>
      match py_str_scalar val with
      | Some s => if allow_syntactic_repairs cfg then (None, JStr s, [coerce_note field "_to_str"])
                  else (Some (WrongType field "string" val), val, [])
      | None => (Some (WrongType field "string" val), val, [])
      end
  end.

Section level.
(** The recursive call, on a nested object and its schema. *)
Context (validate : fields -> fields -> string -> res exn (option validation_error * fields * list string)).

(** The loop over the items of an array of objects. *)
Fixpoint check_items (item_spec : fields) (field : string) (idx : nat) (l : list json)
    : res exn (option validation_error * list json * list string) :=
  match l with
  | [] => Ok (None, [], [])
  | JObj fs :: l' =>
      let! o := validate fs item_spec (field ++ "[" ++ py_str_nat idx ++ "]")%string in
      let '(err, fs', norms) := o in
      match err with
      | Some _ => Ok (err, JObj fs' :: l', norms)
      | None =>
          let! o2 := check_items item_spec field (S idx) l' in
          let '(err2, l2, norms2) := o2 in Ok (err2, JObj fs' :: l2, norms ++ norms2)
      end
  | x :: l' => Ok (Some (ItemNotObject idx field x), x :: l', [])
  end.

(** The body of the loop over the declared properties. *)
Definition check_property (spec : fields) (field : string) (val : json) : res exn checked :=
  if type_is "integer" spec then Ok (check_integer field val)
  else if type_is "number" spec || type_is "float" spec then Ok (check_number field val)
  else if type_is "boolean" spec then Ok (check_boolean field val)
  else if type_is "string" spec then Ok (check_string field val)
  else if type_is "array" spec then
    match val with
    | JArr l =>
        match od_get "items" spec with
        | Some (JObj item_spec) =>
            if type_is "object" item_spec then
              let! o := check_items item_spec field 0%nat l in
              let '(err, l', norms) := o in Ok (err, JArr l', norms)
            else Ok (None, val, [])
        | _ => Ok (None, val, [])
        end
    | _ => Ok (Some (WrongType field "array" val), val, [])
    end
  else if type_is "object" spec then
    match val with
    | JObj fs =>
        if has "properties" spec || has "required" spec then
          let! o := validate fs spec field in
          let '(err, fs', norms) := o in Ok (err, JObj fs', norms)
        else Ok (None, val, [])
    | _ => Ok (Some (WrongType field "object" val), val, [])
    end
  else Ok (None, val, []).

Definition field_name (prefix name : string) : string :=
  if truthy prefix then (prefix ++ "." ++ name)%string else name.

(** The loop over the declared properties. *)
Fixpoint check_properties (prefix : string) (props : fields) (target : fields)
    : res exn (option validation_error * fields * list string) :=
  match props with
  | [] => Ok (None, target, [])
  | (name, spec) :: props' =>
      match od_get name target with
      | None => check_properties prefix props' target
      | Some val =>
          let! sp := as_object spec in
          let! o := check_property sp (field_name prefix name) val in
          let '(err, val', norms) := o in
          let target' := od_set name val' target in
          match err with
          | Some _ => Ok (err, target', norms)
          | None =>
              let! o2 := check_properties prefix props' target' in
              let '(err2, target2, norms2) := o2 in Ok (err2, target2, norms ++ norms2)
          end
      end
  end.
End level.

(** [_validate_schema]; the fuel bounds the nesting of the schema. *)
Fixpoint validate_schema (fuel : nat) (target schema : fields) (prefix : string)
    : res exn (option validation_error * fields * list string) :=
  match fuel with
  | O => Raise (RuntimeError "RecursionError")
  | S fuel' =>
      let props := default (JObj []) (od_get "properties" schema) in
      let! req := iterate (default (JArr []) (od_get "required" schema)) in
      let! missing := missing_keys req target in
      match missing with
      | _ :: _ => Ok (Some (MissingRequired prefix missing), target, [])
      | [] =>
          let! extra := match od_get "additionalProperties" schema with
                        | Some (JBool false) => extra_keys (od_keys target) props
                        | _ => Ok [] end in
          match extra with
          | _ :: _ => Ok (Some (DisallowedExtra prefix extra), target, [])
          | [] =>
              let! ps := as_object props in
              check_properties (fun t s p => validate_schema fuel' t s p) prefix ps target
          end
      end
  end.

(** The nesting depth of a JSON value, enough fuel for a schema. *)
Fixpoint jdepth (j : json) : nat :=
  match j with
  | JArr l => S (foldr (fun x n => Nat.max (jdepth x) n) 0%nat l)
  | JObj fs => S (foldr (fun kv n => Nat.max (jdepth (snd kv)) n) 0%nat fs)
  | _ => 0%nat
  end.

(** *** Whole calls *)

(** Unwraps [{"parameters": {...}}] and the like. *)
Fixpoint unwrap (wrappers : list string) (expected_props : json) (args : fields) : res exn (fields * list string) :=
  match wrappers with
  | [] => Ok (args, [])
  | w :: ws =>
      match args with
      | [(k, JObj inner)] =>
          if String.eqb k w then
            let! b := str_in w expected_props in
            if b : bool then unwrap ws expected_props args
            else Ok (inner, [("unwrap_" ++ w ++ "_envelope")%string])
          else unwrap ws expected_props args
      | _ => unwrap ws expected_props args
      end
  end.

(** [schema.get("parameters") or schema], for a truthy schema. *)
Definition schema_params_of (schema : option json) : res exn (option json) :=
  match schema with
  | None => Ok None
  | Some s =>
      if jtruthy s then
        let! fs := as_object s in
        Ok (Some (match od_get "parameters" fs with Some p => if jtruthy p then p else s | None => s end))
      else Ok None
  end.

(** The arguments as a dictionary, with the normalisations made. *)
Definition parse_arguments (arguments : json) : option fields * list string :=
  match arguments with
  | JObj fs => (Some fs, [])
  | JStr s =>
      match json_loads_lax s with
      | Some (JObj fs) => (Some fs, [])
      | Some _ => (None, [])
      | None => if allow_syntactic_repairs cfg then normalize_json_syntax s else (None, [])
      end
  | _ => (None, [])
  end.

(** [validate_tool_call] *)
Definition validate_tool_call (tool : string) (arguments : json) (schema : option json) (known : option (list string))
    : res exn ToolValidationReport :=
  let raw_str := match arguments with
                 | JStr s => s
                 | _ => json_dumps (if jtruthy arguments then arguments else JObj []) end in
  let report st args norms err :=
    {| tv_tool_name := tool; tv_status := st; validated_arguments := args; tv_raw_arguments := raw_str;
       normalizations_applied := norms; tv_error := err |} in
  if match known with Some ks => negb (existsb (String.eqb tool) ks) | None => false end
  then Ok (report INVALID [] [] (Some (UnknownTool tool (default [] known)))) else
  let '(parsed, norms) := parse_arguments arguments in
  match parsed with
  | None =>
      if strict cfg || negb (allow_semantic_repairs cfg)
      then Ok (report UNSAFE_TO_REPAIR [] [] (Some Unparseable))
      else Ok (report INVALID [] [] (Some MalformedArguments))
  | Some args =>
      let! sp := schema_params_of schema in
      match sp with
      | None => Ok (report (match norms with [] => VALID | _ => NORMALIZED end) args norms None)
      | Some sp =>
          let! o := (if allow_syntactic_repairs cfg then
                       let! spf := as_object sp in
                       unwrap ["parameters"; "arguments"; "input"] (default (JObj []) (od_get "properties" spf)) args
                     else Ok (args, [])) in
          let '(args, norms1) := o in
          let! spf := as_object sp in
          let! o2 := validate_schema (jdepth sp) args spf "" in
          let '(err, args', norms2) := o2 in
          let all_norms := norms ++ norms1 ++ norms2 in
          match err with
          | Some _ => Ok (report INVALID args' all_norms err)
          | None => Ok (report (match all_norms with [] => VALID | _ => NORMALIZED end) args' all_norms None)
          end
      end
  end.
End validator.
