(* ===== verification/ToolValidationProps.v ===== *)
(** * Correctness of tool-call validation

    Soundness (what is reported executable conforms to the validator's dialect of
    the schema),
    completeness (what conforms is accepted untouched) and the two rules the
    code states for itself: nothing is invented and only syntax is repaired. *)

From stdpp Require Import base tactics list sets strings.
From Stdlib Require Import QArith Ascii.
From S2P Require Import Prelude Json Models PyText Regex ToolValidation.

(** ** Specification *)

(** Dictionaries have distinct keys, at every level. *)
Inductive jwf : json -> Prop :=
| wf_null : jwf JNull
| wf_bool b : jwf (JBool b)
| wf_int z : jwf (JInt z)
| wf_float q : jwf (JFloat q)
| wf_str s : jwf (JStr s)
| wf_arr l : Forall jwf l -> jwf (JArr l)
| wf_obj fs : od_wf fs -> Forall (fun kv => jwf (snd kv)) fs -> jwf (JObj fs).

Definition is_int (v : json) : bool := match v with JInt _ | JBool _ => true | _ => false end.
Definition is_number (v : json) : bool := match v with JInt _ | JFloat _ | JBool _ => true | _ => false end.
Definition is_bool (v : json) : bool := match v with JBool _ => true | _ => false end.
Definition is_str (v : json) : bool := match v with JStr _ => true | _ => false end.
Definition known_type (spec : fields) : bool :=
  existsb (fun t => type_is t spec) ["integer"; "number"; "float"; "boolean"; "string"; "array"; "object"].

(** The part of JSON Schema that the validator promises: an object conforms to a
    schema; a value has a declared type.  It is a dialect: a boolean counts as an
    integer and as a number, as in Python; the items of an array are only looked
    at when they are declared objects; an object is only looked into when its schema has
    [properties] or [required]; [enum], ranges, patterns and unknown types say
    nothing. *)
Inductive conforms : fields -> fields -> Prop :=
| Conforms schema target req ps :
    iterate (default (JArr []) (od_get "required" schema)) = Ok req ->
    Forall (fun k => exists s, k = JStr s /\ s ∈ od_keys target) req ->
    default (JObj []) (od_get "properties" schema) = JObj ps ->
    (od_get "additionalProperties" schema = Some (JBool false) -> od_keys target ⊆ od_keys ps) ->
    (forall name spec val, (name, spec) ∈ ps -> od_get name target = Some val ->
       exists sp, spec = JObj sp /\ typed sp val) ->
    conforms schema target
with typed : fields -> json -> Prop :=
| TypedInt spec v : type_is "integer" spec = true -> is_int v = true -> typed spec v
| TypedNumber spec v : type_is "number" spec || type_is "float" spec = true -> is_number v = true -> typed spec v
| TypedBool spec v : type_is "boolean" spec = true -> is_bool v = true -> typed spec v
| TypedStr spec v : type_is "string" spec = true -> is_str v = true -> typed spec v
| TypedArr spec l :
    type_is "array" spec = true ->
    (forall item, od_get "items" spec = Some (JObj item) -> type_is "object" item = true ->
       Forall (fun x => exists fs, x = JObj fs /\ conforms item fs) l) ->
    typed spec (JArr l)
| TypedObj spec fs :
    type_is "object" spec = true ->
    (has "properties" spec || has "required" spec = true -> conforms spec fs) ->
    typed spec (JObj fs)
| TypedAny spec v : known_type spec = false -> typed spec v.

(** What a repair may do to a value: reread a scalar, or repair inside. *)
Inductive repaired (float_str : Q -> string) : json -> json -> Prop :=
| RepSame v : repaired float_str v v
| RepInt s z : py_int s = Some z -> repaired float_str (JStr s) (JInt z)
| RepFloat s q : py_float s = Some q -> repaired float_str (JStr s) (JFloat q)
| RepBool s b : py_lower s = (if b : bool then "true" else "false") -> repaired float_str (JStr s) (JBool b)
| RepStr v s : py_str_scalar float_str v = Some s -> repaired float_str v (JStr s)
| RepArr l l' : Forall2 (repaired float_str) l l' -> repaired float_str (JArr l) (JArr l')
| RepObj fs fs' :
    od_keys fs' = od_keys fs ->
    (forall k v, od_get k fs = Some v -> exists v', od_get k fs' = Some v' /\ repaired float_str v v') ->
    repaired float_str (JObj fs) (JObj fs').

(** ** Facts about dictionaries *)

Lemma od_mem_keys {V} k (d : odict string V) : od_mem k d = true <-> k ∈ od_keys d.
Proof.
  unfold od_mem. destruct (od_get k d) eqn:E; [|by apply od_get_None in E].
  split; [|done]. intros _. apply od_get_In in E. apply list_elem_of_fmap. by eexists (k, _).
Qed.

Lemma jwf_get fs k v : jwf (JObj fs) -> od_get k fs = Some v -> jwf v.
Proof. intros Hw Hg. inversion Hw; subst. apply od_get_In in Hg. rewrite Forall_forall in *. by apply (H1 (k, v)). Qed.

Lemma jdepth_get fs k v : od_get k fs = Some v -> (jdepth v < jdepth (JObj fs))%nat.
Proof.
  intros Hg%od_get_In. simpl. induction fs as [|[k' v'] fs IH]; [set_solver|]. simpl.
  apply elem_of_cons in Hg as [[= <- <-]|Hg]; [lia|]. specialize (IH Hg). lia.
Qed.

Lemma jdepth_pos fs : (1 <= jdepth (JObj fs))%nat.
Proof. simpl. lia. Qed.

Lemma missing_nil l d : missing_keys l d = Ok [] -> Forall (fun k => exists s, k = JStr s /\ s ∈ od_keys d) l.
Proof.
  induction l as [|k l IH]; simpl; [constructor|]. destruct (in_dict k d) as [b|] eqn:E; [|done]. simpl.
  destruct (missing_keys l d) as [r|]; [|done]. simpl. destruct b; [|done]. intros [= ->].
  constructor; [|by apply IH]. destruct k as [| | | |s| |]; simplify_eq/=. exists s. by rewrite <- od_mem_keys.
Qed.
Lemma missing_nil_ok l d : Forall (fun k => exists s, k = JStr s /\ s ∈ od_keys d) l -> missing_keys l d = Ok [].
Proof. induction 1 as [|k l (s & -> & Hs) _ IH]; simpl; [done|]. rewrite IH. simpl. apply od_mem_keys in Hs. by rewrite Hs. Qed.

Lemma extra_nil ks ps : extra_keys ks (JObj ps) = Ok [] <-> ks ⊆ od_keys ps.
Proof.
  induction ks as [|k ks IH]; simpl; [set_solver|].
  assert (He : exists r, extra_keys ks (JObj ps) = Ok r).
  { clear. induction ks as [|k ks [r IH]]; simpl; [eauto|]. rewrite IH. simpl. eauto. }
  destruct He as [r Hr]. rewrite Hr in *. simpl. pose proof (od_mem_keys k ps) as Hm.
  destruct (od_mem k ps).
  - rewrite IH. split; [intros H x [->|?]%elem_of_cons; [tauto | by apply H] | set_solver].
  - split; [done|]. intros H. assert (k ∈ od_keys ps) as Hk by (apply H; set_solver). by apply Hm in Hk.
Qed.

Section props.
Context (float_str : Q -> string) (cfg : ToolCallValidator).
Abbreviation rep := (repaired float_str).
Abbreviation validates := (validate_schema float_str cfg).

(** What one step of validation may do to a value or an object. *)
Definition good_value (spec : fields) (v : json) (o : option validation_error * json * list string) : Prop :=
  let '(err, v', norms) := o in rep v v' /\ (norms = [] -> v' = v) /\ (err = None -> typed spec v').
Definition good_object (schema : fields) (t : fields) (o : option validation_error * fields * list string) : Prop :=
  let '(err, t', norms) := o in rep (JObj t) (JObj t') /\ (norms = [] -> t' = t) /\ (err = None -> conforms schema t').

Lemma check_integer_good spec f v : type_is "integer" spec = true -> good_value spec v (check_integer cfg f v).
Proof.
  intros Ht. unfold check_integer. destruct v as [| | | |s| |]; try (split_and!; by eauto using repaired, typed).
  destruct (py_isdigit s && _); [|split_and!; by eauto using repaired].
  destruct (py_int s) eqn:E; split_and!; by eauto using repaired, typed.
Qed.
Lemma check_number_good spec f v :
  type_is "number" spec || type_is "float" spec = true -> good_value spec v (check_number cfg f v).
Proof.
  intros Ht. unfold check_number. destruct v as [| | | |s| |]; try (split_and!; by eauto using repaired, typed).
  destruct (allow_syntactic_repairs cfg); [|split_and!; by eauto using repaired].
  destruct (py_float s) eqn:E; split_and!; by eauto using repaired, typed.
Qed.
Lemma check_boolean_good spec f v : type_is "boolean" spec = true -> good_value spec v (check_boolean cfg f v).
Proof.
  intros Ht. unfold check_boolean. destruct v as [| | | |s| |]; try (split_and!; by eauto using repaired, typed).
  destruct (String.eqb_spec (py_lower s) "true") as [E|E], (String.eqb_spec (py_lower s) "false") as [E'|E'], (allow_syntactic_repairs cfg);
    simpl; split_and!; try done; eauto using repaired, typed.
Qed.
Lemma check_string_good spec f v : type_is "string" spec = true -> good_value spec v (check_string float_str cfg f v).
Proof.
  intros Ht. unfold check_string.
  destruct v as [| | | |s| |]; simpl; try destruct (allow_syntactic_repairs cfg);
    split_and!; try done; eauto using repaired, typed.
Qed.

Lemma type_is_excl a b spec : type_is a spec = true -> a <> b -> type_is b spec = false.
Proof.
  unfold type_is. destruct (od_get "type" spec) as [[]|]; try done. intros ->%String.eqb_eq Hne. by apply String.eqb_neq.
Qed.

Section level.
Context (validate : fields -> fields -> string -> res exn (option validation_error * fields * list string)).
Hypothesis IH : forall t s p o, validate t s p = Ok o -> jwf (JObj s) -> good_object s t o.

Lemma check_items_good spec f i l err l' norms :
  check_items validate spec f i l = Ok (err, l', norms) -> jwf (JObj spec) ->
  Forall2 rep l l' /\ (norms = [] -> l' = l) /\
  (err = None -> Forall (fun x => exists fs, x = JObj fs /\ conforms spec fs) l').
Proof.
  intros Hc Hw. revert i err l' norms Hc. induction l as [|x l IHl]; intros i err l' norms Hc; simpl in Hc.
  { simplify_eq. by split_and!; [constructor | | constructor]. }
  assert (Hrefl : forall l, Forall2 rep l l) by (intros k; induction k; constructor; [constructor | done]).
  destruct x as [| | | | | |fs]; try (simplify_eq; split_and!; [apply Hrefl | done | done]).
  destruct (validate fs spec _) as [[[e fs'] n1]|] eqn:Ev; [|done]. simpl in Hc.
  apply IH in Ev as (Hr & Hn & Hc'); [|done]. destruct e as [e|].
  - simplify_eq. split_and!; [constructor; [done | apply Hrefl] | by intros ->; rewrite Hn | done].
  - destruct (check_items validate spec f (S i) l) as [[[e2 l2] n2]|] eqn:E2; [|done]. simplify_eq/=.
    apply IHl in E2 as (H1 & H2 & H3). split_and!.
    + by constructor.
    + intros [-> ->]%app_eq_nil. by rewrite Hn, H2.
    + intros ->. constructor; [eauto | by apply H3].
Qed.

Lemma check_property_good spec f v o :
  check_property float_str cfg validate spec f v = Ok o -> jwf (JObj spec) -> good_value spec v o.
Proof.
  intros Hc Hw. unfold check_property in Hc.
  destruct (type_is "integer" spec) eqn:E1; [simplify_eq; by apply check_integer_good|].
  destruct (type_is "number" spec || type_is "float" spec) eqn:E2; [simplify_eq; by apply check_number_good|].
  destruct (type_is "boolean" spec) eqn:E3; [simplify_eq; by apply check_boolean_good|].
  destruct (type_is "string" spec) eqn:E4; [simplify_eq; by apply check_string_good|].
  destruct (type_is "array" spec) eqn:E5.
  { destruct v as [| | | | |l|]; try (simplify_eq; split_and!; by eauto using repaired).
    destruct (od_get "items" spec) as [[| | | | | |item]|] eqn:Ei;
      try (simplify_eq; split_and!; [constructor | done | intros _; apply TypedArr; [done | intros; congruence]]).
    destruct (type_is "object" item) eqn:Eo;
      [|simplify_eq; split_and!; [constructor | done | intros _; apply TypedArr; [done | intros; congruence]]].
    destruct (check_items validate item f 0 l) as [[[e l'] n]|] eqn:Ec; [|done]. simplify_eq/=.
    apply check_items_good in Ec as (H1 & H2 & H3); [|by eapply jwf_get].
    split_and!; [by constructor | intros ->; by rewrite H2 |].
    intros ->. apply TypedArr; [done|]. intros item' Hi _. rewrite Ei in Hi. simplify_eq. by apply H3. }
  destruct (type_is "object" spec) eqn:E6.
  { destruct v as [| | | | | |fs]; try (simplify_eq; split_and!; by eauto using repaired).
    destruct (has "properties" spec || has "required" spec) eqn:Eh;
      [|simplify_eq; split_and!; [constructor | done | intros _; apply TypedObj; congruence]].
    destruct (validate fs spec f) as [[[e fs'] n]|] eqn:Ev; [|done]. simplify_eq/=.
    apply IH in Ev as (H1 & H2 & H3); [|done]. split_and!; [done | intros ->; by rewrite H2 |].
    intros ->. apply TypedObj; [done|]. intros _. by apply H3. }
  simplify_eq. split_and!; [constructor | done|]. intros _. apply TypedAny. unfold known_type. simpl.
  apply orb_false_iff in E2 as [-> ->]. by rewrite E1, E3, E4, E5, E6.
Qed.

Lemma check_properties_good prefix ps t err t' norms :
  check_properties float_str cfg validate prefix ps t = Ok (err, t', norms) ->
  od_wf ps -> Forall (fun kv => jwf (snd kv)) ps ->
  od_keys t' = od_keys t /\
  (forall k v, od_get k t = Some v -> exists v', od_get k t' = Some v' /\ rep v v') /\
  (forall k, k ∉ od_keys ps -> od_get k t' = od_get k t) /\
  (norms = [] -> t' = t) /\
  (err = None -> forall name spec val, (name, spec) ∈ ps -> od_get name t' = Some val -> exists sp, spec = JObj sp /\ typed sp val).
Proof.
  revert t err t' norms. induction ps as [|[name spec] ps IHp]; intros t err t' norms Hc Hnd Hw; simpl in Hc.
  { simplify_eq. split_and!; [done | by eauto using repaired | done | done | set_solver]. }
  apply NoDup_cons in Hnd as [Hnin Hnd]. apply Forall_cons in Hw as [Hws Hw]. simpl in Hws.
  destruct (od_get name t) as [v|] eqn:Eg; cycle 1.
  { destruct (IHp _ _ _ _ Hc Hnd Hw) as (H1 & H2 & H3 & H4 & H5). split_and!; [done | done | set_solver | done |].
    intros He n s val [[= -> ->]|Hin]%elem_of_cons; [|eauto]. rewrite H3 by done. congruence. }
  destruct (as_object spec) as [sp|] eqn:Es; [|done]. simpl in Hc. destruct spec; simplify_eq/=.
  destruct (check_property float_str cfg validate sp (field_name prefix name) v) as [[[e v'] n1]|] eqn:Ep; [|done]. simpl in Hc.
  apply check_property_good in Ep as (Hr & Hn & Hty); [|done].
  assert (Hset : forall k, k <> name -> od_get k (od_set name v' t) = od_get k t) by (intros k Hk; by apply od_get_set_ne).
  assert (Hrep : forall k x, od_get k t = Some x -> exists x', od_get k (od_set name v' t) = Some x' /\ rep x x').
  { intros k x Hx. destruct (decide (k = name)) as [->|Hk]; [|rewrite Hset by done; by eauto using repaired].
    rewrite od_get_set_eq. simplify_eq. eauto. }
  destruct e as [e|].
  { simplify_eq. split_and!; [by eapply od_keys_set_in | done | intros k Hk; apply Hset; set_solver | | done].
    intros ->. rewrite Hn by done. by apply od_set_same. }
  destruct (check_properties float_str cfg validate prefix ps (od_set name v' t)) as [[[e2 t2] n2]|] eqn:E2; [|done].
  simplify_eq/=. destruct (IHp _ _ _ _ E2 Hnd Hw) as (H1 & H2 & H3 & H4 & H5). split_and!.
  - rewrite H1. by eapply od_keys_set_in.
  - intros k x Hx. destruct (decide (k = name)) as [->|Hk].
    + exists v'. rewrite H3 by done. rewrite od_get_set_eq. by simplify_eq.
    + apply H2. by rewrite Hset.
  - intros k Hk. rewrite H3 by set_solver. apply Hset. set_solver.
  - intros [-> ->]%app_eq_nil. rewrite H4, Hn by done. by apply od_set_same.
  - intros He n s val [[= -> ->]|Hin]%elem_of_cons Hv; [|by eapply H5]. rewrite H3, od_get_set_eq in Hv by done.
    simplify_eq. exists sp. by split; [|apply Hty].
Qed.
End level.

Lemma validate_schema_good fuel t s p o : validates fuel t s p = Ok o -> jwf (JObj s) -> good_object s t o.
Proof.
  revert t s p o. induction fuel as [|fuel IH]; intros t s p o Hv Hw; [done|]. simpl in Hv.
  destruct (iterate _) as [req|] eqn:Er; [|done]. simpl in Hv.
  destruct (missing_keys req t) as [[|m ms]|] eqn:Em; [| |done]; simpl in Hv;
    [|simplify_eq; split_and!; by eauto using repaired].
  destruct (match od_get "additionalProperties" s with Some (JBool false) => _ | _ => _ end) as [[|x xs]|] eqn:Ex;
    [| |done]; simpl in Hv; [|simplify_eq; split_and!; by eauto using repaired].
  destruct (as_object _) as [ps|] eqn:Ep; [|done]. simpl in Hv.
  assert (Hps : default (JObj []) (od_get "properties" s) = JObj ps) 
    by (destruct (default (JObj []) (od_get "properties" s)); by simplify_eq/=).
  assert (Hwps : jwf (JObj ps)).
  { rewrite <- Hps. destruct (od_get "properties" s) eqn:E; simpl; [by eapply jwf_get | constructor; [apply od_wf_nil | constructor]]. }
  inversion Hwps; subst. destruct o as [[err t'] norms].
  destruct (check_properties_good _ IH p ps t err t' norms) as (H1' & H2 & H3 & H4 & H5); [done..|].
  split_and!; [by constructor | done|]. intros He. econstructor; [done| | done | | by apply H5].
  - rewrite H1'. by apply missing_nil.
  - intros Ha. rewrite Ha, Hps in Ex. rewrite H1'. by apply extra_nil.
Qed.

(** ** Completeness *)

Section complete_level.
Context (validate : fields -> fields -> string -> res exn (option validation_error * fields * list string)) (fuel : nat).
Hypothesis IH : forall t s p, (jdepth (JObj s) <= fuel)%nat -> conforms s t -> validate t s p = Ok (None, t, []).

Lemma check_items_complete spec f i l :
  (jdepth (JObj spec) <= fuel)%nat -> Forall (fun x => exists fs, x = JObj fs /\ conforms spec fs) l ->
  check_items validate spec f i l = Ok (None, l, []).
Proof.
  intros Hd Hl. revert i. induction Hl as [|x l (fs & -> & Hc) _ IHl]; intros i; simpl; [done|].
  rewrite IH by done. simpl. by rewrite IHl.
Qed.

Lemma check_property_complete spec f v :
  (jdepth (JObj spec) <= fuel)%nat -> typed spec v ->
  check_property float_str cfg validate spec f v = Ok (None, v, []).
Proof.
  intros Hd Ht. unfold check_property.
  inversion Ht as [? ? E Hv|? ? E Hv|? ? E Hv|? ? E Hv|? l E Hl|? fs E Hc|? ? E]; subst.
  - rewrite E. by destruct v.
  - destruct (type_is "integer" spec) eqn:E1; [|rewrite E; by destruct v].
    by rewrite !(type_is_excl _ _ _ E1) in E.
  - rewrite !(type_is_excl _ _ _ E) by done. simpl. rewrite E. by destruct v.
  - rewrite !(type_is_excl _ _ _ E) by done. simpl. rewrite E. by destruct v.
  - rewrite !(type_is_excl _ _ _ E) by done. simpl. rewrite E.
    destruct (od_get "items" spec) as [[| | | | | |item]|] eqn:Ei; try done.
    destruct (type_is "object" item) eqn:Eo; [|done]. rewrite check_items_complete; [done | | by apply Hl].
    apply jdepth_get in Ei. lia.
  - rewrite !(type_is_excl _ _ _ E) by done. simpl. rewrite E.
    destruct (has "properties" spec || has "required" spec); [|done]. by rewrite IH by auto.
  - unfold known_type in E. simpl in E. rewrite !orb_false_iff in E. destruct_and!.
    by repeat match goal with H : type_is _ _ = false |- _ => rewrite H; clear H end.
Qed.
End complete_level.

Lemma check_properties_complete validate fuel prefix ps t :
  (forall t s p, (jdepth (JObj s) <= fuel)%nat -> conforms s t -> validate t s p = Ok (None, t, [])) ->
  (jdepth (JObj ps) <= S fuel)%nat ->
  (forall name spec val, (name, spec) ∈ ps -> od_get name t = Some val -> exists sp, spec = JObj sp /\ typed sp val) ->
  check_properties float_str cfg validate prefix ps t = Ok (None, t, []).
Proof.
  intros IH. induction ps as [|[name spec] ps IHp]; intros Hd Ht; simpl; [done|].
  assert (jdepth spec <= fuel /\ jdepth (JObj ps) <= S fuel)%nat as [Hs Hp] by (simpl in *; lia).
  assert (Hps : check_properties float_str cfg validate prefix ps t = Ok (None, t, [])).
  { apply IHp; [done|]. intros n s v Hin. apply Ht. set_solver. }
  destruct (od_get name t) as [v|] eqn:Eg; [|done].
  destruct (Ht name spec v) as (sp & -> & Hty); [set_solver | done|]. simpl.
  rewrite (check_property_complete validate fuel) by done. simpl. rewrite od_set_same by done. by rewrite Hps.
Qed.

Lemma validate_schema_complete fuel t s p :
  (jdepth (JObj s) <= fuel)%nat -> conforms s t -> validates fuel t s p = Ok (None, t, []).
Proof.
  revert t s p. induction fuel as [|fuel IH]; intros t s p Hd Hc; [pose proof (jdepth_pos s); lia|].
  inversion Hc as [? ? req ps Hr Hreq Hps Ha Ht]; subst. simpl. rewrite Hr. simpl. rewrite missing_nil_ok by done. simpl.
  assert (Hx : match od_get "additionalProperties" s with
               | Some (JBool false) => extra_keys (od_keys t) (default (JObj []) (od_get "properties" s))
               | _ => Ok [] end = Ok []).
  { rewrite Hps. destruct (od_get "additionalProperties" s) as [[|[]| | | | |]|]; try done. by apply extra_nil, Ha. }
  rewrite Hx, Hps. simpl. destruct (od_get "properties" s) as [pj|] eqn:Ep; simpl in Hps; simplify_eq; [|done].
  apply check_properties_complete with (fuel := fuel); [|by apply jdepth_get in Ep; lia | done].
  intros t' s' p' Hd' Hc'. apply IH; [lia | done].
Qed.

(** ** The fuel is enough: more of it changes nothing *)

Section fuel_level.
Context (v1 v2 : fields -> fields -> string -> res exn (option validation_error * fields * list string)) (d : nat).
Hypothesis Hv : forall t s p, (jdepth (JObj s) <= d)%nat -> v1 t s p = v2 t s p.

Lemma check_items_fuel spec f i l : (jdepth (JObj spec) <= d)%nat -> check_items v1 spec f i l = check_items v2 spec f i l.
Proof.
  intros Hd. revert i. induction l as [|x l IHl]; intros i; simpl; [done|]. destruct x; try done.
  rewrite Hv by done. by destruct (v2 _ _ _) as [[[[?|] ?] ?]|]; simpl; rewrite ?IHl.
Qed.

Lemma check_property_fuel spec f v : (jdepth (JObj spec) <= d)%nat ->
  check_property float_str cfg v1 spec f v = check_property float_str cfg v2 spec f v.
Proof.
  intros Hd. unfold check_property. repeat case_match; try done; subst; [|by rewrite Hv].
  rewrite check_items_fuel; [done|]. match goal with H : od_get "items" spec = _ |- _ => apply jdepth_get in H end. lia.
Qed.

Lemma check_properties_fuel prefix ps t : (jdepth (JObj ps) <= S d)%nat ->
  check_properties float_str cfg v1 prefix ps t = check_properties float_str cfg v2 prefix ps t.
Proof.
  revert t. induction ps as [|[name spec] ps IHp]; intros t Hd; simpl; [done|].
  assert (jdepth spec <= d /\ jdepth (JObj ps) <= S d)%nat as [Hs Hp] by (simpl in *; lia).
  destruct (od_get name t) as [v|]; [|by apply IHp]. destruct spec as [| | | | | |sp]; try done. simpl.
  rewrite check_property_fuel by done.
  destruct (check_property float_str cfg v2 sp _ v) as [[[[?|] ?] ?]|]; simpl; [done| |done]. by rewrite IHp.
Qed.
End fuel_level.

Lemma validate_schema_fuel f1 f2 t s p :
  (jdepth (JObj s) <= f1)%nat -> (jdepth (JObj s) <= f2)%nat -> validates f1 t s p = validates f2 t s p.
Proof.
  revert f2 t s p. induction f1 as [|f1 IH]; intros f2 t s p H1 H2; [pose proof (jdepth_pos s); lia|].
  destruct f2 as [|f2]; [pose proof (jdepth_pos s); lia|]. simpl.
  destruct (iterate _) as [req|]; [|done]. simpl. destruct (missing_keys req t) as [[|]|]; try done. simpl.
  destruct (match od_get "additionalProperties" s with Some (JBool false) => _ | _ => _ end) as [[|]|]; try done. simpl.
  destruct (od_get "properties" s) as [pj|] eqn:Ep; [|done]. simpl. destruct pj as [| | | | | |ps]; try done. simpl.
  apply jdepth_get in Ep. apply check_properties_fuel with (d := Nat.min f1 f2); [|lia].
  intros t' s' p' Hd. apply IH; lia.
Qed.

(** ** Whole calls *)

Context (json_dumps : json -> string) (json_loads_lax literal_eval : string -> option json).
Abbreviation call := (validate_tool_call json_dumps json_loads_lax literal_eval float_str cfg).

Lemma unwrap_spec ws props args args' norms :
  unwrap ws props args = Ok (args', norms) ->
  (args' = args /\ norms = []) \/ (exists w, w ∈ ws /\ args = [(w, JObj args')] /\ norms <> []).
Proof.
  induction ws as [|w ws IH]; simpl; [intros; simplify_eq; by left|].
  assert (Hrec : unwrap ws props args = Ok (args', norms) ->
    (args' = args /\ norms = []) \/ (exists w', w' ∈ w :: ws /\ args = [(w', JObj args')] /\ norms <> [])).
  { intros H. destruct (IH H) as [?|(w' & ? & ?)]; [by left | right; exists w'; split; [set_solver | done]]. }
  destruct args as [|[k v] [|]]; try done; [destruct v; try done|by destruct v].
  destruct (String.eqb_spec k w) as [->|]; [|done]. destruct (str_in w props) as [[]|]; simpl; try done.
  intros. simplify_eq. right. exists w. split; [set_solver | done].
Qed.

Lemma call_executable tool arguments schema known r :
  call tool arguments schema known = Ok r -> is_executable r = true ->
  exists args0 norms0, parse_arguments json_loads_lax literal_eval cfg arguments = (Some args0, norms0) /\
    (forall ks, known = Some ks -> tool ∈ ks) /\
    ((schema_params_of schema = Ok None /\ validated_arguments r = args0 /\ normalizations_applied r = norms0) \/
     exists spf args norms1 norms2, schema_params_of schema = Ok (Some (JObj spf)) /\
       ((args = args0 /\ norms1 = []) \/ (exists w, w ∈ ["parameters"; "arguments"; "input"] /\ args0 = [(w, JObj args)] /\ norms1 <> [])) /\
       validates (jdepth (JObj spf)) args spf "" = Ok (None, validated_arguments r, norms2) /\
       normalizations_applied r = norms0 ++ norms1 ++ norms2) /\
    tv_error r = None /\ (tv_status r = VALID <-> normalizations_applied r = []).
Proof.
  unfold validate_tool_call. intros Hc Hx.
  destruct (match known with Some ks => negb (existsb (String.eqb tool) ks) | None => false end) eqn:Ek; [by simplify_eq|].
  destruct (parse_arguments _ _ _ _) as [[args0|] norms0] eqn:Ep; [|by destruct (strict cfg || _); simplify_eq].
  exists args0, norms0. split; [done|]. split.
  { intros ks ->. apply negb_false_iff, existsb_exists in Ek as (x & Hin & ->%String.eqb_eq). by apply list_elem_of_In. }
  destruct (schema_params_of schema) as [[sp|]|] eqn:Es; [| |done]; cbn [res_bind] in Hc; cycle 1.
  { injection Hc as <-. cbn [validated_arguments normalizations_applied tv_error tv_status]. split; [by left|]. split; [done|]. by destruct norms0. }
  destruct (if allow_syntactic_repairs cfg then _ else _) as [[args norms1]|] eqn:Eu; [|done]. cbn [res_bind] in Hc.
  destruct (as_object sp) as [spf|] eqn:Ea; [|done]. cbn [res_bind] in Hc. destruct sp as [| | | | | |sp']; try done. cbn [as_object] in Ea. assert (sp' = spf) as -> by congruence. clear Ea.
  destruct (validates _ args spf "") as [[[[e|] args'] norms2]|] eqn:Ev; cbn [res_bind] in Hc; [by simplify_eq | | done].
  injection Hc as <-. cbn [validated_arguments normalizations_applied tv_error tv_status].
  split; [|split; [done | by destruct (norms0 ++ norms1 ++ norms2)]]. right. exists spf, args, norms1, norms2.
  split_and!; [done | | done | done].
  destruct (allow_syntactic_repairs cfg); [|injection Eu as <- <-; by left].
  cbn [as_object res_bind] in Eu. by apply unwrap_spec in Eu.
Qed.
End props.

Lemma jwf_params schema sp : (forall s, schema = Some s -> jwf s) -> schema_params_of schema = Ok (Some sp) -> jwf sp.
Proof.
  unfold schema_params_of. destruct schema as [s|]; [|done]. intros Hw. specialize (Hw s eq_refl).
  destruct (jtruthy s); [|done]. destruct s as [| | | | | |fs]; try done. cbn [as_object res_bind].
  destruct (od_get "parameters" fs) as [p|] eqn:E; [destruct (jtruthy p)|]; intros; simplify_eq; [by eapply jwf_get | done..].
Qed.

(** C10: executable means valid in the validator's dialect of JSON Schema.
    Whenever the validator reports a call as executable, the tool is in the
    catalogue, no error is attached, and the arguments it hands on satisfy
    [conforms] for the tool's schema: every required argument is present, no
    undeclared one where the schema closes the object, and every declared argument
    has its declared type (booleans counting as integers and numbers), through
    nested objects and arrays of objects; the items of other arrays, [enum] and
    ranges are not part of the dialect.  The call is VALID rather than NORMALIZED
    exactly when nothing was rewritten. *)
Theorem executable_conforms json_dumps loads leval float_str cfg tool arguments schema known r :
  (forall s, schema = Some s -> jwf s) ->
  validate_tool_call json_dumps loads leval float_str cfg tool arguments schema known = Ok r -> is_executable r = true ->
  (forall ks, known = Some ks -> tool ∈ ks) /\ tv_error r = None /\
  (forall sp, schema_params_of schema = Ok (Some sp) -> exists spf, sp = JObj spf /\ conforms spf (validated_arguments r)) /\
  (tv_status r = VALID <-> normalizations_applied r = []).
Proof.
  intros Hw Hc Hx. destruct (call_executable _ _ _ _ _ _ _ _ _ _ Hc Hx) as (args0 & n0 & _ & Hk & Hs & He & Hv).
  split; [done|]. split; [done|]. split; [|done]. intros sp Hsp.
  destruct Hs as [(Hn & _)|(spf & args & n1 & n2 & Hs & _ & Hval & _)]; [congruence|]. exists spf.
  rewrite Hs in Hsp. injection Hsp as <-. split; [done|].
  destruct (validate_schema_good _ _ _ _ _ _ _ Hval (jwf_params _ _ Hw Hs)) as (_ & _ & Hconf). by apply Hconf.
Qed.

(** Only syntax is repaired.  For arguments given as a dictionary, what an
    executable report hands on is that dictionary, or the dictionary inside one
    [parameters]/[arguments]/[input] envelope, with exactly its keys: nothing is
    invented or dropped, and each value is the original or a rereading of a
    scalar (a numeral, a boolean word, a scalar as text), recursively. *)
Theorem repairs_are_syntactic json_dumps loads leval float_str cfg tool args schema known r :
  (forall s, schema = Some s -> jwf s) ->
  validate_tool_call json_dumps loads leval float_str cfg tool (JObj args) schema known = Ok r -> is_executable r = true ->
  exists base, (base = args \/ exists w, w ∈ ["parameters"; "arguments"; "input"] /\ args = [(w, JObj base)]) /\
    od_keys (validated_arguments r) = od_keys base /\
    repaired float_str (JObj base) (JObj (validated_arguments r)) /\
    (tv_status r = VALID -> validated_arguments r = args).
Proof.
  intros Hw Hc Hx. destruct (call_executable _ _ _ _ _ _ _ _ _ _ Hc Hx) as (args0 & n0 & Hp & _ & Hs & _ & Hv).
  simpl in Hp. simplify_eq. destruct Hs as [(_ & -> & _)|(spf & base & n1 & n2 & Hs & Hb & Hval & Hn)].
  { exists args0. split_and!; [by left | done | constructor | done]. }
  exists base. destruct (validate_schema_good _ _ _ _ _ _ _ Hval (jwf_params _ _ Hw Hs)) as (Hr & Hun & _).
  split_and!; [naive_solver | by inversion Hr | done |].
  intros Hst%Hv. rewrite Hst in Hn. symmetry in Hn. apply app_eq_nil in Hn as [_ [-> ->]%app_eq_nil].
  rewrite Hun by done. naive_solver.
Qed.

(** Conforming calls pass untouched.  A call of a known tool whose
    arguments already conform to its schema (and are not themselves an
    envelope) is reported VALID with the very same arguments, whatever the
    validator's settings: validation never rejects or rewrites a good call. *)
Theorem conforming_call_untouched json_dumps loads leval float_str cfg tool args schema spf known :
  (forall ks, known = Some ks -> tool ∈ ks) ->
  schema_params_of (Some schema) = Ok (Some (JObj spf)) -> conforms spf args ->
  (forall w inner, args = [(w, JObj inner)] -> w ∉ ["parameters"; "arguments"; "input"]) ->
  exists r, validate_tool_call json_dumps loads leval float_str cfg tool (JObj args) (Some schema) known = Ok r /\
    tv_status r = VALID /\ validated_arguments r = args /\ normalizations_applied r = [].
Proof.
  intros Hk Hs Hc Henv. unfold validate_tool_call.
  assert (match known with Some ks => negb (existsb (String.eqb tool) ks) | None => false end = false) as ->.
  { destruct known as [ks|]; [|done]. apply negb_false_iff, existsb_exists. exists tool.
    split; [by apply list_elem_of_In, Hk | by apply String.eqb_eq]. }
  cbn [parse_arguments]. rewrite Hs. cbn [res_bind].
  assert (Hu : (if allow_syntactic_repairs cfg then
     let! spf0 := as_object (JObj spf) in unwrap ["parameters"; "arguments"; "input"] (default (JObj []) (od_get "properties" spf0)) args
     else Ok (args, [])) = Ok (args, [])).
  { destruct (allow_syntactic_repairs cfg); [|done]. cbn [as_object res_bind unwrap].
    destruct args as [|[k v] [|]]; try done; [|by destruct v]. destruct v as [| | | | | |inner]; try done.
    specialize (Henv k inner eq_refl).
    destruct (String.eqb_spec k "parameters"); [set_solver|]. destruct (String.eqb_spec k "arguments"); [set_solver|].
    destruct (String.eqb_spec k "input"); [set_solver | done]. }
  rewrite Hu. cbn [res_bind as_object]. rewrite validate_schema_complete by done. cbn [res_bind]. by eexists.
Qed.

(** A schema with a required integer, a closed nested object and an array of
    objects, a call that needs repairs and one that does not. *)
Module Demo.
Definition obj (fs : fields) : json := JObj fs.
Definition ty (t : string) : fields := [("type", JStr t)].
Definition point : fields :=
  ty "object" ++ [("properties", obj [("x", obj (ty "integer"))]); ("required", JArr [JStr "x"]); ("additionalProperties", JBool false)].
Definition schema : json :=
  obj [("type", JStr "object"); ("properties", obj [("n", obj (ty "integer")); ("at", obj point);
         ("pts", obj (ty "array" ++ [("items", obj point)]))]); ("required", JArr [JStr "n"])].
Definition good : fields := [("n", JInt 3); ("at", obj [("x", JInt 1)]); ("pts", JArr [obj [("x", JInt 2)]])].
Definition sloppy : fields := [("n", JStr "3"); ("at", obj [("x", JStr "1")]); ("pts", JArr [obj [("x", JInt 2)]])].
Definition check (args : fields) : res exn ToolValidationReport :=
  validate_tool_call (fun _ => "") (fun _ => None) (fun _ => None) (fun _ => "") (new_validator true) "move" (obj args)
    (Some schema) (Some ["move"]).
Definition report (st : ToolCallResult) (norms : list string) : ToolValidationReport :=
  {| tv_tool_name := "move"; tv_status := st; validated_arguments := good; tv_raw_arguments := "";
     normalizations_applied := norms; tv_error := None |}.

Example sloppy_repaired : check sloppy = Ok (report NORMALIZED ["coerce_n_str_to_int"; "coerce_at.x_str_to_int"]).
Proof. by vm_compute. Qed.
Example good_untouched : check good = Ok (report VALID []).
Proof. by vm_compute. Qed.
Example missing_rejected : exists r, check [("at", obj [("x", JInt 1)])] = Ok r /\ is_executable r = false /\
  tv_error r = Some (MissingRequired "" [JStr "n"]).
Proof. eexists. by vm_compute. Qed.
Example extra_rejected : exists r, check [("n", JInt 1); ("at", obj [("x", JInt 1); ("y", JInt 2)])] = Ok r /\
  tv_error r = Some (DisallowedExtra "at" ["y"]).
Proof. eexists. by vm_compute. Qed.

(** What lies outside the dialect passes: numbers in an array of strings, a
    boolean for an integer, a value outside its [enum], and one below its minimum. *)
Definition lax_schema : json :=
  obj [("type", JStr "object"); ("properties", obj [("tags", obj (ty "array" ++ [("items", obj (ty "string"))])); ("n", obj (ty "integer"));
         ("mode", obj (ty "string" ++ [("enum", JArr [JStr "r"; JStr "w"])])); ("k", obj (ty "integer" ++ [("minimum", JInt 1)]))])].
Definition odd_call : fields := [("tags", JArr [JInt 1; JInt 2]); ("n", JBool true); ("mode", JStr "x"); ("k", JInt 0)].
Example outside_the_dialect : exists r, validate_tool_call (fun _ => "") (fun _ => None) (fun _ => None) (fun _ => "") (new_validator true)
    "move" (obj odd_call) (Some lax_schema) (Some ["move"]) = Ok r /\
  is_executable r = true /\ tv_status r = VALID /\ validated_arguments r = odd_call.
Proof. eexists. by vm_compute. Qed.

Lemma schema_wf : forall s, Some schema = Some s -> jwf s.
Proof.
  intros s [= <-].
  repeat first [ constructor | match goal with |- _ ∉ _ => vm_compute; set_solver end ].
Qed.

Lemma good_conforms : exists spf, schema = JObj spf /\ conforms spf good.
Proof.
  eexists. split; [reflexivity|].
  eapply (validate_schema_good (fun _ => "") (new_validator true) (jdepth schema) good _ "" (None, good, []));
    [by vm_compute | by apply schema_wf | done].
Qed.
End Demo.

Lemma executable_conforms_witness : exists spf, Demo.schema = JObj spf /\ conforms spf Demo.good.
Proof.
  exact (proj1 (proj2 (proj2 (executable_conforms _ _ _ _ _ _ _ _ _ _ Demo.schema_wf Demo.sloppy_repaired eq_refl))) Demo.schema eq_refl).
Defined.

Lemma repairs_are_syntactic_witness :
  exists base, (base = Demo.sloppy \/ exists w, w ∈ ["parameters"; "arguments"; "input"] /\ Demo.sloppy = [(w, JObj base)]) /\
    od_keys Demo.good = od_keys base /\ repaired (fun _ => "") (JObj base) (JObj Demo.good) /\
    (NORMALIZED = VALID -> Demo.good = Demo.sloppy).
Proof. exact (repairs_are_syntactic _ _ _ _ _ _ _ _ _ _ Demo.schema_wf Demo.sloppy_repaired eq_refl). Defined.

Lemma conforming_call_untouched_witness :
  exists r, Demo.check Demo.good = Ok r /\ tv_status r = VALID /\ validated_arguments r = Demo.good /\ normalizations_applied r = [].
Proof.
  destruct Demo.good_conforms as (spf & Hs & Hc).
  apply (conforming_call_untouched _ _ _ _ _ "move" Demo.good Demo.schema spf).
  - intros ks [= <-]. by constructor.
  - by rewrite <- Hs.
  - exact Hc.
  - intros w inner [=].
Defined.
