(* ===== verification/Execution.v ===== *)
(** * Execution policies, deadlines and the attempt ledger

    [src/durallm/execution/policy.py], [src/durallm/execution/deadline.py],
    [src/durallm/execution/ledger.py], [src/durallm/agent/failover_plan.py] and
    the timeouts record of [src/durallm/providers/base.py].  The executor owns
    one [ExecutionPolicy] object and hands it to the ledger of every request:
    a ledger method that assigns to the policy changes it for all of them, so
    the policy is part of the state the methods act on. *)

From stdpp Require Import base tactics list strings.
From Stdlib Require Import QArith Qround Lqa.
From S2P Require Import Prelude Models PyText.

(** ** Policies *)

Record RetryPolicy : Type := {
  max_attempts_same_endpoint : nat;
  base_backoff_ms : Q;
  max_backoff_ms : Q;
  jitter : bool;
  retry_on_status : list Z;
}.

Record FallbackPolicy : Type := {
  max_fallback_hops : nat;
  require_capability_match : bool;
  avoid_same_provider : bool;
  avoid_recent_failure : bool;
}.

Record ExecutionPolicy : Type := {
  retry : RetryPolicy;
  fallback : FallbackPolicy;
  max_total_attempts : nat;
}.

Definition default_retry : RetryPolicy :=
  {| max_attempts_same_endpoint := 2; base_backoff_ms := 200; max_backoff_ms := 3000; jitter := true;
     retry_on_status := [408; 429; 500; 502; 503; 504; 529; 599]%Z |}.
Definition default_fallback : FallbackPolicy :=
  {| max_fallback_hops := 8; require_capability_match := true; avoid_same_provider := false;
     avoid_recent_failure := true |}.
Definition default_policy : ExecutionPolicy :=
  {| retry := default_retry; fallback := default_fallback; max_total_attempts := 12 |}.

(** [random.uniform(a, b)] for a draw [u] of [random.random()]. *)
Definition uniform (u a b : Q) : Q := (a + (b - a) * u)%Q.

(** [compute_backoff_seconds]; [u] is the draw used when jitter is on. *)
Definition compute_backoff_seconds (u : Q) (p : RetryPolicy) (attempt_index : Z) (retry_after : option Q) : Q :=
  let exp := (base_backoff_ms p * inject_Z (2 ^ Z.max 0 (attempt_index - 1)))%Q in
  let capped := py_min (max_backoff_ms p) exp in
  let backoff := if jitter p then (uniform u (base_backoff_ms p) capped / 1000)%Q else (capped / 1000)%Q in
  match retry_after with
  | Some r => if 0 ≺ r then r else backoff
  | None => backoff
  end.

(** ** Deadlines *)

Record Deadline : Type := {
  total_timeout_ms : Q;
  connect_timeout_ms : Q;
  tls_timeout_ms : Q;
  ttft_timeout_ms : Q;
  idle_stream_timeout_ms : Q;
  per_attempt_timeout_ms : Q;
  start_time_monotonic : Q;
}.

Record TransportTimeouts : Type := {
  tt_connect_timeout_ms : Q;
  tt_tls_timeout_ms : Q;
  tt_first_byte_timeout_ms : Q;
  tt_idle_timeout_ms : Q;
  tt_total_timeout_ms : Q;
}.

(** [TransportTimeouts.__post_init__]: every field must be positive. *)
Definition make_transport_timeouts {S} (t : TransportTimeouts) : M exn S TransportTimeouts :=
  if forallb (fun v => negb (v ⪯ 0))
       [tt_connect_timeout_ms t; tt_tls_timeout_ms t; tt_first_byte_timeout_ms t; tt_idle_timeout_ms t;
        tt_total_timeout_ms t]
  then mret t else raise (ValueError "must be greater than zero").

Section deadline.
Context (clock : nat -> Q) (environ : string -> option string).

(** [os.environ.get(k)], with an empty value falsy. *)
Definition env_or (k1 k2 : string) : option string :=
  match environ k1 with
  | Some v => if truthy v then Some v else environ k2
  | None => environ k2
  end.
Definition env_ms (v : option string) (dflt : Q) : Q :=
  match v with
  | Some s => if truthy s then match py_float s with Some q => (q * 1000)%Q | None => dflt end else dflt
  | None => dflt
  end.

(** [Deadline(total_timeout_ms=...)], [__post_init__] included. *)
Definition new_deadline {S} (total : Q) : M exn S Deadline :=
  start ← read_clock clock;
  mret {| total_timeout_ms := env_ms (environ "LLM_TOTAL_TIMEOUT") total;
          connect_timeout_ms := 10000; tls_timeout_ms := 10000; ttft_timeout_ms := 60000;
          idle_stream_timeout_ms := 35000;
          per_attempt_timeout_ms := env_ms (env_or "GATEWAY_TIMEOUT" "LLM_ATTEMPT_TIMEOUT") 120000;
          start_time_monotonic := start |}.

Definition elapsed_at (d : Deadline) (now : Q) : Q := py_max 0 ((now - start_time_monotonic d) * 1000).
Definition remaining_at (d : Deadline) (now : Q) : Q := py_max 0 (total_timeout_ms d - elapsed_at d now).

Definition elapsed_ms {S} (d : Deadline) : M exn S Q := now ← read_clock clock; mret (elapsed_at d now).
Definition remaining_ms {S} (d : Deadline) : M exn S Q :=
  e ← elapsed_ms d; mret (py_max 0 (total_timeout_ms d - e)).
Definition is_expired {S} (d : Deadline) : M exn S bool := r ← remaining_ms d; mret (r ⪯ 0).

Definition check {S} (d : Deadline) : M exn S unit :=
  x ← is_expired d;
  if x : bool then
    _ ← elapsed_ms d;
    e ← elapsed_ms d;
    raise (DeadlineExceededError (total_timeout_ms d) e)
  else mret tt.

(** The attempt timeout before it is clipped to the remaining deadline. *)
Definition target_seconds (base_sec : Q) (provider : string) (estimated_input_tokens : Z) : Q :=
  let p := py_lower provider in
  let target_sec :=
    if existsb (String.eqb p) ["nvidia"; "sambanova"; "cerebras"]
    then py_min 90 (py_max base_sec (if 45 ⪯ base_sec then 45 else base_sec))
    else if String.eqb p "groq" then py_min 35 base_sec
    else base_sec in
  if 30 ⪯ base_sec then
    if (16000 <? estimated_input_tokens)%Z then py_min (target_sec + 25) 90
    else if (8000 <? estimated_input_tokens)%Z then py_min (target_sec + 15) 75
    else target_sec
  else target_sec.

Definition per_attempt_timeout_for_provider {S} (d : Deadline) (provider : option string)
    (estimated_input_tokens : Z) : M exn S Q :=
  check d ;;
  rem ← remaining_ms d;
  let rem_seconds := (rem / 1000)%Q in
  let base_sec := (per_attempt_timeout_ms d / 1000)%Q in
  mret (py_max (1 # 10)
    (py_min (target_seconds base_sec (default "" provider) estimated_input_tokens) rem_seconds)).

Definition transport_timeouts {S} (d : Deadline) (streaming : bool) : M exn S TransportTimeouts :=
  check d ;;
  rem ← remaining_ms d;
  let total := if streaming then rem else py_min rem (per_attempt_timeout_ms d) in
  let bounded_total := py_max 1 total in
  make_transport_timeouts
    {| tt_connect_timeout_ms := py_min (connect_timeout_ms d) bounded_total;
       tt_tls_timeout_ms := py_min (tls_timeout_ms d) bounded_total;
       tt_first_byte_timeout_ms := py_min (ttft_timeout_ms d) bounded_total;
       tt_idle_timeout_ms := py_min (idle_stream_timeout_ms d) bounded_total;
       tt_total_timeout_ms := bounded_total |}.
End deadline.

(** ** The attempt ledger *)

Record FailoverPlan : Type := {
  fp_request_id : string;
  fp_source_endpoint : option string;
  fp_target_endpoint : string;
  fp_failover_reason : string;
  fp_context_tokens_before : Z;
  fp_context_tokens_after : Z;
  fp_context_compaction_applied : bool;
  fp_remaining_deadline_ms : Q;
}.

Record AttemptLedger : Type := {
  attempts : list AttemptRecord;
  endpoints_attempted : list string;
  endpoint_counts : odict string nat;
  fallback_count : nat;
  accumulated_cost_usd : Q;
  failover_plans : list FailoverPlan;
}.

(** The executor's policy object and one request's ledger. *)
Record LedgerState : Type := { policy : ExecutionPolicy; led : AttemptLedger }.

(** [AttemptLedger(policy)] *)
Definition new_attempt_ledger : AttemptLedger :=
  {| attempts := []; endpoints_attempted := []; endpoint_counts := []; fallback_count := 0;
     accumulated_cost_usd := 0; failover_plans := [] |}.

Local Abbreviation L := (M exn LedgerState).

Definition upd_led (f : AttemptLedger -> AttemptLedger) : L unit :=
  modify (fun s => {| policy := policy s; led := f (led s) |}).

Definition record_failover_plan (plan : FailoverPlan) : L unit := upd_led (fun l =>
  {| attempts := attempts l; endpoints_attempted := endpoints_attempted l; endpoint_counts := endpoint_counts l;
     fallback_count := fallback_count l; accumulated_cost_usd := accumulated_cost_usd l;
     failover_plans := failover_plans l ++ [plan] |}).

Definition add_cost (cost_usd : Q) : L unit := upd_led (fun l =>
  {| attempts := attempts l; endpoints_attempted := endpoints_attempted l; endpoint_counts := endpoint_counts l;
     fallback_count := fallback_count l; accumulated_cost_usd := accumulated_cost_usd l + py_max 0 cost_usd;
     failover_plans := failover_plans l |}).

Definition total_attempts (l : AttemptLedger) : nat := length (attempts l).

(** [attempts_on] *)
Definition attempts_on (endpoint_id : string) (l : AttemptLedger) : nat :=
  default 0%nat (od_get endpoint_id (endpoint_counts l)).

Definition record_attempt (record : AttemptRecord) : L unit := upd_led (fun l =>
  let ep := ar_endpoint_id record in
  {| attempts := attempts l ++ [record]; endpoints_attempted := endpoints_attempted l ++ [ep];
     endpoint_counts := od_set ep (attempts_on ep l + 1)%nat (endpoint_counts l);
     fallback_count := fallback_count l; accumulated_cost_usd := accumulated_cost_usd l;
     failover_plans := failover_plans l |}).

Definition can_attempt_endpoint (endpoint_id : string) (s : LedgerState) : bool :=
  if (max_total_attempts (policy s) <=? total_attempts (led s))%nat then false
  else if (max_attempts_same_endpoint (retry (policy s)) <=? attempts_on endpoint_id (led s))%nat then false
  else true.

(** [validate_next_candidate] *)
Definition validate_next_candidate (endpoint_id : string) : L unit :=
  s ← get;
  let h := endpoints_attempted (led s) in
  if (max_total_attempts (policy s) <=? total_attempts (led s))%nat
  then raise (RetryBudgetExhaustedError (max_total_attempts (policy s)))
  else if (max_fallback_hops (fallback (policy s)) <=? fallback_count (led s))%nat
  then raise (FallbackBudgetExhaustedError (max_fallback_hops (fallback (policy s))))
  else if (2 <=? length h)%nat &&
          negb (bool_decide (last h = Some endpoint_id)) && existsb (String.eqb endpoint_id) (removelast h)
  then raise (CycleDetectedError endpoint_id h)
  else mret tt.

Definition mark_fallback : L unit := upd_led (fun l =>
  {| attempts := attempts l; endpoints_attempted := endpoints_attempted l; endpoint_counts := endpoint_counts l;
     fallback_count := S (fallback_count l); accumulated_cost_usd := accumulated_cost_usd l;
     failover_plans := failover_plans l |}).

(** [reset_for_rate_limit_retry]: the last statement assigns to the shared policy. *)
Definition reset_for_rate_limit_retry (endpoint_ids : list string) : L unit :=
  upd_led (fun l =>
    {| attempts := attempts l;
       endpoints_attempted := filter (fun ep => ep ∉ endpoint_ids) (endpoints_attempted l);
       endpoint_counts := fold_left (fun d ep => od_set ep 0%nat d) endpoint_ids (endpoint_counts l);
       fallback_count := 0; accumulated_cost_usd := accumulated_cost_usd l;
       failover_plans := failover_plans l |}) ;;
  modify (fun s =>
    if (max_total_attempts (policy s) <=? total_attempts (led s))%nat
    then {| policy := {| retry := retry (policy s); fallback := fallback (policy s);
                         max_total_attempts := total_attempts (led s) + length endpoint_ids * 2 |};
            led := led s |}
    else s).

(** ** Bounds of the execution policies

    Backoff and timeout bounds, deadlines that stay expired, and the loop
    protection of the attempt ledger. *)
Module ExecutionProps.

(** ** Backoff *)

Lemma pow2_ge1 z : (1 <= inject_Z (2 ^ Z.max 0 z))%Q.
Proof.
  change 1%Q with (inject_Z 1). rewrite <- Zle_Qle.
  pose proof (Z.pow_pos_nonneg 2 (Z.max 0 z)). lia.
Qed.

Lemma backoff_capped_bounds p i :
  (0 <= base_backoff_ms p)%Q -> (base_backoff_ms p <= max_backoff_ms p)%Q ->
  let capped := py_min (max_backoff_ms p) (base_backoff_ms p * inject_Z (2 ^ Z.max 0 (i - 1))) in
  (base_backoff_ms p <= capped <= max_backoff_ms p)%Q.
Proof.
  intros Hb Hm capped. split; [|apply py_min_le_l]. apply py_min_glb; [done|].
  pose proof (pow2_ge1 (i - 1)). nra.
Qed.

Lemma uniform_bounds u a b : (0 <= u <= 1)%Q -> (a <= b)%Q -> (a <= uniform u a b <= b)%Q.
Proof. unfold uniform. intros. nra. Qed.

Lemma Qdiv1000 x : (x / 1000 == x * (1 # 1000))%Q.
Proof. reflexivity. Qed.

(** Backoff is bounded.  For a policy whose base delay is between 0 and its
    maximum, every computed wait lies between the base and the maximum, for any
    attempt number and any random draw; a positive Retry-After replaces it. *)
Theorem backoff_bounds u p i ra :
  (0 <= u <= 1)%Q -> (0 <= base_backoff_ms p)%Q -> (base_backoff_ms p <= max_backoff_ms p)%Q ->
  let w := compute_backoff_seconds u p i ra in
  match ra with
  | Some r => if 0 ≺ r then w = r else (base_backoff_ms p / 1000 <= w <= max_backoff_ms p / 1000)%Q
  | None => (base_backoff_ms p / 1000 <= w <= max_backoff_ms p / 1000)%Q
  end.
Proof.
  intros Hu Hb Hm w. pose proof (backoff_capped_bounds p i Hb Hm) as Hc. cbv zeta in Hc.
  assert (forall x, (base_backoff_ms p <= x <= max_backoff_ms p)%Q ->
    (base_backoff_ms p / 1000 <= x / 1000 <= max_backoff_ms p / 1000)%Q) as Hdiv
    by (intros x Hx; rewrite !Qdiv1000; lra).
  assert ((base_backoff_ms p / 1000 <= compute_backoff_seconds u p i None <= max_backoff_ms p / 1000)%Q) as Hn.
  { unfold compute_backoff_seconds. destruct (jitter p); apply Hdiv; [|exact Hc].
    destruct Hc as [H1 H2]. pose proof (uniform_bounds u _ _ Hu H1). lra. }
  destruct ra as [r|]; [|exact Hn]. unfold w, compute_backoff_seconds. by destruct (0 ≺ r).
Qed.

Lemma backoff_bounds_witness :
  (200 / 1000 <= compute_backoff_seconds (1 # 2) default_retry 7 None <= 3000 / 1000)%Q.
Proof. apply (backoff_bounds (1 # 2) default_retry 7 None); simpl; lra. Defined.

(** ** Deadlines *)

Section deadline_props.
Context (clock : nat -> Q) {S : Type}.
Implicit Types (s : S) (d : Deadline).

Lemma remaining_run d s n : remaining_ms clock d s n = (Ok (remaining_at d (clock n)), s, Datatypes.S n).
Proof. reflexivity. Qed.
Lemma is_expired_run d s n : is_expired clock d s n = (Ok (remaining_at d (clock n) ⪯ 0), s, Datatypes.S n).
Proof. reflexivity. Qed.
Lemma remaining_nonneg d t : (0 <= remaining_at d t)%Q.
Proof. apply py_max_ge_l. Qed.

Lemma check_run d s n :
  check clock d s n =
    if remaining_at d (clock n) ⪯ 0
    then (Raise (DeadlineExceededError (total_timeout_ms d) (elapsed_at d (clock (n + 2)))), s, (n + 3)%nat)
    else (Ok tt, s, (n + 1)%nat).
Proof.
  unfold check. erewrite bind_ok by apply is_expired_run. cbv beta.
  destruct (remaining_at d (clock n) ⪯ 0).
  - cbn. replace (n + 2)%nat with (Datatypes.S (Datatypes.S n)) by lia.
    replace (n + 3)%nat with (Datatypes.S (Datatypes.S (Datatypes.S n))) by lia. done.
  - cbn. by replace (n + 1)%nat with (Datatypes.S n) by lia.
Qed.

Lemma remaining_mono d t t' : (t <= t')%Q -> (remaining_at d t' <= remaining_at d t)%Q.
Proof.
  intros Ht. apply py_max_mono_r.
  enough (elapsed_at d t <= elapsed_at d t')%Q by lra. apply py_max_mono_r. lra.
Qed.
End deadline_props.

(** Deadlines are final.  With a monotone clock, once [check] has raised it
    raises at every later reading, and the remaining budget never grows. *)
Theorem deadline_stays_expired (clock : nat -> Q) d n m :
  (forall i j, (i <= j)%nat -> (clock i <= clock j)%Q) -> (n <= m)%nat ->
  (remaining_at d (clock m) <= remaining_at d (clock n))%Q /\
  (res_ok (out_res (check clock d tt n)) = false -> res_ok (out_res (check clock d tt m)) = false).
Proof.
  intros Hmono Hnm. pose proof (remaining_mono d _ _ (Hmono _ _ Hnm)) as Hr. split; [done|].
  rewrite !check_run. destruct (remaining_at d (clock n) ⪯ 0) eqn:E; [|done]. intros _.
  qbool. rewrite (proj2 (Qle_bool_true (remaining_at d (clock m)) 0)) by lra. done.
Qed.

Definition demo_deadline : Deadline :=
  {| total_timeout_ms := 5000; connect_timeout_ms := 10000; tls_timeout_ms := 10000; ttft_timeout_ms := 60000;
     idle_stream_timeout_ms := 35000; per_attempt_timeout_ms := 120000; start_time_monotonic := 0 |}.

Lemma deadline_stays_expired_witness :
  res_ok (out_res (check Qnat demo_deadline tt 9%nat)) = false.
Proof.
  apply (deadline_stays_expired Qnat demo_deadline 6%nat 9%nat).
  - intros i j Hij. by apply Qnat_le.
  - lia.
  - vm_compute. reflexivity.
Defined.

Lemma target_seconds_small base p tokens : (tokens <= 8000)%Z -> (target_seconds base p tokens <= base)%Q.
Proof.
  intros Hs. unfold target_seconds.
  assert ((16000 <? tokens)%Z = false) as -> by lia. assert ((8000 <? tokens)%Z = false) as -> by lia.
  destruct (existsb (String.eqb (py_lower p)) _), (String.eqb (py_lower p) "groq"); q_solve.
Qed.
Lemma target_seconds_le base p tokens : (target_seconds base p tokens <= py_max 90 base)%Q.
Proof.
  unfold target_seconds.
  destruct (existsb (String.eqb (py_lower p)) _), (String.eqb (py_lower p) "groq"), (16000 <? tokens)%Z, (8000 <? tokens)%Z; q_solve.
Qed.

(** Attempt timeouts respect the deadline.  [per_attempt_timeout_for_provider]
    raises exactly when the deadline has expired at its first reading; otherwise
    it returns at least a tenth of a second and at most what remained at the
    second reading (or that tenth), and never more than the configured ceiling
    unless the input is large, when at most 90 seconds or the ceiling. *)
Theorem attempt_timeout_bounds (clock : nat -> Q) d provider tokens n :
  match out_res (per_attempt_timeout_for_provider clock d provider tokens tt n) with
  | Raise e => remaining_at d (clock n) == 0 /\
      e = DeadlineExceededError (total_timeout_ms d) (elapsed_at d (clock (n + 2)%nat))
  | Ok t => 0 < remaining_at d (clock n) /\ 1 # 10 <= t /\
      t <= py_max (1 # 10) (remaining_at d (clock (n + 1)%nat) / 1000) /\
      t <= py_max (1 # 10) (py_max 90 (per_attempt_timeout_ms d / 1000)) /\
      ((tokens <= 8000)%Z -> t <= py_max (1 # 10) (per_attempt_timeout_ms d / 1000))
  end%Q.
Proof.
  unfold per_attempt_timeout_for_provider. pose proof (remaining_nonneg d (clock n)) as Hr.
  destruct (remaining_at d (clock n) ⪯ 0) eqn:E.
  - erewrite bind_raise by (rewrite check_run, E; reflexivity). unfold out_res. simpl. qbool. split; [lra | done].
  - erewrite bind_ok by (rewrite check_run, E; reflexivity). cbv beta.
    erewrite bind_ok by apply remaining_run. unfold out_res. cbn [fst snd mret M_ret]. qbool.
    set (base := (per_attempt_timeout_ms d / 1000)%Q). set (rem := (remaining_at d (clock (n + 1)%nat) / 1000)%Q).
    assert (target_seconds base (default "" provider) tokens <= py_max 90 base)%Q as Ht.
    { apply target_seconds_le. }
    assert ((tokens <= 8000)%Z -> target_seconds base (default "" provider) tokens <= base)%Q as Ht2.
    { apply target_seconds_small. }
    split_and!; [done | apply py_max_ge_l | | |].
    + clearbody base rem. generalize (target_seconds base (default "" provider) tokens). intros. q_solve.
    + clearbody base rem. generalize dependent (target_seconds base (default "" provider) tokens). intros. clear Ht2 E. revert Ht. q_solve.
    + intros Hs. specialize (Ht2 Hs). clearbody base rem. generalize dependent (target_seconds base (default "" provider) tokens).
      intros. clear Ht E. revert Ht2. q_solve.
Qed.

(** Phase budgets nest.  With positive phase ceilings, [transport_timeouts]
    fails only on an expired deadline; otherwise every phase budget is positive
    and at most the total, and the total is at most what remains (or one
    millisecond), and for a buffered call also at most the attempt ceiling. *)
Theorem transport_budgets_nest (clock : nat -> Q) d streaming n :
  (0 < connect_timeout_ms d)%Q -> (0 < tls_timeout_ms d)%Q -> (0 < ttft_timeout_ms d)%Q ->
  (0 < idle_stream_timeout_ms d)%Q ->
  match out_res (transport_timeouts clock d streaming tt n) with
  | Raise _ => remaining_at d (clock n) == 0
  | Ok t => 0 < remaining_at d (clock n) /\
      Forall (fun v => 0 < v <= tt_total_timeout_ms t)
        [tt_connect_timeout_ms t; tt_tls_timeout_ms t; tt_first_byte_timeout_ms t; tt_idle_timeout_ms t] /\
      1 <= tt_total_timeout_ms t <= py_max 1 (remaining_at d (clock (n + 1)%nat)) /\
      (streaming = false -> tt_total_timeout_ms t <= py_max 1 (per_attempt_timeout_ms d))
  end%Q.
Proof.
  intros Hc Ht Hf Hi. unfold transport_timeouts. pose proof (remaining_nonneg d (clock n)) as Hr.
  destruct (remaining_at d (clock n) ⪯ 0) eqn:E.
  - erewrite bind_raise by (rewrite check_run, E; reflexivity). unfold out_res. simpl. qbool. lra.
  - erewrite bind_ok by (rewrite check_run, E; reflexivity). cbv beta.
    erewrite bind_ok by apply remaining_run. cbv zeta. qbool.
    set (total := py_max 1 (if streaming then _ else _)).
    assert (forall v, 0 < v -> 0 < py_min v total <= total)%Q as Hv.
    { intros v Hv. pose proof (py_max_ge_l 1 (if streaming then remaining_at d (clock (n + 1)%nat)
        else py_min (remaining_at d (clock (n + 1)%nat)) (per_attempt_timeout_ms d))) as H1. fold total in H1.
      clearbody total. q_solve. }
    unfold make_transport_timeouts. cbn [forallb tt_connect_timeout_ms tt_tls_timeout_ms tt_first_byte_timeout_ms
      tt_idle_timeout_ms tt_total_timeout_ms].
    assert (1 <= total)%Q as H1 by apply py_max_ge_l.
    rewrite !(fun v => proj2 (Qle_bool_false v 0)) by (first [apply Hv; done | lra]).
    unfold out_res. cbn. split; [done|]. split; [by repeat constructor; apply Hv|].
    split; [split; [done|]; apply py_max_mono_r; destruct streaming; [apply Qle_refl | apply py_min_le_l]|].
    intros ->. apply py_max_mono_r, py_min_le_r.
Qed.

Lemma transport_budgets_nest_witness :
  res_ok (out_res (transport_timeouts Qnat demo_deadline false tt 3%nat)) = true.
Proof.
  pose proof (transport_budgets_nest Qnat demo_deadline false 3%nat ltac:(simpl; lra) ltac:(simpl; lra)
    ltac:(simpl; lra) ltac:(simpl; lra)) as H.
  destruct (out_res (transport_timeouts Qnat demo_deadline false tt 3%nat)); [reflexivity|].
  exfalso. vm_compute in H. discriminate.
Defined.

(** The enterprise tier is no higher.  For the providers the code singles
    out as needing higher ceilings, the attempt timeout is never above the one
    of an unlisted provider with the same configuration. *)
Theorem enterprise_tier_never_higher base p tokens :
  existsb (String.eqb (py_lower p)) ["nvidia"; "sambanova"; "cerebras"] = true ->
  (target_seconds base p tokens <= target_seconds base "" tokens)%Q.
Proof.
  intros Hp. unfold target_seconds. rewrite Hp. simpl.
  destruct (16000 <? tokens)%Z, (8000 <? tokens)%Z; q_solve.
Qed.

Lemma enterprise_tier_never_higher_witness :
  (target_seconds 120 "NVIDIA" 0 <= target_seconds 120 "" 0)%Q.
Proof. apply enterprise_tier_never_higher. reflexivity. Defined.

(** ** The attempt ledger *)

(** No endpoint is revisited after another one was tried. *)
Definition no_return (h : list string) : Prop := forall a b, a <> b -> ~ sublist [a; b; a] h.

(** The counters agree with the history. *)
Definition counts_agree (l : AttemptLedger) : Prop :=
  (forall ep, attempts_on ep l = length (filter (eq ep) (endpoints_attempted l))) /\
  (length (endpoints_attempted l) <= total_attempts l)%nat.

Lemma no_return_sublist h h' : sublist h' h -> no_return h -> no_return h'.
Proof. intros Hs Hn a b Hab Hc. apply (Hn a b Hab). by etrans. Qed.

Lemma sublist_snoc_inv {A} (l k : list A) (x y : A) : sublist (l ++ [x]) (k ++ [y]) -> sublist (l ++ [x]) k \/ x = y /\ sublist l k.
Proof.
  intros (l1 & l2 & Heq & H1 & H2)%sublist_app_r.
  apply sublist_cons_r in H2 as [H2|(l' & -> & H2)]; apply sublist_nil_r in H2; subst.
  - left. by rewrite app_nil_r in Heq; subst.
  - apply app_inj_tail in Heq as [-> ->]. right. done.
Qed.

Lemma no_return_snoc h ep :
  no_return h ->
  ((2 <= length h)%nat -> last h <> Some ep -> ep ∉ removelast h) ->
  no_return (h ++ [ep]).
Proof.
  intros Hn Hv a b Hab Hs. change [a; b; a] with ([a; b] ++ [a]) in Hs.
  apply sublist_snoc_inv in Hs as [Hs|[-> Hs]]; [by apply (Hn a b)|].
  destruct h as [|x h _] using rev_ind; [by apply sublist_nil_r in Hs|].
  rewrite last_snoc, removelast_last in Hv.
  pose proof (sublist_length _ _ Hs) as Hl. simpl in Hl.
  destruct (decide (x = ep)) as [->|Hx].
  - change [ep; b] with ([ep] ++ [b]) in Hs. apply sublist_snoc_inv in Hs as [Hs|[-> _]]; [|done].
    apply (Hn ep b Hab). change [ep; b; ep] with (([ep] ++ [b]) ++ [ep]). by apply sublist_app.
  - apply Hv; [done | congruence|]. change [ep; b] with ([ep] ++ [b]) in Hs.
    assert (sublist [ep] h) as Hin.
    { apply sublist_snoc_inv in Hs as [Hs|[_ Hs]]; [|done]. etrans; [|exact Hs]. by apply sublist_inserts_r. }
    eapply elem_of_sublist; [|exact Hin]. by apply list_elem_of_singleton.
Qed.

(** A step of a request: an attempt on an endpoint the ledger has just
    validated, or one of the other calls the executor makes. *)
Inductive ledger_op : Type :=
| LAttempt (r : AttemptRecord)
| LFallback
| LCost (c : Q)
| LPlan (p : FailoverPlan)
| LReset (eps : list string).

Definition run_ledger (o : ledger_op) (s : LedgerState) (n : nat) : res exn unit * LedgerState * nat :=
  match o with
  | LAttempt r => (validate_next_candidate (ar_endpoint_id r) ;; record_attempt r) s n
  | LFallback => mark_fallback s n
  | LCost c => add_cost c s n
  | LPlan p => record_failover_plan p s n
  | LReset eps => reset_for_rate_limit_retry eps s n
  end.
Definition run_ledgers (os : list ledger_op) (s : LedgerState) : LedgerState :=
  fold_left (fun s o => out_st (run_ledger o s 0%nat)) os s.

Definition ledger_inv (l : AttemptLedger) : Prop := no_return (endpoints_attempted l) /\ counts_agree l.

Lemma validate_ok ep s n :
  res_ok (out_res (validate_next_candidate ep s n)) = true ->
  (total_attempts (led s) < max_total_attempts (policy s))%nat /\
  ((2 <= length (endpoints_attempted (led s)))%nat -> last (endpoints_attempted (led s)) <> Some ep ->
    ep ∉ removelast (endpoints_attempted (led s))).
Proof.
  unfold validate_next_candidate. mstep. destruct (_ <=? total_attempts _)%nat eqn:E1; [done|].
  destruct (_ <=? fallback_count _)%nat; [done|]. apply Nat.leb_gt in E1.
  destruct (_ && _ && _) eqn:E; [done|]. intros _. split; [done|]. intros Hl Hlast Hin.
  rewrite (proj2 (Nat.leb_le _ _) Hl), bool_decide_eq_false_2 in E by done. simpl in E.
  apply not_true_iff_false in E. apply E, existsb_exists. exists ep. split; [by apply list_elem_of_In|].
  apply String.eqb_refl.
Qed.

Lemma validate_st ep s n : out_st (validate_next_candidate ep s n) = s.
Proof. unfold validate_next_candidate. mstep. by repeat case_match. Qed.

Lemma counts_record r l :
  counts_agree l -> forall s, led s = l -> counts_agree (led (out_st (record_attempt r s 0%nat))).
Proof.
  intros [Hc Hl] s <-. split.
  - intros ep. unfold attempts_on. simpl. rewrite filter_app, length_app, filter_cons. specialize (Hc ep).
    unfold attempts_on in Hc.
    destruct (decide (ep = ar_endpoint_id r)) as [->|Hne].
    + rewrite od_get_set_eq. simpl. unfold attempts_on. lia.
    + rewrite od_get_set_ne by done. simpl. lia.
  - unfold total_attempts in *. simpl. rewrite !length_app. simpl. lia.
Qed.

Lemma od_get_reset eps (d : odict string nat) ep :
  od_get ep (fold_left (fun d ep => od_set ep 0%nat d) eps d) = if decide (ep ∈ eps) then Some 0%nat else od_get ep d.
Proof.
  revert d. induction eps as [|e eps IH]; intros d; cbn [fold_left].
  - rewrite decide_False; [done | apply not_elem_of_nil].
  - rewrite IH. destruct (decide (ep ∈ eps)) as [Hin|Hin].
    + rewrite decide_True; [done | by right].
    + destruct (decide (ep = e)) as [->|Hne].
      * rewrite decide_True by (by left). apply od_get_set_eq.
      * rewrite decide_False by (rewrite elem_of_cons; naive_solver). by apply od_get_set_ne.
Qed.

Lemma count_filter_reset (eps h : list string) ep :
  length (filter (eq ep) (filter (fun e => e ∉ eps) h)) = if decide (ep ∈ eps) then 0%nat else length (filter (eq ep) h).
Proof.
  destruct (decide (ep ∈ eps)) as [Hin|Hin].
  - induction h as [|e h IH]; [done|]. rewrite filter_cons. case_decide as He; [|done].
    rewrite filter_cons. case_decide; [by subst | done].
  - f_equal. apply list_filter_filter_l. by intros x <-.
Qed.

Lemma counts_reset eps l s : counts_agree l -> led s = l ->
  counts_agree (led (out_st (reset_for_rate_limit_retry eps s 0%nat))).
Proof.
  intros [Hc Hl] <-. unfold reset_for_rate_limit_retry. mstep. unfold out_st. simpl.
  assert (forall l', endpoints_attempted l' = filter (fun ep => ep ∉ eps) (endpoints_attempted (led s)) ->
    endpoint_counts l' = fold_left (fun d ep => od_set ep 0%nat d) eps (endpoint_counts (led s)) ->
    attempts l' = attempts (led s) -> counts_agree l') as Hg.
  { intros l' He Hd Ha. split.
    - intros ep. unfold attempts_on. rewrite He, Hd, od_get_reset, count_filter_reset.
      case_decide; [done | apply Hc].
    - unfold total_attempts in *. rewrite He, Ha. etrans; [apply length_filter | done]. }
  case_match; by apply Hg.
Qed.

(** A refused attempt changes nothing. *)
Lemma run_attempt_out r s :
  let s' := out_st (run_ledger (LAttempt r) s 0%nat) in
  s' = s \/ res_ok (out_res (validate_next_candidate (ar_endpoint_id r) s 0%nat)) = true /\
            s' = out_st (record_attempt r s 0%nat).
Proof.
  unfold run_ledger. pose proof (validate_st (ar_endpoint_id r) s 0%nat) as Hs.
  destruct (validate_next_candidate (ar_endpoint_id r) s 0%nat) as [[[[]|e] s'] n'] eqn:E;
    unfold out_st in Hs; simpl in Hs; subst s'.
  - right. by erewrite bind_ok by exact E.
  - left. by erewrite bind_raise by exact E.
Qed.

Lemma run_ledger_inv o s : ledger_inv (led s) -> ledger_inv (led (out_st (run_ledger o s 0%nat))).
Proof.
  intros [Hn Hc]. destruct o; try exact (conj Hn Hc); unfold run_ledger.
  - destruct (run_attempt_out r s) as [Heq|[Hv Heq]]; unfold run_ledger in Heq; rewrite Heq; [done|].
    destruct (validate_ok _ _ _ Hv) as [_ Hcyc].
    split; [by apply no_return_snoc | by apply (counts_record r (led s))].
  - split; [|by apply (counts_reset eps (led s))].
    unfold reset_for_rate_limit_retry. mstep. unfold out_st. simpl.
    case_match; simpl; (eapply no_return_sublist; [apply sublist_filter | exact Hn]).
Qed.

(** No ping-pong, honest counters.  In a request's ledger, driven by any
    sequence of validated attempts, fallbacks, costs, plans and rate-limit
    resets, no endpoint is ever revisited after another one was tried in between
    (among the attempts the ledger still remembers), and the per-endpoint
    counters are exactly the numbers of remembered attempts. *)
Theorem attempts_never_return p os :
  ledger_inv (led (run_ledgers os {| policy := p; led := new_attempt_ledger |})).
Proof.
  unfold run_ledgers. assert (ledger_inv (led {| policy := p; led := new_attempt_ledger |})) as H0.
  { split; [|split; [done | done]]. intros a b _ Hs. by apply sublist_nil_r in Hs. }
  revert H0. generalize ({| policy := p; led := new_attempt_ledger |}).
  induction os as [|o os IH]; intros s Hs; [done|]. simpl. apply IH. by apply run_ledger_inv.
Qed.

(** Attempts are budgeted.  Without a rate-limit reset, validated attempts
    never exceed the policy's total, and the policy itself is unchanged. *)
Theorem attempts_within_budget p os :
  Forall (fun o => match o with LReset _ => False | _ => True end) os ->
  let s := run_ledgers os {| policy := p; led := new_attempt_ledger |} in
  policy s = p /\ (total_attempts (led s) <= max_total_attempts p)%nat.
Proof.
  intros Hos. unfold run_ledgers.
  cut (forall s, policy s = p -> (total_attempts (led s) <= max_total_attempts p)%nat ->
    let s' := fold_left (fun s o => out_st (run_ledger o s 0%nat)) os s in
    policy s' = p /\ (total_attempts (led s') <= max_total_attempts p)%nat).
  { intros Hg. apply Hg; [done | simpl; unfold total_attempts; simpl; lia]. }
  induction Hos as [|o os Ho Hos IH]; intros s Hp Hl; [done|]. simpl. apply IH.
  - destruct o; try done. destruct (run_attempt_out r s) as [Heq|[_ Heq]]; rewrite Heq; done.
  - destruct o; try done. destruct (run_attempt_out r s) as [Heq|[Hv Heq]]; rewrite Heq; [done|].
    destruct (validate_ok _ _ _ Hv) as [Hlt _]. rewrite Hp in Hlt.
    unfold total_attempts in *. simpl. rewrite length_app. simpl. lia.
Qed.

Definition demo_attempt (ep : string) : AttemptRecord :=
  {| attempt_id := "a"; ar_request_id := "r"; ar_operation_id := "o"; ar_provider := "p"; ar_model := "m";
     ar_endpoint_id := ep; ar_attempt_index := 1; ar_fallback_index := 0; ar_start_time := 0; ar_end_time := None;
     ar_latency_ms := 0; ar_ttft_ms := None; ar_status_code := None; ar_success := false; ar_failure := None; ar_compacted := false |}.

Lemma attempts_within_budget_witness :
  (total_attempts (led (run_ledgers (repeat (LAttempt (demo_attempt "a")) 20)
    {| policy := default_policy; led := new_attempt_ledger |})) <= 12)%nat.
Proof.
  apply (attempts_within_budget default_policy (repeat (LAttempt (demo_attempt "a")) 20)).
  vm_compute. repeat constructor.
Defined.

(** A rate-limit reset outlives its request.  When a request has used up the
    shared budget, [reset_for_rate_limit_retry] raises the executor's own limit:
    the ledger of the next request, built on the same policy object, admits
    strictly more attempts than were configured. *)
Theorem reset_raises_shared_budget eps s :
  (max_total_attempts (policy s) <= total_attempts (led s))%nat -> eps <> [] ->
  let s' := out_st (reset_for_rate_limit_retry eps s 0%nat) in
  max_total_attempts (policy s') = (total_attempts (led s) + length eps * 2)%nat /\
  (max_total_attempts (policy s) < max_total_attempts (policy s'))%nat.
Proof.
  intros Hle Hne. unfold reset_for_rate_limit_retry. mstep. unfold out_st. simpl.
  change (total_attempts {| attempts := _; endpoints_attempted := _; endpoint_counts := _; fallback_count := _;
    accumulated_cost_usd := _; failover_plans := _ |}) with (total_attempts (led s)).
  rewrite (proj2 (Nat.leb_le _ _) Hle). simpl. split; [done|]. destruct eps; [done|]. simpl. lia.
Qed.

Lemma reset_raises_shared_budget_witness :
  (12 < max_total_attempts (policy (out_st (reset_for_rate_limit_retry ["a"]
    (run_ledgers (repeat (LAttempt (demo_attempt "a")) 20) {| policy := default_policy; led := new_attempt_ledger |}) 0%nat))))%nat.
Proof.
  apply (reset_raises_shared_budget ["a"]
    (run_ledgers (repeat (LAttempt (demo_attempt "a")) 20) {| policy := default_policy; led := new_attempt_ledger |})).
  - vm_compute. repeat constructor.
  - discriminate.
Defined.

End ExecutionProps.
