(* ===== verification/Transport.v ===== *)
(** * The HTTP transport

    [src/durallm/providers/base.py] (cancellation) and the transport half of
    [src/durallm/providers/adapters.py]: the naming of failures, the bounded
    response reader, [BaseHTTPAdapter.execute] and [open_stream].  What the network
    and the clock do at each point is an argument. *)

From stdpp Require Import base tactics list strings.
From Stdlib Require Import QArith Ascii Lqa.
From S2P Require Import Prelude PyText Utf8 Execution Security.

(** ** Cancellation *)

Section cancellation.
Context {callback : Type}.

Record RequestCancellation : Type := {
  rc_cancelled : bool;
  rc_reason : string;
  rc_callbacks : list callback;
}.
Definition new_cancellation : RequestCancellation := {| rc_cancelled := false; rc_reason := ""; rc_callbacks := [] |}.

(** Each operation returns the callbacks it runs. *)
Definition add_callback (cb : callback) (c : RequestCancellation) : RequestCancellation * list callback :=
  if rc_cancelled c then (c, [cb])
  else ({| rc_cancelled := rc_cancelled c; rc_reason := rc_reason c; rc_callbacks := rc_callbacks c ++ [cb] |}, []).
Definition cancel (reason : string) (c : RequestCancellation) : RequestCancellation * list callback :=
  if rc_cancelled c then (c, [])
  else ({| rc_cancelled := true; rc_reason := reason; rc_callbacks := [] |}, rc_callbacks c).

Inductive cancel_op : Type := AddCallback (cb : callback) | Cancel (reason : string).
Definition cancel_step (c : RequestCancellation) (op : cancel_op) : RequestCancellation * list callback :=
  match op with AddCallback cb => add_callback cb c | Cancel r => cancel r c end.
Fixpoint cancel_run (c : RequestCancellation) (ops : list cancel_op) : RequestCancellation * list callback :=
  match ops with
  | [] => (c, [])
  | op :: ops' => let '(c1, ran) := cancel_step c op in let '(c2, ran') := cancel_run c1 ops' in (c2, ran ++ ran')
  end.
End cancellation.
Arguments RequestCancellation : clear implicits.
Arguments cancel_op : clear implicits.

(** ** Failures that never produced a response *)

Definition TRANSPORT_STATUS (kind : string) : Z :=
  if String.eqb kind "tls" then 596 else if String.eqb kind "timeout" then 597 else if String.eqb kind "connection" then 598 else 599.

(** The classes [_transport_kind] distinguishes; each is also an [OSError] except
    the last. *)
Inductive exc_class : Type := ETimeout | ESSL | EURL | EOS | EOther.
Record raised : Type := {
  ex_class : exc_class;
  ex_reason : option exc_class; (* an [exc.reason] that is an exception *)
  ex_cause : option exc_class;
  ex_context : option exc_class;
  ex_text : string;
}.
Fixpoint first_kind (cs : list (option exc_class)) : option string :=
  match cs with
  | [] => None
  | Some ETimeout :: _ => Some "timeout"
  | Some ESSL :: _ => Some "tls"
  | Some EOS :: _ => Some "connection"
  | _ :: cs' => first_kind cs'
  end.
Definition transport_kind (e : raised) : string :=
  match first_kind [ex_reason e; ex_cause e; ex_context e; Some (ex_class e)] with
  | Some k => k
  | None => if contains "timed out" (py_lower (ex_text e)) then "timeout" else "unknown"
  end.

(** ** How long a socket may wait *)

(** [TransportTimeouts._seconds]: a socket refuses zero. *)
Definition phase_seconds (value_ms : Q) : Q := py_max (1 # 1000) (value_ms / 1000).
Definition connect_timeout_seconds (t : TransportTimeouts) : Q := phase_seconds (tt_connect_timeout_ms t).
Definition tls_timeout_seconds (t : TransportTimeouts) : Q := phase_seconds (tt_tls_timeout_ms t).
Definition first_byte_timeout_seconds (t : TransportTimeouts) : Q := phase_seconds (tt_first_byte_timeout_ms t).
Definition idle_timeout_seconds (t : TransportTimeouts) : Q := phase_seconds (tt_idle_timeout_ms t).

(** While the request is written and its first byte awaited. *)
Definition setup_wait (t : TransportTimeouts) (elapsed_ms : Q) : Q :=
  py_min (first_byte_timeout_seconds t) (py_max (1 # 1000) ((tt_total_timeout_ms t - elapsed_ms) / 1000)).
(** Before each read; none when the deadline has passed and the stream fails instead. *)
Definition remaining_seconds (total_ms elapsed_ms : Q) : option Q :=
  let remaining := (total_ms - elapsed_ms)%Q in
  if remaining ⪯ 0 then None else Some (remaining / 1000)%Q.
Definition idle_wait (t : TransportTimeouts) (elapsed_ms : Q) : option Q :=
  py_min (idle_timeout_seconds t) <$> remaining_seconds (tt_total_timeout_ms t) elapsed_ms.

(** ** The bounded byte stream *)

(** [len(b)] and the ceiling. *)
Definition byte_count (b : string) : Z := Z.of_nat (String.length b).
Definition over_ceiling (b : string) : bool := (MAX_PAYLOAD_BYTES <? byte_count b)%Z.

Inductive read_outcome : Type := ReadChunk (b : string) | ReadTimeout | ReadError.
(** What one turn of the loop meets: whether the token was cancelled before the
    read and by the time it failed, the milliseconds since the start, and the read. *)
Record turn_event : Type := {
  te_cancelled : bool;
  te_has_socket : bool;
  te_elapsed_ms : Q;
  te_cancelled_after : bool;
  te_read : read_outcome;
}.
Inductive stream_end : Type := StreamOpen | StreamDone | StreamFailed (phase : string).
Record ByteStream : Type := { bs_bytes_read : Z; bs_closed : bool; bs_end : stream_end }.
Definition new_byte_stream : ByteStream := {| bs_bytes_read := 0; bs_closed := false; bs_end := StreamOpen |}.
(** The [finally] clause: every way out closes the response and the connection. *)
Definition ended (e : stream_end) (b : ByteStream) : ByteStream := {| bs_bytes_read := bs_bytes_read b; bs_closed := true; bs_end := e |}.

(** One turn of [iter_bytes]: the chunk it yields. *)
Definition iter_turn (total_ms : Q) (b : ByteStream) (t : turn_event) : ByteStream * option string :=
  if te_cancelled t then (ended (StreamFailed "cancelled") b, None)
  else if (match remaining_seconds total_ms (te_elapsed_ms t) with None => te_has_socket t | Some _ => false end) then (ended (StreamFailed "total") b, None)
  else match te_read t with
  | ReadTimeout => (ended (StreamFailed "idle") b, None)
  | ReadError => (ended (StreamFailed (if te_cancelled_after t then "cancelled" else "connection")) b, None)
  | ReadChunk chunk =>
      if negb (truthy chunk) then (ended StreamDone b, None)
      else
        let b' := {| bs_bytes_read := bs_bytes_read b + byte_count chunk; bs_closed := bs_closed b; bs_end := bs_end b |} in
        if (MAX_PAYLOAD_BYTES <? bs_bytes_read b')%Z then (ended (StreamFailed "buffer_limit") b', None)
        else (b', Some chunk)
  end.
Fixpoint iter_bytes (total_ms : Q) (b : ByteStream) (ts : list turn_event) : ByteStream * list string :=
  match ts with
  | [] => (b, [])
  | t :: ts' =>
      match iter_turn total_ms b t with
      | (b', Some chunk) => let '(b'', chunks) := iter_bytes total_ms b' ts' in (b'', chunk :: chunks)
      | (b', None) => (b', [])
      end
  end.

(** ** Buffered execution *)

Definition lower_headers (hs : list (string * string)) : odict string string :=
  foldl (fun d kv => od_set (py_lower (fst kv)) (snd kv) d) [] hs.

(** What the network answered; a body is what a read of one byte more than the
    ceiling would see. *)
Inductive network : Type :=
| NetResponse (status : Z) (headers : list (string * string)) (body : string)
| NetHTTPError (code : Z) (headers : list (string * string)) (body : option string)
| NetRaised (e : raised).

Record transport_result : Type := {
  tr_status : Z;
  tr_headers : odict string string;
  tr_body : string;
  tr_transport_error : option string;
}.
Definition transport_failure (kind : string) (text : string) : transport_result :=
  {| tr_status := TRANSPORT_STATUS kind; tr_headers := []; tr_body := ("transport_error:" ++ kind ++ ": " ++ text)%string;
     tr_transport_error := Some kind |}.

(** The checks made before any socket is opened. *)
Definition screen_request (url body : string) (allow_localhost : bool) : res security_error unit :=
  match validate_upstream_url url DEFAULT_SCHEMES allow_localhost with
  | Raise e => Raise e
  | Ok _ => enforce_payload_limit (byte_count body) MAX_PAYLOAD_BYTES
  end.

Definition http_execute (url body : string) (allow_localhost : bool) (net : network) : res security_error transport_result :=
  match screen_request url body allow_localhost with
  | Raise e => Raise e
  | Ok _ =>
      match net with
      | NetResponse status headers b =>
          match enforce_payload_limit (byte_count b) MAX_PAYLOAD_BYTES with
          | Raise e => Raise e
          | Ok _ => Ok {| tr_status := status; tr_headers := lower_headers headers; tr_body := b; tr_transport_error := None |}
          end
      | NetHTTPError code headers b =>
          let b' := match b with Some b => if over_ceiling b then "" else b | None => "" end in
          Ok {| tr_status := code; tr_headers := lower_headers headers; tr_body := b'; tr_transport_error := None |}
      | NetRaised e => Ok (transport_failure (transport_kind e) (ex_text e))
      end
  end.

(** ** Opening a stream *)

(** What an attempt to open a stream meets, in order. *)
Record open_trace : Type := {
  ot_cancelled : option string; (* the token's reason, when already cancelled *)
  ot_tcp : option raised; (* [socket.create_connection] *)
  ot_tls : option raised; (* the TLS handshake and the connection object around it *)
  ot_connected_ms : Q;
  ot_request : option raised;
  ot_sent_ms : Q;
  ot_response : raised + Z * list (string * string) * (raised + string); (* the body may fail to be read *)
}.
Record ProviderStreamResult : Type := {
  sr_status_code : Z;
  sr_headers : odict string string;
  sr_stream : bool; (* a live byte stream is attached *)
  sr_body : string;
  sr_transport_error : option string;
}.
(** The result, and whether a socket was opened and closed. *)
Record opened : Type := { op_result : res security_error ProviderStreamResult; op_connected : bool; op_closed : bool }.

Definition stream_failure (kind text : string) : ProviderStreamResult :=
  {| sr_status_code := TRANSPORT_STATUS kind; sr_headers := []; sr_stream := false;
     sr_body := ("transport_error:" ++ kind ++ ": " ++ text)%string; sr_transport_error := Some kind |}.
(** The two general [except] clauses; both close a connection that was made. *)
Definition stream_error (connected : bool) (phase text : string) : opened :=
  let kind := if existsb (String.eqb phase) ["total"; "first_byte"; "idle"] then "timeout" else "connection" in
  {| op_result := Ok (stream_failure kind text); op_connected := connected; op_closed := connected |}.
Definition raised_error (connected : bool) (e : raised) : opened :=
  {| op_result := Ok (stream_failure (transport_kind e) (ex_text e)); op_connected := connected; op_closed := connected |}.
Definition refused (connected : bool) (e : security_error) : opened :=
  {| op_result := Raise e; op_connected := connected; op_closed := connected |}.

(** [parsed.port]: none when it is not given, an exception when it is not a port. *)
Definition port_text (u : SplitResult) : string :=
  let hostinfo := after_last "@" (url_netloc u) in
  match partition "[" hostinfo with
  | (_, Some bracketed) => default "" (snd (partition ":" (default "" (snd (partition "]" bracketed)))))
  | _ => default "" (snd (partition ":" hostinfo))
  end.
Definition url_port (u : SplitResult) : string + option Z :=
  let text := port_text u in
  if negb (truthy text) then inr None
  else if negb (py_isdigit text) then inl ("Port could not be cast to integer value as '" ++ text ++ "'")%string
  else match py_int text with
  | Some z => if (z <=? 65535)%Z then inr (Some z) else inl "Port out of range 0-65535"
  | None => inr None
  end.

Definition value_error (text : string) : raised :=
  {| ex_class := EOther; ex_reason := None; ex_cause := None; ex_context := None; ex_text := text |}.

(** [_open_phase_connection]: only direct HTTP and HTTPS.  What it raises, and the raw
    socket: whether it was opened, and whether it is closed when the call ends.  A
    handshake that fails closes the socket it was tried on. *)
Record phase_socket : Type := { ps_raised : option raised; ps_opened : bool; ps_closed : bool }.
Definition no_socket (e : raised) : phase_socket := {| ps_raised := Some e; ps_opened := false; ps_closed := false |}.
Definition phase_connection (url : string) (t : open_trace) : phase_socket :=
  match urlparse url with
  | None => no_socket (value_error "Invalid IPv6 URL")
  | Some u =>
      if negb (truthy (hostname u)) then no_socket (value_error "upstream URL has no hostname")
      else if negb (existsb (String.eqb (py_lower (url_scheme u))) ["http"; "https"]) then
        no_socket (value_error ("native streaming supports only http(s), got '" ++ py_lower (url_scheme u) ++ "'"))
      else match url_port u with
      | inl text => no_socket (value_error text)
      | inr _ =>
          match ot_tcp t with
          | Some e => no_socket e
          | None =>
              match (if String.eqb (py_lower (url_scheme u)) "https" then ot_tls t else None) with
              | Some e => {| ps_raised := Some e; ps_opened := true; ps_closed := true |} (* [raw_socket.close()] *)
              | None => {| ps_raised := None; ps_opened := true; ps_closed := false |}
              end
          end
      end
  end.

(** [_request_target] of the URL split by [urlsplit]: what follows the host, without
    the fragment. *)
Fixpoint after_netloc (s : string) : string :=
  match s with
  | EmptyString => EmptyString
  | String c s' => if contains (String c "") "/?#" then s else after_netloc s'
  end.
Definition url_tail (url : string) : string :=
  let rest := snd (split_scheme (remove_chars tab_or_break (lstrip_controls url))) in
  if starts_with "//" rest then after_netloc (str_drop 2 rest) else rest.
Definition request_target (url : string) : string :=
  let '(path, query) := partition "?" (fst (partition "#" (url_tail url))) in
  ((if truthy path then path else "/") ++
   match query with Some q => if truthy q then "?" ++ q else "" | None => "" end)%string.

(** The answer's head: a declared length over the ceiling is refused, a body that
    is not a success is read up to the ceiling, a success is handed on unread. *)
Definition stream_response (status : Z) (headers : list (string * string)) (body : raised + string) : opened :=
  let hs := lower_headers headers in
  let declared := match (z ← od_get "content-length" hs; py_int z) with
  | Some z => match enforce_payload_limit z MAX_PAYLOAD_BYTES with Raise e => Some e | Ok _ => None end
  | None => None
  end
  in
  match declared with
  | Some e => refused true e
  | None =>
      if negb (status =? 200)%Z then
        match body with
        | inl e => raised_error true e
        | inr b =>
            match enforce_payload_limit (byte_count b) MAX_PAYLOAD_BYTES with
            | Raise e => refused true e
            | Ok _ => {| op_result := Ok {| sr_status_code := status; sr_headers := hs; sr_stream := false; sr_body := b; sr_transport_error := None |};
                         op_connected := true; op_closed := true |}
            end
        end
      else {| op_result := Ok {| sr_status_code := status; sr_headers := hs; sr_stream := true; sr_body := ""; sr_transport_error := None |};
              op_connected := true; op_closed := false |}
  end.

Definition open_stream (url body : string) (allow_localhost : bool) (timeouts : TransportTimeouts) (t : open_trace) : opened :=
  match screen_request url body allow_localhost with
  | Raise e => refused false e
  | Ok _ =>
      match ot_cancelled t with
      | Some reason => stream_error false "cancelled" (if truthy reason then reason else "stream cancelled before connect")
      | None =>
          let socket := phase_connection url t in
          match ps_raised socket with
          | Some e => {| op_result := Ok (stream_failure (transport_kind e) (ex_text e));
                         op_connected := ps_opened socket; op_closed := ps_closed socket |}
          | None =>
              if tt_total_timeout_ms timeouts ⪯ ot_connected_ms t
              then stream_error true "total" "upstream stream exceeded its total deadline during setup"
              else match ot_request t with
              | Some e => raised_error true e
              | None =>
                  if tt_total_timeout_ms timeouts ⪯ ot_sent_ms t
                  then stream_error true "total" "upstream stream exceeded its total deadline while sending request"
                  else match ot_response t with
                  | inl e => raised_error true e
                  | inr (status, headers, b) => stream_response status headers b
                  end
              end
          end
      end
  end.

Import SecurityProps.

(** ** Properties of the transport *)
Module TransportProps.

(** ** Cancellation *)

Section cancellation.
Context {callback : Type}.
Implicit Types (c : RequestCancellation callback) (ops : list (cancel_op callback)).

Definition added ops : list callback := omap (fun op => match op with AddCallback cb => Some cb | Cancel _ => None end) ops.
Definition cancelled_by ops : bool := existsb (fun op => match op with Cancel _ => true | _ => false end) ops.
Definition settled c : Prop := rc_cancelled c = true -> rc_callbacks c = [].

Lemma cancel_run_spec c ops : settled c ->
  let '(c', ran) := cancel_run c ops in
  ran ++ rc_callbacks c' ≡ₚ rc_callbacks c ++ added ops /\ settled c' /\ rc_cancelled c' = rc_cancelled c || cancelled_by ops.
Proof.
  revert c. induction ops as [|op ops IH]; intros c Hc; cbn [cancel_run].
  { rewrite app_nil_r. cbn. by rewrite orb_false_r. }
  destruct (cancel_step c op) as [c1 ran1] eqn:E1.
  assert (settled c1 /\ ran1 ++ rc_callbacks c1 ≡ₚ rc_callbacks c ++ added [op] /\ rc_cancelled c1 = rc_cancelled c || cancelled_by [op])
    as (Hs & Hp & Hb).
  { unfold settled in *. destruct op as [cb|r]; cbn in E1; unfold add_callback, cancel in E1; destruct (rc_cancelled c) eqn:Ec;
      injection E1 as <- <-; cbn; rewrite ?Ec, ?app_nil_r; try done. by rewrite (Hc eq_refl). }
  specialize (IH c1 Hs). destruct (cancel_run c1 ops) as [c2 ran2]. destruct IH as (IH1 & IH2 & IH3). split_and!; [|done|].
  - change (added (op :: ops)) with (added ([op] ++ ops)). unfold added at 1. rewrite omap_app. fold (added [op]) (added ops).
    rewrite (assoc_L (++)), <- Hp, <- !(assoc_L (++)), IH1. done.
  - rewrite IH3, Hb. unfold cancelled_by. cbn [existsb]. by rewrite orb_false_r, orb_assoc.
Qed.
End cancellation.

(** Over any history of registrations and cancellations, every callback that
    was registered has run exactly once or is still pending, none pends once the
    token is cancelled, and the token is cancelled exactly when it was asked to
    be: a transport registered after the cancellation is closed too. *)
Theorem cancellation_runs_once {callback} (ops : list (cancel_op callback)) :
  let '(c, ran) := cancel_run new_cancellation ops in
  ran ++ rc_callbacks c ≡ₚ added ops /\ (rc_cancelled c = true -> rc_callbacks c = []) /\ rc_cancelled c = cancelled_by ops.
Proof.
  pose proof (cancel_run_spec (callback := callback) new_cancellation ops) as H.
  destruct (cancel_run new_cancellation ops) as [c ran]. apply H. done.
Qed.

(** ** The byte stream *)

Definition bytes_of (chunks : list string) : Z := foldr (fun b n => byte_count b + n)%Z 0%Z chunks.
(** The chunks the network delivered before the first turn without one. *)
Fixpoint delivered (ts : list turn_event) : list string :=
  match ts with
  | t :: ts' => match te_read t with ReadChunk b => if truthy b then b :: delivered ts' else [] | _ => [] end
  | [] => []
  end.

Lemma iter_bytes_spec total b ts : bs_end b = StreamOpen -> bs_closed b = false -> (bs_bytes_read b <= MAX_PAYLOAD_BYTES)%Z ->
  let '(b', chunks) := iter_bytes total b ts in
  (bs_bytes_read b + bytes_of chunks <= MAX_PAYLOAD_BYTES)%Z /\ chunks `prefix_of` delivered ts /\
  (bs_closed b' = true <-> bs_end b' <> StreamOpen) /\
  (bs_end b' = StreamDone -> chunks = delivered ts).
Proof.
  revert b. induction ts as [|t ts IH]; intros b He Hc Hb; cbn [iter_bytes bytes_of foldr delivered].
  { split_and!; [lia | done | by rewrite He, Hc | done]. }
  unfold iter_turn. destruct (te_cancelled t); [cbn; split_and!; [lia | apply prefix_nil | done | done]|].
  destruct (match remaining_seconds _ _ with None => _ | _ => _ end); [cbn; split_and!; [lia | apply prefix_nil | done | done]|].
  destruct (te_read t) as [chunk| |]; try (cbn; split_and!; [lia | apply prefix_nil | done | done]).
  destruct (truthy chunk) eqn:Et; cbn [negb]; [|cbn; split_and!; [lia | done | done | done]].
  cbn [bs_bytes_read]. destruct (Z.ltb_spec MAX_PAYLOAD_BYTES (bs_bytes_read b + byte_count chunk)) as [|Hle];
    [cbn; split_and!; [lia | apply prefix_nil | done | done]|].
  match goal with |- context [iter_bytes total ?b0 ts] => set (b1 := b0) end.
  specialize (IH b1 He Hc Hle). destruct (iter_bytes total b1 ts) as [b' chunks]. destruct IH as (H1 & H2 & H3 & H4).
  unfold b1 in H1. cbn [bs_bytes_read] in H1. cbn [bytes_of foldr]. fold (bytes_of chunks).
  split_and!; [lia | by apply prefix_cons | done | intros H; by rewrite (H4 H)].
Qed.

(** Whatever an upstream sends and whenever it stalls, the reader hands on at
    most the payload ceiling, in order and unaltered, closes the connection
    exactly when the stream ends, and reports success only after it handed on
    everything that was sent. *)
Theorem byte_stream_bounded total ts :
  let '(b, chunks) := iter_bytes total new_byte_stream ts in
  (bytes_of chunks <= MAX_PAYLOAD_BYTES)%Z /\ chunks `prefix_of` delivered ts /\
  (bs_closed b = true <-> bs_end b <> StreamOpen) /\ (bs_end b = StreamDone -> chunks = delivered ts).
Proof. apply (iter_bytes_spec total new_byte_stream ts); [done | done | vm_compute; discriminate]. Qed.

(** The waits are usable and keep to the deadlines: a socket is never given zero, it waits
    no longer than its phase allows, and while a request is set up or a stream is read no
    wait reaches past the total deadline, unless less than a millisecond of it is left. *)
Theorem socket_waits_bounded t elapsed :
  (0 < connect_timeout_seconds t /\ 0 < tls_timeout_seconds t)%Q /\
  (0 < setup_wait t elapsed <= first_byte_timeout_seconds t /\
   elapsed + 1000 * setup_wait t elapsed <= py_max (tt_total_timeout_ms t) (elapsed + 1))%Q /\
  match idle_wait t elapsed with
  | Some w => 0 < w <= idle_timeout_seconds t /\ elapsed + 1000 * w <= tt_total_timeout_ms t
  | None => tt_total_timeout_ms t <= elapsed
  end%Q.
Proof.
  unfold connect_timeout_seconds, tls_timeout_seconds, idle_wait, setup_wait, remaining_seconds, first_byte_timeout_seconds, idle_timeout_seconds, phase_seconds.
  assert (forall x : Q, x / 1000 == x * (1 # 1000))%Q as Hd by (intros x; unfold Qdiv; reflexivity).
  pose proof (Hd (tt_first_byte_timeout_ms t)). pose proof (Hd (tt_total_timeout_ms t - elapsed)). pose proof (Hd (tt_idle_timeout_ms t)).
  pose proof (Hd (tt_connect_timeout_ms t)). pose proof (Hd (tt_tls_timeout_ms t)).
  destruct (Qle_bool _ 0) eqn:Hr; cbn; split_and!; q_solve.
Qed.

(** ** Opening *)

(** The screen passed: the request may leave the process. *)
Lemma screened url body allow : screen_request url body allow = Ok tt ->
  validate_upstream_url url DEFAULT_SCHEMES allow = Ok true /\ (byte_count body <= MAX_PAYLOAD_BYTES)%Z.
Proof.
  unfold screen_request, enforce_payload_limit. destruct (validate_upstream_url _ _ _) as [[]|] eqn:E; try done;
    destruct (Z.ltb_spec MAX_PAYLOAD_BYTES (byte_count body)); try done.
  intros _. exfalso. revert E. unfold validate_upstream_url. destruct (urlparse url); [|done]. by repeat case_match.
Qed.

Lemma stream_response_closed st hs b : let o := stream_response st hs b in
  op_connected o = true /\ op_closed o = match op_result o with Ok r => negb (sr_stream r) | Raise _ => true end /\
  (forall r, op_result o = Ok r -> sr_stream r = true -> sr_status_code r = 200%Z).
Proof.
  unfold stream_response. cbv zeta. destruct (match _ with Some _ => _ | None => None end); [by split_and!|].
  destruct (Z.eqb_spec st 200) as [->|]; cbn [negb]; [split_and!; [done | done | by intros r [= <-]]|].
  destruct b as [e|b]; [split_and!; try done; by intros r [= <-]|].
  destruct (enforce_payload_limit _ _); split_and!; try done. by intros r [= <-].
Qed.
Lemma phase_closed url t : ps_raised (phase_connection url t) <> None -> ps_opened (phase_connection url t) = ps_closed (phase_connection url t).
Proof. unfold phase_connection. by repeat (case_match; try done). Qed.

(** C39: opening a stream never leaks a connection.  Whatever the network does (no
    connection, a handshake that fails on an open socket, a request that cannot be sent,
    an answer that cannot be read), every socket that was opened is closed unless the
    result carries the live stream; a live stream is that of a 200 answer on an open
    socket; and no socket is opened to an address the upstream check refuses, or for a
    request over the ceiling. *)
Theorem open_stream_no_leak url body allow timeouts t :
  let o := open_stream url body allow timeouts t in
  (op_connected o = true -> op_closed o = false -> exists r, op_result o = Ok r /\ sr_stream r = true) /\
  (forall r, op_result o = Ok r -> sr_stream r = true -> sr_status_code r = 200%Z /\ op_connected o = true /\ op_closed o = false) /\
  (op_connected o = true -> validate_upstream_url url DEFAULT_SCHEMES allow = Ok true /\ (byte_count body <= MAX_PAYLOAD_BYTES)%Z).
Proof.
  cbv zeta. unfold open_stream. destruct (screen_request url body allow) as [[]|e] eqn:Es; [|done].
  apply screened in Es. apply (proj1 (Logic.and_assoc _ _ _)). split; [|done].
  destruct (ot_cancelled t); [split; [done | by intros r [= <-]]|].
  pose proof (phase_closed url t) as Hp. destruct (ps_raised (phase_connection url t)) as [e|].
  { specialize (Hp ltac:(done)). cbn. rewrite Hp. split; [by intros ->|]. by intros r [= <-]. }
  destruct (_ ⪯ ot_connected_ms t); [split; [done | by intros r [= <-]]|]. destruct (ot_request t) as [e|]; [split; [done | by intros r [= <-]]|].
  destruct (_ ⪯ ot_sent_ms t); [split; [done | by intros r [= <-]]|]. destruct (ot_response t) as [e|[[st hs] b]]; [split; [done | by intros r [= <-]]|].
  destruct (stream_response_closed st hs b) as (-> & Hc & H200). split.
  - intros _ E. rewrite E in Hc. destruct (op_result (stream_response st hs b)) as [r|]; [|done]. exists r. by destruct (sr_stream r).
  - intros r Hr Hs. rewrite Hc, Hr, Hs. by split_and!; [eapply H200|..].
Qed.

(** *** The request line *)

Lemma all_chars_partition p sep s : all_chars p s = true ->
  all_chars p (fst (partition sep s)) = true /\ forall q, snd (partition sep s) = Some q -> all_chars p q = true.
Proof.
  induction s as [|c s IH]; [done|]. cbn [partition all_chars]. intros [Hc Hs]%andb_true_iff. destruct (Ascii.eqb c sep).
  - split; [done|]. by intros q [= <-].
  - destruct (IH Hs). destruct (partition sep s). cbn in *. by rewrite Hc.
Qed.
Lemma partition_stops sep s : all_chars (fun c => negb (Ascii.eqb c sep)) (fst (partition sep s)) = true.
Proof. induction s as [|c s IH]; [done|]. cbn [partition]. destruct (Ascii.eqb c sep) eqn:E; [done|]. destruct (partition sep s). cbn in *. by rewrite E. Qed.
Lemma after_netloc_head s : after_netloc s = "" \/ exists c s', after_netloc s = String c s' /\ contains (String c "") "/?#" = true.
Proof. induction s as [|c s IH]; [by left|]. cbn [after_netloc]. destruct (contains _ _) eqn:E; [right; eauto | done]. Qed.
Lemma all_chars_netloc p s : all_chars p s = true -> all_chars p (after_netloc s) = true.
Proof. induction s as [|c s IH]; [done|]. cbn [after_netloc]. destruct (contains _ _); [done|]. cbn [all_chars]. by intros [_ H]%andb_true_iff; auto. Qed.
Lemma url_tail_chars url : all_chars (fun c => negb (tab_or_break c)) (url_tail url) = true.
Proof.
  unfold url_tail. pose proof (remove_chars_all tab_or_break (lstrip_controls url)) as H. set (u := remove_chars _ _) in *.
  assert (all_chars (fun c => negb (tab_or_break c)) (snd (split_scheme u)) = true) as Hr.
  { unfold split_scheme. destruct (all_chars_partition _ ":" u H) as [_ Hq]. destruct (partition ":" u) as [[|c s] [q|]]; try done.
    destruct (_ && _); [by apply Hq | done]. }
  cbv zeta. destruct (starts_with _ _); [by apply all_chars_netloc, all_chars_drop | done].
Qed.
Lemma accepted_has_netloc url allow : validate_upstream_url url DEFAULT_SCHEMES allow = Ok true ->
  starts_with "//" (snd (split_scheme (remove_chars tab_or_break (lstrip_controls url)))) = true.
Proof.
  unfold validate_upstream_url, urlparse. destruct (split_scheme _) as [sch rest]. cbn [snd]. destruct (starts_with "//" rest); [done|].
  cbn. by destruct (_ || _).
Qed.

(** The request line an accepted URL gives is an absolute path, without a fragment and
    without tabs or line breaks, so that it cannot start a second line. *)
Theorem request_target_safe url allow : validate_upstream_url url DEFAULT_SCHEMES allow = Ok true ->
  starts_with "/" (request_target url) = true /\
  all_chars (fun c => negb (tab_or_break c)) (request_target url) = true /\
  all_chars (fun c => negb (Ascii.eqb c "#")) (request_target url) = true.
Proof.
  intros Hv. pose proof (accepted_has_netloc url allow Hv) as Hn.
  assert (forall p, p "/"%char = true -> p "?"%char = true -> all_chars p (fst (partition "#" (url_tail url))) = true -> all_chars p (request_target url) = true) as Hp.
  { intros p H1 H2 H. unfold request_target. destruct (all_chars_partition p "?" _ H) as [Ha Hb]. destruct (partition "?" _) as [path query]. cbn [fst snd] in *.
    rewrite all_chars_app. apply andb_true_iff. split; [destruct (truthy path); [done | cbn; by rewrite H1]|].
    destruct query as [q|]; [|done]. specialize (Hb q eq_refl). destruct (truthy q); [|done]. rewrite all_chars_app. cbn. by rewrite H2, Hb. }
  split_and!.
  - unfold request_target, url_tail. rewrite Hn. clear. destruct (after_netloc_head (str_drop 2 (snd (split_scheme (remove_chars tab_or_break (lstrip_controls url)))))) as [->|(c & s & -> & Hc)]; [done|].
    cbn [partition]. destruct (Ascii.eqb_spec c "#") as [->|]; [done|]. destruct (partition "#" s) as [a b]. cbn [fst partition].
    destruct (Ascii.eqb_spec c "?") as [->|]; [apply prefix_true; by eexists|]. destruct (partition "?" a) as [x y].
    assert (c = "/"%char) as -> by (cbn in Hc; by repeat case_match). apply prefix_true. by eexists.
  - apply Hp; [done..|]. apply (all_chars_partition _ "#"), url_tail_chars.
  - apply Hp; [done..|]. apply partition_stops.
Qed.
Lemma request_target_safe_witness :
  request_target "https://api.example.com/v1/chat?stream=1#top" = "/v1/chat?stream=1" /\
  starts_with "/" (request_target "https://api.example.com/v1/chat?stream=1#top") = true.
Proof. split; [vm_compute; reflexivity|]. apply (request_target_safe _ false). vm_compute. reflexivity. Defined.

End TransportProps.
