(* ===== verification/Metrics.v ===== *)
(** * Sliding-window metrics of the circuit breaker

    [src/durallm/breaker/metrics.py].  The deque of outcomes is a list whose
    head is the oldest sample; every method holds the lock, so it is one
    atomic function of the window. *)

From stdpp Require Import base tactics list.
From Stdlib Require Import QArith Lqa Sorted.
From S2P Require Import Prelude.

Inductive SlidingWindowType : Type := COUNT_BASED | TIME_BASED.

Record CallOutcome : Type := {
  co_success : bool;
  co_duration_ms : Q;
  co_timestamp : Q;
  co_is_slow : bool;
  co_poisons_health : bool;
}.

Record SlidingWindowMetrics : Type := {
  window_type : SlidingWindowType;
  window_size : nat;
  slow_call_duration_ms : Q;
  samples : list CallOutcome;
}.

Definition set_samples (l : list CallOutcome) (m : SlidingWindowMetrics) : SlidingWindowMetrics :=
  {| window_type := window_type m; window_size := window_size m;
     slow_call_duration_ms := slow_call_duration_ms m; samples := l |}.

Definition new_metrics (wt : SlidingWindowType) (ws : nat) (slow : Q) : SlidingWindowMetrics :=
  {| window_type := wt; window_size := ws; slow_call_duration_ms := slow; samples := [] |}.

(** [SlidingWindowMetrics.reset] *)
Definition metrics_reset (m : SlidingWindowMetrics) : SlidingWindowMetrics := set_samples [] m.

(** [_evict_expired] *)
Definition evict_expired (now : Q) (m : SlidingWindowMetrics) : SlidingWindowMetrics :=
  match window_type m with
  | COUNT_BASED => set_samples (drop_excess (window_size m) (samples m)) m
  | TIME_BASED =>
      let cutoff := (now - Qnat (window_size m))%Q in
      set_samples (drop_while (fun s => co_timestamp s ≺ cutoff) (samples m)) m
  end.

Definition mk_outcome (m : SlidingWindowMetrics) (success : bool) (duration_ms ts : Q)
    (poisons_health : bool) : CallOutcome :=
  {| co_success := success; co_duration_ms := duration_ms; co_timestamp := ts;
     co_is_slow := slow_call_duration_ms m ⪯ duration_ms;
     co_poisons_health := poisons_health |}.

(** [SlidingWindowMetrics.record] *)
Definition metrics_record (success : bool) (duration_ms ts : Q) (poisons_health : bool)
    (m : SlidingWindowMetrics) : SlidingWindowMetrics :=
  let outcome := mk_outcome m success duration_ms ts poisons_health in
  evict_expired ts (set_samples (samples m ++ [outcome]) m).

Record MetricsSnapshot : Type := {
  total_calls : nat;
  success_calls : nat;
  failed_calls : nat;
  slow_calls : nat;
  failure_rate : Q;
  slow_call_rate : Q;
}.

Definition is_failed (s : CallOutcome) : bool := negb (co_success s) && co_poisons_health s.

(** The counting loop of [snapshot]: (failed, success, slow). *)
Definition count_step (acc : nat * nat * nat) (s : CallOutcome) : nat * nat * nat :=
  let '(failed, success, slow) := acc in
  let '(failed, success) :=
    if negb (co_success s) && co_poisons_health s then (S failed, success)
    else if co_success s then (failed, S success) else (failed, success) in
  (failed, success, if co_is_slow s then S slow else slow).

Definition count_samples (l : list CallOutcome) : nat * nat * nat :=
  foldl count_step (0, 0, 0)%nat l.

Definition rate (k total : nat) : Q :=
  ((Qnat k / Qnat total) * 100)%Q.

(** [SlidingWindowMetrics.snapshot]; [clock] is what [self.clock()] returns
    when no time is given.  The eviction is visible in the returned window. *)
Definition metrics_snapshot (current_time : option Q) (clock : Q) (m : SlidingWindowMetrics)
    : MetricsSnapshot * SlidingWindowMetrics :=
  let now := match current_time with Some t => t | None => clock end in
  let m' := evict_expired now m in
  let total := length (samples m') in
  if (total =? 0)%nat then
    ({| total_calls := 0; success_calls := 0; failed_calls := 0; slow_calls := 0;
        failure_rate := 0; slow_call_rate := 0 |}, m')
  else
    let '(failed, success, slow) := count_samples (samples m') in
    ({| total_calls := total; success_calls := success; failed_calls := failed;
        slow_calls := slow;
        failure_rate := if (0 <? total)%nat then rate failed total else 0;
        slow_call_rate := if (0 <? total)%nat then rate slow total else 0 |}, m').

(** ** Counting *)

Definition countb {A} (p : A -> bool) (l : list A) : nat := length (filter (fun x => p x = true) l).

Lemma countb_cons {A} (p : A -> bool) x l : countb p (x :: l) = ((if p x then 1 else 0) + countb p l)%nat.
Proof. unfold countb. rewrite filter_cons. case_decide as E; rewrite ?E; [done|]. by destruct (p x). Qed.

Lemma countb_le {A} (p : A -> bool) l : (countb p l <= length l)%nat.
Proof. unfold countb. apply length_filter. Qed.

Lemma foldl_count_step l a b c :
  foldl count_step (a, b, c) l =
  ((a + countb is_failed l)%nat, (b + countb co_success l)%nat, (c + countb co_is_slow l)%nat).
Proof.
  revert a b c. induction l as [|s l IH]; intros a b c; simpl.
  - f_equal; [f_equal|]; unfold countb; simpl; lia.
  - rewrite !countb_cons.
    destruct s as [[] dur ts [] []]; simpl; rewrite IH; rewrite !pair_equal_spec; split_and!; lia.
Qed.

Lemma count_samples_eq l :
  count_samples l = (countb is_failed l, countb co_success l, countb co_is_slow l).
Proof. unfold count_samples. by rewrite foldl_count_step. Qed.

Lemma count_failed_success l : (countb is_failed l + countb co_success l <= length l)%nat.
Proof.
  induction l as [|s l IH]; [done|]. rewrite !countb_cons.
  destruct s as [[] dur ts sl []]; simpl in *; lia.
Qed.

Lemma rate_bounds k total : (k <= total)%nat -> (total <> 0)%nat -> (0 <= rate k total <= 100)%Q.
Proof.
  intros Hk Ht. unfold rate.
  pose proof (Qnat_pos total Ht) as Hpos. pose proof (Qnat_nonneg k).
  apply Qnat_le in Hk.
  assert (0 <= Qnat k / Qnat total)%Q by (apply Qle_shift_div_l; [done|lra]).
  assert (Qnat k / Qnat total <= 1)%Q by (apply Qle_shift_div_r; [done|lra]).
  lra.
Qed.

(** ** The snapshot is the reference statistics of the retained samples *)

Lemma snapshot_window now c m : snd (metrics_snapshot now c m) =
  evict_expired (match now with Some t => t | None => c end) m.
Proof. unfold metrics_snapshot. case_match; [done|]. by rewrite count_samples_eq. Qed.

Lemma snapshot_counts now c m :
  let l := samples (snd (metrics_snapshot now c m)) in
  let s := fst (metrics_snapshot now c m) in
  total_calls s = length l /\ success_calls s = countb co_success l /\
  failed_calls s = countb is_failed l /\ slow_calls s = countb co_is_slow l.
Proof.
  rewrite snapshot_window. unfold metrics_snapshot. case_match eqn:E.
  - apply Nat.eqb_eq, nil_length_inv in E. simpl. rewrite E. done.
  - rewrite count_samples_eq. done.
Qed.

(** Rates are percentages of the retained samples (0 on an empty window). *)
Lemma snapshot_rates now c m :
  let s := fst (metrics_snapshot now c m) in
  (failure_rate s = if (total_calls s =? 0)%nat then 0 else rate (failed_calls s) (total_calls s)) /\
  (slow_call_rate s = if (total_calls s =? 0)%nat then 0 else rate (slow_calls s) (total_calls s)).
Proof.
  unfold metrics_snapshot. case_match eqn:E; [done|].
  rewrite count_samples_eq. cbv zeta. simpl. rewrite E.
  apply Nat.eqb_neq in E. by rewrite (proj2 (Nat.ltb_lt _ _)) by lia.
Qed.

(** ** What the window retains

    Reference semantics: the outcomes recorded since the last reset, oldest
    first.  A count window is its last [window_size] outcomes; a time window
    is what a filter on the timestamps keeps, provided the recorded
    timestamps never decrease. *)

Definition ts_sorted (l : list CallOutcome) : Prop :=
  StronglySorted (fun a b => (co_timestamp a <= co_timestamp b)%Q) l.

Definition window_of (wt : SlidingWindowType) (ws : nat) (now : Q) (history : list CallOutcome)
    : list CallOutcome :=
  match wt with
  | COUNT_BASED => drop (length history - ws) history
  | TIME_BASED =>
      filter (fun s => (now - Qnat ws) ⪯ co_timestamp s = true) history
  end.

Lemma drop_while_filter cutoff l :
  ts_sorted l ->
  drop_while (fun s => co_timestamp s ≺ cutoff) l = filter (fun s => cutoff ⪯ co_timestamp s = true) l.
Proof.
  induction 1 as [|s l Hs IH Hall]; [done|]. simpl. rewrite filter_cons.
  destruct (co_timestamp s ≺ cutoff) eqn:E.
  - rewrite decide_False; [exact IH|]. unfold Qltb in E. by destruct (Qle_bool cutoff _).
  - rewrite decide_True by (qbool; lra). f_equal. symmetry. qbool.
    clear IH. induction Hall as [|x l Hx Hall IH]; [done|].
    rewrite filter_cons, decide_True by (qbool; lra). f_equal. apply IH. by inversion Hs.
Qed.

Lemma evict_expired_samples now m : ts_sorted (samples m) ->
  samples (evict_expired now m) = window_of (window_type m) (window_size m) now (samples m).
Proof.
  intros Hs. unfold evict_expired, window_of. destruct (window_type m); simpl; [done|].
  by rewrite drop_while_filter.
Qed.

(** The state of a window that has seen [history] and was last pruned at [last]. *)
Definition window_rep (history : list CallOutcome) (last : Q) (m : SlidingWindowMetrics) : Prop :=
  samples m = window_of (window_type m) (window_size m) last history /\
  ts_sorted history /\ Forall (fun s => (co_timestamp s <= last)%Q) history.

Lemma ts_sorted_filter (P : CallOutcome -> Prop) `{forall x, Decision (P x)} l : ts_sorted l -> ts_sorted (filter P l).
Proof.
  induction 1 as [|s l Hs IH Hall]; [constructor|]. rewrite filter_cons. case_decide; [|done].
  constructor; [done|]. eapply Forall_sub; [apply sublist_filter | done].
Qed.

Lemma ts_sorted_drop n l : ts_sorted l -> ts_sorted (drop n l).
Proof.
  intros Hl. revert n. induction Hl as [|s l Hs IH Hall]; intros [|n]; try constructor; simpl; try done.
Qed.

Lemma ts_sorted_window wt ws now l : ts_sorted l -> ts_sorted (window_of wt ws now l).
Proof. destruct wt; simpl; intros; [by apply ts_sorted_drop | by apply ts_sorted_filter]. Qed.

Lemma ts_sorted_snoc l x :
  ts_sorted l -> Forall (fun s => (co_timestamp s <= co_timestamp x)%Q) l -> ts_sorted (l ++ [x]).
Proof.
  induction 1 as [|s l Hs IH Hall]; simpl; intros Hf; [repeat constructor|].
  apply Forall_cons in Hf as [Hx Hf]. constructor; [by apply IH|].
  apply Forall_app. split; [done|]. by repeat constructor.
Qed.

(** Pruning twice at growing instants is pruning once at the later one. *)
Lemma window_of_mono wt ws t1 t2 l : (t1 <= t2)%Q ->
  window_of wt ws t2 (window_of wt ws t1 l) = window_of wt ws t2 l.
Proof.
  intros Ht. destruct wt; simpl.
  - rewrite drop_drop, length_drop. f_equal. lia.
  - rewrite list_filter_filter. apply list_filter_iff. intros s.
    split; [tauto|]. intros; split; [done|]. qbool. lra.
Qed.

Lemma window_of_snoc wt ws t1 t2 l x : (t1 <= t2)%Q ->
  window_of wt ws t2 (window_of wt ws t1 l ++ [x]) = window_of wt ws t2 (l ++ [x]).
Proof.
  intros Ht. destruct wt; simpl.
  - rewrite !length_app, length_drop. simpl.
    destruct (decide (ws <= length l)%nat).
    + replace (length l - (length l - ws) + 1 - ws)%nat with (ws + 1 - ws)%nat by lia.
      replace (length l + 1 - ws)%nat with ((length l - ws) + (ws + 1 - ws))%nat by lia.
      rewrite <- drop_drop. rewrite (drop_app_le l [x] (length l - ws)) by lia. done.
    + replace (length l - ws)%nat with 0%nat by lia. rewrite drop_0. f_equal. lia.
  - rewrite !filter_app. f_equal. apply (window_of_mono TIME_BASED ws t1 t2 l Ht).
Qed.

Lemma window_of_sublist wt ws t l : sublist (window_of wt ws t l) l.
Proof. destruct wt; simpl; [apply sublist_drop | apply sublist_filter]. Qed.

Lemma window_rep_new wt ws slow t : window_rep [] t (new_metrics wt ws slow).
Proof. split_and!; [by destruct wt | constructor | constructor]. Qed.

Lemma evict_window_type now m : window_type (evict_expired now m) = window_type m.
Proof. unfold evict_expired. by case_match. Qed.
Lemma evict_window_size now m : window_size (evict_expired now m) = window_size m.
Proof. unfold evict_expired. by case_match. Qed.
#[export] Hint Rewrite evict_window_type evict_window_size : durallm.

Lemma window_rep_evict h last now m :
  window_rep h last m -> (last <= now)%Q -> window_rep h now (evict_expired now m).
Proof.
  intros (Hs & Hsort & Hle) Hnow. split_and!; [| done | eapply Forall_impl; [exact Hle | simpl; intros; lra]].
  autorewrite with durallm. rewrite evict_expired_samples by (rewrite Hs; by apply ts_sorted_window).
  rewrite Hs. by apply window_of_mono.
Qed.

Lemma window_rep_record h last ok dur ts poisons m :
  window_rep h last m -> (last <= ts)%Q ->
  window_rep (h ++ [mk_outcome m ok dur ts poisons]) ts (metrics_record ok dur ts poisons m).
Proof.
  intros (Hs & Hsort & Hle) Hts. unfold metrics_record.
  set (o := mk_outcome m ok dur ts poisons).
  assert (Forall (fun s => (co_timestamp s <= co_timestamp o)%Q) h) as Hle'
    by (eapply Forall_impl; [exact Hle | simpl; intros; lra]).
  assert (ts_sorted (samples m ++ [o])) as Hsorted.
  { apply ts_sorted_snoc; [rewrite Hs; by apply ts_sorted_window|].
    eapply Forall_sub; [|exact Hle']. rewrite Hs. apply window_of_sublist. }
  split_and!.
  - autorewrite with durallm. rewrite evict_expired_samples by done. simpl. rewrite Hs. by apply window_of_snoc.
  - by apply ts_sorted_snoc.
  - apply Forall_app. split; [done|]. repeat constructor. simpl. lra.
Qed.

(** A completed call as reported to the window. *)
Record call_report : Type := { cr_ok : bool; cr_dur : Q; cr_ts : Q; cr_poisons : bool }.

Definition record_report (m : SlidingWindowMetrics) (c : call_report) : SlidingWindowMetrics :=
  metrics_record (cr_ok c) (cr_dur c) (cr_ts c) (cr_poisons c) m.

Definition report_outcome (slow : Q) (c : call_report) : CallOutcome :=
  {| co_success := cr_ok c; co_duration_ms := cr_dur c; co_timestamp := cr_ts c;
     co_is_slow := slow ⪯ cr_dur c; co_poisons_health := cr_poisons c |}.

Lemma metrics_record_config ok dur ts poisons m :
  slow_call_duration_ms (metrics_record ok dur ts poisons m) = slow_call_duration_ms m /\
  window_type (metrics_record ok dur ts poisons m) = window_type m /\
  window_size (metrics_record ok dur ts poisons m) = window_size m.
Proof. unfold metrics_record, evict_expired. by case_match. Qed.

(** The instant of the last report. *)
Definition last_ts (t0 : Q) (calls : list call_report) : Q := foldl (fun _ c => cr_ts c) t0 calls.

Definition reports_sorted (calls : list call_report) : Prop :=
  StronglySorted (fun a b => (cr_ts a <= cr_ts b)%Q) calls.

Lemma records_rep calls h t0 m :
  window_rep h t0 m -> reports_sorted calls -> Forall (fun c => (t0 <= cr_ts c)%Q) calls ->
  window_rep (h ++ map (report_outcome (slow_call_duration_ms m)) calls) (last_ts t0 calls)
    (foldl record_report m calls).
Proof.
  revert h t0 m. induction calls as [|c calls IH]; intros h t0 m Hrep Hsort Hle; simpl.
  - by rewrite app_nil_r.
  - apply StronglySorted_inv in Hsort as [Hsort Hall]. apply Forall_cons in Hle as [Hc Hle].
    destruct (metrics_record_config (cr_ok c) (cr_dur c) (cr_ts c) (cr_poisons c) m) as (Hslow & _ & _).
    specialize (IH (h ++ [report_outcome (slow_call_duration_ms m) c]) (cr_ts c) (record_report m c)).
    unfold record_report at 2 in IH. rewrite Hslow, <- app_assoc in IH. apply IH; [|done|done].
    by apply window_rep_record with (last := t0).
Qed.

Lemma records_config calls m :
  window_type (foldl record_report m calls) = window_type m /\
  window_size (foldl record_report m calls) = window_size m.
Proof.
  revert m. induction calls as [|c calls IH]; intros m; [done|]. simpl.
  destruct (IH (record_report m c)) as [-> ->].
  apply metrics_record_config.
Qed.

(** ** Properties *)

(** Refinement of the sliding window.  After any series of reports with
    non-decreasing timestamps and a final snapshot at [now], the retained
    samples are exactly the reference window of the full history: its last
    [window_size] outcomes for a count window, the outcomes not older than
    [window_size] seconds for a time window; and the snapshot's counters are
    the reference counts of that window. *)
Theorem window_refines_history wt ws slow t0 now calls c :
  reports_sorted calls -> Forall (fun r => (t0 <= cr_ts r)%Q) calls ->
  (last_ts t0 calls <= now)%Q ->
  let history := map (report_outcome slow) calls in
  let retained := window_of wt ws now history in
  let out := metrics_snapshot (Some now) c (foldl record_report (new_metrics wt ws slow) calls) in
  samples (snd out) = retained /\
  total_calls (fst out) = length retained /\
  failed_calls (fst out) = countb is_failed retained /\
  success_calls (fst out) = countb co_success retained /\
  slow_calls (fst out) = countb co_is_slow retained.
Proof.
  intros Hsort Hle Hnow history retained out.
  pose proof (records_rep calls [] t0 _ (window_rep_new wt ws slow t0) Hsort Hle) as Hrep.
  assert (samples (snd out) = retained) as Hret.
  { unfold out. rewrite snapshot_window.
    destruct (window_rep_evict _ _ now _ Hrep Hnow) as (-> & _).
    autorewrite with durallm.
    by destruct (records_config calls (new_metrics wt ws slow)) as [-> ->]. }
  destruct (snapshot_counts (Some now) c (foldl record_report (new_metrics wt ws slow) calls))
    as (H1 & H2 & H3 & H4).
  fold out in H1, H2, H3, H4. rewrite Hret in *. done.
Qed.

Definition demo_calls : list call_report :=
  [ {| cr_ok := true; cr_dur := 10; cr_ts := 1; cr_poisons := true |};
    {| cr_ok := false; cr_dur := 10; cr_ts := 2; cr_poisons := true |};
    {| cr_ok := false; cr_dur := 900; cr_ts := 8; cr_poisons := false |} ].

Lemma window_refines_history_witness :
  let out := metrics_snapshot (Some 9) 0
    (foldl record_report (new_metrics TIME_BASED 7 500) demo_calls) in
  failed_calls (fst out) = countb is_failed
    (window_of TIME_BASED 7 9 (map (report_outcome 500) demo_calls)) /\ failed_calls (fst out) = 1%nat.
Proof.
  destruct (window_refines_history TIME_BASED 7 500 0 9 demo_calls 0) as (_ & _ & H & _).
  - repeat constructor; unfold Qle; simpl; lia.
  - repeat constructor; unfold Qle; simpl; lia.
  - unfold Qle; simpl; lia.
  - split; [exact H | vm_compute; reflexivity].
Defined.

(** The statistics are well formed on every window: counters never exceed
    the number of retained samples and both rates are percentages, even on an
    empty window (no division by zero). *)
Theorem snapshot_well_formed now c m :
  let s := fst (metrics_snapshot now c m) in
  (success_calls s + failed_calls s <= total_calls s)%nat /\
  (slow_calls s <= total_calls s)%nat /\
  (0 <= failure_rate s <= 100)%Q /\ (0 <= slow_call_rate s <= 100)%Q.
Proof.
  pose proof (snapshot_counts now c m) as (H1 & H2 & H3 & H4).
  pose proof (snapshot_rates now c m) as (H5 & H6). cbv zeta in *.
  set (s := fst (metrics_snapshot now c m)) in *.
  set (l := samples (snd (metrics_snapshot now c m))) in *.
  pose proof (count_failed_success l). pose proof (countb_le co_is_slow l).
  rewrite H5, H6. split_and!; try lia; destruct (total_calls s =? 0)%nat eqn:E; try lra;
    apply Nat.eqb_neq in E; apply rate_bounds; lia.
Qed.
