(* ===== verification/Breaker.v ===== *)
(** * Circuit breaker

    [src/durallm/breaker/state.py], [src/durallm/breaker/circuit_breaker.py].
    Every public method holds the breaker's re-entrant lock, so it is one
    atomic step; an interleaving of threads is a sequence of such steps.  The
    monotonic clock is read where the code reads it, possibly several times in
    one method.  The cluster store is shared between breakers of several
    processes, so it is a component of the state the methods act on, reached
    through the [BreakerSync] interface. *)

From stdpp Require Import base tactics list strings.
From Stdlib Require Import QArith Qround Lqa.
From S2P Require Import Prelude Models Metrics.

(** ** States and events *)

Inductive CircuitBreakerState : Type :=
| CLOSED | OPEN | HALF_OPEN | FORCED_OPEN | DISABLED | METRICS_ONLY.

#[export] Instance CircuitBreakerState_eq_dec : EqDecision CircuitBreakerState.
Proof. solve_decision. Defined.

Definition state_value (s : CircuitBreakerState) : string :=
  match s with
  | CLOSED => "CLOSED" | OPEN => "OPEN" | HALF_OPEN => "HALF_OPEN"
  | FORCED_OPEN => "FORCED_OPEN" | DISABLED => "DISABLED" | METRICS_ONLY => "METRICS_ONLY"
  end.

(** The ingredients of the human-readable transition reason. *)
Inductive TransitionReason : Type :=
| RemoteTrip
| WaitElapsed (wait_seconds : Q)
| ProbeTimeout
| ProbesSucceeded (successful_calls : nat)
| ProbeFailed (message : string)
| FailureRateTrip (rate threshold : Q) (failed total : nat)
| SlowRateTrip (rate threshold : Q) (slow total : nat)
| AdminForcedOpen | AdminForcedClosed | AdminDisabled | ResetToClosed.

Record StateTransitionEvent : Type := {
  ev_breaker_id : string;
  ev_from : CircuitBreakerState;
  ev_to : CircuitBreakerState;
  ev_timestamp : Q;
  ev_reason : TransitionReason;
  ev_metrics : MetricsSnapshot;
}.

Record CircuitBreakerConfig : Type := {
  failure_rate_threshold : Q;
  slow_call_rate_threshold : Q;
  cfg_slow_call_duration_ms : Q;
  minimum_number_of_calls : nat;
  sliding_window_type : SlidingWindowType;
  sliding_window_size : nat;
  wait_duration_open_ms : Q;
  half_open_max_calls : nat;
  max_half_open_duration_ms : Q;
}.

Definition default_breaker_config : CircuitBreakerConfig :=
  {| failure_rate_threshold := 50; slow_call_rate_threshold := 100;
     cfg_slow_call_duration_ms := 120000; minimum_number_of_calls := 10;
     sliding_window_type := COUNT_BASED; sliding_window_size := 20;
     wait_duration_open_ms := 30000; half_open_max_calls := 2;
     max_half_open_duration_ms := 10000 |}.

(** The breaker object.  [journal] is the log line every transition writes
    (oldest first); [delivered] is what the registered listeners received. *)
Record CircuitBreaker : Type := {
  breaker_id : string;
  config : CircuitBreakerConfig;
  bstate : CircuitBreakerState;
  opened_at : Q;
  half_open_entered_at : Q;
  half_open_in_flight : nat;
  half_open_successes : nat;
  metrics : SlidingWindowMetrics;
  event_listeners : list string;
  delivered : list (string * StateTransitionEvent);
  journal : list StateTransitionEvent;
}.

(** [CircuitBreaker.__init__] *)
Definition new_breaker (id : string) (cfg : CircuitBreakerConfig) : CircuitBreaker :=
  {| breaker_id := id; config := cfg; bstate := CLOSED; opened_at := 0;
     half_open_entered_at := 0; half_open_in_flight := 0; half_open_successes := 0;
     metrics := new_metrics (sliding_window_type cfg) (sliding_window_size cfg)
                  (cfg_slow_call_duration_ms cfg);
     event_listeners := []; delivered := []; journal := [] |}.

(** Assignments to one field. *)
Definition with_state (s : CircuitBreakerState) (b : CircuitBreaker) : CircuitBreaker :=
  Build_CircuitBreaker (breaker_id b) (config b) s (opened_at b) (half_open_entered_at b)
    (half_open_in_flight b) (half_open_successes b) (metrics b) (event_listeners b) (delivered b) (journal b).
Definition with_opened_at (t : Q) (b : CircuitBreaker) : CircuitBreaker :=
  Build_CircuitBreaker (breaker_id b) (config b) (bstate b) t (half_open_entered_at b)
    (half_open_in_flight b) (half_open_successes b) (metrics b) (event_listeners b) (delivered b) (journal b).
Definition with_half_open_entered_at (t : Q) (b : CircuitBreaker) : CircuitBreaker :=
  Build_CircuitBreaker (breaker_id b) (config b) (bstate b) (opened_at b) t
    (half_open_in_flight b) (half_open_successes b) (metrics b) (event_listeners b) (delivered b) (journal b).
Definition with_in_flight (n : nat) (b : CircuitBreaker) : CircuitBreaker :=
  Build_CircuitBreaker (breaker_id b) (config b) (bstate b) (opened_at b) (half_open_entered_at b)
    n (half_open_successes b) (metrics b) (event_listeners b) (delivered b) (journal b).
Definition with_successes (n : nat) (b : CircuitBreaker) : CircuitBreaker :=
  Build_CircuitBreaker (breaker_id b) (config b) (bstate b) (opened_at b) (half_open_entered_at b)
    (half_open_in_flight b) n (metrics b) (event_listeners b) (delivered b) (journal b).
Definition with_metrics (m : SlidingWindowMetrics) (b : CircuitBreaker) : CircuitBreaker :=
  Build_CircuitBreaker (breaker_id b) (config b) (bstate b) (opened_at b) (half_open_entered_at b)
    (half_open_in_flight b) (half_open_successes b) m (event_listeners b) (delivered b) (journal b).
Definition with_event (e : StateTransitionEvent) (b : CircuitBreaker) : CircuitBreaker :=
  Build_CircuitBreaker (breaker_id b) (config b) (bstate b) (opened_at b) (half_open_entered_at b)
    (half_open_in_flight b) (half_open_successes b) (metrics b) (event_listeners b) (delivered b)
    (journal b ++ [e]).
Definition with_delivery (l : string) (e : StateTransitionEvent) (b : CircuitBreaker) : CircuitBreaker :=
  Build_CircuitBreaker (breaker_id b) (config b) (bstate b) (opened_at b) (half_open_entered_at b)
    (half_open_in_flight b) (half_open_successes b) (metrics b) (event_listeners b)
    (delivered b ++ [(l, e)]) (journal b).
Definition with_listener (l : string) (b : CircuitBreaker) : CircuitBreaker :=
  Build_CircuitBreaker (breaker_id b) (config b) (bstate b) (opened_at b) (half_open_entered_at b)
    (half_open_in_flight b) (half_open_successes b) (metrics b) (event_listeners b ++ [l])
    (delivered b) (journal b).

(** ** The shared cluster store, as the breaker sees it *)

Record RemoteBreaker : Type := {
  rb_provider : string;
  rb_state : string;
  rb_error_count : Z;
  rb_trip_timestamp : Q;
  rb_updated_at : Q;
}.

(** Operations the breaker calls; they may raise, and the breaker then only
    logs a warning. *)
Class BreakerSync (C : Type) : Type := {
  sync_breaker_state : string -> string -> Z -> Q -> M exn C unit;
  get_cluster_breaker_state : string -> M exn C (option RemoteBreaker);
}.

(** A deployment without a shared store. *)
#[export] Instance no_sync : BreakerSync unit := {|
  sync_breaker_state _ _ _ _ := mret tt;
  get_cluster_breaker_state _ := mret None |}.

Section breaker.
Context {C : Type} `{BreakerSync C} (clock : nat -> Q).

(** State of a method: the breaker and the cluster store, if any. *)
Local Abbreviation B := (M exn (CircuitBreaker * option C)).

Definition upd (f : CircuitBreaker -> CircuitBreaker) : B unit :=
  modify (fun w => (f (fst w), snd w)).
Definition self {A} (f : CircuitBreaker -> A) : B A := gets (fun w => f (fst w)).

(** Calls a cluster method when a cluster store is configured. *)
Definition on_cluster {A} (dflt : A) (m : M exn C A) : B A := fun w n =>
  match snd w with
  | None => (Ok dflt, w, n)
  | Some c => let '(r, c', n') := m c n in (r, (fst w, Some c'), n')
  end.

Definition state_is (s : CircuitBreakerState) (b : CircuitBreaker) : bool :=
  bool_decide (bstate b = s).

(** [self._metrics.snapshot(now)] *)
Definition self_snapshot (now : Q) : B MetricsSnapshot :=
  m ← self metrics;
  let '(snap, m') := metrics_snapshot (Some now) 0 m in
  upd (with_metrics m') ;; mret snap.

(** The cluster part of [_emit_transition]: errors of the store are only logged. *)
Definition publish_transition (id : string) (to : CircuitBreakerState) (now : Q) : B unit :=
  w ← get;
  match snd w with
  | None => mret tt
  | Some _ =>
      try_except
        (snap ← self_snapshot now;
         on_cluster tt (sync_breaker_state id (state_value to) (Qfloor (failure_rate snap)) now))
        (mret tt)
  end.

(** [_emit_transition] *)
Definition emit_transition (from to : CircuitBreakerState) (reason : TransitionReason) : B unit :=
  now ← read_clock clock;
  snap ← self_snapshot now;
  id ← self breaker_id;
  let event := {| ev_breaker_id := id; ev_from := from; ev_to := to; ev_timestamp := now;
                  ev_reason := reason; ev_metrics := snap |} in
  upd (with_event event) ;;
  publish_transition id to now ;;
  ls ← self event_listeners;
  for_each ls (fun l => upd (with_delivery l event)).

(** [_check_and_update_state] *)
Definition check_and_update_state : B unit :=
  now ← read_clock clock;
  w ← get;
  remote ←
    (if state_is CLOSED (fst w) then
       try_except (on_cluster None (get_cluster_breaker_state (breaker_id (fst w)))) (mret None)
     else mret None);
  if (if remote is Some r then String.eqb (rb_state r) "OPEN" else false) then
    upd (with_state OPEN) ;; upd (with_opened_at now) ;;
    emit_transition CLOSED OPEN RemoteTrip
  else
  b ← self id;
  if state_is OPEN b then
    let wait_seconds := (wait_duration_open_ms (config b) / 1000)%Q in
    when ((opened_at b + wait_seconds)%Q ⪯ now)
      (upd (with_state HALF_OPEN) ;; upd (with_half_open_entered_at now) ;;
       upd (with_in_flight 0) ;; upd (with_successes 0) ;;
       emit_transition OPEN HALF_OPEN (WaitElapsed wait_seconds))
  else if state_is HALF_OPEN b then
    let max_half_open_seconds := (max_half_open_duration_ms (config b) / 1000)%Q in
    when ((max_half_open_seconds ≺ now - half_open_entered_at b) && (half_open_in_flight b =? 0)%nat)
      (upd (with_state OPEN) ;; upd (with_opened_at now) ;;
       emit_transition HALF_OPEN OPEN ProbeTimeout)
  else mret tt.

(** The [state] property. *)
Definition state : B CircuitBreakerState := check_and_update_state ;; self bstate.

Definition add_event_listener (l : string) : B unit := upd (with_listener l).

(** [acquire_permission] *)
Definition acquire_permission : B bool :=
  check_and_update_state ;;
  b ← self id;
  match bstate b with
  | FORCED_OPEN => raise (BreakerForcedOpenError (breaker_id b))
  | DISABLED | METRICS_ONLY => mret true
  | CLOSED => mret true
  | OPEN =>
      now ← read_clock clock;
      let remaining := py_max 0 ((opened_at b + wait_duration_open_ms (config b) / 1000) - now) in
      raise (BreakerOpenError (breaker_id b) remaining)
  | HALF_OPEN =>
      if (half_open_max_calls (config b) <=? half_open_in_flight b)%nat
      then raise (ProbeAdmissionDeniedError (breaker_id b))
      else upd (with_in_flight (S (half_open_in_flight b))) ;; mret true
  end.

(** The threshold test of [_evaluate_closed_thresholds]: the failure rate is
    looked at first, and nothing trips below the minimum number of calls. *)
Definition trip_reason (cfg : CircuitBreakerConfig) (snapshot : MetricsSnapshot)
    : option TransitionReason :=
  let total := total_calls snapshot in
  if (total <? minimum_number_of_calls cfg)%nat then None
  else if failure_rate_threshold cfg ⪯ failure_rate snapshot then
    Some (FailureRateTrip (failure_rate snapshot) (failure_rate_threshold cfg)
            (failed_calls snapshot) total)
  else if slow_call_rate_threshold cfg ⪯ slow_call_rate snapshot then
    Some (SlowRateTrip (slow_call_rate snapshot) (slow_call_rate_threshold cfg)
            (slow_calls snapshot) total)
  else None.

(** [_evaluate_closed_thresholds] *)
Definition evaluate_closed_thresholds (now : Q) : B unit :=
  b ← self id;
  if negb (state_is CLOSED b) then mret tt else
  snapshot ← self_snapshot now;
  match trip_reason (config b) snapshot with
  | Some reason =>
      upd (with_state OPEN) ;; upd (with_opened_at now) ;;
      emit_transition CLOSED OPEN reason
  | None => mret tt
  end.

(** [self._metrics.record(...)] *)
Definition self_record (success : bool) (duration_ms now : Q) (poisons : bool) : B unit :=
  upd (fun b => with_metrics (metrics_record success duration_ms now poisons (metrics b)) b).

(** [record_success] *)
Definition record_success (duration_ms : Q) : B unit :=
  now ← read_clock clock;
  check_and_update_state ;;
  b ← self id;
  if state_is HALF_OPEN b then
    upd (with_in_flight (half_open_in_flight b - 1)) ;;
    upd (with_successes (half_open_successes b + 1)) ;;
    if (half_open_max_calls (config b) <=? half_open_successes b + 1)%nat then
      upd (with_state CLOSED) ;;
      upd (fun b => with_metrics (metrics_reset (metrics b)) b) ;;
      upd (with_in_flight 0) ;; upd (with_successes 0) ;;
      n ← self half_open_successes;
      emit_transition HALF_OPEN CLOSED (ProbesSucceeded n)
    else mret tt
  else
    self_record true duration_ms now true ;;
    when (state_is CLOSED b) (evaluate_closed_thresholds now).

(** [record_failure]; [error] is the exception's text, if an exception was given. *)
Definition record_failure (duration_ms : Q) (error : option string)
    (failure_classification : option FailureClassification) : B unit :=
  now ← read_clock clock;
  check_and_update_state ;;
  b ← self id;
  let poisons := match failure_classification with Some c => fc_poisons_health c | None => true end in
  if state_is HALF_OPEN b then
    upd (with_in_flight (half_open_in_flight b - 1)) ;;
    when poisons
      (upd (with_state OPEN) ;; upd (with_opened_at now) ;;
       upd (with_in_flight 0) ;; upd (with_successes 0) ;;
       emit_transition HALF_OPEN OPEN
         (ProbeFailed (match error, failure_classification with
                       | Some e, _ => e
                       | None, Some c => fc_message c
                       | None, None => "error"
                       end)))
  else
    self_record false duration_ms now poisons ;;
    when (state_is CLOSED b && poisons) (evaluate_closed_thresholds now).

(** Administrative operations. *)
Definition force_open : B unit :=
  prev ← self bstate;
  upd (with_state FORCED_OPEN) ;; emit_transition prev FORCED_OPEN AdminForcedOpen.

Definition force_closed : B unit :=
  prev ← self bstate;
  upd (with_state CLOSED) ;;
  upd (fun b => with_metrics (metrics_reset (metrics b)) b) ;;
  emit_transition prev CLOSED AdminForcedClosed.

Definition disable : B unit :=
  prev ← self bstate;
  upd (with_state DISABLED) ;; emit_transition prev DISABLED AdminDisabled.

Definition reset : B unit :=
  prev ← self bstate;
  upd (with_state CLOSED) ;; upd (with_opened_at 0) ;;
  upd (with_in_flight 0) ;; upd (with_successes 0) ;;
  upd (fun b => with_metrics (metrics_reset (metrics b)) b) ;;
  when (negb (bool_decide (prev = CLOSED))) (emit_transition prev CLOSED ResetToClosed).

Record BreakerSnapshot : Type := {
  bs_id : string;
  bs_state : string;
  bs_metrics : MetricsSnapshot;
  bs_remaining_wait_seconds : Q;
  bs_half_open_in_flight : nat;
  bs_half_open_successes : nat;
}.

(** [snapshot] *)
Definition snapshot : B BreakerSnapshot :=
  check_and_update_state ;;
  now ← read_clock clock;
  m_snap ← self_snapshot now;
  b ← self id;
  let remaining_wait :=
    if state_is OPEN b
    then py_max 0 ((opened_at b + wait_duration_open_ms (config b) / 1000) - now) else 0%Q in
  mret {| bs_id := breaker_id b; bs_state := state_value (bstate b); bs_metrics := m_snap;
          bs_remaining_wait_seconds := remaining_wait;
          bs_half_open_in_flight := half_open_in_flight b;
          bs_half_open_successes := half_open_successes b |}.
End breaker.
