(* ===== verification/BreakerSpec.v ===== *)
(** * Correctness of the circuit breaker

    What each method of [src/durallm/breaker/circuit_breaker.py] does on each
    branch, whatever the clock, the cluster store and the other processes do: the
    automatic check, the evaluation of the thresholds, and the effects of a
    permit, a success and a failure.  [BreakerFSM] builds the state machine on
    these. *)

From stdpp Require Import base tactics list strings relations.
From Stdlib Require Import QArith Qround Lqa.
From S2P Require Import Prelude Models Metrics Breaker.

(** ** What a transition event changes *)

(** The fields no emission touches. *)
Definition core (b : CircuitBreaker) :=
  (breaker_id b, config b, bstate b, opened_at b, half_open_entered_at b,
   half_open_in_flight b, half_open_successes b, event_listeners b,
   window_type (metrics b), window_size (metrics b), slow_call_duration_ms (metrics b)).

Lemma core_fields b b' : core b' = core b ->
  bstate b' = bstate b /\ opened_at b' = opened_at b /\ half_open_entered_at b' = half_open_entered_at b /\
  half_open_in_flight b' = half_open_in_flight b /\ half_open_successes b' = half_open_successes b /\
  config b' = config b /\ breaker_id b' = breaker_id b.
Proof. unfold core. intros. by simplify_eq. Qed.

(** [b'] is [b] after a transition event [from -> to] was published. *)
Definition emitted (from to : CircuitBreakerState) (r : TransitionReason) (b b' : CircuitBreaker) : Prop :=
  core b' = core b /\
  sublist (samples (metrics b')) (samples (metrics b)) /\
  exists ev, journal b' = journal b ++ [ev] /\ ev_from ev = from /\ ev_to ev = to /\ ev_reason ev = r /\
    ev_breaker_id ev = breaker_id b /\
    delivered b' = delivered b ++ map (fun l => (l, ev)) (event_listeners b).

Lemma evict_sublist t m : sublist (samples (evict_expired t m)) (samples m).
Proof.
  unfold evict_expired. case_match; simpl; [apply drop_excess_sublist | apply drop_while_sublist].
Qed.

Lemma evict_slow t m : slow_call_duration_ms (evict_expired t m) = slow_call_duration_ms m.
Proof. unfold evict_expired. by case_match. Qed.
#[export] Hint Rewrite evict_slow : durallm.

Definition wait_seconds (b : CircuitBreaker) : Q := (wait_duration_open_ms (config b) / 1000)%Q.
Definition probe_window (b : CircuitBreaker) : Q := (max_half_open_duration_ms (config b) / 1000)%Q.

(** The automatic transition evaluated at the instant [now]. *)
Inductive checked (now : Q) (b : CircuitBreaker) : CircuitBreaker -> Prop :=
| ck_same :
    (bstate b = OPEN -> (now < opened_at b + wait_seconds b)%Q) ->
    (bstate b = HALF_OPEN ->
      (now - half_open_entered_at b <= probe_window b)%Q \/ half_open_in_flight b <> 0%nat) ->
    checked now b b
| ck_remote b' :
    bstate b = CLOSED ->
    emitted CLOSED OPEN RemoteTrip (with_opened_at now (with_state OPEN b)) b' ->
    checked now b b'
| ck_wait b' :
    bstate b = OPEN -> (opened_at b + wait_seconds b <= now)%Q ->
    emitted OPEN HALF_OPEN (WaitElapsed (wait_seconds b))
      (with_successes 0 (with_in_flight 0 (with_half_open_entered_at now (with_state HALF_OPEN b)))) b' ->
    checked now b b'
| ck_timeout b' :
    bstate b = HALF_OPEN -> half_open_in_flight b = 0%nat ->
    (probe_window b < now - half_open_entered_at b)%Q ->
    emitted HALF_OPEN OPEN ProbeTimeout (with_opened_at now (with_state OPEN b)) b' ->
    checked now b b'.

Section spec.
Context {C : Type} `{BreakerSync C} (clock : nat -> Q).
Implicit Types (b : CircuitBreaker) (w : CircuitBreaker * option C).

Lemma self_snapshot_eq now w n :
  self_snapshot now w n =
  (Ok (fst (metrics_snapshot (Some now) 0 (metrics (fst w)))),
   (with_metrics (evict_expired now (metrics (fst w))) (fst w), snd w), n).
Proof.
  unfold self_snapshot, mbind, M_bind, self, gets, upd, modify, mret, M_ret.
  destruct (metrics_snapshot (Some now) 0 (metrics (fst w))) as [s m'] eqn:E.
  pose proof (snapshot_window (Some now) 0 (metrics (fst w))) as Hw. rewrite E in Hw. simpl in *. by subst.
Qed.

Lemma deliver_eq ls ev w n :
  exists b', for_each ls (fun l => upd (C:=C) (with_delivery l ev)) w n = (Ok tt, (b', snd w), n) /\
    core b' = core (fst w) /\ metrics b' = metrics (fst w) /\ journal b' = journal (fst w) /\
    delivered b' = delivered (fst w) ++ map (fun l => (l, ev)) ls.
Proof.
  revert w. induction ls as [|l ls IH]; intros [b c]; simpl.
  - exists b. by rewrite app_nil_r.
  - destruct (IH (with_delivery l ev b, c)) as (b' & Heq & Hc & Hm & Hj & Hd).
    exists b'. split_and!; [exact Heq | rewrite Hc; done | done | done |].
    rewrite Hd. simpl. by rewrite <- app_assoc.
Qed.

Lemma on_cluster_fst {A} (d : A) m w n : fst (out_st (on_cluster (C:=C) d m w n)) = fst w.
Proof. unfold on_cluster. destruct (snd w) as [c|]; [|done]. by destruct (m c n) as [[r c'] n']. Qed.

(** Publishing to the cluster never raises and leaves the breaker's fields alone. *)
Lemma publish_eq id st now w n (b := fst w) :
  exists w' n', publish_transition id st now w n = (Ok tt, w', n') /\
    core (fst w') = core b /\ sublist (samples (metrics (fst w'))) (samples (metrics b)) /\
    journal (fst w') = journal b /\ delivered (fst w') = delivered b.
Proof.
  unfold publish_transition. erewrite bind_ok by reflexivity. destruct (snd w) eqn:Ew.
  - unfold try_except, mbind, M_bind. rewrite self_snapshot_eq.
    match goal with |- context [on_cluster ?d ?m ?w ?n] =>
      pose proof (on_cluster_fst d m w n) as Hf; destruct (on_cluster d m w n) as [[[[]|e] w'] n'] end;
    (eexists _, _; split; [reflexivity|]; unfold out_st in Hf; simpl in Hf; rewrite Hf;
     unfold core; simpl; autorewrite with durallm; split_and!; try done; apply evict_sublist).
  - eexists _, _. split; [reflexivity|]. done.
Qed.

Lemma emit_transition_spec from to r w n :
  exists w' n', emit_transition clock from to r w n = (Ok tt, w', n') /\
    emitted from to r (fst w) (fst w').
Proof.
  destruct w as [b oc]. unfold emit_transition.
  erewrite bind_ok by reflexivity. erewrite bind_ok by apply self_snapshot_eq.
  erewrite bind_ok by reflexivity. erewrite bind_ok by reflexivity. cbv zeta. simpl fst. simpl snd.
  match goal with |- context [with_event ?e _] => set (ev := e) end.
  set (b1 := with_event ev _).
  destruct (publish_eq (breaker_id b) to (clock n) (b1, oc) (S n)) as (w' & n' & Hp & Hc & Hs & Hj & Hd).
  erewrite bind_ok by exact Hp. erewrite bind_ok by reflexivity.
  destruct (deliver_eq (event_listeners (fst w')) ev w' n') as (b' & Heq & Hc' & Hm' & Hj' & Hd').
  exists (b', snd w'), n'. split; [exact Heq|].
  assert (core b1 = core b) as Hb1 by (unfold core; simpl; by autorewrite with durallm).
  assert (event_listeners (fst w') = event_listeners b) as Hl by (pose proof (eq_trans Hc Hb1) as Hcc; unfold core in Hcc; by inversion Hcc).
  split_and!; [exact (eq_trans Hc' (eq_trans Hc Hb1)) | |].
  - simpl. rewrite Hm'. etrans; [exact Hs|]. apply evict_sublist.
  - exists ev. simpl. rewrite Hj', Hd', Hj, Hd, Hl. done.
Qed.
(** The remote lookup never raises and leaves the breaker alone. *)
Lemma remote_lookup_eq w n :
  exists r w' n',
    (if state_is CLOSED (fst w) then
       try_except (on_cluster None (get_cluster_breaker_state (breaker_id (fst w)))) (mret None)
     else mret None) w n = (Ok r, w', n') /\ fst w' = fst w /\
    (bstate (fst w) <> CLOSED -> r = None) /\ (snd w = None -> r = None /\ w' = w /\ n' = n).
Proof.
  unfold state_is. case_bool_decide as Hs; [|by eexists _, _, _].
  unfold try_except.
  match goal with |- context [on_cluster ?d ?m ?w ?n] =>
    pose proof (on_cluster_fst d m w n) as Hf;
    assert (snd w = None -> on_cluster d m w n = (Ok None, w, n)) as Hn
      by (unfold on_cluster; intros ->; done);
    destruct (on_cluster d m w n) as [[[r|e] w'] n'] eqn:Eq end; unfold out_st in Hf; simpl in Hf.
  - exists r, w', n'. split_and!; try done. intros Hw. specialize (Hn Hw). by simplify_eq.
  - eexists _, _, _. split_and!; try done. intros Hw. specialize (Hn Hw). by simplify_eq.
Qed.

Lemma check_spec w n :
  exists w' n', check_and_update_state clock w n = (Ok tt, w', n') /\ checked (clock n) (fst w) (fst w').
Proof.
  unfold check_and_update_state. do 2 mstep.
  destruct (remote_lookup_eq w (S n)) as (r & w1 & n1 & Heq & Hw1 & Hr & _).
  mstep.
  destruct (if r is Some r then String.eqb (rb_state r) "OPEN" else false) eqn:Erem.
  - assert (bstate (fst w) = CLOSED) as Hcl
      by (destruct (decide (bstate (fst w) = CLOSED)) as [|Hne]; [done | by rewrite (Hr Hne) in Erem]).
    do 2 mstep.
    edestruct emit_transition_spec as (w' & n' & He & Hem). exists w', n'. split; [exact He|].
    eapply ck_remote; [done|]. simpl in Hem. by rewrite Hw1 in Hem.
  - mstep. clear Heq Hr Erem. rewrite Hw1. unfold state_is, id in *.
    case_bool_decide as Ho; [|case_bool_decide as Hh].
    + unfold when. case_match eqn:Et; qbool.
      * do 4 mstep.
        edestruct emit_transition_spec as (w' & n' & He & Hem). exists w', n'. split; [exact He|].
        eapply ck_wait; [done | done |]. simpl in Hem. by rewrite Hw1 in Hem.
      * eexists _, _. split; [reflexivity|]. rewrite Hw1. apply ck_same; [done | congruence].
    + unfold when. case_match eqn:Et.
      * apply andb_true_iff in Et as [Et1 Et2%Nat.eqb_eq]. qbool.
        do 2 mstep.
        edestruct emit_transition_spec as (w' & n' & He & Hem). exists w', n'. split; [exact He|].
        eapply ck_timeout; [done | done | done |]. simpl in Hem. by rewrite Hw1 in Hem.
      * eexists _, _. split; [reflexivity|]. rewrite Hw1. apply ck_same; [congruence|]. intros _.
        apply andb_false_iff in Et as [Et|Et]; [left; by qbool | right; by apply Nat.eqb_neq].
    + eexists _, _. split; [reflexivity|]. rewrite Hw1. by apply ck_same.
Qed.
(** Evaluating the thresholds of a CLOSED breaker. *)
Definition evaluated (now : Q) (b b' : CircuitBreaker) : Prop :=
  let snap := fst (metrics_snapshot (Some now) 0 (metrics b)) in
  let b1 := with_metrics (evict_expired now (metrics b)) b in
  match trip_reason (config b) snap with
  | Some r => emitted CLOSED OPEN r (with_opened_at now (with_state OPEN b1)) b'
  | None => b' = b1
  end.

Lemma evaluate_spec now w n : bstate (fst w) = CLOSED ->
  exists w' n', evaluate_closed_thresholds clock now w n = (Ok tt, w', n') /\ evaluated now (fst w) (fst w').
Proof.
  intros Hcl. unfold evaluate_closed_thresholds. mstep.
  unfold state_is, id. rewrite bool_decide_true by done. simpl.
  erewrite bind_ok by apply self_snapshot_eq. cbv beta. unfold evaluated.
  case_match eqn:Etr; rewrite ?Etr.
  - do 2 mstep. edestruct emit_transition_spec as (w' & n' & He & Hem). exists w', n'.
    split; [exact He | exact Hem].
  - eexists _, _. split; reflexivity.
Qed.

(** Closed forms of the four counting methods, after the automatic check. *)
Definition succeeded (now dur : Q) (b b' : CircuitBreaker) : Prop :=
  let b1 := with_successes (half_open_successes b + 1) (with_in_flight (half_open_in_flight b - 1) b) in
  match bstate b with
  | HALF_OPEN =>
      if (half_open_max_calls (config b) <=? half_open_successes b + 1)%nat then
        emitted HALF_OPEN CLOSED (ProbesSucceeded 0)
          (with_successes 0 (with_in_flight 0
            (with_metrics (metrics_reset (metrics b)) (with_state CLOSED b1)))) b'
      else b' = b1
  | CLOSED => evaluated now (with_metrics (metrics_record true dur now true (metrics b)) b) b'
  | _ => b' = with_metrics (metrics_record true dur now true (metrics b)) b
  end.

Definition probe_message (error : option string) (fc : option FailureClassification) : string :=
  match error, fc with Some e, _ => e | None, Some c => fc_message c | None, None => "error" end.

Definition poisons_of (fc : option FailureClassification) : bool :=
  match fc with Some c => fc_poisons_health c | None => true end.

Definition failed (now dur : Q) (error : option string) (fc : option FailureClassification)
    (b b' : CircuitBreaker) : Prop :=
  let b1 := with_in_flight (half_open_in_flight b - 1) b in
  let b2 := with_metrics (metrics_record false dur now (poisons_of fc) (metrics b)) b in
  match bstate b with
  | HALF_OPEN =>
      if poisons_of fc then
        emitted HALF_OPEN OPEN (ProbeFailed (probe_message error fc))
          (with_successes 0 (with_in_flight 0 (with_opened_at now (with_state OPEN b1)))) b'
      else b' = b1
  | CLOSED => if poisons_of fc then evaluated now b2 b' else b' = b2
  | _ => b' = b2
  end.

(** The breaker as the automatic check leaves it. *)
Definition check_leaves w (n : nat) (b : CircuitBreaker) : Prop :=
  exists c n', check_and_update_state clock w n = (Ok tt, (b, c), n').

Lemma record_success_spec dur w n :
  exists bc w' n', record_success clock dur w n = (Ok tt, w', n') /\
    checked (clock (S n)) (fst w) bc /\ check_leaves w (S n) bc /\
    succeeded (clock n) dur bc (fst w').
Proof.
  unfold record_success. mstep. destruct (check_spec w (S n)) as (w1 & n1 & Hc & Hck).
  assert (check_leaves w (S n) (fst w1)) as Hlv by (exists (snd w1), n1; by destruct w1). mstep. mstep.
  exists (fst w1). unfold state_is, id, succeeded.
  destruct (bstate (fst w1)) eqn:Es; simpl; rewrite ?Es.
  1: { mstep. edestruct (evaluate_spec (clock n)) as (w' & n' & He & Hev); [|by exists w', n'].
       done. }
  2: { do 2 mstep. case_match.
       - do 4 mstep. mstep. edestruct emit_transition_spec as (w' & n' & He & Hem).
         exists w', n'. split_and!; [exact He | done | done | exact Hem].
       - eexists _, _. split_and!; [reflexivity | done | done | done]. }
  all: mstep; eexists _, _; split_and!; [reflexivity | done | done | done].
Qed.

Lemma record_failure_spec dur err fc w n :
  exists bc w' n', record_failure clock dur err fc w n = (Ok tt, w', n') /\
    checked (clock (S n)) (fst w) bc /\ check_leaves w (S n) bc /\
    failed (clock n) dur err fc bc (fst w').
Proof.
  unfold record_failure. mstep. destruct (check_spec w (S n)) as (w1 & n1 & Hc & Hck).
  assert (check_leaves w (S n) (fst w1)) as Hlv by (exists (snd w1), n1; by destruct w1). mstep. mstep.
  exists (fst w1). cbv zeta. fold (poisons_of fc). unfold state_is, id, failed.
  destruct (bstate (fst w1)) eqn:Es; simpl; rewrite ?Es; mstep.
  1: { destruct (poisons_of fc); [|eexists _, _; split_and!; [reflexivity | done | done | done]].
       edestruct (evaluate_spec (clock n)) as (w' & n' & He & Hev); [|by exists w', n'].
       done. }
  2: { destruct (poisons_of fc); simpl; [|eexists _, _; split_and!; [reflexivity | done | done | done]].
       do 4 mstep. edestruct emit_transition_spec as (w' & n' & He & Hem).
       exists w', n'. split_and!; [exact He | done | done | exact Hem]. }
  all: eexists _, _; split_and!; [reflexivity | done | done | done].
Qed.

Definition acquired (now : Q) (b : CircuitBreaker) : res exn bool * CircuitBreaker :=
  match bstate b with
  | FORCED_OPEN => (Raise (BreakerForcedOpenError (breaker_id b)), b)
  | DISABLED | METRICS_ONLY | CLOSED => (Ok true, b)
  | OPEN => (Raise (BreakerOpenError (breaker_id b) (py_max 0 ((opened_at b + wait_seconds b) - now))), b)
  | HALF_OPEN =>
      if (half_open_max_calls (config b) <=? half_open_in_flight b)%nat
      then (Raise (ProbeAdmissionDeniedError (breaker_id b)), b)
      else (Ok true, with_in_flight (S (half_open_in_flight b)) b)
  end.

Lemma acquire_spec w n :
  exists bc r w' n' now, acquire_permission clock w n = (r, w', n') /\
    checked (clock n) (fst w) bc /\ check_leaves w n bc /\ acquired now bc = (r, fst w').
Proof.
  unfold acquire_permission. destruct (check_spec w n) as (w1 & n1 & Hc & Hck).
  assert (check_leaves w n (fst w1)) as Hlv by (exists (snd w1), n1; by destruct w1). do 2 mstep.
  exists (fst w1). unfold id, acquired.
  destruct (bstate (fst w1)) eqn:Es; try (eexists _, _, _, 0%Q; split_and!; [reflexivity | done | done | done]).
  - mstep. eexists _, _, _, (clock n1). split_and!; [reflexivity | done | done | done].
  - case_match; eexists _, _, _, 0%Q; (split_and!; [reflexivity | done | done | done]).
Qed.
End spec.
