(* ===== verification/BreakerFSM.v ===== *)
(** * The breaker's state machine: refinement and invariants

    The specification is a labelled transition system over the state, the two
    instants, the probe counters, the window of a CLOSED breaker and the log of
    transitions.  [auto_step] is the transition that time or another process
    causes, [own_step] the effect of one method at one instant; every step
    carries its guard (thresholds, elapsed wait, free probe slots).  Every
    method of the breaker performs the automatic step and then its own, for every
    clock, every cluster store and every interference of other processes on that
    store; invariants are then proved by cases on the two steps. *)

From stdpp Require Import base tactics list strings relations.
From Stdlib Require Import QArith Qround Lqa.
From S2P Require Import Prelude Models Metrics Breaker BreakerSpec.

Record machine : Type := Machine {
  m_state : CircuitBreakerState;
  m_opened : Q;
  m_entered : Q;
  m_in_flight : nat;
  m_successes : nat;
  m_window : list CallOutcome;
  m_log : list (CircuitBreakerState * CircuitBreakerState);
}.

(** The outcomes only count while the breaker is CLOSED: every way into that
    state empties the window. *)
Definition machine_of (b : CircuitBreaker) : machine :=
  Machine (bstate b) (opened_at b) (half_open_entered_at b) (half_open_in_flight b) (half_open_successes b)
    (match bstate b with CLOSED => samples (metrics b) | _ => [] end)
    (map (fun e => (ev_from e, ev_to e)) (journal b)).

(** The methods a caller (or an administrator) may invoke. *)
Inductive breaker_op : Type :=
| OpState | OpAcquire | OpSuccess (duration_ms : Q)
| OpFailure (duration_ms : Q) (error : option string) (fc : option FailureClassification)
| OpForceOpen | OpForceClosed | OpDisable | OpReset | OpSnapshot | OpAddListener (l : string).


(** ** The guards *)

(** The outcomes a window retains at an instant. *)
Definition kept (wt : SlidingWindowType) (ws : nat) (now : Q) (l : list CallOutcome) : list CallOutcome :=
  match wt with
  | COUNT_BASED => drop_excess ws l
  | TIME_BASED => drop_while (fun s => co_timestamp s ≺ (now - Qnat ws)%Q) l
  end.

Definition percentage (k total : nat) : Q := if (total =? 0)%nat then 0%Q else rate k total.

(** Enough calls, and too many of them failed or slow. *)
Definition exceeded (cfg : CircuitBreakerConfig) (l : list CallOutcome) : Prop :=
  (minimum_number_of_calls cfg <= length l)%nat /\
  ((failure_rate_threshold cfg <= percentage (countb is_failed l) (length l))%Q \/
   (slow_call_rate_threshold cfg <= percentage (countb co_is_slow l) (length l))%Q).

(** What a breaker is set up with: its configuration, its window's type and
    size, and the duration from which a call is slow. *)
Record settings : Type := Settings {
  s_config : CircuitBreakerConfig;
  s_type : SlidingWindowType;
  s_size : nat;
  s_slow_ms : Q;
}.
Definition settings_of (b : CircuitBreaker) : settings :=
  Settings (config b) (window_type (metrics b)) (window_size (metrics b)) (slow_call_duration_ms (metrics b)).

Definition s_wait (s : settings) : Q := (wait_duration_open_ms (s_config s) / 1000)%Q.
Definition s_probe_window (s : settings) : Q := (max_half_open_duration_ms (s_config s) / 1000)%Q.
Definition s_max (s : settings) : nat := half_open_max_calls (s_config s).

(** The window with one more outcome. *)
Definition recorded (s : settings) (success : bool) (dur now : Q) (poisons : bool) (l : list CallOutcome) : list CallOutcome :=
  kept (s_type s) (s_size s) now (l ++ [{| co_success := success; co_duration_ms := dur; co_timestamp := now;
    co_is_slow := s_slow_ms s ⪯ dur; co_poisons_health := poisons |}]).

(** The call is let through. *)
Definition permits (s : settings) (m : machine) : bool :=
  match m_state m with
  | CLOSED | DISABLED | METRICS_ONLY => true
  | HALF_OPEN => (m_in_flight m <? s_max s)%nat
  | OPEN | FORCED_OPEN => false
  end.

(** ** The transitions *)

(** What an instant [t], and an OPEN mark another process left in the cluster
    store ([remote]), do to the breaker. *)
Inductive auto_step (s : settings) (remote : bool) (t : Q) : machine -> machine -> Prop :=
| auto_stay m :
    (m_state m = CLOSED -> remote = false) ->
    (m_state m = OPEN -> (t < m_opened m + s_wait s)%Q) ->
    (m_state m = HALF_OPEN -> (t - m_entered m <= s_probe_window s)%Q \/ m_in_flight m <> 0%nat) ->
    auto_step s remote t m m
| auto_remote o e i k l log : remote = true ->
    auto_step s remote t (Machine CLOSED o e i k l log) (Machine OPEN t e i k [] (log ++ [(CLOSED, OPEN)]))
| auto_wait o e i k l log : (o + s_wait s <= t)%Q ->
    auto_step s remote t (Machine OPEN o e i k l log) (Machine HALF_OPEN o t 0 0 [] (log ++ [(OPEN, HALF_OPEN)]))
| auto_timeout o e k l log : (s_probe_window s < t - e)%Q ->
    auto_step s remote t (Machine HALF_OPEN o e 0 k l log) (Machine OPEN t e 0 k [] (log ++ [(HALF_OPEN, OPEN)])).

(** The effect of a method itself, at the instant [t]. *)
Inductive own_step (s : settings) (t : Q) : breaker_op -> machine -> machine -> Prop :=
| own_state m : own_step s t OpState m m
| own_listen x m : own_step s t (OpAddListener x) m m
| own_snapshot st o e i k l log :
    own_step s t OpSnapshot (Machine st o e i k l log) (Machine st o e i k (kept (s_type s) (s_size s) t l) log)
| own_probe o e i k l log : (i < s_max s)%nat ->
    own_step s t OpAcquire (Machine HALF_OPEN o e i k l log) (Machine HALF_OPEN o e (S i) k l log)
| own_no_probe m : (m_state m = HALF_OPEN -> (s_max s <= m_in_flight m)%nat) -> own_step s t OpAcquire m m
| own_success d o e i k l log : ~ exceeded (s_config s) (recorded s true d t true l) ->
    own_step s t (OpSuccess d) (Machine CLOSED o e i k l log) (Machine CLOSED o e i k (recorded s true d t true l) log)
| own_success_trip d o e i k l log : exceeded (s_config s) (recorded s true d t true l) ->
    own_step s t (OpSuccess d) (Machine CLOSED o e i k l log) (Machine OPEN t e i k [] (log ++ [(CLOSED, OPEN)]))
| own_failure d x fc o e i k l log : poisons_of fc = true -> ~ exceeded (s_config s) (recorded s false d t true l) ->
    own_step s t (OpFailure d x fc) (Machine CLOSED o e i k l log) (Machine CLOSED o e i k (recorded s false d t true l) log)
| own_trip d x fc o e i k l log : poisons_of fc = true -> exceeded (s_config s) (recorded s false d t true l) ->
    own_step s t (OpFailure d x fc) (Machine CLOSED o e i k l log) (Machine OPEN t e i k [] (log ++ [(CLOSED, OPEN)]))
| own_neutral d x fc o e i k l log : poisons_of fc = false ->
    own_step s t (OpFailure d x fc) (Machine CLOSED o e i k l log) (Machine CLOSED o e i k (recorded s false d t false l) log)
| own_probe_ok d o e i k l log : (S k < s_max s)%nat ->
    own_step s t (OpSuccess d) (Machine HALF_OPEN o e i k l log) (Machine HALF_OPEN o e (i - 1) (S k) l log)
| own_close d o e i k l log : (s_max s <= S k)%nat ->
    own_step s t (OpSuccess d) (Machine HALF_OPEN o e i k l log) (Machine CLOSED o e 0 0 [] (log ++ [(HALF_OPEN, CLOSED)]))
| own_probe_failed d x fc o e i k l log : poisons_of fc = true ->
    own_step s t (OpFailure d x fc) (Machine HALF_OPEN o e i k l log) (Machine OPEN t e 0 0 [] (log ++ [(HALF_OPEN, OPEN)]))
| own_probe_neutral d x fc o e i k l log : poisons_of fc = false ->
    own_step s t (OpFailure d x fc) (Machine HALF_OPEN o e i k l log) (Machine HALF_OPEN o e (i - 1) k l log)
| own_late_success d m : m_state m <> CLOSED -> m_state m <> HALF_OPEN -> own_step s t (OpSuccess d) m m
| own_late_failure d x fc m : m_state m <> CLOSED -> m_state m <> HALF_OPEN -> own_step s t (OpFailure d x fc) m m
| own_force_open st o e i k l log :
    own_step s t OpForceOpen (Machine st o e i k l log) (Machine FORCED_OPEN o e i k [] (log ++ [(st, FORCED_OPEN)]))
| own_force_closed st o e i k l log :
    own_step s t OpForceClosed (Machine st o e i k l log) (Machine CLOSED o e i k [] (log ++ [(st, CLOSED)]))
| own_disable st o e i k l log :
    own_step s t OpDisable (Machine st o e i k l log) (Machine DISABLED o e i k [] (log ++ [(st, DISABLED)]))
| own_reset st o e i k l log : st <> CLOSED ->
    own_step s t OpReset (Machine st o e i k l log) (Machine CLOSED 0 e 0 0 [] (log ++ [(st, CLOSED)]))
| own_reset_closed o e i k l log :
    own_step s t OpReset (Machine CLOSED o e i k l log) (Machine CLOSED 0 e 0 0 [] log).

(** The methods that begin with the automatic step. *)
Definition checks (o : breaker_op) : bool :=
  match o with OpForceOpen | OpForceClosed | OpDisable | OpReset | OpAddListener _ => false | _ => true end.

Section fsm.
Context {C : Type} `{BreakerSync C} (clock : nat -> Q).
Implicit Types (b : CircuitBreaker) (w : CircuitBreaker * option C).

Definition run_op (o : breaker_op) w (n : nat) : (CircuitBreaker * option C) * nat :=
  let fin {A} (r : res exn A * (CircuitBreaker * option C) * nat) := (out_st r, out_tick r) in
  match o with
  | OpState => fin (state clock w n)
  | OpAcquire => fin (acquire_permission clock w n)
  | OpSuccess d => fin (record_success clock d w n)
  | OpFailure d e c => fin (record_failure clock d e c w n)
  | OpForceOpen => fin (force_open clock w n)
  | OpForceClosed => fin (force_closed clock w n)
  | OpDisable => fin (disable clock w n)
  | OpReset => fin (reset clock w n)
  | OpSnapshot => fin (snapshot clock w n)
  | OpAddListener l => fin (add_event_listener l w n)
  end.

Definition run_ops (l : list breaker_op) w (n : nat) : (CircuitBreaker * option C) * nat :=
  foldl (fun wn o => run_op o (fst wn) (snd wn)) (w, n) l.


(** The cluster store, asked at its [n]-th reading, says OPEN. *)
Definition remote_open w (n : nat) : bool :=
  match snd w with
  | None => false
  | Some c => match get_cluster_breaker_state (breaker_id (fst w)) c n with
              | (Ok (Some r), _, _) => String.eqb (rb_state r) "OPEN"
              | _ => false
              end
  end.

(** The clock readings a method uses for the automatic step and for its own. *)
Definition auto_reading (o : breaker_op) (n : nat) : nat :=
  match o with OpSuccess _ | OpFailure _ _ _ => S n | _ => n end.
Definition own_reading (o : breaker_op) w (n : nat) : nat :=
  match o with OpSnapshot => out_tick (check_and_update_state clock w n) | _ => n end.

(** ** The methods refine the machine *)

Definition relog (from to : CircuitBreakerState) (m : machine) : machine :=
  Machine (m_state m) (m_opened m) (m_entered m) (m_in_flight m) (m_successes m) (m_window m) (m_log m ++ [(from, to)]).

Lemma emitted_machine from to r b b' : emitted from to r b b' -> bstate b <> CLOSED \/ samples (metrics b) = [] ->
  machine_of b' = relog from to (machine_of b) /\ settings_of b' = settings_of b.
Proof.
  intros (Hc & Hs & ev & Hj & Hf & Ht & _) He. unfold core in Hc. injection Hc as _ Hcfg Hst Ho He' Hi Hk _ Hw1 Hw2 Hw3.
  unfold machine_of, relog, settings_of. simpl. rewrite Hj, map_app, Hcfg, Hst, Ho, He', Hi, Hk, Hw1, Hw2, Hw3. simpl.
  rewrite Hf, Ht. split; [|done]. f_equal. destruct He as [He|He].
  - by destruct (bstate b).
  - rewrite He in Hs. apply sublist_nil_r in Hs. rewrite Hs, He. done.
Qed.

(** On a CLOSED breaker the check only follows the cluster store. *)
Lemma check_closed w n w' n' : bstate (fst w) = CLOSED -> check_and_update_state clock w n = (Ok tt, w', n') ->
  (if remote_open w (S n) then OPEN else CLOSED) = bstate (fst w').
Proof.
  intros Hcl. unfold check_and_update_state. do 2 mstep. rewrite (bool_decide_eq_true_2 (bstate (fst w) = CLOSED) Hcl : state_is CLOSED (fst w) = true).
  assert (exists w1 n1 r, try_except (on_cluster None (get_cluster_breaker_state (breaker_id (fst w)))) (mret None) w (S n)
    = (Ok r, w1, n1) /\ fst w1 = fst w /\ remote_open w (S n) = match r with Some r => String.eqb (rb_state r) "OPEN" | None => false end)
    as (w1 & n1 & r & Hq & Hf & Hr).
  { unfold try_except, on_cluster, remote_open. destruct (snd w) as [c|]; [|by eexists _, _, _].
    destruct (get_cluster_breaker_state _ c (S n)) as [[[[r|]|x] c'] n1]; by eexists _, _, _. }
  rewrite Hr. mstep. destruct (if r is Some r then String.eqb (rb_state r) "OPEN" else false).
  - do 2 mstep. edestruct emit_transition_spec as (w2 & n2 & -> & Hem). intros [= <- <-].
    by rewrite (proj1 (core_fields _ _ (proj1 Hem))).
  - mstep. unfold id, state_is. rewrite Hf, Hcl. simpl. intros [= <- <-]. by rewrite Hf.
Qed.

Lemma checked_auto w n w' n' : check_and_update_state clock w n = (Ok tt, w', n') ->
  auto_step (settings_of (fst w)) (remote_open w (S n)) (clock n) (machine_of (fst w)) (machine_of (fst w')) /\
  settings_of (fst w') = settings_of (fst w).
Proof.
  intros Hc. destruct (check_spec clock w n) as (w1 & n1 & Hc1 & Hck). rewrite Hc in Hc1. injection Hc1 as <- <-.
  pose proof (check_closed w n w' n') as Hcl.
  destruct Hck as [Ho Hh | b' Hs He | b' Hs Hw He | b' Hs Hi Hw He].
  - split; [|done]. apply auto_stay; [|done|done]. intros Hs. specialize (Hcl Hs Hc). simpl in Hs. rewrite Hs in Hcl.
    by destruct (remote_open w (S n)).
  - specialize (Hcl Hs Hc). pose proof (proj1 (core_fields _ _ (proj1 He))) as Hb. simpl in Hb. rewrite Hb in Hcl.
    apply emitted_machine in He as [-> ->]; [|by left]. split; [|done]. unfold machine_of at 1. rewrite Hs. apply auto_remote.
    by destruct (remote_open w (S n)).
  - apply emitted_machine in He as [-> ->]; [|by left]. split; [|done]. unfold machine_of at 1. rewrite Hs. by apply auto_wait.
  - apply emitted_machine in He as [-> ->]; [|by left]. split; [|done]. unfold machine_of at 1. rewrite Hs, Hi.
    unfold relog, machine_of. simpl. rewrite Hi. by apply auto_timeout.
Qed.

Lemma samples_evict now m : samples (evict_expired now m) = kept (window_type m) (window_size m) now (samples m).
Proof. unfold evict_expired, kept. by destruct (window_type m). Qed.
Lemma settings_evict now b : settings_of (with_metrics (evict_expired now (metrics b)) b) = settings_of b.
Proof. unfold settings_of, evict_expired. simpl. destruct (window_type (metrics b)) eqn:E; simpl; by rewrite ?E. Qed.
Lemma settings_record success dur now poisons b :
  settings_of (with_metrics (metrics_record success dur now poisons (metrics b)) b) = settings_of b.
Proof. unfold settings_of, metrics_record, evict_expired. simpl. destruct (window_type (metrics b)) eqn:E; simpl; by rewrite ?E. Qed.
Lemma kept_idem wt ws now l : kept wt ws now (kept wt ws now l) = kept wt ws now l.
Proof.
  destruct wt; simpl.
  - unfold drop_excess at 1. rewrite drop_excess_length, (proj2 (Nat.sub_0_le _ _)); [done | lia].
  - induction l as [|x l IH]; simpl; [done|]. case_match eqn:E; [done|]. simpl. by rewrite E.
Qed.
Lemma samples_record b success dur now poisons :
  samples (metrics_record success dur now poisons (metrics b)) = recorded (settings_of b) success dur now poisons (samples (metrics b)).
Proof. unfold metrics_record. by rewrite samples_evict. Qed.

Lemma trip_reason_Some cfg s : (exists r, trip_reason cfg s = Some r) <->
  (minimum_number_of_calls cfg <= total_calls s)%nat /\
  ((failure_rate_threshold cfg <= failure_rate s)%Q \/ (slow_call_rate_threshold cfg <= slow_call_rate s)%Q).
Proof.
  unfold trip_reason. destruct (total_calls s <? minimum_number_of_calls cfg)%nat eqn:E1.
  - apply Nat.ltb_lt in E1. split; [by intros [] | lia].
  - apply Nat.ltb_ge in E1. case_match eqn:E2; [|case_match eqn:E3]; qbool.
    + split; eauto.
    + split; eauto.
    + split; [by intros [] | intros [_ []]; lra].
Qed.
Lemma trip_exceeded now cfg m :
  (exists r, trip_reason cfg (fst (metrics_snapshot (Some now) 0 m)) = Some r) <->
  exceeded cfg (kept (window_type m) (window_size m) now (samples m)).
Proof.
  rewrite trip_reason_Some. pose proof (snapshot_counts (Some now) 0 m) as Hc. pose proof (snapshot_rates (Some now) 0 m) as Hr.
  rewrite snapshot_window, samples_evict in Hc. cbv zeta in Hc, Hr. destruct Hc as (Ht & _ & Hf & Hs), Hr as [-> ->].
  rewrite Hf, Hs, Ht. done.
Qed.

(** Evaluating the thresholds after a call of a CLOSED breaker. *)
Lemma evaluated_machine now b b' : bstate b = CLOSED -> evaluated now b b' ->
  let l := kept (window_type (metrics b)) (window_size (metrics b)) now (samples (metrics b)) in
  let m := machine_of b in
  settings_of b' = settings_of b /\
  ((exceeded (config b) l /\ machine_of b' = Machine OPEN now (m_entered m) (m_in_flight m) (m_successes m) [] (m_log m ++ [(CLOSED, OPEN)])) \/
   (~ exceeded (config b) l /\ machine_of b' = Machine CLOSED (m_opened m) (m_entered m) (m_in_flight m) (m_successes m) l (m_log m))).
Proof.
  intros Hs He. pose proof (trip_exceeded now (config b) (metrics b)) as Ht. unfold evaluated in He.
  destruct (trip_reason _ _) as [r|].
  - apply emitted_machine in He as [-> ->]; [|by left]. split; [apply settings_evict|].
    left. split; [apply Ht; eauto | done].
  - subst b'. split; [apply settings_evict|].
    right. split; [intros [r Hr]%Ht; done|]. unfold machine_of. simpl. by rewrite Hs, samples_evict.
Qed.

(** One outcome reported to a CLOSED breaker and evaluated. *)
Lemma recorded_machine now success dur b b' : bstate b = CLOSED ->
  evaluated now (with_metrics (metrics_record success dur now true (metrics b)) b) b' ->
  let l := recorded (settings_of b) success dur now true (samples (metrics b)) in
  let m := machine_of b in
  settings_of b' = settings_of b /\
  ((exceeded (config b) l /\ machine_of b' = Machine OPEN now (m_entered m) (m_in_flight m) (m_successes m) [] (m_log m ++ [(CLOSED, OPEN)])) \/
   (~ exceeded (config b) l /\ machine_of b' = Machine CLOSED (m_opened m) (m_entered m) (m_in_flight m) (m_successes m) l (m_log m))).
Proof.
  intros Hs He. apply evaluated_machine in He; [|done]. pose proof (settings_record success dur now true b) as Hset.
  cbv zeta in He. rewrite Hset in He. unfold settings_of in Hset at 1. simpl in Hset, He. injection Hset as Hw1 Hw2 Hw3.
  rewrite Hw1, Hw2, samples_record in He. unfold recorded in He. simpl in He. rewrite kept_idem in He. exact He.
Qed.

Lemma machine_at st b : bstate b = st ->
  machine_of b = Machine st (opened_at b) (half_open_entered_at b) (half_open_in_flight b) (half_open_successes b)
    (match st with CLOSED => samples (metrics b) | _ => [] end) (m_log (machine_of b)).
Proof. intros <-. done. Qed.

Lemma succeeded_own now dur b b' : succeeded now dur b b' ->
  own_step (settings_of b) now (OpSuccess dur) (machine_of b) (machine_of b') /\ settings_of b' = settings_of b.
Proof.
  unfold succeeded. destruct (bstate b) eqn:Hs; try (intros ->; (split; [|apply settings_record]);
    unfold machine_of; simpl; rewrite Hs; by apply own_late_success).
  - intros [Hset He]%recorded_machine; [|done]. split; [|done]. rewrite (machine_at CLOSED b Hs).
    destruct He as [[Hx ->]|[Hx ->]]; by constructor.
  - rewrite Nat.add_1_r. case_match eqn:E.
    + apply Nat.leb_le in E. intros [-> ->]%emitted_machine; [|by right]. split; [|done].
      rewrite (machine_at HALF_OPEN b Hs). by apply own_close.
    + apply Nat.leb_gt in E. intros ->. split; [|done]. unfold machine_of. simpl. rewrite Hs. by apply own_probe_ok.
Qed.

Lemma failed_own now dur err fc b b' : failed now dur err fc b b' ->
  own_step (settings_of b) now (OpFailure dur err fc) (machine_of b) (machine_of b') /\ settings_of b' = settings_of b.
Proof.
  unfold failed. destruct (bstate b) eqn:Hs; try (intros ->; (split; [|apply settings_record]);
    unfold machine_of; simpl; rewrite Hs; by apply own_late_failure); destruct (poisons_of fc) eqn:Hp.
  - intros [Hset He]%recorded_machine; [|done]. split; [|done]. rewrite (machine_at CLOSED b Hs).
    destruct He as [[Hx ->]|[Hx ->]]; by constructor.
  - intros ->. split; [|apply settings_record]. unfold machine_of. simpl. rewrite Hs, samples_record. by apply own_neutral.
  - intros [-> ->]%emitted_machine; [|by left]. split; [|done]. rewrite (machine_at HALF_OPEN b Hs). by apply own_probe_failed.
  - intros ->. split; [|done]. unfold machine_of. simpl. rewrite Hs. by apply own_probe_neutral.
Qed.

Lemma acquired_own now t b r b' : acquired now b = (r, b') ->
  own_step (settings_of b) t OpAcquire (machine_of b) (machine_of b') /\ settings_of b' = settings_of b /\
  res_ok r = permits (settings_of b) (machine_of b).
Proof.
  unfold acquired, permits. simpl. destruct (bstate b) eqn:Hs;
    try (intros [= <- <-]; split_and!; [apply own_no_probe; simpl; by rewrite Hs | done | done]).
  case_match eqn:E; intros [= <- <-].
  - apply Nat.leb_le in E. split_and!; [by apply own_no_probe | done | symmetry; by apply Nat.ltb_ge].
  - apply Nat.leb_gt in E. split_and!; [|done | symmetry; by apply Nat.ltb_lt].
    unfold machine_of. simpl. rewrite Hs. by apply own_probe.
Qed.

(** An administrative operation sets the state and publishes the change. *)
Lemma admin_own o from to r w n t b0 :
  own_step (settings_of b0) t o (machine_of b0) (relog from to (machine_of (fst w))) ->
  bstate (fst w) <> CLOSED \/ samples (metrics (fst w)) = [] -> settings_of (fst w) = settings_of b0 ->
  let b' := fst (out_st (emit_transition clock from to r w n)) in
  own_step (settings_of b0) t o (machine_of b0) (machine_of b') /\ settings_of b' = settings_of b0.
Proof.
  intros Hs He Hc. destruct (emit_transition_spec clock from to r w n) as (w' & n' & Hw & Hem).
  cbv zeta. rewrite Hw. unfold out_st. simpl. by apply emitted_machine in Hem as [-> ->].
Qed.

Lemma admin_op_own o w n : checks o = false ->
  let b' := fst (fst (run_op o w n)) in
  own_step (settings_of (fst w)) (clock n) o (machine_of (fst w)) (machine_of b') /\ settings_of b' = settings_of (fst w).
Proof.
  destruct o; try done; intros _; unfold run_op; cbv zeta.
  - apply admin_own; [apply own_force_open | by left | done].
  - apply admin_own; [apply own_force_closed | by right | done].
  - apply admin_own; [apply own_disable | by left | done].
  - unfold reset. do 6 mstep. case_bool_decide as Hcl; simpl.
    + split; [|done]. rewrite (machine_at CLOSED (fst w) Hcl). apply own_reset_closed.
    + apply admin_own; [by apply own_reset | by right | done].
  - split; [apply own_listen | done].
Qed.
Lemma snapshot_own now b :
  own_step (settings_of b) now OpSnapshot (machine_of b) (machine_of (with_metrics (evict_expired now (metrics b)) b)).
Proof.
  assert (forall st, match st with CLOSED => samples (evict_expired now (metrics b)) | _ => [] end =
    kept (window_type (metrics b)) (window_size (metrics b)) now match st with CLOSED => samples (metrics b) | _ => [] end) as Hk
    by (intros []; rewrite ?samples_evict; try done; by destruct (window_type (metrics b))).
  unfold machine_of at 2. simpl. rewrite Hk. apply own_snapshot.
Qed.

Lemma leaves_auto w n b : check_leaves clock w n b ->
  auto_step (settings_of (fst w)) (remote_open w (S n)) (clock n) (machine_of (fst w)) (machine_of b) /\
  settings_of b = settings_of (fst w).
Proof. intros (c & n' & Hc). by apply checked_auto in Hc. Qed.

(** One call: the automatic step at its reading of the clock, if the method makes
    one, then the method's own step; a call is let through iff the machine permits it. *)
Definition call_refines (o : breaker_op) w (n : nat) : Prop :=
  let b := fst w in let b' := fst (fst (run_op o w n)) in
  settings_of b' = settings_of b /\
  exists m,
    (if checks o then auto_step (settings_of b) (remote_open w (S (auto_reading o n))) (clock (auto_reading o n)) (machine_of b) m
     else m = machine_of b) /\
    own_step (settings_of b) (clock (own_reading o w n)) o m (machine_of b') /\
    (o = OpAcquire -> res_ok (out_res (acquire_permission clock w n)) = permits (settings_of b) m).

Lemma run_op_refines o w n : call_refines o w n.
Proof.
  destruct (checks o) eqn:Ho.
  2: { destruct (admin_op_own o w n Ho) as [H1 H2]. split; [done|]. exists (machine_of (fst w)). rewrite Ho.
       split_and!; [done | by destruct o | by intros ->]. }
  unfold call_refines. rewrite Ho. destruct o; try done; clear Ho; unfold run_op, auto_reading, own_reading; cbv zeta.
  - unfold state. destruct (check_spec clock w n) as (w1 & n1 & Hc & _). mstep. apply checked_auto in Hc as [Ha Hset].
    split; [done|]. exists (machine_of (fst w1)). split_and!; [done | apply own_state | done].
  - destruct (acquire_spec clock w n) as (bc & r & w' & n' & now & -> & _ & [Ha Hset]%leaves_auto & Hq).
    apply (acquired_own now (clock n)) in Hq as (Hown & Hset' & Hr). rewrite Hset in *.
    split; [done|]. exists (machine_of bc). by split_and!.
  - destruct (record_success_spec clock duration_ms w n) as (bc & w' & n' & -> & _ & [Ha Hset]%leaves_auto & Hq).
    apply succeeded_own in Hq as [Hown Hset']. rewrite Hset in *. split; [done|]. exists (machine_of bc). by split_and!.
  - destruct (record_failure_spec clock duration_ms error fc w n) as (bc & w' & n' & -> & _ & [Ha Hset]%leaves_auto & Hq).
    apply failed_own in Hq as [Hown Hset']. rewrite Hset in *. split; [done|]. exists (machine_of bc). by split_and!.
  - unfold snapshot. destruct (check_spec clock w n) as (w1 & n1 & Hc & _). mstep. mstep.
    erewrite bind_ok by apply self_snapshot_eq. cbv beta. mstep. rewrite Hc. apply checked_auto in Hc as [Ha Hset].
    unfold out_st, out_tick. simpl. split; [by rewrite settings_evict|]. exists (machine_of (fst w1)). split_and!; [done| |done].
    rewrite <- Hset. apply snapshot_own.
Qed.

(** A breaker of a process: any of its methods may run next, at any number
    of clock readings, and any other process may change the cluster store
    in between. *)
Inductive reachable (id : string) (cfg : CircuitBreakerConfig) : CircuitBreaker * option C -> Prop :=
| reach_init c : reachable id cfg (new_breaker id cfg, c)
| reach_op o w n : reachable id cfg w -> reachable id cfg (fst (run_op o w n))
| reach_env b c c' : reachable id cfg (b, c) -> reachable id cfg (b, c').

Lemma reachable_settings id cfg w : reachable id cfg w -> config (fst w) = cfg.
Proof.
  induction 1 as [| o w n _ IH | b c c' _ IH]; [done | | done].
  destruct (run_op_refines o w n) as [Hs _]. unfold settings_of in Hs. injection Hs as Hs _ _ _. by rewrite Hs.
Qed.

Lemma run_ops_reachable id cfg w l n :
  reachable id cfg w -> reachable id cfg (fst (run_ops l w n)).
Proof.
  unfold run_ops. revert w n. induction l as [|o l IH]; intros w n Hw; [done|]. simpl.
  specialize (IH (fst (run_op o w n)) (snd (run_op o w n)) (reach_op _ _ o w n Hw)).
  by destruct (run_op o w n).
Qed.
End fsm.

(** ** Invariants of the state machine *)

(** The transitions the machine may take. *)
Definition fsm_edge (e : CircuitBreakerState * CircuitBreakerState) : Prop :=
  match e with
  | (CLOSED, OPEN) | (OPEN, HALF_OPEN) | (HALF_OPEN, OPEN) => True
  | (from, to) => from <> METRICS_ONLY /\ (to = CLOSED \/ to = FORCED_OPEN \/ to = DISABLED)
  end.

(** The log is a path of allowed transitions from [s0] to [s]. *)
Inductive fsm_path (s0 : CircuitBreakerState) :
    list (CircuitBreakerState * CircuitBreakerState) -> CircuitBreakerState -> Prop :=
| path_nil : fsm_path s0 [] s0
| path_snoc l s s' : fsm_path s0 l s -> fsm_edge (s, s') -> fsm_path s0 (l ++ [(s, s')]) s'.

Definition fsm_inv (max : nat) (m : machine) : Prop :=
  (m_in_flight m <= max)%nat /\
  (m_successes m = 0 \/ m_successes m < max)%nat /\
  m_state m <> METRICS_ONLY /\
  fsm_path CLOSED (m_log m) (m_state m).

Lemma auto_step_inv s remote t m m' : auto_step s remote t m m' -> fsm_inv (s_max s) m -> fsm_inv (s_max s) m'.
Proof.
  intros Hstep (Hi & Hs & Hm & Hp). unfold fsm_inv.
  destruct Hstep; simpl in *; split_and!; try done; try lia; by eapply path_snoc.
Qed.
Lemma own_step_inv s t o m m' : own_step s t o m m' -> fsm_inv (s_max s) m -> fsm_inv (s_max s) m'.
Proof.
  intros Hstep (Hi & Hs & Hm & Hp). unfold fsm_inv.
  destruct Hstep; simpl in *; split_and!; try done; try lia;
    (eapply path_snoc; [exact Hp|]; simpl; try done; first [by destruct st; auto | auto]).
Qed.

Lemma run_op_inv `{BreakerSync C} clock o (w : CircuitBreaker * option C) n (b' := fst (fst (run_op clock o w n))) :
  config b' = config (fst w) /\
  (fsm_inv (half_open_max_calls (config (fst w))) (machine_of (fst w)) ->
   fsm_inv (half_open_max_calls (config (fst w))) (machine_of b')).
Proof.
  destruct (run_op_refines clock o w n) as [Hs (m & Ha & Ho & _)]. split; [unfold settings_of in Hs; by injection Hs as Hs _ _ _|].
  intros Hi. eapply own_step_inv in Ho; [exact Ho|]. destruct (checks o); [by eapply auto_step_inv in Ha | by subst m].
Qed.

Lemma new_breaker_inv id cfg : fsm_inv (half_open_max_calls cfg) (machine_of (new_breaker id cfg)).
Proof. split_and!; simpl; try lia; [done | constructor]. Qed.

Lemma reachable_inv `{BreakerSync C} clock id cfg (w : CircuitBreaker * option C) :
  reachable clock id cfg w -> fsm_inv (half_open_max_calls cfg) (machine_of (fst w)).
Proof.
  induction 1 as [c | o w n Hw IH | b c c' _ IH]; [apply new_breaker_inv | | done].
  pose proof (proj2 (run_op_inv clock o w n)) as Hi. rewrite (reachable_settings clock id cfg w Hw) in Hi. by apply Hi.
Qed.
