(* ===== verification/BreakerProps.v ===== *)
(** * Properties of the circuit breaker

    Theorems about [src/durallm/breaker/circuit_breaker.py] proved from the
    refinement of [BreakerFSM] and the method specifications of
    [BreakerSpec]: admission, tripping, probing, recovery. *)

From stdpp Require Import base tactics list strings relations.
From Stdlib Require Import QArith Qround Lqa.
From S2P Require Import Prelude Models Metrics Breaker BreakerSpec BreakerFSM.

Section facts.
Context {C : Type} `{BreakerSync C} (clock : nat -> Q).
Implicit Types (b : CircuitBreaker) (w : CircuitBreaker * option C).

(** The automatic check does nothing on a HALF_OPEN breaker inside its probe
    window, on an OPEN one before the wait has elapsed, and in the
    administrative states. *)
Lemma check_quiet w n :
  match bstate (fst w) with
  | OPEN => (clock n < opened_at (fst w) + wait_seconds (fst w))%Q
  | HALF_OPEN => (clock n - half_open_entered_at (fst w) <= probe_window (fst w))%Q \/
                 half_open_in_flight (fst w) <> 0%nat
  | CLOSED => snd w = None
  | _ => True
  end -> check_and_update_state clock w n = (Ok tt, w, S n).
Proof.
  intros Hq. unfold check_and_update_state. do 2 mstep.
  destruct (remote_lookup_eq w (S n)) as (r & w1 & n1 & Heq & Hw1 & Hr & Hn).
  assert (r = None /\ w1 = w /\ n1 = S n) as (-> & -> & ->).
  { destruct (decide (bstate (fst w) = CLOSED)) as [Hs|Hs].
    - rewrite Hs in Hq. by destruct (Hn Hq) as (-> & -> & ->).
    - unfold state_is in Heq. rewrite bool_decide_false in Heq by done.
      unfold mret, M_ret in Heq. by simplify_eq. }
  mstep. cbv iota. mstep. clear Heq Hr Hn. unfold state_is, id.
  destruct (bstate (fst w)); simpl; try done; unfold when; case_match eqn:E; try done.
  - exfalso. apply Qle_bool_true in E. unfold wait_seconds in Hq. lra.
  - exfalso. apply andb_true_iff in E as [E1%Qltb_true E2%Nat.eqb_eq].
    unfold probe_window in Hq. destruct Hq; [lra | done].
Qed.

(** Without a cluster store an emission makes exactly one clock reading. *)
Lemma emit_local from to r b n :
  exists b', emit_transition clock from to r (b, None : option C) n = (Ok tt, (b', None), S n) /\
    emitted from to r b b'.
Proof.
  destruct (emit_transition_spec clock from to r (b, None) n) as (w' & n' & He & Hem).
  exists (fst w'). split; [|done]. rewrite He. revert He. unfold emit_transition.
  mstep. erewrite bind_ok by apply self_snapshot_eq. cbv beta. mstep. mstep. cbv zeta.
  unfold publish_transition. erewrite bind_ok by reflexivity. cbv beta. mstep.
  match goal with |- for_each ?ls ?f ?w ?n = _ -> _ =>
    match f with fun l => upd (with_delivery l ?ev) =>
    destruct (deliver_eq ls ev w n) as (b' & Hd & _) end end.
  rewrite Hd. intros [= <- <-]. done.
Qed.
End facts.

(** ** Refinement and invariants *)

(** C9: every method of the breaker refines the guarded state machine.  Whatever
    the clock, the cluster store and the arguments, one call makes at most one
    automatic step (an OPEN breaker half-opens exactly when its wait has elapsed at
    the reading of this call, an idle HALF_OPEN one reopens exactly when its probe
    window has passed, a CLOSED one opens exactly when the cluster store reports
    OPEN), and then the step of that method alone: an outcome reported to a CLOSED
    breaker opens it exactly when the window with this outcome holds enough calls
    and its failure or slow-call rate reaches the threshold, a probe is counted
    only below the limit, the last successful probe closes, a poisoning failure
    reopens, and only the administrative methods force, disable or reset.
    [acquire_permission] returns iff the machine permits the call.  The settings
    never change. *)
Theorem methods_refine_fsm `{BreakerSync C} clock o (w : CircuitBreaker * option C) n : call_refines clock o w n.
Proof. apply run_op_refines. Qed.

(** C29: invariants of every reachable breaker, under any interleaving of
    method calls with any changes other processes make to the cluster store:
    the probe permits in flight never exceed [half_open_max_calls], the probe
    successes stay below it, METRICS_ONLY is never entered, and the published
    transitions form a path of allowed edges from CLOSED to the current state. *)
Theorem breaker_invariants `{BreakerSync C} clock id cfg (w : CircuitBreaker * option C) :
  reachable clock id cfg w ->
  let b := fst w in
  (half_open_in_flight b <= half_open_max_calls cfg)%nat /\
  (half_open_successes b = 0 \/ half_open_successes b < half_open_max_calls cfg)%nat /\
  bstate b <> METRICS_ONLY /\
  fsm_path CLOSED (map (fun e => (ev_from e, ev_to e)) (journal b)) (bstate b).
Proof. intros Hw. exact (reachable_inv clock id cfg w Hw). Qed.

(** A concrete history: trip, wait, probe, recover. *)
Definition demo_config : CircuitBreakerConfig :=
  {| failure_rate_threshold := 50; slow_call_rate_threshold := 100;
     cfg_slow_call_duration_ms := 5000; minimum_number_of_calls := 2;
     sliding_window_type := COUNT_BASED; sliding_window_size := 4;
     wait_duration_open_ms := 3000; half_open_max_calls := 2;
     max_half_open_duration_ms := 100000 |}.
Definition demo_clock (n : nat) : Q := Qnat n.
Definition demo_ops : list breaker_op :=
  [OpFailure 10 None None; OpFailure 10 None None; OpAcquire; OpState; OpAcquire; OpAcquire; OpAcquire;
   OpSuccess 10].
Definition demo_world : CircuitBreaker * option unit :=
  fst (run_ops demo_clock demo_ops (new_breaker "ep" demo_config, None) 0%nat).

Lemma breaker_invariants_witness :
  (half_open_in_flight (fst demo_world) = 1 /\ half_open_in_flight (fst demo_world) <= 2)%nat /\
  bstate (fst demo_world) = HALF_OPEN.
Proof.
  destruct (breaker_invariants demo_clock "ep" demo_config demo_world) as (Hi & _).
  - apply run_ops_reachable. apply reach_init.
  - split; [split; [vm_compute; reflexivity | exact Hi] | vm_compute; reflexivity].
Defined.

(** ** Admission *)

(** An OPEN breaker fails fast for its whole wait duration: the call is
    refused with [BreakerOpenError], whose remaining wait is non-negative and
    at most the configured wait when the clock does not run backwards, and
    nothing of the breaker changes. *)
Theorem open_rejects `{BreakerSync C} clock (w : CircuitBreaker * option C) n :
  bstate (fst w) = OPEN ->
  (clock n < opened_at (fst w) + wait_seconds (fst w))%Q ->
  exists remaining,
    acquire_permission clock w n = (Raise (BreakerOpenError (breaker_id (fst w)) remaining), w, S (S n)) /\
    (0 <= remaining)%Q /\
    ((opened_at (fst w) <= clock (S n))%Q -> (0 <= wait_seconds (fst w))%Q ->
      (remaining <= wait_seconds (fst w))%Q).
Proof.
  intros Hs Hc. unfold acquire_permission.
  erewrite bind_ok by (apply check_quiet; rewrite Hs; exact Hc). cbv beta. mstep. unfold id. rewrite Hs.
  mstep. eexists. split; [reflexivity|]. split; [apply py_max_ge_l|]. unfold wait_seconds. intros.
  apply py_max_lub; lra.
Qed.

Definition demo_open : CircuitBreaker := with_opened_at 5 (with_state OPEN (new_breaker "ep" demo_config)).

Lemma open_rejects_witness :
  exists remaining, acquire_permission demo_clock (demo_open, None : option unit) 6%nat =
    (Raise (BreakerOpenError "ep" remaining), (demo_open, None), 8%nat) /\ (remaining == 1)%Q.
Proof.
  destruct (open_rejects demo_clock (demo_open, None : option unit) 6%nat) as (r & Heq & _).
  - reflexivity.
  - vm_compute. reflexivity.
  - exists r. split; [exact Heq|]. vm_compute in Heq. injection Heq as <-. reflexivity.
Defined.

(** HALF_OPEN admits exactly the free permits: inside the probe window a
    call is admitted, taking one permit, iff fewer than [half_open_max_calls]
    are in flight; otherwise it raises [ProbeAdmissionDeniedError] and changes
    nothing. *)
Theorem half_open_admission `{BreakerSync C} clock (w : CircuitBreaker * option C) n :
  bstate (fst w) = HALF_OPEN ->
  (clock n - half_open_entered_at (fst w) <= probe_window (fst w))%Q \/ half_open_in_flight (fst w) <> 0%nat ->
  acquire_permission clock w n =
    if (half_open_in_flight (fst w) <? half_open_max_calls (config (fst w)))%nat
    then (Ok true, (with_in_flight (S (half_open_in_flight (fst w))) (fst w), snd w), S n)
    else (Raise (ProbeAdmissionDeniedError (breaker_id (fst w))), w, S n).
Proof.
  intros Hs Hc. unfold acquire_permission.
  erewrite bind_ok by (apply check_quiet; rewrite Hs; exact Hc). cbv beta. mstep. unfold id. rewrite Hs.
  rewrite Nat.ltb_antisym. by destruct (half_open_max_calls _ <=? _)%nat.
Qed.

Lemma half_open_admission_witness :
  acquire_permission demo_clock demo_world 20%nat =
    (Ok true, (with_in_flight 2 (fst demo_world), None), 21%nat).
Proof.
  rewrite (half_open_admission demo_clock demo_world 20%nat).
  - vm_compute. reflexivity.
  - vm_compute. reflexivity.
  - right. vm_compute. discriminate.
Defined.

(** ** Tripping *)

(** The trip decision.  Reporting a health-poisoning failure to a CLOSED
    breaker (no cluster store) opens it exactly when the window, with this
    outcome recorded, holds at least [minimum_number_of_calls] samples and its
    failure rate or its slow-call rate has reached the threshold; the breaker
    is then open since the instant of the report, and otherwise stays CLOSED. *)
Theorem closed_failure_trips `{BreakerSync C} clock b n dur err fc :
  bstate b = CLOSED -> poisons_of fc = true ->
  let b' := fst (out_st (record_failure clock dur err fc (b, None : option C) n)) in
  let snap := fst (metrics_snapshot (Some (clock n)) 0 (metrics_record false dur (clock n) true (metrics b))) in
  (bstate b' = OPEN /\ opened_at b' = clock n /\
   (minimum_number_of_calls (config b) <= total_calls snap)%nat /\
   ((failure_rate_threshold (config b) <= failure_rate snap)%Q \/
    (slow_call_rate_threshold (config b) <= slow_call_rate snap)%Q)) \/
  (bstate b' = CLOSED /\
   ~ ((minimum_number_of_calls (config b) <= total_calls snap)%nat /\
      ((failure_rate_threshold (config b) <= failure_rate snap)%Q \/
       (slow_call_rate_threshold (config b) <= slow_call_rate snap)%Q))).
Proof.
  intros Hs Hp b' snap. unfold b', record_failure. mstep.
  erewrite bind_ok by (apply check_quiet; simpl; by rewrite Hs). cbv beta. mstep.
  cbv zeta. fold (poisons_of fc). rewrite Hp. unfold state_is, id. simpl. rewrite Hs. simpl.
  mstep. edestruct evaluate_spec as (w' & n' & He & Hev); [|rewrite He; unfold out_st; simpl].
  { simpl. exact Hs. }
  unfold evaluated in Hev. simpl in Hev.
  rewrite <- trip_reason_Some. fold snap in Hev. destruct (trip_reason (config b) snap) as [r|] eqn:Et.
  - left. destruct Hev as ((Hst & Hop & _)%core_fields & _). rewrite Hst, Hop. eauto.
  - right. rewrite Hev. simpl. split; [done|]. by intros [].
Qed.

Lemma closed_failure_trips_witness :
  let b := fst (fst (run_ops demo_clock [OpFailure 10 None None] (new_breaker "ep" demo_config, None : option unit) 0%nat)) in
  bstate b = CLOSED /\
  bstate (fst (out_st (record_failure demo_clock 10 None None (b, None : option unit) 2%nat))) = OPEN.
Proof.
  intros b. split; [vm_compute; reflexivity|].
  destruct (closed_failure_trips (C:=unit) demo_clock b 2%nat 10 None None) as [H|[_ H]].
  - vm_compute; reflexivity.
  - reflexivity.
  - apply H.
  - exfalso. apply H. split; [vm_compute; lia|]. left. vm_compute. discriminate.
Defined.

(** ** Probing and recovery *)

(** A health-poisoning probe failure reopens the breaker at once: from
    HALF_OPEN (inside its probe window) it is OPEN since the instant of the
    report, with no permit in flight, and a further call is refused until the
    wait has elapsed again. *)
Theorem probe_failure_reopens `{BreakerSync C} clock (w : CircuitBreaker * option C) n dur err fc :
  bstate (fst w) = HALF_OPEN -> half_open_in_flight (fst w) <> 0%nat -> poisons_of fc = true ->
  let b' := fst (out_st (record_failure clock dur err fc w n)) in
  bstate b' = OPEN /\ opened_at b' = clock n /\ half_open_in_flight b' = 0%nat /\
  half_open_successes b' = 0%nat /\
  (forall k, (clock k < clock n + wait_seconds (fst w))%Q ->
    res_ok (out_res (acquire_permission clock (b', snd w) k)) = false).
Proof.
  intros Hs Hi Hp b'.
  destruct (record_failure_spec clock dur err fc w n) as (bc & w' & n' & He & Hck & _ & Hf).
  assert (bc = fst w) as ->.
  { destruct Hck; try congruence; done. }
  unfold failed in Hf. rewrite Hs, Hp in Hf.
  destruct Hf as ((Hst & Hop & _ & Hfl & Hsu & Hcfg & _)%core_fields & _). simpl in *.
  assert (b' = fst w') as -> by (unfold b'; by rewrite He).
  split_and!; try done. intros k Hk. unfold acquire_permission.
  erewrite bind_ok by (apply check_quiet; simpl; unfold wait_seconds in *; by rewrite Hst, Hop, Hcfg).
  cbv beta. mstep. unfold id. simpl. by rewrite Hst.
Qed.

Lemma probe_failure_reopens_witness :
  bstate (fst (out_st (record_failure demo_clock 10 None None demo_world 20%nat))) = OPEN.
Proof. apply (probe_failure_reopens demo_clock demo_world 20%nat 10 None None); vm_compute; congruence. Defined.

Section recovery.
Context {C : Type} `{BreakerSync C} (clock : nat -> Q).
Local Abbreviation local b := (b, None : option C).

(** One probe success, the probe holding a permit. *)
Lemma success_half_open b n d : bstate b = HALF_OPEN -> half_open_in_flight b <> 0%nat ->
  exists b' n', run_op clock (OpSuccess d) (local b) n = (local b', n') /\ (n <= n' <= n + 3)%nat /\
    if (half_open_max_calls (config b) <=? half_open_successes b + 1)%nat
    then bstate b' = CLOSED /\ samples (metrics b') = [] /\ half_open_in_flight b' = 0%nat
    else b' = with_successes (half_open_successes b + 1) (with_in_flight (half_open_in_flight b - 1) b).
Proof.
  intros Hs Hi. unfold run_op, record_success. mstep.
  erewrite bind_ok by (apply check_quiet; simpl; rewrite Hs; by right). cbv beta. mstep.
  unfold state_is, id. simpl. rewrite Hs. simpl. do 2 mstep. case_match eqn:E; rewrite ?E.
  - do 5 mstep. edestruct (emit_local (C:=C) clock) as (b' & He & (Hst & _ & _ & Hfl & _)%core_fields & Hsub & _).
    rewrite He. exists b', (S (S (S n))). unfold out_st, out_tick. simpl in *.
    split_and!; [done | lia | lia | done | | done]. by apply sublist_nil_r in Hsub.
  - eexists _, _. unfold out_st, out_tick. simpl. split_and!; [done | lia | lia | done].
Qed.

Definition probe_rounds (k : nat) (d : Q) : list breaker_op := concat (replicate k [OpAcquire; OpSuccess d]).

Lemma run_ops_cons o l w n : run_ops (C:=C) clock (o :: l) w n =
  run_ops clock l (fst (run_op clock o w n)) (snd (run_op clock o w n)).
Proof. unfold run_ops. simpl. by destruct (run_op clock o w n). Qed.

Lemma probe_rounds_S k d : probe_rounds (S k) d = OpAcquire :: OpSuccess d :: probe_rounds k d.
Proof. done. Qed.

Lemma rounds_close k b n d :
  bstate b = HALF_OPEN -> half_open_in_flight b = 0%nat ->
  (half_open_successes b + S k = half_open_max_calls (config b))%nat ->
  (forall i, (i <= 4 * S k)%nat -> (clock (n + i) - half_open_entered_at b <= probe_window b)%Q) ->
  exists b' n', run_ops clock (probe_rounds (S k) d) (local b) n = (local b', n') /\
    bstate b' = CLOSED /\ samples (metrics b') = [] /\ half_open_in_flight b' = 0%nat.
Proof.
  revert b n. induction k as [|k IH]; intros b n Hs Hi Hmax Ht;
    rewrite probe_rounds_S;
    do 2 rewrite run_ops_cons.
  all: assert (run_op clock OpAcquire (local b) n = (local (with_in_flight 1 b), S n)) as Ha by
    (unfold run_op, acquire_permission;
     erewrite bind_ok by (apply check_quiet; simpl; rewrite Hs; left;
       specialize (Ht 0%nat); rewrite Nat.add_0_r in Ht; apply Ht; lia);
     cbv beta; mstep; unfold id; simpl; rewrite Hs, Hi;
     rewrite (proj2 (Nat.leb_gt _ _)) by lia; done).
  all: rewrite Ha; cbn [fst snd].
  all: destruct (success_half_open (with_in_flight 1 b) (S n) d) as (b' & n' & Hr & Hn & Hb');
    [done | done |]; rewrite Hr; cbn [fst snd]; simpl in Hb'.
  - rewrite (proj2 (Nat.leb_le _ _)) in Hb' by lia. exists b', n'. split; [done | exact Hb'].
  - rewrite (proj2 (Nat.leb_gt _ _)) in Hb' by lia. subst b'.
    apply (IH _ n'); simpl; try done; [lia|]. intros i Hle.
    replace (n' + i)%nat with (n + (n' - n + i))%nat.
    + apply Ht. lia.
    + lia.
Qed.
(** Once the wait has elapsed, the next call is admitted as the first probe. *)
Lemma wait_then_admit b n :
  bstate b = OPEN -> (opened_at b + wait_seconds b <= clock n)%Q ->
  half_open_max_calls (config b) <> 0%nat ->
  exists b', acquire_permission clock (local b) n = (Ok true, local b', S (S n)) /\
    bstate b' = HALF_OPEN /\ half_open_in_flight b' = 1%nat /\ half_open_successes b' = 0%nat /\
    half_open_entered_at b' = clock n /\ config b' = config b.
Proof.
  intros Hs Hw Hm. unfold acquire_permission.
  edestruct (emit_local (C:=C) clock OPEN HALF_OPEN (WaitElapsed (wait_seconds b))
    (with_successes 0 (with_in_flight 0 (with_half_open_entered_at (clock n) (with_state HALF_OPEN b)))) (S n))
    as (b' & He & (Hst & _ & Hen & Hfl & Hsu & Hcf & _)%core_fields & _). simpl in *.
  assert (check_and_update_state clock (local b) n = (Ok tt, local b', S (S n))) as Hck.
  { assert (state_is CLOSED b = false) as Hcl by (unfold state_is; by rewrite Hs).
    assert (state_is OPEN b = true) as Hop by (unfold state_is; by rewrite Hs).
    unfold check_and_update_state. do 2 mstep. cbn [fst]. rewrite Hcl. mstep. cbv iota. mstep.
    unfold id. cbn [fst]. rewrite Hop. unfold when. rewrite (proj2 (Qle_bool_true _ _)) by exact Hw.
    do 4 mstep. exact He. }
  mstep. mstep. unfold id. simpl. rewrite Hst, Hfl, Hcf. rewrite (proj2 (Nat.leb_gt _ _)) by lia.
  eexists. split; [reflexivity|]. done.
Qed.
End recovery.

(** C30: liveness of recovery.  An OPEN breaker (no cluster store) whose wait
    has elapsed closes again, with an empty window and no permit in flight,
    after [half_open_max_calls] successful probes made one after the other,
    provided the probes are issued within the probe window. *)
Theorem probes_recover `{BreakerSync C} (clock : nat -> Q) b n d :
  bstate b = OPEN -> (opened_at b + wait_seconds b <= clock n)%Q ->
  half_open_max_calls (config b) <> 0%nat ->
  (forall i, (i <= 4 * half_open_max_calls (config b) + 2)%nat -> (clock (n + i)%nat - clock n <= probe_window b)%Q) ->
  let b' := fst (fst (run_ops clock (probe_rounds (half_open_max_calls (config b)) d) (b, None : option C) n)) in
  bstate b' = CLOSED /\ samples (metrics b') = [] /\ half_open_in_flight b' = 0%nat.
Proof.
  intros Hs Hw Hm Ht. destruct (half_open_max_calls (config b)) as [|k] eqn:Hk; [done|]. clear Hm.
  destruct (wait_then_admit (C:=C) clock b n Hs Hw) as (b1 & Ha & Hs1 & Hi1 & Hsu1 & Hen1 & Hcf1); [by rewrite Hk|].
  rewrite probe_rounds_S. do 2 rewrite run_ops_cons.
  assert (run_op clock OpAcquire (b, None : option C) n = ((b1, None), S (S n))) as -> by
    (unfold run_op; by rewrite Ha). cbn [fst snd].
  destruct (success_half_open (C:=C) clock b1 (S (S n)) d Hs1) as (b2 & n2 & Hr & Hn2 & Hb2); [by rewrite Hi1|].
  rewrite Hr. cbn [fst snd]. rewrite Hcf1, Hk, Hsu1 in Hb2. destruct k as [|k].
  - exact Hb2.
  - simpl in Hb2. subst b2.
    destruct (rounds_close (C:=C) clock k
      (with_successes 1 (with_in_flight (half_open_in_flight b1 - 1) b1)) n2 d) as (b3 & n3 & -> & H3); simpl.
    + done.
    + by rewrite Hi1.
    + by rewrite Hcf1, Hk.
    + intros i Hi. unfold probe_window in *. simpl. rewrite Hen1, Hcf1.
      replace (n2 + i)%nat with (n + (n2 - n + i))%nat by lia. apply Ht. lia.
    + exact H3.
Qed.

Lemma probes_recover_witness :
  let b' := fst (fst (run_ops demo_clock (probe_rounds 2 7) (demo_open, None : option unit) 8%nat)) in
  bstate b' = CLOSED /\ samples (metrics b') = [] /\ half_open_in_flight b' = 0%nat.
Proof.
  apply (probes_recover (C:=unit) demo_clock demo_open 8%nat 7).
  - reflexivity.
  - vm_compute. discriminate.
  - vm_compute. discriminate.
  - intros i Hi. change (half_open_max_calls (config demo_open)) with 2%nat in Hi.
    do 11 (destruct i as [|i]; [vm_compute; discriminate|]). lia.
Defined.

(** With every permit in flight, HALF_OPEN refuses and nothing changes. *)
Lemma exhausted_refuses `{BreakerSync C} clock (w : CircuitBreaker * option C) :
  bstate (fst w) = HALF_OPEN -> half_open_in_flight (fst w) = half_open_max_calls (config (fst w)) ->
  half_open_max_calls (config (fst w)) <> 0%nat ->
  forall j, acquire_permission clock w j = (Raise (ProbeAdmissionDeniedError (breaker_id (fst w))), w, S j).
Proof.
  intros Hs Hi Hm j. unfold acquire_permission.
  erewrite bind_ok by (apply check_quiet; rewrite Hs; right; by rewrite Hi). cbv beta. mstep.
  unfold id. rewrite Hs, Hi. by rewrite (proj2 (Nat.leb_le _ _)) by lia.
Qed.

(** A leaked probe permit wedges the breaker.  If all
    [half_open_max_calls] permits of a HALF_OPEN breaker are held by calls
    that never report back, every later admission request is refused and the
    breaker stays HALF_OPEN at every instant, however long: the probe timeout
    only applies while no permit is in flight. *)
Theorem leaked_permits_wedge `{BreakerSync C} clock (w : CircuitBreaker * option C) n k :
  bstate (fst w) = HALF_OPEN -> half_open_max_calls (config (fst w)) <> 0%nat ->
  half_open_in_flight (fst w) = half_open_max_calls (config (fst w)) ->
  fst (run_ops clock (replicate k OpAcquire) w n) = w /\
  out_res (acquire_permission clock w (n + k)%nat) = Raise (ProbeAdmissionDeniedError (breaker_id (fst w))).
Proof.
  intros Hs Hm Hi. pose proof (exhausted_refuses clock w Hs Hi Hm) as Ha.
  split; [|by rewrite Ha].
  revert n. induction k as [|k IH]; intros n; [done|]. simpl replicate. rewrite run_ops_cons.
  unfold run_op at 1 2. rewrite Ha. unfold out_st, out_tick. simpl. apply IH.
Qed.

Lemma leaked_permits_wedge_witness :
  let w := (with_in_flight 2 (fst demo_world), None : option unit) in
  out_res (acquire_permission demo_clock w (50 + 1000)%nat) = Raise (ProbeAdmissionDeniedError "ep").
Proof.
  apply (leaked_permits_wedge (C:=unit) demo_clock (with_in_flight 2 (fst demo_world), None) 50 1000);
    vm_compute; congruence.
Defined.

(** ** Failures that do not poison health *)

(** Traffic whose failures are all classified as not poisoning (client
    faults, request incompatibilities) and whose calls are not slow. *)
Definition benign (slow : Q) (o : breaker_op) : Prop :=
  match o with
  | OpState | OpAcquire | OpSnapshot => True
  | OpSuccess d => (d < slow)%Q
  | OpFailure d _ fc => (d < slow)%Q /\ poisons_of fc = false
  | _ => False
  end.

Definition clean_sample (s : CallOutcome) : Prop := is_failed s = false /\ co_is_slow s = false.

Definition healthy (cfg : CircuitBreakerConfig) (b : CircuitBreaker) : Prop :=
  bstate b = CLOSED /\ config b = cfg /\ slow_call_duration_ms (metrics b) = cfg_slow_call_duration_ms cfg /\
  Forall clean_sample (samples (metrics b)).

Lemma countb_clean p (l : list CallOutcome) : Forall (fun s => p s = false) l -> countb p l = 0%nat.
Proof. induction 1 as [|s l Hs _ IH]; [done|]. by rewrite countb_cons, Hs, IH. Qed.

Lemma clean_no_trip cfg t m :
  (0 < failure_rate_threshold cfg)%Q -> (0 < slow_call_rate_threshold cfg)%Q ->
  Forall clean_sample (samples m) -> trip_reason cfg (fst (metrics_snapshot (Some t) 0 m)) = None.
Proof.
  intros Hf Hs Hm. destruct (trip_reason cfg _) as [r|] eqn:E; [|done]. exfalso.
  assert (Forall clean_sample (samples (evict_expired t m))) as Hcl
    by (eapply Forall_sub; [apply evict_sublist | done]).
  destruct (snapshot_rates (Some t) 0 m) as [Hr1 Hr2].
  destruct (snapshot_counts (Some t) 0 m) as (_ & _ & Hfc & Hsc). rewrite snapshot_window in Hfc, Hsc.
  rewrite (countb_clean is_failed) in Hfc by (eapply Forall_impl; [exact Hcl | by intros ? []]).
  rewrite (countb_clean co_is_slow) in Hsc by (eapply Forall_impl; [exact Hcl | by intros ? []]).
  assert (forall k, rate 0 k == 0)%Q as Hz by (intros k; unfold rate, Qnat, Qdiv; simpl; ring).
  destruct (proj1 (trip_reason_Some cfg _) (ex_intro _ r E)) as (_ & Ht).
  rewrite Hr1, Hr2, Hfc, Hsc in Ht. destruct (_ =? 0)%nat; [lra|]. rewrite Hz in Ht. lra.
Qed.

Lemma healthy_record cfg b ok d t p :
  healthy cfg b -> (d < cfg_slow_call_duration_ms cfg)%Q -> ok = true \/ p = false ->
  healthy cfg (with_metrics (metrics_record ok d t p (metrics b)) b).
Proof.
  intros (Hs & Hc & Hsl & Hcl) Hd Hok. unfold healthy. simpl.
  destruct (metrics_record_config ok d t p (metrics b)) as (-> & _). split_and!; try done.
  unfold metrics_record. eapply Forall_sub; [apply evict_sublist|]. simpl.
  apply Forall_app. split; [done|]. repeat constructor; unfold is_failed; simpl.
  - destruct Hok as [-> | ->]; [done|]. apply andb_false_r.
  - rewrite Hsl. by qbool.
Qed.

Lemma healthy_evict cfg b t : healthy cfg b -> healthy cfg (with_metrics (evict_expired t (metrics b)) b).
Proof.
  intros (Hs & Hc & Hsl & Hcl). unfold healthy. simpl. autorewrite with durallm. split_and!; try done.
  eapply Forall_sub; [apply evict_sublist | done].
Qed.

Lemma run_benign `{BreakerSync C} clock cfg o b n :
  (0 < failure_rate_threshold cfg)%Q -> (0 < slow_call_rate_threshold cfg)%Q ->
  benign (cfg_slow_call_duration_ms cfg) o -> healthy cfg b ->
  exists b', fst (run_op clock o (b, None : option C) n) = (b', None) /\ healthy cfg b'.
Proof.
  intros Hft Hst Ho Hh. destruct Hh as (Hs & Hc & Hsl & Hcl) eqn:Eh. clear Eh.
  assert (forall k, check_and_update_state clock (b, None : option C) k = (Ok tt, (b, None), S k)) as Hck
    by (intros k; apply check_quiet; simpl; by rewrite Hs).
  assert (state_is CLOSED b = true) as Hcl' by (unfold state_is; by rewrite Hs).
  assert (state_is HALF_OPEN b = false) as Hho by (unfold state_is; by rewrite Hs).
  destruct o; simpl in Ho; try done; unfold run_op.
  - unfold state. erewrite bind_ok by apply Hck. by exists b.
  - unfold acquire_permission. erewrite bind_ok by apply Hck. cbv beta. mstep. unfold id. cbn [fst].
    rewrite Hs. by exists b.
  - unfold record_success. mstep. erewrite bind_ok by apply Hck. cbv beta. mstep. unfold id. cbn [fst].
    rewrite Hho, Hcl'. mstep. unfold when, evaluate_closed_thresholds. mstep. unfold id. cbn [fst].
    assert (healthy cfg (with_metrics (metrics_record true duration_ms (clock n) true (metrics b)) b)) as Hh'
      by (apply healthy_record; auto).
    destruct Hh' as (Hs' & Hc' & Hsl' & Hcls) eqn:Eh. unfold state_is. cbn [fst] in *. rewrite bool_decide_true by done.
    cbn [negb]. erewrite bind_ok by apply self_snapshot_eq. cbv beta. cbn [fst].
    rewrite (clean_no_trip _ (clock n)) by (try rewrite Hc'; done).
    eexists. split; [reflexivity|]. cbn [fst]. apply healthy_evict. exact Hh'.
  - destruct Ho as [Hd Hp]. unfold record_failure. mstep. erewrite bind_ok by apply Hck. cbv beta. mstep.
    unfold id. cbn [fst]. cbv zeta. fold (poisons_of fc). rewrite Hho, Hcl', Hp. mstep.
    eexists. split; [reflexivity|]. by apply healthy_record; auto.
  - unfold snapshot. erewrite bind_ok by apply Hck. cbv beta. mstep.
    erewrite bind_ok by apply self_snapshot_eq. cbv beta. mstep.
    eexists. split; [reflexivity|]. by apply healthy_evict.
Qed.

(** Failures that do not poison health never open the breaker.  From a
    fresh breaker with positive thresholds (no cluster store), any traffic of
    state queries, admissions, successes and non-poisoning failures, none of
    them slow, leaves it CLOSED, whatever the clock. *)
Theorem benign_traffic_stays_closed `{BreakerSync C} clock id cfg ops n :
  (0 < failure_rate_threshold cfg)%Q -> (0 < slow_call_rate_threshold cfg)%Q ->
  Forall (benign (cfg_slow_call_duration_ms cfg)) ops ->
  bstate (fst (fst (run_ops clock ops (new_breaker id cfg, None : option C) n))) = CLOSED.
Proof.
  intros Hf Hs Hops.
  enough (forall b, healthy cfg b -> forall m,
    bstate (fst (fst (run_ops clock ops (b, None : option C) m))) = CLOSED) as Hall.
  { apply Hall. unfold healthy. simpl. auto. }
  induction Hops as [|o ops Ho _ IH]; intros b Hb m; [apply Hb|]. rewrite run_ops_cons.
  destruct (run_benign (C:=C) clock cfg o b m Hf Hs Ho Hb) as (b' & -> & Hb'). by apply IH.
Qed.

Lemma benign_traffic_stays_closed_witness :
  let client_fault := {| fc_category := CLIENT_FAULT; fc_reason := client_error; fc_should_fallback := false;
    fc_retryable := false; fc_poisons_health := false; fc_is_permanent := false; fc_status_code := Some 400%Z;
    fc_retry_after_seconds := None; fc_message := "bad request"; fc_details := [] |} in
  bstate (fst (fst (run_ops demo_clock
    [OpAcquire; OpFailure 10 None (Some client_fault); OpAcquire; OpFailure 10 None (Some client_fault);
     OpSuccess 20; OpSnapshot] (new_breaker "ep" demo_config, None : option unit) 0%nat))) = CLOSED.
Proof.
  intros cf. apply (benign_traffic_stays_closed (C:=unit)).
  - reflexivity.
  - reflexivity.
  - repeat constructor; vm_compute; reflexivity.
Defined.
