(* ===== verification/Config.v ===== *)
(** * Gateway configuration

    [src/durallm/config.py]: the settings of a gateway, from a dict, from the
    environment or from a file, and the breaker and execution settings made of them.
    The environment and the file system are arguments.  Values of another type than
    a field declares, and negative counts, which the typed settings have no room
    for, are outside the model. *)

From stdpp Require Import base tactics list strings.
From Stdlib Require Import QArith Qround.
From S2P Require Import Prelude PyText Json PyDyn Models Execution Metrics Breaker.

Record GatewayConfig : Type := {
  host : string;
  port : Z;
  default_pool : string;
  default_strategy : string;
  cfg_deadline_ms : Q;
  cfg_streaming_mode : string;
  log_level : string;
  breaker_failure_rate_threshold : Q;
  breaker_sliding_window_size : Z;
  breaker_wait_duration_in_open : Q;
  breaker_half_open_calls : Z;
  retry_max_same_endpoint : Z;
  fallback_max_hops : Z;
  cfg_max_total_attempts : Z;
}.
Definition default_gateway_config : GatewayConfig :=
  {| host := "127.0.0.1"; port := 4001; default_pool := "general_agent"; default_strategy := "balanced"; cfg_deadline_ms := 60000;
     cfg_streaming_mode := "true_streaming"; log_level := "INFO"; breaker_failure_rate_threshold := 50; breaker_sliding_window_size := 10;
     breaker_wait_duration_in_open := 30; breaker_half_open_calls := 3; retry_max_same_endpoint := 2; fallback_max_hops := 3;
     cfg_max_total_attempts := 6 |}.

(** ** Settings of the components *)

Definition count_of (z : Z) : option nat := if (z <? 0)%Z then None else Some (Z.to_nat z).
Definition to_breaker_config (c : GatewayConfig) : option CircuitBreakerConfig :=
  match count_of (breaker_sliding_window_size c), count_of (breaker_half_open_calls c) with
  | Some window, Some probes =>
      Some {| failure_rate_threshold := breaker_failure_rate_threshold c;
              slow_call_rate_threshold := slow_call_rate_threshold default_breaker_config;
              cfg_slow_call_duration_ms := cfg_slow_call_duration_ms default_breaker_config;
              minimum_number_of_calls := minimum_number_of_calls default_breaker_config;
              sliding_window_type := sliding_window_type default_breaker_config;
              sliding_window_size := window;
              wait_duration_open_ms := breaker_wait_duration_in_open c * 1000;
              half_open_max_calls := probes;
              max_half_open_duration_ms := max_half_open_duration_ms default_breaker_config |}
  | _, _ => None
  end.
Definition to_execution_policy (c : GatewayConfig) : option ExecutionPolicy :=
  match count_of (retry_max_same_endpoint c), count_of (fallback_max_hops c), count_of (cfg_max_total_attempts c) with
  | Some tries, Some hops, Some total =>
      Some {| retry := {| max_attempts_same_endpoint := tries; base_backoff_ms := base_backoff_ms default_retry;
                          max_backoff_ms := max_backoff_ms default_retry; jitter := jitter default_retry; retry_on_status := retry_on_status default_retry |};
              fallback := {| max_fallback_hops := hops; require_capability_match := require_capability_match default_fallback;
                             avoid_same_provider := avoid_same_provider default_fallback; avoid_recent_failure := avoid_recent_failure default_fallback |};
              max_total_attempts := total |}
  | _, _, _ => None
  end.

(** ** From a dict *)

Section from_dict.
Context {S : Type} (data : odict string json).
Local Abbreviation D := (M dyn_error S).
Definition text_field (k dflt : string) : D string := match od_get k data with None => mret dflt | Some j => want_str j end.
Definition count_field (k : string) (dflt : Z) : D Z := match od_get k data with None => mret dflt | Some j => want_int j end.
Definition number_field (k : string) (dflt : Q) : D Q :=
  match od_get k data with
  | None => mret dflt
  | Some j => o ← want_opt_num j; match o with Some q => mret q | None => raise Untyped end
  end.
(** Keys that are no field are dropped, missing ones take the default. *)
Definition from_dict : D GatewayConfig :=
  let d := default_gateway_config in
  h ← text_field "host" (host d);
  p ← count_field "port" (port d);
  pool ← text_field "default_pool" (default_pool d);
  strategy ← text_field "default_strategy" (default_strategy d);
  deadline ← number_field "deadline_ms" (cfg_deadline_ms d);
  mode ← text_field "streaming_mode" (cfg_streaming_mode d);
  level ← text_field "log_level" (log_level d);
  rate ← number_field "breaker_failure_rate_threshold" (breaker_failure_rate_threshold d);
  window ← count_field "breaker_sliding_window_size" (breaker_sliding_window_size d);
  wait ← number_field "breaker_wait_duration_in_open" (breaker_wait_duration_in_open d);
  probes ← count_field "breaker_half_open_calls" (breaker_half_open_calls d);
  tries ← count_field "retry_max_same_endpoint" (retry_max_same_endpoint d);
  hops ← count_field "fallback_max_hops" (fallback_max_hops d);
  total ← count_field "max_total_attempts" (cfg_max_total_attempts d);
  mret {| host := h; port := p; default_pool := pool; default_strategy := strategy; cfg_deadline_ms := deadline; cfg_streaming_mode := mode;
          log_level := level; breaker_failure_rate_threshold := rate; breaker_sliding_window_size := window; breaker_wait_duration_in_open := wait;
          breaker_half_open_calls := probes; retry_max_same_endpoint := tries; fallback_max_hops := hops; cfg_max_total_attempts := total |}.
End from_dict.

(** ** From the environment *)

Section environment.
Context (environ : string -> option string).

(** [get_env("DURALLM_" + suffix, dflt)]: the legacy name comes second. *)
Definition get_env (suffix dflt : string) : string :=
  match environ ("DURALLM_" ++ suffix)%string with
  | Some v => v
  | None => default dflt (environ ("LLM_BREAKER_" ++ suffix)%string)
  end.
(** [None] is the [ValueError] of [int] or [float]. *)
Definition from_env : option GatewayConfig :=
  p ← py_int (get_env "PORT" (default "4001" (environ "PORT")));
  deadline ← py_float (get_env "DEADLINE_MS" "60000.0");
  rate ← py_float (get_env "FAILURE_THRESHOLD" "50.0");
  window ← py_int (get_env "WINDOW_SIZE" "10");
  wait ← py_float (get_env "WAIT_OPEN" "30.0");
  probes ← py_int (get_env "HALF_OPEN_CALLS" "3");
  tries ← py_int (get_env "RETRY_MAX" "2");
  hops ← py_int (get_env "FALLBACK_MAX" "3");
  total ← py_int (get_env "MAX_TOTAL_ATTEMPTS" "6");
  Some {| host := get_env "HOST" (default "127.0.0.1" (environ "HOST")); port := p; default_pool := get_env "DEFAULT_POOL" "general_agent";
          default_strategy := get_env "STRATEGY" "balanced"; cfg_deadline_ms := deadline; cfg_streaming_mode := get_env "STREAMING_MODE" "true_streaming";
          log_level := get_env "LOG_LEVEL" "INFO"; breaker_failure_rate_threshold := rate; breaker_sliding_window_size := window;
          breaker_wait_duration_in_open := wait; breaker_half_open_calls := probes; retry_max_same_endpoint := tries; fallback_max_hops := hops;
          cfg_max_total_attempts := total |}.

(** ** From a file *)

(** [config_path or environ[...] or environ[...]] *)
Definition config_file (config_path : option string) : option string :=
  let or_ (o : option string) (next : option string) := match o with Some s => if truthy s then Some s else next | None => next end in
  or_ config_path (or_ (environ "DURALLM_CONFIG") (or_ (environ "LLM_BREAKER_CONFIG") None)).
Inductive config_error : Type := BadNumber | BadFile (e : dyn_error).
(** [read] gives the text of a file that exists. *)
Definition load (read : string -> option string) (json_loads : string -> option json) (config_path : option string) : res config_error GatewayConfig :=
  match config_file config_path ≫= read with
  | Some raw =>
      match default (JObj []) (json_loads raw) with
      | JObj data => match out_res (from_dict data tt 0%nat) with Ok c => Ok c | Raise e => Raise (BadFile e) end
      | _ => Raise (BadFile AttributeError)
      end
  | None => match from_env with Some c => Ok c | None => Raise BadNumber end
  end.
End environment.

From S2P Require Import BreakerSpec BreakerFSM BreakerProps.

(** ** What a configuration does

    Where the settings come from, and what the breaker does with them. *)
Module ConfigProps.

(** ** A window smaller than the minimum number of calls *)

Definition traffic (o : breaker_op) : Prop :=
  match o with OpState | OpAcquire | OpSnapshot | OpSuccess _ | OpFailure _ _ _ => True | _ => False end.
(** A closed breaker whose window cannot hold the calls its test asks for. *)
Definition starved (cfg : CircuitBreakerConfig) (b : CircuitBreaker) : Prop :=
  bstate b = CLOSED /\ config b = cfg /\ window_type (metrics b) = COUNT_BASED /\ (window_size (metrics b) < minimum_number_of_calls cfg)%nat.

Lemma starved_no_trip cfg b t : starved cfg b -> trip_reason cfg (fst (metrics_snapshot (Some t) 0 (metrics b))) = None.
Proof.
  intros (_ & _ & Hw & Hsz). unfold trip_reason. destruct (snapshot_counts (Some t) 0 (metrics b)) as (-> & _). rewrite snapshot_window.
  unfold evict_expired. rewrite Hw. cbn [samples set_samples]. rewrite drop_excess_length.
  destruct (Nat.ltb_spec (Nat.min (length (samples (metrics b))) (window_size (metrics b))) (minimum_number_of_calls cfg)); [done | lia].
Qed.
Lemma starved_record cfg b ok d t p : starved cfg b -> starved cfg (with_metrics (metrics_record ok d t p (metrics b)) b).
Proof.
  intros (Hs & Hc & Hw & Hsz). unfold starved. cbn [bstate config metrics with_metrics].
  destruct (metrics_record_config ok d t p (metrics b)) as (_ & -> & ->). done.
Qed.
Lemma starved_evict cfg b t : starved cfg b -> starved cfg (with_metrics (evict_expired t (metrics b)) b).
Proof. intros (Hs & Hc & Hw & Hsz). unfold starved. cbn. by rewrite evict_window_type, evict_window_size. Qed.

Section starving.
Context {C : Type} `{BreakerSync C} (clock : nat -> Q).

Lemma starved_check b n : bstate b = CLOSED -> check_and_update_state clock (b, None : option C) n = (Ok tt, (b, None), S n).
Proof. intros Hs. apply check_quiet. simpl. by rewrite Hs. Qed.
Lemma starved_evaluate cfg b t n : starved cfg b ->
  exists b', evaluate_closed_thresholds clock t (b, None : option C) n = (Ok tt, (b', None), n) /\ starved cfg b'.
Proof.
  intros Hb. pose proof Hb as (Hs & Hc & _). unfold evaluate_closed_thresholds. mstep. unfold id. cbn [fst].
  unfold state_is. rewrite bool_decide_true by done. cbn [negb]. erewrite bind_ok by apply self_snapshot_eq. cbv beta. cbn [fst snd].
  rewrite Hc, (starved_no_trip cfg) by done. eexists. split; [reflexivity|]. by apply starved_evict.
Qed.

Lemma run_starved cfg o b n : traffic o -> starved cfg b ->
  exists b', fst (run_op clock o (b, None : option C) n) = (b', None) /\ starved cfg b'.
Proof.
  intros Ho Hb. pose proof Hb as (Hs & _). pose proof (fun k => starved_check b k Hs) as Hck.
  assert (state_is CLOSED b = true /\ state_is HALF_OPEN b = false) as [Hcl Hho] by (unfold state_is; by rewrite Hs).
  destruct o; cbn in Ho; try done; unfold run_op.
  - unfold state. erewrite bind_ok by apply Hck. by exists b.
  - unfold acquire_permission. erewrite bind_ok by apply Hck. cbv beta. mstep. unfold id. cbn [fst]. rewrite Hs. by exists b.
  - unfold record_success. mstep. erewrite bind_ok by apply Hck. cbv beta. mstep. unfold id. cbn [fst]. rewrite Hho, Hcl. mstep. unfold when.
    destruct (starved_evaluate cfg _ (clock n) (S (S n)) (starved_record cfg b true duration_ms (clock n) true Hb)) as (b' & E & Hb').
    cbn [fst snd] in *. rewrite E. by exists b'.
  - unfold record_failure. mstep. erewrite bind_ok by apply Hck. cbv beta. mstep. unfold id. cbn [fst]. cbv zeta. rewrite Hho, Hcl. mstep. cbn [andb].
    set (p := match fc with Some c => fc_poisons_health c | None => true end).
    destruct (starved_evaluate cfg _ (clock n) (S (S n)) (starved_record cfg b false duration_ms (clock n) p Hb)) as (b' & E & Hb').
    destruct p; cbn [when fst snd] in *; [rewrite E; by exists b'|]. eexists. split; [reflexivity|]. by apply starved_record.
  - unfold snapshot. erewrite bind_ok by apply Hck. cbv beta. mstep. erewrite bind_ok by apply self_snapshot_eq. cbv beta. mstep.
    eexists. split; [reflexivity|]. by apply starved_evict.
Qed.
Lemma run_ops_starved cfg ops b n : Forall traffic ops -> starved cfg b ->
  exists b' m, run_ops clock ops (b, None : option C) n = ((b', None), m) /\ starved cfg b'.
Proof.
  intros Hops. revert b n. induction Hops as [|o ops Ho _ IH]; intros b n Hb; [by exists b, n|]. rewrite run_ops_cons.
  destruct (run_starved cfg o b n Ho Hb) as (b' & -> & Hb'). by apply IH.
Qed.
End starving.

(** ** Claims *)

(** A small window switches the breaker off.  [to_breaker_config] sets the window but
    leaves the minimum number of calls at ten, so with a window below ten the
    breaker made from the configuration stays closed and admits every call, however
    many calls fail. *)
Theorem small_window_disables_breaker `{BreakerSync C} clock (c : GatewayConfig) cfg id ops n :
  to_breaker_config c = Some cfg -> (breaker_sliding_window_size c < 10)%Z -> Forall traffic ops ->
  exists b m, run_ops clock ops (new_breaker id cfg, None : option C) n = ((b, None), m) /\ bstate b = CLOSED /\
    forall k, acquire_permission clock (b, None : option C) k = (Ok true, (b, None), S k).
Proof.
  intros Hc Hw Hops. unfold to_breaker_config, count_of in Hc. destruct (Z.ltb_spec (breaker_sliding_window_size c) 0) as [|Hp]; [done|].
  destruct (if (breaker_half_open_calls c <? 0)%Z then _ else _) as [probes|]; [|done].
  assert (sliding_window_size cfg = Z.to_nat (breaker_sliding_window_size c) /\ sliding_window_type cfg = COUNT_BASED /\ minimum_number_of_calls cfg = 10%nat)
    as (Hsz & Hty & Hmin) by (by injection Hc as <-).
  destruct (run_ops_starved (C := C) clock cfg ops (new_breaker id cfg) n Hops) as (b & m & E & Hb).
  2: { exists b, m. split; [exact E|]. pose proof Hb as (Hs & _). split; [done|]. intros k. unfold acquire_permission.
       erewrite bind_ok by by apply starved_check. cbv beta. mstep. unfold Datatypes.id. cbn [fst]. by rewrite Hs. }
  unfold starved. cbn. rewrite Hsz, Hty, Hmin. split_and!; [done..|lia].
Qed.

Definition small_config : GatewayConfig := {| host := ""; port := 0; default_pool := ""; default_strategy := ""; cfg_deadline_ms := 0; cfg_streaming_mode := "";
  log_level := ""; breaker_failure_rate_threshold := 50; breaker_sliding_window_size := 5; breaker_wait_duration_in_open := 30;
  breaker_half_open_calls := 3; retry_max_same_endpoint := 2; fallback_max_hops := 3; cfg_max_total_attempts := 6 |}.
Definition small_breaker : CircuitBreakerConfig := default default_breaker_config (to_breaker_config small_config).
Lemma small_window_disables_breaker_witness :
  exists b m, run_ops demo_clock (repeat (OpFailure 10 None None) 30) (new_breaker "ep" small_breaker, None : option unit) 0%nat = ((b, None), m) /\
    bstate b = CLOSED.
Proof.
  destruct (small_window_disables_breaker (C := unit) demo_clock small_config small_breaker "ep" (repeat (OpFailure 10 None None) 30) 0%nat)
    as (b & m & E & Hs & _); [reflexivity | reflexivity | repeat constructor |]. exists b, m. split; [exact E | exact Hs].
Defined.

(** A file silences the environment, and a broken file silences itself.  When the
    configuration file exists, what is loaded depends on its text only, whatever the
    environment sets; when its text is no JSON, every setting takes its default.
    Without a file every setting is the variable of that name, else the legacy
    variable, else the default. *)
Theorem config_sources read json_loads path :
  (forall raw environ environ', truthy path = true -> read path = Some raw ->
     load environ read json_loads (Some path) = load environ' read json_loads (Some path) /\
     (json_loads raw = None -> load environ read json_loads (Some path) = Ok default_gateway_config)) /\
  (forall environ, config_file environ None = None -> load environ read json_loads None = match from_env environ with Some c => Ok c | None => Raise BadNumber end) /\
  from_env (fun _ => None) = Some default_gateway_config /\
  (forall suffix dflt environ v, environ ("DURALLM_" ++ suffix)%string = Some v -> get_env environ suffix dflt = v) /\
  (forall suffix dflt environ v, environ ("DURALLM_" ++ suffix)%string = None -> environ ("LLM_BREAKER_" ++ suffix)%string = Some v ->
     get_env environ suffix dflt = v).
Proof.
  split_and!.
  - intros raw environ environ' Hp Hr. unfold load, config_file. rewrite Hp. cbn [option_bind mbind]. rewrite Hr. split; [done|]. by intros ->.
  - intros environ H. unfold load. by rewrite H.
  - vm_compute. reflexivity.
  - intros suffix dflt environ v Hv. unfold get_env. by rewrite Hv.
  - intros suffix dflt environ v Hn Hv. unfold get_env. by rewrite Hn, Hv.
Qed.

End ConfigProps.
