(* ===== verification/Registry.v ===== *)
(** * The circuit-breaker registry

    [src/durallm/breaker/registry.py].  The registry creates breakers without a
    cluster store, so the breakers it owns never consult one. *)

From stdpp Require Import base tactics list strings.
From Stdlib Require Import QArith Lqa.
From S2P Require Import Prelude Models Metrics Breaker.

Record CircuitBreakerRegistry : Type := {
  default_config : CircuitBreakerConfig;
  breakers : odict string CircuitBreaker;
}.
Definition new_breaker_registry (cfg : option CircuitBreakerConfig) : CircuitBreakerRegistry :=
  {| default_config := default default_breaker_config cfg; breakers := [] |}.

Local Abbreviation R := (M exn CircuitBreakerRegistry).

Definition put_breaker (id : string) (b : CircuitBreaker) (r : CircuitBreakerRegistry) : CircuitBreakerRegistry :=
  {| default_config := default_config r; breakers := od_set id b (breakers r) |}.

(** [get_or_create]; the breaker object itself stays in the registry. *)
Definition get_or_create (id : string) (cfg : option CircuitBreakerConfig) : R CircuitBreaker :=
  r ← get;
  match od_get id (breakers r) with
  | Some b => mret b
  | None =>
      let b := new_breaker id (default (default_config r) cfg) in
      modify (put_breaker id b) ;; mret b
  end.

(** [get] *)
Definition registry_get (id : string) : R (option CircuitBreaker) := gets (fun r => od_get id (breakers r)).

(** [all] *)
Definition registry_all : R (odict string CircuitBreaker) := gets breakers.

(** A method called on the breaker [get_or_create(id)] returns. *)
Definition on_breaker {A} (id : string) (m : M exn (CircuitBreaker * option unit) A) : R A := fun r n =>
  match get_or_create id None r n with
  | (Ok b, r', n') =>
      let '(res, w, n2) := m (b, None) n' in (res, put_breaker id (fst w) r', n2)
  | (Raise e, r', n') => (Raise e, r', n')
  end.

(** [reset_all] *)
Definition reset_all (clock : nat -> Q) : R unit :=
  r ← get;
  for_each (od_keys (breakers r)) (fun id => on_breaker id (reset clock)).

(** ** Facts *)

Lemma get_or_create_ok id cfg r n :
  exists b r', get_or_create id cfg r n = (Ok b, r', n) /\ od_get id (breakers r') = Some b /\
    (forall id', id' <> id -> od_get id' (breakers r') = od_get id' (breakers r)).
Proof.
  unfold get_or_create. mstep. destruct (od_get id (breakers r)) as [b|] eqn:E.
  - by exists b, r.
  - mstep. eexists _, _. split_and!; [done | apply od_get_set_eq|]. intros id' Hne. by apply od_get_set_ne.
Qed.

(** A call on one breaker leaves every other breaker alone. *)
Lemma on_breaker_isolated {A} id (m : M exn (CircuitBreaker * option unit) A) r n id' :
  id' <> id -> od_get id' (breakers (out_st (on_breaker id m r n))) = od_get id' (breakers r).
Proof.
  intros Hne. unfold on_breaker. destruct (get_or_create_ok id None r n) as (b & r' & Hg & _ & Hr). rewrite Hg.
  destruct (m (b, None) n) as [[res w] n2]. unfold out_st. simpl. rewrite od_get_set_ne by done. by apply Hr.
Qed.
