(* ===== verification/Profile.v ===== *)
(** * Capability profiles and the capability registry

    [src/durallm/capability/profile.py] and [src/durallm/capability/registry.py]. *)

From stdpp Require Import base tactics list strings.
From Stdlib Require Import QArith Lqa.
From S2P Require Import Prelude Models Json PyText.

Inductive CapabilityVerificationStatus : Type :=
| CapUNKNOWN | CapVERIFIED | CapUNAVAILABLE | CapDEGRADED.
#[export] Instance CapabilityVerificationStatus_eq_dec : EqDecision CapabilityVerificationStatus.
Proof. solve_decision. Defined.

Record PricingProfile : Type := {
  pp_input_price_per_1m : Q;
  pp_output_price_per_1m : Q;
  pp_cached_input_price_per_1m : Q;
  pp_reasoning_price_per_1m : Q;
  pp_is_free : bool;
  pp_currency : string;
}.

Record PrivacyProfile : Type := {
  data_retention : string;
  region : option string;
  compliance : list string;
  allows_external_traffic : bool;
}.
Definition default_privacy : PrivacyProfile :=
  {| data_retention := "zero_retention"; region := None; compliance := []; allows_external_traffic := true |}.

Record ModelProfile : Type := {
  mp_provider : string;
  mp_model : string;
  mp_protocol : string;
  context_window : Z;
  max_output_tokens : Z;
  supports_tools : option bool;
  supports_parallel_tools : option bool;
  supports_structured_output : option bool;
  supports_vision : bool;
  supports_reasoning : bool;
  supports_streaming : bool;
  supports_json_mode : bool;
  supports_system_prompt : bool;
  supports_multipart : bool;
  is_free : bool;
  input_price_per_1m : Q;
  output_price_per_1m : Q;
  pricing : PricingProfile;
  privacy : PrivacyProfile;
  verification_status : CapabilityVerificationStatus;
  last_verified_at : option Q;
  verification_method : option string;
  capability_provenance : string;
  capability_expires_at : option Q;
  tokenizer_id : string;
  tokenizer_revision : option string;
  expected_quality_score : option Q;
  quality_confidence : Q;
  quality_provenance : option string;
}.

(** [ModelProfile.__post_init__] *)
Definition post_init_pricing (pricing : option PricingProfile) (input output : Q) (free : bool) : PricingProfile :=
  match pricing with
  | None => {| pp_input_price_per_1m := input; pp_output_price_per_1m := output;
               pp_cached_input_price_per_1m := 0; pp_reasoning_price_per_1m := 0;
               pp_is_free := free; pp_currency := "USD" |}
  | Some p =>
      {| pp_input_price_per_1m := if 0 ≺ input then input else pp_input_price_per_1m p;
         pp_output_price_per_1m := pp_output_price_per_1m p;
         pp_cached_input_price_per_1m := pp_cached_input_price_per_1m p;
         pp_reasoning_price_per_1m := pp_reasoning_price_per_1m p;
         pp_is_free := if free then true else pp_is_free p; pp_currency := pp_currency p |}
  end.

(** A profile built with the keyword arguments the registry uses; every other
    field has its declared default. *)
Definition make_profile (provider model protocol : string) (window output : Z)
    (tools parallel structured : option bool) (vision reasoning free : bool) : ModelProfile :=
  {| mp_provider := provider; mp_model := model; mp_protocol := protocol; context_window := window;
     max_output_tokens := output; supports_tools := tools; supports_parallel_tools := parallel;
     supports_structured_output := structured; supports_vision := vision; supports_reasoning := reasoning;
     supports_streaming := true; supports_json_mode := true; supports_system_prompt := true;
     supports_multipart := false; is_free := free; input_price_per_1m := 0; output_price_per_1m := 0;
     pricing := post_init_pricing None 0 0 free; privacy := default_privacy;
     verification_status := CapUNKNOWN; last_verified_at := None; verification_method := None;
     capability_provenance := "declared"; capability_expires_at := None; tokenizer_id := "approx_chars_v1";
     tokenizer_revision := None; expected_quality_score := None; quality_confidence := 0;
     quality_provenance := None |}.

(** [capabilities_are_current] *)
Definition capabilities_are_current (now : Q) (p : ModelProfile) : bool :=
  bool_decide (verification_status p = CapVERIFIED) &&
  match capability_expires_at p with Some e => now ≺ e | None => false end.

Record Endpoint : Type := {
  ep_id : string;
  ep_provider : string;
  ep_model : string;
  base_url : string;
  ep_protocol : string;
  deployment : option string;
  quota_bucket_id : option string;
  env_key : option string;
  env_keys : list string;
  ep_headers : list (string * string);
  weight : Q;
  priority : Z;
  profile : option ModelProfile;
  ep_pool : string;
  is_discovered : bool;
  resource_lane : option string;
}.

(** [x or d] for an optional string. *)
Definition str_or (x : option string) (d : string) : string :=
  match x with Some s => if truthy s then s else d | None => d end.

(** [resource_key], [lane_key] *)
Definition resource_key (e : Endpoint) : string :=
  (ep_provider e ++ ":" ++ str_or (deployment e) "default" ++ ":" ++ ep_model e ++ ":" ++
   str_or (quota_bucket_id e) "default")%string.
Definition lane_key (e : Endpoint) : option string := resource_lane e.

Definition with_profile (p : option ModelProfile) (e : Endpoint) : Endpoint :=
  {| ep_id := ep_id e; ep_provider := ep_provider e; ep_model := ep_model e; base_url := base_url e;
     ep_protocol := ep_protocol e; deployment := deployment e; quota_bucket_id := quota_bucket_id e;
     env_key := env_key e; env_keys := env_keys e; ep_headers := ep_headers e; weight := weight e;
     priority := priority e; profile := p; ep_pool := ep_pool e; is_discovered := is_discovered e;
     resource_lane := resource_lane e |}.

(** ** The registry *)

Record CapabilityRegistry : Type := {
  profiles : odict string ModelProfile;
  aliases : odict string string;
  endpoints : odict string Endpoint;
}.

(** [_make_key] *)
Definition make_key (provider model : string) : string := (py_lower provider ++ ":" ++ py_lower model)%string.

Definition register_alias (provider alias canonical : string) (r : CapabilityRegistry) : CapabilityRegistry :=
  {| profiles := profiles r; aliases := od_set (make_key provider alias) (make_key provider canonical) (aliases r);
     endpoints := endpoints r |}.

Definition register_profile (p : ModelProfile) (r : CapabilityRegistry) : CapabilityRegistry :=
  {| profiles := od_set (make_key (mp_provider p) (mp_model p)) p (profiles r); aliases := aliases r;
     endpoints := endpoints r |}.

(** What [get_profile] answers for an unknown model. *)
Definition unknown_profile (provider model : string) : ModelProfile :=
  make_profile provider model "openai" 32768 4096 None None None false false false.

Definition get_profile (provider model : string) (r : CapabilityRegistry) : ModelProfile :=
  let key := make_key provider model in
  match od_get key (profiles r) with
  | Some p => p
  | None =>
      match od_get key (aliases r) with
      | Some target =>
          match od_get target (profiles r) with
          | Some p => p
          | None => unknown_profile provider model
          end
      | None => unknown_profile provider model
      end
  end.

Definition register_endpoint (e : Endpoint) (r : CapabilityRegistry) : CapabilityRegistry :=
  let e' := match profile e with
            | Some _ => e
            | None => with_profile (Some (get_profile (ep_provider e) (ep_model e) r)) e
            end in
  {| profiles := profiles r; aliases := aliases r; endpoints := od_set (ep_id e) e' (endpoints r) |}.

Definition get_endpoint (id : string) (r : CapabilityRegistry) : option Endpoint := od_get id (endpoints r).
Definition all_endpoints (r : CapabilityRegistry) : list Endpoint := od_values (endpoints r).
Definition endpoints_for_pool (pool : string) (r : CapabilityRegistry) : list Endpoint :=
  filter (fun e => ep_pool e = pool) (od_values (endpoints r)).

(** [ModelProfile(provider, model, protocol=..., supports_tools=True, ...)] *)
Definition declared (provider model protocol : string) (window output : Z) (vision reasoning free : bool) : ModelProfile :=
  make_profile provider model protocol window output (Some true) (Some true) (Some true) vision reasoning free.

(** [_seed_builtin_profiles] *)
Definition builtin_profiles : list ModelProfile :=
  [ 
    declared "cerebras" "llama3.3-70b" "openai" 65536 8192 false false true;
    declared "cerebras" "llama-3.3-70b" "openai" 65536 8192 false false true;
    declared "cerebras" "llama3.1-8b" "openai" 65536 4096 false false true;
    declared "sambanova" "Qwen2.5-Coder-32B-Instruct" "openai" 65536 4096 false false true;
    declared "sambanova" "Meta-Llama-3.3-70B-Instruct" "openai" 65536 4096 false false true;
    declared "groq" "llama-3.3-70b-versatile" "openai" 131072 8192 false false true;
    declared "groq" "qwen/qwen3.6-27b" "openai" 7000 950 false false true;
    declared "groq" "openai/gpt-oss-120b" "openai" 7500 950 false false true;
    declared "groq" "openai/gpt-oss-20b" "openai" 7500 950 false false true;
    declared "groq" "llama-3.1-8b-instant" "openai" 131072 4096 false false true;
    declared "openrouter" "google/gemma-4-31b-it:free" "openai" 262144 8192 false false true;
    declared "openrouter" "cohere/north-mini-code:free" "openai" 256000 8192 false false true;
    declared "openrouter" "nvidia/nemotron-3-super-120b-a12b:free" "openai" 262144 8192 false false true;
    declared "openrouter" "openrouter/free" "openai" 200000 8192 false false true;
    declared "openrouter" "qwen/qwen-2.5-coder-32b-instruct:free" "openai" 256000 8192 false false true;
    declared "openrouter" "mistralai/devstral-2512:free" "openai" 262144 8192 false false true;
    declared "openrouter" "meta-llama/llama-3.3-70b-instruct:free" "openai" 65536 4096 false false true;
    declared "mistral" "codestral-latest" "openai" 256000 8192 false false false;
    declared "mistral" "mistral-small-latest" "openai" 128000 4096 false false false;
    declared "nvidia" "nvidia/nemotron-3-ultra-550b-a55b" "openai" 131072 8192 false false true;
    declared "nvidia" "google/gemma-4-31b-it" "openai" 131072 8192 false false true;
    declared "nvidia" "meta/llama-3.3-70b-instruct" "openai" 131072 4096 false false true;
    declared "nvidia" "meta/llama-3.2-11b-vision-instruct" "openai" 131072 4096 true false true;
    declared "nvidia" "mistralai/codestral-22b-instruct-v0.1" "openai" 32768 4096 false false true;
    declared "gemini" "gemini-2.5-flash" "gemini" 1048576 8192 true false true;
    declared "gemini" "gemini-1.5-pro" "gemini" 2097152 8192 true false false;
    declared "anthropic" "claude-3-7-sonnet-20250219" "anthropic" 200000 8192 true true false;
    declared "anthropic" "claude-3-5-haiku-20241022" "anthropic" 200000 8192 false false false;
    declared "openai" "gpt-4o" "openai" 128000 4096 true false false;
    declared "openai" "gpt-4o-mini" "openai" 128000 4096 true false false ].

(** [_BUILTIN_ALIASES] *)
Definition builtin_aliases : list (string * string * string) :=
  [("groq", "llama-3.3-70b", "llama-3.3-70b-versatile");
   ("cerebras", "llama-3.3-70b", "llama3.3-70b");
   ("cerebras", "llama-3.1-8b", "llama3.1-8b")].

(** [CapabilityRegistry.__init__] *)
Definition new_registry : CapabilityRegistry :=
  fold_left (fun r a => register_alias a.1.1 a.1.2 a.2 r) builtin_aliases
    (fold_left (fun r p => register_profile p r) builtin_profiles
      {| profiles := []; aliases := []; endpoints := [] |}).

(** ** Facts *)

Lemma endpoints_for_pool_In pool r e : e ∈ endpoints_for_pool pool r -> ep_pool e = pool /\ e ∈ all_endpoints r.
Proof. unfold endpoints_for_pool, all_endpoints. rewrite list_elem_of_filter. done. Qed.

Lemma get_profile_registered p r :
  get_profile (mp_provider p) (mp_model p) (register_profile p r) = p.
Proof. unfold get_profile, register_profile. simpl. by rewrite od_get_set_eq. Qed.

(** Names are matched without regard to case. *)
Lemma py_lower_idem s : py_lower (py_lower s) = py_lower s.
Proof.
  induction s as [|c s IH]; [done|]. simpl. rewrite IH. f_equal. clear.
  destruct c as [[] [] [] [] [] [] [] []]; reflexivity.
Qed.

Lemma get_profile_case provider model provider' model' r :
  py_lower provider = py_lower provider' -> py_lower model = py_lower model' ->
  od_mem (make_key provider model) (profiles r) = true ->
  get_profile provider model r = get_profile provider' model' r.
Proof.
  unfold get_profile, od_mem, make_key. intros -> ->. by destruct (od_get _ (profiles r)).
Qed.
