(* ===== verification/Telemetry.v ===== *)
(** * Health telemetry

    [src/durallm/health/telemetry.py].  The store owns one mutable snapshot
    object per endpoint and hands out references to it; the model keeps the
    objects in the store's dictionary and updates them there.  The wall clock
    stamps updates, the monotonic clock the cooldowns. *)

From stdpp Require Import base tactics list strings.
From Stdlib Require Import QArith Lqa.
From S2P Require Import Prelude Models PyText.

Record EndpointHealthSnapshot : Type := {
  hs_endpoint_id : string;
  hs_provider : string;
  hs_model : string;
  hs_total_calls : nat;
  hs_successful_calls : nat;
  hs_failed_calls : nat;
  consecutive_failures : nat;
  ema_latency_ms : option Q;
  last_latency_ms : option Q;
  ema_ttft_ms : option Q;
  last_ttft_ms : option Q;
  timeout_count : nat;
  rate_limit_429_count : nat;
  server_error_5xx_count : nat;
  semantic_failure_count : nat;
  tool_calls_attempted : nat;
  tool_calls_succeeded : nat;
  tool_calls_failed : nat;
  cooldown_until_monotonic : Q;
  quota_exhausted_until : Q;
  hs_is_dead : bool;
  dead_reason : option string;
  last_error_message : option string;
  last_updated : Q;
}.

Definition new_snapshot (id provider model : string) (now : Q) : EndpointHealthSnapshot :=
  {| hs_endpoint_id := id; hs_provider := provider; hs_model := model; hs_total_calls := 0; hs_successful_calls := 0;
     hs_failed_calls := 0; consecutive_failures := 0; ema_latency_ms := None; last_latency_ms := None;
     ema_ttft_ms := None; last_ttft_ms := None; timeout_count := 0; rate_limit_429_count := 0;
     server_error_5xx_count := 0; semantic_failure_count := 0; tool_calls_attempted := 0; tool_calls_succeeded := 0;
     tool_calls_failed := 0; cooldown_until_monotonic := 0; quota_exhausted_until := 0; hs_is_dead := false;
     dead_reason := None; last_error_message := None; last_updated := now |}.

(** Properties of a snapshot at an instant of its clock. *)
Definition is_in_cooldown (mono_now : Q) (h : EndpointHealthSnapshot) : bool := mono_now ≺ cooldown_until_monotonic h.
Definition is_quota_exhausted (now : Q) (h : EndpointHealthSnapshot) : bool := now ≺ quota_exhausted_until h.
Definition is_cold_start (h : EndpointHealthSnapshot) : bool :=
  match ema_latency_ms h with None => true | Some _ => false end.

Definition ratio (a b : nat) : Q := (Qnat a / Qnat b)%Q.
Definition success_rate (h : EndpointHealthSnapshot) : Q :=
  if (hs_total_calls h =? 0)%nat then 1 else ratio (hs_successful_calls h) (hs_total_calls h).
Definition tool_success_rate (h : EndpointHealthSnapshot) : Q :=
  if (tool_calls_attempted h =? 0)%nat then 1 else ratio (tool_calls_succeeded h) (tool_calls_attempted h).
Definition semantic_success_rate (h : EndpointHealthSnapshot) : Q :=
  if (hs_successful_calls h =? 0)%nat then 1
  else py_max 0 (1 - ratio (semantic_failure_count h) (hs_successful_calls h)).
Definition timeout_rate (h : EndpointHealthSnapshot) : Q :=
  if (hs_total_calls h =? 0)%nat then 0 else ratio (timeout_count h) (hs_total_calls h).
Definition rate_limit_rate (h : EndpointHealthSnapshot) : Q :=
  if (hs_total_calls h =? 0)%nat then 0 else ratio (rate_limit_429_count h) (hs_total_calls h).

(** ** The store *)

Record HealthTelemetryStore : Type := {
  ema_alpha : Q;
  snapshots : odict string EndpointHealthSnapshot;
}.
Definition new_health_store (alpha : Q) : HealthTelemetryStore := {| ema_alpha := alpha; snapshots := [] |}.

Definition with_snapshots (d : odict string EndpointHealthSnapshot) (s : HealthTelemetryStore) : HealthTelemetryStore :=
  {| ema_alpha := ema_alpha s; snapshots := d |}.

(** [alpha * x + (1 - alpha) * old], or [x] on a cold start. *)
Definition ema_step (alpha x : Q) (old : option Q) : Q :=
  match old with None => x | Some e => (alpha * x + (1 - alpha) * e)%Q end.

(** The mutations, as functions of the object. *)
Definition success_update (alpha latency : Q) (ttft : option Q) (now : Q) (h : EndpointHealthSnapshot)
    : EndpointHealthSnapshot :=
  {| hs_endpoint_id := hs_endpoint_id h; hs_provider := hs_provider h; hs_model := hs_model h;
     hs_total_calls := S (hs_total_calls h); hs_successful_calls := S (hs_successful_calls h);
     hs_failed_calls := hs_failed_calls h; consecutive_failures := 0;
     ema_latency_ms := Some (ema_step alpha latency (ema_latency_ms h)); last_latency_ms := Some latency;
     ema_ttft_ms := match ttft with Some t => Some (ema_step alpha t (ema_ttft_ms h)) | None => ema_ttft_ms h end;
     last_ttft_ms := match ttft with Some t => Some t | None => last_ttft_ms h end;
     timeout_count := timeout_count h; rate_limit_429_count := rate_limit_429_count h;
     server_error_5xx_count := server_error_5xx_count h; semantic_failure_count := semantic_failure_count h;
     tool_calls_attempted := tool_calls_attempted h; tool_calls_succeeded := tool_calls_succeeded h;
     tool_calls_failed := tool_calls_failed h; cooldown_until_monotonic := cooldown_until_monotonic h;
     quota_exhausted_until := quota_exhausted_until h; hs_is_dead := hs_is_dead h; dead_reason := dead_reason h;
     last_error_message := last_error_message h; last_updated := now |}.

(** Which error counter a failure increments: the tests are tried in order. *)
Inductive error_kind : Type := ETimeout | ERateLimit | EServer | EOther.
Definition error_kind_of (status : option Z) (message : string) : error_kind :=
  if (match status with Some s => (s =? 408)%Z || (s =? 504)%Z | None => false end) || contains "timeout" (py_lower message)
  then ETimeout
  else match status with
       | Some s => if (s =? 429)%Z then ERateLimit
                   else if ((500 <=? s) && (s <=? 599))%Z then EServer else EOther
       | None => EOther
       end.

(** [if seconds and seconds > 0: field = now + seconds] *)
Definition extend (seconds : option Q) (now old : Q) : Q :=
  match seconds with Some s => if 0 ≺ s then (now + s)%Q else old | None => old end.

Definition failure_update (latency : Q) (status : option Z) (message : string) (cooldown quota : option Q)
    (is_permanent : bool) (now mono_now quota_now : Q) (h : EndpointHealthSnapshot) : EndpointHealthSnapshot :=
  let k := error_kind_of status message in
  {| hs_endpoint_id := hs_endpoint_id h; hs_provider := hs_provider h; hs_model := hs_model h;
     hs_total_calls := S (hs_total_calls h); hs_successful_calls := hs_successful_calls h;
     hs_failed_calls := S (hs_failed_calls h); consecutive_failures := S (consecutive_failures h);
     ema_latency_ms := ema_latency_ms h; last_latency_ms := Some latency;
     ema_ttft_ms := ema_ttft_ms h; last_ttft_ms := last_ttft_ms h;
     timeout_count := match k with ETimeout => S (timeout_count h) | _ => timeout_count h end;
     rate_limit_429_count := match k with ERateLimit => S (rate_limit_429_count h) | _ => rate_limit_429_count h end;
     server_error_5xx_count := match k with EServer => S (server_error_5xx_count h) | _ => server_error_5xx_count h end;
     semantic_failure_count := semantic_failure_count h;
     tool_calls_attempted := tool_calls_attempted h; tool_calls_succeeded := tool_calls_succeeded h;
     tool_calls_failed := tool_calls_failed h;
     cooldown_until_monotonic := extend cooldown mono_now (cooldown_until_monotonic h);
     quota_exhausted_until := extend quota quota_now (quota_exhausted_until h);
     hs_is_dead := if is_permanent then true else hs_is_dead h;
     dead_reason := if is_permanent then Some message else dead_reason h;
     last_error_message := Some message; last_updated := now |}.

Definition tool_update (success : bool) (now : Q) (h : EndpointHealthSnapshot) : EndpointHealthSnapshot :=
  {| hs_endpoint_id := hs_endpoint_id h; hs_provider := hs_provider h; hs_model := hs_model h;
     hs_total_calls := hs_total_calls h; hs_successful_calls := hs_successful_calls h;
     hs_failed_calls := hs_failed_calls h; consecutive_failures := consecutive_failures h;
     ema_latency_ms := ema_latency_ms h; last_latency_ms := last_latency_ms h;
     ema_ttft_ms := ema_ttft_ms h; last_ttft_ms := last_ttft_ms h;
     timeout_count := timeout_count h; rate_limit_429_count := rate_limit_429_count h;
     server_error_5xx_count := server_error_5xx_count h; semantic_failure_count := semantic_failure_count h;
     tool_calls_attempted := S (tool_calls_attempted h);
     tool_calls_succeeded := if success then S (tool_calls_succeeded h) else tool_calls_succeeded h;
     tool_calls_failed := if success then tool_calls_failed h else S (tool_calls_failed h);
     cooldown_until_monotonic := cooldown_until_monotonic h; quota_exhausted_until := quota_exhausted_until h;
     hs_is_dead := hs_is_dead h; dead_reason := dead_reason h; last_error_message := last_error_message h;
     last_updated := now |}.

Definition semantic_update (now : Q) (h : EndpointHealthSnapshot) : EndpointHealthSnapshot :=
  {| hs_endpoint_id := hs_endpoint_id h; hs_provider := hs_provider h; hs_model := hs_model h;
     hs_total_calls := hs_total_calls h; hs_successful_calls := hs_successful_calls h;
     hs_failed_calls := hs_failed_calls h; consecutive_failures := consecutive_failures h;
     ema_latency_ms := ema_latency_ms h; last_latency_ms := last_latency_ms h;
     ema_ttft_ms := ema_ttft_ms h; last_ttft_ms := last_ttft_ms h;
     timeout_count := timeout_count h; rate_limit_429_count := rate_limit_429_count h;
     server_error_5xx_count := server_error_5xx_count h; semantic_failure_count := S (semantic_failure_count h);
     tool_calls_attempted := tool_calls_attempted h; tool_calls_succeeded := tool_calls_succeeded h;
     tool_calls_failed := tool_calls_failed h; cooldown_until_monotonic := cooldown_until_monotonic h;
     quota_exhausted_until := quota_exhausted_until h; hs_is_dead := hs_is_dead h; dead_reason := dead_reason h;
     last_error_message := last_error_message h; last_updated := now |}.

(** Sets or clears the dead mark. *)
Definition dead_update (dead : bool) (reason : option string) (err : option string) (now : Q)
    (h : EndpointHealthSnapshot) : EndpointHealthSnapshot :=
  {| hs_endpoint_id := hs_endpoint_id h; hs_provider := hs_provider h; hs_model := hs_model h;
     hs_total_calls := hs_total_calls h; hs_successful_calls := hs_successful_calls h;
     hs_failed_calls := hs_failed_calls h; consecutive_failures := consecutive_failures h;
     ema_latency_ms := ema_latency_ms h; last_latency_ms := last_latency_ms h;
     ema_ttft_ms := ema_ttft_ms h; last_ttft_ms := last_ttft_ms h;
     timeout_count := timeout_count h; rate_limit_429_count := rate_limit_429_count h;
     server_error_5xx_count := server_error_5xx_count h; semantic_failure_count := semantic_failure_count h;
     tool_calls_attempted := tool_calls_attempted h; tool_calls_succeeded := tool_calls_succeeded h;
     tool_calls_failed := tool_calls_failed h; cooldown_until_monotonic := cooldown_until_monotonic h;
     quota_exhausted_until := quota_exhausted_until h; hs_is_dead := dead; dead_reason := reason;
     last_error_message := err; last_updated := now |}.

Section telemetry.
Context (wall mono : nat -> Q).
Local Abbreviation H := (M exn HealthTelemetryStore).

(** [get_or_create] *)
Definition health_get_or_create (id provider model : string) : H EndpointHealthSnapshot :=
  s ← get;
  match od_get id (snapshots s) with
  | Some h => mret h
  | None =>
      now ← read_clock wall;
      let h := new_snapshot id provider model now in
      modify (fun s => with_snapshots (od_set id h (snapshots s)) s) ;; mret h
  end.

(** [snap = self.get_or_create(id); ...; snap.last_updated = time.time()] *)
Definition mutate (id : string) (h : EndpointHealthSnapshot) : H unit :=
  modify (fun s => with_snapshots (od_set id h (snapshots s)) s).

(** [record_success] *)
Definition health_record_success (id : string) (latency : Q) (ttft : option Q) : H unit :=
  h ← health_get_or_create id "" "";
  s ← get;
  now ← read_clock wall;
  mutate id (success_update (ema_alpha s) latency ttft now h).

(** [record_failure] *)
Definition health_record_failure (id : string) (latency : Q) (status : option Z) (message : string)
    (cooldown quota : option Q) (is_permanent : bool) : H unit :=
  h ← health_get_or_create id "" "";
  now ← read_clock wall;
  mono_now ← (if match cooldown with Some c => 0 ≺ c | None => false end then read_clock mono else mret 0%Q);
  quota_now ← (if match quota with Some c => 0 ≺ c | None => false end then read_clock wall else mret 0%Q);
  mutate id (failure_update latency status message cooldown quota is_permanent now mono_now quota_now h).

(** [record_tool_outcome] *)
Definition health_record_tool_outcome (id : string) (success : bool) : H unit :=
  h ← health_get_or_create id "" "";
  now ← read_clock wall;
  mutate id (tool_update success now h).

(** [record_semantic_failure] *)
Definition health_record_semantic_failure (id : string) : H unit :=
  h ← health_get_or_create id "" "";
  now ← read_clock wall;
  mutate id (semantic_update now h).

(** [mark_dead] *)
Definition health_mark_dead (id provider model reason : string) : H unit :=
  h ← health_get_or_create id provider model;
  now ← read_clock wall;
  mutate id (dead_update true (Some reason) (Some reason) now h).

(** [clear_dead_list] *)
Definition health_clear_dead_list : H unit :=
  modify (fun s => with_snapshots
    (map (fun kv => (fst kv, dead_update false None (last_error_message (snd kv)) (last_updated (snd kv)) (snd kv)))
      (snapshots s)) s).

(** [all_snapshots] *)
Definition all_snapshots : H (odict string EndpointHealthSnapshot) := gets snapshots.
End telemetry.

(** ** Counters and averages *)

(** The counters of an endpoint are consistent, and its latency average lies
    between the bounds of the latencies recorded so far. *)
Definition counters_ok (h : EndpointHealthSnapshot) : Prop :=
  hs_total_calls h = (hs_successful_calls h + hs_failed_calls h)%nat /\
  tool_calls_attempted h = (tool_calls_succeeded h + tool_calls_failed h)%nat /\
  (consecutive_failures h <= hs_failed_calls h)%nat /\
  (timeout_count h + rate_limit_429_count h + server_error_5xx_count h <= hs_failed_calls h)%nat /\
  (is_cold_start h = true <-> hs_successful_calls h = 0%nat).

Definition ema_within (lo hi : Q) (h : EndpointHealthSnapshot) : Prop :=
  match ema_latency_ms h with None => True | Some e => (lo <= e <= hi)%Q end.

Lemma ratio_bounds a b : (a <= b)%nat -> (b <> 0)%nat -> (0 <= ratio a b <= 1)%Q.
Proof.
  intros Hab Hb. unfold ratio. pose proof (Qnat_pos b Hb). pose proof (Qnat_nonneg a).
  apply Qnat_le in Hab. split; [apply Qle_shift_div_l | apply Qle_shift_div_r]; lra.
Qed.

Lemma ratio_nonneg a b : (b <> 0)%nat -> (0 <= ratio a b)%Q.
Proof.
  intros Hb. unfold ratio. pose proof (Qnat_pos b Hb). pose proof (Qnat_nonneg a). apply Qle_shift_div_l; lra.
Qed.

(** The three rates of a consistent snapshot are probabilities. *)
Lemma rates_bounded h : counters_ok h ->
  (0 <= success_rate h <= 1)%Q /\ (0 <= tool_success_rate h <= 1)%Q /\ (0 <= semantic_success_rate h <= 1)%Q.
Proof.
  intros (H1 & H2 & _). unfold success_rate, tool_success_rate, semantic_success_rate. split; [|split].
  - destruct (Nat.eqb_spec (hs_total_calls h) 0); [by split; lra|]. apply ratio_bounds; lia.
  - destruct (Nat.eqb_spec (tool_calls_attempted h) 0); [by split; lra|]. apply ratio_bounds; lia.
  - destruct (Nat.eqb_spec (hs_successful_calls h) 0); [by split; lra|].
    pose proof (ratio_nonneg (semantic_failure_count h) _ n).
    split; [apply py_max_ge_l | apply py_max_lub; lra].
Qed.

(** The recording operations of a run. *)
Inductive health_op : Type :=
| HSuccess (id : string) (latency : Q) (ttft : option Q)
| HFailure (id : string) (latency : Q) (status : option Z) (message : string) (cooldown quota : option Q) (perm : bool)
| HTool (id : string) (success : bool)
| HSemantic (id : string)
| HMarkDead (id provider model reason : string)
| HClearDead
| HLookup (id provider model : string).

Section telemetry_props.
Context (wall mono : nat -> Q).

Definition run_health (o : health_op) : M exn HealthTelemetryStore unit :=
  match o with
  | HSuccess id l t => health_record_success wall id l t
  | HFailure id l st m c q p => health_record_failure wall mono id l st m c q p
  | HTool id b => health_record_tool_outcome wall id b
  | HSemantic id => health_record_semantic_failure wall id
  | HMarkDead id p m r => health_mark_dead wall id p m r
  | HClearDead => health_clear_dead_list
  | HLookup id p m => health_get_or_create wall id p m ;; mret tt
  end.

Definition latency_within (lo hi : Q) (o : health_op) : Prop :=
  match o with HSuccess _ l _ => (lo <= l <= hi)%Q | _ => True end.

(** Every snapshot of the store satisfies [P]. *)
Definition all_snaps (P : EndpointHealthSnapshot -> Prop) (alpha : Q) (s : HealthTelemetryStore) : Prop :=
  ema_alpha s = alpha /\ Forall (fun kv => P (snd kv)) (snapshots s).

Definition snap_ok (lo hi : Q) (h : EndpointHealthSnapshot) : Prop := counters_ok h /\ ema_within lo hi h.

Lemma snap_ok_new lo hi id p m now : snap_ok lo hi (new_snapshot id p m now).
Proof. by repeat split. Qed.

Lemma ema_step_within lo hi alpha x old :
  (0 <= alpha <= 1)%Q -> (lo <= x <= hi)%Q -> match old with Some e => (lo <= e <= hi)%Q | None => True end ->
  (lo <= ema_step alpha x old <= hi)%Q.
Proof. intros Ha Hx Ho. destruct old as [e|]; simpl; [|done]. split; nra. Qed.

Lemma snap_ok_success lo hi alpha l t now h :
  (0 <= alpha <= 1)%Q -> (lo <= l <= hi)%Q -> snap_ok lo hi h -> snap_ok lo hi (success_update alpha l t now h).
Proof.
  intros Ha Hl [(H1 & H2 & H3 & H4 & H5) He]. split; [|by apply ema_step_within].
  unfold counters_ok, is_cold_start; simpl. split_and!; try lia.
Qed.

Lemma snap_ok_failure lo hi l st m c q p t1 t2 t3 h :
  snap_ok lo hi h -> snap_ok lo hi (failure_update l st m c q p t1 t2 t3 h).
Proof.
  intros [(H1 & H2 & H3 & H4 & H5) He]. split; [|exact He].
  unfold counters_ok; simpl. split_and!; try lia; [|exact H5]. destruct (error_kind_of st m); lia.
Qed.

Lemma get_or_create_spec P alpha id p m :
  (forall now, P (new_snapshot id p m now)) ->
  triple (all_snaps P alpha) (health_get_or_create wall id p m)
    (fun r s => all_snaps P alpha s /\ match r with Ok h => P h | Raise _ => False end).
Proof.
  intros Hnew s n [Ha Hs]. unfold health_get_or_create. mstep.
  destruct (od_get id (snapshots s)) as [h|] eqn:E.
  - split; [done|]. apply od_get_In in E. rewrite Forall_forall in Hs. exact (Hs _ E).
  - do 2 mstep. split; [|apply Hnew]. split; [done|]. apply od_Forall_set; [apply Hnew | done].
Qed.

Lemma mutate_spec P alpha id h : P h -> preserves (all_snaps P alpha) (mutate id h).
Proof. intros Hh s n [Ha Hs]. split; [done|]. by apply od_Forall_set. Qed.

(** Looks a snapshot up, reads clocks, and stores an updated object. *)
Ltac health_method :=
  eapply triple_bind; [apply get_or_create_spec; intros; apply snap_ok_new | intros h | by intros ? ? [_ []]];
  intros s n [Hs Hh]; revert s n Hs;
  match goal with |- forall s n, all_snaps ?P ?a s -> all_snaps _ _ (out_st (?m s n)) =>
    change (preserves (all_snaps P a) m) end.

Lemma run_health_ok lo hi alpha o : (0 <= alpha <= 1)%Q -> latency_within lo hi o ->
  preserves (all_snaps (snap_ok lo hi) alpha) (run_health o).
Proof.
  intros Ha Hl. destruct o; simpl run_health.
  - health_method. intros s n Hs. do 2 mstep. rewrite (proj1 Hs).
    apply mutate_spec; [by apply snap_ok_success | done].
  - health_method. preserve. all: try (by apply mutate_spec, snap_ok_failure).
  - health_method. preserve. apply mutate_spec. destruct Hh as [(H1 & H2 & H3 & H4 & H5) He]. split; [|exact He].
    unfold counters_ok; simpl. split_and!; try done; destruct success; lia.
  - health_method. preserve. by apply mutate_spec.
  - health_method. preserve. by apply mutate_spec.
  - intros s n [Hal Hs]. split; [done|]. simpl. apply Forall_map. eapply Forall_impl; [exact Hs|]. done.
  - health_method. preserve.
Qed.

Lemma run_healths_ok lo hi alpha os s n : (0 <= alpha <= 1)%Q -> Forall (latency_within lo hi) os ->
  all_snaps (snap_ok lo hi) alpha s -> all_snaps (snap_ok lo hi) alpha (out_st (for_each os run_health s n)).
Proof.
  intros Ha Hos. revert s n. induction Hos as [|o os Ho Hos IH]; intros s n Hs; [done|].
  simpl. pose proof (run_health_ok lo hi alpha o Ha Ho s n Hs) as Hs'.
  unfold mbind, M_bind. destruct (run_health o s n) as [[[[]|e] s'] n']; [by apply IH | exact Hs'].
Qed.
End telemetry_props.

(** telemetry is consistent.  After any sequence of recordings on a fresh
    store (smoothing factor in [0, 1]), every endpoint's counters add up (calls,
    tool calls, error breakdown), its rates lie in [0, 1], it is cold exactly
    when no success was recorded, and its latency average lies between the
    smallest and largest latency recorded. *)
Theorem telemetry_consistent wall mono alpha lo hi os n id h :
  (0 <= alpha <= 1)%Q -> Forall (latency_within lo hi) os ->
  od_get id (snapshots (out_st (for_each os (run_health wall mono) (new_health_store alpha) n))) = Some h ->
  counters_ok h /\ ema_within lo hi h /\
  (0 <= success_rate h <= 1)%Q /\ (0 <= tool_success_rate h <= 1)%Q /\ (0 <= semantic_success_rate h <= 1)%Q.
Proof.
  intros Ha Hos Hid. destruct (run_healths_ok wall mono lo hi alpha os (new_health_store alpha) n Ha Hos) as [_ Hall].
  { by split. }
  apply od_get_In in Hid. rewrite Forall_forall in Hall. destruct (Hall _ Hid) as [Hc He].
  split; [done|]. split; [done|]. by apply rates_bounded.
Qed.

Lemma telemetry_consistent_witness :
  exists h, od_get "e" (snapshots (out_st (for_each
    [HSuccess "e" 100 None; HFailure "e" 5 (Some 504%Z) "" (Some 30) None false; HSuccess "e" 300 (Some 20); HTool "e" true]
    (run_health Qnat Qnat) (new_health_store (1 # 5)) 0%nat))) = Some h /\ ema_within 100 300 h.
Proof.
  eexists. split; [vm_compute; reflexivity|].
  eapply (telemetry_consistent Qnat Qnat (1 # 5) 100 300
    [HSuccess "e" 100 None; HFailure "e" 5 (Some 504%Z) "" (Some 30) None false; HSuccess "e" 300 (Some 20); HTool "e" true] 0%nat "e").
  - split; lra.
  - repeat constructor; simpl; lra.
  - vm_compute. reflexivity.
Defined.
