(* ===== verification/Requirements.v ===== *)
(** * Requirements, context preflight and scoring

    [src/durallm/routing/requirements.py], [src/durallm/routing/tokenizer.py],
    [src/durallm/routing/scorer.py] and [src/durallm/routing/decision.py]. *)

From stdpp Require Import base tactics list strings.
From Stdlib Require Import QArith Lqa.
From S2P Require Import Prelude Models PyText Metrics Breaker Profile Telemetry.

Record RequirementVector : Type := {
  require_tools : bool;
  require_parallel_tools : bool;
  require_structured_output : bool;
  require_vision : bool;
  require_reasoning : bool;
  minimum_context_tokens : Z;
  maximum_cost_usd : option Q;
  latency_budget_ms : option Q;
  task_class : string;
  allowed_providers : option (list string);
  forbidden_providers : option (list string);
  estimated_input_tokens : Z;
  expected_output_tokens : Z;
  safety_margin_tokens : Z;
  allow_context_compaction : bool;
  required_region : option string;
  required_compliance : option (list string);
  allow_external_traffic : option bool;
  require_verified_capabilities : bool;
  minimum_quality_score : option Q;
  allow_quality_degradation : bool;
  budget_scope : option string;
  budget_limit_usd : option Q;
  prefix_hash : option string;
}.

Definition default_requirements : RequirementVector :=
  {| require_tools := false; require_parallel_tools := false; require_structured_output := false;
     require_vision := false; require_reasoning := false; minimum_context_tokens := 0; maximum_cost_usd := None;
     latency_budget_ms := None; task_class := "general"; allowed_providers := None; forbidden_providers := None;
     estimated_input_tokens := 0; expected_output_tokens := 0; safety_margin_tokens := 0;
     allow_context_compaction := true; required_region := None; required_compliance := None;
     allow_external_traffic := None; require_verified_capabilities := false; minimum_quality_score := None;
     allow_quality_degradation := false; budget_scope := None; budget_limit_usd := None; prefix_hash := None |}.

(** Why a candidate was excluded (the text of the message is not modelled). *)
Inductive Exclusion : Type :=
| ExLedger | ExDead (reason : option string) | ExQuota
| ExSafetyMargin | ExQualityRange | ExBudgetNegative
| ExProviderNotAllowed | ExProviderForbidden
| ExToolsUnknown | ExTools | ExParallelTools | ExStructured | ExVision | ExReasoning
| ExUnverified | ExRegion | ExCompliance (missing : list string) | ExExternal
| ExQualityUnknown | ExQualityLow | ExContextSmall | ExCost | ExLatency
| ExOutputTooLarge | ExNeedsCompaction
| ExLane (lane : string) (reason : option string)
| ExBreaker (state : string).

(** Truthiness of an optional flag. *)
Definition flag (b : option bool) : bool := match b with Some true => true | _ => false end.

(** [estimated_cost_usd] *)
Definition estimated_cost_usd (r : RequirementVector) (p : ModelProfile) : Q :=
  let out_tokens := if (expected_output_tokens r =? 0)%Z then Z.min 4096 (context_window p)
                    else expected_output_tokens r in
  ((inject_Z (estimated_input_tokens r) * input_price_per_1m p + inject_Z out_tokens * output_price_per_1m p)
    / 1000000)%Q.

Definition lower_in (x : string) (l : list string) : bool := existsb (String.eqb (py_lower x)) (map py_lower l).

Definition missing_compliance (required declared : list string) : list string :=
  filter (fun i => lower_in i declared = false) required.

(** The tests of [matches_hard_constraints] in their order, each with the
    exclusion it reports: first those before the wall clock is consulted, then
    the expiry test at the instant [now] and those after it. *)
Definition static_checks (r : RequirementVector) (p : ModelProfile) : list (bool * Exclusion) :=
  [ ((safety_margin_tokens r <? 0)%Z, ExSafetyMargin);
    (match minimum_quality_score r with Some q => negb ((0 ⪯ q) && (q ⪯ 1)) | None => false end, ExQualityRange);
    (match budget_limit_usd r with Some b => b ≺ 0 | None => false end, ExBudgetNegative);
    (match allowed_providers r with Some l => negb (lower_in (mp_provider p) l) | None => false end, ExProviderNotAllowed);
    (match forbidden_providers r with Some l => lower_in (mp_provider p) l | None => false end, ExProviderForbidden);
    (require_tools r && negb (flag (supports_tools p)),
      match supports_tools p with None => ExToolsUnknown | Some _ => ExTools end);
    (require_parallel_tools r && negb (flag (supports_parallel_tools p)), ExParallelTools);
    (require_structured_output r && negb (flag (supports_structured_output p)), ExStructured);
    (require_vision r && negb (supports_vision p), ExVision);
    (require_reasoning r && negb (supports_reasoning p), ExReasoning) ].

Definition timed_checks (now : Q) (r : RequirementVector) (p : ModelProfile) (h : EndpointHealthSnapshot)
    : list (bool * Exclusion) :=
  [ (require_verified_capabilities r && negb (capabilities_are_current now p), ExUnverified);
    (match required_region r with
     | Some reg => negb (bool_decide (region (privacy p) = Some reg)) | None => false end, ExRegion);
    (match required_compliance r with
     | Some req => match missing_compliance req (compliance (privacy p)) with [] => false | _ => true end
     | None => false end,
      ExCompliance (missing_compliance (default [] (required_compliance r)) (compliance (privacy p))));
    (match allow_external_traffic r with Some false => allows_external_traffic (privacy p) | _ => false end, ExExternal);
    (match minimum_quality_score r, expected_quality_score p with
     | Some _, None => negb (allow_quality_degradation r) | _, _ => false end, ExQualityUnknown);
    (match minimum_quality_score r, expected_quality_score p with
     | Some q, Some s => (s ≺ q) && negb (allow_quality_degradation r) | _, _ => false end, ExQualityLow);
    ((0 <? minimum_context_tokens r)%Z && (context_window p <? minimum_context_tokens r)%Z, ExContextSmall);
    (match maximum_cost_usd r with Some c => c ≺ estimated_cost_usd r p | None => false end, ExCost);
    (match latency_budget_ms r, ema_latency_ms h with Some b, Some e => b ≺ e | _, _ => false end, ExLatency) ].

Fixpoint first_hit (l : list (bool * Exclusion)) : option Exclusion :=
  match l with
  | [] => None
  | (b, x) :: l' => if b then Some x else first_hit l'
  end.

(** [matches_hard_constraints]: [None] when the candidate passes. *)
Definition matches_hard_constraints {S} (wall : nat -> Q) (r : RequirementVector) (p : ModelProfile)
    (h : EndpointHealthSnapshot) : M exn S (option Exclusion) :=
  match first_hit (static_checks r p) with
  | Some x => mret (Some x)
  | None =>
      now ← (if require_verified_capabilities r then read_clock wall else mret 0%Q);
      mret (first_hit (timed_checks now r p h))
  end.

(** ** Context preflight *)

Record TokenizerPreflight : Type := {
  pf_tokenizer_id : string;
  pf_tokenizer_revision : option string;
  pf_input_tokens : Z;
  pf_expected_output_tokens : Z;
  pf_safety_margin_tokens : Z;
  pf_context_window : Z;
  fits_without_compaction : bool;
  requires_compaction : bool;
  compatible : bool;
  pf_reason : option Exclusion;
}.

(** [n or d] *)
Definition z_or (n d : Z) : Z := if (n =? 0)%Z then d else n.

Definition effective_output (p : ModelProfile) (expected : Z) : Z :=
  let cap := z_or (max_output_tokens p) 4096 in
  Z.min (if (0 <? expected)%Z then expected else cap) cap.

(** [preflight_context] *)
Definition preflight_context (p : ModelProfile) (input expected margin : Z) (allow_compaction : bool) : TokenizerPreflight :=
  let eff := effective_output p expected in
  let required := (Z.max 0 input + Z.max 0 eff + Z.max 0 margin)%Z in
  let minimum_required := (Z.max 0 eff + Z.max 0 margin)%Z in
  if (required <=? context_window p)%Z then
    {| pf_tokenizer_id := tokenizer_id p; pf_tokenizer_revision := tokenizer_revision p;
       pf_input_tokens := Z.max 0 input; pf_expected_output_tokens := Z.max 0 eff;
       pf_safety_margin_tokens := Z.max 0 margin; pf_context_window := context_window p;
       fits_without_compaction := true; requires_compaction := false; compatible := true; pf_reason := None |}
  else
    let '(reason, ok) :=
      if (context_window p <? minimum_required)%Z then (ExOutputTooLarge, false)
      else (ExNeedsCompaction, allow_compaction) in
    {| pf_tokenizer_id := tokenizer_id p; pf_tokenizer_revision := tokenizer_revision p;
       pf_input_tokens := Z.max 0 input; pf_expected_output_tokens := Z.max 0 expected;
       pf_safety_margin_tokens := Z.max 0 margin; pf_context_window := context_window p;
       fits_without_compaction := false; requires_compaction := true; compatible := ok; pf_reason := Some reason |}.

(** ** Decision records and scores *)

Record CandidateEvaluation : Type := {
  ce_endpoint_id : string;
  ce_provider : string;
  ce_model : string;
  eligible : bool;
  exclusion_reason : option Exclusion;
  ce_breaker_state : string;
  hard_constraints_passed : bool;
  health_score : Q;
  latency_score : Q;
  cost_score : Q;
  final_score : Q;
  rank : nat;
  ce_is_cold_start : bool;
  observed_latency_ms : option Q;
  ce_resource_lane : option string;
  resource_lane_available : bool;
  ce_tokenizer_id : option string;
  ce_tokenizer_revision : option string;
  preflight_requires_compaction : bool;
  ce_expected_quality_score : option Q;
  ce_quality_confidence : Q;
  ce_quality_provenance : option string;
  degradation_required : bool;
  warm_cache : bool;
}.

Record RoutingDecision : Type := {
  dec_request_id : string;
  strategy : string;
  selected_endpoint : option Endpoint;
  evaluated_candidates : list CandidateEvaluation;
  total_considered : nat;
  total_eligible : nat;
  fallback_reason : option string;
  shadow_recommended_endpoint : option string;
  shadow_recommended_score : option Q;
  shadow_abstained : bool;
}.

Record RoutingScorer : Type := {
  w_quality : Q;
  w_reliability : Q;
  w_latency : Q;
  w_cost : Q;
  cold_start_latency_score : Q;
}.
Definition default_scorer : RoutingScorer :=
  {| w_quality := 3 # 10; w_reliability := 3 # 10; w_latency := 2 # 10; w_cost := 2 # 10;
     cold_start_latency_score := 8 # 10 |}.

Definition reliability_score (st : CircuitBreakerState) (h : EndpointHealthSnapshot) : Q :=
  match st with
  | OPEN | FORCED_OPEN => 0
  | HALF_OPEN => 1 # 2
  | _ => if (0 <? hs_total_calls h)%nat
         then ((1 # 2) * success_rate h + (3 # 10) * tool_success_rate h + (2 # 10) * semantic_success_rate h)%Q
         else 1
  end.

Definition latency_score_of (s : RoutingScorer) (h : EndpointHealthSnapshot) : Q :=
  match ema_latency_ms h with
  | Some l => py_max 0 (py_min 1 (1 - l / 5000))
  | None => cold_start_latency_score s
  end.

Definition cost_score_of (p : option ModelProfile) : Q :=
  match p with
  | Some p =>
      if is_free p then 1
      else if 0 ≺ input_price_per_1m p then py_max (1 # 10) (py_min 1 (1 / (1 + input_price_per_1m p)))
      else 8 # 10
  | None => 8 # 10
  end.

Definition quality_score_of (p : option ModelProfile) : Q :=
  match p with
  | Some p =>
      ((2 # 10) + (if flag (supports_tools p) then 3 # 10 else 0) + (if supports_reasoning p then 2 # 10 else 0) +
       py_min (3 # 10) (inject_Z (context_window p) / 1000000))%Q
  | None => 1 # 2
  end.

(** [score_candidate] *)
Definition score_candidate (s : RoutingScorer) (e : Endpoint) (st : CircuitBreakerState)
    (h : EndpointHealthSnapshot) (warm : bool) : CandidateEvaluation :=
  let rel := reliability_score st h in
  let lat := latency_score_of s h in
  let cost := cost_score_of (profile e) in
  let qual := quality_score_of (profile e) in
  let base := (w_quality s * qual + w_reliability s * rel + w_latency s * lat + w_cost s * cost)%Q in
  {| ce_endpoint_id := ep_id e; ce_provider := ep_provider e; ce_model := ep_model e; eligible := true;
     exclusion_reason := None; ce_breaker_state := state_value st; hard_constraints_passed := true;
     health_score := rel; latency_score := lat; cost_score := cost;
     final_score := if warm then (base + (1 # 4))%Q else base; rank := 0;
     ce_is_cold_start := match ema_latency_ms h with Some _ => false | None => true end;
     observed_latency_ms := ema_latency_ms h; ce_resource_lane := None; resource_lane_available := true;
     ce_tokenizer_id := None; ce_tokenizer_revision := None; preflight_requires_compaction := false;
     ce_expected_quality_score := None; ce_quality_confidence := 0; ce_quality_provenance := None;
     degradation_required := false; warm_cache := warm |}.

(** ** Facts *)

Lemma first_hit_None l : first_hit l = None <-> Forall (fun bx => fst bx = false) l.
Proof.
  induction l as [|[[] x] l IH]; simpl; [done| |].
  - split; [done|]. intros H. by inversion H.
  - rewrite IH. split; [by constructor | by inversion 1].
Qed.

(** What a caller asked for, as a proposition. *)
Record satisfies (now : Q) (r : RequirementVector) (p : ModelProfile) (h : EndpointHealthSnapshot) : Prop := {
  sat_providers : (forall l, allowed_providers r = Some l -> lower_in (mp_provider p) l = true) /\
                  (forall l, forbidden_providers r = Some l -> lower_in (mp_provider p) l = false);
  sat_tools : require_tools r = true -> supports_tools p = Some true;
  sat_parallel : require_parallel_tools r = true -> supports_parallel_tools p = Some true;
  sat_structured : require_structured_output r = true -> supports_structured_output p = Some true;
  sat_vision : require_vision r = true -> supports_vision p = true;
  sat_reasoning : require_reasoning r = true -> supports_reasoning p = true;
  sat_verified : require_verified_capabilities r = true ->
    verification_status p = CapVERIFIED /\ exists e, capability_expires_at p = Some e /\ (now < e)%Q;
  sat_region : forall reg, required_region r = Some reg -> region (privacy p) = Some reg;
  sat_compliance : forall req i, required_compliance r = Some req -> i ∈ req -> lower_in i (compliance (privacy p)) = true;
  sat_external : allow_external_traffic r = Some false -> allows_external_traffic (privacy p) = false;
  sat_quality : forall q, minimum_quality_score r = Some q -> allow_quality_degradation r = false ->
    exists s, expected_quality_score p = Some s /\ (q <= s)%Q;
  sat_context : (minimum_context_tokens r <= 0)%Z \/ (minimum_context_tokens r <= context_window p)%Z;
  sat_cost : forall c, maximum_cost_usd r = Some c -> (estimated_cost_usd r p <= c)%Q;
  sat_latency : forall b e, latency_budget_ms r = Some b -> ema_latency_ms h = Some e -> (e <= b)%Q;
}.

(** The vector itself is well formed. *)
Definition vector_wf (r : RequirementVector) : Prop :=
  (0 <= safety_margin_tokens r)%Z /\
  (forall q, minimum_quality_score r = Some q -> (0 <= q <= 1)%Q) /\
  (forall b, budget_limit_usd r = Some b -> (0 <= b)%Q).

Lemma flag_true b : flag b = true <-> b = Some true.
Proof. destruct b as [[]|]; simpl; split; congruence. Qed.

Lemma missing_compliance_nil req decl :
  missing_compliance req decl = [] <-> forall i, i ∈ req -> lower_in i decl = true.
Proof.
  unfold missing_compliance. split.
  - intros Hn i Hi. destruct (lower_in i decl) eqn:E; [done|]. exfalso.
    apply (filter_nil_not_elem_of _ _ i Hn); done.
  - intros Hall. induction req as [|i req IH]; [done|]. rewrite filter_cons, decide_False.
    + apply IH. intros j Hj. apply Hall. by right.
    + rewrite Hall; [done | by left].
Qed.

Lemma static_pass r p : first_hit (static_checks r p) = None <->
  vector_wf r /\
  ((forall l, allowed_providers r = Some l -> lower_in (mp_provider p) l = true) /\
   (forall l, forbidden_providers r = Some l -> lower_in (mp_provider p) l = false)) /\
  (require_tools r = true -> supports_tools p = Some true) /\
  (require_parallel_tools r = true -> supports_parallel_tools p = Some true) /\
  (require_structured_output r = true -> supports_structured_output p = Some true) /\
  (require_vision r = true -> supports_vision p = true) /\
  (require_reasoning r = true -> supports_reasoning p = true).
Proof.
  rewrite first_hit_None. unfold static_checks. rewrite !Forall_cons, Forall_nil. cbn [fst].
  rewrite !andb_false_iff, !negb_false_iff, !flag_true. unfold vector_wf.
  assert (forall b c, (b = false \/ c) <-> (b = true -> c)) as Himp
    by (intros [] c; split; [intros [|]; naive_solver | auto | naive_solver | auto]).
  rewrite !Himp. split.
  - intros (H1 & H2 & H3 & H4 & H5 & H6 & H7 & H8 & H9 & H10 & _).
    split; [|split; [|done]]; split_and?; try (intros x Hx; rewrite Hx in *); try lia; try congruence.
    + apply negb_false_iff, andb_true_iff in H2 as [? ?]. qbool. done.
    + by qbool.
    + by apply negb_false_iff.
  - intros ((H1 & H2 & H3) & (H4 & H5) & H6). split_and!; try apply H6; try done; try lia.
    + destruct (minimum_quality_score r) as [q|]; [|done]. apply negb_false_iff, andb_true_iff.
      destruct (H2 q eq_refl). by split; qbool.
    + destruct (budget_limit_usd r) as [b|]; [|done]. qbool. by apply H3.
    + destruct (allowed_providers r) as [l|]; [|done]. apply negb_false_iff. by apply H4.
    + destruct (forbidden_providers r) as [l|]; [|done]. by apply H5.
Qed.

(** A test of an optional requirement. *)
Lemma opt_check {A} (o : option A) (f : A -> bool) :
  (match o with Some x => f x | None => false end) = false <-> forall x, o = Some x -> f x = false.
Proof. destruct o; naive_solver. Qed.

Lemma verified_check now r p :
  require_verified_capabilities r && negb (capabilities_are_current now p) = false <->
  (require_verified_capabilities r = true ->
   verification_status p = CapVERIFIED /\ exists e, capability_expires_at p = Some e /\ (now < e)%Q).
Proof.
  unfold capabilities_are_current. destruct (require_verified_capabilities r); simpl; [|naive_solver].
  rewrite negb_false_iff, andb_true_iff, bool_decide_eq_true. split.
  - intros [Hv He] _. split; [done|]. destruct (capability_expires_at p) as [e|]; [|done]. qbool. eauto.
  - intros H. destruct (H eq_refl) as [Hv (e & -> & He)]. split; [done|]. by qbool.
Qed.

Lemma quality_check r p :
  (forall q, minimum_quality_score r = Some q ->
     match expected_quality_score p with Some _ => false | None => negb (allow_quality_degradation r) end = false) /\
  (forall q, minimum_quality_score r = Some q ->
     match expected_quality_score p with Some s => (s ≺ q) && negb (allow_quality_degradation r) | None => false end = false) <->
  (forall q, minimum_quality_score r = Some q -> allow_quality_degradation r = false ->
    exists s, expected_quality_score p = Some s /\ (q <= s)%Q).
Proof.
  destruct (expected_quality_score p) as [s|], (allow_quality_degradation r); simpl;
    setoid_rewrite andb_false_iff || idtac; setoid_rewrite Qltb_false || idtac; naive_solver.
Qed.

Lemma compliance_check req p :
  (match missing_compliance req (compliance (privacy p)) with [] => false | _ => true end) = false <->
  (forall i, i ∈ req -> lower_in i (compliance (privacy p)) = true).
Proof. rewrite <- missing_compliance_nil. by destruct (missing_compliance req _). Qed.

Lemma latency_check r h :
  (match latency_budget_ms r, ema_latency_ms h with Some b, Some e => b ≺ e | _, _ => false end) = false <->
  (forall b e, latency_budget_ms r = Some b -> ema_latency_ms h = Some e -> (e <= b)%Q).
Proof. destruct (latency_budget_ms r) as [b|], (ema_latency_ms h) as [e|]; rewrite ?Qltb_false; naive_solver. Qed.

Lemma timed_pass now r p h : first_hit (timed_checks now r p h) = None <->
  (require_verified_capabilities r = true ->
    verification_status p = CapVERIFIED /\ exists e, capability_expires_at p = Some e /\ (now < e)%Q) /\
  (forall reg, required_region r = Some reg -> region (privacy p) = Some reg) /\
  (forall req i, required_compliance r = Some req -> i ∈ req -> lower_in i (compliance (privacy p)) = true) /\
  (allow_external_traffic r = Some false -> allows_external_traffic (privacy p) = false) /\
  (forall q, minimum_quality_score r = Some q -> allow_quality_degradation r = false ->
    exists s, expected_quality_score p = Some s /\ (q <= s)%Q) /\
  ((minimum_context_tokens r <= 0)%Z \/ (minimum_context_tokens r <= context_window p)%Z) /\
  (forall c, maximum_cost_usd r = Some c -> (estimated_cost_usd r p <= c)%Q) /\
  (forall b e, latency_budget_ms r = Some b -> ema_latency_ms h = Some e -> (e <= b)%Q).
Proof.
  rewrite first_hit_None. unfold timed_checks. rewrite !Forall_cons, Forall_nil. cbn [fst].
  rewrite verified_check, latency_check, !opt_check, andb_false_iff, !Z.ltb_ge.
  setoid_rewrite negb_false_iff. setoid_rewrite bool_decide_eq_true. setoid_rewrite compliance_check.
  setoid_rewrite Qle_bool_true.
  assert ((forall x, allow_external_traffic r = Some x ->
    (if x then false else allows_external_traffic (privacy p)) = false)
    <-> (allow_external_traffic r = Some false -> allows_external_traffic (privacy p) = false)) as ->
    by (split; [naive_solver | intros ? []; naive_solver]).
  pose proof (quality_check r p). naive_solver.
Qed.

(** Hard constraints are exactly what the caller asked for.  A candidate
    passes [matches_hard_constraints] if and only if the requirement vector is
    well formed and the profile satisfies every stated requirement at the
    instant the clock was read. *)
Theorem hard_constraints_exact wall r p h n :
  out_res (matches_hard_constraints wall r p h tt n) = Ok None <-> vector_wf r /\ satisfies (wall n) r p h.
Proof.
  unfold matches_hard_constraints.
  pose proof (static_pass r p) as Hs. pose proof (fun now => timed_pass now r p h) as Ht.
  destruct (first_hit (static_checks r p)) eqn:E.
  - split; [done|]. intros [Hw []]. exfalso. assert (Some e = None) by (apply Hs; tauto). done.
  - destruct (proj1 Hs eq_refl) as (Hw & H1 & H2 & H3 & H4 & H5 & H6).
    assert (forall now, out_res ((mret (first_hit (timed_checks now r p h)) : M exn unit _) tt n) = Ok None <->
      first_hit (timed_checks now r p h) = None) as Hr by (intros now; unfold out_res; simpl; split; congruence).
    destruct (require_verified_capabilities r) eqn:Ev.
    + erewrite bind_ok by reflexivity. cbv beta.
      transitivity (first_hit (timed_checks (wall n) r p h) = None); [unfold out_res; simpl; split; congruence|].
      rewrite Ht. split; [|intros [_ []]; tauto].
      intros (? & ? & ? & ? & ? & ? & ? & ?). split; [done|]. constructor; auto.
    + erewrite bind_ok by reflexivity. cbv beta. rewrite Hr, Ht. split.
      * intros (? & ? & ? & ? & ? & ? & ? & ?). split; [done|]. constructor; auto. by rewrite Ev.
      * intros [_ []]. split_and?; by auto.
Qed.

(** A compatible candidate can hold its output and safety margin, and the input
    too unless compaction is allowed. *)
Lemma preflight_compatible p input expected margin allow :
  compatible (preflight_context p input expected margin allow) = true <->
  (Z.max 0 (effective_output p expected) + Z.max 0 margin <= context_window p)%Z /\
  (allow = true \/ Z.max 0 input + Z.max 0 (effective_output p expected) + Z.max 0 margin <= context_window p)%Z.
Proof.
  unfold preflight_context. destruct (Z.leb_spec (Z.max 0 input + Z.max 0 (effective_output p expected) + Z.max 0 margin)
    (context_window p)); simpl; [split; [lia | done]|].
  destruct (Z.ltb_spec (context_window p) (Z.max 0 (effective_output p expected) + Z.max 0 margin)); simpl;
    [split; [done | lia]|]. split; [intros ->; lia | intros [_ [->|]]; [done | lia]].
Qed.

Lemma unit_clamp x : (0 <= py_max 0 (py_min 1 x) <= 1)%Q.
Proof. split; [apply py_max_ge_l | apply py_max_lub; [lra | apply py_min_le_l]]. Qed.

Lemma quality_score_bounds p :
  (forall mp, p = Some mp -> (0 <= context_window mp)%Z) -> (0 <= quality_score_of p <= 1)%Q.
Proof.
  intros Hw. destruct p as [mp|]; simpl; [|split; lra]. specialize (Hw mp eq_refl).
  assert (0 <= inject_Z (context_window mp) / 1000000)%Q as H0.
  { rewrite Zle_Qle in Hw. change (inject_Z 0) with 0%Q in Hw. apply Qle_shift_div_l; lra. }
  pose proof (py_min_le_l (3 # 10) (inject_Z (context_window mp) / 1000000)).
  assert (0 <= py_min (3 # 10) (inject_Z (context_window mp) / 1000000))%Q by (apply py_min_glb; lra).
  destruct (flag (supports_tools mp)), (supports_reasoning mp); split; lra.
Qed.

Lemma cost_score_bounds p : (0 <= cost_score_of p <= 1)%Q.
Proof.
  destruct p as [mp|]; simpl; [|split; lra]. destruct (is_free mp); [split; lra|].
  destruct (0 ≺ input_price_per_1m mp); [|split; lra]. split.
  - eapply Qle_trans; [|apply py_max_ge_l]. lra.
  - apply py_max_lub; [lra | apply py_min_le_l].
Qed.

Lemma reliability_bounds st h : counters_ok h -> (0 <= reliability_score st h <= 1)%Q.
Proof.
  intros Hc. destruct (rates_bounded h Hc) as ([? ?] & [? ?] & [? ?]).
  destruct st; simpl; try (split; lra); destruct (0 <? hs_total_calls h)%nat; split; lra.
Qed.

(** Scores are comparable.  For a consistent snapshot and a profile with a
    non-negative window, every component of the default scorer lies in [0, 1]
    and the final score in [0, 1.25]; an open breaker scores no reliability and
    a warm cache adds exactly a quarter. *)
Theorem scores_bounded e st h warm :
  counters_ok h -> (forall mp, profile e = Some mp -> (0 <= context_window mp)%Z) ->
  let ev := score_candidate default_scorer e st h warm in
  (0 <= health_score ev <= 1)%Q /\ (0 <= latency_score ev <= 1)%Q /\ (0 <= cost_score ev <= 1)%Q /\
  (0 <= final_score ev <= 5 # 4)%Q /\
  final_score (score_candidate default_scorer e st h true) ==
    final_score (score_candidate default_scorer e st h false) + (1 # 4) /\
  (st = OPEN \/ st = FORCED_OPEN -> health_score ev = 0).
Proof.
  intros Hc Hw. pose proof (reliability_bounds st h Hc) as [? ?]. pose proof (cost_score_bounds (profile e)) as [? ?].
  pose proof (quality_score_bounds (profile e) Hw) as [? ?].
  assert (0 <= latency_score_of default_scorer h <= 1)%Q as [? ?].
  { unfold latency_score_of. destruct (ema_latency_ms h); [apply unit_clamp | split; simpl; lra]. }
  split; [done|]. split; [done|]. split; [done|]. split; [|split; [reflexivity | by intros [->| ->]]].
  unfold score_candidate. simpl. destruct warm; split; lra.
Qed.

Lemma scores_bounded_witness :
  (0 <= final_score (score_candidate default_scorer
    {| ep_id := "e"; ep_provider := "groq"; ep_model := "m"; base_url := ""; ep_protocol := "openai"; deployment := None;
       quota_bucket_id := None; env_key := None; env_keys := []; ep_headers := []; weight := 1; priority := 1;
       profile := Some (unknown_profile "groq" "m"); ep_pool := "coding"; is_discovered := false; resource_lane := None |}
    CLOSED (new_snapshot "e" "groq" "m" 0) true) <= 5 # 4)%Q.
Proof.
  apply scores_bounded.
  - vm_compute. repeat split; auto.
  - intros mp Hmp. vm_compute in Hmp. injection Hmp as <-. vm_compute. discriminate.
Defined.
