(* ===== verification/RoutingStores.v ===== *)
(** * The router's and executor's shared stores

    [src/durallm/routing/resources.py] (credential lanes),
    [src/durallm/routing/budget.py] (budget reservations),
    [src/durallm/routing/cache.py] (warm prompt caches),
    [src/durallm/routing/keys.py] (key rotation) and
    [src/durallm/routing/quality.py] (shadow quality estimates).  Every public
    method holds its store's lock and is one atomic step. *)

From stdpp Require Import base tactics list strings relations.
From Stdlib Require Import QArith Lqa.
From S2P Require Import Prelude Models PyText Profile.

(** ** Credential lanes *)

Record ResourceLaneStatus : Type := {
  available : bool;
  lane_reason : option string;
  expires_at : option Q;
}.
Definition lane_up : ResourceLaneStatus := {| available := true; lane_reason := None; expires_at := None |}.

Definition lane_is_available (now : Q) (s : ResourceLaneStatus) : bool :=
  available s || match expires_at s with Some e => e ⪯ now | None => false end.

Abbreviation LaneStore := (odict string ResourceLaneStatus).

Section lanes.
Context (clock : nat -> Q).

Definition set_unavailable (lane reason : string) (retry_after : option Q) : M exn LaneStore unit :=
  e ← match retry_after with
      | None => mret None
      | Some r => now ← read_clock clock; mret (Some (now + py_max 0 r)%Q)
      end;
  modify (od_set lane {| available := false; lane_reason := Some reason; expires_at := e |}).

Definition set_available (lane : string) : M exn LaneStore unit := modify (od_set lane lane_up).

Definition lane_status (lane : string) : M exn LaneStore ResourceLaneStatus :=
  s ← get;
  match od_get lane s with
  | None => mret lane_up
  | Some current =>
      now ← read_clock clock;
      if lane_is_available now current then
        when (negb (available current)) (modify (od_set lane lane_up)) ;; mret lane_up
      else mret current
  end.

Definition lane_reset : M exn LaneStore unit := put [].
End lanes.

(** ** Budget reservations *)

Record BudgetReservation : Type := {
  reservation_id : string;
  scope : string;
  amount_usd : Q;
  limit_usd : Q;
}.

Record BudgetReservationStore : Type := {
  reserved : odict string BudgetReservation;
  spent : odict string Q;
}.
Definition new_budget_store : BudgetReservationStore := {| reserved := []; spent := [] |}.

Definition Qsum (l : list Q) : Q := foldr Qplus 0 l.

Definition spent_in (sc : string) (s : BudgetReservationStore) : Q := default 0 (od_get sc (spent s)).
Definition reserved_in (sc : string) (s : BudgetReservationStore) : Q :=
  Qsum (map amount_usd (filter (fun r => scope r = sc) (od_values (reserved s)))).

(** The comparison's slack, [1e-12]. *)
Definition budget_eps : Q := 1 # 1000000000000.

Local Abbreviation BS := (M exn BudgetReservationStore).

Definition reserve (rid sc : string) (amount limit : Q) : BS (option BudgetReservation) :=
  if (amount ≺ 0) || (limit ≺ 0) then raise (ValueError "budget amounts must be non-negative") else
  s ← get;
  match od_get rid (reserved s) with
  | Some existing => mret (Some existing)
  | None =>
      if (limit + budget_eps)%Q ≺ (spent_in sc s + reserved_in sc s + amount)%Q then mret None
      else
        let r := {| reservation_id := rid; scope := sc; amount_usd := amount; limit_usd := limit |} in
        modify (fun s => {| reserved := od_set rid r (reserved s); spent := spent s |}) ;;
        mret (Some r)
  end.

Definition release (rid : string) : BS unit :=
  modify (fun s => {| reserved := od_pop rid (reserved s); spent := spent s |}).

Definition settle (rid : string) (actual : Q) : BS unit :=
  if actual ≺ 0 then raise (ValueError "actual cost must be non-negative") else
  s ← get;
  match od_get rid (reserved s) with
  | None => mret tt
  | Some r =>
      modify (fun s => {| reserved := od_pop rid (reserved s);
                          spent := od_set (scope r) (spent_in (scope r) s + actual)%Q (spent s) |})
  end.

Definition remaining (sc : string) (limit : Q) : BS Q :=
  gets (fun s => py_max 0 (limit - spent_in sc s - reserved_in sc s)).

Definition budget_reset : BS unit := put new_budget_store.

(** ** Warm prompt caches *)

Record PromptCacheTracker : Type := {
  cache_ttl_seconds : Q;
  warm_entries : odict (string * string) Q;
}.

Section cache.
Context (clock : nat -> Q).
Local Abbreviation PC := (M exn PromptCacheTracker).

Definition now_or {S} (now : option Q) : M exn S Q :=
  match now with Some t => mret t | None => read_clock clock end.

Definition record_warm_cache (ep hash : string) (now : option Q) : PC unit :=
  t ← now_or now;
  modify (fun c => {| cache_ttl_seconds := cache_ttl_seconds c;
                      warm_entries := od_set (ep, hash) (t + cache_ttl_seconds c)%Q (warm_entries c) |}).

Definition is_warm (ep hash : string) (now : option Q) : PC bool :=
  t ← now_or now;
  c ← get;
  match od_get (ep, hash) (warm_entries c) with
  | None => mret false
  | Some e =>
      if e ⪯ t then
        modify (fun c => {| cache_ttl_seconds := cache_ttl_seconds c;
                            warm_entries := od_pop (ep, hash) (warm_entries c) |}) ;; mret false
      else mret true
  end.

Definition cache_reset : PC unit :=
  modify (fun c => {| cache_ttl_seconds := cache_ttl_seconds c; warm_entries := [] |}).
End cache.

(** ** Key rotation *)

Record KeyRotationPool : Type := {
  key_cooldowns : odict string Q;
  rr_indices : odict string nat;
}.
Definition new_key_pool : KeyRotationPool := {| key_cooldowns := []; rr_indices := [] |}.

Definition key_ident (env : string) (idx : nat) : string := (env ++ ":" ++ py_str_nat idx)%string.

(** [keys.get(k, "")] *)
Definition key_get (keys : odict string string) (k : string) : string := default "" (od_get k keys).

Definition comma : Ascii.ascii := chr 44.

(** [get_candidate_keys] *)
Definition get_candidate_keys (e : Endpoint) (keys : odict string string) : list (string * string) :=
  let from_list := concat (map (fun env_k =>
    let val := key_get keys env_k in
    if truthy val then
      omap (fun ip => let clean := strip (snd ip) in
                      if truthy clean then Some (clean, key_ident env_k (fst ip)) else None)
        (imap (fun i p => (i, p)) (split_on comma val))
    else []) (env_keys e)) in
  match from_list, env_key e with
  | [], Some k =>
      if truthy k then
        let val := key_get keys k in
        if truthy val then
          imap (fun i p => (p, key_ident k i)) (filter (fun p => truthy p = true) (map strip (split_on comma val)))
        else []
      else []
  | l, _ => l
  end.

Section keys.
Context (clock : nat -> Q).
Local Abbreviation KP := (M exn KeyRotationPool).

Definition cooldown_of (kid : string) (p : KeyRotationPool) : Q := default 0 (od_get kid (key_cooldowns p)).

Definition available_keys (now : Q) (p : KeyRotationPool) (cands : list (string * string)) : list (string * string) :=
  filter (fun vk => (cooldown_of (snd vk) p ⪯ now) = true) cands.

(** [get_active_key] *)
Definition get_active_key (e : Endpoint) (keys : odict string string) (now : option Q)
    : KP (option string * option string) :=
  t ← now_or clock now;
  p ← get;
  match get_candidate_keys e keys with
  | [] => mret (None, None)
  | [(val, kid)] => if t ≺ cooldown_of kid p then mret (None, Some kid) else mret (Some val, Some kid)
  | cands =>
      let avail := available_keys t p cands in
      match avail with
      | [] => mret (None, None)
      | d :: _ =>
          let curr := default 0%nat (od_get (ep_id e) (rr_indices p)) in
          let '(val, kid) := nth (curr mod length avail)%nat avail d in
          modify (fun p => {| key_cooldowns := key_cooldowns p;
                              rr_indices := od_set (ep_id e) ((curr + 1) mod length avail)%nat (rr_indices p) |}) ;;
          mret (Some val, Some kid)
      end
  end.

(** [record_rate_limit] *)
Definition record_rate_limit (kid : string) (cooldown : option Q) (now : option Q) : KP unit :=
  t ← now_or clock now;
  let duration := py_max 1 (default 60 cooldown) in
  modify (fun p => {| key_cooldowns := od_set kid (t + duration)%Q (key_cooldowns p); rr_indices := rr_indices p |}).

(** [has_alternative_key] *)
Definition has_alternative_key (e : Endpoint) (keys : odict string string) (current : option string) (now : option Q)
    : KP bool :=
  t ← now_or clock now;
  p ← get;
  let cands := get_candidate_keys e keys in
  mret (if (length cands <=? 1)%nat then false
        else existsb (fun vk => negb (bool_decide (Some (snd vk) = current)) && (cooldown_of (snd vk) p ⪯ t)) cands).

Definition keys_reset : KP unit := put new_key_pool.

(** The key the executor sends: the rotated one, or the raw configured value. *)
Definition dispatch_key (e : Endpoint) (keys : odict string string) : KP (string * option string) :=
  r ← get_active_key e keys None;
  mret (match r with
        | (Some v, kid) => (v, kid)
        | (None, kid) => (match env_key e with Some k => if truthy k then key_get keys k else "" | None => "" end, kid)
        end).
End keys.

(** ** Shadow quality *)

Record QualityEstimate : Type := {
  q_score : Q;
  q_confidence : Q;
  q_provenance : string;
  q_expires_at : option Q;
}.
Definition is_current (now : Q) (q : QualityEstimate) : bool :=
  match q_expires_at q with None => true | Some e => now ≺ e end.

Record ShadowQualityRecommendation : Type := {
  rec_endpoint_id : option string;
  rec_score : option Q;
  abstained : bool;
}.

Record ShadowQualityPolicy : Type := {
  min_confidence : Q;
  estimates : odict (string * string) QualityEstimate;
}.
Definition default_quality_policy : ShadowQualityPolicy := {| min_confidence := 7 # 10; estimates := [] |}.

Section quality.
Context (clock : nat -> Q).
Local Abbreviation SQ := (M exn ShadowQualityPolicy).

Definition in_unit (x : Q) : bool := (0 ⪯ x) && (x ⪯ 1).

Definition observe (e : Endpoint) (task : string) (score confidence : Q) (provenance : string) (expires : option Q) : SQ unit :=
  if negb (in_unit score) || negb (in_unit confidence)
  then raise (ValueError "quality score and confidence must be in [0, 1]")
  else modify (fun p => {| min_confidence := min_confidence p;
         estimates := od_set (ep_id e, task)
           {| q_score := score; q_confidence := confidence; q_provenance := provenance; q_expires_at := expires |}
           (estimates p) |}).

Definition estimate (e : Endpoint) (task : string) : SQ (option QualityEstimate) :=
  p ← get;
  ok ← match od_get (ep_id e, task) (estimates p) with
       | Some q => now ← read_clock clock; mret (is_current now q)
       | None => mret false
       end;
  match od_get (ep_id e, task) (estimates p), ok : bool with
  | Some q, true => mret (Some q)
  | _, _ =>
      mret (match profile e with
            | Some mp =>
                match expected_quality_score mp with
                | Some sc => Some {| q_score := sc; q_confidence := quality_confidence mp;
                                     q_provenance := str_or (quality_provenance mp) "profile_declared";
                                     q_expires_at := capability_expires_at mp |}
                | None => None
                end
            | None => None
            end)
  end.

(** The candidates [recommend] collects, in order. *)
Fixpoint quality_candidates (es : list Endpoint) (task : string) : SQ (list (string * QualityEstimate)) :=
  match es with
  | [] => mret []
  | e :: es' =>
      q ← estimate e task;
      p ← get;
      rest ← quality_candidates es' task;
      mret (match q with
            | Some q => if min_confidence p ⪯ q_confidence q then (ep_id e, q) :: rest else rest
            | None => rest
            end)
  end.

(** [max(l, key=...)]: the first maximal element. *)
Fixpoint first_max (best : string * QualityEstimate) (l : list (string * QualityEstimate)) : string * QualityEstimate :=
  match l with
  | [] => best
  | c :: l' => first_max (if q_score (snd best) ≺ q_score (snd c) then c else best) l'
  end.

Definition recommend (es : list Endpoint) (task : string) : SQ ShadowQualityRecommendation :=
  cands ← quality_candidates es task;
  mret (match cands with
        | [] => {| rec_endpoint_id := None; rec_score := None; abstained := true |}
        | c :: l => let b := first_max c l in
                    {| rec_endpoint_id := Some (fst b); rec_score := Some (q_score (snd b)); abstained := false |}
        end).
End quality.

(** ** Safety of the shared stores

    Budgets are exceeded only by overruns, lanes fail and recover in isolation, keys
    rotate fairly among those that are not cooling down. *)
Module RoutingStoresProps.

(** ** Budget *)

Definition amount_in (sc : string) (r : BudgetReservation) : Q := if decide (scope r = sc) then amount_usd r else 0.

Lemma reserved_cons sc k r d sp :
  reserved_in sc {| reserved := (k, r) :: d; spent := sp |} == amount_in sc r + reserved_in sc {| reserved := d; spent := sp |}.
Proof.
  unfold reserved_in, amount_in. simpl. rewrite filter_cons. case_decide; simpl; lra.
Qed.

Lemma reserved_set_new sc k r d sp : od_get k d = None ->
  reserved_in sc {| reserved := od_set k r d; spent := sp |} ==
  reserved_in sc {| reserved := d; spent := sp |} + amount_in sc r.
Proof.
  induction d as [|[k' r'] d IH]; simpl.
  - intros _. rewrite reserved_cons. unfold reserved_in. simpl. lra.
  - case_decide; [done|]. intros Hn. rewrite !reserved_cons, (IH Hn). lra.
Qed.

Lemma reserved_pop sc k r d sp : od_wf d -> od_get k d = Some r ->
  reserved_in sc {| reserved := d; spent := sp |} ==
  amount_in sc r + reserved_in sc {| reserved := od_pop k d; spent := sp |}.
Proof.
  unfold od_wf, od_keys. induction d as [|[k' r'] d IH]; simpl; [done|]. intros [Hn Hd]%NoDup_cons.
  unfold od_pop in *. rewrite filter_cons. case_decide as He.
  - intros [= ->]. subst. rewrite decide_False by (simpl; by intros []). rewrite reserved_cons.
    change (filter (fun p => p.1 <> k') d) with (od_pop k' d).
    rewrite od_pop_absent by (by apply od_get_None). reflexivity.
  - intros Hg. rewrite decide_True by (simpl; congruence). rewrite !reserved_cons, (IH Hd Hg). lra.
Qed.

(** One scope's ledger: everything spent plus everything reserved. *)
Definition committed (sc : string) (s : BudgetReservationStore) : Q := (spent_in sc s + reserved_in sc s)%Q.

Definition budget_wf (s : BudgetReservationStore) : Prop :=
  od_wf (reserved s) /\ Forall (fun kr => (0 <= amount_usd (snd kr))%Q) (reserved s).

(** The calls of concurrent clients, in the order they take the lock. *)
Inductive budget_op : Type :=
| BReserve (rid sc : string) (amount limit : Q)
| BRelease (rid : string)
| BSettle (rid : string) (actual : Q)
| BReset.
Definition run_budget_op (s : BudgetReservationStore) (o : budget_op) : BudgetReservationStore :=
  match o with
  | BReserve rid sc amount limit => out_st (reserve rid sc amount limit s 0%nat)
  | BRelease rid => out_st (release rid s 0%nat)
  | BSettle rid actual => out_st (settle rid actual s 0%nat)
  | BReset => out_st (budget_reset s 0%nat)
  end.
Definition run_budget (ops : list budget_op) (s : BudgetReservationStore) : BudgetReservationStore := foldl run_budget_op s ops.

(** By how much a call settles more than was reserved for it in the scope. *)
Definition overrun (sc : string) (s : BudgetReservationStore) (o : budget_op) : Q :=
  match o with
  | BSettle rid actual =>
      match od_get rid (reserved s) with
      | Some r => if decide (scope r = sc) then py_max 0 (actual - amount_usd r) else 0
      | None => 0
      end
  | _ => 0
  end%Q.
Fixpoint overruns (sc : string) (ops : list budget_op) (s : BudgetReservationStore) : Q :=
  match ops with
  | [] => 0
  | o :: rest => overrun sc s o + overruns sc rest (run_budget_op s o)
  end%Q.
(** No reservation of the scope names a higher limit. *)
Definition limited (sc : string) (limit : Q) (o : budget_op) : Prop :=
  match o with BReserve _ sc' _ lim => sc' = sc -> (lim <= limit)%Q | _ => True end.

Lemma amount_in_nonneg sc r : (0 <= amount_usd r)%Q -> (0 <= amount_in sc r)%Q.
Proof. unfold amount_in. case_decide; lra. Qed.

Lemma budget_amount s rid r : budget_wf s -> od_get rid (reserved s) = Some r -> (0 <= amount_usd r)%Q.
Proof. intros [_ Hf] Hg. apply od_get_In in Hg. rewrite Forall_forall in Hf. exact (Hf _ Hg). Qed.

Lemma overrun_nonneg sc s o : (0 <= overrun sc s o)%Q.
Proof. unfold overrun. repeat case_match; try lra. apply py_max_ge_l. Qed.

(** One call: well-formedness, and how much more the scope commits. *)
Lemma reserve_ok sc limit x rid sc' amount lim s :
  (sc' = sc -> (lim <= limit)%Q) -> (0 <= x)%Q -> budget_wf s -> (committed sc s <= limit + budget_eps + x)%Q ->
  let s' := out_st (reserve rid sc' amount lim s 0%nat) in
  budget_wf s' /\ (committed sc s' <= limit + budget_eps + x)%Q.
Proof.
  intros Hlim Hx Hwf Hc. unfold reserve. destruct ((amount ≺ 0) || (lim ≺ 0)) eqn:E0; [done|].
  apply orb_false_iff in E0 as [E1 E2]. qbool. mstep.
  destruct (od_get rid (reserved s)) as [r|] eqn:Eg; [done|].
  destruct ((lim + budget_eps)%Q ≺ _) eqn:El; [done|]. qbool. unfold out_st. simpl.
  destruct s as [d sp]. simpl in *. split.
  - split; [by apply od_wf_set, Hwf | apply od_Forall_set; [done | apply Hwf]].
  - unfold committed in *. unfold spent_in in *. simpl in *. rewrite reserved_set_new by done.
    unfold amount_in. simpl. case_decide; [subst; specialize (Hlim eq_refl); lra | lra].
Qed.

Lemma release_ok sc rid s : budget_wf s ->
  let s' := out_st (release rid s 0%nat) in budget_wf s' /\ (committed sc s' <= committed sc s)%Q.
Proof.
  intros Hwf. pose proof (budget_amount s rid) as Ha. destruct s as [d sp], Hwf as [Hw Hf]. simpl in *. split.
  - split; [by apply od_wf_pop | by apply od_Forall_pop].
  - unfold committed, spent_in, out_st in *. simpl in *. destruct (od_get rid d) as [r|] eqn:Eg.
    + rewrite (reserved_pop sc rid r d sp Hw Eg).
      pose proof (amount_in_nonneg sc r (Ha r (conj Hw Hf) eq_refl)). lra.
    + rewrite od_pop_absent by done. lra.
Qed.

Lemma settle_ok sc rid actual s : budget_wf s ->
  let s' := out_st (settle rid actual s 0%nat) in
  budget_wf s' /\ (committed sc s' <= committed sc s + overrun sc s (BSettle rid actual))%Q.
Proof.
  intros Hwf. pose proof (overrun_nonneg sc s (BSettle rid actual)) as Ho.
  assert (committed sc s <= committed sc s + overrun sc s (BSettle rid actual))%Q as Hsame by lra.
  unfold settle. destruct (actual ≺ 0) eqn:E0; [by split|]. mstep. unfold overrun in *. clear Ho.
  destruct (od_get rid (reserved s)) as [r|] eqn:Eg; [clear Hsame | by split].
  destruct s as [d sp], Hwf as [Hw Hf]. unfold out_st. simpl in *. split.
  - split; [by apply od_wf_pop | by apply od_Forall_pop].
  - unfold committed, spent_in in *. simpl in *. rewrite (reserved_pop sc rid r d sp Hw Eg).
    unfold reserved_in in *. simpl in *. unfold amount_in. destruct (decide (scope r = sc)) as [->|Hne].
    + rewrite od_get_set_eq. simpl. pose proof (py_max_ge_r 0 (actual - amount_usd r)). lra.
    + rewrite od_get_set_ne by congruence. lra.
Qed.

Lemma run_budget_ok sc limit ops x s :
  Forall (limited sc limit) ops -> (0 <= limit)%Q -> (0 <= x)%Q -> budget_wf s -> (committed sc s <= limit + budget_eps + x)%Q ->
  (committed sc (run_budget ops s) <= limit + budget_eps + (x + overruns sc ops s))%Q.
Proof.
  intros Hops Hl. revert x s. induction Hops as [|o ops Ho Hops IH]; intros x s Hx Hwf Hc; cbn [run_budget foldl overruns]; [lra|].
  pose proof (overrun_nonneg sc s o) as Hpos.
  assert (budget_wf (run_budget_op s o) /\ (committed sc (run_budget_op s o) <= limit + budget_eps + (x + overrun sc s o))%Q) as [Hw Hb].
  { destruct o as [rid sc' amount lim|rid|rid actual|]; cbn [run_budget_op].
    - apply reserve_ok; [exact Ho | cbn [overrun]; lra | done | cbn [overrun]; lra].
    - destruct (release_ok sc rid s Hwf). split; [done|]. cbn [overrun]. lra.
    - destruct (settle_ok sc rid actual s Hwf). split; [done|]. lra.
    - split; [split; [apply od_wf_nil | constructor]|]. unfold committed, spent_in, reserved_in, budget_eps. cbn. lra. }
  pose proof (IH (x + overrun sc s o)%Q _ ltac:(lra) Hw Hb). unfold run_budget in *. lra.
Qed.

(** C12: a budget is exceeded only by overruns.  Let any number of concurrent clients
    reserve, release and settle in any order.  What a scope has spent plus what it still
    reserves exceeds its limit by no more than what settlements reported beyond their own
    reservations (and the comparison's slack of 1e-12); in particular never, when every
    settlement stays within its reservation.  And at every moment a new reservation is
    granted exactly when it fits into what is left. *)
Theorem budget_overrun_bounded sc limit ops :
  (0 <= limit)%Q -> Forall (limited sc limit) ops ->
  let s := run_budget ops new_budget_store in
  (spent_in sc s + reserved_in sc s <= limit + budget_eps + overruns sc ops new_budget_store)%Q /\
  forall rid amount, (0 <= amount)%Q -> od_get rid (reserved s) = None ->
    ((exists r, out_res (reserve rid sc amount limit s 0%nat) = Ok (Some r)) <->
     (spent_in sc s + reserved_in sc s + amount <= limit + budget_eps)%Q).
Proof.
  intros Hl Hops s. split.
  - pose proof (run_budget_ok sc limit ops 0 new_budget_store Hops Hl) as H. unfold committed in H. fold s in H.
    assert (budget_wf new_budget_store) by (split; [apply od_wf_nil | constructor]).
    specialize (H ltac:(lra) ltac:(done)). unfold spent_in at 1, reserved_in at 1, budget_eps at 1 in H. cbn in H. specialize (H ltac:(lra)). lra.
  - intros rid amount Ha Hr. unfold reserve.
    replace (amount ≺ 0) with false by (symmetry; by apply Qltb_false). replace (limit ≺ 0) with false by (symmetry; by apply Qltb_false).
    cbn [orb]. mstep. rewrite Hr. destruct (_ ≺ _) eqn:E; qbool; [|mstep]; (split; [intros [r Hr']; try done; lra | intros; try lra; by eexists]).
Qed.

(** Two reservations, one of which costs a dollar more than was reserved for it. *)
Lemma budget_overrun_bounded_witness :
  let ops := [BReserve "r1" "agent" 2 5; BReserve "r2" "agent" 3 5; BSettle "r1" 3] in
  let s := run_budget ops new_budget_store in
  overruns "agent" ops new_budget_store == 1 /\ (spent_in "agent" s + reserved_in "agent" s <= 5 + budget_eps + overruns "agent" ops new_budget_store)%Q.
Proof.
  intros ops s. split; [vm_compute; reflexivity|].
  apply (budget_overrun_bounded "agent" 5 ops); [lra|]. repeat constructor; cbn; intros; lra.
Defined.

(** ** Lanes *)

(** Lanes fail and recover alone.  After [set_unavailable] with a retry
    horizon, the lane reports unavailable at every reading before the horizon
    and available from the horizon on (for ever, if no horizon was given, it
    stays unavailable), while the status of every other lane is untouched. *)
Theorem lane_outage_window clock lane reason retry s n m other :
  let s1 := out_st (set_unavailable clock lane reason retry s n) in
  let horizon := match retry with Some r => Some (clock n + py_max 0 r)%Q | None => None end in
  out_res (lane_status clock lane s1 m) =
    Ok (if match horizon with Some h => h ⪯ clock m | None => false end
        then lane_up else {| available := false; lane_reason := Some reason; expires_at := horizon |}) /\
  (other <> lane -> out_res (lane_status clock other s1 m) = out_res (lane_status clock other s m)).
Proof.
  intros s1 horizon.
  assert (s1 = od_set lane {| available := false; lane_reason := Some reason; expires_at := horizon |} s) as ->
    by (by destruct retry).
  split.
  - unfold lane_status. mstep. rewrite od_get_set_eq. mstep. unfold lane_is_available. simpl.
    destruct horizon as [h|]; simpl; [|done]. by destruct (h ⪯ clock m).
  - intros Hne. unfold lane_status. do 2 (erewrite bind_ok by reflexivity; cbv beta).
    rewrite od_get_set_ne by done. destruct (od_get other s) as [c|]; [|done].
    do 2 (erewrite bind_ok by reflexivity; cbv beta). destruct (lane_is_available (clock m) c); [|done].
    by destruct (available c).
Qed.

(** ** Keys *)

Lemma available_keys_In now p cands vk :
  vk ∈ available_keys now p cands <-> vk ∈ cands /\ (cooldown_of (snd vk) p <= now)%Q.
Proof. unfold available_keys. rewrite list_elem_of_filter, Qle_bool_true. naive_solver. Qed.

(** Only rested keys are used.  A key [get_active_key] returns is one of the
    endpoint's configured keys and is not cooling down; and it returns none only
    when every configured key is cooling down. *)
Theorem active_key_is_rested clock e keys t p n :
  let cands := get_candidate_keys e keys in
  match out_res (get_active_key clock e keys (Some t) p n) with
  | Ok (Some v, Some kid) => (v, kid) ∈ cands /\ (cooldown_of kid p <= t)%Q
  | Ok (None, _) => forall vk, vk ∈ cands -> (t < cooldown_of (snd vk) p)%Q
  | _ => False
  end.
Proof.
  intros cands. unfold get_active_key. mstep. mstep. fold cands.
  destruct cands as [|[v kid] [|c2 rest]] eqn:Ec.
  - simpl. intros vk Hin. by apply elem_of_nil in Hin.
  - destruct (t ≺ cooldown_of kid p) eqn:E; unfold out_res; simpl; qbool.
    + intros vk ->%list_elem_of_singleton. done.
    + split; [by apply list_elem_of_singleton | done].
  - set (avail := available_keys t p _). destruct avail as [|d rest'] eqn:Ea.
    + unfold out_res. simpl. intros vk Hin. apply Qnot_le_lt. intros Hle.
      assert (vk ∈ avail) as Hv by (apply available_keys_In; done). rewrite Ea in Hv. by apply elem_of_nil in Hv.
    + rewrite <- Ea.
      assert (forall i, nth (i mod length avail)%nat avail d ∈ avail) as Hnth.
      { intros i. apply list_elem_of_In, nth_In, Nat.mod_upper_bound. by rewrite Ea. }
      specialize (Hnth (default 0%nat (od_get (ep_id e) (rr_indices p)))).
      destruct (nth _ avail d) as [val kid0]. unfold out_res. simpl.
      by apply available_keys_In in Hnth.
Qed.

(** The pool after [k] further selections. *)
Fixpoint rotate clock (e : Endpoint) keys (t : Q) (k : nat) (p : KeyRotationPool) : KeyRotationPool :=
  match k with
  | O => p
  | S k' => rotate clock e keys t k' (out_st (get_active_key clock e keys (Some t) p 0%nat))
  end.

Definition rr_index (e : Endpoint) (p : KeyRotationPool) : nat := default 0%nat (od_get (ep_id e) (rr_indices p)).

(** One selection among several rested keys. *)
Lemma get_active_key_all clock e keys t p n d :
  let cands := get_candidate_keys e keys in
  available_keys t p cands = cands -> (2 <= length cands)%nat ->
  let vk := nth (rr_index e p mod length cands)%nat cands d in
  get_active_key clock e keys (Some t) p n =
    (Ok (Some (fst vk), Some (snd vk)),
     {| key_cooldowns := key_cooldowns p;
        rr_indices := od_set (ep_id e) ((rr_index e p + 1) mod length cands)%nat (rr_indices p) |}, n).
Proof.
  intros cands Ha Hl vk. unfold get_active_key. mstep. mstep. fold cands.
  destruct cands as [|[v1 k1] [|c2 rest]] eqn:Ec; [simpl in Hl; lia | simpl in Hl; lia|]. rewrite Ha. cbv zeta.
  assert (vk = nth (rr_index e p mod length ((v1, k1) :: c2 :: rest))%nat ((v1, k1) :: c2 :: rest) (v1, k1)) as Hvk.
  { apply nth_indep, Nat.mod_upper_bound. simpl. lia. }
  unfold rr_index in *. destruct (nth _ _ (v1, k1)) as [v kid]. rewrite Hvk. reflexivity.
Qed.

Lemma rotate_index clock e keys t k p :
  let cands := get_candidate_keys e keys in
  available_keys t p cands = cands -> (2 <= length cands)%nat -> (rr_index e p < length cands)%nat ->
  let p' := rotate clock e keys t k p in
  rr_index e p' = ((rr_index e p + k) mod length cands)%nat /\ key_cooldowns p' = key_cooldowns p.
Proof.
  intros cands Ha Hl Hi. revert p Ha Hi. induction k as [|k IH]; intros p Ha Hi; simpl.
  - split; [|done]. rewrite Nat.add_0_r. by rewrite Nat.mod_small.
  - pose proof (get_active_key_all clock e keys t p 0%nat ("", "") Ha Hl) as Hg. cbv zeta in Hg. rewrite Hg.
    match goal with |- context [rotate _ _ _ _ _ (out_st (_, ?x, _))] => set (p1 := x) end. change (out_st _) with p1.
    assert (rr_index e p1 = ((rr_index e p + 1) mod length cands)%nat) as Hr
      by (unfold rr_index, p1; simpl; by rewrite od_get_set_eq).
    destruct (IH p1) as [IH1 IH2]; [done | rewrite Hr; apply Nat.mod_upper_bound; lia|].
    split; [|by rewrite IH2]. rewrite IH1, Hr, Nat.Div0.add_mod_idemp_l. f_equal. lia.
Qed.

(** Rotation is fair.  While all of an endpoint's keys (two or more) are
    rested, the [k]-th next selection returns the key [k] places further round
    the list: any [length] consecutive selections use every key exactly once. *)
Theorem rotation_is_fair clock e keys t k p d :
  let cands := get_candidate_keys e keys in
  available_keys t p cands = cands -> (2 <= length cands)%nat -> (rr_index e p < length cands)%nat ->
  let vk := nth ((rr_index e p + k) mod length cands)%nat cands d in
  out_res (get_active_key clock e keys (Some t) (rotate clock e keys t k p) 0%nat) = Ok (Some (fst vk), Some (snd vk)).
Proof.
  intros cands Ha Hl Hi vk. destruct (rotate_index clock e keys t k p Ha Hl Hi) as [Hr Hc].
  assert (available_keys t (rotate clock e keys t k p) cands = cands) as Ha'.
  { rewrite <- Ha at 2. unfold available_keys, cooldown_of. by rewrite Hc. }
  pose proof (get_active_key_all clock e keys t _ 0%nat d Ha' Hl) as Hg. cbv zeta in Hg. rewrite Hg, Hr.
  rewrite Nat.Div0.mod_mod. done.
Qed.

Definition demo_endpoint : Endpoint :=
  {| ep_id := "groq:m"; ep_provider := "groq"; ep_model := "m"; base_url := ""; ep_protocol := "openai";
     deployment := None; quota_bucket_id := None; env_key := Some "GROQ_API_KEY"; env_keys := []; ep_headers := [];
     weight := 1; priority := 1; profile := None; ep_pool := "coding"; is_discovered := false; resource_lane := None |}.
Definition demo_keys : list (string * string) := [("GROQ_API_KEY", "k1, k2,k3")].

Lemma rotation_is_fair_witness :
  out_res (get_active_key Qnat demo_endpoint demo_keys (Some 7) (rotate Qnat demo_endpoint demo_keys 7 4 new_key_pool) 0%nat)
    = Ok (Some "k2", Some "GROQ_API_KEY:1").
Proof.
  apply (rotation_is_fair Qnat demo_endpoint demo_keys 7 4 new_key_pool ("", "")).
  - vm_compute. reflexivity.
  - vm_compute. repeat constructor.
  - vm_compute. repeat constructor.
Defined.

(** Exhausted keys send the raw setting.  When every configured key of an
    endpoint is cooling down, the executor falls back to the configured value
    itself: the whole comma-separated list goes out as the credential. *)
Theorem exhausted_keys_send_raw_value clock e keys k p n :
  env_key e = Some k -> truthy k = true ->
  (forall vk, vk ∈ get_candidate_keys e keys -> (clock n < cooldown_of (snd vk) p)%Q) ->
  exists kid, out_res (dispatch_key clock e keys p n) = Ok (key_get keys k, kid).
Proof.
  intros He Hk Hall. unfold dispatch_key.
  assert (exists kid, get_active_key clock e keys None p n = (Ok (None, kid), p, S n)) as [kid Hg].
  { unfold get_active_key. mstep. mstep.
    destruct (get_candidate_keys e keys) as [|[v kid] [|c2 rest]] eqn:Ec; [by eexists| |].
    - exists (Some kid). rewrite (proj2 (Qltb_true (clock n) (cooldown_of kid p))); [done|].
      apply (Hall (v, kid)). by apply list_elem_of_singleton.
    - exists None. set (avail := available_keys _ _ _). destruct avail as [|d r] eqn:Ea; [done|]. exfalso.
      assert (d ∈ avail) as Hd by (rewrite Ea; by left). apply available_keys_In in Hd as [Hin Hle].
      specialize (Hall _ Hin). lra. }
  exists kid. erewrite bind_ok by exact Hg. cbv beta. by rewrite He, Hk.
Qed.

Definition demo_tired : KeyRotationPool :=
  {| key_cooldowns := [("GROQ_API_KEY:0", 100); ("GROQ_API_KEY:1", 100); ("GROQ_API_KEY:2", 100)]; rr_indices := [] |}.

Lemma exhausted_keys_send_raw_value_witness :
  exists kid, out_res (dispatch_key Qnat demo_endpoint demo_keys demo_tired 5%nat) = Ok ("k1, k2,k3", kid).
Proof.
  apply (exhausted_keys_send_raw_value Qnat demo_endpoint demo_keys "GROQ_API_KEY" demo_tired 5%nat).
  - reflexivity.
  - reflexivity.
  - intros vk Hin. vm_compute in Hin. repeat (apply elem_of_cons in Hin as [->|Hin]; [vm_compute; reflexivity|]).
    by apply elem_of_nil in Hin.
Defined.

End RoutingStoresProps.
