(* ===== verification/Router.v ===== *)
(** * The capability router

    [src/durallm/routing/router.py].  The router shares the stores it reads with
    the executor; a selection touches several of them (it may create telemetry
    snapshots and breakers, move breakers along their timers, drop expired lanes
    and caches), so it is a method on the state that holds them all.  [wall] is
    [time.time], [mono] is [time.monotonic]. *)

From stdpp Require Import base tactics list gmap strings.
From Stdlib Require Import QArith Lqa.
From S2P Require Import Prelude Models PyText Metrics Breaker Registry Profile Telemetry Requirements RoutingStores.

Record CapabilityRouter : Type := {
  capability_registry : CapabilityRegistry;
  breaker_registry : CircuitBreakerRegistry;
  health_store : HealthTelemetryStore;
  default_strategy : string;
  lane_store : odict string ResourceLaneStatus;
  shadow_quality_policy : ShadowQualityPolicy;
  cache_tracker : PromptCacheTracker;
  scorer : RoutingScorer;
  round_robin_indices : odict string nat;
  dead_list : gset string;
}.

Definition with_breaker_registry (b : CircuitBreakerRegistry) (r : CapabilityRouter) : CapabilityRouter :=
  Build_CapabilityRouter (capability_registry r) b (health_store r) (default_strategy r) (lane_store r)
    (shadow_quality_policy r) (cache_tracker r) (scorer r) (round_robin_indices r) (dead_list r).
Definition with_health_store (h : HealthTelemetryStore) (r : CapabilityRouter) : CapabilityRouter :=
  Build_CapabilityRouter (capability_registry r) (breaker_registry r) h (default_strategy r) (lane_store r)
    (shadow_quality_policy r) (cache_tracker r) (scorer r) (round_robin_indices r) (dead_list r).
Definition with_lane_store (l : odict string ResourceLaneStatus) (r : CapabilityRouter) : CapabilityRouter :=
  Build_CapabilityRouter (capability_registry r) (breaker_registry r) (health_store r) (default_strategy r) l
    (shadow_quality_policy r) (cache_tracker r) (scorer r) (round_robin_indices r) (dead_list r).
Definition with_quality_policy (q : ShadowQualityPolicy) (r : CapabilityRouter) : CapabilityRouter :=
  Build_CapabilityRouter (capability_registry r) (breaker_registry r) (health_store r) (default_strategy r)
    (lane_store r) q (cache_tracker r) (scorer r) (round_robin_indices r) (dead_list r).
Definition with_cache_tracker (c : PromptCacheTracker) (r : CapabilityRouter) : CapabilityRouter :=
  Build_CapabilityRouter (capability_registry r) (breaker_registry r) (health_store r) (default_strategy r)
    (lane_store r) (shadow_quality_policy r) c (scorer r) (round_robin_indices r) (dead_list r).
Definition with_round_robin (d : odict string nat) (r : CapabilityRouter) : CapabilityRouter :=
  Build_CapabilityRouter (capability_registry r) (breaker_registry r) (health_store r) (default_strategy r)
    (lane_store r) (shadow_quality_policy r) (cache_tracker r) (scorer r) d (dead_list r).
Definition with_dead_list (d : gset string) (r : CapabilityRouter) : CapabilityRouter :=
  Build_CapabilityRouter (capability_registry r) (breaker_registry r) (health_store r) (default_strategy r)
    (lane_store r) (shadow_quality_policy r) (cache_tracker r) (scorer r) (round_robin_indices r) d.

(** [CapabilityRouter.__init__] over given stores. *)
Definition new_router (caps : CapabilityRegistry) (br : CircuitBreakerRegistry) (h : HealthTelemetryStore)
    : CapabilityRouter :=
  {| capability_registry := caps; breaker_registry := br; health_store := h; default_strategy := "balanced";
     lane_store := []; shadow_quality_policy := default_quality_policy;
     cache_tracker := {| cache_ttl_seconds := 300; warm_entries := [] |}; scorer := default_scorer;
     round_robin_indices := []; dead_list := ∅ |}.

(** An evaluation record for a candidate that was excluded. *)
Definition excluded_eval (e : Endpoint) (x : Exclusion) (hard : bool) (cold : bool) (breaker : string) : CandidateEvaluation :=
  {| ce_endpoint_id := ep_id e; ce_provider := ep_provider e; ce_model := ep_model e; eligible := false;
     exclusion_reason := Some x; ce_breaker_state := breaker; hard_constraints_passed := hard;
     health_score := 1; latency_score := 1; cost_score := 1; final_score := 0; rank := 0; ce_is_cold_start := cold;
     observed_latency_ms := None; ce_resource_lane := None; resource_lane_available := true; ce_tokenizer_id := None;
     ce_tokenizer_revision := None; preflight_requires_compaction := false; ce_expected_quality_score := None;
     ce_quality_confidence := 0; ce_quality_provenance := None; degradation_required := false; warm_cache := false |}.

(** Adds the lane and tokenizer evidence to a record. *)
Definition with_evidence (e : Endpoint) (lane_ok : bool) (pf : TokenizerPreflight) (v : CandidateEvaluation)
    : CandidateEvaluation :=
  {| ce_endpoint_id := ce_endpoint_id v; ce_provider := ce_provider v; ce_model := ce_model v; eligible := eligible v;
     exclusion_reason := exclusion_reason v; ce_breaker_state := ce_breaker_state v;
     hard_constraints_passed := hard_constraints_passed v; health_score := health_score v;
     latency_score := latency_score v; cost_score := cost_score v; final_score := final_score v; rank := rank v;
     ce_is_cold_start := ce_is_cold_start v; observed_latency_ms := observed_latency_ms v;
     ce_resource_lane := lane_key e; resource_lane_available := lane_ok; ce_tokenizer_id := Some (pf_tokenizer_id pf);
     ce_tokenizer_revision := pf_tokenizer_revision pf; preflight_requires_compaction := requires_compaction pf;
     ce_expected_quality_score := ce_expected_quality_score v; ce_quality_confidence := ce_quality_confidence v;
     ce_quality_provenance := ce_quality_provenance v; degradation_required := degradation_required v;
     warm_cache := warm_cache v |}.

Definition with_quality (min_quality : option Q) (q : option QualityEstimate) (v : CandidateEvaluation) : CandidateEvaluation :=
  match q with
  | None => v
  | Some q =>
  {| ce_endpoint_id := ce_endpoint_id v; ce_provider := ce_provider v; ce_model := ce_model v; eligible := eligible v;
     exclusion_reason := exclusion_reason v; ce_breaker_state := ce_breaker_state v;
     hard_constraints_passed := hard_constraints_passed v; health_score := health_score v;
     latency_score := latency_score v; cost_score := cost_score v; final_score := final_score v; rank := rank v;
     ce_is_cold_start := ce_is_cold_start v; observed_latency_ms := observed_latency_ms v;
     ce_resource_lane := ce_resource_lane v; resource_lane_available := resource_lane_available v;
     ce_tokenizer_id := ce_tokenizer_id v; ce_tokenizer_revision := ce_tokenizer_revision v;
     preflight_requires_compaction := preflight_requires_compaction v; ce_expected_quality_score := Some (q_score q);
     ce_quality_confidence := q_confidence q; ce_quality_provenance := Some (q_provenance q);
     degradation_required := match min_quality with Some m => q_score q ≺ m | None => false end;
     warm_cache := warm_cache v |}
  end.

Definition with_rank (k : nat) (v : CandidateEvaluation) : CandidateEvaluation :=
  {| ce_endpoint_id := ce_endpoint_id v; ce_provider := ce_provider v; ce_model := ce_model v; eligible := eligible v;
     exclusion_reason := exclusion_reason v; ce_breaker_state := ce_breaker_state v;
     hard_constraints_passed := hard_constraints_passed v; health_score := health_score v;
     latency_score := latency_score v; cost_score := cost_score v; final_score := final_score v; rank := k;
     ce_is_cold_start := ce_is_cold_start v; observed_latency_ms := observed_latency_ms v;
     ce_resource_lane := ce_resource_lane v; resource_lane_available := resource_lane_available v;
     ce_tokenizer_id := ce_tokenizer_id v; ce_tokenizer_revision := ce_tokenizer_revision v;
     preflight_requires_compaction := preflight_requires_compaction v;
     ce_expected_quality_score := ce_expected_quality_score v; ce_quality_confidence := ce_quality_confidence v;
     ce_quality_provenance := ce_quality_provenance v; degradation_required := degradation_required v;
     warm_cache := warm_cache v |}.

(** ** Strategies *)

Abbreviation candidate := (Endpoint * CandidateEvaluation)%type.

(** [priority_key]: the tier is constant for a small context. *)
Definition priority_key (large : bool) (c : candidate) : Z * Z * Q :=
  let '(e, v) := c in
  let cw := z_or (match profile e with Some p => context_window p | None => 65536%Z end) 65536 in
  let is_groq := String.eqb (py_lower (ep_provider e)) "groq" in
  let tier := if large then (if (200000 <=? cw)%Z && negb is_groq then 0 else if is_groq then 1 else 2)%Z else 0%Z in
  (tier, priority e, - final_score v)%Q.

(** Lexicographic order on the tuples Python compares. *)
Definition key_le (a b : Z * Z * Q) : bool :=
  let '(t1, p1, s1) := a in
  let '(t2, p2, s2) := b in
  (t1 <? t2)%Z || ((t1 =? t2)%Z && ((p1 <? p2)%Z || ((p1 =? p2)%Z && (s1 ⪯ s2)))).

(** [sort(key=f, reverse=True)] *)
Definition desc (f : CandidateEvaluation -> Q) (a b : candidate) : bool := f (snd b) ⪯ f (snd a).

Definition is_blocking (s : CircuitBreakerState) : bool :=
  match s with OPEN | FORCED_OPEN => true | _ => false end.

Section router.
Context (wall mono : nat -> Q).
Local Abbreviation R := (M exn CapabilityRouter).

Definition on_health {A} (m : M exn HealthTelemetryStore A) : R A := zoom health_store with_health_store m.
Definition on_lanes {A} (m : M exn (odict string ResourceLaneStatus) A) : R A := zoom lane_store with_lane_store m.
Definition on_quality {A} (m : M exn ShadowQualityPolicy A) : R A := zoom shadow_quality_policy with_quality_policy m.
Definition on_cache {A} (m : M exn PromptCacheTracker A) : R A := zoom cache_tracker with_cache_tracker m.
Definition on_breakers {A} (m : M exn CircuitBreakerRegistry A) : R A := zoom breaker_registry with_breaker_registry m.

Definition provider_model (provider model : string) : string := (provider ++ ":" ++ model)%string.

(** [mark_dead] *)
Definition mark_dead (id provider model reason : string) : R unit :=
  modify (fun r => with_dead_list ({[id]} ∪ dead_list r) r) ;;
  when (truthy provider && truthy model)
    (modify (fun r => with_dead_list ({[provider_model provider model]} ∪ dead_list r) r)) ;;
  on_health (health_mark_dead wall id provider model reason).

(** [clear_dead_list] *)
Definition clear_dead_list : R unit :=
  modify (with_dead_list ∅) ;; on_health health_clear_dead_list.

(** [is_dead] *)
Definition is_dead (id provider model : string) : R bool :=
  r ← get;
  if bool_decide (id ∈ dead_list r) then mret true
  else if truthy provider && truthy model && bool_decide (provider_model provider model ∈ dead_list r) then mret true
  else h ← on_health (health_get_or_create wall id provider model); mret (hs_is_dead h).

(** The body of the loop of [select_candidate]: the record for one endpoint. *)
Definition evaluate_endpoint (req : RequirementVector) (exclusions : list string) (e : Endpoint) : R CandidateEvaluation :=
  if bool_decide (ep_id e ∈ exclusions) then mret (excluded_eval e ExLedger true false "CLOSED") else
  dead ← is_dead (ep_id e) (ep_provider e) (ep_model e);
  if dead : bool then
    h ← on_health (health_get_or_create wall (ep_id e) (ep_provider e) (ep_model e));
    mret (excluded_eval e (ExDead (dead_reason h)) true false "CLOSED")
  else
  r ← get;
  let p := match profile e with
           | Some p => p | None => get_profile (ep_provider e) (ep_model e) (capability_registry r) end in
  h ← on_health (health_get_or_create wall (ep_id e) (ep_provider e) (ep_model e));
  qnow ← read_clock wall;
  if is_quota_exhausted qnow h then mret (excluded_eval e ExQuota true (is_cold_start h) "CLOSED") else
  hard ← matches_hard_constraints wall req p h;
  match hard with
  | Some x => mret (excluded_eval e x false (is_cold_start h) "CLOSED")
  | None =>
  let pf := preflight_context p (estimated_input_tokens req) (expected_output_tokens req)
              (safety_margin_tokens req) (allow_context_compaction req) in
  if negb (compatible pf) then
    mret (with_evidence e true pf
            (excluded_eval e (default ExNeedsCompaction (pf_reason pf)) false (is_cold_start h) "CLOSED"))
  else
  lane ← match lane_key e with
         | None => mret lane_up
         | Some l => on_lanes (lane_status wall l)
         end;
  if negb (available lane) then
    mret (with_evidence e false pf
            (excluded_eval e (ExLane (default "" (lane_key e)) (lane_reason lane)) true (is_cold_start h) "CLOSED"))
  else
  st ← on_breakers (on_breaker (resource_key e) (state mono));
  if is_blocking st then
    mret (excluded_eval e (ExBreaker (state_value st)) true (is_cold_start h) (state_value st))
  else
  warm ← match prefix_hash req with
         | Some ph => if truthy ph then on_cache (is_warm wall (ep_id e) ph None) else mret false
         | None => mret false
         end;
  r2 ← get;
  let v := score_candidate (scorer r2) e st h warm in
  q ← on_quality (estimate wall e (task_class req));
  mret (with_quality (minimum_quality_score req) q (with_evidence e true pf v))
  end.

(** The loop over the pool's endpoints. *)
Fixpoint evaluate_all (req : RequirementVector) (exclusions : list string) (es : list Endpoint) : R (list candidate) :=
  match es with
  | [] => mret []
  | e :: es' =>
      v ← evaluate_endpoint req exclusions e;
      rest ← evaluate_all req exclusions es';
      mret ((e, v) :: rest)
  end.

(** Strategy selection on a non-empty list of eligible candidates: the order
    the list is left in, and the chosen endpoint. *)
Definition choose (strat pool : string) (req : RequirementVector) (first : candidate) (rest : list candidate)
    : R (list candidate * Endpoint) :=
  let l := first :: rest in
  let head_of (s : list candidate) := (s, fst (hd first s)) in
  if String.eqb strat "priority" then
    mret (head_of (sort_by (fun a b => key_le (priority_key (5000 <? estimated_input_tokens req)%Z a)
                                              (priority_key (5000 <? estimated_input_tokens req)%Z b)) l))
  else if String.eqb strat "round_robin" then
    r ← get;
    let idx := (default 0 (od_get pool (round_robin_indices r)) mod length l)%nat in
    modify (fun r => with_round_robin (od_set pool ((idx + 1) mod length l)%nat (round_robin_indices r)) r) ;;
    mret (l, fst (nth idx l first))
  else if String.eqb strat "latency_aware" then mret (head_of (sort_by (desc latency_score) l))
  else if String.eqb strat "cost_aware" then mret (head_of (sort_by (desc cost_score) l))
  else if String.eqb strat "reliability_aware" then mret (head_of (sort_by (desc health_score) l))
  else mret (head_of (sort_by (desc final_score) l)).

(** The rank of an endpoint in the final order, from 1. *)
Definition rank_in (order : list candidate) (id : string) : option nat :=
  (fun ic => S (fst ic)) <$> list_find (fun c => ep_id (fst c) = id) order.

(** Ranks are assigned to the shared records, so the list of all evaluations
    shows them too. *)
Definition assign_ranks (order : list candidate) (evs : list CandidateEvaluation) : list CandidateEvaluation :=
  map (fun v => if eligible v then match rank_in order (ce_endpoint_id v) with Some k => with_rank k v | None => v end else v) evs.

(** [select_candidate] *)
Definition select_candidate (req : RequirementVector) (pool : string) (strat : option string) (request_id : string)
    (excluded : list string) (fallback : option string) : R (option Endpoint * RoutingDecision) :=
  r ← get;
  let strat := str_or strat (default_strategy r) in
  let es := endpoints_for_pool pool (capability_registry r) in
  evaluated ← evaluate_all req excluded es;
  let elig := filter (fun c => eligible (snd c) = true) evaluated in
  shadow ← on_quality (recommend wall es (task_class req));
  let decision sel evs n :=
    {| dec_request_id := request_id; strategy := strat; selected_endpoint := sel; evaluated_candidates := evs;
       total_considered := length es; total_eligible := n; fallback_reason := fallback;
       shadow_recommended_endpoint := rec_endpoint_id shadow; shadow_recommended_score := rec_score shadow;
       shadow_abstained := abstained shadow |} in
  match elig with
  | [] => mret (None, decision None (map snd evaluated) 0%nat)
  | first :: rest =>
      chosen ← choose strat pool req first rest;
      let '(order, sel) := chosen in
      mret (Some sel, decision (Some sel) (assign_ranks order (map snd evaluated)) (length elig))
  end.
End router.
