(* ===== verification/RouterProps.v ===== *)
(** * Correctness of routing

    What a selection guarantees about the endpoint it returns, stated on the state
    the call started from and on the clock readings it makes; when it returns
    none; and that the strategy's choice is optimal. *)

From stdpp Require Import base tactics list gmap strings.
From Stdlib Require Import QArith Lqa.
From S2P Require Import Prelude Models PyText Metrics Breaker BreakerSpec Registry Profile Telemetry Requirements RoutingStores Router.

Section router_props.
Context (wall mono : nat -> Q).
Implicit Types (w : CapabilityRouter) (e : Endpoint) (req : RequirementVector).

(** Selection only touches the stores, not the configuration. *)
Definition same_config w w' : Prop :=
  capability_registry w' = capability_registry w /\ dead_list w' = dead_list w /\
  default_strategy w' = default_strategy w /\ scorer w' = scorer w /\ round_robin_indices w' = round_robin_indices w.

Lemma same_config_refl w : same_config w w.
Proof. by repeat split. Qed.
Lemma same_config_trans w1 w2 w3 : same_config w1 w2 -> same_config w2 w3 -> same_config w1 w3.
Proof. unfold same_config. intros (? & ? & ? & ? & ?) (? & ? & ? & ? & ?). split_and!; congruence. Qed.

(** *** What the state may look like later in a run

    The [n]-th to the [n'-1]-th clock readings are those of the run. *)

(** The record of an endpoint that a run sees: the one the store held when the
    run began, or a blank one that the run created. *)
Definition health_seen id w (n n' : nat) (h : EndpointHealthSnapshot) : Prop :=
  od_get id (snapshots (health_store w)) = Some h \/
  od_get id (snapshots (health_store w)) = None /\
    exists p m k, in_run n n' k /\ h = new_snapshot id p m (wall k).

(** The lane was marked available, or its mark expired at a reading of the run. *)
Definition lane_seen_up k w (n n' : nat) : Prop :=
  forall s, od_get k (lane_store w) = Some s -> exists m, in_run n n' m /\ lane_is_available (wall m) s = true.

(** The breaker of a resource; a new one is closed. *)
Definition breaker_at key w : CircuitBreaker :=
  default (new_breaker key (default_config (breaker_registry w))) (od_get key (breakers (breaker_registry w))).

(** The automatic transition at a reading of the run. *)
Definition checked_in (n n' : nat) (b b' : CircuitBreaker) : Prop :=
  exists m, in_run n n' m /\ checked (mono m) b b'.

Record drift w (n : nat) w' (n' : nat) : Prop := {
  dr_ticks : (n <= n')%nat;
  dr_config : same_config w w';
  dr_keeps : forall id h, od_get id (snapshots (health_store w)) = Some h -> od_get id (snapshots (health_store w')) = Some h;
  dr_health : forall id h, od_get id (snapshots (health_store w')) = Some h -> health_seen id w n n' h;
  dr_lane : forall k s, od_get k (lane_store w) = Some s ->
    od_get k (lane_store w') = Some s \/ exists m, in_run n n' m /\ lane_is_available (wall m) s = true;
  dr_breaker : forall k, rtc (checked_in n n') (breaker_at k w) (breaker_at k w');
}.

(** Only stores that no filter reads, or none, changed. *)
Lemma drift_same w n w' n' : (n <= n')%nat -> same_config w w' -> health_store w' = health_store w ->
  lane_store w' = lane_store w -> breaker_registry w' = breaker_registry w -> drift w n w' n'.
Proof.
  intros Hn Hc Hh Hl Hb. split; [done | done | by rewrite Hh | rewrite Hh; by left | rewrite Hl; by left|].
  intros k. unfold breaker_at. by rewrite Hb.
Qed.
Lemma drift_refl w n : drift w n w n.
Proof. by apply drift_same. Qed.

Lemma checked_in_widen n n' n1 n1' b b' : (n <= n1)%nat -> (n1' <= n')%nat -> checked_in n1 n1' b b' -> checked_in n n' b b'.
Proof. intros ? ? (m & Hm & Hc). exists m. split; [by eapply in_run_widen | done]. Qed.
Lemma health_seen_later id w n n' n2 h : (n' <= n2)%nat -> health_seen id w n n' h -> health_seen id w n n2 h.
Proof.
  intros Hn [?|(? & p & m & k & Hk & ->)]; [by left | right]. split; [done|]. exists p, m, k.
  split; [by eapply in_run_widen | done].
Qed.
Lemma lane_seen_later k w n n' n2 : (n' <= n2)%nat -> lane_seen_up k w n n' -> lane_seen_up k w n n2.
Proof. intros Hn Hl s Hs. destruct (Hl s Hs) as (m & Hm & Ha). exists m. split; [by eapply in_run_widen | done]. Qed.
Lemma health_seen_back w n w1 n1 n2 id h : drift w n w1 n1 -> (n1 <= n2)%nat ->
  health_seen id w1 n1 n2 h -> health_seen id w n n2 h.
Proof.
  intros D Hn [Hh|(Hno & p & m & k & Hk & ->)].
  - destruct (dr_health _ _ _ _ D _ _ Hh) as [?|(? & p & m & k & Hk & ->)]; [by left | right].
    split; [done|]. exists p, m, k. split; [by eapply in_run_widen | done].
  - right. split.
    + destruct (od_get id (snapshots (health_store w))) as [h|] eqn:E; [|done].
      apply (dr_keeps _ _ _ _ D) in E. congruence.
    + exists p, m, k. split; [eapply in_run_widen; [exact Hk | apply D | done] | done].
Qed.
Lemma lane_seen_back w n w1 n1 n2 k : drift w n w1 n1 -> (n1 <= n2)%nat -> lane_seen_up k w1 n1 n2 -> lane_seen_up k w n n2.
Proof.
  intros D Hn Hl s Hs. destruct (dr_lane _ _ _ _ D _ _ Hs) as [Hs1|(m & Hm & Ha)].
  - destruct (Hl s Hs1) as (m & Hm & Ha). exists m. split; [eapply in_run_widen; [exact Hm | apply D | done] | done].
  - exists m. split; [by eapply in_run_widen | done].
Qed.
Lemma drift_trans w n w1 n1 w2 n2 : drift w n w1 n1 -> drift w1 n1 w2 n2 -> drift w n w2 n2.
Proof.
  intros D1 D2. pose proof (dr_ticks _ _ _ _ D1). pose proof (dr_ticks _ _ _ _ D2). split.
  - lia.
  - eapply same_config_trans; [apply D1 | apply D2].
  - intros id h Hh. by apply (dr_keeps _ _ _ _ D2), (dr_keeps _ _ _ _ D1).
  - intros id h Hh. eapply health_seen_back; [exact D1 | done|]. by apply (dr_health _ _ _ _ D2).
  - intros k s Hs. destruct (dr_lane _ _ _ _ D1 _ _ Hs) as [Hs1|(m & Hm & ?)];
      [destruct (dr_lane _ _ _ _ D2 _ _ Hs1) as [?|(m & Hm & ?)]; [by left|]|];
      right; exists m; (split; [eapply in_run_widen; [exact Hm | lia | lia] | done]).
  - intros k. etrans; (eapply rtc_subrel; [|apply dr_breaker; [exact D1 || exact D2]]);
      intros ? ?; apply checked_in_widen; lia.
Qed.

(** A forced-open breaker stays so, and an open one leaves that state only once
    its wait has elapsed. *)
Lemma checked_in_blocking n n' b b' : rtc (checked_in n n') b b' -> is_blocking (bstate b') = false ->
  bstate b <> FORCED_OPEN /\
  (bstate b = OPEN -> exists m, in_run n n' m /\ (opened_at b + wait_seconds b <= mono m)%Q).
Proof.
  induction 1 as [b|b b1 b' (m & Hm & Hc) _ IH]; intros Hb.
  { by destruct (bstate b). }
  specialize (IH Hb). destruct Hc as [| b1 Hs He | b1 Hs Hw _ | b1 Hs _ _ _]; [done | | |].
  - by rewrite Hs.
  - split; [by rewrite Hs | eauto].
  - by rewrite Hs.
Qed.

(** *** The calls an evaluation makes *)

Lemma ticking_emit from to r : ticking (emit_transition (C:=unit) mono from to r).
Proof.
  unfold emit_transition, self_snapshot, publish_transition, self, upd. ticks; intros [b [c|]] k; unfold out_tick; simpl; lia.
Qed.
Lemma ticking_state b k : (S k <= out_tick (state mono (b, @None unit) k))%nat.
Proof.
  unfold state. apply ticking_after; [|intros _; unfold self; ticks]. unfold check_and_update_state.
  apply ticking_after; [done|]. intros now. unfold when, self, upd. ticks; first [apply ticking_emit | intros [? [?|]] ?; unfold out_tick; simpl; lia].
Qed.

Lemma on_health_get w n id p m : exists h w' n',
  on_health (health_get_or_create wall id p m) w n = (Ok h, w', n') /\ drift w n w' n' /\ health_seen id w n n' h.
Proof.
  unfold on_health, zoom, health_get_or_create. erewrite bind_ok by reflexivity. cbv beta.
  destruct (od_get id (snapshots (health_store w))) as [h|] eqn:E.
  - exists h, w, n. split; [by destruct w|]. split; [apply drift_refl | by left].
  - do 2 (erewrite bind_ok by reflexivity; cbv beta). eexists _, _, _. split; [reflexivity|].
    assert (health_seen id w n (S n) (new_snapshot id p m (wall n))) as Hs.
    { right. split; [done|]. exists p, m, n. unfold in_run. split; [lia | done]. }
    split; [|done]. split; simpl; [lia | done | | | by left | done].
    + intros id' h Hh. rewrite od_get_set_ne; [done|]. intros ->. congruence.
    + intros id' h. destruct (decide (id' = id)) as [->|Hne]; [rewrite od_get_set_eq; by intros [= <-]|].
      rewrite od_get_set_ne by done. by left.
Qed.

Lemma is_dead_run w n id p m : exists b w' n',
  is_dead wall id p m w n = (Ok b, w', n') /\ drift w n w' n' /\
  (b = false -> (id ∉ dead_list w) /\
    (truthy p = true -> truthy m = true -> provider_model p m ∉ dead_list w) /\
    exists h, health_seen id w n n' h /\ hs_is_dead h = false).
Proof.
  unfold is_dead. mstep. case_bool_decide as H1; [by exists true, w, n; split_and!; [|apply drift_refl|]|].
  destruct (truthy p && truthy m && bool_decide (provider_model p m ∈ dead_list w)) eqn:E;
    [by exists true, w, n; split_and!; [|apply drift_refl|]|].
  destruct (on_health_get w n id p m) as (h & w' & n' & Hg & Hd & Hs). erewrite bind_ok by exact Hg. cbv beta.
  exists (hs_is_dead h), w', n'. split_and!; [done | done|]. intros Hh. split; [done|]. split; [|by eauto].
  intros Hp Hm. rewrite Hp, Hm in E. simpl in E. by apply bool_decide_eq_false in E.
Qed.

Lemma hard_run {S} req p h (s : S) n : exists x n', matches_hard_constraints wall req p h s n = (Ok x, s, n') /\ (n <= n')%nat /\
  (x = None -> vector_wf req /\ satisfies (wall n) req p h).
Proof.
  assert (exists x n', (n <= n')%nat /\ forall T (t : T), matches_hard_constraints wall req p h t n = (Ok x, t, n')) as (x & n' & Hn & Hx).
  { unfold matches_hard_constraints. destruct (first_hit (static_checks req p)); [by eauto|].
    destruct (require_verified_capabilities req); eexists _, _; (split; [|intros T t; by mstep]); lia. }
  exists x, n'. split; [apply Hx|]. split; [done|]. intros ->. apply hard_constraints_exact. by rewrite Hx.
Qed.

Lemma lane_run w n lane : exists st w' n',
  (match lane with None => mret lane_up | Some k => on_lanes (lane_status wall k) end) w n = (Ok st, w', n') /\
  drift w n w' n' /\ (available st = true -> forall k, lane = Some k -> lane_seen_up k w n n').
Proof.
  destruct lane as [k|]; [|exists lane_up, w, n; by split_and!; [|apply drift_refl|]].
  unfold on_lanes, zoom, lane_status. erewrite bind_ok by reflexivity. cbv beta.
  destruct (od_get k (lane_store w)) as [s|] eqn:E.
  2: { exists lane_up, w, n. split_and!; [by destruct w | apply drift_refl|]. intros _ k' [= <-] s. by rewrite E. }
  erewrite bind_ok by reflexivity. cbv beta.
  assert (lane_is_available (wall n) s = true -> lane_seen_up k w n (S n)) as Hup.
  { intros Ha s' Hs'. exists n. rewrite E in Hs'. injection Hs' as <-. split; [unfold in_run; lia | done]. }
  destruct (lane_is_available (wall n) s) eqn:El.
  - destruct (available s); eexists _, _, _; (split; [reflexivity|]); (split; [|intros _ k' [= <-]; by apply Hup]).
    + apply drift_same; try done. lia.
    + split; simpl; [lia | done | done | by left | | done]. intros k' s' Hs'.
      destruct (decide (k' = k)) as [->|Hne]; [right; by apply Hup | left; by rewrite od_get_set_ne].
  - eexists _, _, _. split; [reflexivity|]. split; [apply drift_same; try done; lia|].
    intros Ha. unfold lane_is_available in El. by rewrite Ha in El.
Qed.

Lemma state_run w n key : exists st w' n',
  on_breakers (on_breaker key (state mono)) w n = (Ok st, w', n') /\ drift w n w' n' /\ (S n <= n')%nat /\
  exists b, checked_in n n' (breaker_at key w) b /\ bstate b = st.
Proof.
  unfold on_breakers, zoom, on_breaker.
  assert (get_or_create key None (breaker_registry w) n =
    (Ok (breaker_at key w), put_breaker key (breaker_at key w) (breaker_registry w), n) \/
    od_get key (breakers (breaker_registry w)) = Some (breaker_at key w) /\
    get_or_create key None (breaker_registry w) n = (Ok (breaker_at key w), breaker_registry w, n)) as Hg.
  { unfold get_or_create, breaker_at. mstep. destruct (od_get key _) as [b|] eqn:E; [by right | left; by mstep]. }
  destruct (state mono (breaker_at key w, None) n) as [[st w'] n'] eqn:Es.
  pose proof (ticking_state (breaker_at key w) n) as Ht. rewrite Es in Ht. unfold out_tick in Ht. simpl in Ht.
  unfold state in Es. destruct (check_spec mono (breaker_at key w, @None unit) n) as (w1 & n1 & Hc & Hck).
  erewrite bind_ok in Es by exact Hc. unfold self, gets in Es. injection Es as <- <- <-.
  assert (checked_in n n1 (breaker_at key w) (fst w1)) as Hin by (exists n; split; [unfold in_run; lia | done]).
  eexists (bstate (fst w1)), (with_breaker_registry (put_breaker key (fst w1) (snd (fst (get_or_create key None (breaker_registry w) n)))) w), n1.
  assert (state mono (breaker_at key w, None) n = (Ok (bstate (fst w1)), w1, n1)) as Es
    by (unfold state; by erewrite bind_ok by exact Hc).
  split; [destruct Hg as [->|[_ ->]]; by rewrite Es|]. split; [|by eauto].
  split; simpl; [lia | done | done | by left | by left|]. intros k. unfold breaker_at at 2. simpl.
  destruct (decide (k = key)) as [->|Hne]; [rewrite od_get_set_eq; by apply rtc_once|].
  rewrite od_get_set_ne by done. destruct Hg as [->|[_ ->]]; simpl; [|done]. by rewrite od_get_set_ne.
Qed.

Lemma warm_run w n id ph : exists b w' n',
  (match ph with Some ph => if truthy ph then on_cache (is_warm wall id ph None) else mret false | None => mret false end) w n
    = (Ok b, w', n') /\ drift w n w' n'.
Proof.
  destruct ph as [ph|]; [|exists false, w, n; split; [done | apply drift_refl]].
  destruct (truthy ph); [|exists false, w, n; split; [done | apply drift_refl]].
  unfold on_cache, zoom, is_warm. do 2 (erewrite bind_ok by reflexivity; cbv beta).
  destruct (od_get (id, ph) _) as [t|]; [destruct (t ⪯ wall n)|];
    (eexists _, _, _; split; [reflexivity|]; apply drift_same; try done; lia).
Qed.

Lemma estimate_run w n e task : exists q w' n', on_quality (estimate wall e task) w n = (Ok q, w', n') /\ drift w n w' n'.
Proof.
  unfold on_quality, zoom, estimate. erewrite bind_ok by reflexivity. cbv beta.
  destruct (od_get (ep_id e, task) (estimates (shadow_quality_policy w))) as [q|];
    (erewrite bind_ok by reflexivity; cbv beta); [destruct (is_current (wall n) q)|];
    (eexists _, _, _; split; [reflexivity|]; apply drift_same; try done; lia).
Qed.

(** *** Admission *)

Definition profile_of e w : ModelProfile :=
  match profile e with Some p => p | None => get_profile (ep_provider e) (ep_model e) (capability_registry w) end.

(** What an eligible endpoint satisfies in the state [w] in which the run began,
    at clock readings that the run, from [n] to [n'], makes. *)
Record admitted req (exclusions : list string) e w (n n' : nat) : Prop := {
  adm_not_excluded : ep_id e ∉ exclusions;
  adm_not_dead : (ep_id e ∉ dead_list w) /\
    (truthy (ep_provider e) = true -> truthy (ep_model e) = true ->
     provider_model (ep_provider e) (ep_model e) ∉ dead_list w);
  adm_health : exists h m1 m2, health_seen (ep_id e) w n n' h /\ hs_is_dead h = false /\
    in_run n n' m1 /\ is_quota_exhausted (wall m1) h = false /\
    in_run n n' m2 /\ vector_wf req /\ satisfies (wall m2) req (profile_of e w) h;
  adm_context : compatible (preflight_context (profile_of e w) (estimated_input_tokens req)
    (expected_output_tokens req) (safety_margin_tokens req) (allow_context_compaction req)) = true;
  adm_lane : forall k, lane_key e = Some k -> lane_seen_up k w n n';
  adm_breaker : let b := breaker_at (resource_key e) w in bstate b <> FORCED_OPEN /\
    (bstate b = OPEN -> exists m, in_run n n' m /\ (opened_at b + wait_seconds b <= mono m)%Q) /\
    exists b', tc (checked_in n n') b b' /\ is_blocking (bstate b') = false;
}.

Lemma tc_widen n n' n1 n1' b b' : (n <= n1)%nat -> (n1' <= n')%nat -> tc (checked_in n1 n1') b b' -> tc (checked_in n n') b b'.
Proof. intros ? ?. induction 1; eauto using tc_once, tc_l, checked_in_widen. Qed.

Lemma breaker_admits n n' b b' : tc (checked_in n n') b b' -> is_blocking (bstate b') = false ->
  bstate b <> FORCED_OPEN /\
  (bstate b = OPEN -> exists m, in_run n n' m /\ (opened_at b + wait_seconds b <= mono m)%Q) /\
  exists b', tc (checked_in n n') b b' /\ is_blocking (bstate b') = false.
Proof. intros Ht Hb. destruct (checked_in_blocking n n' b b' (tc_rtc _ _ Ht) Hb). eauto. Qed.

(** An admission later in a run is an admission by the whole run. *)
Lemma admitted_widen req ex e w n w1 n1 n2 n3 : drift w n w1 n1 -> (n1 <= n2)%nat -> (n2 <= n3)%nat ->
  admitted req ex e w1 n1 n2 -> admitted req ex e w n n3.
Proof.
  intros D H12 H23 [Hx Hd Hh Hc Hl Hb].
  assert (drift w1 n2 w1 n3) as D3 by by apply drift_same.
  destruct (dr_config _ _ _ _ D) as (Hreg & Hdead & _).
  assert (profile_of e w1 = profile_of e w) as Hp by (unfold profile_of; by rewrite Hreg).
  assert (forall m, in_run n1 n2 m -> in_run n n3 m) as Hin
    by (intros m Hm; eapply in_run_widen; [exact Hm | apply D | lia]).
  rewrite Hdead in Hd. rewrite Hp in *. split; [done | done | | done | |].
  - destruct Hh as (h & m1 & m2 & Hs & Hhd & Hm1 & Hq & Hm2 & Hwf & Hsat). exists h, m1, m2. split_and!; eauto.
    eapply health_seen_back; [exact D | lia|]. by eapply health_seen_later.
  - intros k Hk. eapply lane_seen_back; [exact D | lia|]. eapply lane_seen_later; [exact H23 | by apply Hl].
  - destruct Hb as (_ & _ & b' & Hb' & Hbl). apply (breaker_admits n n3 _ b'); [|done].
    eapply tc_rtc_l; [eapply rtc_subrel; [|apply (dr_breaker _ _ _ _ D)]|eapply tc_widen; [| |exact Hb']];
      [intros ? ?; apply checked_in_widen; [done | lia] | apply D | done].
Qed.

(** The snapshots read for the death mark and for the constraints are the same. *)
Lemma health_seen_live id w n n' h h' : health_seen id w n n' h -> hs_is_dead h = false ->
  health_seen id w n n' h' -> hs_is_dead h' = false.
Proof.
  intros [H1|[H1 _]] Hl [H2|(H2 & p & m & k & _ & ->)]; try done; congruence.
Qed.

(** An endpoint leaves the evaluation here. *)
Ltac leaves D := eexists _, _, _; split; [reflexivity|]; split; [exact D|]; by split.

Lemma evaluate_endpoint_spec req ex e w n :
  exists v w' n', evaluate_endpoint wall mono req ex e w n = (Ok v, w', n') /\ drift w n w' n' /\
    (ce_endpoint_id v = ep_id e /\ (eligible v = false -> exclusion_reason v <> None)) /\
    (eligible v = true -> admitted req ex e w n n').
Proof.
  unfold evaluate_endpoint. case_bool_decide as Hex; [leaves (drift_refl w n)|].
  destruct (is_dead_run w n (ep_id e) (ep_provider e) (ep_model e)) as (dead & w0 & n0 & Hd & D0 & Hdead).
  erewrite bind_ok by exact Hd. cbv beta.
  destruct (on_health_get w0 n0 (ep_id e) (ep_provider e) (ep_model e)) as (h & w1 & n1 & Hg & D1 & Hh).
  pose proof (drift_trans _ _ _ _ _ _ D0 D1) as D01.
  destruct dead; [erewrite bind_ok by exact Hg; leaves D01|].
  destruct (Hdead eq_refl) as (Hd1 & Hd2 & h0 & Hh0 & Hlive). clear Hdead.
  mstep. erewrite bind_ok by exact Hg. cbv beta. mstep.
  assert (profile_of e w0 = profile_of e w) as Hp by (unfold profile_of; by rewrite (proj1 (dr_config _ _ _ _ D0))).
  fold (profile_of e w0). rewrite Hp.
  assert (drift w n w1 (S n1)) as D2 by (eapply drift_trans; [exact D01 | apply drift_same; try done; lia]).
  destruct (is_quota_exhausted (wall n1) h) eqn:Eq; [leaves D2|].
  destruct (hard_run req (profile_of e w) h w1 (S n1)) as (x & n2 & Hm & Hn2 & Hsat).
  erewrite bind_ok by exact Hm. cbv beta.
  assert (drift w n w1 n2) as D3 by (eapply drift_trans; [exact D2 | by apply drift_same]).
  destruct x as [x|]; [leaves D3|]. cbv zeta.
  destruct (compatible (preflight_context (profile_of e w) _ _ _ _)) eqn:Ec; cbn [negb]; [|leaves D3].
  destruct (lane_run w1 n2 (lane_key e)) as (st & w4 & n4 & Hl & D4 & Hlane).
  pose proof (drift_trans _ _ _ _ _ _ D3 D4) as D04.
  erewrite bind_ok by exact Hl. cbv beta. destruct (available st) eqn:Ea; cbn [negb]; [|leaves D04].
  destruct (state_run w4 n4 (resource_key e)) as (bst & w5 & n5 & Hb & D5 & Hn5 & b & Hck & Hbst).
  pose proof (drift_trans _ _ _ _ _ _ D04 D5) as D05.
  erewrite bind_ok by exact Hb. cbv beta. destruct (is_blocking bst) eqn:Eb; [leaves D05|].
  edestruct warm_run as (wb & w6 & n6 & Hw & D6). erewrite bind_ok by exact Hw. cbv beta. mstep.
  edestruct estimate_run as (q & w7 & n7 & Hq & D7). erewrite bind_ok by exact Hq. cbv beta.
  pose proof (drift_trans _ _ _ _ _ _ D6 D7) as D67.
  eexists _, _, _. split; [reflexivity|]. split; [by eapply drift_trans|]. split; [by destruct q|]. intros _.
  pose proof (dr_ticks _ _ _ _ D0). pose proof (dr_ticks _ _ _ _ D1). pose proof (dr_ticks _ _ _ _ D4). pose proof (dr_ticks _ _ _ _ D67).
  destruct (Hsat eq_refl) as [Hwf Hs]. assert (health_seen (ep_id e) w n n7 h) as Hseen
    by (eapply health_seen_back; [exact D0 | lia|]; by eapply health_seen_later; [|exact Hh]; lia).
  split; [done | done | | done | |].
  - exists h, n1, (S n1). split_and!; try done; try (unfold in_run; lia).
    eapply health_seen_live; [|exact Hlive|exact Hseen]. eapply health_seen_later; [|exact Hh0]. lia.
  - intros k Hk. eapply lane_seen_back; [exact D3 | lia|]. eapply lane_seen_later; [|by apply Hlane]. lia.
  - apply (breaker_admits n n7 _ b); [|by rewrite Hbst].
    eapply tc_rtc_l; [eapply rtc_subrel; [|apply (dr_breaker _ _ _ _ D04)]|apply tc_once, (checked_in_widen n n7 n4 n5); [lia | lia | done]].
    intros ? ?. apply checked_in_widen; lia.
Qed.

Lemma evaluate_all_spec req ex es w n :
  exists cs w' n', evaluate_all wall mono req ex es w n = (Ok cs, w', n') /\ drift w n w' n' /\ map fst cs = es /\
    Forall (fun c => (ce_endpoint_id (snd c) = ep_id (fst c) /\ (eligible (snd c) = false -> exclusion_reason (snd c) <> None)) /\
      (eligible (snd c) = true -> admitted req ex (fst c) w n n')) cs.
Proof.
  revert w n. induction es as [|e es IH]; intros w n; simpl.
  - exists [], w, n. split; [done|]. split; [apply drift_refl | done].
  - destruct (evaluate_endpoint_spec req ex e w n) as (v & w1 & n1 & He & Hc & Hid & Hv).
    destruct (IH w1 n1) as (cs & w2 & n2 & Hcs & Hc2 & Hmap & Hall).
    erewrite bind_ok by exact He. cbv beta. erewrite bind_ok by exact Hcs. cbv beta.
    pose proof (dr_ticks _ _ _ _ Hc). pose proof (dr_ticks _ _ _ _ Hc2).
    exists ((e, v) :: cs), w2, n2. split; [done|]. split; [by eapply drift_trans|].
    split; [simpl; by rewrite Hmap|]. constructor.
    + simpl. split; [done|]. intros Hel. eapply admitted_widen; [apply drift_refl | | |by apply Hv]; done.
    + eapply Forall_impl; [exact Hall|]. intros c [Hcid Hadm]. split; [done|]. intros Hel.
      eapply admitted_widen; [exact Hc | | |by apply Hadm]; lia.
Qed.

(** *** Strategies *)

Lemma key_le_total a b : key_le a b = false -> key_le b a = true.
Proof.
  destruct a as [[t1 p1] s1], b as [[t2 p2] s2]. unfold key_le.
  rewrite orb_false_iff, orb_true_iff, !andb_false_iff, andb_true_iff, !orb_false_iff, orb_true_iff, !andb_false_iff,
    andb_true_iff, !Z.ltb_lt, !Z.eqb_eq, !Z.ltb_ge, !Z.eqb_neq, Qle_bool_false, Qle_bool_true.
  intros [H1 H2]. destruct (Z.eq_dec t1 t2); [right; split; [lia|] | left; lia].
  destruct (Z.eq_dec p1 p2); [right; split; [lia|] | left; lia].
  apply Qlt_le_weak. destruct H2 as [?|[? [?|?]]]; [lia | lia | done].
Qed.
Lemma key_le_trans a b c : key_le a b = true -> key_le b c = true -> key_le a c = true.
Proof.
  destruct a as [[t1 p1] s1], b as [[t2 p2] s2], c as [[t3 p3] s3]. unfold key_le.
  rewrite !orb_true_iff, !andb_true_iff, !orb_true_iff, !andb_true_iff, !Z.ltb_lt, !Z.eqb_eq, !Qle_bool_true.
  intros [?|[? [?|[? ?]]]] [?|[? [?|[? ?]]]]; try (left; lia); right; (split; [lia|]); try (left; lia).
  right. split; [lia|]. by eapply Qle_trans.
Qed.

Lemma desc_total f a b : desc f a b = false -> desc f b a = true.
Proof. unfold desc. intros. qbool. lra. Qed.
Lemma desc_trans f a b c : desc f a b = true -> desc f b c = true -> desc f a c = true.
Proof. unfold desc. intros. qbool. lra. Qed.

(** The order a strategy ranks candidates by; round robin has none. *)
Definition strategy_le (strat : string) req (a b : candidate) : bool :=
  if String.eqb strat "priority" then key_le (priority_key (5000 <? estimated_input_tokens req)%Z a)
                                            (priority_key (5000 <? estimated_input_tokens req)%Z b)
  else if String.eqb strat "latency_aware" then desc latency_score a b
  else if String.eqb strat "cost_aware" then desc cost_score a b
  else if String.eqb strat "reliability_aware" then desc health_score a b
  else desc final_score a b.

Lemma strategy_le_total s req a b : strategy_le s req a b = false -> strategy_le s req b a = true.
Proof. unfold strategy_le. repeat case_match; first [apply key_le_total | apply desc_total]. Qed.
Lemma strategy_le_trans s req a b c : strategy_le s req a b = true -> strategy_le s req b c = true -> strategy_le s req a c = true.
Proof. unfold strategy_le. repeat case_match; first [apply key_le_trans | apply desc_trans]. Qed.

Lemma sort_head_best {A} (le : A -> A -> bool) d (l : list A) :
  (forall x y, le x y = false -> le y x = true) -> (forall x y z, le x y = true -> le y z = true -> le x z = true) ->
  l <> [] -> let b := hd d (sort_by le l) in b ∈ l /\ forall c, c ∈ l -> c = b \/ le b c = true.
Proof.
  intros Htot Htr Hne b. pose proof (sort_by_perm le l) as Hp. pose proof (sort_by_heads le Htot Htr l) as Hh.
  unfold b. destruct (sort_by le l) as [|x s] eqn:E; [by apply Permutation_nil_l in Hp|]. simpl in *. split.
  - rewrite <- Hp. by left.
  - intros c Hc. rewrite <- Hp in Hc. apply elem_of_cons in Hc as [->|Hc]; [by left | right].
    rewrite Forall_forall in Hh. by apply Hh.
Qed.

Lemma choose_spec strat pool req first rest w n :
  let l := first :: rest in
  exists order sel w' n', choose strat pool req first rest w n = (Ok (order, fst sel), w', n') /\ n' = n /\
    order ≡ₚ l /\ sel ∈ l /\
    (strat <> "round_robin" -> w' = w /\ forall c, c ∈ l -> c = sel \/ strategy_le strat req sel c = true) /\
    (strat = "round_robin" ->
       let i := (default 0 (od_get pool (round_robin_indices w)) mod length l)%nat in
       sel = nth i l first /\ od_get pool (round_robin_indices w') = Some ((i + 1) mod length l)%nat).
Proof.
  intros l.
  pose proof (sort_head_best (strategy_le strat req) first l (strategy_le_total strat req) (strategy_le_trans strat req))
    as Hbest. specialize (Hbest ltac:(done)). cbv zeta in Hbest. destruct Hbest as [Hin Hbest].
  unfold choose. unfold strategy_le in Hin, Hbest |- *.
  destruct (String.eqb_spec strat "priority") as [->|Hp].
  { eexists _, _, _, _. split; [reflexivity|]. split; [done|]. split; [apply sort_by_perm|]. split; [exact Hin|]. by split. }
  destruct (String.eqb_spec strat "round_robin") as [->|Hr].
  { mstep. mstep. eexists _, _, _, _. split; [reflexivity|]. split; [done|]. split; [done|].
    split; [apply list_elem_of_In, nth_In, Nat.mod_upper_bound; done|]. split; [done|]. intros _.
    split; [done|]. simpl. by rewrite od_get_set_eq. }
  destruct (String.eqb strat "latency_aware"), (String.eqb strat "cost_aware"), (String.eqb strat "reliability_aware");
    (eexists _, _, _, _; split; [reflexivity|]; split; [done|]; split; [apply sort_by_perm|]; split; [exact Hin|]; by split).
Qed.

Lemma candidates_run es task p n : exists l p' n', quality_candidates wall es task p n = (Ok l, p', n') /\ (n <= n')%nat.
Proof.
  revert p n. induction es as [|e es IH]; intros p n; simpl; [by eexists _, _, _|].
  assert (exists q p1 n1, estimate wall e task p n = (Ok q, p1, n1) /\ (n <= n1)%nat) as (q & p1 & n1 & Hq & Hn1).
  { unfold estimate. mstep. destruct (od_get _ _) as [q|]; mstep; [destruct (is_current (wall n) q)|];
      (eexists _, _, _; split; [reflexivity | lia]). }
  erewrite bind_ok by exact Hq. cbv beta. mstep. destruct (IH p1 n1) as (l & p2 & n2 & Hl & Hn2).
  erewrite bind_ok by exact Hl. cbv beta. eexists _, _, _. split; [done | lia].
Qed.
Lemma recommend_run w n es task : exists r p n',
  on_quality (recommend wall es task) w n = (Ok r, with_quality_policy p w, n') /\ (n <= n')%nat.
Proof.
  unfold on_quality, zoom, recommend. destruct (candidates_run es task (shadow_quality_policy w) n) as (l & p & n' & Hl & Hn).
  erewrite bind_ok by exact Hl. eexists _, _, _. by split.
Qed.

(** A selection, step by step. *)
Lemma select_run req pool strat rid ex fb w n :
  let es := endpoints_for_pool pool (capability_registry w) in
  let st := str_or strat (default_strategy w) in
  exists cs r dec w' n', select_candidate wall mono req pool strat rid ex fb w n = (Ok (r, dec), w', n') /\
    map fst cs = es /\
    Forall (fun c => (ce_endpoint_id (snd c) = ep_id (fst c) /\ (eligible (snd c) = false -> exclusion_reason (snd c) <> None)) /\
      (eligible (snd c) = true -> admitted req ex (fst c) w n n')) cs /\
    selected_endpoint dec = r /\ strategy dec = st /\ total_considered dec = length es /\
    let elig := filter (fun c => eligible (snd c) = true) cs in
    total_eligible dec = length elig /\
    match r with
    | None => elig = [] /\ evaluated_candidates dec = map snd cs
    | Some e => exists order sel, e = fst sel /\ sel ∈ elig /\
        evaluated_candidates dec = assign_ranks order (map snd cs) /\
        (st <> "round_robin" -> forall c, c ∈ elig -> c = sel \/ strategy_le st req sel c = true)
    end.
Proof.
  intros es st. unfold select_candidate. mstep. fold es st.
  destruct (evaluate_all_spec req ex es w n) as (cs & w1 & n1 & He & Hd & Hmap & Hall).
  erewrite bind_ok by exact He. cbv beta.
  destruct (recommend_run w1 n1 es (task_class req)) as (sh & p & n2 & Hr & Hn). erewrite bind_ok by exact Hr. cbv beta zeta.
  assert (forall c : candidate, admitted req ex (fst c) w n n1 -> admitted req ex (fst c) w n n2) as Hlate
    by (intros c; apply (admitted_widen req ex (fst c) w n w n n1 n2); [apply drift_refl | apply Hd | done]).
  assert (Forall (fun c => (ce_endpoint_id (snd c) = ep_id (fst c) /\ (eligible (snd c) = false -> exclusion_reason (snd c) <> None)) /\
      (eligible (snd c) = true -> admitted req ex (fst c) w n n2)) cs) as Hall2
    by (eapply Forall_impl; [exact Hall|]; intros c [? Ha]; auto).
  destruct (filter (fun c => eligible (snd c) = true) cs) as [|first rest] eqn:Ef.
  - eexists cs, _, _, _, _. split; [reflexivity|]. rewrite Ef. by split_and!.
  - destruct (choose_spec st pool req first rest (with_quality_policy p w1) n2)
      as (order & sel & w2 & n3 & Hch & -> & Hperm & Hin & Hbest & _).
    erewrite bind_ok by exact Hch. cbv beta.
    eexists cs, _, _, _, _. split; [reflexivity|]. rewrite Ef. split_and!; try done.
    exists order, sel. split_and!; try done. intros Hst. by destruct (Hbest Hst).
Qed.

(** Assigning a rank changes nothing else. *)
Definition same_but_rank (v v0 : CandidateEvaluation) : Prop := v = v0 \/ exists k, v = with_rank k v0.

Lemma assign_ranks_elem order vs v : v ∈ assign_ranks order vs -> exists v0, v0 ∈ vs /\ same_but_rank v v0.
Proof.
  unfold assign_ranks. intros (v0 & -> & Hv0)%list_elem_of_fmap. exists v0. split; [done|].
  destruct (eligible v0); [|by left]. destruct (rank_in order (ce_endpoint_id v0)); [right; eauto | by left].
Qed.
Lemma assign_ranks_keep order vs v0 : v0 ∈ vs -> exists v, v ∈ assign_ranks order vs /\ same_but_rank v v0.
Proof.
  intros Hv0. eexists. split; [apply list_elem_of_fmap_2, Hv0|].
  destruct (eligible v0); [|by left]. destruct (rank_in order (ce_endpoint_id v0)); [right; eauto | by left].
Qed.
End router_props.

(** C8: routing is sound and total.  [select_candidate] always returns, with one
    evaluation per endpoint of the pool.  A selected endpoint belongs to the
    requested pool and was admissible in the very state the call started from, at
    clock readings the call itself makes: it is not excluded; neither its id nor its
    provider and model are on the dead list; its health record (the stored one, or a
    blank one if there was none) is not dead, not out of quota and satisfies every
    hard constraint of the request; it can hold the turn; its lane is marked
    available or the mark expired; its breaker is not forced open, an open one had
    its wait elapsed, and the state the automatic transition then left it in
    does not block.  When none is selected, every endpoint was excluded for a
    recorded reason. *)
Theorem selection_sound wall mono req pool strat rid ex fb w n :
  exists r dec w' n', select_candidate wall mono req pool strat rid ex fb w n = (Ok (r, dec), w', n') /\
    selected_endpoint dec = r /\
    length (evaluated_candidates dec) = length (endpoints_for_pool pool (capability_registry w)) /\
    match r with
    | Some e => e ∈ endpoints_for_pool pool (capability_registry w) /\ ep_pool e = pool /\
        admitted wall mono req ex e w n n'
    | None => Forall (fun v => eligible v = false /\ exclusion_reason v <> None) (evaluated_candidates dec)
    end.
Proof.
  destruct (select_run wall mono req pool strat rid ex fb w n)
    as (cs & r & dec & w' & n' & Hs & Hmap & Hall & Hsel & _ & _ & _ & Hr).
  exists r, dec, w', n'. split; [done|]. split; [done|]. rewrite <- Hmap, length_map.
  destruct r as [e|].
  - destruct Hr as (order & sel & -> & Hin & Hev & _). rewrite Hev. unfold assign_ranks. rewrite !length_map.
    split; [done|]. apply list_elem_of_filter in Hin as [Hel Hin].
    assert (fst sel ∈ endpoints_for_pool pool (capability_registry w)) as He
      by (rewrite <- Hmap; by apply list_elem_of_fmap_2).
    rewrite Hmap. split; [done|]. split; [by apply endpoints_for_pool_In in He as [? _]|].
    rewrite Forall_forall in Hall. by apply (Hall sel Hin).
  - destruct Hr as [Hnil Hev]. rewrite Hev, length_map. split; [done|].
    apply Forall_map, Forall_forall. intros c Hc. rewrite Forall_forall in Hall.
    destruct (eligible (snd c)) eqn:E; [|split; [done | by apply (Hall c Hc)]].
    exfalso. by apply (filter_nil_not_elem_of _ _ c Hnil).
Qed.

(** What a strategy maximises. *)
Definition strategy_metric (strat : string) : option (CandidateEvaluation -> Q) :=
  if String.eqb strat "priority" || String.eqb strat "round_robin" then None
  else if String.eqb strat "latency_aware" then Some latency_score
  else if String.eqb strat "cost_aware" then Some cost_score
  else if String.eqb strat "reliability_aware" then Some health_score
  else Some final_score.

Lemma strategy_metric_rank st f v v0 :
  strategy_metric st = Some f -> same_but_rank v v0 -> f v = f v0 /\ eligible v = eligible v0 /\ ce_endpoint_id v = ce_endpoint_id v0.
Proof.
  intros Hf [->|[k ->]]; [done|]. split; [|done]. revert Hf. unfold strategy_metric. repeat case_match; by intros [= <-].
Qed.

Lemma strategy_metric_le st f req a b :
  strategy_metric st = Some f -> strategy_le st req a b = true -> (f (snd b) <= f (snd a))%Q.
Proof.
  unfold strategy_metric, strategy_le, desc. destruct (String.eqb st "priority"); [done|].
  destruct (String.eqb st "round_robin"); [done|]. simpl.
  repeat case_match; intros [= <-] Hle; by qbool.
Qed.

(** The best candidate wins.  Under a scoring strategy the selected endpoint
    has an evaluation in the decision record whose score for that strategy is
    the largest among all eligible candidates. *)
Theorem selection_is_best wall mono req pool strat rid ex fb w n e dec w' n' f :
  select_candidate wall mono req pool strat rid ex fb w n = (Ok (Some e, dec), w', n') ->
  strategy_metric (strategy dec) = Some f ->
  exists v, v ∈ evaluated_candidates dec /\ ce_endpoint_id v = ep_id e /\ eligible v = true /\
    Forall (fun v' => eligible v' = true -> (f v' <= f v)%Q) (evaluated_candidates dec).
Proof.
  intros Hs Hf. destruct (select_run wall mono req pool strat rid ex fb w n)
    as (cs & r & dec' & w1 & n1 & Hs' & Hmap & Hall & Hsel & Hst & _ & _ & Hr).
  rewrite Hs in Hs'. injection Hs' as <- <- <- <-.
  destruct Hr as (order & sel & -> & Hin & Hev & Hbest). apply list_elem_of_filter in Hin as [Hel Hin].
  rewrite Hst in Hf. set (st := str_or strat (default_strategy w)) in *.
  assert (st <> "round_robin") as Hne by (intros Heq; rewrite Heq in Hf; discriminate).
  destruct (assign_ranks_keep order (map snd cs) (snd sel)) as (v & Hv & Hrank); [by apply list_elem_of_fmap_2|].
  destruct (strategy_metric_rank st f v (snd sel) Hf Hrank) as (Hfv & Hev1 & Hid).
  exists v. rewrite Hev. split; [done|]. rewrite Forall_forall in Hall.
  split; [rewrite Hid; by apply (Hall sel Hin)|]. split; [by rewrite Hev1|].
  apply Forall_forall. intros v' (v0 & (c & -> & Hc)%list_elem_of_fmap & Hr0)%assign_ranks_elem Hel'.
  destruct (strategy_metric_rank st f v' (snd c) Hf Hr0) as (Hfv' & Hev' & _). rewrite Hfv', Hfv.
  destruct (Hbest Hne c) as [->|Hb]; [apply list_elem_of_filter; by rewrite <- Hev' | apply Qle_refl|].
  by eapply strategy_metric_le.
Qed.

Definition demo_req : RequirementVector := default_requirements.
Definition demo_ep (id provider : string) : Endpoint :=
  {| ep_id := id; ep_provider := provider; ep_model := "m"; base_url := ""; ep_protocol := "openai";
     deployment := None; quota_bucket_id := None; env_key := None; env_keys := []; ep_headers := [];
     weight := 1; priority := 1; profile := None; ep_pool := "coding"; is_discovered := false; resource_lane := None |}.
Definition demo_router : CapabilityRouter :=
  new_router (register_endpoint (demo_ep "b" "groq") (register_endpoint (demo_ep "a" "openai") new_registry))
    (new_breaker_registry None) (new_health_store (1 # 5)).

Lemma selection_is_best_witness :
  exists e dec w' n' v,
    select_candidate Qnat Qnat demo_req "coding" None "r1" ["a"] None demo_router 0%nat = (Ok (Some e, dec), w', n') /\
    ep_id e = "b" /\ v ∈ evaluated_candidates dec /\ ce_endpoint_id v = "b" /\ eligible v = true.
Proof.
  destruct (select_candidate Qnat Qnat demo_req "coding" None "r1" ["a"] None demo_router 0%nat)
    as [[[[[e|] dec]|x] w'] n'] eqn:E; [|exfalso; vm_compute in E; discriminate E|exfalso; vm_compute in E; discriminate E].
  destruct (selection_is_best Qnat Qnat demo_req "coding" None "r1" ["a"] None demo_router 0%nat e dec w' n' final_score E)
    as (v & H1 & H2 & H3 & _).
  - vm_compute in E. injection E as <- <- <- <-. reflexivity.
  - exists e, dec, w', n', v. rewrite H2.
    assert (ep_id e = "b") as -> by (vm_compute in E; injection E as <- <- <- <-; reflexivity).
    repeat split; [exact H1 | exact H3].
Defined.
