(* ===== verification/Pools.v ===== *)
(** * Route pools

    [src/durallm/pools.py] ([load_all_env_keys], [RouteDefinition], the default
    routes, [IsolatedPoolManager]) and [env_flag] of [src/durallm/_env.py].

    The environment, the dotfiles and the quirks ledger are arguments: a variable
    is [None] when unset, a dotfile is the list of its lines.  The monotonic and
    the wall clock are two functions of the reading number. *)

From stdpp Require Import base tactics list gmap strings.
From Stdlib Require Import QArith Ascii.
From S2P Require Import Prelude PyText Utf8.

(** ** Keys from the environment *)

Section environment.
Context (getenv : string -> option string).

(** [_env.env_flag] *)
Definition env_flag (name : string) : bool :=
  let val := match getenv name with
    | None => if starts_with "DURALLM_" name then getenv ("LLM_BREAKER_" ++ str_drop 8 name)%string else None
    | Some v => Some v
    end in
  existsb (String.eqb (py_lower (ustrip (default "" val)))) ["1"; "true"; "yes"; "on"].

Definition SCAN_DOTFILES_ENV : string := "DURALLM_SCAN_DOTFILES".
Definition DEFAULT_TARGET_KEYS : list string :=
  ["NVIDIA_API_KEY"; "GROQ_API_KEY"; "OPENROUTER_API_KEY"; "SAMBANOVA_API_KEY"; "CEREBRAS_API_KEY"; "GEMINI_API_KEY"].

(** The variables of the process environment. *)
Definition env_key_step (keys : odict string string) (k : string) : odict string string :=
  match getenv k with
  | Some v => if truthy v then od_set k (ustrip v) keys else keys
  | None => keys
  end.

(** [s.strip(QUOTES)] with the double and the single quote. *)
Definition is_quote (c : ascii) : bool := ((code c =? 34) || (code c =? 39))%nat.
Fixpoint lstrip_quotes (s : string) : string :=
  match s with String c s' => if is_quote c then lstrip_quotes s' else s | EmptyString => s end.
Definition strip_quotes (s : string) : string := str_rev (lstrip_quotes (str_rev (lstrip_quotes s))).

(** [line.split("=", 1)] *)
Fixpoint split_eq (s : string) : option (string * string) :=
  match s with
  | EmptyString => None
  | String c s' => if (code c =? 61)%nat then Some (EmptyString, s')
                   else '(k, v) ← split_eq s'; Some (String c k, v)
  end.

(** One line of a dotfile. *)
Definition dotfile_line (target_keys : list string) (keys : odict string string) (raw : string) : odict string string :=
  let line := ustrip raw in
  let line := if starts_with "export " line then ustrip (str_drop 7 line) else line in
  match split_eq line with
  | Some (k, v) =>
      if starts_with "#" line then keys else
      let k := ustrip k in
      let v := strip_quotes (ustrip v) in
      if bool_decide (k ∈ target_keys) && negb (od_mem k keys) && truthy v then od_set k v keys else keys
  | None => keys
  end.

(** [dotfiles]: the lines of each candidate file that exists, in order. *)
Definition load_all_env_keys (dotfiles : list (list string)) (target_keys : option (list string)) (scan_dotfiles : option bool)
    : odict string string :=
  let scan := match scan_dotfiles with Some b => b | None => env_flag SCAN_DOTFILES_ENV end in
  let targets := default DEFAULT_TARGET_KEYS target_keys in
  let keys := foldl env_key_step [] targets in
  if scan then foldl (dotfile_line targets) keys (concat dotfiles) else keys.
End environment.

(** ** Routes *)

Record RouteDefinition : Type := {
  rt_id : string;
  rt_provider : string;
  rt_model : string;
  rt_pool : string;
  rt_base_url : string;
  rt_api_format : string;
  rt_env_key : option string;
  rt_env_keys : list string;
  rt_context_length : Z;
  rt_max_output_tokens : Z;
  rt_headers : list (string * string);
  rt_is_discovered : bool;
}.

Definition BROWSER_UA : string :=
  "Mozilla/5.0 (Macintosh; Intel Mac OS X 10_15_7) AppleWebKit/537.36 (KHTML, like Gecko) Chrome/124.0.0.0 Safari/537.36".

(** The fields the default tables write out. *)
Definition cloud_route (id provider model pool base_url env_key : string) (context_length max_output_tokens : Z) : RouteDefinition :=
  {| rt_id := id; rt_provider := provider; rt_model := model; rt_pool := pool; rt_base_url := base_url; rt_api_format := "openai";
     rt_env_key := Some env_key; rt_env_keys := []; rt_context_length := context_length; rt_max_output_tokens := max_output_tokens;
     rt_headers := [("User-Agent", BROWSER_UA)]; rt_is_discovered := false |}.

Definition DEFAULT_CODING_ROUTES : list RouteDefinition :=
  [cloud_route "groq-qwen36-coding" "groq" "qwen/qwen3.6-27b" "coding" "https://api.groq.com/openai/v1" "GROQ_API_KEY" 7000 950;
   cloud_route "groq-gpt-oss-coding" "groq" "openai/gpt-oss-120b" "coding" "https://api.groq.com/openai/v1" "GROQ_API_KEY" 7500 950;
   cloud_route "groq-gpt-oss-20b-coding" "groq" "openai/gpt-oss-20b" "coding" "https://api.groq.com/openai/v1" "GROQ_API_KEY" 7500 950;
   cloud_route "groq-llama33-coding" "groq" "llama-3.3-70b-versatile" "coding" "https://api.groq.com/openai/v1" "GROQ_API_KEY" 131072 8192;
   cloud_route "sambanova-qwen25-coding" "sambanova" "Qwen2.5-Coder-32B-Instruct" "coding" "https://api.sambanova.ai/v1" "SAMBANOVA_API_KEY" 65536 4096;
   cloud_route "sambanova-llama33-coding" "sambanova" "Meta-Llama-3.3-70B-Instruct" "coding" "https://api.sambanova.ai/v1" "SAMBANOVA_API_KEY" 65536 4096;
   cloud_route "cerebras-llama33-coding" "cerebras" "llama-3.3-70b" "coding" "https://api.cerebras.ai/v1" "CEREBRAS_API_KEY" 65536 4096;
   cloud_route "nvidia-llama33-coding" "nvidia" "meta/llama-3.3-70b-instruct" "coding" "https://integrate.api.nvidia.com/v1" "NVIDIA_API_KEY" 131072 4096;
   cloud_route "nvidia-gemma4-coding" "nvidia" "google/gemma-4-31b-it" "coding" "https://integrate.api.nvidia.com/v1" "NVIDIA_API_KEY" 131072 8192;
   cloud_route "nvidia-nemotron-coding" "nvidia" "nvidia/nemotron-3-ultra-550b-a55b" "coding" "https://integrate.api.nvidia.com/v1" "NVIDIA_API_KEY" 131072 8192;
   cloud_route "openrouter-qwen25-coding" "openrouter" "qwen/qwen-2.5-coder-32b-instruct:free" "coding" "https://openrouter.ai/api/v1" "OPENROUTER_API_KEY" 32768 4096;
   cloud_route "openrouter-gemma4-coding" "openrouter" "google/gemma-4-31b-it:free" "coding" "https://openrouter.ai/api/v1" "OPENROUTER_API_KEY" 262144 8192;
   cloud_route "openrouter-north-mini-coding" "openrouter" "cohere/north-mini-code:free" "coding" "https://openrouter.ai/api/v1" "OPENROUTER_API_KEY" 256000 8192;
   cloud_route "openrouter-nemotron-coding" "openrouter" "nvidia/nemotron-3-super-120b-a12b:free" "coding" "https://openrouter.ai/api/v1" "OPENROUTER_API_KEY" 262144 8192;
   cloud_route "openrouter-free-coding" "openrouter" "openrouter/free" "coding" "https://openrouter.ai/api/v1" "OPENROUTER_API_KEY" 200000 8192].

Definition DEFAULT_AGENT_ROUTES : list RouteDefinition :=
  [cloud_route "nvidia-llama32-agent" "nvidia" "meta/llama-3.2-11b-vision-instruct" "general_agent" "https://integrate.api.nvidia.com/v1" "NVIDIA_API_KEY" 131072 4096;
   cloud_route "groq-llama31-agent" "groq" "llama-3.1-8b-instant" "general_agent" "https://api.groq.com/openai/v1" "GROQ_API_KEY" 131072 4096;
   cloud_route "cerebras-llama31-agent" "cerebras" "llama3.1-8b" "general_agent" "https://api.cerebras.ai/v1" "CEREBRAS_API_KEY" 65536 4096;
   cloud_route "sambanova-llama33-agent" "sambanova" "Meta-Llama-3.3-70B-Instruct" "general_agent" "https://api.sambanova.ai/v1" "SAMBANOVA_API_KEY" 65536 4096;
   cloud_route "openrouter-nemotron-agent" "openrouter" "nvidia/nemotron-3-ultra-550b-a55b:free" "general_agent" "https://openrouter.ai/api/v1" "OPENROUTER_API_KEY" 131072 4096].

(** ** The pool manager *)

Abbreviation route_key := (string * string)%type.

Record IsolatedPoolManager : Type := {
  allowed_providers : option (list string);
  pm_keys : odict string string;
  coding_routes : list RouteDefinition;
  agent_routes : list RouteDefinition;
  coding_index : nat;
  agent_index : nat;
  cooldowns : odict route_key Q;
  deprecated : list route_key;
  exhausted_quotas : odict route_key Q;
  account_lockouts : odict string Q;
  last_success : odict string string;
  last_success_at : odict string Q;
}.

Definition STICKY_AFFINITY_SECONDS : Q := 120.

(** [__init__]; an empty set of providers means no restriction. *)
Definition new_pool_manager (allowed : option (list string)) (keys : odict string string) : IsolatedPoolManager :=
  {| allowed_providers := match allowed with Some (p :: ps) => Some (map py_lower (p :: ps)) | _ => None end;
     pm_keys := keys; coding_routes := DEFAULT_CODING_ROUTES; agent_routes := DEFAULT_AGENT_ROUTES;
     coding_index := 0; agent_index := 0; cooldowns := []; deprecated := []; exhausted_quotas := [];
     account_lockouts := []; last_success := []; last_success_at := [] |}.

Section setters.
Implicit Types s : IsolatedPoolManager.
Definition set_cooldowns c s : IsolatedPoolManager :=
  {| allowed_providers := allowed_providers s; pm_keys := pm_keys s; coding_routes := coding_routes s; agent_routes := agent_routes s;
     coding_index := coding_index s; agent_index := agent_index s; cooldowns := c; deprecated := deprecated s;
     exhausted_quotas := exhausted_quotas s; account_lockouts := account_lockouts s; last_success := last_success s;
     last_success_at := last_success_at s |}.
Definition set_quotas q s : IsolatedPoolManager :=
  {| allowed_providers := allowed_providers s; pm_keys := pm_keys s; coding_routes := coding_routes s; agent_routes := agent_routes s;
     coding_index := coding_index s; agent_index := agent_index s; cooldowns := cooldowns s; deprecated := deprecated s;
     exhausted_quotas := q; account_lockouts := account_lockouts s; last_success := last_success s;
     last_success_at := last_success_at s |}.
Definition set_lockouts l s : IsolatedPoolManager :=
  {| allowed_providers := allowed_providers s; pm_keys := pm_keys s; coding_routes := coding_routes s; agent_routes := agent_routes s;
     coding_index := coding_index s; agent_index := agent_index s; cooldowns := cooldowns s; deprecated := deprecated s;
     exhausted_quotas := exhausted_quotas s; account_lockouts := l; last_success := last_success s;
     last_success_at := last_success_at s |}.
Definition set_deprecated d s : IsolatedPoolManager :=
  {| allowed_providers := allowed_providers s; pm_keys := pm_keys s; coding_routes := coding_routes s; agent_routes := agent_routes s;
     coding_index := coding_index s; agent_index := agent_index s; cooldowns := cooldowns s; deprecated := d;
     exhausted_quotas := exhausted_quotas s; account_lockouts := account_lockouts s; last_success := last_success s;
     last_success_at := last_success_at s |}.
Definition set_success l t s : IsolatedPoolManager :=
  {| allowed_providers := allowed_providers s; pm_keys := pm_keys s; coding_routes := coding_routes s; agent_routes := agent_routes s;
     coding_index := coding_index s; agent_index := agent_index s; cooldowns := cooldowns s; deprecated := deprecated s;
     exhausted_quotas := exhausted_quotas s; account_lockouts := account_lockouts s; last_success := l;
     last_success_at := t |}.
Definition set_routes c a s : IsolatedPoolManager :=
  {| allowed_providers := allowed_providers s; pm_keys := pm_keys s; coding_routes := c; agent_routes := a;
     coding_index := coding_index s; agent_index := agent_index s; cooldowns := cooldowns s; deprecated := deprecated s;
     exhausted_quotas := exhausted_quotas s; account_lockouts := account_lockouts s; last_success := last_success s;
     last_success_at := last_success_at s |}.
Definition set_indices c a s : IsolatedPoolManager :=
  {| allowed_providers := allowed_providers s; pm_keys := pm_keys s; coding_routes := coding_routes s; agent_routes := agent_routes s;
     coding_index := c; agent_index := a; cooldowns := cooldowns s; deprecated := deprecated s;
     exhausted_quotas := exhausted_quotas s; account_lockouts := account_lockouts s; last_success := last_success s;
     last_success_at := last_success_at s |}.
Definition set_keys k s : IsolatedPoolManager :=
  {| allowed_providers := allowed_providers s; pm_keys := k; coding_routes := coding_routes s; agent_routes := agent_routes s;
     coding_index := coding_index s; agent_index := agent_index s; cooldowns := cooldowns s; deprecated := deprecated s;
     exhausted_quotas := exhausted_quotas s; account_lockouts := account_lockouts s; last_success := last_success s;
     last_success_at := last_success_at s |}.
End setters.

(** [self.coding_routes if pool == "coding" else self.agent_routes] *)
Definition is_coding (pool : string) : bool := String.eqb pool "coding".
Definition routes_of (pool : string) (s : IsolatedPoolManager) : list RouteDefinition :=
  if is_coding pool then coding_routes s else agent_routes s.
Definition key_of (pool route_id : string) : route_key := (py_lower pool, py_lower route_id).

Abbreviation PM := (M Empty_set IsolatedPoolManager).

Section manager.
Context (monotonic wall : nat -> Q).

(** [refresh_keys]: [keys] is what [load_all_env_keys] returns now. *)
Definition refresh_keys (keys : odict string string) : PM unit := modify (set_keys keys).

Definition mark_cooldown (pool route_id : string) (seconds : Q) : PM unit :=
  now ← read_clock monotonic;
  modify (fun s => set_cooldowns (od_set (key_of pool route_id) (now + seconds)%Q (cooldowns s)) s).

Definition mark_quota_exhausted (pool route_id : string) (seconds : Q) : PM unit :=
  now ← read_clock wall;
  modify (fun s => set_quotas (od_set (key_of pool route_id) (now + seconds)%Q (exhausted_quotas s)) s).

Definition same_provider (p : string) (r : RouteDefinition) : bool := String.eqb (py_lower (rt_provider r)) p.

Definition mark_provider_quota_exhausted (pool provider : string) (seconds : Q) : PM unit :=
  let p := py_lower provider in
  now ← read_clock wall;
  modify (fun s => set_lockouts (od_set p (now + seconds)%Q (account_lockouts s)) s) ;;
  rs ← gets (routes_of pool);
  for_each rs (fun r =>
    when (same_provider p r) (
      t ← read_clock wall;
      modify (fun s => set_quotas (od_set (key_of pool (rt_id r)) (t + seconds)%Q (exhausted_quotas s)) s))).

Definition matches_pool (pool : option string) (k : route_key) : bool :=
  match pool with None => true | Some p => String.eqb k.1 (py_lower p) end.

Definition clear_cooldown (route_id : string) (pool : option string) : PM unit :=
  let rid := py_lower route_id in
  modify (fun s => set_cooldowns (filter (fun kv => String.eqb kv.1.2 rid && matches_pool pool kv.1 = false) (cooldowns s)) s).

(** [now < d.get(k, 0.0)] *)
Definition until {K} `{EqDecision K} (k : K) (d : odict K Q) : Q := default 0%Q (od_get k d).

Definition is_route_in_cooldown (pool route_id : string) : PM bool :=
  now ← read_clock monotonic;
  s ← get;
  mret (now ≺ until (key_of pool route_id) (cooldowns s)).

Definition is_provider_in_cooldown (pool provider : string) : PM bool :=
  now ← read_clock monotonic;
  s ← get;
  mret (existsb (fun r => same_provider (py_lower provider) r && (now ≺ until (key_of pool (rt_id r)) (cooldowns s))) (routes_of pool s)).

Definition quota_locked (now : Q) (pool route_id : string) (provider : option string) (s : IsolatedPoolManager) : bool :=
  match provider with Some p => truthy p && (now ≺ until (py_lower p) (account_lockouts s)) | None => false end
  || (now ≺ until (key_of pool route_id) (exhausted_quotas s)).
Definition is_route_quota_exhausted (pool route_id : string) (provider : option string) : PM bool :=
  now ← read_clock wall;
  gets (quota_locked now pool route_id provider).

Definition is_provider_quota_exhausted (provider : string) : PM bool :=
  now ← read_clock wall;
  gets (fun s => now ≺ until (py_lower provider) (account_lockouts s)).

Definition auto_expire_cooldowns (pool : option string) : PM unit :=
  now_mono ← read_clock monotonic;
  now_epoch ← read_clock wall;
  modify (fun s => set_cooldowns (filter (fun kv => matches_pool pool kv.1 && (kv.2 ⪯ now_mono) = false) (cooldowns s)) s) ;;
  modify (fun s => set_quotas (filter (fun kv => matches_pool pool kv.1 && (kv.2 ⪯ now_epoch) = false) (exhausted_quotas s)) s) ;;
  modify (fun s => set_lockouts (filter (fun kv => (kv.2 ⪯ now_epoch) = false) (account_lockouts s)) s).

Definition mark_deprecated (pool model : string) : PM unit :=
  modify (fun s => let k := key_of pool model in
                   if bool_decide (k ∈ deprecated s) then s else set_deprecated (k :: deprecated s) s).

(** The checks of a route that do not depend on time. *)
Definition configured (pool : string) (s : IsolatedPoolManager) (r : RouteDefinition) : bool :=
  match allowed_providers s with None => true | Some ps => bool_decide (py_lower (rt_provider r) ∈ ps) end
  && match rt_env_key r with
     | Some k => negb (truthy k) || truthy (ustrip (default "" (od_get k (pm_keys s))))
     | None => true
     end
  && negb (bool_decide (key_of pool (rt_model r) ∈ deprecated s)).

(** The body of the candidate loop, in the order of its [continue]s. *)
Definition admits (pool : string) (now_mono : Q) (r : RouteDefinition) : PM bool :=
  s ← get;
  if negb (configured pool s r) then mret false else
  locked ← is_route_quota_exhausted pool (rt_id r) (Some (rt_provider r));
  if (locked : bool) then mret false else
  mret (negb (now_mono ≺ until (key_of pool (rt_id r)) (cooldowns s))).

Fixpoint filter_m {A} (f : A -> PM bool) (l : list A) : PM (list A) :=
  match l with
  | [] => mret []
  | x :: l' => b ← f x; rest ← filter_m f l'; mret (if (b : bool) then x :: rest else rest)
  end.

Definition get_candidate_routes (pool : string) : PM (list RouteDefinition) :=
  auto_expire_cooldowns (Some pool) ;;
  rs ← gets (routes_of pool);
  now_mono ← read_clock monotonic;
  filter_m (admits pool now_mono) rs.

Definition record_route_success (pool route_id : string) : PM unit :=
  now ← read_clock monotonic;
  let p := py_lower pool in
  modify (fun s => set_success (od_set p (py_lower route_id) (last_success s)) (od_set p now (last_success_at s)) s).

(** [min(d.keys(), key=lambda k: d[k])]: the first key of the least value. *)
Fixpoint oldest_from (best : route_key * Q) (l : list (route_key * Q)) : route_key :=
  match l with
  | [] => best.1
  | kv :: l' => oldest_from (if kv.2 ≺ best.2 then kv else best) l'
  end.
Definition oldest_cooldown (pool : string) (s : IsolatedPoolManager) : option route_key :=
  match filter (fun kv => kv.1.1 = py_lower pool) (cooldowns s) with
  | [] => None
  | kv :: l => Some (oldest_from kv l)
  end.

Definition pool_index (pool : string) (s : IsolatedPoolManager) : nat := if is_coding pool then coding_index s else agent_index s.
Definition set_pool_index (pool : string) (i : nat) (s : IsolatedPoolManager) : IsolatedPoolManager :=
  if is_coding pool then set_indices i (agent_index s) s else set_indices (coding_index s) i s.

Definition sticky_route (pool : string) (now : Q) (s : IsolatedPoolManager) (candidates : list RouteDefinition) : option RouteDefinition :=
  let p := py_lower pool in
  match od_get p (last_success s) with
  | Some last_id =>
      if truthy last_id && (now - until p (last_success_at s) ≺ STICKY_AFFINITY_SECONDS)
      then find (fun r => String.eqb (py_lower (rt_id r)) last_id) candidates
      else None
  | None => None
  end.

Definition round_robin (pool : string) (candidates : list RouteDefinition) : PM (option RouteDefinition) :=
  s ← get;
  let n := length candidates in
  modify (set_pool_index pool ((pool_index pool s + 1) mod n)) ;;
  mret (candidates !! (pool_index pool s mod n)%nat).

(** The clock is only read when there is a recorded success. *)
Definition choose_route (pool : string) (candidates : list RouteDefinition) : PM (option RouteDefinition) :=
  s ← get;
  match od_get (py_lower pool) (last_success s) with
  | Some last_id =>
      if truthy last_id then
        now ← read_clock monotonic;
        match sticky_route pool now s candidates with
        | Some r => mret (Some r)
        | None => round_robin pool candidates
        end
      else round_robin pool candidates
  | None => round_robin pool candidates
  end.

Definition select_route (pool : string) : PM (option RouteDefinition) :=
  first ← get_candidate_routes pool;
  candidates ← match first with
    | [] =>
        s ← get;
        match oldest_cooldown pool s with
        | Some k => modify (fun s => set_cooldowns (od_pop k (cooldowns s)) s) ;; get_candidate_routes pool
        | None => mret first
        end
    | _ => mret first
    end;
  match candidates with
  | [] => mret None
  | _ => choose_route pool candidates
  end.

Definition add_discovered_route (pool : string) (route : RouteDefinition) : PM unit :=
  modify (fun s =>
    if bool_decide (rt_id route ∈ map rt_id (routes_of pool s)) then s
    else if is_coding pool then set_routes (coding_routes s ++ [route]) (agent_routes s) s
    else set_routes (coding_routes s) (agent_routes s ++ [route]) s).

(** ** The quirks ledger *)

Record QuirkModel : Type := {
  qm_status : option string;
  qm_pool : option string;
  qm_context_window : option Z;
  qm_max_output_tokens : option Z;
}.
Record QuirkProvider : Type := {
  qp_base_url : option string;
  qp_auth_env : option string;
  qp_models : odict string QuirkModel;
}.

(** [s.replace("/", "-")] *)
Fixpoint slash_to_dash (s : string) : string :=
  match s with
  | EmptyString => EmptyString
  | String c s' => String (if (code c =? 47)%nat then chr 45 else c) (slash_to_dash s')
  end.

Definition ledger_route (prov_name : string) (p : QuirkProvider) (model_id pool_name : string) (m : QuirkModel) : RouteDefinition :=
  {| rt_id := (prov_name ++ "-ledger-" ++ slash_to_dash model_id)%string; rt_provider := prov_name; rt_model := model_id;
     rt_pool := pool_name; rt_base_url := default "" (qp_base_url p); rt_api_format := "openai";
     rt_env_key := Some (default "" (qp_auth_env p)); rt_env_keys := [];
     rt_context_length := default 65536%Z (qm_context_window m); rt_max_output_tokens := default 4096%Z (qm_max_output_tokens m);
     rt_headers := []; rt_is_discovered := true |}.

Definition load_quirk_model (prov_name : string) (p : QuirkProvider) (mm : string * QuirkModel) : PM unit :=
  let '(model_id, m) := mm in
  let status := default "active" (qm_status m) in
  let pool_name := default "coding" (qm_pool m) in
  if String.eqb status "deprecated" then mark_deprecated pool_name model_id
  else if String.eqb status "active" then add_discovered_route pool_name (ledger_route prov_name p model_id pool_name m)
  else mret tt.

(** [load_from_quirks_ledger]: the providers of the ledger file, or [None] when
    there is no file. *)
Definition load_from_quirks_ledger (ledger : option (odict string QuirkProvider)) : PM unit :=
  match ledger with
  | None => mret tt
  | Some providers => for_each providers (fun '(name, p) => for_each (qp_models p) (load_quirk_model name p))
  end.
End manager.
