(* ===== verification/PoolsProps.v ===== *)
(** * Properties of the pool manager

    Which routes are candidates, what [select_route] returns, how far the pools
    are isolated from each other, and which of the executor's notifications
    reach the manager's tables. *)

From stdpp Require Import base tactics list gmap strings.
From Stdlib Require Import QArith Lqa Ascii.
From S2P Require Import Prelude PyText Utf8 Pools.

(** A route may be used at monotonic time [tm] and wall time [tw]. *)
Definition eligible (tm tw : Q) (pool : string) (s : IsolatedPoolManager) (r : RouteDefinition) : bool :=
  configured pool s r && negb (quota_locked tw pool (rt_id r) (Some (rt_provider r)) s)
  && negb (tm ≺ until (key_of pool (rt_id r)) (cooldowns s)).

Definition monotone (clk : nat -> Q) : Prop := forall i j, (i <= j)%nat -> (clk i <= clk j)%Q.

Lemma Qltb_mono a b x : (a <= b)%Q -> (b ≺ x) = true -> (a ≺ x) = true.
Proof. intros. qbool. lra. Qed.

Lemma quota_locked_mono a b pool i p s : (a <= b)%Q -> quota_locked b pool i p s = true -> quota_locked a pool i p s = true.
Proof.
  intros Hab. unfold quota_locked. rewrite !orb_true_iff. intros [H|H]; [left | right; by eapply Qltb_mono].
  destruct p; [|done]. rewrite andb_true_iff in *. destruct H as [-> H]. split; [done | by eapply Qltb_mono].
Qed.

(** Expiry only removes entries that block nothing from now on. *)
Lemma until_filter {K} `{EqDecision K} (P : K * Q -> Prop) `{!forall x, Decision (P x)} (d : odict K Q) k now t :
  od_wf d -> (forall k v, (k, v) ∈ d -> ~ P (k, v) -> (v <= now)%Q) -> (now <= t)%Q -> (0 <= t)%Q ->
  (t ≺ until k (filter P d)) = (t ≺ until k d).
Proof.
  intros Hwf Hd Ht H0. unfold until. destruct (od_get k d) as [v|] eqn:E.
  - apply od_get_In in E as Hin. destruct (decide (P (k, v))) as [HP|HP].
    + rewrite (od_In_get (filter P d) k v); [done | | by apply list_elem_of_filter].
      eapply od_wf_sublist; [apply sublist_filter | done].
    + rewrite (proj2 (od_get_None (filter P d) k)).
      * cbn. specialize (Hd k v Hin HP). transitivity false; [|symmetry]; apply Qltb_false; lra.
      * intros Hk. apply list_elem_of_fmap in Hk as ([k' v'] & Hk & [HP' Hin']%list_elem_of_filter). cbn in Hk. subst k'.
        rewrite (od_In_get d k v') in E by done. congruence.
  - rewrite (proj2 (od_get_None (filter P d) k)); [done|]. apply od_get_None in E. intros Hk. apply E.
    apply list_elem_of_fmap in Hk as (kv & -> & [_ Hin]%list_elem_of_filter). apply list_elem_of_fmap. by exists kv.
Qed.

(** Every table has one entry per key. *)
Definition pm_wf (s : IsolatedPoolManager) : Prop :=
  od_wf (cooldowns s) /\ od_wf (exhausted_quotas s) /\ od_wf (account_lockouts s).

Lemma wf_filter {K V} `{EqDecision K} (P : K * V -> Prop) `{!forall x, Decision (P x)} (d : odict K V) : od_wf d -> od_wf (filter P d).
Proof. apply od_wf_sublist, sublist_filter. Qed.

Section manager_props.
Context (monotonic wall : nat -> Q).
Abbreviation candidates_of := (get_candidate_routes monotonic wall).

(** The tables after expiry at [tm], [tw]. *)
Definition after_expiry (pool : option string) (tm tw : Q) (s : IsolatedPoolManager) : IsolatedPoolManager :=
  set_lockouts (filter (fun kv => (kv.2 ⪯ tw) = false) (account_lockouts s))
  (set_quotas (filter (fun kv => matches_pool pool kv.1 && (kv.2 ⪯ tw) = false) (exhausted_quotas s))
  (set_cooldowns (filter (fun kv => matches_pool pool kv.1 && (kv.2 ⪯ tm) = false) (cooldowns s)) s)).

Lemma expire_runs pool s n :
  auto_expire_cooldowns monotonic wall pool s n = (Ok tt, after_expiry pool (monotonic n) (wall (S n)) s, S (S n)).
Proof. reflexivity. Qed.

Lemma after_expiry_wf pool tm tw s : pm_wf s -> pm_wf (after_expiry pool tm tw s).
Proof. intros (? & ? & ?). split_and!; by apply wf_filter. Qed.

Lemma not_and_false (a b : bool) : ~ (a && b = false) -> b = true.
Proof. destruct a, b; try done; intros H; by destruct H. Qed.

Lemma after_expiry_quota pool q i p tm tw tw' s : pm_wf s -> (tw <= tw')%Q -> (0 <= tw')%Q ->
  quota_locked tw' q i p (after_expiry pool tm tw s) = quota_locked tw' q i p s.
Proof.
  intros (_ & H2 & H3) Hw H0'. unfold quota_locked, after_expiry. cbn [exhausted_quotas account_lockouts set_cooldowns set_quotas set_lockouts].
  rewrite (until_filter _ (exhausted_quotas s) _ tw tw'); [|done | |done..].
  - destruct p; [|done]. rewrite (until_filter _ (account_lockouts s) _ tw tw'); try done.
    intros k v _ Hv. cbn in Hv. destruct (v ⪯ tw) eqn:E; [by qbool | done].
  - intros k v _ Hv%not_and_false. by qbool.
Qed.

Lemma after_expiry_eligible pool q tm tw tm' tw' s r : pm_wf s -> (tm <= tm')%Q -> (tw <= tw')%Q -> (0 <= tm')%Q -> (0 <= tw')%Q ->
  eligible tm' tw' q (after_expiry pool tm tw s) r = eligible tm' tw' q s r.
Proof.
  intros Hwf Hm Hw H0 H0'. unfold eligible. rewrite after_expiry_quota by done. unfold after_expiry. cbn [cooldowns set_cooldowns set_quotas set_lockouts].
  change (configured q (set_lockouts _ _) r) with (configured q s r).
  rewrite (until_filter _ (cooldowns s) _ tm tm'); try done; [apply Hwf|]. intros k v _ Hv%not_and_false. by qbool.
Qed.

(** The loop over the routes: its state is unchanged, and each route is judged
    at a reading between the first and the last. *)
Lemma filter_m_spec {A} (f : A -> PM bool) l s n l' s' n' :
  (forall x k, exists b k', f x s k = (Ok b, s, k') /\ (k <= k')%nat) ->
  filter_m f l s n = (Ok l', s', n') ->
  s' = s /\ (n <= n')%nat /\ sublist l' l /\
  Forall (fun x => exists k k', (n <= k)%nat /\ (k' <= n')%nat /\ f x s k = (Ok true, s, k')) l' /\
  (forall x, x ∈ l -> x ∈ l' \/ exists k k', (n <= k)%nat /\ (k' <= n')%nat /\ f x s k = (Ok false, s, k')).
Proof.
  intros Hf. revert n l' s' n'. induction l as [|x l IH]; intros n l' s' n' H; cbn [filter_m] in H.
  { injection H as <- <- <-. split_and!; [done | lia | done | constructor | by intros x ?%not_elem_of_nil]. }
  apply bind_inv in H as (b & s1 & n1 & H1 & H). apply bind_inv in H as (rest & s2 & n2 & H2 & H).
  destruct (Hf x n) as (b' & k' & E & Hk). rewrite E in H1. injection H1 as <- <- <-. injection H as <- <- <-.
  destruct (IH _ _ _ _ H2) as (-> & Hn & Hsub & Hall & Hex).
  assert (Forall (fun x => exists k k', (n <= k)%nat /\ (k' <= n2)%nat /\ f x s k = (Ok true, s, k')) rest) as Hall'.
  { eapply Forall_impl; [exact Hall|]. intros y (k & k2 & ? & ? & ?). exists k, k2. split_and!; [lia | done..]. }
  split_and!; [done | lia | destruct b'; by constructor | |].
  - destruct b'; [constructor; [|done] | done]. exists n, k'. by split_and!.
  - intros y [-> | Hy]%elem_of_cons.
    + destruct b'; [left; left | right; exists n, k'; by split_and!].
    + destruct (Hex y Hy) as [?|(k & k2 & ? & ? & ?)]; [left; destruct b'; [by right | done] | right].
      exists k, k2. split_and!; [lia | done..].
Qed.

Lemma quota_runs pool i p s k : is_route_quota_exhausted wall pool i p s k = (Ok (quota_locked (wall k) pool i p s), s, S k).
Proof. reflexivity. Qed.

Lemma admits_runs pool tm r s k : exists b k', admits wall pool tm r s k = (Ok b, s, k') /\ (k <= k')%nat /\
  (b = true -> eligible tm (wall k) pool s r = true /\ (k < k')%nat) /\ (eligible tm (wall k) pool s r = true -> b = true).
Proof.
  unfold admits, eligible. mstep. destruct (configured pool s r) eqn:Ec; cbn [negb andb].
  2: { eexists _, _. split_and!; [reflexivity | lia | done | done]. }
  erewrite bind_ok by (apply quota_runs). cbv beta.
  destruct (quota_locked (wall k) pool (rt_id r) (Some (rt_provider r)) s) eqn:Eq; cbn [negb andb].
  - eexists _, _. split_and!; [reflexivity | lia | done | done].
  - eexists _, _. split_and!; [reflexivity | lia | intros ->; split; [done | lia] | by intros ->].
Qed.

(** Candidates, for clocks that do not run backwards: each is eligible when the
    call ends, and every route eligible when it starts is one. *)
Definition good_clock (clk : nat -> Q) : Prop := monotone clk /\ forall i, (0 <= clk i)%Q.
Context (Hmono : good_clock monotonic) (Hwall : good_clock wall).

Lemma eligible_mono a b c d pool s r : (a <= b)%Q -> (c <= d)%Q -> eligible a c pool s r = true -> eligible b d pool s r = true.
Proof.
  intros Ha Hc. unfold eligible. rewrite !andb_true_iff, !negb_true_iff. intros [[-> H1] H2]. split_and!; [done|..].
  - apply not_true_iff_false. intros H. apply (quota_locked_mono c d) in H; [congruence | done].
  - qbool. lra.
Qed.

Lemma candidates_spec pool s n l s' n' : pm_wf s -> candidates_of pool s n = (Ok l, s', n') ->
  s' = after_expiry (Some pool) (monotonic n) (wall (S n)) s /\ (S n <= n')%nat /\ sublist l (routes_of pool s) /\
  (forall r, r ∈ l -> eligible (monotonic n') (wall n') pool s r = true) /\
  (forall r, r ∈ routes_of pool s -> eligible (monotonic n) (wall n) pool s r = true -> r ∈ l).
Proof.
  destruct Hmono as [Hm Hm0], Hwall as [Hw Hw0]. intros Hwf H.
  unfold get_candidate_routes in H. rewrite (bind_ok _ _ _ _ _ _ _ (expire_runs _ _ _)) in H.
  set (s1 := after_expiry (Some pool) (monotonic n) (wall (S n)) s) in *.
  unfold mbind at 1, M_bind at 1, gets in H. unfold mbind at 1, M_bind at 1, read_clock in H.
  change (routes_of pool s1) with (routes_of pool s) in H.
  apply filter_m_spec in H as (-> & Hn & Hsub & Hall & Hex).
  2: { intros x k. destruct (admits_runs pool (monotonic (S (S n))) x s1 k) as (b & k' & ? & ? & _). eauto. }
  split_and!; [done | lia | done | |].
  - intros r Hr. rewrite Forall_forall in Hall. destruct (Hall r Hr) as (k & k' & Hk & Hk' & E).
    destruct (admits_runs pool (monotonic (S (S n))) r s1 k) as (b & k2 & E2 & _ & Hb & _). rewrite E in E2. injection E2 as <- <-.
    destruct (Hb eq_refl) as [He Hlt].
    rewrite <- (after_expiry_eligible (Some pool) pool (monotonic n) (wall (S n))) by (done || (apply Hm; lia) || (apply Hw; lia)).
    eapply eligible_mono; [| |exact He]; [apply Hm; lia | apply Hw; lia].
  - intros r Hr He. destruct (Hex r Hr) as [?|(k & k' & Hk & Hk' & E)]; [done|]. exfalso.
    destruct (admits_runs pool (monotonic (S (S n))) r s1 k) as (b & k2 & E2 & _ & _ & Hb). rewrite E in E2. injection E2 as <- <-.
    enough (false = true) by done. apply Hb.
    unfold s1. rewrite (after_expiry_eligible (Some pool) pool (monotonic n) (wall (S n))) by (done || (apply Hm; lia) || (apply Hw; lia)).
    eapply eligible_mono; [| |exact He]; [apply Hm; lia | apply Hw; lia].
Qed.

Lemma candidates_total pool s n : exists l s' n', candidates_of pool s n = (Ok l, s', n').
Proof.
  unfold get_candidate_routes. rewrite (bind_ok _ _ _ _ _ _ _ (expire_runs _ _ _)).
  set (s1 := after_expiry _ _ _ s). unfold mbind at 1, M_bind at 1, gets. unfold mbind at 1, M_bind at 1, read_clock.
  generalize (monotonic (S (S n))), (S (S (S n))), (routes_of pool s1). intros tm k rs. revert k.
  induction rs as [|r rs IH]; intros k; cbn [filter_m]; [by eexists _, _, _|].
  destruct (admits_runs pool tm r s1 k) as (b & k' & E & _). destruct (IH k') as (l & s2 & n2 & E2).
  erewrite bind_ok by exact E. cbv beta. erewrite bind_ok by exact E2. by eexists _, _, _.
Qed.

(** A nonempty list of candidates yields one of them, the recently successful
    one when it is among them. *)
Lemma choose_route_runs pool cs s n : cs <> [] -> exists r s' n', choose_route monotonic pool cs s n = (Ok (Some r), s', n') /\
  r ∈ cs /\ (n <= n')%nat /\
  (forall id r0, od_get (py_lower pool) (last_success s) = Some id -> truthy id = true ->
     (monotonic n - until (py_lower pool) (last_success_at s) < STICKY_AFFINITY_SECONDS)%Q ->
     r0 ∈ cs -> py_lower (rt_id r0) = id -> py_lower (rt_id r) = id).
Proof.
  intros Hcs. assert (exists r s', round_robin pool cs s n = (Ok (Some r), s', n) /\ r ∈ cs) as (rr & srr & Err & Hrr).
  { assert (pool_index pool s mod length cs < length cs)%nat as Hlt by (apply Nat.mod_upper_bound; by destruct cs).
    destruct (lookup_lt_is_Some_2 cs _ Hlt) as [r Hr]. unfold round_robin. mstep. mstep. rewrite Hr. eexists _, _.
    split; [reflexivity | by eapply list_elem_of_lookup_2]. }
  assert (forall m, exists s', round_robin pool cs s m = (Ok (Some rr), s', m)) as Hany.
  { intros m. unfold round_robin in *. repeat (mstep; revert Err; mstep; intros Err). eexists.
    injection Err as Err _. rewrite Err. reflexivity. }
  unfold choose_route. mstep. destruct (od_get (py_lower pool) (last_success s)) as [id|] eqn:Eid.
  2: { destruct (Hany n) as [s' E]. exists rr, s', n. split_and!; [exact E | done | lia | done]. }
  destruct (truthy id) eqn:Et.
  2: { destruct (Hany n) as [s' E]. exists rr, s', n. split_and!; [exact E | done | lia | intros; congruence]. }
  mstep. unfold sticky_route. rewrite Eid, Et. cbn [andb].
  destruct (Qltb (monotonic n - until (py_lower pool) (last_success_at s)) STICKY_AFFINITY_SECONDS) eqn:Eq.
  - destruct (find _ cs) as [r|] eqn:Ef.
    + apply List.find_some in Ef as [Hin Hid%String.eqb_eq]. eexists r, _, _.
      split_and!; [reflexivity | by apply list_elem_of_In | lia | congruence].
    + destruct (Hany (S n)) as [s' E]. exists rr, s', (S n). split_and!; [exact E | done | lia|].
      intros id' r0 [= <-] _ _ Hin Hid. pose proof (List.find_none _ _ Ef r0 ltac:(by apply list_elem_of_In)) as Hne.
      cbn in Hne. by rewrite Hid, String.eqb_refl in Hne.
  - destruct (Hany (S n)) as [s' E]. exists rr, s', (S n). split_and!; [exact E | done | lia|].
    intros id' r0 _ _ Hlt. qbool. lra.
Qed.

(** What [select_route] returns. *)
Definition selected (pool : string) (s : IsolatedPoolManager) (n n' : nat) (o : option RouteDefinition) : Prop :=
  let startable r := r ∈ routes_of pool s /\ eligible (monotonic n) (wall n) pool s r = true in
  match o with
  | None => forall r, ~ startable r
  | Some r =>
      r ∈ routes_of pool s /\ configured pool s r = true /\
      quota_locked (wall n') pool (rt_id r) (Some (rt_provider r)) s = false /\
      ((exists r0, startable r0) -> eligible (monotonic n') (wall n') pool s r = true) /\
      (forall r0, startable r0 -> od_get (py_lower pool) (last_success s) = Some (py_lower (rt_id r0)) -> truthy (py_lower (rt_id r0)) = true ->
         (monotonic n' - until (py_lower pool) (last_success_at s) < STICKY_AFFINITY_SECONDS)%Q -> py_lower (rt_id r) = py_lower (rt_id r0))
  end.

Lemma eligible_parts tm tw pool s r : eligible tm tw pool s r = true ->
  configured pool s r = true /\ quota_locked tw pool (rt_id r) (Some (rt_provider r)) s = false.
Proof. unfold eligible. rewrite !andb_true_iff, !negb_true_iff. by intros [[? ?] ?]. Qed.

Lemma select_first pool s n cs s1 n1 : pm_wf s -> candidates_of pool s n = (Ok cs, s1, n1) -> cs <> [] ->
  exists o s' n', select_route monotonic wall pool s n = (Ok o, s', n') /\ (n <= n')%nat /\ selected pool s n n' o.
Proof.
  destruct Hmono as [Hm Hm0], Hwall as [Hw Hw0].
  intros Hwf Ec Hne. destruct (candidates_spec _ _ _ _ _ _ Hwf Ec) as (-> & Hn & Hsub & Hsound & Hall).
  destruct (choose_route_runs pool cs (after_expiry (Some pool) (monotonic n) (wall (S n)) s) n1 Hne) as (r & s' & n' & E & Hr & Hn' & Hstick).
  exists (Some r), s', n'. split_and!; [|lia|].
  - unfold select_route. erewrite bind_ok by exact Ec. cbv beta. destruct cs; [done|]. by mstep.
  - assert (r ∈ routes_of pool s) as Hin by (by eapply elem_of_sublist).
    assert (eligible (monotonic n') (wall n') pool s r = true) as He.
    { eapply eligible_mono; [| |by apply Hsound]; [apply Hm; lia | apply Hw; lia]. }
    destruct (eligible_parts _ _ _ _ _ He). split_and!; try done.
    intros r0 [Hr0 He0] Hid Ht Hfresh. eapply Hstick; [exact Hid | exact Ht | | by apply Hall | done].
    eapply Qle_lt_trans; [|exact Hfresh]. apply Qplus_le_compat; [apply Hm; lia | apply Qle_refl].
Qed.

Lemma select_none pool s n s1 n1 : pm_wf s -> candidates_of pool s n = (Ok [], s1, n1) ->
  exists o s' n', select_route monotonic wall pool s n = (Ok o, s', n') /\ (n <= n')%nat /\ selected pool s n n' o.
Proof.
  destruct Hmono as [Hm Hm0], Hwall as [Hw Hw0].
  intros Hwf Ec. destruct (candidates_spec _ _ _ _ _ _ Hwf Ec) as (-> & Hn & _ & _ & Hall).
  set (s1 := after_expiry (Some pool) (monotonic n) (wall (S n)) s) in *.
  assert (forall r, ~ (r ∈ routes_of pool s /\ eligible (monotonic n) (wall n) pool s r = true)) as Hno.
  { intros r [Hr He]. by apply (Hall r), not_elem_of_nil in He. }
  unfold select_route. setoid_rewrite (bind_ok _ _ _ _ _ _ _ Ec). cbv beta.
  destruct (oldest_cooldown pool s1) as [k|] eqn:Eo.
  2: { exists None, s1, n1. split_and!; [|lia | done]. erewrite bind_ok by (mstep; rewrite Eo; reflexivity). done. }
  set (s2 := set_cooldowns (od_pop k (cooldowns s1)) s1).
  destruct (candidates_total pool s2 n1) as (cs & s3 & n3 & Ec2).
  assert (pm_wf s2) as Hwf2.
  { pose proof (after_expiry_wf (Some pool) (monotonic n) (wall (S n)) s Hwf) as (? & ? & ?). split_and!; [by apply od_wf_pop | done..]. }
  destruct (candidates_spec _ _ _ _ _ _ Hwf2 Ec2) as (-> & Hn3 & Hsub & Hsound & _).
  assert (forall X (m : list RouteDefinition -> PM X), mbind m (s ← get; match oldest_cooldown pool s with
     | Some k => modify (fun s => set_cooldowns (od_pop k (cooldowns s)) s) ;; candidates_of pool
     | None => mret [] end) s1 n1 = m cs (after_expiry (Some pool) (monotonic n1) (wall (S n1)) s2) n3) as Hstep.
  { intros X m. apply bind_ok. mstep. rewrite Eo. mstep. exact Ec2. }
  rewrite Hstep. destruct cs as [|c cs]; [by exists None, (after_expiry (Some pool) (monotonic n1) (wall (S n1)) s2), n3; split_and!; [|lia|]|].
  destruct (choose_route_runs pool (c :: cs) (after_expiry (Some pool) (monotonic n1) (wall (S n1)) s2) n3) as (r & s' & n' & E & Hr & Hn' & _); [done|].
  exists (Some r), s', n'. split_and!; [exact E | lia|].
  assert (eligible (monotonic n') (wall n') pool s2 r = true) as He.
  { eapply eligible_mono; [| |by apply Hsound]; [apply Hm; lia | apply Hw; lia]. }
  destruct (eligible_parts _ _ _ _ _ He) as [H1 H2]. cbn [selected]. split_and!.
  - by eapply (elem_of_sublist (c :: cs)).
  - exact H1.
  - erewrite <- (after_expiry_quota (Some pool) _ _ _ (monotonic n) (wall (S n))); [exact H2 | done | apply Hw; lia | done].
  - intros [r0 Hr0]. by destruct (Hno r0).
  - intros r0 Hr0. by destruct (Hno r0).
Qed.
End manager_props.

(** ** Theorems *)

(** C36: with clocks that do not run backwards, [select_route] always returns.  A
    returned route belongs to the pool, passes the provider, key and deprecation
    checks and is not locked out by a quota when the call ends; if any route was
    eligible at the start, the returned one is not in cooldown either, and a
    route that succeeded less than 120 seconds ago is preferred.  Nothing is
    returned only if no route was eligible. *)
Theorem select_route_correct monotonic wall pool s n :
  good_clock monotonic -> good_clock wall -> pm_wf s ->
  exists o s' n', select_route monotonic wall pool s n = (Ok o, s', n') /\ (n <= n')%nat /\ selected monotonic wall pool s n n' o.
Proof.
  intros Hm Hw Hwf. destruct (candidates_total monotonic wall pool s n) as ([|c cs] & s1 & n1 & E).
  - by eapply select_none.
  - by eapply select_first.
Qed.

Definition tick_clock (n : nat) : Q := Qnat n.
Lemma tick_clock_good : good_clock tick_clock.
Proof. split; [intros i j Hij; by apply Qnat_le | apply Qnat_nonneg]. Qed.
Definition demo_manager : IsolatedPoolManager := new_pool_manager None [("GROQ_API_KEY", "k1"); ("NVIDIA_API_KEY", "k2")].
Lemma select_route_correct_witness :
  exists o s' n', select_route tick_clock tick_clock "coding" demo_manager 0%nat = (Ok o, s', n') /\ (0 <= n')%nat /\
    selected tick_clock tick_clock "coding" demo_manager 0 n' o.
Proof.
  apply (select_route_correct tick_clock tick_clock "coding" demo_manager 0 tick_clock_good tick_clock_good).
  split_and!; apply od_wf_nil.
Defined.

(** ** Isolation *)

(** The operations addressed to one pool. *)
Inductive pool_op : Type :=
| OpCooldown (route_id : string) (seconds : Q)
| OpQuota (route_id : string) (seconds : Q)
| OpDeprecate (model : string)
| OpSuccess (route_id : string)
| OpClear (route_id : string)
| OpExpire
| OpCandidates
| OpSelect.

Definition run_op (monotonic wall : nat -> Q) (pool : string) (op : pool_op) : PM unit :=
  match op with
  | OpCooldown i sec => mark_cooldown monotonic pool i sec
  | OpQuota i sec => mark_quota_exhausted wall pool i sec
  | OpDeprecate m => mark_deprecated pool m
  | OpSuccess i => record_route_success monotonic pool i
  | OpClear i => clear_cooldown i (Some pool)
  | OpExpire => auto_expire_cooldowns monotonic wall (Some pool)
  | OpCandidates => _ ← get_candidate_routes monotonic wall pool; mret tt
  | OpSelect => _ ← select_route monotonic wall pool; mret tt
  end.

(** What pool [q] depends on. *)
Definition same_view (q : string) (s s' : IsolatedPoolManager) : Prop :=
  allowed_providers s' = allowed_providers s /\ pm_keys s' = pm_keys s /\
  coding_routes s' = coding_routes s /\ agent_routes s' = agent_routes s /\
  (forall i, od_get (key_of q i) (cooldowns s') = od_get (key_of q i) (cooldowns s)) /\
  (forall i, od_get (key_of q i) (exhausted_quotas s') = od_get (key_of q i) (exhausted_quotas s)) /\
  (forall m, key_of q m ∈ deprecated s' <-> key_of q m ∈ deprecated s) /\
  od_get (py_lower q) (last_success s') = od_get (py_lower q) (last_success s) /\
  od_get (py_lower q) (last_success_at s') = od_get (py_lower q) (last_success_at s) /\
  pool_index q s' = pool_index q s.

Lemma same_view_refl q s : same_view q s s.
Proof. by split_and!. Qed.
Lemma same_view_trans q s1 s2 s3 : same_view q s1 s2 -> same_view q s2 s3 -> same_view q s1 s3.
Proof.
  intros (?&?&?&?&H5&H6&H7&?&?&?) (?&?&?&?&H5'&H6'&H7'&?&?&?).
  split_and!; intros; first [congruence | by rewrite H5', H5 | by rewrite H6', H6 | by rewrite H7', H7].
Qed.

Lemma od_get_filter_other {K} `{EqDecision K} (P : K * Q -> Prop) `{!forall x, Decision (P x)} (d : odict K Q) k :
  (forall v, P (k, v)) -> od_get k (filter P d) = od_get k d.
Proof.
  intros HP. induction d as [|[k' v'] d IH]; [done|]. rewrite filter_cons. case_decide as Hd; simpl.
  - case_decide; [done | exact IH].
  - case_decide; [by subst; destruct Hd | exact IH].
Qed.

Section isolation.
Context (monotonic wall : nat -> Q) (p q : string).
Context (Hpq : py_lower p <> py_lower q) (Hc : is_coding p <> is_coding q).

Lemma key_other i j : key_of q i <> key_of p j.
Proof. unfold key_of. intros [= E _]. by destruct Hpq. Qed.
Lemma matches_other i : matches_pool (Some p) (key_of q i) = false.
Proof. apply String.eqb_neq. cbn. congruence. Qed.

Lemma view_expired tm tw s : same_view q s (after_expiry (Some p) tm tw s).
Proof.
  split_and!; try done; intros i; unfold after_expiry; cbn [cooldowns exhausted_quotas set_cooldowns set_quotas set_lockouts];
    apply od_get_filter_other; intros v; cbn [fst]; by rewrite matches_other.
Qed.

(** Every assignment of the manager's methods, made for [p], leaves [q] alone. *)
Definition keeps_view {A} (m : PM A) : Prop := forall s n, same_view q s (out_st (m s n)).
Lemma keeps_ret {A} (a : A) : keeps_view (mret a).
Proof. intros s n. apply same_view_refl. Qed.
Lemma keeps_bind {A B} (m : PM A) (k : A -> PM B) : keeps_view m -> (forall a, keeps_view (k a)) -> keeps_view (mbind k m).
Proof.
  intros Hm Hk s n. specialize (Hm s n). unfold mbind, M_bind, out_st in *. destruct (m s n) as [[[a|[]] s1] n1].
  eapply same_view_trans; [exact Hm | apply Hk].
Qed.
Lemma keeps_modify f : (forall s, same_view q s (f s)) -> keeps_view (modify f).
Proof. intros H s n. apply H. Qed.
Lemma keeps_clock clk : keeps_view (read_clock clk).
Proof. intros s n. apply same_view_refl. Qed.
Lemma keeps_get : keeps_view get.
Proof. intros s n. apply same_view_refl. Qed.
Lemma keeps_gets {A} (f : IsolatedPoolManager -> A) : keeps_view (gets f).
Proof. intros s n. apply same_view_refl. Qed.

Ltac keeps := repeat first
  [ apply keeps_bind; [|intros ?] | apply keeps_ret | apply keeps_clock | apply keeps_get | apply keeps_gets
  | apply keeps_modify; intros ? ].

Lemma keeps_candidates : keeps_view (get_candidate_routes monotonic wall p).
Proof.
  unfold get_candidate_routes. apply keeps_bind; [intros s n; rewrite expire_runs; apply view_expired | intros _].
  apply keeps_bind; [apply keeps_gets | intros rs]. apply keeps_bind; [apply keeps_clock | intros tm].
  induction rs as [|r rs IH]; [apply keeps_ret|]. cbn [filter_m]. apply keeps_bind; [|intros b; apply keeps_bind; [exact IH | intros; apply keeps_ret]].
  unfold admits, is_route_quota_exhausted. apply keeps_bind; [apply keeps_get | intros s]. destruct (negb _); [apply keeps_ret|].
  apply keeps_bind; [keeps|]. intros []; apply keeps_ret.
Qed.

Lemma view_index i s : same_view q s (set_pool_index p i s).
Proof.
  unfold set_pool_index. split_and!; destruct (is_coding p) eqn:E; try done;
    unfold pool_index; destruct (is_coding q) eqn:E'; done.
Qed.

Lemma keeps_select : keeps_view (select_route monotonic wall p).
Proof.
  assert (forall cs, keeps_view (round_robin p cs)) as Hrr by (intros cs; unfold round_robin; keeps; apply view_index).
  unfold select_route. apply keeps_bind; [apply keeps_candidates | intros first]. apply keeps_bind.
  - destruct first; [|apply keeps_ret]. apply keeps_bind; [apply keeps_get | intros s].
    destruct (oldest_cooldown p s) as [k|] eqn:Eo; [|apply keeps_ret]. apply keeps_bind; [|intros _; apply keeps_candidates].
    apply keeps_modify. intros s'. assert (k.1 = py_lower p) as Hk.
    { unfold oldest_cooldown in Eo. destruct (filter _ (cooldowns s)) as [|kv l] eqn:Ef; [done|].
      assert (Forall (fun kv => kv.1.1 = py_lower p) (kv :: l)) as Hall.
      { rewrite <- Ef. apply Forall_forall. by intros x [? _]%list_elem_of_filter. }
      injection Eo as <-. clear Ef. revert kv Hall. induction l as [|kv2 l IH]; intros kv Hall.
      - by apply Forall_cons in Hall as [? _].
      - cbn [oldest_from]. apply IH. rewrite !Forall_cons in *. destruct Hall as (? & ? & ?). by destruct (_ ≺ _). }
    split_and!; try done. intros i. cbn. apply od_get_pop_ne. intros <-. cbn in Hk. by destruct Hpq.
  - intros [|c cs]; [apply keeps_ret|]. unfold choose_route. apply keeps_bind; [apply keeps_get | intros s].
    destruct (od_get _ _); [|apply Hrr]. destruct (truthy _); [|apply Hrr].
    apply keeps_bind; [apply keeps_clock | intros now]. destruct (sticky_route _ _ _ _); [apply keeps_ret | apply Hrr].
Qed.

Lemma keeps_op op : keeps_view (run_op monotonic wall p op).
Proof.
  destruct op; cbn [run_op].
  - unfold mark_cooldown. keeps. split_and!; try done. intros i. apply od_get_set_ne, key_other.
  - unfold mark_quota_exhausted. keeps. split_and!; try done. intros i. apply od_get_set_ne, key_other.
  - unfold mark_deprecated. keeps. case_bool_decide; [apply same_view_refl|]. split_and!; try done. intros m'.
    cbn. rewrite elem_of_cons. split; [intros [E|?]; [by destruct (key_other m' model) | done] | by right].
  - unfold record_route_success. keeps. split_and!; try done; apply od_get_set_ne; congruence.
  - unfold clear_cooldown. keeps. split_and!; try done. intros i. apply od_get_filter_other. intros v. cbn [fst].
    rewrite matches_other. apply andb_false_r.
  - intros s n. rewrite expire_runs. apply view_expired.
  - apply keeps_bind; [apply keeps_candidates | intros; apply keeps_ret].
  - apply keeps_bind; [apply keeps_select | intros; apply keeps_ret].
Qed.
End isolation.

(** Pools do not disturb each other.  Any sequence of cooldowns, quota
    lockouts, deprecations, recorded successes, expiries and selections for one
    pool leaves the routes, cooldowns, route quotas, deprecations, affinity and
    rotation index of the other as they were. *)
Theorem pools_isolated monotonic wall p q ops s n :
  py_lower p <> py_lower q -> is_coding p <> is_coding q ->
  same_view q s (out_st (for_each ops (run_op monotonic wall p) s n)).
Proof.
  intros Hpq Hc. revert s n. induction ops as [|op ops IH]; intros s n; [apply same_view_refl|]. cbn [for_each].
  apply (keeps_bind q); [by apply keeps_op | intros _ s' n'; apply IH].
Qed.

Lemma pools_isolated_witness :
  same_view "general_agent" demo_manager
    (out_st (for_each [OpCooldown "groq-llama33-coding" 60; OpDeprecate "m"; OpSelect] (run_op tick_clock tick_clock "coding") demo_manager 0%nat)).
Proof. apply (pools_isolated tick_clock tick_clock "coding" "general_agent"); vm_compute; congruence. Defined.

Lemma lockout_runs wall pool provider seconds s n :
  exists s' n', mark_provider_quota_exhausted wall pool provider seconds s n = (Ok tt, s', n') /\ (n < n')%nat /\
    od_get (py_lower provider) (account_lockouts s') = Some (wall n + seconds)%Q.
Proof.
  unfold mark_provider_quota_exhausted. mstep. mstep. mstep.
  set (s1 := set_lockouts _ s).
  assert (od_get (py_lower provider) (account_lockouts s1) = Some (wall n + seconds)%Q) as H1 by apply od_get_set_eq.
  generalize (routes_of pool s1). intros rs. generalize dependent s1. assert (n < S n)%nat as Hn by lia. revert Hn. generalize (S n). induction rs as [|r rs IH]; intros k Hk s1 H1; cbn [for_each].
  - exists s1, k. by split_and!.
  - destruct (same_provider _ r); cbn [when].
    + erewrite bind_ok by (mstep; reflexivity). cbv beta. apply IH; [lia | exact H1].
    + erewrite bind_ok by reflexivity. cbv beta. by apply IH.
Qed.

(** An account-wide quota lockout crosses pools.  After the provider's
    account is exhausted in one pool, its routes are ineligible in every pool
    until the lockout ends, although the pools are announced as independent. *)
Theorem provider_lockout_crosses_pools wall pool provider seconds s n q r tm tw :
  py_lower (rt_provider r) = py_lower provider -> truthy (rt_provider r) = true -> (tw < wall n + seconds)%Q ->
  eligible tm tw q (out_st (mark_provider_quota_exhausted wall pool provider seconds s n)) r = false.
Proof.
  intros Hp Ht Htw. destruct (lockout_runs wall pool provider seconds s n) as (s' & n' & -> & _ & H).
  unfold out_st. cbn [fst snd]. unfold eligible, quota_locked. rewrite Ht, Hp. unfold until at 1. rewrite H. cbn [default from_option].
  apply Qltb_true in Htw. unfold id. rewrite Htw. cbn [andb orb negb]. by rewrite andb_false_r.
Qed.

Lemma provider_lockout_crosses_pools_witness :
  eligible 0 5 "general_agent" (out_st (mark_provider_quota_exhausted tick_clock "coding" "Groq" 60 demo_manager 0%nat))
    (cloud_route "groq-llama31-agent" "groq" "llama-3.1-8b-instant" "general_agent" "u" "GROQ_API_KEY" 131072 4096) = false.
Proof. apply provider_lockout_crosses_pools; [reflexivity | reflexivity | vm_compute; reflexivity]. Defined.

(** A cooldown takes effect on the routes of its pool with its identifier, and
    on no others. *)
Lemma cooldown_effect monotonic pool i seconds s n r tm tw :
  let s' := out_st (mark_cooldown monotonic pool i seconds s n) in
  eligible tm tw pool s' r =
  if decide (py_lower (rt_id r) = py_lower i) then
    configured pool s r && negb (quota_locked tw pool (rt_id r) (Some (rt_provider r)) s) && negb (tm ≺ monotonic n + seconds)
  else eligible tm tw pool s r.
Proof.
  intros s'. change s' with (set_cooldowns (od_set (key_of pool i) (monotonic n + seconds)%Q (cooldowns s)) s).
  unfold eligible, until. cbn [cooldowns set_cooldowns]. rewrite od_get_set_cases. unfold key_of.
  destruct (decide (py_lower (rt_id r) = py_lower i)) as [E|E].
  - rewrite decide_True by (by rewrite E). reflexivity.
  - rewrite decide_False by (intros [= E']; done). reflexivity.
Qed.

(** ** Fairness *)

Section fairness.
Context (monotonic wall : nat -> Q) (Hmono : forall k, (0 <= monotonic k)%Q) (Hwall : forall k, (0 <= wall k)%Q) (pool : string).
Implicit Types s : IsolatedPoolManager.

(** A pool in which nothing failed and nothing succeeded yet, and its usable routes. *)
Definition quiet s : Prop :=
  cooldowns s = [] /\ exhausted_quotas s = [] /\ account_lockouts s = [] /\ od_get (py_lower pool) (last_success s) = None.
Definition usable_routes s : list RouteDefinition := List.filter (configured pool s) (routes_of pool s).

Lemma quiet_expired tm tw s : quiet s -> after_expiry (Some pool) tm tw s = s.
Proof. intros (H1 & H2 & H3 & _). unfold after_expiry. destruct s. cbn in *. by subst. Qed.
Lemma quiet_admits tm r s k : (0 <= tm)%Q -> quiet s -> exists k', admits wall pool tm r s k = (Ok (configured pool s r), s, k').
Proof.
  intros Ht (H1 & H2 & H3 & _). unfold admits. mstep. destruct (configured pool s r); cbn [negb]; [|by eexists].
  erewrite bind_ok by apply quota_runs. cbv beta. unfold quota_locked, until. rewrite H1, H2, H3. cbn. specialize (Hwall k).
  destruct (wall k ≺ 0) eqn:E1; qbool; [lra|]. destruct (tm ≺ 0) eqn:E2; qbool; [lra|]. rewrite ?andb_false_r. by eexists.
Qed.
Lemma quiet_filter tm rs s k : (0 <= tm)%Q -> quiet s ->
  exists k', filter_m (admits wall pool tm) rs s k = (Ok (List.filter (configured pool s) rs), s, k').
Proof.
  intros Ht Hq. revert k. induction rs as [|r rs IH]; intros k; cbn [filter_m]; [by eexists|].
  destruct (quiet_admits tm r s k Ht Hq) as [k1 E1]. destruct (IH k1) as [k2 E2].
  erewrite bind_ok by exact E1. cbv beta. erewrite bind_ok by exact E2. cbn. by eexists.
Qed.
Lemma quiet_select s n : quiet s -> usable_routes s <> [] ->
  exists n', select_route monotonic wall pool s n =
    (Ok (usable_routes s !! (pool_index pool s mod length (usable_routes s))%nat),
     set_pool_index pool ((pool_index pool s + 1) mod length (usable_routes s)) s, n').
Proof.
  intros Hq Hne. assert (exists k, get_candidate_routes monotonic wall pool s n = (Ok (usable_routes s), s, k)) as [k Hk].
  { unfold get_candidate_routes. erewrite bind_ok by apply expire_runs. cbv beta. rewrite quiet_expired by done. mstep. mstep. by apply quiet_filter. }
  unfold select_route. erewrite bind_ok by exact Hk. cbv beta. destruct (usable_routes s) as [|r rs] eqn:Er; [done|]. mstep.
  exists k. unfold choose_route. mstep. destruct Hq as (_ & _ & _ & ->). unfold round_robin. by mstep; mstep.
Qed.

(** [k] selections in a row. *)
Fixpoint select_times (k : nat) : PM (list (option RouteDefinition)) :=
  match k with O => mret [] | S k' => r ← select_route monotonic wall pool; rs ← select_times k'; mret (r :: rs) end.
Lemma quiet_index i s : quiet s -> quiet (set_pool_index pool i s) /\ usable_routes (set_pool_index pool i s) = usable_routes s /\ pool_index pool (set_pool_index pool i s) = i.
Proof. intros Hq. unfold set_pool_index, pool_index, usable_routes, routes_of, quiet in *. by destruct (is_coding pool) eqn:E. Qed.
Lemma select_times_spec k s n : quiet s -> usable_routes s <> [] ->
  out_res (select_times k s n) = Ok (map (fun j => usable_routes s !! ((pool_index pool s + j) mod length (usable_routes s))%nat) (seq 0 k)).
Proof.
  intros Hq Hne. revert s n Hq Hne. induction k as [|k IH]; intros s n Hq Hne; [done|]. cbn [select_times].
  destruct (quiet_select s n Hq Hne) as [n' E]. erewrite bind_ok by exact E. cbv beta.
  set (len := length (usable_routes s)) in *. set (s' := set_pool_index pool ((pool_index pool s + 1) mod len) s) in *.
  destruct (quiet_index ((pool_index pool s + 1) mod len) s Hq) as (Hq' & Hu & Hi). fold s' in Hq', Hu, Hi.
  specialize (IH s' n' Hq' ltac:(by rewrite Hu)). unfold mbind, M_bind. destruct (select_times k s' n') as [[[rs|e] s2] n2]; [|done].
  cbn in IH |- *. injection IH as ->. rewrite Hu, Hi. fold len. do 2 f_equal; [by rewrite Nat.add_0_r|].
  rewrite <- seq_shift, map_map. apply map_ext. intros j. f_equal.
  assert (len <> 0)%nat by (unfold len; by destruct (usable_routes s)). rewrite Nat.Div0.add_mod_idemp_l. f_equal. lia.
Qed.
End fairness.

Lemma rotation_map {B} (l : list B) a : l <> [] ->
  map (fun j => l !! ((a + j) mod length l)%nat) (seq 0 (length l)) = map Some (drop (a mod length l) l ++ take (a mod length l) l).
Proof.
  intros Hne. assert (length l <> 0)%nat as Hl by (by destruct l). set (k := (a mod length l)%nat).
  assert (k < length l)%nat as Hk by (by apply Nat.mod_upper_bound).
  apply list_eq. intros j. rewrite !list_lookup_fmap. destruct (decide (j < length l)%nat) as [Hj|Hj].
  - rewrite lookup_seq_lt by done. cbn. replace ((a + j) mod length l)%nat with ((k + j) mod length l)%nat by (unfold k; by rewrite Nat.Div0.add_mod_idemp_l).
    destruct (decide (j < length l - k)%nat).
    + rewrite lookup_app_l, lookup_drop by (rewrite length_drop; lia). rewrite Nat.mod_small by lia.
      destruct (lookup_lt_is_Some_2 l (k + j)) as [x ->]; [lia | done].
    + rewrite lookup_app_r by (rewrite length_drop; lia). rewrite length_drop, lookup_take_lt by lia.
      replace ((k + j) mod length l)%nat with (j - (length l - k))%nat.
      * destruct (lookup_lt_is_Some_2 l (j - (length l - k))) as [x ->]; [lia | done].
      * apply (Nat.mod_unique _ _ 1); lia.
  - rewrite (lookup_ge_None_2 (seq _ _)) by (rewrite length_seq; lia).
    rewrite lookup_ge_None_2; [done|]. rewrite length_app, length_drop, length_take. lia.
Qed.

(** C37: Rotation is fair.  In a pool where no route failed and none succeeded yet, as
    many selections in a row as there are usable routes return each of them once, in the
    configured order, starting where the last round stopped. *)
Theorem pool_rotation_fair monotonic wall pool s n :
  (forall k, (0 <= monotonic k)%Q) -> (forall k, (0 <= wall k)%Q) -> quiet pool s -> usable_routes pool s <> [] ->
  let l := usable_routes pool s in
  let i := (pool_index pool s mod length l)%nat in
  out_res (select_times monotonic wall pool (length l) s n) = Ok (map Some (drop i l ++ take i l)) /\
  drop i l ++ take i l ≡ₚ l.
Proof.
  intros Hm Hw Hq Hne l i. split.
  - rewrite (select_times_spec monotonic wall Hm Hw pool (length l) s n Hq Hne). f_equal. by apply rotation_map.
  - rewrite (Permutation_app_comm (drop i l)). by rewrite take_drop.
Qed.
Lemma pool_rotation_fair_witness :
  (length (usable_routes "coding" demo_manager) = 7)%nat /\
  out_res (select_times tick_clock tick_clock "coding" 7 demo_manager 0%nat) = Ok (map Some (usable_routes "coding" demo_manager)).
Proof.
  split; [vm_compute; reflexivity|].
  exact (proj1 (pool_rotation_fair tick_clock tick_clock "coding" demo_manager 0 Qnat_nonneg Qnat_nonneg
    ltac:(vm_compute; repeat split) ltac:(vm_compute; discriminate))).
Defined.
