(* ===== verification/ToolLedger.v ===== *)
(** * Tool-execution idempotency ledger

    [src/durallm/agent/idempotency.py].  Records and receipts live in
    insertion-ordered dictionaries; eviction pops from the front.  The ledger
    has its own injectable clock besides [time.time()]; both are read where the
    code reads them.  [json.dumps] (with sorted keys) and SHA-256 only serve to
    compute the arguments hash and are parameters. *)

From stdpp Require Import base tactics list strings.
From Stdlib Require Import QArith Lqa.
From S2P Require Import Prelude Models Json.

Inductive ToolExecutionStatus : Type :=
| PROPOSED | VALIDATED | SUBMITTED | COMMITTED | INDETERMINATE | AMBIGUOUS | FAILED | REPLAYED.

#[export] Instance ToolExecutionStatus_eq_dec : EqDecision ToolExecutionStatus.
Proof. solve_decision. Defined.

Record ToolExecutionRecord : Type := {
  tool_call_id : string;
  logical_operation_id : string;
  tool_name : string;
  arguments_hash : string;
  arguments : json;
  status : ToolExecutionStatus;
  execution_receipt : option json;
  created_at : Q;
  updated_at : Q;
  error_message : option string;
}.

(** [ttl_seconds = None] stands for [float("inf")]. *)
Record ToolExecutionLedger : Type := {
  max_records : nat;
  ttl_seconds : option Q;
  records_by_call_id : odict string ToolExecutionRecord;
  receipts_by_op_hash : odict string (json * Q);
}.

Definition new_ledger (max : nat) (ttl : option Q) : ToolExecutionLedger :=
  {| max_records := max; ttl_seconds := ttl; records_by_call_id := []; receipts_by_op_hash := [] |}.

Definition default_ledger : ToolExecutionLedger := new_ledger 10000 (Some 3600).

Definition with_records (r : odict string ToolExecutionRecord) (l : ToolExecutionLedger) : ToolExecutionLedger :=
  {| max_records := max_records l; ttl_seconds := ttl_seconds l;
     records_by_call_id := r; receipts_by_op_hash := receipts_by_op_hash l |}.
Definition with_receipts (r : odict string (json * Q)) (l : ToolExecutionLedger) : ToolExecutionLedger :=
  {| max_records := max_records l; ttl_seconds := ttl_seconds l;
     records_by_call_id := records_by_call_id l; receipts_by_op_hash := r |}.

Definition set_status (s : ToolExecutionStatus) (now : Q) (r : ToolExecutionRecord) : ToolExecutionRecord :=
  {| tool_call_id := tool_call_id r; logical_operation_id := logical_operation_id r; tool_name := tool_name r;
     arguments_hash := arguments_hash r; arguments := arguments r; status := s;
     execution_receipt := execution_receipt r; created_at := created_at r; updated_at := now;
     error_message := error_message r |}.
Definition set_receipt (j : json) (r : ToolExecutionRecord) : ToolExecutionRecord :=
  {| tool_call_id := tool_call_id r; logical_operation_id := logical_operation_id r; tool_name := tool_name r;
     arguments_hash := arguments_hash r; arguments := arguments r; status := status r;
     execution_receipt := Some j; created_at := created_at r; updated_at := updated_at r;
     error_message := error_message r |}.
Definition set_error (e : string) (r : ToolExecutionRecord) : ToolExecutionRecord :=
  {| tool_call_id := tool_call_id r; logical_operation_id := logical_operation_id r; tool_name := tool_name r;
     arguments_hash := arguments_hash r; arguments := arguments r; status := status r;
     execution_receipt := execution_receipt r; created_at := created_at r; updated_at := updated_at r;
     error_message := Some e |}.

(** [now - stamp > ttl] *)
Definition expired (ttl : option Q) (now stamp : Q) : bool :=
  match ttl with None => false | Some t => t ≺ (now - stamp) end.

(** One pass of [_evict] over one of the two dictionaries. *)
Definition evict_store {V} (ttl : option Q) (max : nat) (now : Q) (stamp : V -> Q) (d : odict string V)
    : odict string V :=
  drop_excess max (drop_while (fun kv => expired ttl now (stamp (snd kv))) d).

Definition evict_ledger (now : Q) (l : ToolExecutionLedger) : ToolExecutionLedger :=
  with_receipts (evict_store (ttl_seconds l) (max_records l) now snd (receipts_by_op_hash l))
    (with_records (evict_store (ttl_seconds l) (max_records l) now created_at (records_by_call_id l)) l).

(** [_op_key] *)
Definition op_key (logical_op_id tool_name arguments_hash : string) : string :=
  (logical_op_id ++ ":" ++ tool_name ++ ":" ++ arguments_hash)%string.

Definition indeterminate_status (s : ToolExecutionStatus) : bool :=
  match s with SUBMITTED | INDETERMINATE | AMBIGUOUS => true | _ => false end.

Section ledger.
Context (json_dumps : json -> string) (sha256 : string -> string).
Context (clock wall : nat -> Q).
Local Abbreviation L := (M exn ToolExecutionLedger).

(** [compute_arguments_hash]; [arguments or {}] replaces a falsy value. *)
Definition compute_arguments_hash (args : json) : string :=
  sha256 (json_dumps (if jtruthy args then args else JObj [])).

(** [_evict] *)
Definition evict : L unit := now ← read_clock clock; modify (evict_ledger now).

(** [register_tool_call] *)
Definition register_tool_call (call_id logical tool : string) (args : json) : L ToolExecutionRecord :=
  let arg_hash := compute_arguments_hash args in
  l ← get;
  match od_get call_id (records_by_call_id l) with
  | Some rec => mret rec
  | None =>
      now ← read_clock clock;
      let rec := {| tool_call_id := call_id; logical_operation_id := logical; tool_name := tool;
                    arguments_hash := arg_hash; arguments := args; status := PROPOSED;
                    execution_receipt := None; created_at := now; updated_at := now;
                    error_message := None |} in
      modify (fun l => with_records (od_set call_id rec (records_by_call_id l)) l) ;;
      evict ;;
      mret rec
  end.

(** [rec = self._records_by_call_id.get(id); if rec: <mutate rec>] *)
Definition update_record (call_id : string) (f : ToolExecutionRecord -> L ToolExecutionRecord) : L unit :=
  l ← get;
  match od_get call_id (records_by_call_id l) with
  | None => mret tt
  | Some rec =>
      rec' ← f rec;
      modify (fun l => with_records (od_set call_id rec' (records_by_call_id l)) l)
  end.

(** [mark_validated] *)
Definition mark_validated (call_id : string) : L unit :=
  update_record call_id (fun rec =>
    if decide (status rec = PROPOSED)
    then now ← read_clock wall; mret (set_status VALIDATED now rec)
    else mret rec).

(** [mark_submitted] *)
Definition mark_submitted (call_id : string) : L unit :=
  update_record call_id (fun rec => now ← read_clock wall; mret (set_status SUBMITTED now rec)).

(** [mark_committed] *)
Definition mark_committed (call_id : string) (receipt : json) : L unit :=
  l ← get;
  match od_get call_id (records_by_call_id l) with
  | None => mret tt
  | Some rec =>
      now ← read_clock wall;
      modify (fun l => with_records
        (od_set call_id (set_receipt receipt (set_status COMMITTED now rec)) (records_by_call_id l)) l) ;;
      let key := op_key (logical_operation_id rec) (tool_name rec) (arguments_hash rec) in
      stamp ← read_clock clock;
      modify (fun l => with_receipts (od_set key (receipt, stamp) (receipts_by_op_hash l)) l) ;;
      evict
  end.

(** [mark_replayed] *)
Definition mark_replayed (call_id : string) (receipt : json) : L unit :=
  update_record call_id (fun rec =>
    now ← read_clock clock; mret (set_receipt receipt (set_status REPLAYED now rec))).

(** [mark_indeterminate] *)
Definition mark_indeterminate (call_id reason : string) : L unit :=
  update_record call_id (fun rec =>
    now ← read_clock wall; mret (set_error reason (set_status INDETERMINATE now rec))).

(** [mark_ambiguous] *)
Definition mark_ambiguous (call_id reason : string) : L unit := mark_indeterminate call_id reason.

(** [mark_failed] *)
Definition mark_failed (call_id error : string) : L unit :=
  update_record call_id (fun rec =>
    now ← read_clock wall; mret (set_error error (set_status FAILED now rec))).

(** [check_idempotency] *)
Definition check_idempotency (logical tool : string) (args : json) : L (bool * option json) :=
  let key := op_key logical tool (compute_arguments_hash args) in
  l ← get;
  match od_get key (receipts_by_op_hash l) with
  | None => mret (false, None)
  | Some entry =>
      now ← read_clock clock;
      if expired (ttl_seconds l) now (snd entry) then mret (false, None)
      else mret (true, Some (fst entry))
  end.

(** [has_indeterminate_operation] *)
Definition has_indeterminate_operation (logical tool : string) (args : json) : L bool :=
  let arg_hash := compute_arguments_hash args in
  gets (fun l => existsb (fun rec =>
    String.eqb (logical_operation_id rec) logical && String.eqb (tool_name rec) tool &&
    String.eqb (arguments_hash rec) arg_hash && indeterminate_status (status rec))
    (od_values (records_by_call_id l))).

(** [get_record] *)
Definition get_record (call_id : string) : L (option ToolExecutionRecord) :=
  gets (fun l => od_get call_id (records_by_call_id l)).
End ledger.

(** ** Correctness of the idempotency ledger

    Bounded memory, idempotent registration, replay of committed receipts and
    the fail-closed treatment of lost acknowledgements, for
    [src/durallm/agent/idempotency.py]. *)
Module ToolLedgerProps.

(** ** Eviction *)

Lemma evict_store_sublist {V} ttl max now (stamp : V -> Q) d : sublist (evict_store ttl max now stamp d) d.
Proof. unfold evict_store. etrans; [apply drop_excess_sublist | apply drop_while_sublist]. Qed.

Lemma evict_store_length {V} ttl max now (stamp : V -> Q) d :
  (length (evict_store ttl max now stamp d) <= max)%nat.
Proof. unfold evict_store. rewrite drop_excess_length. lia. Qed.

Lemma drop_while_keeps {V} p k (v : V) (d : odict string V) :
  p (k, v) = false -> od_get k d = Some v -> od_get k (drop_while p d) = Some v.
Proof.
  intros Hp. induction d as [|[k' v'] d IH]; simpl; [done|]. intros Hg.
  destruct (p (k', v')) eqn:Ep; [|exact Hg].
  case_decide; simplify_eq; [congruence | by apply IH].
Qed.

(** A live entry of a dictionary within its bound survives eviction. *)
Lemma evict_store_keeps {V} ttl max now (stamp : V -> Q) d k v :
  (length d <= max)%nat -> od_get k d = Some v -> expired ttl now (stamp v) = false ->
  od_get k (evict_store ttl max now stamp d) = Some v.
Proof.
  intros Hlen Hg He. unfold evict_store, drop_excess.
  pose proof (sublist_length _ _ (drop_while_sublist (fun kv => expired ttl now (stamp kv.2)) d)).
  replace (length _ - max)%nat with 0%nat by lia. rewrite drop_0. by apply drop_while_keeps.
Qed.

(** The newest entry survives eviction from any dictionary. *)
Lemma evict_store_keeps_last {V} ttl max now (stamp : V -> Q) d k v :
  max <> 0%nat -> od_get k d = None -> expired ttl now (stamp v) = false ->
  od_get k (evict_store ttl max now stamp (d ++ [(k, v)])) = Some v.
Proof.
  intros Hm Hg He. unfold evict_store.
  assert (exists d1, drop_while (fun kv => expired ttl now (stamp kv.2)) (d ++ [(k, v)]) = d1 ++ [(k, v)] /\
    od_get k d1 = None) as (d1 & -> & Hg1).
  { clear Hm. induction d as [|[k' v'] d IH]; simpl.
    - rewrite He. by exists [].
    - simpl in Hg. case_decide; [done|]. case_match; [by apply IH|].
      exists ((k', v') :: d). simpl. by rewrite decide_False. }
  unfold drop_excess. rewrite length_app. simpl.
  assert (forall j, (j <= length d1)%nat -> od_get k (drop j (d1 ++ [(k, v)])) = Some v) as Hd.
  { clear -Hg1. induction d1 as [|[k' v'] d1 IH]; intros [|j] Hj; simpl in *; try lia.
    - by rewrite decide_True.
    - case_decide; [done|]. apply (IH Hg1 0%nat). lia.
    - apply IH; [by case_decide | lia]. }
  apply Hd. lia.
Qed.

Lemma od_set_absent {V} k (v : V) (d : odict string V) : od_get k d = None -> od_set k v d = d ++ [(k, v)].
Proof.
  induction d as [|[k' v'] d IH]; simpl; [done|]. case_decide; [done|]. intros. f_equal. by apply IH.
Qed.

Lemma od_set_present_length {V} k (v w : V) (d : odict string V) :
  od_get k d = Some w -> length (od_set k v d) = length d.
Proof.
  induction d as [|[k' v'] d IH]; simpl; [done|]. case_decide; [done|]. intros. simpl. f_equal. by apply IH.
Qed.

(** ** The ledger invariant *)

Definition ledger_ok (l : ToolExecutionLedger) : Prop :=
  od_wf (records_by_call_id l) /\ od_wf (receipts_by_op_hash l) /\
  (length (records_by_call_id l) <= max_records l)%nat /\
  (length (receipts_by_op_hash l) <= max_records l)%nat.

Lemma new_ledger_ok max ttl : ledger_ok (new_ledger max ttl).
Proof. split_and!; simpl; try lia; apply od_wf_nil. Qed.

(** Before eviction both dictionaries may exceed the bound; after it they do not. *)
Lemma evict_ledger_ok now l :
  od_wf (records_by_call_id l) -> od_wf (receipts_by_op_hash l) -> ledger_ok (evict_ledger now l).
Proof.
  intros H1 H2. split_and!; simpl; try apply evict_store_length;
    (eapply od_wf_sublist; [apply evict_store_sublist | done]).
Qed.

(** The methods of the ledger. *)
Inductive ledger_op : Type :=
| LRegister (call_id logical tool : string) (args : json)
| LValidated (call_id : string) | LSubmitted (call_id : string)
| LCommitted (call_id : string) (receipt : json) | LReplayed (call_id : string) (receipt : json)
| LIndeterminate (call_id reason : string) | LFailed (call_id error : string)
| LCheck (logical tool : string) (args : json) | LHasIndeterminate (logical tool : string) (args : json)
| LGet (call_id : string).

Section ledger_props.
Context (json_dumps : json -> string) (sha256 : string -> string) (clock wall : nat -> Q).

Definition run_ledger (o : ledger_op) (l : ToolExecutionLedger) (n : nat) : ToolExecutionLedger * nat :=
  let fin {A} (r : res exn A * ToolExecutionLedger * nat) := (out_st r, out_tick r) in
  match o with
  | LRegister c lo t a => fin (register_tool_call json_dumps sha256 clock c lo t a l n)
  | LValidated c => fin (mark_validated wall c l n)
  | LSubmitted c => fin (mark_submitted wall c l n)
  | LCommitted c r => fin (mark_committed clock wall c r l n)
  | LReplayed c r => fin (mark_replayed clock c r l n)
  | LIndeterminate c r => fin (mark_indeterminate wall c r l n)
  | LFailed c e => fin (mark_failed wall c e l n)
  | LCheck lo t a => fin (check_idempotency json_dumps sha256 clock lo t a l n)
  | LHasIndeterminate lo t a => fin (has_indeterminate_operation json_dumps sha256 lo t a l n)
  | LGet c => fin (get_record c l n)
  end.

Definition run_ledger_ops (ops : list ledger_op) (l : ToolExecutionLedger) (n : nat) : ToolExecutionLedger * nat :=
  foldl (fun ln o => run_ledger o (fst ln) (snd ln)) (l, n) ops.

Lemma run_ledger_cons o ops l n : run_ledger_ops (o :: ops) l n =
  run_ledger_ops ops (fst (run_ledger o l n)) (snd (run_ledger o l n)).
Proof. unfold run_ledger_ops. simpl. by destruct (run_ledger o l n). Qed.

(** Effect of an in-place status change: one record is replaced, or nothing happens. *)
Lemma update_record_out c f l n :
  (forall rec m, exists rec' m', f rec l m = (Ok rec', l, m')) ->
  let l' := out_st (update_record c f l n) in
  l' = l \/ exists c rec rec', od_get c (records_by_call_id l) = Some rec /\
    l' = with_records (od_set c rec' (records_by_call_id l)) l.
Proof.
  intros Hf. unfold update_record. mstep. destruct (od_get c (records_by_call_id l)) as [rec|] eqn:E; [|by left].
  right. destruct (Hf rec n) as (rec' & m' & Hr). mstep. eexists _, _, _. split; [done|]. reflexivity.
Qed.

(** Every operation but registration and commit replaces at most one record. *)
Lemma run_ledger_small o l n :
  match o with LRegister _ _ _ _ | LCommitted _ _ => True | _ =>
    let l' := fst (run_ledger o l n) in
    l' = l \/ exists c rec rec', od_get c (records_by_call_id l) = Some rec /\
      l' = with_records (od_set c rec' (records_by_call_id l)) l
  end.
Proof.
  destruct o; try exact I; unfold run_ledger; cbv zeta; cbn [fst].
  all: lazymatch goal with
  | |- context [out_st (check_idempotency _ _ _ _ _ _ _ _)] => idtac
  | |- context [out_st (has_indeterminate_operation _ _ _ _ _ _ _)] => idtac
  | |- context [out_st (get_record _ _ _)] => idtac
  | _ => apply update_record_out; intros rec m; try case_decide; by eexists _, _
  end.
  - left. unfold check_idempotency. mstep. case_match; [|done]. mstep. by case_match.
  - by left.
  - by left.
Qed.

(** Registration: nothing, or one new record followed by an eviction. *)
Lemma register_out c lo t a l n :
  out_st (register_tool_call json_dumps sha256 clock c lo t a l n) = l \/
  exists rec, od_get c (records_by_call_id l) = None /\
    out_st (register_tool_call json_dumps sha256 clock c lo t a l n) =
      evict_ledger (clock (S n)) (with_records (od_set c rec (records_by_call_id l)) l).
Proof.
  unfold register_tool_call. mstep. destruct (od_get c (records_by_call_id l)) eqn:E; [by left|].
  right. mstep. mstep. mstep. eexists. split; [done|]. reflexivity.
Qed.

Lemma commit_out c r l n :
  match od_get c (records_by_call_id l) with
  | None => out_st (mark_committed clock wall c r l n) = l
  | Some rec => exists rec', status rec' = COMMITTED /\ execution_receipt rec' = Some r /\
    out_st (mark_committed clock wall c r l n) =
      evict_ledger (clock (S (S n)))
        (with_receipts
          (od_set (op_key (logical_operation_id rec) (tool_name rec) (arguments_hash rec)) (r, clock (S n))
            (receipts_by_op_hash l))
          (with_records (od_set c rec' (records_by_call_id l)) l))
  end.
Proof.
  unfold mark_committed. mstep. destruct (od_get c (records_by_call_id l)) as [rec|] eqn:E; [|done].
  do 4 mstep. eexists. split_and!; [ | | reflexivity]; reflexivity.
Qed.

Lemma run_ledger_ok o l n : ledger_ok l -> ledger_ok (fst (run_ledger o l n)).
Proof.
  intros Hok. pose proof Hok as (Hr & Hp & _).
  destruct o; try (match goal with |- ledger_ok (fst (run_ledger ?o _ _)) =>
    destruct (run_ledger_small o l n) as [->|(c & rec & rec' & Hg & ->)]; [done|] end;
    destruct Hok as (H1 & H2 & H3 & H4); split_and!; simpl;
    [by apply od_wf_set | done | by erewrite od_set_present_length | done]); unfold run_ledger; cbn [fst].
  - destruct (register_out call_id logical tool args l n) as [->|(rec & _ & ->)]; [done|].
    apply evict_ledger_ok; simpl; [by apply od_wf_set | done].
  - pose proof (commit_out call_id receipt l n) as Hc. case_match; [|by rewrite Hc].
    destruct Hc as (rec' & _ & _ & ->).
    apply evict_ledger_ok; simpl; by apply od_wf_set.
Qed.

Lemma run_ledger_max o l n : max_records (fst (run_ledger o l n)) = max_records l /\
  ttl_seconds (fst (run_ledger o l n)) = ttl_seconds l.
Proof.
  destruct o; try (match goal with |- context [run_ledger ?o _ _] =>
    destruct (run_ledger_small o l n) as [->|(c & rec & rec' & Hg & ->)]; done end); unfold run_ledger; cbn [fst].
  - by destruct (register_out call_id logical tool args l n) as [->|(rec & _ & ->)].
  - pose proof (commit_out call_id receipt l n) as Hc. case_match; [|by rewrite Hc].
    by destruct Hc as (rec' & _ & _ & ->).
Qed.

(** An operation other than a commit keeps every receipt that is still live at
    all the instants the ledger looks at. *)
Lemma run_ledger_receipt o l n key r stamp :
  ledger_ok l -> (match o with LCommitted _ _ => False | _ => True end) ->
  (forall k, expired (ttl_seconds l) (clock k) stamp = false) ->
  od_get key (receipts_by_op_hash l) = Some (r, stamp) ->
  od_get key (receipts_by_op_hash (fst (run_ledger o l n))) = Some (r, stamp).
Proof.
  intros Hok Hnc Hlive Hg.
  destruct o; try done; try (match goal with |- context [run_ledger ?o _ _] =>
    destruct (run_ledger_small o l n) as [->|(c & rec & rec' & _ & ->)]; done end); unfold run_ledger; cbn [fst].
  destruct (register_out call_id logical tool args l n) as [->|(rec & _ & ->)]; [done|].
  simpl. apply evict_store_keeps; [apply Hok | done | apply Hlive].
Qed.

Lemma run_ledger_receipts ops l n key r stamp :
  ledger_ok l -> Forall (fun o => match o with LCommitted _ _ => False | _ => True end) ops ->
  (forall k, expired (ttl_seconds l) (clock k) stamp = false) ->
  od_get key (receipts_by_op_hash l) = Some (r, stamp) ->
  od_get key (receipts_by_op_hash (fst (run_ledger_ops ops l n))) = Some (r, stamp) /\
  ttl_seconds (fst (run_ledger_ops ops l n)) = ttl_seconds l.
Proof.
  intros Hok Hops. revert l n Hok. induction Hops as [|o ops Ho _ IH]; intros l n Hok Hlive Hg; [done|].
  rewrite run_ledger_cons. pose proof (run_ledger_max o l n) as [_ Httl]. rewrite <- Httl.
  apply IH; [by apply run_ledger_ok | by rewrite Httl | by apply run_ledger_receipt].
Qed.
End ledger_props.

(** ** Properties *)

(** Bounded memory.  After any sequence of ledger operations on a fresh
    ledger, both dictionaries have unique keys and at most [max_records]
    entries, whatever the clocks and the hash. *)
Theorem ledger_bounded json_dumps sha256 clock wall max ttl ops n :
  ledger_ok (fst (run_ledger_ops json_dumps sha256 clock wall ops (new_ledger max ttl) n)).
Proof.
  assert (forall l m, ledger_ok l -> ledger_ok (fst (run_ledger_ops json_dumps sha256 clock wall ops l m))) as H.
  { induction ops as [|o ops IH]; intros l m Hl; [done|]. rewrite run_ledger_cons. by apply IH, run_ledger_ok. }
  apply H, new_ledger_ok.
Qed.

(** Registration is idempotent.  Registering a call id twice, even with
    other arguments, returns the first record and leaves the ledger exactly as
    it was, when the first registration was not itself evicted. *)
Theorem register_idempotent json_dumps sha256 clock l n c lo t a lo' t' a' rec m :
  od_get c (records_by_call_id (out_st (register_tool_call json_dumps sha256 clock c lo t a l n))) = Some rec ->
  let l1 := out_st (register_tool_call json_dumps sha256 clock c lo t a l n) in
  register_tool_call json_dumps sha256 clock c lo' t' a' l1 m = (Ok rec, l1, m).
Proof. intros Hg l1. unfold register_tool_call at 1. mstep. fold l1 in Hg. by rewrite Hg. Qed.

Lemma register_idempotent_witness :
  let reg := register_tool_call (fun _ => "{}") (fun s => s) (fun k => Qnat k) in
  let l1 := out_st (reg "c1" "op" "bash" (JObj []) default_ledger 0%nat) in
  out_res (reg "c1" "other" "tool" (JObj []) l1 5%nat) = out_res (reg "c1" "op" "bash" (JObj []) default_ledger 0%nat).
Proof.
  intros reg l1. unfold reg, l1.
  erewrite (register_idempotent (fun _ => "{}") (fun s => s) (fun k => Qnat k) default_ledger 0 "c1" "op" "bash"
    (JObj []) "other" "tool" (JObj [])); [|vm_compute; reflexivity].
  vm_compute. reflexivity.
Defined.

(** A committed receipt is replayed instead of executing again.  Once a
    recorded call is committed, every later idempotency check of the same
    operation returns that receipt, through any series of operations that
    commits nothing else, as long as the receipt's time to live has not passed. *)
Theorem committed_receipt_replayed json_dumps sha256 clock wall l n c rec r args ops :
  ledger_ok l -> max_records l <> 0%nat ->
  od_get c (records_by_call_id l) = Some rec ->
  arguments_hash rec = compute_arguments_hash json_dumps sha256 args ->
  (forall k, expired (ttl_seconds l) (clock k) (clock (S n)) = false) ->
  Forall (fun o => match o with LCommitted _ _ => False | _ => True end) ops ->
  let '(l1, n1) := run_ledger json_dumps sha256 clock wall (LCommitted c r) l n in
  let '(l2, n2) := run_ledger_ops json_dumps sha256 clock wall ops l1 n1 in
  out_res (check_idempotency json_dumps sha256 clock (logical_operation_id rec) (tool_name rec) args l2 n2) =
    Ok (true, Some r).
Proof.
  intros Hok Hmax Hrec Hhash Hlive Hops.
  set (key := op_key (logical_operation_id rec) (tool_name rec) (arguments_hash rec)).
  assert (od_get key (receipts_by_op_hash (fst (run_ledger json_dumps sha256 clock wall (LCommitted c r) l n)))
    = Some (r, clock (S n))) as Hg.
  { unfold run_ledger. cbn [fst]. pose proof (commit_out clock wall c r l n) as Hc. rewrite Hrec in Hc.
    destruct Hc as (rec' & _ & _ & ->). simpl. fold key.
    destruct (od_get key (receipts_by_op_hash l)) as [v|] eqn:Ek.
    - apply evict_store_keeps; [|apply od_get_set_eq | apply Hlive].
      erewrite od_set_present_length by done. apply Hok.
    - rewrite od_set_absent by done. by apply evict_store_keeps_last; [| |apply Hlive]. }
  pose proof (run_ledger_ok json_dumps sha256 clock wall (LCommitted c r) l n Hok) as Hok1.
  pose proof (run_ledger_max json_dumps sha256 clock wall (LCommitted c r) l n) as [_ Httl].
  destruct (run_ledger json_dumps sha256 clock wall (LCommitted c r) l n) as [l1 n1]. cbn [fst] in *.
  rewrite <- Httl in Hlive. clear Httl Hok Hmax Hrec.
  destruct (run_ledger_receipts json_dumps sha256 clock wall ops l1 n1 key r (clock (S n)) Hok1 Hops Hlive Hg)
    as (Hg2 & Httl2).
  destruct (run_ledger_ops json_dumps sha256 clock wall ops l1 n1) as [l2 n2]. cbn [fst] in *.
  unfold check_idempotency. mstep. rewrite <- Hhash. fold key. rewrite Hg2. mstep.
  rewrite Httl2. simpl. by rewrite Hlive.
Qed.

Definition demo_ledger : ToolExecutionLedger :=
  fst (run_ledger (fun _ => "{}") (fun s => s) (fun k => Qnat k) (fun k => Qnat k)
    (LRegister "c1" "op" "bash" (JObj [])) (new_ledger 4 None) 0%nat).

Lemma committed_receipt_replayed_witness :
  let '(l1, n1) := run_ledger (fun _ => "{}") (fun s => s) (fun k => Qnat k) (fun k => Qnat k)
    (LCommitted "c1" (JStr "done")) demo_ledger 5%nat in
  let '(l2, n2) := run_ledger_ops (fun _ => "{}") (fun s => s) (fun k => Qnat k) (fun k => Qnat k)
    [LRegister "c2" "op" "bash" (JObj []); LSubmitted "c2"] l1 n1 in
  out_res (check_idempotency (fun _ => "{}") (fun s => s) (fun k => Qnat k) "op" "bash" (JObj []) l2 n2) =
    Ok (true, Some (JStr "done")).
Proof.
  pose (rec := {| tool_call_id := "c1"; logical_operation_id := "op"; tool_name := "bash"; arguments_hash := "{}";
    arguments := JObj []; status := PROPOSED; execution_receipt := None; created_at := Qnat 0; updated_at := Qnat 0;
    error_message := None |}).
  apply (committed_receipt_replayed (fun _ => "{}") (fun s => s) (fun k => Qnat k) (fun k => Qnat k)
    demo_ledger 5 "c1" rec (JStr "done") (JObj []) [LRegister "c2" "op" "bash" (JObj []); LSubmitted "c2"]).
  - apply (run_ledger_ok _ _ _ _ _ (new_ledger 4 None)), new_ledger_ok.
  - vm_compute. discriminate.
  - vm_compute. reflexivity.
  - reflexivity.
  - reflexivity.
  - repeat constructor.
Defined.

(** Fail closed on a lost acknowledgement.  As soon as a recorded call is
    marked submitted, ambiguous or indeterminate, the same operation (whatever
    call id re-proposes it) is reported as possibly executed. *)
Theorem submission_fails_closed json_dumps sha256 wall l n c rec args reason :
  od_get c (records_by_call_id l) = Some rec ->
  arguments_hash rec = compute_arguments_hash json_dumps sha256 args ->
  let asks l' := out_res (has_indeterminate_operation json_dumps sha256
    (logical_operation_id rec) (tool_name rec) args l' 0%nat) in
  asks (out_st (mark_submitted wall c l n)) = Ok true /\
  asks (out_st (mark_indeterminate wall c reason l n)) = Ok true /\
  asks (out_st (mark_ambiguous wall c reason l n)) = Ok true.
Proof.
  intros Hrec Hhash asks.
  assert (forall rec', logical_operation_id rec' = logical_operation_id rec -> tool_name rec' = tool_name rec ->
    arguments_hash rec' = arguments_hash rec -> indeterminate_status (status rec') = true ->
    asks (with_records (od_set c rec' (records_by_call_id l)) l) = Ok true) as Hasks.
  { intros rec' H1 H2 H3 H4. unfold asks, has_indeterminate_operation, gets, out_res. simpl. f_equal.
    apply existsb_exists. exists rec'. split.
    - apply list_elem_of_In. unfold od_values. apply list_elem_of_fmap. exists (c, rec'). split; [done|].
      apply od_get_In, od_get_set_eq.
    - rewrite H1, H2, H3, Hhash, H4, !String.eqb_refl. done. }
  unfold mark_ambiguous, mark_submitted, mark_indeterminate, update_record.
  split_and!; erewrite bind_ok by reflexivity; cbv beta; rewrite Hrec; mstep; by apply Hasks.
Qed.

Lemma submission_fails_closed_witness :
  out_res (has_indeterminate_operation (fun _ => "{}") (fun s => s) "op" "bash" (JObj [])
    (out_st (mark_submitted (fun k => Qnat k) "c1" demo_ledger 5%nat)) 0%nat) = Ok true.
Proof.
  pose (rec := {| tool_call_id := "c1"; logical_operation_id := "op"; tool_name := "bash"; arguments_hash := "{}";
    arguments := JObj []; status := PROPOSED; execution_receipt := None; created_at := Qnat 0; updated_at := Qnat 0;
    error_message := None |}).
  apply (submission_fails_closed (fun _ => "{}") (fun s => s) (fun k => Qnat k) demo_ledger 5 "c1" rec (JObj []) "").
  - vm_compute. reflexivity.
  - reflexivity.
Defined.

(** Limits of the in-memory ledger.  (1) The receipt key joins its parts
    with a colon, so two different operations whose ids contain colons share a
    receipt: after committing tool [c] of operation [a:b], the check of tool
    [b:c] of operation [a] answers with that receipt.  (2) Eviction does not
    spare submitted records: with room for one record, registering another
    call makes the ledger forget a submission in flight. *)
Theorem ledger_limits json_dumps sha256 clock wall args r :
  let run := run_ledger_ops json_dumps sha256 clock wall in
  (let '(l, n) := run [LRegister "c1" "a:b" "c" args; LCommitted "c1" r] (new_ledger 8 None) 0%nat in
   out_res (check_idempotency json_dumps sha256 clock "a" "b:c" args l n) = Ok (true, Some r)) /\
  (let '(l, n) := run [LRegister "c1" "op" "tool" args; LSubmitted "c1"; LRegister "c2" "op2" "tool" args]
     (new_ledger 1 None) 0%nat in
   out_res (has_indeterminate_operation json_dumps sha256 "op" "tool" args l n) = Ok false).
Proof.
  split; [|vm_compute; reflexivity].
  assert (forall h, op_key "a" "b:c" h = op_key "a:b" "c" h) as Hkey by done.
  cbn -[op_key compute_arguments_hash]. unfold check_idempotency. mstep. rewrite Hkey.
  match goal with |- context [out_st (mark_committed ?c ?w ?i ?rc ?l ?k)] =>
    set (st := out_st (mark_committed c w i rc l k)) end.
  assert (receipts_by_op_hash st =
    [(op_key "a:b" "c" (compute_arguments_hash json_dumps sha256 args), (r, clock 3%nat))]) as -> by reflexivity.
  assert (ttl_seconds st = None) as -> by reflexivity.
  cbn [od_get]. by rewrite decide_True.
Qed.

End ToolLedgerProps.
