(* ===== verification/SqliteStore.v ===== *)
(** * The SQLite durable store

    [src/durallm/storage/contracts.py] and [src/durallm/storage/sqlite.py].
    A table is a finite map from its primary key to its row; a write
    transaction ([BEGIN IMMEDIATE] ... [COMMIT]) is atomic and rolls every
    write back when its body raises.  JSON columns hold the JSON value itself
    (the round trip of [json.dumps]/[json.loads] is taken for granted), and
    SHA-256, used only to derive the operation key, is a parameter.  Failures
    of the database engine are not modelled. *)

From stdpp Require Import base tactics list gmap strings.
From Stdlib Require Import QArith Lqa.
From S2P Require Import Prelude Models Json ToolLedger.

(** ** Contracts *)

Record StoredSession : Type := {
  session_id : string;
  protocol_version : string;
  session_payload : json;
  revision : nat;
  session_created_at : Q;
  session_updated_at : Q;
}.

Record StoredAttempt : Type := {
  sa_attempt_id : string;
  sa_request_id : string;
  sa_status : string;
  sa_payload : json;
  sa_created_at : Q;
  sa_updated_at : Q;
}.

Record StoredOperation : Type := {
  operation_key : string;
  op_logical_operation_id : string;
  op_tool_name : string;
  op_arguments_hash : string;
  op_arguments : json;
  op_status : string;
  op_execution_receipt : option json;
  op_error_message : option string;
  op_created_at : Q;
  op_updated_at : Q;
}.

Record Lease : Type := {
  lease_resource : string;
  lease_owner : string;
  fencing_token : nat;
  lease_expires_at : Q;
}.

(** [ToolExecutionStatus(...).value] and its inverse [ToolExecutionStatus(value)]. *)
Definition status_value (s : ToolExecutionStatus) : string :=
  match s with
  | PROPOSED => "proposed" | VALIDATED => "validated" | SUBMITTED => "submitted"
  | COMMITTED => "committed" | INDETERMINATE => "indeterminate" | AMBIGUOUS => "ambiguous"
  | FAILED => "failed" | REPLAYED => "replayed"
  end.

Definition status_of_value (v : string) : option ToolExecutionStatus :=
  if String.eqb v "proposed" then Some PROPOSED
  else if String.eqb v "validated" then Some VALIDATED
  else if String.eqb v "submitted" then Some SUBMITTED
  else if String.eqb v "committed" then Some COMMITTED
  else if String.eqb v "indeterminate" then Some INDETERMINATE
  else if String.eqb v "ambiguous" then Some AMBIGUOUS
  else if String.eqb v "failed" then Some FAILED
  else if String.eqb v "replayed" then Some REPLAYED
  else None.

Definition status_in (v : string) (l : list ToolExecutionStatus) : bool :=
  existsb (fun s => String.eqb v (status_value s)) l.

(** ** Tables *)

Record LeaseRow : Type := {
  lr_owner_id : string;
  lr_fencing_token : nat;
  lr_expires_at : Q;
  lr_updated_at : Q;
}.

Record BreakerRow : Type := {
  br_state : string;
  br_failure_rate : Q;
  br_slow_call_rate : Q;
  br_last_transition_time : Q;
  br_updated_at : Q;
}.

Record LockoutRow : Type := {
  lo_expires_at : Q;
  lo_reason : string;
  lo_created_at : Q;
}.

Record Database : Type := {
  circuit_breakers : gmap string BreakerRow;
  tool_executions : odict string ToolExecutionRecord;
  durable_sessions : gmap string StoredSession;
  durable_attempts : gmap string StoredAttempt;
  durable_operations : gmap string StoredOperation;
  durable_operation_calls : gmap string (string * Q);
  durable_leases : gmap string LeaseRow;
  quota_lockouts : odict (string * string * string) LockoutRow;
}.

(** [_init_db] on a new file: empty tables. *)
Definition init_db : Database :=
  {| circuit_breakers := ∅; tool_executions := []; durable_sessions := ∅; durable_attempts := ∅;
     durable_operations := ∅; durable_operation_calls := ∅; durable_leases := ∅; quota_lockouts := [] |}.

Definition with_breakers t (d : Database) : Database :=
  Build_Database t (tool_executions d) (durable_sessions d) (durable_attempts d) (durable_operations d)
    (durable_operation_calls d) (durable_leases d) (quota_lockouts d).
Definition with_tools t (d : Database) : Database :=
  Build_Database (circuit_breakers d) t (durable_sessions d) (durable_attempts d) (durable_operations d)
    (durable_operation_calls d) (durable_leases d) (quota_lockouts d).
Definition with_sessions t (d : Database) : Database :=
  Build_Database (circuit_breakers d) (tool_executions d) t (durable_attempts d) (durable_operations d)
    (durable_operation_calls d) (durable_leases d) (quota_lockouts d).
Definition with_attempts t (d : Database) : Database :=
  Build_Database (circuit_breakers d) (tool_executions d) (durable_sessions d) t (durable_operations d)
    (durable_operation_calls d) (durable_leases d) (quota_lockouts d).
Definition with_operations t (d : Database) : Database :=
  Build_Database (circuit_breakers d) (tool_executions d) (durable_sessions d) (durable_attempts d) t
    (durable_operation_calls d) (durable_leases d) (quota_lockouts d).
Definition with_calls t (d : Database) : Database :=
  Build_Database (circuit_breakers d) (tool_executions d) (durable_sessions d) (durable_attempts d)
    (durable_operations d) t (durable_leases d) (quota_lockouts d).
Definition with_leases t (d : Database) : Database :=
  Build_Database (circuit_breakers d) (tool_executions d) (durable_sessions d) (durable_attempts d)
    (durable_operations d) (durable_operation_calls d) t (quota_lockouts d).
Definition with_lockouts t (d : Database) : Database :=
  Build_Database (circuit_breakers d) (tool_executions d) (durable_sessions d) (durable_attempts d)
    (durable_operations d) (durable_operation_calls d) (durable_leases d) t.

(** Row updates. *)
Definition op_set_status (st : string) (err : option string) (now : Q) (o : StoredOperation) : StoredOperation :=
  Build_StoredOperation (operation_key o) (op_logical_operation_id o) (op_tool_name o) (op_arguments_hash o)
    (op_arguments o) st (op_execution_receipt o) err (op_created_at o) now.
Definition op_set_committed (receipt : json) (now : Q) (o : StoredOperation) : StoredOperation :=
  Build_StoredOperation (operation_key o) (op_logical_operation_id o) (op_tool_name o) (op_arguments_hash o)
    (op_arguments o) (status_value COMMITTED) (Some receipt) None (op_created_at o) now.

(** [ORDER BY created_at, attempt_id] *)
Definition attempt_le (a b : StoredAttempt) : bool :=
  (sa_created_at a ≺ sa_created_at b) ||
  (Qeqb (sa_created_at a) (sa_created_at b) && String.leb (sa_attempt_id a) (sa_attempt_id b)).
Definition sort_attempts (l : list StoredAttempt) : list StoredAttempt := sort_by attempt_le l.

Section sqlite.
Context (sha256 : string -> string) (wall : nat -> Q).
Local Abbreviation DB := (M exn Database).

(** [_operation_key] *)
Definition operation_key_of (logical tool hash : string) : string :=
  let sep := String (Ascii.ascii_of_nat 31) "" in
  sha256 (logical ++ sep ++ tool ++ sep ++ hash)%string.

(** *** Breaker and receipt rows (legacy interface) *)

Definition save_breaker_state (id st : string) (failure slow last : Q) : DB unit :=
  transaction (
    now ← read_clock wall;
    modify (fun d => with_breakers
      (<[id := {| br_state := st; br_failure_rate := failure; br_slow_call_rate := slow;
                  br_last_transition_time := last; br_updated_at := now |}]> (circuit_breakers d)) d)).

Definition load_breaker_state (id : string) : DB (option BreakerRow) :=
  gets (fun d => circuit_breakers d !! id).

(** [save_tool_execution]: an upsert that keeps the identity columns of an
    existing row; an empty receipt is stored as NULL. *)
Definition save_tool_execution (r : ToolExecutionRecord) : DB unit :=
  let receipt := match execution_receipt r with
                 | Some j => if jtruthy j then Some j else None | None => None end in
  transaction (modify (fun d =>
    let base := match od_get (tool_call_id r) (tool_executions d) with Some old => old | None => r end in
    let row := {| tool_call_id := tool_call_id base; logical_operation_id := logical_operation_id base;
                  tool_name := tool_name base; arguments_hash := arguments_hash base;
                  arguments := arguments base; status := status r; execution_receipt := receipt;
                  created_at := created_at base; updated_at := updated_at r;
                  error_message := error_message base |} in
    with_tools (od_set (tool_call_id r) row (tool_executions d)) d)).

Definition check_tool_receipt (logical tool hash : string) : DB (bool * option json) :=
  d ← get;
  match find (fun r => String.eqb (logical_operation_id r) logical && String.eqb (tool_name r) tool &&
                       String.eqb (arguments_hash r) hash && bool_decide (status r = COMMITTED))
             (od_values (tool_executions d)) with
  | Some r => mret (match execution_receipt r with Some j => (true, Some j) | None => (false, None) end)
  | None => mret (false, None)
  end.

(** *** Quota lockouts *)

Definition record_quota_lockout (provider pool route : string) (expires : Q) (reason : option string) : DB unit :=
  now ← read_clock wall;
  modify (fun d => with_lockouts
    (od_set (py_lower provider, py_lower pool, py_lower route)
      {| lo_expires_at := expires; lo_reason := match reason with Some r => r | None => "" end;
         lo_created_at := now |} (quota_lockouts d)) d).

Definition get_active_quota_lockouts (pool : option string)
    : DB (list ((string * string * string) * LockoutRow)) :=
  now ← read_clock wall;
  gets (fun d =>
    let by_pool := match pool with
      | Some p => if truthy p then filter (fun kv => kv.1.1.2 = py_lower p) (quota_lockouts d) else quota_lockouts d
      | None => quota_lockouts d end in
    filter (fun kv => (now ≺ lo_expires_at kv.2) = true) by_pool).

Definition purge_expired_quota_lockouts : DB nat :=
  now ← read_clock wall;
  d ← get;
  let kept := filter (fun kv => (lo_expires_at kv.2 ⪯ now) = false) (quota_lockouts d) in
  modify (with_lockouts kept) ;;
  mret (length (quota_lockouts d) - length kept)%nat.

(** *** Sessions *)

Definition load_session (sid : string) : DB (option StoredSession) := gets (fun d => durable_sessions d !! sid).

Definition create_session (sid version : string) (payload : json) : DB (option StoredSession) :=
  now ← read_clock wall;
  transaction (
    d ← get;
    match durable_sessions d !! sid with
    | Some _ => mret None
    | None =>
        modify (fun d => with_sessions
          (<[sid := {| session_id := sid; protocol_version := version; session_payload := payload;
                       revision := 1; session_created_at := now; session_updated_at := now |}]>
            (durable_sessions d)) d) ;;
        gets (fun d => durable_sessions d !! sid)
    end).

Definition save_session (sid version : string) (payload : json) (expected_revision : nat)
    : DB (option StoredSession) :=
  now ← read_clock wall;
  transaction (
    d ← get;
    match durable_sessions d !! sid with
    | Some row =>
        if (revision row =? expected_revision)%nat then
          modify (fun d => with_sessions
            (<[sid := {| session_id := session_id row; protocol_version := version; session_payload := payload;
                         revision := S (revision row); session_created_at := session_created_at row;
                         session_updated_at := now |}]> (durable_sessions d)) d) ;;
          gets (fun d => durable_sessions d !! sid)
        else mret None
    | None => mret None
    end).

(** *** Attempts *)

Definition prepare_attempt (aid rid : string) (payload : json) : DB StoredAttempt :=
  now ← read_clock wall;
  row ← transaction (
    modify (fun d =>
      match durable_attempts d !! aid with
      | Some _ => d
      | None => with_attempts
          (<[aid := {| sa_attempt_id := aid; sa_request_id := rid; sa_status := "prepared"; sa_payload := payload;
                       sa_created_at := now; sa_updated_at := now |}]> (durable_attempts d)) d
      end) ;;
    gets (fun d => durable_attempts d !! aid));
  match row with
  | None => raise (DurableStoreError "Attempt intent was not persisted")
  | Some a => mret a
  end.

Definition load_attempt (aid : string) : DB (option StoredAttempt) := gets (fun d => durable_attempts d !! aid).

Definition attempts_for_request (rid : string) : DB (list StoredAttempt) :=
  gets (fun d => sort_attempts (filter (fun a => sa_request_id a = rid) (map snd (map_to_list (durable_attempts d))))).

Definition finish_attempt (aid st : string) (payload : json) : DB StoredAttempt :=
  now ← read_clock wall;
  transaction (
    d ← get;
    match durable_attempts d !! aid with
    | None => raise (DurableStoreError "Unknown durable attempt")
    | Some a =>
        let a' := {| sa_attempt_id := sa_attempt_id a; sa_request_id := sa_request_id a; sa_status := st;
                     sa_payload := payload; sa_created_at := sa_created_at a; sa_updated_at := now |} in
        modify (fun d => with_attempts (<[aid := a']> (durable_attempts d)) d) ;; mret a'
    end).

(** *** Operations and leases *)

(** [_operation_for_call_locked]: the join of calls and operations. *)
Definition lookup_call (call : string) (d : Database) : option StoredOperation :=
  match durable_operation_calls d !! call with
  | Some (key, _) => durable_operations d !! key
  | None => None
  end.

Definition operation_for_call (call : string) : DB (option StoredOperation) := gets (lookup_call call).

Definition operation_for_key (logical tool hash : string) : DB (option StoredOperation) :=
  gets (fun d => durable_operations d !! operation_key_of logical tool hash).

(** The UNIQUE constraint on (logical operation, tool, arguments hash). *)
Definition triple_taken (logical tool hash : string) (d : Database) : bool :=
  existsb (fun kv => String.eqb (op_logical_operation_id kv.2) logical && String.eqb (op_tool_name kv.2) tool &&
                     String.eqb (op_arguments_hash kv.2) hash) (map_to_list (durable_operations d)).

Definition prepare_operation (call logical tool hash : string) (args : json) : DB StoredOperation :=
  let key := operation_key_of logical tool hash in
  now ← read_clock wall;
  row ← transaction (
    modify (fun d =>
      match durable_operations d !! key with
      | Some _ => d
      | None =>
          if triple_taken logical tool hash d then d else
          with_operations (<[key := {| operation_key := key; op_logical_operation_id := logical; op_tool_name := tool;
            op_arguments_hash := hash; op_arguments := args; op_status := status_value PROPOSED;
            op_execution_receipt := None; op_error_message := None; op_created_at := now; op_updated_at := now |}]>
            (durable_operations d)) d
      end) ;;
    d ← get;
    match durable_operation_calls d !! call with
    | Some (bound, _) =>
        if String.eqb bound key then mret tt
        else raise (DurableStoreError "Tool call id is already bound to another operation")
    | None => modify (fun d => with_calls (<[call := (key, now)]> (durable_operation_calls d)) d)
    end ;;
    gets (fun d => durable_operations d !! key));
  match row with
  | None => raise (DurableStoreError "Operation intent was not persisted")
  | Some o => mret o
  end.

(** [_acquire_lease_locked] *)
Definition acquire_lease_locked (resource owner : string) (ttl now : Q) : DB (option Lease) :=
  let expires := (now + py_max (1 # 1000) ttl)%Q in
  let mk tok := {| lease_resource := resource; lease_owner := owner; fencing_token := tok; lease_expires_at := expires |} in
  let write tok := modify (fun d => with_leases (<[resource := {| lr_owner_id := owner; lr_fencing_token := tok;
      lr_expires_at := expires; lr_updated_at := now |}]> (durable_leases d)) d) in
  d ← get;
  match durable_leases d !! resource with
  | None => write 1%nat ;; mret (Some (mk 1%nat))
  | Some row =>
      if String.eqb (lr_owner_id row) owner then
        write (lr_fencing_token row) ;; mret (Some (mk (lr_fencing_token row)))
      else if lr_expires_at row ⪯ now then
        write (S (lr_fencing_token row)) ;; mret (Some (mk (S (lr_fencing_token row))))
      else mret None
  end.

Definition acquire_lease (resource owner : string) (ttl : Q) : DB (option Lease) :=
  transaction (now ← read_clock wall; acquire_lease_locked resource owner ttl now).

Definition owns (resource owner : string) (token : nat) (d : Database) : bool :=
  match durable_leases d !! resource with
  | Some row => String.eqb (lr_owner_id row) owner && (lr_fencing_token row =? token)%nat
  | None => false
  end.

(** [DELETE ... WHERE resource AND owner AND token] *)
Definition delete_owned (resource owner : string) (token : nat) (d : Database) : Database :=
  if owns resource owner token d then with_leases (delete resource (durable_leases d)) d else d.

Definition release_lease (resource owner : string) (token : nat) : DB bool :=
  transaction (
    d ← get;
    modify (delete_owned resource owner token) ;;
    mret (owns resource owner token d)).

(** [_assert_lease_locked] *)
Definition assert_lease_locked (resource owner : string) (token : nat) (now : Q) : DB unit :=
  d ← get;
  match durable_leases d !! resource with
  | Some row =>
      if String.eqb (lr_owner_id row) owner && (lr_fencing_token row =? token)%nat && negb (lr_expires_at row ⪯ now)
      then mret tt else raise (LeaseUnavailableError resource)
  | None => raise (LeaseUnavailableError resource)
  end.

Definition op_resource (o : StoredOperation) : string := ("operation:" ++ operation_key o)%string.

(** [SELECT ... WHERE operation_key], then the conversion of the row. *)
Definition reload (key : string) : DB StoredOperation :=
  d ← get;
  match durable_operations d !! key with
  | Some o => mret o
  | None => raise (RuntimeError "row vanished")
  end.

Definition unknown_call {A} : DB A := raise (DurableStoreError "Unknown tool call").

Definition mark_operation_validated (call : string) : DB StoredOperation :=
  transaction (
    d ← get;
    match lookup_call call d with
    | None => unknown_call
    | Some op =>
        (if String.eqb (op_status op) (status_value PROPOSED) then
           now ← read_clock wall;
           modify (fun d => with_operations
             (alter (op_set_status (status_value VALIDATED) (op_error_message op) now) (operation_key op)
               (durable_operations d)) d)
         else mret tt) ;;
        reload (operation_key op)
    end).

Definition mark_operation_submitted (call owner : string) (ttl : Q) : DB Lease :=
  transaction (
    d ← get;
    match lookup_call call d with
    | None => unknown_call
    | Some op =>
        if negb (status_in (op_status op) [PROPOSED; VALIDATED])
        then raise (DurableStoreError "Operation cannot be submitted") else
        now ← read_clock wall;
        lease ← acquire_lease_locked (op_resource op) owner ttl now;
        match lease with
        | None => raise (LeaseUnavailableError (op_resource op))
        | Some le =>
            modify (fun d => with_operations
              (alter (op_set_status (status_value SUBMITTED) (op_error_message op) now) (operation_key op)
                (durable_operations d)) d) ;;
            mret le
        end
    end).

Definition mark_operation_committed (call owner : string) (token : nat) (receipt : json) : DB StoredOperation :=
  transaction (
    d ← get;
    match lookup_call call d with
    | None => unknown_call
    | Some op =>
        now0 ← read_clock wall;
        assert_lease_locked (op_resource op) owner token now0 ;;
        if negb (String.eqb (op_status op) (status_value SUBMITTED))
        then raise (DurableStoreError "Operation cannot commit") else
        now ← read_clock wall;
        modify (fun d => with_operations
          (alter (op_set_committed receipt now) (operation_key op) (durable_operations d)) d) ;;
        modify (delete_owned (op_resource op) owner token) ;;
        reload (operation_key op)
    end).

Definition mark_operation_indeterminate (call reason : string) : DB StoredOperation :=
  transaction (
    d ← get;
    match lookup_call call d with
    | None => unknown_call
    | Some op =>
        (if negb (String.eqb (op_status op) (status_value COMMITTED)) then
           now ← read_clock wall;
           modify (fun d => with_operations
             (alter (op_set_status (status_value INDETERMINATE) (Some reason) now) (operation_key op)
               (durable_operations d)) d) ;;
           modify (fun d => with_leases (delete (op_resource op) (durable_leases d)) d)
         else mret tt) ;;
        reload (operation_key op)
    end).

Definition mark_operation_failed (call reason : string) : DB StoredOperation :=
  transaction (
    d ← get;
    match lookup_call call d with
    | None => unknown_call
    | Some op =>
        (if negb (status_in (op_status op) [COMMITTED; SUBMITTED]) then
           now ← read_clock wall;
           modify (fun d => with_operations
             (alter (op_set_status (status_value FAILED) (Some reason) now) (operation_key op)
               (durable_operations d)) d)
         else mret tt) ;;
        reload (operation_key op)
    end).

(** [recover_inflight_operations]: two bulk statements in one transaction. *)
Definition is_submitted (o : StoredOperation) : bool := String.eqb (op_status o) (status_value SUBMITTED).

Definition recover_inflight_operations (reason : string) : DB nat :=
  transaction (
    now ← read_clock wall;
    d ← get;
    let hit := filter (fun kv => is_submitted kv.2 = true) (map_to_list (durable_operations d)) in
    modify (fun d => with_operations
      ((fun o => if is_submitted o then op_set_status (status_value INDETERMINATE) (Some reason) now o else o)
        <$> durable_operations d) d) ;;
    modify (fun d =>
      let stale := map (fun kv => ("operation:" ++ kv.1)%string)
        (filter (fun kv => op_status kv.2 = status_value INDETERMINATE) (map_to_list (durable_operations d))) in
      with_leases (filter (fun kv => kv.1 ∉ stale) (durable_leases d)) d) ;;
    mret (length hit)).

Definition operation_requires_manual_resolution (o : StoredOperation) : bool :=
  status_in (op_status o) [SUBMITTED; INDETERMINATE; AMBIGUOUS].
End sqlite.
