(* ===== verification/SqliteProps.v ===== *)
(** * Safety of the durable store

    The life cycle of a durable tool operation as a relation on rows, the
    theorem that every method of [src/durallm/storage/sqlite.py] only moves
    rows along it, and what follows for every interleaving of callers:
    at-most-once submission, immutable receipts, fenced commits, fail-closed
    recovery, lost-update freedom of sessions. *)

From stdpp Require Import base tactics list gmap strings.
From Stdlib Require Import QArith Lqa.
From S2P Require Import Prelude Models Json ToolLedger SqliteStore.

(** ** The life cycle of a row *)

Definition same_identity (o o' : StoredOperation) : Prop :=
  operation_key o' = operation_key o /\ op_logical_operation_id o' = op_logical_operation_id o /\
  op_tool_name o' = op_tool_name o /\ op_arguments_hash o' = op_arguments_hash o /\
  op_arguments o' = op_arguments o /\ op_created_at o' = op_created_at o.

Definition has_status (o : StoredOperation) (s : ToolExecutionStatus) : Prop := op_status o = status_value s.

Inductive op_edge (o o' : StoredOperation) : Prop :=
| edge_validate : has_status o PROPOSED -> has_status o' VALIDATED ->
    op_execution_receipt o' = op_execution_receipt o -> op_edge o o'
| edge_submit : has_status o PROPOSED \/ has_status o VALIDATED -> has_status o' SUBMITTED ->
    op_execution_receipt o' = op_execution_receipt o -> op_edge o o'
| edge_commit r : has_status o SUBMITTED -> has_status o' COMMITTED ->
    op_execution_receipt o' = Some r -> op_edge o o'
| edge_lose : ~ has_status o COMMITTED -> has_status o' INDETERMINATE ->
    op_execution_receipt o' = op_execution_receipt o -> op_edge o o'
| edge_fail : ~ has_status o COMMITTED -> ~ has_status o SUBMITTED -> has_status o' FAILED ->
    op_execution_receipt o' = op_execution_receipt o -> op_edge o o'.

Definition row_step (o o' : StoredOperation) : Prop :=
  o' = o \/ (same_identity o o' /\ op_edge o o').

(** How the operations table may change in one call. *)
Definition ops_evolve (t t' : gmap string StoredOperation) : Prop := forall k,
  match t !! k, t' !! k with
  | None, None => True
  | None, Some o' => has_status o' PROPOSED /\ operation_key o' = k /\ op_execution_receipt o' = None
  | Some o, Some o' => row_step o o'
  | Some _, None => False
  end.

(** Rows are stored under their own key. *)
Definition keys_ok (d : Database) : Prop :=
  forall k o, durable_operations d !! k = Some o -> operation_key o = k.

Lemma status_value_inj s s' : status_value s = status_value s' -> s = s'.
Proof. destruct s, s'; simpl; intros; congruence. Qed.

(** The status column round-trips: decoding the stored text of a status
    gives the status back, and two statuses never share a text. *)
Theorem status_roundtrip s s' :
  status_of_value (status_value s) = Some s /\ (status_value s = status_value s' <-> s = s').
Proof. split; [by destruct s | split; [apply status_value_inj | congruence]]. Qed.

Lemma status_in_true v l : status_in v l = true <-> exists s, In s l /\ v = status_value s.
Proof.
  unfold status_in. rewrite existsb_exists. split; intros (s & Hin & H); exists s; split; try done;
    by apply String.eqb_eq.
Qed.

Lemma ops_evolve_refl t : ops_evolve t t.
Proof. intros k. destruct (t !! k); [by left | done]. Qed.

Lemma row_step_identity o o' : row_step o o' -> same_identity o o'.
Proof. intros [->|[? _]]; [by split_and! | done]. Qed.

Lemma ops_evolve_alter t k f o :
  t !! k = Some o -> row_step o (f o) -> ops_evolve t (alter f k t).
Proof.
  intros Hk Hstep k'. rewrite lookup_alter. case_decide as Hd.
  - subst. rewrite Hk. simpl. exact Hstep.
  - destruct (t !! k'); [by left | done].
Qed.

Lemma ops_evolve_keys d d' : keys_ok d -> ops_evolve (durable_operations d) (durable_operations d') -> keys_ok d'.
Proof.
  intros Hk He k o' Ho'. specialize (He k). rewrite Ho' in He.
  destruct (durable_operations d !! k) as [o|] eqn:Eo.
  - apply row_step_identity in He as (-> & _). by apply Hk.
  - apply He.
Qed.

Lemma lookup_call_Some call d op : keys_ok d -> lookup_call call d = Some op ->
  durable_operations d !! operation_key op = Some op.
Proof.
  unfold lookup_call. intros Hk. destruct (durable_operation_calls d !! call) as [[key t]|]; [|done].
  intros Ho. by rewrite (Hk _ _ Ho).
Qed.

Lemma op_set_status_identity st e now o : same_identity o (op_set_status st e now o).
Proof. by split_and!. Qed.

(** ** Every method moves rows along the life cycle *)

Inductive store_op : Type :=
| SPrepare (call logical tool hash : string) (args : json)
| SValidate (call : string)
| SSubmit (call owner : string) (ttl : Q)
| SCommit (call owner : string) (token : nat) (receipt : json)
| SIndeterminate (call reason : string)
| SFail (call reason : string)
| SRecover (reason : string)
| SAcquire (resource owner : string) (ttl : Q)
| SRelease (resource owner : string) (token : nat)
| SCreateSession (sid version : string) (payload : json)
| SSaveSession (sid version : string) (payload : json) (expected : nat)
| SPrepareAttempt (aid rid : string) (payload : json)
| SFinishAttempt (aid st : string) (payload : json)
| SSaveBreaker (id st : string) (failure slow last : Q)
| SSaveTool (r : ToolExecutionRecord)
| SLockout (provider pool route : string) (expires : Q) (reason : option string)
| SPurge.

Section store.
Context (sha256 : string -> string) (wall : nat -> Q).
Implicit Types d : Database.

(** Runs a method and reports whether it returned. *)
Definition run_store (o : store_op) (d : Database) (n : nat) : bool * Database * nat :=
  let fin {A} (r : res exn A * Database * nat) := (res_ok (out_res r), out_st r, out_tick r) in
  match o with
  | SPrepare c l t h a => fin (prepare_operation sha256 wall c l t h a d n)
  | SValidate c => fin (mark_operation_validated wall c d n)
  | SSubmit c ow ttl => fin (mark_operation_submitted wall c ow ttl d n)
  | SCommit c ow tok r => fin (mark_operation_committed wall c ow tok r d n)
  | SIndeterminate c r => fin (mark_operation_indeterminate wall c r d n)
  | SFail c r => fin (mark_operation_failed wall c r d n)
  | SRecover r => fin (recover_inflight_operations wall r d n)
  | SAcquire rs ow ttl => fin (acquire_lease wall rs ow ttl d n)
  | SRelease rs ow tok => fin (release_lease rs ow tok d n)
  | SCreateSession s v p => fin (create_session wall s v p d n)
  | SSaveSession s v p e => fin (save_session wall s v p e d n)
  | SPrepareAttempt a r p => fin (prepare_attempt wall a r p d n)
  | SFinishAttempt a st p => fin (finish_attempt wall a st p d n)
  | SSaveBreaker i st f s l => fin (save_breaker_state wall i st f s l d n)
  | SSaveTool r => fin (save_tool_execution r d n)
  | SLockout p po r e rs => fin (record_quota_lockout wall p po r e rs d n)
  | SPurge => fin (purge_expired_quota_lockouts wall d n)
  end.

(** A transaction that raises changes nothing. *)
Lemma transaction_out {A} (m : M exn Database A) d n :
  out_st (transaction m d n) = (if res_ok (out_res (m d n)) then out_st (m d n) else d) /\
  out_res (transaction m d n) = out_res (m d n).
Proof. unfold transaction. by destruct (m d n) as [[[a|e] d'] n']. Qed.

(** Leases never touch the other tables. *)
Lemma acquire_lease_locked_out rs ow ttl now d n :
  exists r d', acquire_lease_locked rs ow ttl now d n = (Ok r, d', n) /\
    durable_operations d' = durable_operations d /\ durable_operation_calls d' = durable_operation_calls d /\
    durable_sessions d' = durable_sessions d /\ durable_attempts d' = durable_attempts d.
Proof.
  unfold acquire_lease_locked. mstep. destruct (durable_leases d !! rs) as [row|].
  - case_match; [|case_match]; [mstep|mstep|]; eexists _, _; by split_and!.
  - mstep. eexists _, _; by split_and!.
Qed.

Definition evolves {A} (m : M exn Database A) : Prop :=
  forall d n, keys_ok d -> ops_evolve (durable_operations d) (durable_operations (out_st (m d n))).

Lemma evolves_transaction {A} (m : M exn Database A) :
  (forall d n, keys_ok d -> res_ok (out_res (m d n)) = true ->
    ops_evolve (durable_operations d) (durable_operations (out_st (m d n)))) -> evolves (transaction m).
Proof.
  intros Hm d n Hk. destruct (transaction_out m d n) as [-> _].
  destruct (res_ok (out_res (m d n))) eqn:E; [by apply Hm | apply ops_evolve_refl].
Qed.

Lemma evolves_same {A} (m : M exn Database A) :
  (forall d n, durable_operations (out_st (m d n)) = durable_operations d) -> evolves m.
Proof. intros Hm d n _. rewrite Hm. apply ops_evolve_refl. Qed.

(** Reloading a row raises or returns it and changes nothing. *)
Lemma reload_st k d n : out_st (reload k d n) = d.
Proof. unfold reload. mstep. by case_match. Qed.

Lemma mark_operation_validated_evolves c : evolves (mark_operation_validated wall c).
Proof.
  apply evolves_transaction. intros d n Hk. mstep.
  destruct (lookup_call c d) as [op|] eqn:El; [|done]. apply lookup_call_Some in El; [|done].
  destruct (String.eqb (op_status op) (status_value PROPOSED)) eqn:Es.
  - apply String.eqb_eq in Es. intros _. erewrite bind_ok by reflexivity. rewrite reload_st. simpl.
    eapply ops_evolve_alter; [exact El|]. right. split; [apply op_set_status_identity|].
    by apply edge_validate.
  - intros _. erewrite bind_ok by reflexivity. rewrite reload_st. apply ops_evolve_refl.
Qed.

Lemma mark_operation_submitted_out c ow ttl d n :
  keys_ok d -> res_ok (out_res (mark_operation_submitted wall c ow ttl d n)) = true ->
  exists op now, lookup_call c d = Some op /\ durable_operations d !! operation_key op = Some op /\
    (has_status op PROPOSED \/ has_status op VALIDATED) /\
    durable_operations (out_st (mark_operation_submitted wall c ow ttl d n)) =
      alter (op_set_status (status_value SUBMITTED) (op_error_message op) now) (operation_key op)
        (durable_operations d).
Proof.
  intros Hk. unfold mark_operation_submitted, transaction. erewrite bind_ok by reflexivity. cbv beta.
  destruct (lookup_call c d) as [op|] eqn:El; [|done].
  destruct (status_in (op_status op) [PROPOSED; VALIDATED]) eqn:Es; cbn [negb]; [|done].
  erewrite bind_ok by reflexivity. cbv beta.
  destruct (acquire_lease_locked_out (op_resource op) ow ttl (wall n) d (S n)) as (r & d' & Ha & Hop & _).
  erewrite bind_ok by exact Ha. cbv beta. destruct r as [le|]; [|done].
  intros _. exists op, (wall n). split_and!; [done | by eapply lookup_call_Some | |].
  - apply status_in_true in Es as (s & Hs & Hv). unfold has_status.
    destruct Hs as [<-|[<-|[]]]; auto.
  - unfold out_st. simpl. by rewrite Hop.
Qed.

Lemma mark_operation_submitted_evolves c ow ttl : evolves (mark_operation_submitted wall c ow ttl).
Proof.
  intros d n Hk. destruct (res_ok (out_res (mark_operation_submitted wall c ow ttl d n))) eqn:E.
  - destruct (mark_operation_submitted_out c ow ttl d n Hk E) as (op & now & _ & Hl & Hs & ->).
    eapply ops_evolve_alter; [exact Hl|]. right. split; [apply op_set_status_identity|]. by apply edge_submit.
  - revert E. unfold mark_operation_submitted.
    match goal with |- context [transaction ?m] => destruct (transaction_out m d n) as [-> ->] end.
    intros ->. apply ops_evolve_refl.
Qed.

Lemma delete_owned_ops rs ow tok d : durable_operations (delete_owned rs ow tok d) = durable_operations d.
Proof. unfold delete_owned. by case_match. Qed.

(** A commit that returns was fenced by a live lease of its caller. *)
Lemma mark_operation_committed_out c ow tok r d n :
  keys_ok d -> res_ok (out_res (mark_operation_committed wall c ow tok r d n)) = true ->
  exists op row now, lookup_call c d = Some op /\ durable_operations d !! operation_key op = Some op /\
    has_status op SUBMITTED /\
    durable_leases d !! op_resource op = Some row /\ lr_owner_id row = ow /\ lr_fencing_token row = tok /\
    (wall n < lr_expires_at row)%Q /\
    durable_operations (out_st (mark_operation_committed wall c ow tok r d n)) =
      alter (op_set_committed r now) (operation_key op) (durable_operations d).
Proof.
  intros Hk. unfold mark_operation_committed, transaction. erewrite bind_ok by reflexivity. cbv beta.
  destruct (lookup_call c d) as [op|] eqn:El; [|done].
  erewrite bind_ok by reflexivity. cbv beta. unfold assert_lease_locked.
  destruct (durable_leases d !! op_resource op) as [row|] eqn:Er.
  2: { erewrite bind_raise; [done|]. erewrite bind_ok by reflexivity. cbv beta. by rewrite Er. }
  destruct (String.eqb (lr_owner_id row) ow && (lr_fencing_token row =? tok)%nat &&
            negb (lr_expires_at row ⪯ wall n)) eqn:Ec.
  2: { erewrite bind_raise; [done|]. erewrite bind_ok by reflexivity. cbv beta. by rewrite Er, Ec. }
  erewrite bind_ok. 2: { erewrite bind_ok by reflexivity. cbv beta. rewrite Er, Ec. reflexivity. }
  destruct (String.eqb (op_status op) (status_value SUBMITTED)) eqn:Es; cbn [negb]; [|done].
  apply andb_true_iff in Ec as [[H1%String.eqb_eq H2%Nat.eqb_eq]%andb_true_iff H3%negb_true_iff].
  apply String.eqb_eq in Es. apply lookup_call_Some in El as Hl; [|done].
  do 3 (erewrite bind_ok by reflexivity; cbv beta).
  intros _. exists op, row, (wall (S n)). qbool. split_and!; try done.
  unfold reload. erewrite bind_ok by reflexivity. cbv beta.
  match goal with |- context [durable_operations ?x !! ?k] =>
    destruct (durable_operations x !! k) eqn:Eq end; unfold out_st; simpl.
  - by rewrite delete_owned_ops.
  - exfalso. rewrite delete_owned_ops in Eq. simpl in Eq. by rewrite lookup_alter_eq, Hl in Eq.
Qed.

Lemma mark_operation_committed_evolves c ow tok r : evolves (mark_operation_committed wall c ow tok r).
Proof.
  intros d n Hk. destruct (res_ok (out_res (mark_operation_committed wall c ow tok r d n))) eqn:E.
  - destruct (mark_operation_committed_out c ow tok r d n Hk E) as (op & row & now & _ & Hl & Hs & _ & _ & _ & _ & ->).
    eapply ops_evolve_alter; [exact Hl|]. right. split; [by split_and!|]. by apply edge_commit with (r := r).
  - revert E. unfold mark_operation_committed.
    match goal with |- context [transaction ?m] => destruct (transaction_out m d n) as [-> ->] end.
    intros ->. apply ops_evolve_refl.
Qed.
Lemma mark_operation_indeterminate_evolves c r : evolves (mark_operation_indeterminate wall c r).
Proof.
  apply evolves_transaction. intros d n Hk. mstep.
  destruct (lookup_call c d) as [op|] eqn:El; [|done]. apply lookup_call_Some in El; [|done].
  destruct (String.eqb (op_status op) (status_value COMMITTED)) eqn:Es; cbn [negb]; intros _;
    erewrite bind_ok by reflexivity; rewrite reload_st.
  - apply ops_evolve_refl.
  - apply String.eqb_neq in Es. simpl. eapply ops_evolve_alter; [exact El|]. right.
    split; [apply op_set_status_identity|]. by apply edge_lose.
Qed.

Lemma mark_operation_failed_evolves c r : evolves (mark_operation_failed wall c r).
Proof.
  apply evolves_transaction. intros d n Hk. mstep.
  destruct (lookup_call c d) as [op|] eqn:El; [|done]. apply lookup_call_Some in El; [|done].
  destruct (status_in (op_status op) [COMMITTED; SUBMITTED]) eqn:Es; cbn [negb]; intros _;
    erewrite bind_ok by reflexivity; rewrite reload_st.
  - apply ops_evolve_refl.
  - apply not_true_iff_false in Es. rewrite status_in_true in Es. simpl.
    eapply ops_evolve_alter; [exact El|]. right. split; [apply op_set_status_identity|].
    apply edge_fail; try done; intros Hs; apply Es; eexists; (split; [|exact Hs]); simpl; auto.
Qed.

Lemma prepare_operation_out c l t h a d n :
  let d' := out_st (prepare_operation sha256 wall c l t h a d n) in
  durable_operations d' = durable_operations d \/
  exists o, durable_operations d' = <[operation_key_of sha256 l t h := o]> (durable_operations d) /\
    durable_operations d !! operation_key_of sha256 l t h = None /\
    has_status o PROPOSED /\ operation_key o = operation_key_of sha256 l t h /\ op_execution_receipt o = None.
Proof.
  unfold prepare_operation. mstep. set (key := operation_key_of sha256 l t h).
  match goal with |- context [mbind ?k (transaction ?m) d (S n)] =>
    set (k1 := k); set (m1 := m);
    assert (out_st (mbind k1 (transaction m1) d (S n)) = out_st (transaction m1 d (S n))) as -> end.
  { unfold mbind, M_bind. destruct (transaction m1 d (S n)) as [[[[o|]|e] d'] n']; done. }
  destruct (transaction_out m1 d (S n)) as [-> _].
  destruct (res_ok (out_res (m1 d (S n)))); [|by left]. unfold m1. mstep. mstep. clear k1 m1.
  match goal with |- context [durable_operation_calls ?x !! c] => set (d1 := x) end.
  assert (forall x, durable_operations (out_st ((match durable_operation_calls d1 !! c with
    | Some (bound, _) => if String.eqb bound key then mret tt
        else raise (DurableStoreError "Tool call id is already bound to another operation")
    | None => modify (fun d => with_calls (<[c := (key, wall n)]> (durable_operation_calls d)) d)
    end ;; gets (fun d => durable_operations d !! key) : M exn Database _) d1 x)) = durable_operations d1) as ->.
  { intros x. destruct (durable_operation_calls d1 !! c) as [[bound u]|]; [|done].
    by destruct (String.eqb bound key). }
  unfold d1. destruct (durable_operations d !! key) eqn:Ek; [by left|]. case_match; [by left|].
  right. eexists. split; [reflexivity|]. by split_and!.
Qed.

Lemma prepare_operation_evolves c l t h a : evolves (prepare_operation sha256 wall c l t h a).
Proof.
  intros d n Hk. destruct (prepare_operation_out c l t h a d n) as [->|(o & -> & Hn & Hs & Hok & Hr)];
    [apply ops_evolve_refl|].
  intros k. rewrite lookup_insert. case_decide as Hd; [subst k; rewrite Hn; done|].
  destruct (durable_operations d !! k); [by left | done].
Qed.

Lemma recover_ops r d n :
  durable_operations (out_st (recover_inflight_operations wall r d n)) =
  (fun o => if is_submitted o then op_set_status (status_value INDETERMINATE) (Some r) (wall n) o else o)
    <$> durable_operations d.
Proof. reflexivity. Qed.

Lemma recover_evolves r : evolves (recover_inflight_operations wall r).
Proof.
  intros d n Hk k. rewrite recover_ops, lookup_fmap. destruct (durable_operations d !! k) as [o|]; [|done]. simpl.
  destruct (is_submitted o) eqn:Es; [|by left]. apply String.eqb_eq in Es. right.
  split; [apply op_set_status_identity|]. apply edge_lose; try done. unfold has_status. by rewrite Es.
Qed.

Lemma acquire_lease_ops rs ow ttl : evolves (acquire_lease wall rs ow ttl).
Proof.
  apply evolves_transaction. intros d n _ _. mstep.
  destruct (acquire_lease_locked_out rs ow ttl (wall n) d (S n)) as (r & d' & -> & Hop & _).
  unfold out_st. simpl. rewrite Hop. apply ops_evolve_refl.
Qed.

Lemma run_store_evolves o d n : keys_ok d ->
  ops_evolve (durable_operations d) (durable_operations (snd (fst (run_store o d n)))).
Proof.
  intros Hk. destruct o; unfold run_store; cbn [fst snd].
  - by apply prepare_operation_evolves.
  - by apply mark_operation_validated_evolves.
  - by apply mark_operation_submitted_evolves.
  - by apply mark_operation_committed_evolves.
  - by apply mark_operation_indeterminate_evolves.
  - by apply mark_operation_failed_evolves.
  - by apply recover_evolves.
  - by apply acquire_lease_ops.
  - apply evolves_transaction; [|done]. intros d0 n0 _ _. mstep. mstep. unfold out_st. simpl.
    rewrite delete_owned_ops. apply ops_evolve_refl.
  - apply (evolves_same (create_session wall sid version payload)); [|done]. intros d0 n0.
    unfold create_session, transaction. mstep. mstep. by destruct (durable_sessions d0 !! sid).
  - apply (evolves_same (save_session wall sid version payload expected)); [|done]. intros d0 n0.
    unfold save_session, transaction. mstep. mstep. destruct (durable_sessions d0 !! sid) as [row|]; [|done].
    by destruct (revision row =? expected)%nat.
  - apply (evolves_same (prepare_attempt wall aid rid payload)); [|done]. intros d0 n0.
    unfold prepare_attempt. mstep. unfold transaction, mbind, M_bind. simpl.
    destruct (durable_attempts d0 !! aid) eqn:E; simpl; [by rewrite E | by rewrite lookup_insert_eq].
  - apply (evolves_same (finish_attempt wall aid st payload)); [|done]. intros d0 n0.
    unfold finish_attempt, transaction. mstep. mstep. by destruct (durable_attempts d0 !! aid).
  - apply (evolves_same (save_breaker_state wall id st failure slow last0)); done.
  - apply (evolves_same (save_tool_execution r)); done.
  - apply (evolves_same (record_quota_lockout wall provider pool route expires reason)); done.
  - apply (evolves_same (purge_expired_quota_lockouts wall)); done.
Qed.

Lemma run_store_keys o d n : keys_ok d -> keys_ok (snd (fst (run_store o d n))).
Proof. intros Hk. eapply ops_evolve_keys; [exact Hk | by apply run_store_evolves]. Qed.

Fixpoint run_stores (ops : list store_op) (d : Database) (n : nat) : Database * nat :=
  match ops with
  | [] => (d, n)
  | o :: ops' => let '(_, d', n') := run_store o d n in run_stores ops' d' n'
  end.

Lemma run_stores_keys ops d n : keys_ok d -> keys_ok (fst (run_stores ops d n)).
Proof.
  revert d n. induction ops as [|o ops IH]; intros d n Hk; [done|]. simpl.
  pose proof (run_store_keys o d n Hk) as Hk'. destruct (run_store o d n) as [[b d'] n']. by apply IH.
Qed.

(** ** At-most-once submission *)

(** Does this call submit (successfully) the operation stored under [k]? *)
Definition submits (k : string) (o : store_op) (d : Database) (n : nat) : nat :=
  match o with
  | SSubmit c _ _ =>
      match lookup_call c d with
      | Some op => if String.eqb (operation_key op) k && fst (fst (run_store o d n)) then 1 else 0
      | None => 0
      end
  | _ => 0
  end.

Fixpoint count_submits (k : string) (ops : list store_op) (d : Database) (n : nat) : nat :=
  match ops with
  | [] => 0
  | o :: ops' => let '(_, d', n') := run_store o d n in (submits k o d n + count_submits k ops' d' n')%nat
  end.

(** 1 while the operation may still be submitted. *)
Definition pending (k : string) (d : Database) : nat :=
  match durable_operations d !! k with
  | None => 1
  | Some o => if status_in (op_status o) [PROPOSED; VALIDATED] then 1 else 0
  end.

Lemma op_edge_pending o o' : op_edge o o' ->
  status_in (op_status o') [PROPOSED; VALIDATED] = true -> status_in (op_status o) [PROPOSED; VALIDATED] = true.
Proof.
  unfold has_status. intros He. rewrite !status_in_true. intros (s & Hs & Hv).
  destruct He as [H1 H2 _|H1 H2 _|r H1 H2 _|H1 H2 _|H1 H3 H2 _]; rewrite H2 in Hv; apply status_value_inj in Hv; subst s.
  - exists PROPOSED. simpl; auto.
  - destruct Hs as [?|[?|[]]]; done.
  - destruct Hs as [?|[?|[]]]; done.
  - destruct Hs as [?|[?|[]]]; done.
  - destruct Hs as [?|[?|[]]]; done.
Qed.

Lemma pending_evolve k d d' :
  ops_evolve (durable_operations d) (durable_operations d') -> (pending k d' <= pending k d)%nat.
Proof.
  intros He. specialize (He k). unfold pending.
  destruct (durable_operations d !! k) as [o|], (durable_operations d' !! k) as [o'|]; try done.
  - destruct He as [->|[_ He]]; [done|]. pose proof (op_edge_pending _ _ He).
    destruct (status_in (op_status o') _); [|lia]. rewrite H by done. lia.
  - destruct (status_in (op_status o') _); lia.
Qed.

Lemma submits_pending k o d n : keys_ok d ->
  (submits k o d n + pending k (snd (fst (run_store o d n))) <= pending k d)%nat.
Proof.
  intros Hk. pose proof (pending_evolve k d _ (run_store_evolves o d n Hk)) as Hle.
  destruct o; simpl submits; try exact Hle.
  destruct (lookup_call call d) as [op|] eqn:El; [|exact Hle].
  destruct (String.eqb (operation_key op) k) eqn:Ek; [|exact Hle]. apply String.eqb_eq in Ek.
  destruct (fst (fst (run_store (SSubmit call owner ttl) d n))) eqn:Er; unfold run_store in Er; cbn [fst] in Er;
    rewrite Er; simpl; [|exact Hle]. clear Hle.
  destruct (mark_operation_submitted_out call owner ttl d n Hk Er) as (op' & now & El' & Hl & Hs & Heq).
  rewrite El in El'. injection El' as <-.
  assert (status_in (op_status op) [PROPOSED; VALIDATED] = true) as Hp.
  { apply status_in_true. destruct Hs as [Hs|Hs]; eexists; (split; [|exact Hs]); simpl; auto. }
  unfold pending. rewrite Heq, <- Ek, Hl, lookup_alter_eq, Hl, Hp. reflexivity.
Qed.

Lemma count_submits_pending k ops d n : keys_ok d -> (count_submits k ops d n <= pending k d)%nat.
Proof.
  revert d n. induction ops as [|o ops IH]; intros d n Hk; simpl; [lia|].
  pose proof (submits_pending k o d n Hk) as Hs. pose proof (run_store_keys o d n Hk) as Hk'.
  destruct (run_store o d n) as [[b d'] n']. cbn [fst snd] in *. specialize (IH d' n' Hk'). lia.
Qed.

(** A committed row never changes again. *)
Lemma committed_frozen ops k o d n : keys_ok d ->
  durable_operations d !! k = Some o -> has_status o COMMITTED ->
  durable_operations (fst (run_stores ops d n)) !! k = Some o.
Proof.
  intros Hk Ho Hs. revert d n Hk Ho. induction ops as [|op ops IH]; intros d n Hk Ho; [done|]. simpl.
  pose proof (run_store_evolves op d n Hk k) as He. pose proof (run_store_keys op d n Hk) as Hk'.
  destruct (run_store op d n) as [[b d'] n']. cbn [fst snd] in *. apply IH; [done|].
  rewrite Ho in He. destruct (durable_operations d' !! k) as [o'|]; [|done].
  destruct He as [->|[_ He]]; [done|]. exfalso.
  destruct He as [H1 _ _|[H1|H1] _ _|r H1 _ _|H1 _ _|H1 _ _ _]; unfold has_status in *; try congruence;
    rewrite Hs in H1; discriminate.
Qed.
End store.

(** ** Properties *)

Lemma init_keys_ok : keys_ok init_db.
Proof. intros k o Ho. simpl in Ho. by rewrite lookup_empty in Ho. Qed.

(** C11: refinement of the life cycle.  On a store whose rows carry their own
    key, every method, whether it returns or raises, leaves every operation row
    unchanged or moves it along one edge of the life cycle (validate, submit,
    commit, lose, fail) with its identity columns intact; it never deletes a
    row, and new rows start as proposed without a receipt. *)
Theorem store_refines_lifecycle sha256 wall o d n :
  keys_ok d ->
  let d' := snd (fst (run_store sha256 wall o d n)) in
  ops_evolve (durable_operations d) (durable_operations d') /\ keys_ok d'.
Proof. intros Hk. split; [by apply run_store_evolves | by apply run_store_keys]. Qed.

Definition demo_wall (n : nat) : Q := Qnat n.
Definition demo_store (ops : list store_op) : Database := fst (run_stores (fun s => s) demo_wall ops init_db 0%nat).
Lemma demo_store_keys ops : keys_ok (demo_store ops).
Proof. apply run_stores_keys, init_keys_ok. Qed.
Definition demo_prepare : store_op := SPrepare "call1" "op" "bash" "h" (JObj []).

Lemma store_refines_lifecycle_witness :
  ops_evolve (durable_operations (demo_store [demo_prepare]))
    (durable_operations (snd (fst (run_store (fun s => s) demo_wall (SSubmit "call1" "me" 30) (demo_store [demo_prepare]) 5%nat)))).
Proof.
  apply (store_refines_lifecycle (fun s => s) demo_wall (SSubmit "call1" "me" 30) (demo_store [demo_prepare]) 5%nat).
  apply demo_store_keys.
Defined.

(** at-most-once submission.  In any interleaving of calls by any number
    of workers, restarts included, starting from an empty store, at most one
    submission of a given operation ever succeeds: the external tool is never
    authorised to run twice. *)
Theorem at_most_one_submission sha256 wall k ops n :
  (count_submits sha256 wall k ops init_db n <= 1)%nat.
Proof.
  etrans; [apply count_submits_pending, init_keys_ok|]. unfold pending. simpl. by rewrite lookup_empty.
Qed.

(** Receipts are immutable.  Once an operation is committed, its row, and
    with it the receipt, is the same after any further sequence of calls. *)
Theorem committed_row_immutable sha256 wall ops k o d n :
  keys_ok d -> durable_operations d !! k = Some o -> has_status o COMMITTED ->
  durable_operations (fst (run_stores sha256 wall ops d n)) !! k = Some o.
Proof. apply committed_frozen. Qed.

Definition demo_key : string := operation_key_of (fun s => s) "op" "bash" "h".
Definition demo_committed : list store_op :=
  [demo_prepare; SValidate "call1"; SSubmit "call1" "me" 30; SCommit "call1" "me" 1 (JStr "ok")].

Lemma committed_row_immutable_witness :
  (durable_operations (fst (run_stores (fun s => s) demo_wall
    [SFail "call1" "x"; SIndeterminate "call1" "y"; SRecover "z"; SSubmit "call1" "other" 30]
    (demo_store demo_committed) 50%nat)) !! demo_key) ≫= op_execution_receipt = Some (JStr "ok").
Proof.
  destruct (durable_operations (demo_store demo_committed) !! demo_key) as [o|] eqn:E.
  - erewrite (committed_row_immutable (fun s => s) demo_wall _ demo_key o).
    + vm_compute in E. injection E as <-. reflexivity.
    + apply demo_store_keys.
    + exact E.
    + vm_compute in E. injection E as <-. reflexivity.
  - exfalso. vm_compute in E. discriminate.
Defined.

(** Commits are fenced.  A commit that returns found the operation in the
    submitted state and its caller, with exactly that fencing token, holding
    the operation's lease, not yet expired; every other commit raises and
    leaves the database unchanged. *)
Theorem commit_is_fenced wall c ow tok r d n :
  keys_ok d ->
  let out := mark_operation_committed wall c ow tok r d n in
  if res_ok (out_res out) then
    exists op row, lookup_call c d = Some op /\ has_status op SUBMITTED /\
      durable_leases d !! op_resource op = Some row /\ lr_owner_id row = ow /\ lr_fencing_token row = tok /\
      (wall n < lr_expires_at row)%Q /\
      (durable_operations (out_st out) !! operation_key op) ≫= op_execution_receipt = Some r
  else out_st out = d.
Proof.
  intros Hk out. destruct (res_ok (out_res out)) eqn:E.
  - destruct (mark_operation_committed_out wall c ow tok r d n Hk E)
      as (op & row & now & Hl & Ho & Hs & Hle & Hown & Htok & Hex & Hops).
    exists op, row. split_and!; try done. unfold out. rewrite Hops, lookup_alter_eq, Ho. done.
  - revert E. unfold out, mark_operation_committed.
    match goal with |- context [transaction ?m] => destruct (transaction_out m d n) as [-> ->] end. by intros ->.
Qed.

Definition demo_submitted : list store_op := [demo_prepare; SSubmit "call1" "me" 30].

Lemma commit_is_fenced_witness :
  out_st (mark_operation_committed demo_wall "call1" "intruder" 1 (JStr "x") (demo_store demo_submitted) 9%nat)
    = demo_store demo_submitted.
Proof.
  pose proof (commit_is_fenced demo_wall "call1" "intruder" 1 (JStr "x") (demo_store demo_submitted) 9%nat (demo_store_keys _)) as H.
  vm_compute in H. vm_compute. exact H.
Defined.

(** fail-closed recovery.  After [recover_inflight_operations] no operation
    is submitted; what was submitted is indeterminate and requires manual
    resolution, everything else is untouched, and the number returned is the
    number of operations it moved. *)
Theorem recovery_fails_closed wall reason d n :
  let out := recover_inflight_operations wall reason d n in
  let d' := out_st out in
  (forall k o', durable_operations d' !! k = Some o' -> is_submitted o' = false) /\
  (forall k o, durable_operations d !! k = Some o ->
    exists o', durable_operations d' !! k = Some o' /\
      if is_submitted o
      then has_status o' INDETERMINATE /\ operation_requires_manual_resolution o' = true
      else o' = o) /\
  out_res out = Ok (length (filter (fun kv => is_submitted kv.2 = true) (map_to_list (durable_operations d)))).
Proof.
  intros out d'. assert (durable_operations d' =
    (fun o => if is_submitted o then op_set_status (status_value INDETERMINATE) (Some reason) (wall n) o else o)
      <$> durable_operations d) as Hd by apply recover_ops.
  split_and!; [| |done].
  - intros k o'. rewrite Hd, lookup_fmap. destruct (durable_operations d !! k) as [o|]; [|done]. simpl.
    intros [= <-]. by destruct (is_submitted o) eqn:E.
  - intros k o Ho. eexists. rewrite Hd, lookup_fmap, Ho. split; [reflexivity|]. by destruct (is_submitted o) eqn:E.
Qed.

(** ** Sessions *)

(** Session rows are only ever replaced by rows with a higher revision. *)
Definition sessions_at_least (t : gmap string StoredSession) (d : Database) : Prop :=
  forall sid row, t !! sid = Some row ->
    exists row', durable_sessions d !! sid = Some row' /\ (revision row <= revision row')%nat.

Lemma sessions_at_least_insert t d sid row :
  sessions_at_least t d ->
  (forall old, durable_sessions d !! sid = Some old -> (revision old <= revision row)%nat) ->
  sessions_at_least t (with_sessions (<[sid := row]> (durable_sessions d)) d).
Proof.
  intros Ht Hrow sid' row' Hs. destruct (Ht _ _ Hs) as (r1 & H1 & Hle). simpl. rewrite lookup_insert.
  case_decide; subst; [|by eauto]. eexists. split; [done|]. specialize (Hrow _ H1). lia.
Qed.

Section sessions.
Context (sha256 : string -> string) (wall : nat -> Q).

Lemma create_session_sessions t sid v p : preserves (sessions_at_least t) (create_session wall sid v p).
Proof.
  intros d n Hd. unfold create_session, transaction. mstep. mstep.
  destruct (durable_sessions d !! sid) eqn:E; [done|]. unfold out_st. simpl.
  apply sessions_at_least_insert; [done | intros old; by rewrite E].
Qed.

Lemma save_session_sessions t sid v p e : preserves (sessions_at_least t) (save_session wall sid v p e).
Proof.
  intros d n Hd. unfold save_session, transaction. mstep. mstep.
  destruct (durable_sessions d !! sid) as [row|] eqn:E; [|done].
  destruct (revision row =? e)%nat; [|done]. unfold out_st. simpl.
  apply sessions_at_least_insert; [done|]. intros old. rewrite E. intros [= <-]. simpl. lia.
Qed.

Lemma delete_owned_sessions rs ow tok d : durable_sessions (delete_owned rs ow tok d) = durable_sessions d.
Proof. unfold delete_owned. by case_match. Qed.

Lemma run_store_sessions t o d n :
  sessions_at_least t d -> sessions_at_least t (snd (fst (run_store sha256 wall o d n))).
Proof.
  intros Hd. destruct o; unfold run_store; cbn [fst snd];
    try (by apply create_session_sessions); try (by apply save_session_sessions).
  all: match goal with |- sessions_at_least ?t0 (out_st (?m ?d0 ?n0)) =>
    let Hp := fresh "Hp" in enough (preserves (sessions_at_least t0) m) as Hp by (by apply Hp) end.
  all: unfold prepare_operation, mark_operation_validated, mark_operation_submitted, mark_operation_committed,
    mark_operation_indeterminate, mark_operation_failed, recover_inflight_operations, acquire_lease, release_lease,
    prepare_attempt, finish_attempt, save_breaker_state, save_tool_execution, record_quota_lockout,
    purge_expired_quota_lockouts, unknown_call, reload, assert_lease_locked, acquire_lease_locked; preserve.
  all: try (done || (repeat case_match; done)).
  all: unfold sessions_at_least; by rewrite delete_owned_sessions.
Qed.

Lemma run_stores_sessions t ops d n :
  sessions_at_least t d -> sessions_at_least t (fst (run_stores sha256 wall ops d n)).
Proof.
  revert d n. induction ops as [|o ops IH]; intros d n Hd; [done|]. simpl.
  pose proof (run_store_sessions t o d n Hd) as Hd'. destruct (run_store sha256 wall o d n) as [[b d'] n'].
  by apply IH.
Qed.
End sessions.

(** What a successful compare-and-swap installs. *)
Definition next_session v p now (row : StoredSession) : StoredSession :=
  {| session_id := session_id row; protocol_version := v; session_payload := p;
     revision := S (revision row); session_created_at := session_created_at row; session_updated_at := now |}.

Lemma save_session_run wall sid v p e d n :
  save_session wall sid v p e d n =
    match durable_sessions d !! sid with
    | Some row =>
        if (revision row =? e)%nat
        then (Ok (Some (next_session v p (wall n) row)),
              with_sessions (<[sid := next_session v p (wall n) row]> (durable_sessions d)) d, S n)
        else (Ok None, d, S n)
    | None => (Ok None, d, S n)
    end.
Proof.
  unfold save_session, transaction. mstep. mstep.
  destruct (durable_sessions d !! sid) as [row|]; [|done]. destruct (revision row =? e)%nat; [|done].
  mstep. unfold gets, with_sessions; simpl. by rewrite lookup_insert_eq.
Qed.

(** compare-and-swap sessions lose no update.  A save succeeds only on the
    revision it expects and installs the next one; afterwards, whatever other
    calls happen in between, a second save expecting the same revision is
    refused and changes nothing. *)
Theorem session_cas sha256 wall sid v p e d n s ops v' p' m :
  out_res (save_session wall sid v p e d n) = Ok (Some s) ->
  (exists row, durable_sessions d !! sid = Some row /\ revision row = e) /\
  revision s = S e /\ session_payload s = p /\
  let d2 := fst (run_stores sha256 wall ops (out_st (save_session wall sid v p e d n)) m) in
  save_session wall sid v' p' e d2 m = (Ok None, d2, S m).
Proof.
  rewrite (save_session_run wall sid v p e d n). unfold next_session.
  destruct (durable_sessions d !! sid) as [row|] eqn:E; [|done].
  destruct (revision row =? e)%nat eqn:Er; [|done]. apply Nat.eqb_eq in Er.
  unfold out_res, out_st. intros [= <-]. simpl.
  split_and!; [by eauto | by rewrite Er | done|].
  match goal with |- context [run_stores _ _ _ ?x _] => set (d1 := x) end.
  assert (sessions_at_least (durable_sessions d1) (fst (run_stores sha256 wall ops d1 m))) as Hd2.
  { apply run_stores_sessions. intros sid' row' Hs. eauto. }
  destruct (Hd2 sid _ (lookup_insert_eq _ _ _)) as (row' & Hrow' & Hle). simpl in Hle.
  rewrite (save_session_run wall sid v' p' e _ m), Hrow'. unfold next_session.
  by rewrite (proj2 (Nat.eqb_neq _ _)) by lia.
Qed.

Lemma session_cas_witness :
  let d := demo_store [SCreateSession "s1" "acp-v1" (JObj [])] in
  let d1 := out_st (save_session demo_wall "s1" "acp-v1" (JStr "a") 1 d 3%nat) in
  save_session demo_wall "s1" "acp-v1" (JStr "b") 1 d1 9%nat = (Ok None, d1, 10%nat).
Proof.
  intros d d1.
  pose (s := {| session_id := "s1"; protocol_version := "acp-v1"; session_payload := JStr "a"; revision := 2;
    session_created_at := Qnat 0; session_updated_at := Qnat 3 |}).
  apply (session_cas (fun s => s) demo_wall "s1" "acp-v1" (JStr "a") 1 d 3%nat s [] "acp-v1" (JStr "b") 9%nat).
  vm_compute. reflexivity.
Defined.

(** ** Leases *)

(** Leases are exclusive and fenced.  While a lease is live, no other
    owner obtains it and the attempt changes nothing; the owner renews it with
    the same token; once it has expired a new owner takes it over with a
    strictly larger token. *)
Theorem lease_exclusion wall rs ow ttl d n row :
  durable_leases d !! rs = Some row ->
  let out := acquire_lease wall rs ow ttl d n in
  match decide (lr_owner_id row = ow), lr_expires_at row ⪯ wall n with
  | left _, _ => exists le, out_res out = Ok (Some le) /\ fencing_token le = lr_fencing_token row
  | right _, false => out_res out = Ok None /\ out_st out = d
  | right _, true => exists le, out_res out = Ok (Some le) /\ (lr_fencing_token row < fencing_token le)%nat /\
      lease_owner le = ow /\ (wall n < lease_expires_at le)%Q
  end.
Proof.
  intros Hr out. unfold out, acquire_lease, transaction, acquire_lease_locked.
  erewrite !bind_ok by reflexivity. cbv beta. cbv zeta. rewrite Hr.
  destruct (decide (lr_owner_id row = ow)) as [Ho|Ho].
  - rewrite (proj2 (String.eqb_eq _ _) Ho). eexists. split; [reflexivity|]. done.
  - rewrite (proj2 (String.eqb_neq _ _) Ho). destruct (lr_expires_at row ⪯ wall n); [|done].
    eexists. split; [reflexivity|]. simpl. split_and!; [lia | done|].
    pose proof (py_max_ge_l (1 # 1000) ttl). lra.
Qed.

Lemma lease_exclusion_witness :
  let d := demo_store [SAcquire "r" "a" 30] in
  out_res (acquire_lease demo_wall "r" "b" 30 d 5%nat) = Ok None.
Proof.
  intros d.
  destruct (lease_exclusion demo_wall "r" "b" 30 d 5%nat
    {| lr_owner_id := "a"; lr_fencing_token := 1; lr_expires_at := (Qnat 0 + 30)%Q; lr_updated_at := Qnat 0 |}) as [H _].
  - vm_compute. reflexivity.
  - exact H.
Defined.

(** Fencing tokens restart.  Releasing a lease deletes its row, so the next
    owner's token is 1 again: tokens are not monotone over the life of a
    resource, only over takeovers of one expired lease. *)
Theorem fencing_token_restarts wall rs ow ow' ttl ttl' d n m k :
  durable_leases d !! rs = None ->
  let d1 := out_st (acquire_lease wall rs ow ttl d n) in
  let d2 := out_st (release_lease rs ow 1 d1 m) in
  exists le1 le2, out_res (acquire_lease wall rs ow ttl d n) = Ok (Some le1) /\
    out_res (release_lease rs ow 1 d1 m) = Ok true /\
    out_res (acquire_lease wall rs ow' ttl' d2 k) = Ok (Some le2) /\
    fencing_token le1 = 1%nat /\ fencing_token le2 = 1%nat.
Proof.
  intros Hn. unfold acquire_lease, release_lease, transaction, acquire_lease_locked.
  erewrite !bind_ok by reflexivity. cbv beta zeta. rewrite Hn. unfold out_st at 1. simpl.
  eexists _, _. split; [reflexivity|].
  assert (owns rs ow 1 (with_leases (<[rs := {| lr_owner_id := ow; lr_fencing_token := 1;
    lr_expires_at := wall n + py_max (1 # 1000) ttl; lr_updated_at := wall n |}]> (durable_leases d)) d) = true) as Ho.
  { unfold owns. simpl. rewrite lookup_insert_eq. simpl. by rewrite String.eqb_refl. }
  unfold out_st, out_res. simpl. rewrite !Ho. split; [done|].
  unfold delete_owned. rewrite Ho. simpl. rewrite delete_insert_eq, lookup_delete_eq. split; [reflexivity|]. done.
Qed.

Lemma fencing_token_restarts_witness :
  exists le1 le2, out_res (acquire_lease demo_wall "r" "a" 30 init_db 0%nat) = Ok (Some le1) /\
    out_res (acquire_lease demo_wall "r" "b" 30
      (out_st (release_lease "r" "a" 1 (out_st (acquire_lease demo_wall "r" "a" 30 init_db 0%nat)) 3%nat)) 7%nat)
      = Ok (Some le2) /\ fencing_token le1 = fencing_token le2.
Proof.
  destruct (fencing_token_restarts demo_wall "r" "a" "b" 30 30 init_db 0%nat 3%nat 7%nat) as (l1 & l2 & H1 & _ & H2 & H3 & H4).
  - vm_compute. reflexivity.
  - exists l1, l2. split; [exact H1|]. split; [exact H2|]. rewrite H3, H4. reflexivity.
Defined.
