(* ===== verification/DurableLedger.v ===== *)
(** * The durable tool ledger

    [src/durallm/storage/tool_ledger.py]: the in-memory ledger of [ToolLedger]
    whose safety transitions are first written to the store of [SqliteStore].
    A process owns one [SQLiteToolExecutionLedger]; the database is shared.  A
    method runs on the pair of the two ([World]); the record object a base
    method returns is the one held in the dictionary, so [_hydrate] updates the
    dictionary entry too, when the entry has not been evicted. *)

From stdpp Require Import base tactics list gmap strings.
From Stdlib Require Import QArith Lqa.
From S2P Require Import Prelude Models Json ToolLedger SqliteStore.

Record SQLiteToolExecutionLedger : Type := {
  base_ledger : ToolExecutionLedger;
  owner_id : string;
  lease_ttl_seconds : Q;
  leases : odict string Lease;
}.

Record World : Type := { ledger : SQLiteToolExecutionLedger; store : Database }.

Definition with_base (b : ToolExecutionLedger) (w : World) : World :=
  {| ledger := {| base_ledger := b; owner_id := owner_id (ledger w);
                  lease_ttl_seconds := lease_ttl_seconds (ledger w); leases := leases (ledger w) |};
     store := store w |}.
Definition with_held (h : odict string Lease) (w : World) : World :=
  {| ledger := {| base_ledger := base_ledger (ledger w); owner_id := owner_id (ledger w);
                  lease_ttl_seconds := lease_ttl_seconds (ledger w); leases := h |};
     store := store w |}.
Definition with_store (d : Database) (w : World) : World := {| ledger := ledger w; store := d |}.

(** [super().m(...)] and [self.store.m(...)] *)
Definition on_base {A} (m : M exn ToolExecutionLedger A) : M exn World A :=
  zoom (fun w => base_ledger (ledger w)) with_base m.
Definition on_store {A} (m : M exn Database A) : M exn World A := zoom store with_store m.

Section durable.
Context (json_dumps : json -> string) (sha256 : string -> string).
Context (clock wall : nat -> Q).
Local Abbreviation D := (M exn World).

Definition recovery_reason : string :=
  "Gateway restarted before tool acknowledgement".

(** [__init__] *)
Definition open_ledger (owner : string) (ttl : Q) (recover_inflight : bool)
    : M exn Database SQLiteToolExecutionLedger :=
  (if recover_inflight then recover_inflight_operations wall recovery_reason ;; mret tt else mret tt) ;;
  mret {| base_ledger := new_ledger (Z.to_nat 100000) None; owner_id := owner;
          lease_ttl_seconds := ttl; leases := [] |}.

(** [_status]: the enumeration constructor raises on an unknown value. *)
Definition status_of (o : StoredOperation) : D ToolExecutionStatus :=
  match status_of_value (op_status o) with
  | Some s => mret s
  | None => raise (ValueError (op_status o))
  end.

(** [_hydrate] *)
Definition hydrate_record (s : ToolExecutionStatus) (o : StoredOperation) (r : ToolExecutionRecord)
    : ToolExecutionRecord :=
  {| tool_call_id := tool_call_id r; logical_operation_id := logical_operation_id r; tool_name := tool_name r;
     arguments_hash := arguments_hash r; arguments := arguments r; status := s;
     execution_receipt := op_execution_receipt o; created_at := created_at r; updated_at := op_updated_at o;
     error_message := op_error_message o |}.

Definition hydrate (call_id : string) (r : ToolExecutionRecord) (o : StoredOperation) : D ToolExecutionRecord :=
  s ← status_of o;
  let r' := hydrate_record s o r in
  modify (fun w =>
    let b := base_ledger (ledger w) in
    if od_mem call_id (records_by_call_id b)
    then with_base (with_records (od_set call_id r' (records_by_call_id b)) b) w else w) ;;
  mret r'.

(** [register_tool_call] *)
Definition durable_register_tool_call (call_id logical tool : string) (args : json) : D ToolExecutionRecord :=
  record ← on_base (register_tool_call json_dumps sha256 clock call_id logical tool args);
  operation ← on_store (prepare_operation sha256 wall call_id logical tool (arguments_hash record) (arguments record));
  hydrate call_id record operation.

(** [get_record] *)
Definition durable_get_record (call_id : string) : D (option ToolExecutionRecord) :=
  record ← on_base (get_record call_id);
  match record with
  | Some r => mret (Some r)
  | None =>
      operation ← on_store (operation_for_call call_id);
      match operation with
      | None => mret None
      | Some o =>
          s ← status_of o;
          let r := {| tool_call_id := call_id; logical_operation_id := op_logical_operation_id o;
                      tool_name := op_tool_name o; arguments_hash := op_arguments_hash o;
                      arguments := op_arguments o; status := s; execution_receipt := op_execution_receipt o;
                      created_at := op_created_at o; updated_at := op_updated_at o;
                      error_message := op_error_message o |} in
          on_base (modify (fun b => with_records (od_set call_id r (records_by_call_id b)) b)) ;;
          mret (Some r)
      end
  end.

(** [mark_validated] *)
Definition durable_mark_validated (call_id : string) : D unit :=
  record ← durable_get_record call_id;
  match record with
  | None => mret tt
  | Some r =>
      match status r with
      | PROPOSED | VALIDATED =>
          _ ← on_store (mark_operation_validated wall call_id);
          on_base (mark_validated wall call_id)
      | _ => mret tt
      end
  end.

(** [mark_submitted] *)
Definition durable_mark_submitted (call_id : string) : D unit :=
  w ← get;
  lease ← on_store (mark_operation_submitted wall call_id (owner_id (ledger w)) (lease_ttl_seconds (ledger w)));
  modify (fun w => with_held (od_set call_id lease (leases (ledger w))) w) ;;
  on_base (mark_submitted wall call_id).

(** [mark_committed] *)
Definition durable_mark_committed (call_id : string) (receipt : json) : D unit :=
  w ← get;
  match od_get call_id (leases (ledger w)) with
  | None => raise (RuntimeError "A durable operation can commit only with its live submission lease")
  | Some lease =>
      _ ← on_store (mark_operation_committed wall call_id (owner_id (ledger w)) (fencing_token lease) receipt);
      modify (fun w => with_held (od_pop call_id (leases (ledger w))) w) ;;
      on_base (mark_committed clock wall call_id receipt)
  end.

(** [mark_indeterminate] *)
Definition durable_mark_indeterminate (call_id reason : string) : D unit :=
  _ ← on_store (mark_operation_indeterminate wall call_id reason);
  modify (fun w => with_held (od_pop call_id (leases (ledger w))) w) ;;
  on_base (mark_indeterminate wall call_id reason).

(** [mark_failed] *)
Definition durable_mark_failed (call_id error : string) : D unit :=
  _ ← on_store (mark_operation_failed wall call_id error);
  on_base (mark_failed wall call_id error).

(** [check_idempotency] *)
Definition durable_check_idempotency (logical tool : string) (args : json) : D (bool * option json) :=
  operation ← on_store (operation_for_key sha256 logical tool (compute_arguments_hash json_dumps sha256 args));
  mret (match operation with
        | Some o =>
            if String.eqb (op_status o) (status_value COMMITTED)
            then match op_execution_receipt o with Some r => (true, Some r) | None => (false, None) end
            else (false, None)
        | None => (false, None)
        end).

(** [has_indeterminate_operation] *)
Definition durable_has_indeterminate_operation (logical tool : string) (args : json) : D bool :=
  operation ← on_store (operation_for_key sha256 logical tool (compute_arguments_hash json_dumps sha256 args));
  mret (match operation with Some o => operation_requires_manual_resolution o | None => false end).

(** The methods a client of the ledger calls; [mark_replayed] is inherited and
    [mark_ambiguous] dispatches to the overriding [mark_indeterminate]. *)
Inductive durable_op : Type :=
| DRegister (call_id logical tool : string) (args : json)
| DValidate (call_id : string)
| DSubmit (call_id : string)
| DCommit (call_id : string) (receipt : json)
| DReplayed (call_id : string) (receipt : json)
| DIndeterminate (call_id reason : string)
| DAmbiguous (call_id reason : string)
| DFail (call_id error : string)
| DGet (call_id : string).

Definition run_durable (o : durable_op) (w : World) (n : nat) : bool * World * nat :=
  let fin {A} (r : res exn A * World * nat) := (res_ok (out_res r), out_st r, out_tick r) in
  match o with
  | DRegister c l t a => fin (durable_register_tool_call c l t a w n)
  | DValidate c => fin (durable_mark_validated c w n)
  | DSubmit c => fin (durable_mark_submitted c w n)
  | DCommit c r => fin (durable_mark_committed c r w n)
  | DReplayed c r => fin (on_base (mark_replayed clock c r) w n)
  | DIndeterminate c r => fin (durable_mark_indeterminate c r w n)
  | DAmbiguous c r => fin (durable_mark_indeterminate c r w n)
  | DFail c e => fin (durable_mark_failed c e w n)
  | DGet c => fin (durable_get_record c w n)
  end.

(** ** Several processes over one database *)

Inductive event : Type :=
| Start (pid : nat) (owner : string) (ttl : Q) (recover : bool)
| Call (pid : nat) (o : durable_op).

Record Cluster : Type := { procs : gmap nat SQLiteToolExecutionLedger; db : Database }.

(** A crash is a process that makes no further call; a restart is a [Start]
    under the same identifier, which forgets its memory. *)
Definition step_event (e : event) (c : Cluster) (n : nat) : bool * Cluster * nat :=
  match e with
  | Start pid owner ttl recover =>
      match open_ledger owner ttl recover (db c) n with
      | (Ok l, d, n') => (true, {| procs := <[pid := l]> (procs c); db := d |}, n')
      | (Raise _, d, n') => (false, {| procs := procs c; db := d |}, n')
      end
  | Call pid o =>
      match procs c !! pid with
      | None => (false, c, n)
      | Some l =>
          let '(b, w, n') := run_durable o {| ledger := l; store := db c |} n in
          (b, {| procs := <[pid := ledger w]> (procs c); db := store w |}, n')
      end
  end.

Fixpoint run_events (es : list event) (c : Cluster) (n : nat) : Cluster * nat :=
  match es with
  | [] => (c, n)
  | e :: es' => let '(_, c', n') := step_event e c n in run_events es' c' n'
  end.

Definition new_cluster : Cluster := {| procs := ∅; db := init_db |}.
End durable.
