(* ===== verification/DurableProps.v ===== *)
(** * Safety of the durable ledger

    Every method of [src/durallm/storage/tool_ledger.py] performs at most one
    store transaction, so the store's life cycle bounds what any number of
    processes, crashing and restarting, can do: at-most-once dispatch, receipts
    that survive restarts, fail-closed recovery. *)

From stdpp Require Import base tactics list gmap strings.
From Stdlib Require Import QArith Lqa.
From S2P Require Import Prelude Models Json ToolLedger SqliteStore SqliteProps DurableLedger.

Section durable_props.
Context (json_dumps : json -> string) (sha256 : string -> string).
Context (clock wall : nat -> Q).

(** ** One transaction per method *)

(** The database is untouched. *)
Definition frames {A} (m : M exn World A) : Prop := forall d, preserves (fun w => store w = d) m.

(** The database takes at most one step of the store. *)
Definition evolved (d d' : Database) : Prop :=
  d' = d \/ exists so m, d' = snd (fst (run_store sha256 wall so d m)).
Definition db_step {A} (m : M exn World A) : Prop :=
  forall d, triple (fun w => store w = d) m (fun _ w => evolved d (store w)).

Lemma on_base_frames {A} (m : M exn ToolExecutionLedger A) : frames (on_base m).
Proof. intros d w n <-. unfold on_base, zoom. by destruct (m _ n) as [[r b] n']. Qed.

Lemma frames_store {A} (m : M exn World A) w n : frames m -> store (out_st (m w n)) = store w.
Proof. intros Hm. by apply Hm. Qed.

Lemma db_step_frames {A} (m : M exn World A) : frames m -> db_step m.
Proof. intros Hm d w n Hw. left. by apply Hm. Qed.
Lemma db_step_pre {A B} (m : M exn World A) (k : A -> M exn World B) :
  frames m -> (forall a, db_step (k a)) -> db_step (mbind k m).
Proof.
  intros Hm Hk d. eapply triple_bind; [apply Hm | intros a; apply Hk | by left].
Qed.
Lemma db_step_post {A B} (m : M exn World A) (k : A -> M exn World B) :
  db_step m -> (forall a, frames (k a)) -> db_step (mbind k m).
Proof.
  intros Hm Hk d. eapply triple_bind; [apply Hm | | done].
  intros a w n Hw. by rewrite (frames_store _ _ _ (Hk a)).
Qed.
Lemma db_step_store {A} (m : M exn Database A) :
  (forall d n, exists so, out_st (m d n) = snd (fst (run_store sha256 wall so d n))) -> db_step (on_store m).
Proof.
  intros Hm d w n <-. right. destruct (Hm (store w) n) as [so Hso]. exists so, n. rewrite <- Hso.
  unfold on_store, zoom, out_st. by destruct (m _ n) as [[r b] n'].
Qed.

Lemma on_store_read {A} (f : Database -> A) : frames (on_store (gets f)).
Proof. by intros d w n <-. Qed.

Ltac frame := intros ?; preserve;
  try (apply on_base_frames || apply on_store_read || (cbn; try case_match; done)).

Lemma hydrate_frames c r o : frames (hydrate c r o).
Proof. unfold hydrate, status_of. frame. Qed.
Lemma durable_get_record_frames c : frames (durable_get_record c).
Proof. unfold durable_get_record, operation_for_call, status_of. frame. Qed.

Lemma run_durable_evolved o w n :
  evolved (store w) (store (snd (fst (run_durable json_dumps sha256 clock wall o w n)))).
Proof.
  destruct o; unfold run_durable; cbn [fst snd].
  - apply (db_step_pre _ _ (on_base_frames _)); [|done]. intros r.
    apply db_step_post; [|intros; apply hydrate_frames]. apply db_step_store. intros d m.
    by exists (SPrepare call_id logical tool (arguments_hash r) (arguments r)).
  - apply (db_step_pre _ _ (durable_get_record_frames call_id)); [|done]. intros [r|]; [|apply db_step_frames; frame].
    destruct (status r); try solve [apply db_step_frames; frame];
      (apply db_step_post; [apply db_step_store; intros d m; by exists (SValidate call_id) | intros; apply on_base_frames]).
  - apply (db_step_pre get); [frame| |done]. intros w'. apply db_step_post; [|intros; frame].
    apply db_step_store. intros d m. by eexists (SSubmit call_id _ _).
  - apply (db_step_pre get); [frame| |done]. intros w'. case_match; [|apply db_step_frames; frame].
    apply db_step_post; [|intros; frame]. apply db_step_store. intros d m. by eexists (SCommit call_id _ _ receipt).
  - left. apply on_base_frames. done.
  - apply (db_step_post (on_store (mark_operation_indeterminate wall call_id reason))); [|intros; frame|done].
    apply db_step_store. intros d m. by exists (SIndeterminate call_id reason).
  - apply (db_step_post (on_store (mark_operation_indeterminate wall call_id reason))); [|intros; frame|done].
    apply db_step_store. intros d m. by exists (SIndeterminate call_id reason).
  - apply (db_step_post (on_store (mark_operation_failed wall call_id error))); [|intros; frame|done].
    apply db_step_store. intros d m. by exists (SFail call_id error).
  - left. by apply durable_get_record_frames.
Qed.

Local Abbreviation step := (step_event json_dumps sha256 clock wall).
Local Abbreviation run := (run_events json_dumps sha256 clock wall).

Lemma step_event_evolved e c n : evolved (db c) (db (snd (fst (step e c n)))).
Proof.
  destruct e as [pid owner ttl [|]|pid o]; simpl.
  - right. by exists (SRecover recovery_reason), n.
  - by left.
  - destruct (procs c !! pid) as [l|]; [|by left].
    pose proof (run_durable_evolved o {| ledger := l; store := db c |} n) as He.
    by destruct (run_durable json_dumps sha256 clock wall o _ n) as [[b w] n'].
Qed.

Lemma evolved_ops d d' : keys_ok d -> evolved d d' -> ops_evolve (durable_operations d) (durable_operations d') /\ keys_ok d'.
Proof.
  intros Hk [->|(so & m & ->)]; [by split; [apply ops_evolve_refl|]|].
  split; [by apply run_store_evolves | by apply run_store_keys].
Qed.

Lemma step_event_ops e c n : keys_ok (db c) ->
  ops_evolve (durable_operations (db c)) (durable_operations (db (snd (fst (step e c n))))) /\
  keys_ok (db (snd (fst (step e c n)))).
Proof. intros Hk. apply evolved_ops; [done | apply step_event_evolved]. Qed.

Lemma run_events_committed es c n k o : keys_ok (db c) ->
  durable_operations (db c) !! k = Some o -> has_status o COMMITTED ->
  durable_operations (db (fst (run es c n))) !! k = Some o.
Proof.
  intros Hk Ho Hs. revert c n Hk Ho. induction es as [|e es IH]; intros c n Hk Ho; [done|]. simpl.
  destruct (step_event_evolved e c n) as [Heq|(so & m & Heq)];
    destruct (step_event_ops e c n Hk) as [_ Hk']; destruct (step e c n) as [[b c'] n']; cbn [fst snd] in *.
  - apply IH; [done | by rewrite Heq].
  - apply IH; [done|]. rewrite Heq. pose proof (committed_frozen sha256 wall [so] k o (db c) m Hk Ho Hs) as Hc.
    simpl in Hc. by destruct (run_store sha256 wall so (db c) m) as [[b' d'] m'].
Qed.

(** ** Dispatches *)

(** Submission by a process is the store's submission. *)
Lemma durable_submit_out call w n :
  let so := mark_operation_submitted wall call (owner_id (ledger w)) (lease_ttl_seconds (ledger w)) (store w) n in
  let out := durable_mark_submitted wall call w n in
  res_ok (out_res out) = res_ok (out_res so) /\ store (out_st out) = out_st so.
Proof.
  intros so out. unfold out, durable_mark_submitted. mstep.
  destruct so as [[[le|e] d'] n'] eqn:E; unfold so in E.
  - erewrite bind_ok by (unfold on_store, zoom; rewrite E; reflexivity). cbv beta. mstep.
    unfold on_base, zoom, mark_submitted, update_record. simpl.
    destruct (od_get call (records_by_call_id (base_ledger (ledger w)))) eqn:Eg; unfold mbind, M_bind; simpl;
      rewrite ?Eg; simpl; by rewrite ?Eg.
  - erewrite bind_raise by (unfold on_store, zoom; rewrite E; reflexivity). done.
Qed.

(** Does this event dispatch (a successful submission) the operation [k]? *)
Definition dispatches (k : string) (e : event) (c : Cluster) (n : nat) : nat :=
  match e with
  | Call pid (DSubmit call) =>
      match lookup_call call (db c) with
      | Some op => if String.eqb (operation_key op) k && fst (fst (step e c n)) then 1 else 0
      | None => 0
      end
  | _ => 0
  end.

Fixpoint count_dispatches (k : string) (es : list event) (c : Cluster) (n : nat) : nat :=
  match es with
  | [] => 0
  | e :: es' => let '(_, c', n') := step e c n in (dispatches k e c n + count_dispatches k es' c' n')%nat
  end.

Lemma dispatches_pending k e c n : keys_ok (db c) ->
  (dispatches k e c n + pending k (db (snd (fst (step e c n)))) <= pending k (db c))%nat.
Proof.
  intros Hk. pose proof (pending_evolve k _ _ (proj1 (step_event_ops e c n Hk))) as Hle.
  destruct e as [|pid o]; [exact Hle|]. destruct o; try exact Hle. simpl dispatches.
  destruct (lookup_call call_id (db c)) as [op|] eqn:El; [|exact Hle]. revert Hle. simpl.
  destruct (procs c !! pid) as [l|]; [|by rewrite andb_false_r]. simpl.
  destruct (durable_submit_out call_id {| ledger := l; store := db c |} n) as [Hok Hst]. simpl in Hok, Hst.
  pose proof (submits_pending sha256 wall k (SSubmit call_id (owner_id l) (lease_ttl_seconds l)) (db c) n Hk) as Hs.
  unfold submits in Hs. rewrite El in Hs. simpl in Hs. by rewrite Hok, Hst.
Qed.

Lemma count_dispatches_pending k es c n : keys_ok (db c) -> (count_dispatches k es c n <= pending k (db c))%nat.
Proof.
  revert c n. induction es as [|e es IH]; intros c n Hk; simpl; [lia|].
  pose proof (dispatches_pending k e c n Hk) as Hs. destruct (step_event_ops e c n Hk) as [_ Hk'].
  destruct (step e c n) as [[b c'] n']. cbn [fst snd] in *. specialize (IH c' n' Hk'). lia.
Qed.

(** ** What a commit leaves behind *)

Lemma durable_commit_out call r w n : keys_ok (store w) ->
  res_ok (out_res (durable_mark_committed clock wall call r w n)) = true ->
  exists op now, lookup_call call (store w) = Some op /\ durable_operations (store w) !! operation_key op = Some op /\
    has_status op SUBMITTED /\
    durable_operations (store (out_st (durable_mark_committed clock wall call r w n))) =
      alter (op_set_committed r now) (operation_key op) (durable_operations (store w)).
Proof.
  intros Hk. unfold durable_mark_committed. mstep. destruct (od_get call (leases (ledger w))) as [le|]; [|done].
  destruct (mark_operation_committed wall call (owner_id (ledger w)) (fencing_token le) r (store w) n)
    as [[[o|e] d'] n'] eqn:E.
  2: { erewrite bind_raise by (unfold on_store, zoom; rewrite E; reflexivity). done. }
  erewrite bind_ok by (unfold on_store, zoom; rewrite E; reflexivity). cbv beta. mstep. intros _.
  rewrite (frames_store _ _ _ (on_base_frames _)). simpl.
  pose proof (mark_operation_committed_out wall call (owner_id (ledger w)) (fencing_token le) r (store w) n Hk) as Hc.
  rewrite E in Hc. destruct (Hc eq_refl) as (op & row & now & Hl & Ho & Hs & _ & _ & _ & _ & Heq).
  by exists op, now.
Qed.
End durable_props.

(** ** Properties *)

(** C4: at-most-once dispatch.  Whatever any number of processes do on one
    database (registering, validating, submitting, committing, failing,
    crashing and restarting with or without recovery, in any order), at most one
    [mark_submitted] of a given operation ever returns. *)
Theorem at_most_one_dispatch json_dumps sha256 clock wall k es n :
  (count_dispatches json_dumps sha256 clock wall k es new_cluster n <= 1)%nat.
Proof.
  etrans; [apply count_dispatches_pending, init_keys_ok|]. unfold pending. simpl. by rewrite lookup_empty.
Qed.

(** C16: receipts survive restarts.  When a process's [mark_committed] returns,
    then after any further events any process that asks for the same logical
    operation, tool and arguments is given exactly that receipt. *)
Theorem receipt_survives_restart json_dumps sha256 clock wall c n pid call receipt logical tool args stamp es m l :
  keys_ok (db c) ->
  durable_operation_calls (db c) !! call
    = Some (operation_key_of sha256 logical tool (compute_arguments_hash json_dumps sha256 args), stamp) ->
  let st := step_event json_dumps sha256 clock wall (Call pid (DCommit call receipt)) c n in
  fst (fst st) = true ->
  let c2 := fst (run_events json_dumps sha256 clock wall es (snd (fst st)) (snd st)) in
  out_res (durable_check_idempotency json_dumps sha256 logical tool args {| ledger := l; store := db c2 |} m)
    = Ok (true, Some receipt).
Proof.
  intros Hk Hcall. cbv zeta. destruct (step_event _ _ _ _ _ c n) as [[ok c1] n1] eqn:E. simpl fst. simpl snd.
  intros Hok. set (c2 := fst (run_events _ _ _ _ _ _ _)).
  destruct (step_event_ops json_dumps sha256 clock wall (Call pid (DCommit call receipt)) c n Hk) as [_ Hk1].
  rewrite E in Hk1. simpl in Hk1, E.
  destruct (procs c !! pid) as [l0|]; [|by simplify_eq]. simpl in E. injection E as <- <- <-.
  destruct (durable_commit_out clock wall call receipt {| ledger := l0; store := db c |} n Hk Hok) as (op & now & Hl & Ho & Hs & Heq).
  simpl in Hl, Ho, Heq, Hk1. unfold lookup_call in Hl. rewrite Hcall in Hl. pose proof (Hk _ _ Hl) as Hkey.
  unfold durable_check_idempotency, operation_for_key. mstep. unfold out_res. simpl.
  unfold c2. erewrite run_events_committed with (o := op_set_committed receipt now op); [done | exact Hk1 | | done].
  simpl. by rewrite Heq, Hkey, lookup_alter_eq, Hl.
Qed.

Definition demo_dumps (j : json) : string := match j with JObj [] => "{}" | _ => "?" end.
Definition demo_cluster (es : list event) : Cluster * nat :=
  run_events demo_dumps (fun s => s) demo_wall demo_wall es new_cluster 0%nat.
Definition demo_events : list event :=
  [Start 1 "w1" 30 true; Call 1 (DRegister "c1" "op" "bash" (JObj [])); Call 1 (DValidate "c1"); Call 1 (DSubmit "c1")].
Lemma demo_cluster_keys es : keys_ok (db (fst (demo_cluster es))).
Proof.
  unfold demo_cluster. generalize 0%nat. cut (keys_ok (db new_cluster)); [|apply init_keys_ok].
  generalize new_cluster. induction es as [|e es IH]; intros c Hk n; [done|]. simpl.
  pose proof (proj2 (step_event_ops demo_dumps (fun s => s) demo_wall demo_wall e c n Hk)) as Hk'.
  destruct (step_event _ _ _ _ e c n) as [[b c'] n']. by apply IH.
Defined.

(** A process with a small in-memory ledger. *)
Definition demo_process : SQLiteToolExecutionLedger :=
  {| base_ledger := new_ledger 5 None; owner_id := "w2"; lease_ttl_seconds := 30; leases := [] |}.

Lemma receipt_survives_restart_witness :
  let st := step_event demo_dumps (fun s => s) demo_wall demo_wall (Call 1 (DCommit "c1" (JStr "done")))
              (fst (demo_cluster demo_events)) 20%nat in
  let c2 := fst (run_events demo_dumps (fun s => s) demo_wall demo_wall [Start 2 "w2" 30 true] (snd (fst st)) (snd st)) in
  out_res (durable_check_idempotency demo_dumps (fun s => s) "op" "bash" (JObj [])
    {| ledger := demo_process; store := db c2 |} 99%nat) = Ok (true, Some (JStr "done")).
Proof.
  intros st c2. apply (receipt_survives_restart demo_dumps (fun s => s) demo_wall demo_wall
    (fst (demo_cluster demo_events)) 20%nat 1 "c1" (JStr "done") "op" "bash" (JObj []) (Qnat 3) [Start 2 "w2" 30 true]).
  - apply demo_cluster_keys.
  - vm_compute. reflexivity.
  - vm_compute. reflexivity.
Defined.

(** An operation that was lost or failed stays so: the life cycle has no way back. *)
Definition closed_row (o : StoredOperation) : Prop := has_status o INDETERMINATE \/ has_status o FAILED.
Lemma closed_edge o o' : row_step o o' -> closed_row o -> closed_row o'.
Proof.
  unfold closed_row, has_status. intros [->|[_ He]] Ho; [done|].
  destruct He as [H _ _|H _ _|r H _ _|_ H _|_ _ H _]; try (by left); try (by right); exfalso;
    unfold has_status in *; destruct Ho as [Ho|Ho]; rewrite Ho in H; naive_solver.
Qed.
Lemma run_events_closed json_dumps sha256 clock wall es c n k o : keys_ok (db c) ->
  durable_operations (db c) !! k = Some o -> closed_row o ->
  let c2 := fst (run_events json_dumps sha256 clock wall es c n) in
  keys_ok (db c2) /\ exists o', durable_operations (db c2) !! k = Some o' /\ closed_row o'.
Proof.
  cbv zeta. revert c n o. induction es as [|e es IH]; intros c n o Hk Ho Hc; [by eauto|]. cbn [run_events].
  destruct (step_event_ops json_dumps sha256 clock wall e c n Hk) as [He Hk']. specialize (He k). rewrite Ho in He.
  destruct (step_event json_dumps sha256 clock wall e c n) as [[b c'] n']. cbn [fst snd] in *.
  destruct (durable_operations (db c') !! k) as [o'|] eqn:Eo; [|done]. by eapply IH; [| |eapply closed_edge].
Qed.

(** C14: fail-closed restart.  A process that starts with recovery turns every
    submitted operation into one that is reported indeterminate.  From then on, after
    any further events of any processes, restarts included, no submission of it
    returns, the idempotency check yields no receipt for it, and no process, not even one
    that still holds its lease in memory, can commit it. *)
Theorem restart_fails_closed json_dumps sha256 clock wall c n pid owner ttl logical tool args o :
  let k := operation_key_of sha256 logical tool (compute_arguments_hash json_dumps sha256 args) in
  keys_ok (db c) -> durable_operations (db c) !! k = Some o -> has_status o SUBMITTED ->
  let c1 := snd (fst (step_event json_dumps sha256 clock wall (Start pid owner ttl true) c n)) in
  (forall l m, out_res (durable_has_indeterminate_operation json_dumps sha256 logical tool args
                 {| ledger := l; store := db c1 |} m) = Ok true) /\
  forall es m, count_dispatches json_dumps sha256 clock wall k es c1 m = 0%nat /\
    let c2 := fst (run_events json_dumps sha256 clock wall es c1 m) in
    (forall l m', out_res (durable_check_idempotency json_dumps sha256 logical tool args
                    {| ledger := l; store := db c2 |} m') = Ok (false, None)) /\
    (forall pid' call receipt stamp m', durable_operation_calls (db c2) !! call = Some (k, stamp) ->
       fst (fst (step_event json_dumps sha256 clock wall (Call pid' (DCommit call receipt)) c2 m')) = false).
Proof.
  intros k Hk Ho Hs c1.
  destruct (step_event_ops json_dumps sha256 clock wall (Start pid owner ttl true) c n Hk) as [_ Hk1].
  set (o1 := op_set_status (status_value INDETERMINATE) (Some recovery_reason) (wall n) o).
  fold c1 in Hk1.
  assert (durable_operations (db c1) !! k = Some o1) as Ho1.
  { unfold c1. simpl. rewrite lookup_fmap, Ho. simpl. unfold is_submitted. by rewrite Hs. }
  clearbody c1. split.
  { intros l m. unfold durable_has_indeterminate_operation, operation_for_key. mstep. unfold out_res; simpl; fold k; by rewrite Ho1. }
  intros es m. destruct (run_events_closed json_dumps sha256 clock wall es c1 m k o1 Hk1 Ho1) as (Hk2 & o2 & Ho2 & Hc2); [by left|].
  split; [|cbv zeta; split].
  - pose proof (count_dispatches_pending json_dumps sha256 clock wall k es c1 m Hk1) as Hle.
    unfold pending in Hle. rewrite Ho1 in Hle. simpl in Hle. lia.
  - intros l m'. unfold durable_check_idempotency, operation_for_key. mstep. unfold out_res; simpl; fold k. rewrite Ho2.
    unfold closed_row, has_status in Hc2. destruct Hc2 as [Hc2|Hc2]; by rewrite Hc2.
  - intros pid' call receipt stamp m' Hcall. unfold step_event. destruct (procs _ !! pid') as [l|]; [|done]. simpl.
    apply not_true_is_false. intros Hok.
    destruct (durable_commit_out clock wall call receipt {| ledger := l; store := _ |} m' Hk2 Hok) as (op & now & Hl & _ & Hst & _).
    simpl in Hl. unfold lookup_call in Hl. rewrite Hcall, Ho2 in Hl. injection Hl as <-.
    unfold closed_row, has_status in *. rewrite Hst in Hc2. by destruct Hc2.
Qed.

(** The process that submitted the operation comes back to a third process's restart. *)
Lemma restart_fails_closed_witness :
  let c1 := snd (fst (step_event demo_dumps (fun s => s) demo_wall demo_wall (Start 2 "w2" 30 true) (fst (demo_cluster demo_events)) 20%nat)) in
  let c2 := fst (run_events demo_dumps (fun s => s) demo_wall demo_wall [Call 2 (DFail "c1" "lost"); Start 3 "w3" 30 true] c1 30%nat) in
  fst (fst (step_event demo_dumps (fun s => s) demo_wall demo_wall (Call 1 (DCommit "c1" (JStr "late"))) c2 99%nat)) = false.
Proof.
  intros c1 c2.
  destruct (durable_operations (db (fst (demo_cluster demo_events))) !!
    operation_key_of (fun s => s) "op" "bash" "{}") as [o|] eqn:E; [|exfalso; vm_compute in E; discriminate].
  refine (proj2 (proj2 (proj2 (restart_fails_closed demo_dumps (fun s => s) demo_wall demo_wall (fst (demo_cluster demo_events))
    20%nat 2 "w2" 30 "op" "bash" (JObj []) o _ E _) [Call 2 (DFail "c1" "lost"); Start 3 "w3" 30 true] 30%nat)) 1%nat "c1" (JStr "late") (Qnat 3) 99%nat _).
  - apply demo_cluster_keys.
  - vm_compute in E. injection E as <-. reflexivity.
  - vm_compute. reflexivity.
Defined.

(** a reported failure can contradict the store.  [mark_failed] on a
    submitted operation returns normally; the store keeps it submitted (it
    refuses to fail what may have run) while the process's own record says
    failed. *)
Theorem mark_failed_diverges wall call error w n op r :
  keys_ok (store w) -> lookup_call call (store w) = Some op -> has_status op SUBMITTED ->
  od_get call (records_by_call_id (base_ledger (ledger w))) = Some r ->
  let out := durable_mark_failed wall call error w n in
  out_res out = Ok tt /\ store (out_st out) = store w /\
  exists r', od_get call (records_by_call_id (base_ledger (ledger (out_st out)))) = Some r' /\ status r' = FAILED.
Proof.
  intros Hk Hl Hs Hr out. unfold out, durable_mark_failed.
  assert (mark_operation_failed wall call error (store w) n = (Ok op, store w, n)) as Hm.
  { unfold mark_operation_failed, transaction. mstep. rewrite Hl. unfold status_in. rewrite Hs. simpl.
    mstep. unfold reload. mstep. by rewrite (lookup_call_Some _ _ _ Hk Hl). }
  erewrite bind_ok by (unfold on_store, zoom; rewrite Hm; reflexivity). cbv beta.
  assert (mark_failed wall call error (base_ledger (ledger w)) n =
    (Ok tt, with_records (od_set call (set_error error (set_status FAILED (wall n) r))
      (records_by_call_id (base_ledger (ledger w)))) (base_ledger (ledger w)), S n)) as Hb.
  { unfold mark_failed, update_record. mstep. rewrite Hr. by mstep. }
  unfold on_base, zoom. simpl. rewrite Hb. unfold out_res, out_st. simpl. split_and!; [done | by destruct w|].
  eexists. by rewrite od_get_set_eq.
Qed.

Definition demo_run (o : durable_op) (w : World) : World :=
  snd (fst (run_durable demo_dumps (fun s => s) demo_wall demo_wall o w 5%nat)).
Definition demo_world : World :=
  demo_run (DSubmit "c1") (demo_run (DRegister "c1" "op" "bash" (JObj [])) {| ledger := demo_process; store := init_db |}).
Lemma demo_world_keys : keys_ok (store demo_world).
Proof.
  unfold demo_world, demo_run.
  do 2 (eapply evolved_ops; [|apply run_durable_evolved]). apply init_keys_ok.
Qed.

Lemma mark_failed_diverges_witness :
  out_res (durable_mark_failed demo_wall "c1" "boom" demo_world 99%nat) = Ok tt.
Proof.
  destruct (lookup_call "c1" (store demo_world)) as [op|] eqn:E; [|exfalso; vm_compute in E; discriminate].
  destruct (od_get "c1" (records_by_call_id (base_ledger (ledger demo_world)))) as [r|] eqn:Er;
    [|exfalso; vm_compute in Er; discriminate].
  apply (mark_failed_diverges demo_wall "c1" "boom" demo_world 99%nat op r).
  - apply demo_world_keys.
  - exact E.
  - vm_compute in E. injection E as <-. reflexivity.
  - exact Er.
Defined.
