(* ===== verification/ClusterStore.v ===== *)
(** * The cluster store

    [src/durallm/storage/cluster.py], in its in-memory mode (no Redis client):
    sessions with compare-and-swap, attempts, operations, leases with fencing
    counters, breaker synchronisation and token buckets.  The store implements
    the [BreakerSync] interface the circuit breaker is written against. *)

From stdpp Require Import base tactics list strings.
From Stdlib Require Import QArith Lqa.
From S2P Require Import Prelude Models Json ToolLedger SqliteStore Metrics Breaker BreakerSpec.

Record TokenBucket : Type := { tokens : Q; last_refill : Q }.

Record ClusterPersistenceStore : Type := {
  cl_sessions : odict string StoredSession;
  cl_attempts : odict string StoredAttempt;
  cl_request_attempts : odict string (list string);
  cl_operations : odict string StoredOperation;
  cl_key_to_op : odict string string;
  cl_leases : odict string Lease;
  cl_fencing_counters : odict string nat;
  cl_breaker_states : odict string RemoteBreaker;
  cl_token_buckets : odict string TokenBucket;
}.

Definition new_cluster_store : ClusterPersistenceStore :=
  {| cl_sessions := []; cl_attempts := []; cl_request_attempts := []; cl_operations := []; cl_key_to_op := [];
     cl_leases := []; cl_fencing_counters := []; cl_breaker_states := []; cl_token_buckets := [] |}.

Definition cl_with_sessions x (c : ClusterPersistenceStore) : ClusterPersistenceStore :=
  Build_ClusterPersistenceStore x (cl_attempts c) (cl_request_attempts c) (cl_operations c) (cl_key_to_op c)
    (cl_leases c) (cl_fencing_counters c) (cl_breaker_states c) (cl_token_buckets c).
Definition cl_with_attempts x y (c : ClusterPersistenceStore) : ClusterPersistenceStore :=
  Build_ClusterPersistenceStore (cl_sessions c) x y (cl_operations c) (cl_key_to_op c)
    (cl_leases c) (cl_fencing_counters c) (cl_breaker_states c) (cl_token_buckets c).
Definition cl_with_operations x y (c : ClusterPersistenceStore) : ClusterPersistenceStore :=
  Build_ClusterPersistenceStore (cl_sessions c) (cl_attempts c) (cl_request_attempts c) x y
    (cl_leases c) (cl_fencing_counters c) (cl_breaker_states c) (cl_token_buckets c).
Definition cl_with_leases x y (c : ClusterPersistenceStore) : ClusterPersistenceStore :=
  Build_ClusterPersistenceStore (cl_sessions c) (cl_attempts c) (cl_request_attempts c) (cl_operations c)
    (cl_key_to_op c) x y (cl_breaker_states c) (cl_token_buckets c).
Definition cl_with_breakers x (c : ClusterPersistenceStore) : ClusterPersistenceStore :=
  Build_ClusterPersistenceStore (cl_sessions c) (cl_attempts c) (cl_request_attempts c) (cl_operations c)
    (cl_key_to_op c) (cl_leases c) (cl_fencing_counters c) x (cl_token_buckets c).
Definition cl_with_buckets x (c : ClusterPersistenceStore) : ClusterPersistenceStore :=
  Build_ClusterPersistenceStore (cl_sessions c) (cl_attempts c) (cl_request_attempts c) (cl_operations c)
    (cl_key_to_op c) (cl_leases c) (cl_fencing_counters c) (cl_breaker_states c) x.

Section cluster.
Context (wall : nat -> Q).
Local Abbreviation C := (M exn ClusterPersistenceStore).

(** *** Sessions *)

Definition cl_load_session (sid : string) : C (option StoredSession) := gets (fun c => od_get sid (cl_sessions c)).

Definition cl_create_session (sid version : string) (payload : json) : C (option StoredSession) :=
  now ← read_clock wall;
  let s := {| session_id := sid; protocol_version := version; session_payload := payload; revision := 1;
              session_created_at := now; session_updated_at := now |} in
  c ← get;
  if od_mem sid (cl_sessions c) then mret None
  else modify (fun c => cl_with_sessions (od_set sid s (cl_sessions c)) c) ;; mret (Some s).

Definition cl_save_session (sid version : string) (payload : json) (expected : nat) : C (option StoredSession) :=
  existing ← cl_load_session sid;
  match existing with
  | None => mret None
  | Some old =>
      if negb (revision old =? expected)%nat then mret None else
      now ← read_clock wall;
      let s := {| session_id := sid; protocol_version := version; session_payload := payload; revision := S expected;
                  session_created_at := session_created_at old; session_updated_at := now |} in
      modify (fun c => cl_with_sessions (od_set sid s (cl_sessions c)) c) ;; mret (Some s)
  end.

(** *** Attempts *)

Definition cl_prepare_attempt (aid rid : string) (payload : json) : C StoredAttempt :=
  now ← read_clock wall;
  let a := {| sa_attempt_id := aid; sa_request_id := rid; sa_status := "PREPARED"; sa_payload := payload;
              sa_created_at := now; sa_updated_at := now |} in
  modify (fun c => cl_with_attempts (od_set aid a (cl_attempts c))
    (od_set rid (default [] (od_get rid (cl_request_attempts c)) ++ [aid]) (cl_request_attempts c)) c) ;;
  mret a.

Definition cl_load_attempt (aid : string) : C (option StoredAttempt) := gets (fun c => od_get aid (cl_attempts c)).

Definition cl_attempts_for_request (rid : string) : C (list StoredAttempt) :=
  gets (fun c => omap (fun aid => od_get aid (cl_attempts c)) (default [] (od_get rid (cl_request_attempts c)))).

Definition cl_finish_attempt (aid st : string) (payload : json) : C StoredAttempt :=
  existing ← cl_load_attempt aid;
  created ← match existing with Some a => mret (sa_created_at a) | None => read_clock wall end;
  now ← read_clock wall;
  let a := {| sa_attempt_id := aid; sa_request_id := match existing with Some a => sa_request_id a | None => "" end;
              sa_status := st; sa_payload := payload; sa_created_at := created; sa_updated_at := now |} in
  modify (fun c => cl_with_attempts (od_set aid a (cl_attempts c)) (cl_request_attempts c) c) ;;
  mret a.

(** *** Operations *)

Definition cl_prepare_operation (call logical tool hash : string) (args : json) : C StoredOperation :=
  now ← read_clock wall;
  let key := op_key logical tool hash in
  let o := {| operation_key := key; op_logical_operation_id := logical; op_tool_name := tool; op_arguments_hash := hash;
              op_arguments := args; op_status := "PREPARED"; op_execution_receipt := None; op_error_message := None;
              op_created_at := now; op_updated_at := now |} in
  modify (fun c => cl_with_operations (od_set call o (cl_operations c)) (od_set key call (cl_key_to_op c)) c) ;;
  mret o.

Definition cl_operation_for_call (call : string) : C (option StoredOperation) :=
  gets (fun c => od_get call (cl_operations c)).

Definition cl_operation_for_key (logical tool hash : string) : C (option StoredOperation) :=
  gets (fun c => match od_get (op_key logical tool hash) (cl_key_to_op c) with
                 | Some call => if truthy call then od_get call (cl_operations c) else None
                 | None => None
                 end).

Definition cl_commit_receipt (call : string) (receipt : json) : C (option StoredOperation) :=
  c ← get;
  match od_get call (cl_operations c) with
  | None => mret None
  | Some o =>
      now ← read_clock wall;
      let o' := {| operation_key := operation_key o; op_logical_operation_id := op_logical_operation_id o;
                   op_tool_name := op_tool_name o; op_arguments_hash := op_arguments_hash o; op_arguments := op_arguments o;
                   op_status := "COMMITTED"; op_execution_receipt := Some receipt; op_error_message := None;
                   op_created_at := op_created_at o; op_updated_at := now |} in
      modify (fun c => cl_with_operations (od_set call o' (cl_operations c)) (cl_key_to_op c) c) ;;
      mret (Some o')
  end.

(** *** Leases *)

Definition counter_of (resource : string) (c : ClusterPersistenceStore) : nat :=
  default 0%nat (od_get resource (cl_fencing_counters c)).

Definition cl_acquire_lease (resource owner : string) (ttl : Q) : C (option Lease) :=
  now ← read_clock wall;
  c ← get;
  if match od_get resource (cl_leases c) with
     | Some cur => (now ≺ lease_expires_at cur) && negb (String.eqb (lease_owner cur) owner)
     | None => false end
  then mret None
  else
    let fencing := (counter_of resource c + 1)%nat in
    let le := {| lease_resource := resource; lease_owner := owner; fencing_token := fencing;
                 lease_expires_at := (now + ttl)%Q |} in
    modify (fun c => cl_with_leases (od_set resource le (cl_leases c))
                       (od_set resource fencing (cl_fencing_counters c)) c) ;;
    mret (Some le).

Definition cl_release_lease (resource owner : string) (token : nat) : C bool :=
  c ← get;
  match od_get resource (cl_leases c) with
  | None => mret true
  | Some cur =>
      if String.eqb (lease_owner cur) owner && (fencing_token cur =? token)%nat
      then modify (fun c => cl_with_leases (od_pop resource (cl_leases c)) (cl_fencing_counters c) c) ;; mret true
      else mret false
  end.

(** *** Breaker synchronisation *)

Definition cl_sync_breaker_state (provider st : string) (errors : Z) (trip : Q) : C unit :=
  now ← read_clock wall;
  modify (fun c => cl_with_breakers
    (od_set provider {| rb_provider := provider; rb_state := st; rb_error_count := errors; rb_trip_timestamp := trip;
                        rb_updated_at := now |} (cl_breaker_states c)) c).

Definition cl_get_cluster_breaker_state (provider : string) : C (option RemoteBreaker) :=
  gets (fun c => od_get provider (cl_breaker_states c)).

(** *** Token buckets *)

(** The bucket's content at [now]. *)
Definition refilled (capacity rate now : Q) (b : option TokenBucket) : Q :=
  match b with
  | None => capacity
  | Some b => py_min capacity (tokens b + py_max 0 (now - last_refill b) * rate)%Q
  end.

Definition cl_consume_tokens (key : string) (amount capacity rate : Q) : C bool :=
  now ← read_clock wall;
  c ← get;
  let current := refilled capacity rate now (od_get key (cl_token_buckets c)) in
  if amount ⪯ current then
    modify (fun c => cl_with_buckets
      (od_set key {| tokens := (current - amount)%Q; last_refill := now |} (cl_token_buckets c)) c) ;; mret true
  else mret false.

(** The interface the breaker is written against. *)
#[export] Instance cluster_sync : BreakerSync ClusterPersistenceStore := {|
  sync_breaker_state := cl_sync_breaker_state;
  get_cluster_breaker_state := cl_get_cluster_breaker_state |}.

(** ** A trip reaches every pod *)

Lemma publish_open_state (a : CircuitBreaker) c to now n :
  exists a' c' n', publish_transition (breaker_id a) to now (a, Some c) n = (Ok tt, (a', Some c'), n') /\
    core a' = core a /\
    exists rb, od_get (breaker_id a) (cl_breaker_states c') = Some rb /\ rb_state rb = state_value to.
Proof.
  unfold publish_transition. mstep. cbn [snd]. unfold try_except. erewrite bind_ok by apply self_snapshot_eq. cbv beta.
  eexists _, _, _. split; [reflexivity|]. split; [unfold core; simpl; by autorewrite with durallm|].
  eexists. simpl. rewrite od_get_set_eq. done.
Qed.

Lemma emit_publishes clock from to r (a : CircuitBreaker) c n :
  exists w' c' n', emit_transition clock from to r (a, Some c) n = (Ok tt, w', n') /\ snd w' = Some c' /\
    exists rb, od_get (breaker_id a) (cl_breaker_states c') = Some rb /\ rb_state rb = state_value to.
Proof.
  unfold emit_transition. mstep. erewrite bind_ok by apply self_snapshot_eq. cbv beta. mstep. mstep. cbn [fst snd].
  match goal with |- context [with_event ?e _] => set (ev := e) end.
  set (a1 := with_event ev _).
  destruct (publish_open_state a1 c to (clock n) (S n)) as (a' & c' & n' & Hp & _ & Hrb).
  erewrite bind_ok by exact Hp. cbv beta. mstep. cbn [fst].
  match goal with |- context [for_each ?ls _ ?w ?m] =>
    destruct (deliver_eq ls ev w m) as (b' & Hd & _) end.
  eexists _, _, _. split; [exact Hd|]. split; [reflexivity | exact Hrb].
Qed.
End cluster.

(** ** Properties of the cluster store *)
Module ClusterProps.

(** ** Breaker synchronisation *)

(** A trip reaches every pod.  When one pod's breaker publishes a transition
    to OPEN in the shared store, the next permission any other pod asks of a
    closed breaker with the same identifier is refused with the open error, and
    that breaker is open too (unless its wait has elapsed in the same call). *)
Theorem trip_propagates wall clock from r (a : CircuitBreaker) c n (b : CircuitBreaker) m :
  breaker_id b = breaker_id a -> bstate b = CLOSED ->
  exists w1 c1 n1,
    emit_transition (H := cluster_sync wall) clock from OPEN r (a, Some c) n = (Ok tt, w1, n1) /\ snd w1 = Some c1 /\
    let out := acquire_permission (H := cluster_sync wall) clock (b, Some c1) m in
    (exists wait, out_res out = Raise (BreakerOpenError (breaker_id b) wait)) /\ bstate (fst (out_st out)) = OPEN.
Proof.
  intros Hid Hb. destruct (emit_publishes wall clock from OPEN r a c n) as (w1 & c1 & n1 & He & Hc1 & rb & Hrb & Hst).
  exists w1, c1, n1. split; [done|]. split; [done|]. cbv zeta. unfold acquire_permission, check_and_update_state.
  assert (forall x, (try_except (on_cluster None (get_cluster_breaker_state (BreakerSync := cluster_sync wall) (breaker_id b)))
    (mret None)) (b, Some c1) x = (Ok (Some rb), (b, Some c1), x)) as Hr.
  { intros x. unfold try_except, on_cluster. simpl. unfold cl_get_cluster_breaker_state, gets. by rewrite Hid, Hrb. }
  assert (exists w2 n2, check_and_update_state (H := cluster_sync wall) clock (b, Some c1) m = (Ok tt, w2, n2) /\
    bstate (fst w2) = OPEN /\ breaker_id (fst w2) = breaker_id b) as (w2 & n2 & Hck & Hst2 & Hid2).
  { unfold check_and_update_state. mstep. mstep. unfold state_is. cbn [fst]. rewrite Hb.
    rewrite bool_decide_eq_true_2 by done. erewrite bind_ok by apply Hr. cbv beta iota. rewrite Hst. change (String.eqb (state_value OPEN) "OPEN") with true.
    cbv iota. mstep. mstep. cbn [fst snd].
    match goal with |- context [emit_transition _ _ _ _ ?w ?k] =>
      destruct (emit_transition_spec (H := cluster_sync wall) clock CLOSED OPEN RemoteTrip w k) as (w2 & n2 & Hem & Hc & _) end.
    exists w2, n2. split; [exact Hem|]. apply core_fields in Hc as (Hs & _ & _ & _ & _ & _ & Hi). by rewrite Hs, Hi. }
  unfold check_and_update_state in Hck. erewrite !bind_ok by exact Hck. cbv beta.
  erewrite !bind_ok by reflexivity. cbv beta. unfold id. rewrite Hst2.
  erewrite !bind_ok by reflexivity. unfold out_res, out_st. simpl. rewrite Hid2. by split; [eexists|].
Qed.

Definition pod_breaker : CircuitBreaker := new_breaker "groq-primary" default_breaker_config.

Lemma trip_propagates_witness :
  exists w1 c1 n1,
    emit_transition (H := cluster_sync Qnat) Qnat CLOSED OPEN AdminForcedOpen (pod_breaker, Some new_cluster_store) 0%nat
      = (Ok tt, w1, n1) /\ snd w1 = Some c1 /\
    bstate (fst (out_st (acquire_permission (H := cluster_sync Qnat) Qnat (pod_breaker, Some c1) 7%nat))) = OPEN.
Proof.
  destruct (trip_propagates Qnat Qnat CLOSED AdminForcedOpen pod_breaker new_cluster_store 0%nat pod_breaker 7%nat)
    as (w1 & c1 & n1 & He & Hc & _ & Hs).
  - reflexivity.
  - reflexivity.
  - exists w1, c1, n1. exact (conj He (conj Hc Hs)).
Defined.

(** ** Leases *)

Inductive cluster_op : Type :=
| CCreateSession (sid version : string) (payload : json)
| CSaveSession (sid version : string) (payload : json) (expected : nat)
| CPrepareAttempt (aid rid : string) (payload : json)
| CFinishAttempt (aid st : string) (payload : json)
| CPrepareOperation (call logical tool hash : string) (args : json)
| CCommit (call : string) (receipt : json)
| CAcquire (resource owner : string) (ttl : Q)
| CRelease (resource owner : string) (token : nat)
| CSync (provider st : string) (errors : Z) (trip : Q)
| CConsume (key : string) (amount capacity rate : Q).

Definition run_cluster (wall : nat -> Q) (o : cluster_op) : M exn ClusterPersistenceStore unit :=
  match o with
  | CCreateSession s v p => cl_create_session wall s v p ;; mret tt
  | CSaveSession s v p e => cl_save_session wall s v p e ;; mret tt
  | CPrepareAttempt a r p => cl_prepare_attempt wall a r p ;; mret tt
  | CFinishAttempt a s p => cl_finish_attempt wall a s p ;; mret tt
  | CPrepareOperation c l t h a => cl_prepare_operation wall c l t h a ;; mret tt
  | CCommit c r => cl_commit_receipt wall c r ;; mret tt
  | CAcquire rs ow ttl => cl_acquire_lease wall rs ow ttl ;; mret tt
  | CRelease rs ow tok => cl_release_lease rs ow tok ;; mret tt
  | CSync p s e t => cl_sync_breaker_state wall p s e t
  | CConsume k a c r => cl_consume_tokens wall k a c r ;; mret tt
  end.

Definition counter_at_least (rs : string) (k : nat) (c : ClusterPersistenceStore) : Prop := (k <= counter_of rs c)%nat.

Lemma run_cluster_counter wall o rs k : preserves (counter_at_least rs k) (run_cluster wall o).
Proof.
  destruct o; simpl; unfold cl_create_session, cl_save_session, cl_load_session, cl_prepare_attempt, cl_finish_attempt,
    cl_load_attempt, cl_prepare_operation, cl_commit_receipt, cl_release_lease, cl_sync_breaker_state, cl_consume_tokens;
    preserve; try done.
  intros c n Hc. unfold cl_acquire_lease. mstep. mstep.
  destruct (match od_get resource (cl_leases c) with Some cur => _ | None => false end); [done|].
  unfold out_st. simpl. unfold counter_at_least, counter_of in *. simpl.
  destruct (decide (rs = resource)) as [->|Hne]; [rewrite od_get_set_eq; simpl; lia | by rewrite od_get_set_ne].
Qed.

Lemma for_each_preserves_cluster wall os rs k : preserves (counter_at_least rs k) (for_each os (run_cluster wall)).
Proof. apply preserves_for_each. intros o. apply run_cluster_counter. Qed.

Lemma acquire_token wall rs ow ttl c n le :
  out_res (cl_acquire_lease wall rs ow ttl c n) = Ok (Some le) ->
  fencing_token le = S (counter_of rs c) /\
  counter_of rs (out_st (cl_acquire_lease wall rs ow ttl c n)) = fencing_token le.
Proof.
  unfold cl_acquire_lease. erewrite !bind_ok by reflexivity. cbv beta.
  destruct (match od_get rs (cl_leases c) with Some cur => _ | None => false end); [done|].
  unfold out_res, out_st. simpl. intros [= <-]. cbn [fencing_token]. split; [lia|].
  unfold counter_of at 1. cbn [cl_fencing_counters cl_with_leases]. by rewrite od_get_set_eq.
Qed.

(** Fencing tokens only grow.  In the cluster store, a lease granted after
    another on the same resource carries a strictly larger token, whatever calls
    (releases included) happen in between. *)
Theorem cluster_fencing_monotone wall rs ow ow' ttl ttl' c n os m k le le' :
  let c1 := out_st (cl_acquire_lease wall rs ow ttl c n) in
  let c2 := out_st (for_each os (run_cluster wall) c1 m) in
  out_res (cl_acquire_lease wall rs ow ttl c n) = Ok (Some le) ->
  out_res (cl_acquire_lease wall rs ow' ttl' c2 k) = Ok (Some le') ->
  (fencing_token le < fencing_token le')%nat.
Proof.
  intros c1 c2 H1 H2. apply acquire_token in H1 as [_ Hc1]. apply acquire_token in H2 as [Hf _].
  assert (counter_at_least rs (fencing_token le) c2) as Hc2.
  { apply (for_each_preserves_cluster wall os rs (fencing_token le) c1 m). unfold counter_at_least, c1. lia. }
  unfold counter_at_least in Hc2. lia.
Qed.

Lemma cluster_fencing_monotone_witness :
  exists le le',
    let c1 := out_st (cl_acquire_lease Qnat "r" "a" 30 new_cluster_store 0%nat) in
    let c2 := out_st (for_each [CRelease "r" "a" 1] (run_cluster Qnat) c1 1%nat) in
    out_res (cl_acquire_lease Qnat "r" "b" 30 c2 2%nat) = Ok (Some le') /\ (fencing_token le < fencing_token le')%nat.
Proof.
  eexists _, _. cbv zeta. split; [vm_compute; reflexivity|].
  eapply (cluster_fencing_monotone Qnat "r" "a" "b" 30 30 new_cluster_store 0%nat [CRelease "r" "a" 1] 1%nat 2%nat);
    vm_compute; reflexivity.
Defined.

(** Preparing again forgets the receipt.  In the cluster store a second
    tool call for the same operation rebinds the operation key to a fresh
    record: after a committed receipt, [operation_for_key] answers with an
    operation that has none. *)
Theorem reprepare_forgets_receipt wall call call' logical tool hash args c n :
  truthy call' = true ->
  let c1 := out_st (cl_prepare_operation wall call' logical tool hash args c n) in
  exists o, out_res (cl_operation_for_key logical tool hash c1 n) = Ok (Some o) /\ op_execution_receipt o = None /\
    (call <> call' -> out_res (cl_operation_for_call call c1 n) = out_res (cl_operation_for_call call c n)).
Proof.
  intros Hc c1. unfold c1, cl_operation_for_key, cl_operation_for_call, out_res, out_st. simpl.
  rewrite od_get_set_eq, Hc, od_get_set_eq. eexists. split; [reflexivity|]. split; [done|].
  intros Hne. by rewrite od_get_set_ne.
Qed.

Lemma reprepare_forgets_receipt_witness :
  let c0 := out_st (cl_prepare_operation Qnat "c1" "op" "bash" "h" (JObj []) new_cluster_store 0%nat) in
  let cc := out_st (cl_commit_receipt Qnat "c1" (JStr "done") c0 1%nat) in
  let c1 := out_st (cl_prepare_operation Qnat "c2" "op" "bash" "h" (JObj []) cc 2%nat) in
  exists o, out_res (cl_operation_for_key "op" "bash" "h" c1 2%nat) = Ok (Some o) /\ op_execution_receipt o = None.
Proof.
  intros c0 cc c1.
  destruct (reprepare_forgets_receipt Qnat "c1" "c2" "op" "bash" "h" (JObj []) cc 2%nat eq_refl) as (o & H1 & H2 & _).
  exists o. split; [exact H1 | exact H2].
Defined.

(** ** Token buckets *)

(** The calls of all pods on one bucket, in order: the sum of what they were granted,
    and the store afterwards.  Each call reads the clock once. *)
Fixpoint consume_all (wall : nat -> Q) (key : string) (capacity rate : Q) (amounts : list Q)
    (c : ClusterPersistenceStore) (n : nat) : Q * ClusterPersistenceStore :=
  match amounts with
  | [] => (0, c)
  | a :: rest =>
      let '(r, c', n') := cl_consume_tokens wall key a capacity rate c n in
      let '(total, c'') := consume_all wall key capacity rate rest c' n' in
      ((match r with Ok true => a | _ => 0 end) + total, c'')%Q
  end.

(** How far the clock moved forward over [k] readings after the reading [i]; moves
    backwards do not count. *)
Fixpoint forward (wall : nat -> Q) (i k : nat) : Q :=
  match k with
  | O => 0
  | S k => py_max 0 (wall (S i) - wall i) + forward wall (S i) k
  end%Q.

Section bucket.
Context (wall : nat -> Q) (key : string) (capacity rate : Q).
Context (Hcap : (0 <= capacity)%Q) (Hrate : (0 <= rate)%Q).

Definition bucket_ok (c : ClusterPersistenceStore) : Prop :=
  forall b, od_get key (cl_token_buckets c) = Some b -> (0 <= tokens b)%Q.
Local Abbreviation level c n := (refilled capacity rate (wall n) (od_get key (cl_token_buckets c))).

Lemma level_bounds c n : bucket_ok c -> (0 <= level c n <= capacity)%Q.
Proof.
  intros Hb. unfold refilled. destruct (od_get key (cl_token_buckets c)) as [b|] eqn:Eb; [|lra]. specialize (Hb b Eb).
  pose proof (py_max_ge_l 0 (wall n - last_refill b)). split; [apply py_min_glb; [done | nra] | apply py_min_le_l].
Qed.
(** The level rises by what the clock's move is worth at most. *)
Lemma level_rise c n : (level c (S n) <= level c n + py_max 0 (wall (S n) - wall n) * rate)%Q.
Proof.
  pose proof (py_max_ge_l 0 (wall (S n) - wall n)). pose proof (py_max_ge_r 0 (wall (S n) - wall n)).
  unfold refilled. destruct (od_get key (cl_token_buckets c)) as [b|]; [|nra].
  assert (py_max 0 (wall (S n) - last_refill b) <= py_max 0 (wall n - last_refill b) + py_max 0 (wall (S n) - wall n))%Q.
  { pose proof (py_max_ge_l 0 (wall n - last_refill b)). pose proof (py_max_ge_r 0 (wall n - last_refill b)). apply py_max_lub; lra. }
  set (x := py_max 0 (wall (S n) - last_refill b)) in *. set (y := py_max 0 (wall n - last_refill b)) in *. set (d := py_max 0 (wall (S n) - wall n)) in *.
  pose proof (py_min_le_l capacity (tokens b + x * rate)). pose proof (py_min_le_r capacity (tokens b + x * rate)).
  apply Qle_trans with (py_min capacity (tokens b + y * rate) + d * rate)%Q; [|lra].
  unfold py_min at 2. destruct (Qltb _ _); nra.
Qed.

Lemma consume_bound amounts c n : bucket_ok c ->
  bucket_ok (snd (consume_all wall key capacity rate amounts c n)) /\
  (fst (consume_all wall key capacity rate amounts c n) <= level c n + forward wall n (length amounts - 1) * rate)%Q.
Proof.
  revert c n. induction amounts as [|a rest IH]; intros c n Hb; cbn [consume_all length].
  { split; [done|]. pose proof (level_bounds c n Hb). cbn. lra. }
  pose proof (level_bounds c n Hb) as Hl. unfold cl_consume_tokens. mstep. mstep.
  assert (forall c', bucket_ok c' -> forall x, (x + level c' (S n) <= level c n + py_max 0 (wall (S n) - wall n) * rate)%Q -> (x <= level c n)%Q ->
    bucket_ok (snd (consume_all wall key capacity rate rest c' (S n))) /\
    (x + fst (consume_all wall key capacity rate rest c' (S n)) <= level c n + forward wall n (length rest) * rate)%Q) as Hrec.
  { intros c' Hb' x Hx Hx'. destruct (IH c' (S n) Hb') as [H1 H2]. split; [done|].
    destruct rest as [|a' rest']; [cbn in *; lra|]. cbn [length forward] in *. replace (S (length rest') - 1)%nat with (length rest') in H2 by lia. lra. }
  replace (S (length rest) - 1)%nat with (length rest) by lia. destruct (a ⪯ level c n) eqn:E; qbool; [mstep|]; cbn [mret M_ret].
  - set (c' := cl_with_buckets _ c).
    assert (od_get key (cl_token_buckets c') = Some {| tokens := level c n - a; last_refill := wall n |}) as Hc' by apply od_get_set_eq.
    assert (bucket_ok c') as Hb' by (intros b'; rewrite Hc'; intros [= <-]; cbn; lra).
    destruct (Hrec c' Hb' a) as [H1 H2]; [rewrite Hc'; cbn [refilled tokens last_refill] | done |].
    { pose proof (py_min_le_r capacity (level c n - a + py_max 0 (wall (S n) - wall n) * rate)). lra. }
    by destruct (consume_all wall key capacity rate rest c' (S n)).
  - destruct (Hrec c Hb 0%Q) as [H1 H2]; [pose proof (level_rise c n); lra | lra |].
    by destruct (consume_all wall key capacity rate rest c (S n)).
Qed.
End bucket.

(** C34: the token bucket limits bursts and the rate.  Whatever the pods asked of a bucket
    before, whatever they ask now and however the clock jumps, the calls of any later
    stretch are together granted at most the bucket's capacity plus the refill rate
    times the distance the clock moved forward between the first and the last of them:
    time that passed before the stretch is worth no more than the capacity, and a clock
    that is set back earns nothing. *)
Theorem token_bucket_limits wall key capacity rate before stretch n :
  (0 <= capacity)%Q -> (0 <= rate)%Q ->
  let c := snd (consume_all wall key capacity rate before new_cluster_store n) in
  let first := (n + length before)%nat in
  (fst (consume_all wall key capacity rate stretch c first) <= capacity + forward wall first (length stretch - 1) * rate)%Q.
Proof.
  intros Hc Hr c first. assert (bucket_ok key c) as Hb by (apply consume_bound; [done..|]; by intros b).
  destruct (consume_bound wall key capacity rate Hc Hr stretch c first Hb) as [_ H].
  pose proof (level_bounds wall key capacity rate Hc Hr c first Hb). lra.
Qed.

(** A long pause, then a burst: a bucket of five that refills at one a second. *)
Lemma token_bucket_limits_witness :
  let wall := fun n => match n with O => 0 | S k => 1000 + Qnat k end%Q in
  let c := snd (consume_all wall "k" 5 1 [4] new_cluster_store 0%nat) in
  fst (consume_all wall "k" 5 1 [4; 4; 1] c 1%nat) == 5 /\
  (fst (consume_all wall "k" 5 1 [4; 4; 1] c 1%nat) <= 5 + forward wall 1 2 * 1)%Q.
Proof.
  intros wall c. split; [vm_compute; reflexivity|].
  apply (token_bucket_limits wall "k" 5 1 [4] [4; 4; 1] 0%nat); lra.
Defined.

End ClusterProps.
