(* ===== verification/IR.v ===== *)
(** * The protocol intermediate representation

    [src/durallm/protocol/ir.py], and the prefix hash of
    [src/durallm/routing/cache.py] computed from a request. *)

From stdpp Require Import base tactics list strings.
From Stdlib Require Import QArith.
From S2P Require Import Prelude Models Json PyText.

Record NormalizedToolDefinition : Type := {
  td_name : string;
  td_description : string;
  td_parameters : json;
  td_cache_control : option json;
}.

Record NormalizedToolCall : Type := {
  tc_id : string;
  tc_name : string;
  tc_arguments : json;
  raw_arguments : string;
  tc_metadata : list (string * json);
}.

Record NormalizedToolResult : Type := {
  tr_tool_call_id : string;
  tr_tool_name : option string;
  tr_content : string;
  is_error : bool;
}.

Record NormalizedMessage : Type := {
  role : string;
  content : string;
  reasoning_content : option string;
  reasoning_signature : option string;
  tool_calls : list NormalizedToolCall;
  tool_results : list NormalizedToolResult;
  msg_name : option string;
  msg_cache_control : option json;
  msg_metadata : list (string * json);
}.

Record NormalizedRequest : Type := {
  request_id : string;
  req_model : string;
  messages : list NormalizedMessage;
  system_instruction : option string;
  system_cache_control : option json;
  tools : list NormalizedToolDefinition;
  tool_choice : option json;
  req_max_output_tokens : option Z;
  temperature : option Q;
  stream : bool;
  req_metadata : list (string * json);
}.

Record NormalizedResponse : Type := {
  response_id : string;
  resp_model : string;
  resp_content : option string;
  resp_reasoning_content : option string;
  resp_reasoning_signature : option string;
  resp_tool_calls : list NormalizedToolCall;
  finish_reason : string;
  input_tokens : Z;
  output_tokens : Z;
  raw_response : option json;
}.

(** [NormalizedToolCall.__post_init__] *)
Definition make_tool_call (json_dumps : json -> string) (id name : string) (args : json) (raw : string) : NormalizedToolCall :=
  {| tc_id := id; tc_name := name; tc_arguments := args;
     raw_arguments := if negb (truthy raw) && jtruthy args then json_dumps args else raw; tc_metadata := [] |}.

(** [get_effective_system_instruction] *)
Definition get_effective_system_instruction (r : NormalizedRequest) : option string :=
  match system_instruction r with
  | Some s => if truthy s then Some s else content <$> find (fun m => String.eqb (role m) "system") (messages r)
  | None => content <$> find (fun m => String.eqb (role m) "system") (messages r)
  end.

Definition with_messages (ms : list NormalizedMessage) (r : NormalizedRequest) : NormalizedRequest :=
  {| request_id := request_id r; req_model := req_model r; messages := ms; system_instruction := system_instruction r;
     tools := tools r; req_max_output_tokens := req_max_output_tokens r; temperature := temperature r; stream := stream r;
     system_cache_control := system_cache_control r; tool_choice := tool_choice r; req_metadata := req_metadata r |}.
Definition with_system (s : option string) (r : NormalizedRequest) : NormalizedRequest :=
  {| request_id := request_id r; req_model := req_model r; messages := messages r; system_instruction := s;
     tools := tools r; req_max_output_tokens := req_max_output_tokens r; temperature := temperature r; stream := stream r;
     system_cache_control := system_cache_control r; tool_choice := tool_choice r; req_metadata := req_metadata r |}.
Definition with_tools (ts : list NormalizedToolDefinition) (r : NormalizedRequest) : NormalizedRequest :=
  {| request_id := request_id r; req_model := req_model r; messages := messages r; system_instruction := system_instruction r;
     tools := ts; req_max_output_tokens := req_max_output_tokens r; temperature := temperature r; stream := stream r;
     system_cache_control := system_cache_control r; tool_choice := tool_choice r; req_metadata := req_metadata r |}.
Definition with_content (c : string) (m : NormalizedMessage) : NormalizedMessage :=
  {| role := role m; content := c; reasoning_content := reasoning_content m; reasoning_signature := reasoning_signature m;
     tool_calls := tool_calls m; tool_results := tool_results m; msg_name := msg_name m;
     msg_cache_control := msg_cache_control m; msg_metadata := msg_metadata m |}.
Definition with_results (rs : list NormalizedToolResult) (m : NormalizedMessage) : NormalizedMessage :=
  {| role := role m; content := content m; reasoning_content := reasoning_content m; reasoning_signature := reasoning_signature m;
     tool_calls := tool_calls m; tool_results := rs; msg_name := msg_name m;
     msg_cache_control := msg_cache_control m; msg_metadata := msg_metadata m |}.
Definition with_tr_content (c : string) (t : NormalizedToolResult) : NormalizedToolResult :=
  {| tr_tool_call_id := tr_tool_call_id t; tr_tool_name := tr_tool_name t; tr_content := c; is_error := is_error t |}.

(** ** The prefix hash *)

Section prefix_hash.
Context (json_dumps : json -> string) (sha256 : string -> string).

Definition nul : string := String (chr 0) "".
Definition soh : string := String (chr 1) "".

(** [sorted(tools, key=name)] *)
Definition tool_le (a b : NormalizedToolDefinition) : bool := String.leb (td_name a) (td_name b).

Definition tool_bytes (t : NormalizedToolDefinition) : string :=
  (td_name t ++ soh ++ td_description t ++ soh ++ json_dumps (td_parameters t) ++ nul)%string.

(** [compute_prefix_hash]: the bytes fed to the hasher. *)
Definition prefix_bytes (r : NormalizedRequest) : string :=
  (default "" (get_effective_system_instruction r) ++ nul ++
   match tools r with
   | [] => "no_tools" ++ nul
   | ts => join "" (map tool_bytes (sort_by tool_le ts))
   end ++
   match messages r with
   | [] => ""
   | m :: _ => role m ++ soh ++ content m ++ nul
   end)%string.

Definition compute_prefix_hash (r : NormalizedRequest) : string := sha256 (prefix_bytes r).
End prefix_hash.
