(* ===== verification/AgentState.v ===== *)
(** * Agent semantic state

    [src/durallm/agent/state.py]: the provider-neutral state of an agent, its
    updates, and its snapshots.  [json_dumps] renders without sorting; the code's
    [sort_keys=True] is [sort_json] before it. *)

From stdpp Require Import base tactics list strings sets.
From Stdlib Require Import QArith Ascii.
From S2P Require Import Prelude PyText Utf8 Json PyDyn IR.

Record AgentState : Type := {
  agent_id : string;
  objective : string;
  constraints : list string;
  important_decisions : list string;
  tool_definitions : list NormalizedToolDefinition;
  tool_execution_state : list (string * json);
  known_files : odict string string;
  latest_tool_outputs : odict string string;
  unresolved_errors : list string;
  current_subgoal : option string;
  version : Z;
  updated_at : Q;
}.

Section agent_state.
Context (json_dumps : json -> string) (json_loads : string -> option json) (sha256 : string -> string) (wall : nat -> Q).
Abbreviation AG := (M dyn_error AgentState).

(** [_bump_version], with the other fields as they are now. *)
Definition bumped (now : Q) (a : AgentState) : AgentState :=
  {| agent_id := agent_id a; objective := objective a; constraints := constraints a; important_decisions := important_decisions a;
     tool_definitions := tool_definitions a; tool_execution_state := tool_execution_state a; known_files := known_files a;
     latest_tool_outputs := latest_tool_outputs a; unresolved_errors := unresolved_errors a; current_subgoal := current_subgoal a;
     version := version a + 1; updated_at := now |}.
Definition bump_version : AG unit := fun a n => (Ok tt, bumped (wall n) a, S n).

Definition with_lists (cs ds : list string) (outs : odict string string) (a : AgentState) : AgentState :=
  {| agent_id := agent_id a; objective := objective a; constraints := cs; important_decisions := ds; tool_definitions := tool_definitions a;
     tool_execution_state := tool_execution_state a; known_files := known_files a; latest_tool_outputs := outs;
     unresolved_errors := unresolved_errors a; current_subgoal := current_subgoal a; version := version a; updated_at := updated_at a |}.

Definition add_constraint (c : string) : AG unit :=
  a ← get;
  when (truthy c && negb (existsb (String.eqb c) (constraints a))) (
    modify (fun a => with_lists (constraints a ++ [c]) (important_decisions a) (latest_tool_outputs a) a) ;; bump_version).
Definition add_decision (d : string) : AG unit :=
  a ← get;
  when (truthy d && negb (existsb (String.eqb d) (important_decisions a))) (
    modify (fun a => with_lists (constraints a) (important_decisions a ++ [d]) (latest_tool_outputs a) a) ;; bump_version).
Definition record_tool_output (tool_id output : string) : AG unit :=
  modify (fun a => with_lists (constraints a) (important_decisions a) (od_set tool_id output (latest_tool_outputs a)) a) ;; bump_version.

(** ** Snapshots *)

Record StateSnapshot : Type := {
  snapshot_id : string;
  snap_agent_id : string;
  snap_version : Z;
  payload_json : string;
  digest : string;
  snap_created_at : Q;
}.

(** The value [json.dumps(_, sort_keys=True)] renders. *)
Fixpoint sort_json (j : json) : json :=
  match j with
  | JArr l => JArr (map sort_json l)
  | JObj fs => JObj (sort_by (fun a b => String.leb (fst a) (fst b)) (map (fun kv => (fst kv, sort_json (snd kv))) fs))
  | _ => j
  end.

Definition snapshot_tool (t : NormalizedToolDefinition) : json :=
  JObj [("name", JStr (td_name t)); ("description", JStr (td_description t)); ("parameters", td_parameters t)].
Definition text_dict (d : odict string string) : json := JObj (map (fun kv => (fst kv, JStr (snd kv))) d).
Definition snapshot_data (a : AgentState) : json :=
  JObj [("agent_id", JStr (agent_id a)); ("objective", JStr (objective a)); ("constraints", JArr (map JStr (constraints a)));
        ("important_decisions", JArr (map JStr (important_decisions a)));
        ("tool_definitions", JArr (map snapshot_tool (tool_definitions a)));
        ("tool_execution_state", JObj (tool_execution_state a)); ("known_files", text_dict (known_files a));
        ("latest_tool_outputs", text_dict (latest_tool_outputs a)); ("unresolved_errors", JArr (map JStr (unresolved_errors a)));
        ("current_subgoal", match current_subgoal a with Some s => JStr s | None => JNull end);
        ("version", JInt (version a)); ("updated_at", JFloat (updated_at a))].

Definition from_agent_state {S} (a : AgentState) : M dyn_error S StateSnapshot := fun s n =>
  let raw := json_dumps (sort_json (snapshot_data a)) in
  let d := sha256 raw in
  (Ok {| snapshot_id := "snap_" ++ agent_id a ++ "_" ++ py_str_int (version a) ++ "_" ++ str_take 8 d; snap_agent_id := agent_id a;
         snap_version := version a; payload_json := raw; digest := d; snap_created_at := wall n |}, s, Datatypes.S n).
Definition create_snapshot : AG StateSnapshot := fun a n => from_agent_state a a n.

(** Values stored in typed fields. *)
Definition want_list {S A} (f : json -> M dyn_error S A) (j : json) : M dyn_error S (list A) :=
  match j with JArr l => map_m f l | _ => raise Untyped end.
Definition want_dict {S} (j : json) : M dyn_error S (list (string * json)) :=
  match j with JObj fs => mret fs | _ => raise Untyped end.
Definition want_text_dict {S} (j : json) : M dyn_error S (odict string string) :=
  fs ← want_dict j; map_m (fun kv => v ← want_str (snd kv); mret (fst kv, v)) fs.
Definition want_num {S} (j : json) : M dyn_error S Q :=
  match j with JInt z => mret (inject_Z z) | JFloat q => mret q | _ => raise Untyped end.

Definition restored_tool {S} (t : json) : M dyn_error S NormalizedToolDefinition :=
  nm ← py_item "name" t; name ← want_str nm;
  ds ← py_get_or "description" (JStr "") t; description ← want_str ds;
  ps ← py_get_or "parameters" (JObj []) t;
  mret {| td_name := name; td_description := description; td_parameters := ps; td_cache_control := None |}.

(** [restore_agent_state]; text that is not JSON raises. *)
Definition restore_agent_state {S} (snap : StateSnapshot) : M dyn_error S AgentState :=
  match json_loads (payload_json snap) with
  | None => raise Untyped
  | Some data =>
      ts ← py_get_or "tool_definitions" (JArr []) data; tl ← py_iter ts; tools ← map_m restored_tool tl;
      ai ← py_item "agent_id" data; aid ← want_str ai;
      ob ← py_get_or "objective" (JStr "") data; obj ← want_str ob;
      cs ← py_get_or "constraints" (JArr []) data; constraints ← want_list want_str cs;
      ds ← py_get_or "important_decisions" (JArr []) data; decisions ← want_list want_str ds;
      es ← py_get_or "tool_execution_state" (JObj []) data; exec ← want_dict es;
      kf ← py_get_or "known_files" (JObj []) data; files ← want_text_dict kf;
      lo ← py_get_or "latest_tool_outputs" (JObj []) data; outs ← want_text_dict lo;
      er ← py_get_or "unresolved_errors" (JArr []) data; errors ← want_list want_str er;
      sg ← py_get "current_subgoal" data; subgoal ← want_opt_str sg;
      ve ← py_get_or "version" (JInt 1) data; ver ← want_int ve;
      now ← (fun s n => (Ok (wall n), s, Datatypes.S n));
      ua ← py_get_or "updated_at" (JFloat now) data; upd ← want_num ua;
      mret {| agent_id := aid; objective := obj; constraints := constraints; important_decisions := decisions; tool_definitions := tools;
              tool_execution_state := exec; known_files := files; latest_tool_outputs := outs; unresolved_errors := errors;
              current_subgoal := subgoal; version := ver; updated_at := upd |}
  end.
End agent_state.

From S2P Require Import JsonText.

(** ** Properties of agent state *)
Module AgentStateProps.

Abbreviation key_le := (fun a b : string * _ => String.leb (fst a) (fst b)).

(** Sorting by key commutes with a change of the values. *)
Lemma sort_by_map {A B} (leA : A -> A -> bool) (leB : B -> B -> bool) (f : A -> B) l :
  (forall x y, leB (f x) (f y) = leA x y) -> sort_by leB (map f l) = map f (sort_by leA l).
Proof.
  intros H. assert (forall x l, insert_by leB (f x) (map f l) = map f (insert_by leA x l)) as Hi.
  { intros x l'. induction l' as [|y l' IH]; [done|]. cbn [map insert_by]. rewrite H. destruct (leA x y); [done|]. by rewrite IH. }
  induction l as [|x l IH]; [done|]. unfold sort_by in *. cbn [map foldr]. by rewrite IH, Hi.
Qed.

Lemma leb_trans x y z : String.leb x y = true -> String.leb y z = true -> String.leb x z = true.
Proof. intros Hxy Hyz. apply Is_true_true. apply (transitivity (R := String.le) (y := y)); by apply Is_true_true. Qed.
Lemma leb_flip x y : String.leb x y = false -> String.leb y x = true.
Proof. intros H. destruct (String.leb_total x y) as [E|E]; [congruence | done]. Qed.

(** A list in order is its own sorting. *)
Fixpoint ascending {V} (l : list (string * V)) : Prop :=
  match l with [] => True | x :: l' => Forall (fun y => String.leb (fst x) (fst y) = true) l' /\ ascending l' end.
Lemma insert_ascending {V} (x : string * V) l : ascending l -> ascending (insert_by key_le x l).
Proof.
  induction l as [|y l IH]; [done|]. cbn [insert_by ascending]. intros [Hy Hl].
  destruct (String.leb (fst x) (fst y)) eqn:E; cbn [ascending].
  - split; [|done]. constructor; [done|]. eapply Forall_impl; [exact Hy|]. intros z Hz. by eapply leb_trans.
  - split; [|by apply IH]. rewrite insert_by_perm. constructor; [by apply leb_flip | done].
Qed.
Lemma sort_ascending {V} (l : list (string * V)) : ascending (sort_by key_le l).
Proof. induction l as [|x l IH]; [done|]. by apply insert_ascending. Qed.
Lemma ascending_sorted {V} (l : list (string * V)) : ascending l -> sort_by key_le l = l.
Proof.
  induction l as [|x l IH]; [done|]. intros [Hx Hl]. unfold sort_by in *. cbn [foldr]. rewrite IH by done.
  destruct l as [|y l]; [done|]. cbn [insert_by]. apply Forall_cons in Hx as [-> _]. done.
Qed.
Lemma sort_twice {V} (l : list (string * V)) : sort_by key_le (sort_by key_le l) = sort_by key_le l.
Proof. apply ascending_sorted, sort_ascending. Qed.

Lemma sort_json_twice j : sort_json (sort_json j) = sort_json j.
Proof.
  induction j as [| | | | |l IH|fs IH] using json_nested_ind; try done; cbn [sort_json].
  - f_equal. rewrite map_map. apply map_ext_Forall. exact IH.
  - f_equal. rewrite <- (sort_by_map _ (fun a b => String.leb (fst a) (fst b))) by done.
    rewrite sort_twice. f_equal. rewrite map_map. cbn [fst snd]. apply map_ext_Forall. eapply Forall_impl; [exact IH|].
    intros [k v] Hv. cbn [fst snd] in *. by rewrite Hv.
Qed.

(** A dict with its keys in order. *)
Definition sorted_dict {V} (d : list (string * V)) : list (string * V) := sort_by key_le d.
Definition sorted_fields (fs : list (string * json)) : list (string * json) := sorted_dict (map (fun kv => (fst kv, sort_json (snd kv))) fs).

(** What a snapshot brings back: nested dicts in key order, tool definitions
    without their cache annotations, everything else as it was. *)
Definition restored (a : AgentState) : AgentState :=
  {| agent_id := agent_id a; objective := objective a; constraints := constraints a; important_decisions := important_decisions a;
     tool_definitions := map (fun t => {| td_name := td_name t; td_description := td_description t; td_parameters := sort_json (td_parameters t);
       td_cache_control := None |}) (tool_definitions a);
     tool_execution_state := sorted_fields (tool_execution_state a); known_files := sorted_dict (known_files a);
     latest_tool_outputs := sorted_dict (latest_tool_outputs a); unresolved_errors := unresolved_errors a;
     current_subgoal := current_subgoal a; version := version a; updated_at := updated_at a |}.

Section snapshots.
Context (json_dumps : json -> string) (json_loads : string -> option json) (sha256 : string -> string) (wall : nat -> Q).

Definition sorted_data (a : AgentState) : list (string * json) :=
  [("agent_id", JStr (agent_id a)); ("constraints", JArr (map sort_json (map JStr (constraints a))));
   ("current_subgoal", sort_json (match current_subgoal a with Some s => JStr s | None => JNull end));
   ("important_decisions", JArr (map sort_json (map JStr (important_decisions a))));
   ("known_files", sort_json (text_dict (known_files a))); ("latest_tool_outputs", sort_json (text_dict (latest_tool_outputs a)));
   ("objective", JStr (objective a)); ("tool_definitions", JArr (map sort_json (map snapshot_tool (tool_definitions a))));
   ("tool_execution_state", JObj (sorted_fields (tool_execution_state a))); ("unresolved_errors", JArr (map sort_json (map JStr (unresolved_errors a))));
   ("updated_at", JFloat (updated_at a)); ("version", JInt (version a))].
Lemma sorted_snapshot a : sort_json (snapshot_data a) = JObj (sorted_data a).
Proof. reflexivity. Qed.

Lemma read_texts {S} l (s : S) n : want_list want_str (JArr (map sort_json (map JStr l))) s n = (Ok l, s, n).
Proof.
  unfold want_list. rewrite map_map, <- (map_id l) at 1. rewrite map_map. cbn [sort_json].
  induction l as [|x l IH]; [done|]. cbn [map map_m]. mstep. by rewrite (bind_ok _ _ _ _ _ _ _ IH).
Qed.
Lemma read_text_dict {S} d (s : S) n : want_text_dict (sort_json (text_dict d)) s n = (Ok (sorted_dict d), s, n).
Proof.
  unfold want_text_dict, text_dict. cbn [sort_json]. erewrite bind_ok by reflexivity. cbv beta. rewrite map_map. cbn [fst snd sort_json].
  rewrite (sort_by_map key_le) by done. fold (sorted_dict d). generalize (sorted_dict d). intros l.
  induction l as [|[k v] l IH]; [done|]. cbn [map map_m fst snd]. erewrite bind_ok by reflexivity. cbv beta.
  by rewrite (bind_ok _ _ _ _ _ _ _ IH).
Qed.
Lemma read_tools {S} ts (s : S) n : map_m restored_tool (map sort_json (map snapshot_tool ts)) s n =
  (Ok (map (fun t => {| td_name := td_name t; td_description := td_description t; td_parameters := sort_json (td_parameters t);
       td_cache_control := None |}) ts), s, n).
Proof.
  induction ts as [|t ts IH]; [done|]. cbn [map map_m]. erewrite bind_ok by reflexivity. cbv beta. by rewrite (bind_ok _ _ _ _ _ _ _ IH).
Qed.

Lemma restore_spec {S} a snap (s : S) n : json_loads (payload_json snap) = Some (JObj (sorted_data a)) ->
  restore_agent_state json_loads wall snap s n = (Ok (restored a), s, Datatypes.S n).
Proof.
  intros H. unfold restore_agent_state. rewrite H. mstep. mstep. rewrite (bind_ok _ _ _ _ _ _ _ (read_tools (tool_definitions a) s n)). cbv beta.
  do 5 mstep. rewrite (bind_ok _ _ _ _ _ _ _ (read_texts (constraints a) s n)). cbv beta. mstep.
  rewrite (bind_ok _ _ _ _ _ _ _ (read_texts (important_decisions a) s n)). cbv beta. do 3 mstep.
  rewrite (bind_ok _ _ _ _ _ _ _ (read_text_dict (known_files a) s n)). cbv beta. mstep.
  rewrite (bind_ok _ _ _ _ _ _ _ (read_text_dict (latest_tool_outputs a) s n)). cbv beta. mstep.
  rewrite (bind_ok _ _ _ _ _ _ _ (read_texts (unresolved_errors a) s n)). cbv beta. mstep.
  rewrite (bind_ok _ _ _ _ (current_subgoal a) s n).
  2: { change (default JNull _) with (sort_json (match current_subgoal a with Some s => JStr s | None => JNull end)). by destruct (current_subgoal a). }
  cbv beta. do 5 mstep. reflexivity.
Qed.
End snapshots.

(** A restored state renders as the original did. *)
Lemma restored_data a : sort_json (snapshot_data (restored a)) = sort_json (snapshot_data a).
Proof.
  rewrite !sorted_snapshot. unfold sorted_data. cbn [restored agent_id objective constraints important_decisions tool_definitions
    tool_execution_state known_files latest_tool_outputs unresolved_errors current_subgoal version updated_at].
  assert (forall d : odict string string, sort_json (text_dict (sorted_dict d)) = sort_json (text_dict d)) as Hd.
  { intros d. unfold text_dict. cbn [sort_json]. rewrite !map_map. cbn [fst snd sort_json]. unfold sorted_dict.
    by rewrite !(sort_by_map key_le), sort_twice. }
  assert (forall fs, sorted_fields (sorted_fields fs) = sorted_fields fs) as Hf.
  { intros fs. pose proof (sort_json_twice (JObj fs)) as H. cbn [sort_json] in H. by injection H. }
  rewrite !Hd, Hf, !map_map. do 8 f_equal. f_equal. f_equal. f_equal. apply map_ext. intros t.
  unfold snapshot_tool. cbn [td_name td_description td_parameters]. cbn [sort_json map fst snd]. by rewrite sort_json_twice.
Qed.

(** A snapshot restores the state it was taken of: every field, with nested
    dicts in key order and without the cache annotations of tools; its identifiers
    and digest are those of the state, and a second snapshot of the restored state
    has the same payload and digest. *)
Theorem snapshot_roundtrip json_dumps json_loads sha256 wall {S} a (s : S) n :
  json_loads (json_dumps (sort_json (snapshot_data a))) = Some (sort_json (snapshot_data a)) ->
  exists snap, from_agent_state json_dumps sha256 wall a s n = (Ok snap, s, Datatypes.S n) /\
  snap_version snap = version a /\ snap_agent_id snap = agent_id a /\ digest snap = sha256 (payload_json snap) /\
  restore_agent_state json_loads wall snap s (Datatypes.S n) = (Ok (restored a), s, Datatypes.S (Datatypes.S n)) /\
  forall s' n' snap', out_res (from_agent_state json_dumps sha256 wall (restored a) (S := S) s' n') = Ok snap' ->
    payload_json snap' = payload_json snap /\ digest snap' = digest snap /\ snapshot_id snap' = snapshot_id snap.
Proof.
  intros H. eexists. split; [reflexivity|]. split_and!; [done..| |].
  - by apply restore_spec.
  - intros s' n' snap' E. unfold from_agent_state, out_res in E. rewrite restored_data in E. cbn [fst] in E. by injection E as <-.
Qed.

(** ** Updates *)

Definition agent_ok (a : AgentState) : Prop :=
  NoDup (constraints a) /\ NoDup (important_decisions a) /\ "" ∉ constraints a /\ "" ∉ important_decisions a /\ od_wf (latest_tool_outputs a).

Lemma existsb_not_elem x l : existsb (String.eqb x) l = false -> x ∉ l.
Proof.
  intros H Hx. assert (existsb (String.eqb x) l = true) as E; [|congruence]. apply existsb_exists. exists x. split; [by apply list_elem_of_In | apply String.eqb_refl].
Qed.
Lemma NoDup_snoc {A} (l : list A) x : NoDup l -> x ∉ l -> NoDup (l ++ [x]).
Proof. intros Hl Hx. apply NoDup_app. split_and!; [done | set_solver | apply NoDup_singleton]. Qed.

(** An operation that keeps the invariant, and the state too unless it raises the version. *)
Definition sound_update (wall : nat -> Q) (op : M dyn_error AgentState unit) (a : AgentState) (n : nat) : Prop :=
  exists a' n', op a n = (Ok tt, a', n') /\ agent_ok a' /\ (a' = a \/ version a' = (version a + 1)%Z /\ updated_at a' = wall n).

Lemma guarded_update wall (b : bool) f a n : agent_ok a -> (b = true -> agent_ok (bumped (wall n) (f a)) /\ version (f a) = version a) ->
  sound_update wall (a ← get; when b (modify f ;; bump_version wall)) a n.
Proof.
  intros Ha Hf. unfold sound_update. destruct b; cbn [when].
  - destruct (Hf eq_refl) as [Hok Hv]. do 2 eexists. split; [reflexivity|]. split; [done|]. right. cbn. by rewrite Hv.
  - exists a, n. split; [reflexivity|]. split; [done | by left].
Qed.

(** Constraints and decisions stay lists without repetition or empty entries,
    tool outputs a dict with one entry per tool; an update that changes the state
    raises its version by one and dates it, any other leaves the state untouched. *)
Theorem agent_updates_sound wall c tool output a n :
  agent_ok a ->
  sound_update wall (add_constraint wall c) a n /\ sound_update wall (add_decision wall c) a n /\
  sound_update wall (record_tool_output wall tool output) a n.
Proof.
  intros Ha. pose proof Ha as (H1 & H2 & H3 & H4 & H5).
  assert (forall l, truthy c && negb (existsb (String.eqb c) l) = true -> c ∉ l /\ c <> "") as Hc.
  { intros l [Ht Hn]%andb_true_iff. split; [apply existsb_not_elem, negb_true_iff, Hn | by destruct c]. }
  split_and!.
  - apply (guarded_update wall (truthy c && negb (existsb (String.eqb c) (constraints a)))); [done|]. intros [E1 E2]%Hc. split; [|done].
    split_and!; cbn; try done; [by apply NoDup_snoc | set_solver].
  - apply (guarded_update wall (truthy c && negb (existsb (String.eqb c) (important_decisions a)))); [done|]. intros [E1 E2]%Hc. split; [|done].
    split_and!; cbn; try done; [by apply NoDup_snoc | set_solver].
  - do 2 eexists. split; [reflexivity|]. split; [|by right]. split_and!; cbn; try done. by apply od_wf_set.
Qed.

(** ** Witnesses *)

Definition demo_agent : AgentState :=
  {| agent_id := "agent_1"; objective := "ship"; constraints := ["no net"]; important_decisions := ["use rocq"];
     tool_definitions := [{| td_name := "ls"; td_description := "lists"; td_parameters := JObj [("type", JStr "object"); ("properties", JObj [])]; td_cache_control := None |}];
     tool_execution_state := [("b", JInt 1); ("a", JNull)]; known_files := [("z.v", "ok"); ("a.v", "ok")]; latest_tool_outputs := [("ls", "a.v z.v")];
     unresolved_errors := []; current_subgoal := Some "prove"; version := 3; updated_at := 3 # 2 |}.
Definition agent_dumps : json -> string := dumps (fun _ => "1.5").

Lemma snapshot_roundtrip_witness :
  exists snap, from_agent_state agent_dumps (fun s => s) (fun _ => 0%Q) demo_agent tt 0%nat = (Ok snap, tt, 1%nat) /\
  snap_version snap = 3%Z /\ snap_agent_id snap = "agent_1" /\ digest snap = payload_json snap /\
  restore_agent_state loads (fun _ => 0%Q) snap tt 1%nat = (Ok (restored demo_agent), tt, 2%nat) /\
  forall s' n' snap', out_res (from_agent_state agent_dumps (fun s => s) (fun _ => 0%Q) (restored demo_agent) (S := unit) s' n') = Ok snap' ->
    payload_json snap' = payload_json snap /\ digest snap' = digest snap /\ snapshot_id snap' = snapshot_id snap.
Proof. apply (snapshot_roundtrip agent_dumps loads (fun s => s) (fun _ => 0%Q) demo_agent tt 0%nat). vm_compute. exact eq_refl. Defined.

Lemma agent_updates_sound_witness :
  sound_update (fun _ => 0%Q) (add_constraint (fun _ => 0%Q) "no net") demo_agent 0 /\
  sound_update (fun _ => 0%Q) (add_decision (fun _ => 0%Q) "no net") demo_agent 0 /\
  sound_update (fun _ => 0%Q) (record_tool_output (fun _ => 0%Q) "ls" "x") demo_agent 0.
Proof.
  apply (agent_updates_sound (fun _ => 0%Q) "no net" "ls" "x" demo_agent 0). unfold agent_ok, od_wf, demo_agent. cbn.
  split_and!; try apply NoDup_singleton; set_solver.
Defined.

End AgentStateProps.
