(* ===== verification/Continuation.v ===== *)
(** * The Agent Continuation Protocol

    [src/durallm/continuation/models.py] and [store.py]: the protocol records and
    the in-memory session store.

    [uuid] is the hexadecimal identifier drawn at a reading, [wall] the wall
    clock; SHA-256 and the canonical JSON encoder are arguments.  The error
    classes carry the HTTP status the code gives them. *)

From stdpp Require Import base tactics list gmap strings.
From Stdlib Require Import QArith Ascii.
From S2P Require Import Prelude Models PyText Utf8 Json IR.

Definition ACP_VERSION : string := "lcb-acp/1".

(** ** Records *)

Record ContinuationRequest : Type := {
  cr_state_digest : string;
  cr_session_id : option string;
  cr_parent_checkpoint_digest : option string;
  cr_protocol_version : string;
}.

Record Checkpoint : Type := {
  checkpoint_id : string;
  ck_session_id : string;
  ck_turn_id : string;
  ck_epoch : Z;
  ck_parent_checkpoint_digest : option string;
  request_digest : string;
  ck_client_state_digest : string;
  response_digest : string;
  gateway_digest : string;
  ck_created_at : Q;
}.

Inductive event_type : Type := turn_started | turn_completed | checkpoint_acknowledged | turn_interrupted.

Record ContinuationEvent : Type := {
  event_id : string;
  ce_type : event_type;
  ce_session_id : string;
  ce_turn_id : string;
  ce_epoch : Z;
  ce_protocol_version : string;
  ce_checkpoint : option Checkpoint;
  ack_required : bool;
  ce_detail : option string;
  ce_created_at : Q;
}.

Record ContinuationTurn : Type := {
  ct_session_id : string;
  ct_turn_id : string;
  ct_epoch : Z;
  ct_parent_checkpoint_digest : option string;
  ct_client_state_digest : string;
  ct_protocol_version : string;
}.

Definition opt_str (o : option string) : json := match o with Some s => JStr s | None => JNull end.
Definition opt_json (o : option json) : json := default JNull o.

(** [Checkpoint.to_dict] *)
Definition checkpoint_to_dict (c : Checkpoint) : json :=
  JObj [("checkpoint_id", JStr (checkpoint_id c)); ("session_id", JStr (ck_session_id c)); ("turn_id", JStr (ck_turn_id c));
        ("epoch", JInt (ck_epoch c)); ("parent_checkpoint_digest", opt_str (ck_parent_checkpoint_digest c));
        ("request_digest", JStr (request_digest c)); ("client_state_digest", JStr (ck_client_state_digest c));
        ("response_digest", JStr (response_digest c)); ("gateway_digest", JStr (gateway_digest c)); ("created_at", JFloat (ck_created_at c))].

(** [Checkpoint.from_dict]: [str], [int] and [float] of the stored values;
    [py_str] renders a value that is not a string. *)
Section from_dict.
Context (py_str : json -> string).
Definition as_str (j : json) : string := match j with JStr s => s | _ => py_str j end.
Definition as_int (j : json) : option Z :=
  match j with
  | JInt z => Some z
  | JBool b => Some (if b then 1 else 0)%Z
  | JFloat q => Some (Z.quot (Qnum q) (Zpos (Qden q)))
  | JStr s => py_int s
  | _ => None
  end.
Definition as_float (j : json) : option Q :=
  match j with
  | JFloat q => Some q
  | JInt z => Some (inject_Z z)
  | JBool b => Some (if b then 1 else 0)
  | JStr s => py_float s
  | _ => None
  end.
Definition as_opt_str (j : json) : option string := match j with JNull => None | _ => Some (as_str j) end.
Definition checkpoint_from_dict (j : json) : option Checkpoint :=
  cid ← jget "checkpoint_id" j; sid ← jget "session_id" j; tid ← jget "turn_id" j; ep ← jget "epoch" j; ep ← as_int ep;
  rq ← jget "request_digest" j; cl ← jget "client_state_digest" j; rs ← jget "response_digest" j; gd ← jget "gateway_digest" j;
  ca ← jget "created_at" j; ca ← as_float ca;
  Some {| checkpoint_id := as_str cid; ck_session_id := as_str sid; ck_turn_id := as_str tid; ck_epoch := ep;
          ck_parent_checkpoint_digest := as_opt_str (default JNull (jget "parent_checkpoint_digest" j));
          request_digest := as_str rq; ck_client_state_digest := as_str cl; response_digest := as_str rs;
          gateway_digest := as_str gd; ck_created_at := ca |}.
End from_dict.

Definition event_name (t : event_type) : string :=
  match t with
  | turn_started => "turn_started" | turn_completed => "turn_completed"
  | checkpoint_acknowledged => "checkpoint_acknowledged" | turn_interrupted => "turn_interrupted"
  end.
(** [ContinuationEvent.to_dict] *)
Definition event_to_dict (e : ContinuationEvent) : json :=
  JObj [("event_id", JStr (event_id e)); ("event_type", JStr (event_name (ce_type e))); ("session_id", JStr (ce_session_id e));
        ("turn_id", JStr (ce_turn_id e)); ("epoch", JInt (ce_epoch e)); ("protocol_version", JStr (ce_protocol_version e));
        ("checkpoint", match ce_checkpoint e with Some c => checkpoint_to_dict c | None => JNull end);
        ("ack_required", JBool (ack_required e)); ("detail", opt_str (ce_detail e)); ("created_at", JFloat (ce_created_at e))].

(** ** [dataclasses.asdict] of the exchanged messages *)

Definition asdict_tool (t : NormalizedToolDefinition) : json :=
  JObj [("name", JStr (td_name t)); ("description", JStr (td_description t)); ("parameters", td_parameters t);
        ("cache_control", opt_json (td_cache_control t))].
Definition asdict_call (c : NormalizedToolCall) : json :=
  JObj [("id", JStr (tc_id c)); ("name", JStr (tc_name c)); ("arguments", tc_arguments c); ("raw_arguments", JStr (raw_arguments c));
        ("metadata", JObj (tc_metadata c))].
Definition asdict_result (r : NormalizedToolResult) : json :=
  JObj [("tool_call_id", JStr (tr_tool_call_id r)); ("tool_name", opt_str (tr_tool_name r)); ("content", JStr (tr_content r));
        ("is_error", JBool (is_error r))].
Definition asdict_message (m : NormalizedMessage) : json :=
  JObj [("role", JStr (role m)); ("content", JStr (content m)); ("reasoning_content", opt_str (reasoning_content m));
        ("reasoning_signature", opt_str (reasoning_signature m)); ("tool_calls", JArr (map asdict_call (tool_calls m)));
        ("tool_results", JArr (map asdict_result (tool_results m))); ("name", opt_str (msg_name m));
        ("cache_control", opt_json (msg_cache_control m)); ("metadata", JObj (msg_metadata m))].
Definition asdict_request (r : NormalizedRequest) : json :=
  JObj [("request_id", JStr (request_id r)); ("model", JStr (req_model r)); ("messages", JArr (map asdict_message (messages r)));
        ("system_instruction", opt_str (system_instruction r)); ("system_cache_control", opt_json (system_cache_control r));
        ("tools", JArr (map asdict_tool (tools r))); ("tool_choice", opt_json (tool_choice r));
        ("max_output_tokens", match req_max_output_tokens r with Some z => JInt z | None => JNull end);
        ("temperature", match temperature r with Some q => JFloat q | None => JNull end); ("stream", JBool (stream r));
        ("metadata", JObj (req_metadata r))].
Definition asdict_response (r : NormalizedResponse) (selected_endpoint : string) : json :=
  JObj [("response_id", JStr (response_id r)); ("model", JStr (resp_model r)); ("content", opt_str (resp_content r));
        ("reasoning_content", opt_str (resp_reasoning_content r)); ("reasoning_signature", opt_str (resp_reasoning_signature r));
        ("tool_calls", JArr (map asdict_call (resp_tool_calls r))); ("finish_reason", JStr (finish_reason r));
        ("input_tokens", JInt (input_tokens r)); ("output_tokens", JInt (output_tokens r)); ("raw_response", opt_json (raw_response r));
        ("selected_endpoint", JStr selected_endpoint)].

(** ** Validation *)

Definition is_hex_lower (c : ascii) : bool := byte_in 48 57 c || byte_in 97 102 c.
Definition is_ident_char (c : ascii) : bool :=
  byte_in 65 90 c || byte_in 97 122 c || byte_in 48 57 c || byte_in 45 46 c || byte_in 58 58 c || byte_in 95 95 c.
(** [_DIGEST_RE] and [_IDENTIFIER_RE] *)
Definition is_digest (s : string) : bool := (String.length s =? 64)%nat && all_chars is_hex_lower s.
Definition is_identifier (s : string) : bool :=
  ((1 <=? String.length s) && (String.length s <=? 128))%nat && all_chars is_ident_char s.

Definition protocol_error (code : Z) : exn := ContinuationProtocolError code.
Definition ensure {S} (b : bool) (code : Z) : M exn S unit := if b then mret tt else raise (protocol_error code).
Definition validate_digest {S} (s : string) : M exn S unit := ensure (is_digest s) 400.
Definition validate_identifier {S} (s : string) : M exn S unit := ensure (is_identifier s) 400.
(** [x] when it is truthy. *)
Definition nonempty (o : option string) : option string := match o with Some s => if truthy s then Some s else None | None => None end.
Definition validate_request {S} (r : ContinuationRequest) : M exn S unit :=
  ensure (String.eqb (cr_protocol_version r) ACP_VERSION) 400 ;;
  match nonempty (cr_session_id r) with Some s => validate_identifier s | None => mret tt end ;;
  validate_digest (cr_state_digest r) ;;
  match nonempty (cr_parent_checkpoint_digest r) with Some d => validate_digest d | None => mret tt end.

(** ** Fresh identifiers, events and checkpoints *)

Section protocol.
Context (uuid : nat -> string) (wall : nat -> Q) (canonical_dumps : json -> string) (sha256 : string -> string).

Definition canonical_digest (j : json) : string := sha256 (canonical_dumps j).
Definition draw {S} : M exn S string := fun s n => (Ok (uuid n), s, Datatypes.S n).
Definition new_session_id {S} : M exn S string := u ← draw; mret ("acp_sess_" ++ u)%string.
Definition new_turn_id {S} : M exn S string := u ← draw; mret ("acp_turn_" ++ u)%string.

(** [_event] *)
Definition make_event {S} (ty : event_type) (t : ContinuationTurn) (c : option Checkpoint) (ack : bool) (detail : option string)
    : M exn S ContinuationEvent :=
  tid ← new_turn_id;
  now ← read_clock wall;
  mret {| event_id := ("acp_evt_" ++ str_drop 9 tid)%string; ce_type := ty; ce_session_id := ct_session_id t; ce_turn_id := ct_turn_id t;
          ce_epoch := ct_epoch t; ce_protocol_version := ct_protocol_version t; ce_checkpoint := c; ack_required := ack;
          ce_detail := detail; ce_created_at := now |}.

Definition checkpoint_data (t : ContinuationTurn) (rq rs selected_endpoint : string) : json :=
  JObj [("protocol_version", JStr (ct_protocol_version t)); ("session_id", JStr (ct_session_id t)); ("turn_id", JStr (ct_turn_id t));
        ("epoch", JInt (ct_epoch t)); ("parent_checkpoint_digest", opt_str (ct_parent_checkpoint_digest t)); ("request_digest", JStr rq);
        ("client_state_digest", JStr (ct_client_state_digest t)); ("response_digest", JStr rs); ("selected_endpoint", JStr selected_endpoint)].

(** The checkpoint of a completed turn, common to both stores. *)
Definition make_checkpoint (t : ContinuationTurn) (q : NormalizedRequest) (r : NormalizedResponse) (selected_endpoint : string) (now : Q)
    : Checkpoint :=
  let rq := canonical_digest (asdict_request q) in
  let rs := canonical_digest (asdict_response r selected_endpoint) in
  let gd := canonical_digest (checkpoint_data t rq rs selected_endpoint) in
  {| checkpoint_id := ("acp_ckpt_" ++ str_take 24 gd)%string; ck_session_id := ct_session_id t; ck_turn_id := ct_turn_id t;
     ck_epoch := ct_epoch t; ck_parent_checkpoint_digest := ct_parent_checkpoint_digest t; request_digest := rq;
     ck_client_state_digest := ct_client_state_digest t; response_digest := rs; gateway_digest := gd; ck_created_at := now |}.

(** ** The in-memory store *)

Record Session : Type := {
  s_session_id : string;
  s_protocol_version : string;
  next_epoch : Z;
  active_turn_id : option string;
  active_epoch : option Z;
  latest_checkpoint : option Checkpoint;
  latest_checkpoint_acknowledged : bool;
  events : list ContinuationEvent;
}.

Definition new_session (sid version : string) : Session :=
  {| s_session_id := sid; s_protocol_version := version; next_epoch := 0; active_turn_id := None; active_epoch := None;
     latest_checkpoint := None; latest_checkpoint_acknowledged := true; events := [] |}.
Definition with_active (tid : option string) (ep : option Z) (s : Session) : Session :=
  {| s_session_id := s_session_id s; s_protocol_version := s_protocol_version s; next_epoch := next_epoch s; active_turn_id := tid;
     active_epoch := ep; latest_checkpoint := latest_checkpoint s; latest_checkpoint_acknowledged := latest_checkpoint_acknowledged s;
     events := events s |}.
Definition with_checkpoint (c : Checkpoint) (ep : Z) (s : Session) : Session :=
  {| s_session_id := s_session_id s; s_protocol_version := s_protocol_version s; next_epoch := ep; active_turn_id := None;
     active_epoch := None; latest_checkpoint := Some c; latest_checkpoint_acknowledged := false; events := events s |}.
Definition with_acknowledged (s : Session) : Session :=
  {| s_session_id := s_session_id s; s_protocol_version := s_protocol_version s; next_epoch := next_epoch s;
     active_turn_id := active_turn_id s; active_epoch := active_epoch s; latest_checkpoint := latest_checkpoint s;
     latest_checkpoint_acknowledged := true; events := events s |}.
Definition with_event (e : ContinuationEvent) (s : Session) : Session :=
  {| s_session_id := s_session_id s; s_protocol_version := s_protocol_version s; next_epoch := next_epoch s;
     active_turn_id := active_turn_id s; active_epoch := active_epoch s; latest_checkpoint := latest_checkpoint s;
     latest_checkpoint_acknowledged := latest_checkpoint_acknowledged s; events := events s ++ [e] |}.

(** [self._sessions] *)
Abbreviation Sessions := (gmap string Session).
Abbreviation CS := (M exn Sessions).

Definition update_session (sid : string) (f : Session -> Session) : CS unit := modify (alter f sid).

Definition begin_turn (request : ContinuationRequest) : CS ContinuationTurn :=
  validate_request request ;;
  session_id ← match nonempty (cr_session_id request) with Some s => mret s | None => new_session_id end;
  m ← get;
  session ← match m !! session_id with
    | None =>
        ensure (bool_decide (nonempty (cr_parent_checkpoint_digest request) = None)) 400 ;;
        let s := new_session session_id (cr_protocol_version request) in
        modify (insert session_id s) ;; mret s
    | Some s => ensure (String.eqb (s_protocol_version s) (cr_protocol_version request)) 409 ;; mret s
    end;
  ensure (bool_decide (nonempty (active_turn_id session) = None)) 409 ;;
  match latest_checkpoint session with
  | None => mret tt
  | Some latest =>
      ensure (latest_checkpoint_acknowledged session) 409 ;;
      ensure (bool_decide (cr_parent_checkpoint_digest request = Some (gateway_digest latest))) 409
  end ;;
  tid ← new_turn_id;
  let turn := {| ct_session_id := session_id; ct_turn_id := tid; ct_epoch := next_epoch session;
                 ct_parent_checkpoint_digest := gateway_digest <$> latest_checkpoint session;
                 ct_client_state_digest := cr_state_digest request; ct_protocol_version := cr_protocol_version request |} in
  update_session session_id (with_active (Some tid) (Some (next_epoch session))) ;;
  e ← make_event turn_started turn None false None;
  update_session session_id (with_event e) ;;
  mret turn.

(** [_active_session] *)
Definition active_session (turn : ContinuationTurn) : CS Session :=
  m ← get;
  match m !! ct_session_id turn with
  | Some s =>
      ensure (bool_decide (active_turn_id s = Some (ct_turn_id turn)) && bool_decide (active_epoch s = Some (ct_epoch turn))) 409 ;;
      mret s
  | None => raise (protocol_error 409)
  end.

Definition complete_turn (turn : ContinuationTurn) (request : NormalizedRequest) (response : NormalizedResponse) (selected_endpoint : string)
    : CS ContinuationEvent :=
  _ ← active_session turn;
  now ← read_clock wall;
  let c := make_checkpoint turn request response selected_endpoint now in
  update_session (ct_session_id turn) (with_checkpoint c (ct_epoch turn + 1)) ;;
  e ← make_event turn_completed turn (Some c) true None;
  update_session (ct_session_id turn) (with_event e) ;;
  mret e.

(** The comparison of an acknowledgement with a checkpoint. *)
Definition acknowledges (turn_id : string) (epoch : Z) (digest : string) (c : Checkpoint) : bool :=
  String.eqb (ck_turn_id c) turn_id && (ck_epoch c =? epoch)%Z && String.eqb (gateway_digest c) digest.

Definition acknowledge (session_id turn_id : string) (epoch : Z) (checkpoint_digest : string) : CS ContinuationEvent :=
  validate_identifier session_id ;; validate_identifier turn_id ;; validate_digest checkpoint_digest ;;
  m ← get;
  match m !! session_id with
  | None => raise (protocol_error 404)
  | Some session =>
      match latest_checkpoint session with
      | None => raise (protocol_error 404)
      | Some c =>
          ensure (acknowledges turn_id epoch checkpoint_digest c) 409 ;;
          ensure (negb (latest_checkpoint_acknowledged session)) 409 ;;
          update_session session_id with_acknowledged ;;
          let turn := {| ct_session_id := session_id; ct_turn_id := turn_id; ct_epoch := epoch;
                         ct_parent_checkpoint_digest := ck_parent_checkpoint_digest c;
                         ct_client_state_digest := ck_client_state_digest c; ct_protocol_version := s_protocol_version session |} in
          e ← make_event checkpoint_acknowledged turn (Some c) false None;
          update_session session_id (with_event e) ;;
          mret e
      end
  end.

Definition interrupt_turn (turn : ContinuationTurn) (detail : string) : CS ContinuationEvent :=
  _ ← active_session turn;
  update_session (ct_session_id turn) (with_active None None) ;;
  e ← make_event turn_interrupted turn None false (Some detail);
  update_session (ct_session_id turn) (with_event e) ;;
  mret e.
End protocol.
