(* ===== verification/ContinuationSqlite.v ===== *)
(** * The durable continuation store

    [src/durallm/continuation/sqlite.py]: the protocol over the revisioned
    sessions and the leases of [SqliteStore].  A gateway process owns one
    [SQLiteContinuationStore]; the database is shared. *)

From stdpp Require Import base tactics list gmap strings.
From Stdlib Require Import QArith.
From S2P Require Import Prelude Models PyText Json IR SqliteStore Continuation.

Record SQLiteContinuationStore : Type := {
  cs_owner_id : string;
  cs_lease_ttl_seconds : Q;
  turn_leases : odict string Lease;
}.
Record ContinuationWorld : Type := { cs_self : SQLiteContinuationStore; cs_db : Database }.

(** [__init__] *)
Definition new_continuation_store (owner : string) (ttl : Q) : SQLiteContinuationStore :=
  {| cs_owner_id := owner; cs_lease_ttl_seconds := ttl; turn_leases := [] |}.

Definition with_db (d : Database) (w : ContinuationWorld) : ContinuationWorld := {| cs_self := cs_self w; cs_db := d |}.
Definition with_turn_leases (l : odict string Lease) (w : ContinuationWorld) : ContinuationWorld :=
  {| cs_self := {| cs_owner_id := cs_owner_id (cs_self w); cs_lease_ttl_seconds := cs_lease_ttl_seconds (cs_self w); turn_leases := l |};
     cs_db := cs_db w |}.

Abbreviation CW := (M exn ContinuationWorld).
Definition on_db {A} (m : M exn Database A) : CW A := zoom cs_db with_db m.

(** [try: m  finally: h] *)
Definition finally {E S A} (m : M E S A) (h : M E S unit) : M E S A := fun s n =>
  let '(r, s1, n1) := m s n in
  match h s1 n1 with
  | (Ok _, s2, n2) => (r, s2, n2)
  | (Raise e, s2, n2) => (Raise e, s2, n2)
  end.

(** [_empty_payload] *)
Definition empty_payload : json :=
  JObj [("next_epoch", JInt 0); ("active_turn_id", JNull); ("active_epoch", JNull); ("latest_checkpoint", JNull);
        ("latest_checkpoint_acknowledged", JBool true)].

(** [dict(session.payload)] *)
Definition payload_of {S} (s : StoredSession) : M exn S (odict string json) :=
  match session_payload s with JObj fs => mret fs | _ => raise (ValueError "payload") end.
Definition pget (k : string) (p : odict string json) : json := default JNull (od_get k p).

(** [value == epoch] for a JSON value. *)
Definition is_epoch (j : json) (z : Z) : bool :=
  match j with
  | JInt x => (x =? z)%Z
  | JFloat q => Qeqb q (inject_Z z)
  | JBool b => ((if b then 1 else 0) =? z)%Z
  | _ => false
  end.
Definition is_text (j : json) (s : string) : bool := match j with JStr t => String.eqb t s | _ => false end.

Section durable_continuation.
Context (py_str : json -> string).
Context (uuid : nat -> string) (wall : nat -> Q) (canonical_dumps : json -> string) (sha256 : string -> string).

Definition session_resource (sid : string) : string := ("session:" ++ sid)%string.

(** [_acquire_session] *)
Definition acquire_session (sid : string) : CW Lease :=
  w ← get;
  l ← on_db (acquire_lease wall (session_resource sid) (cs_owner_id (cs_self w)) (cs_lease_ttl_seconds (cs_self w)));
  match l with
  | Some lease => mret lease
  | None => raise (protocol_error 409)
  end.

(** [_release_session] *)
Definition release_session (lease : Lease) : CW unit :=
  w ← get;
  _ ← on_db (release_lease (lease_resource lease) (cs_owner_id (cs_self w)) (fencing_token lease));
  mret tt.

(** [_load_or_create] *)
Definition load_or_create (request : ContinuationRequest) (sid : string) : CW StoredSession :=
  o ← on_db (load_session sid);
  match o with
  | Some s => mret s
  | None =>
      ensure (bool_decide (nonempty (cr_parent_checkpoint_digest request) = None)) 400 ;;
      created ← on_db (create_session wall sid (cr_protocol_version request) empty_payload);
      match created with
      | Some s => mret s
      | None =>
          o2 ← on_db (load_session sid);
          match o2 with Some s => mret s | None => raise (protocol_error 503) end
      end
  end.

(** [_checkpoint]: a stored record that misses a field raises. *)
Definition stored_checkpoint (p : odict string json) : CW (option Checkpoint) :=
  let value := pget "latest_checkpoint" p in
  if jtruthy value then
    match checkpoint_from_dict py_str value with
    | Some c => mret (Some c)
    | None => raise (KeyError "checkpoint")
    end
  else mret None.

(** [_save] *)
Definition save (s : StoredSession) (p : odict string json) : CW StoredSession :=
  o ← on_db (save_session wall (session_id s) (protocol_version s) (JObj p) (revision s));
  match o with
  | Some s' => mret s'
  | None => raise (protocol_error 409)
  end.

Definition clear_active (p : odict string json) : odict string json :=
  od_set "active_epoch" JNull (od_set "active_turn_id" JNull p).

(** The guards of [begin_turn] on the latest checkpoint. *)
Definition check_parent (request : ContinuationRequest) (p : odict string json) (c : option Checkpoint) : CW unit :=
  match c with
  | None => mret tt
  | Some c =>
      ensure (jtruthy (default (JBool false) (od_get "latest_checkpoint_acknowledged" p))) 409 ;;
      ensure (bool_decide (cr_parent_checkpoint_digest request = Some (gateway_digest c))) 409
  end.

(** The rest of [begin_turn] once no turn is active. *)
Definition start_turn (request : ContinuationRequest) (sid : string) (lease : Lease) (s : StoredSession) (p : odict string json)
    : CW ContinuationTurn :=
  c ← stored_checkpoint p;
  check_parent request p c ;;
  tid ← new_turn_id uuid;
  epoch ← match od_get "next_epoch" p with
    | Some j => match as_int j with Some z => mret z | None => raise (ValueError "next_epoch") end
    | None => raise (KeyError "next_epoch")
    end;
  let turn := {| ct_session_id := sid; ct_turn_id := tid; ct_epoch := epoch;
                 ct_parent_checkpoint_digest := gateway_digest <$> c;
                 ct_client_state_digest := cr_state_digest request; ct_protocol_version := cr_protocol_version request |} in
  _ ← save s (od_set "active_epoch" (JInt epoch) (od_set "active_turn_id" (JStr tid) p));
  modify (fun w => with_turn_leases (od_set tid lease (turn_leases (cs_self w))) w) ;;
  mret turn.

(** The body of the [try] of [begin_turn].  [None] is the refused concurrent
    begin, which keeps the lease it shares with the live turn. *)
Definition begin_body (request : ContinuationRequest) (sid : string) (lease : Lease) : CW (option ContinuationTurn) :=
  s ← load_or_create request sid;
  ensure (String.eqb (protocol_version s) (cr_protocol_version request)) 409 ;;
  p ← payload_of s;
  let active := pget "active_turn_id" p in
  if jtruthy active then
    w ← get;
    if existsb (fun kv => is_text active kv.1) (turn_leases (cs_self w)) then mret None
    else
      s1 ← save s (clear_active p);
      p1 ← payload_of s1;
      t ← start_turn request sid lease s1 p1;
      mret (Some t)
  else t ← start_turn request sid lease s p; mret (Some t).

(** The [finally] of [begin_turn]: the lease is released unless retained. *)
Definition release_unless_retained (lease : Lease) (body : CW (option ContinuationTurn)) : CW ContinuationTurn := fun w n =>
  match body w n with
  | (Ok (Some t), w1, n1) => (Ok t, w1, n1)
  | (Ok None, w1, n1) => (Raise (protocol_error 409), w1, n1)
  | (Raise e, w1, n1) =>
      match release_session lease w1 n1 with
      | (Ok _, w2, n2) => (Raise e, w2, n2)
      | (Raise e2, w2, n2) => (Raise e2, w2, n2)
      end
  end.

Definition durable_begin_turn (request : ContinuationRequest) : CW ContinuationTurn :=
  validate_request request ;;
  sid ← match nonempty (cr_session_id request) with Some s => mret s | None => new_session_id uuid end;
  lease ← acquire_session sid;
  release_unless_retained lease (begin_body request sid lease).

(** [_active_session] *)
Definition durable_active_session (turn : ContinuationTurn) : CW (StoredSession * odict string json) :=
  o ← on_db (load_session (ct_session_id turn));
  match o with
  | None => raise (protocol_error 409)
  | Some s =>
      ensure (String.eqb (protocol_version s) (ct_protocol_version turn)) 409 ;;
      p ← payload_of s;
      ensure (is_text (pget "active_turn_id" p) (ct_turn_id turn) && is_epoch (pget "active_epoch" p) (ct_epoch turn)) 409 ;;
      mret (s, p)
  end.

(** The lease of a turn this process began, and its release. *)
Definition turn_lease (turn : ContinuationTurn) : CW Lease :=
  w ← get;
  match od_get (ct_turn_id turn) (turn_leases (cs_self w)) with
  | Some l => mret l
  | None => raise (protocol_error 409)
  end.
Definition drop_turn (turn : ContinuationTurn) (lease : Lease) : CW unit :=
  modify (fun w => with_turn_leases (od_pop (ct_turn_id turn) (turn_leases (cs_self w))) w) ;;
  release_session lease.

Definition completed_payload (turn : ContinuationTurn) (c : Checkpoint) (p : odict string json) : odict string json :=
  od_set "latest_checkpoint_acknowledged" (JBool false)
    (od_set "latest_checkpoint" (checkpoint_to_dict c)
      (od_set "next_epoch" (JInt (ct_epoch turn + 1)) (clear_active p))).

Definition durable_complete_turn (turn : ContinuationTurn) (request : NormalizedRequest) (response : NormalizedResponse)
    (selected_endpoint : string) : CW ContinuationEvent :=
  lease ← turn_lease turn;
  finally (
    sp ← durable_active_session turn;
    now ← read_clock wall;
    let c := make_checkpoint canonical_dumps sha256 turn request response selected_endpoint now in
    _ ← save sp.1 (completed_payload turn c sp.2);
    make_event uuid wall turn_completed turn (Some c) true None)
  (drop_turn turn lease).

Definition durable_acknowledge (sid turn_id : string) (epoch : Z) (checkpoint_digest : string) : CW ContinuationEvent :=
  validate_identifier sid ;; validate_identifier turn_id ;; validate_digest checkpoint_digest ;;
  lease ← acquire_session sid;
  finally (
    o ← on_db (load_session sid);
    match o with
    | None => raise (protocol_error 404)
    | Some s =>
        p ← payload_of s;
        oc ← stored_checkpoint p;
        match oc with
        | None => raise (protocol_error 404)
        | Some c =>
            ensure (acknowledges turn_id epoch checkpoint_digest c) 409 ;;
            ensure (negb (jtruthy (default (JBool false) (od_get "latest_checkpoint_acknowledged" p)))) 409 ;;
            _ ← save s (od_set "latest_checkpoint_acknowledged" (JBool true) p);
            let turn := {| ct_session_id := sid; ct_turn_id := turn_id; ct_epoch := epoch;
                           ct_parent_checkpoint_digest := ck_parent_checkpoint_digest c;
                           ct_client_state_digest := ck_client_state_digest c; ct_protocol_version := protocol_version s |} in
            make_event uuid wall checkpoint_acknowledged turn (Some c) false None
        end
    end)
  (release_session lease).

Definition durable_interrupt_turn (turn : ContinuationTurn) (detail : string) : CW ContinuationEvent :=
  lease ← turn_lease turn;
  finally (
    sp ← durable_active_session turn;
    _ ← save sp.1 (clear_active sp.2);
    make_event uuid wall turn_interrupted turn None false (Some detail))
  (drop_turn turn lease).
End durable_continuation.
