(* ===== verification/ContinuationProps.v ===== *)
(** * Properties of the continuation protocol

    The abstract life cycle of a session, the chain of checkpoints the in-memory
    store builds, and the refinement of the same life cycle by the durable store. *)

From stdpp Require Import base tactics list gmap strings relations.
From Stdlib Require Import QArith Ascii.
From S2P Require Import Prelude Models PyText Utf8 Json IR SqliteStore Continuation ContinuationSqlite.

(** ** The abstract session *)

Record ACP : Type := {
  a_next : Z;
  a_active : option (string * Z);
  a_latest : option Checkpoint;
  a_acked : bool;
}.
Definition acp_init : ACP := {| a_next := 0; a_active := None; a_latest := None; a_acked := true |}.

(** A turn starts at the next epoch once the latest checkpoint is acknowledged;
    only its completion advances the epoch; an interruption gives the epoch back. *)
Inductive acp_step : ACP -> ACP -> Prop :=
| AcpStart a tid : a_active a = None -> (a_latest a = None \/ a_acked a = true) ->
    acp_step a {| a_next := a_next a; a_active := Some (tid, a_next a); a_latest := a_latest a; a_acked := a_acked a |}
| AcpComplete a c : a_active a = Some (ck_turn_id c, ck_epoch c) ->
    acp_step a {| a_next := ck_epoch c + 1; a_active := None; a_latest := Some c; a_acked := false |}
| AcpAcknowledge a c : a_latest a = Some c -> a_acked a = false ->
    acp_step a {| a_next := a_next a; a_active := a_active a; a_latest := a_latest a; a_acked := true |}
| AcpInterrupt a : a_active a <> None ->
    acp_step a {| a_next := a_next a; a_active := None; a_latest := a_latest a; a_acked := a_acked a |}.

(** What every run of the machine keeps. *)
Definition acp_wf (a : ACP) : Prop :=
  (a_next a = match a_latest a with None => 0 | Some c => ck_epoch c + 1 end)%Z /\
  (0 <= a_next a)%Z /\
  match a_active a with Some (_, e) => e = a_next a /\ (a_latest a = None \/ a_acked a = true) | None => True end.

Lemma acp_wf_init : acp_wf acp_init.
Proof. by split_and!. Qed.
Lemma acp_wf_step a a' : acp_wf a -> acp_step a a' -> acp_wf a'.
Proof.
  intros Hwf Hs. revert Hwf. destruct Hs; intros (H1 & H2 & H3); unfold acp_wf; cbn.
  - split_and!; try done. 
  - rewrite H in H3. destruct H3 as [H3 _]. split_and!; try done. lia.
  - split_and!; try done. destruct (a_active a) as [[? ?]|]; [|done]. split; [by destruct H3 | by right].
  - by split_and!.
Qed.
(** An epoch is never given to two completed turns: epochs only grow. *)
Lemma acp_next_mono a a' : acp_wf a -> acp_step a a' -> (a_next a <= a_next a')%Z.
Proof. intros Hwf Hs. revert Hwf. destruct Hs; intros (H1 & H2 & H3); cbn; try lia. rewrite H in H3. destruct H3 as [H3 _]. lia. Qed.

(** ** Serialised checkpoints *)

Lemma checkpoint_dict_roundtrip py_str c : checkpoint_from_dict py_str (checkpoint_to_dict c) = Some c.
Proof. destruct c as [? ? ? ? [p|] ? ? ? ? ?]; reflexivity. Qed.

(** ** The in-memory store *)

Abbreviation Sessions := (gmap string Session).
Abbreviation CS := (M exn Sessions).

Section memory.
Context (uuid : nat -> string) (wall : nat -> Q) (canonical_dumps : json -> string) (sha256 : string -> string).
Context (uuid_fresh : forall i j, uuid i = uuid j -> i = j).

Definition acp_of (s : Session) : ACP :=
  {| a_next := next_epoch s;
     a_active := match active_turn_id s, active_epoch s with Some t, Some e => Some (t, e) | _, _ => None end;
     a_latest := latest_checkpoint s; a_acked := latest_checkpoint_acknowledged s |}.

(** The checkpoints a session's event log announces, oldest first. *)
Definition completed (es : list ContinuationEvent) : list Checkpoint :=
  omap (fun e => match ce_type e with turn_completed => ce_checkpoint e | _ => None end) es.

(** A chain: epochs count from [from], each checkpoint names the one before. *)
Fixpoint chain (from : Z) (parent : option string) (cs : list Checkpoint) : Prop :=
  match cs with
  | [] => True
  | c :: cs' => ck_epoch c = from /\ ck_parent_checkpoint_digest c = parent /\ chain (from + 1) (Some (gateway_digest c)) cs'
  end.

Lemma chain_snoc from parent cs c : chain from parent cs ->
  ck_epoch c = (from + Z.of_nat (length cs))%Z ->
  ck_parent_checkpoint_digest c = match last cs with Some l => Some (gateway_digest l) | None => parent end ->
  chain from parent (cs ++ [c]).
Proof.
  revert from parent. induction cs as [|d cs IH]; intros from parent; cbn.
  - intros _ He Hp. split_and!; [lia | done | done].
  - intros (H1 & H2 & H3) He Hp. split_and!; [done..|]. apply IH; [done | lia|].
    rewrite Hp. destruct cs as [|d' cs]; [done|]. change (last (d :: d' :: cs)) with (last (d' :: cs)).
    destruct (last (d' :: cs)) eqn:E; [done|]. by apply last_None in E.
Qed.

Lemma chain_last from parent cs : chain from parent cs ->
  match last cs with None => cs = [] | Some c => ck_epoch c = from + Z.of_nat (length cs) - 1 end%Z.
Proof.
  revert from parent. induction cs as [|c cs IH]; intros f p; [done|]. intros (Hc & _ & Hcs). destruct cs as [|c2 cs]; [cbn; lia|].
  specialize (IH _ _ Hcs). change (last (c :: c2 :: cs)) with (last (c2 :: cs)). destruct (last (c2 :: cs)); [cbn [length] in *; lia | done].
Qed.

(** One session and the turns handed out for it. *)
Definition session_ok (sid : string) (issued : list ContinuationTurn) (n : nat) (s : Session) : Prop :=
  chain 0 None (completed (events s)) /\ last (completed (events s)) = latest_checkpoint s /\
  next_epoch s = Z.of_nat (length (completed (events s))) /\
  match active_turn_id s with
  | None => active_epoch s = None
  | Some t =>
      active_epoch s = Some (next_epoch s) /\ (exists k, (k < n)%nat /\ t = ("acp_turn_" ++ uuid k)%string) /\
      (latest_checkpoint s = None \/ latest_checkpoint_acknowledged s = true) /\
      (forall u, u ∈ issued -> ct_turn_id u = t -> ct_session_id u = sid ->
         ct_parent_checkpoint_digest u = gateway_digest <$> latest_checkpoint s)
  end.

Definition store_ok (issued : list ContinuationTurn) (n : nat) (m : Sessions) : Prop :=
  (forall u, u ∈ issued -> exists k, (k < n)%nat /\ ct_turn_id u = ("acp_turn_" ++ uuid k)%string) /\
  forall sid s, m !! sid = Some s -> session_ok sid issued n s.

(** Client calls; a turn is completed or interrupted only by its holder. *)
Inductive acp_call : Type :=
| Begin (r : ContinuationRequest)
| Complete (t : ContinuationTurn) (q : NormalizedRequest) (r : NormalizedResponse) (endpoint : string)
| Acknowledge (sid tid : string) (epoch : Z) (digest : string)
| Interrupt (t : ContinuationTurn) (detail : string).

Definition run_call (c : acp_call) : CS (option ContinuationTurn) :=
  match c with
  | Begin r => t ← begin_turn uuid wall r; mret (Some t)
  | Complete t q r ep => _ ← complete_turn uuid wall canonical_dumps sha256 t q r ep; mret None
  | Acknowledge sid tid ep d => _ ← acknowledge uuid wall sid tid ep d; mret None
  | Interrupt t d => _ ← interrupt_turn uuid wall t d; mret None
  end.
Definition holds (issued : list ContinuationTurn) (c : acp_call) : Prop :=
  match c with Complete t _ _ _ | Interrupt t _ => t ∈ issued | _ => True end.

(** Stores reached by any sequence of calls, failing ones included, with the
    turns handed out so far. *)
Inductive reachable : list ContinuationTurn -> Sessions -> nat -> Prop :=
| reach_init n : reachable [] ∅ n
| reach_call issued m n c r m' n' : reachable issued m n -> holds issued c -> run_call c m n = (r, m', n') ->
    reachable (match r with Ok (Some t) => t :: issued | _ => issued end) m' n'.

(** *** Preservation *)

Lemma session_ok_more sid issued n n' s : (n <= n')%nat -> session_ok sid issued n s -> session_ok sid issued n' s.
Proof.
  intros Hn (H1 & H2 & H3 & H4). split_and!; try done. destruct (active_turn_id s); [|done].
  destruct H4 as (? & (k & ? & ?) & ? & ?). split_and!; try done. exists k. split; [lia | done].
Qed.
Lemma store_ok_more issued n n' m : (n <= n')%nat -> store_ok issued n m -> store_ok issued n' m.
Proof.
  intros Hn [H1 H2]. split.
  - intros u (k & ? & ?)%H1. exists k. split; [lia | done].
  - intros sid s Hs. by eapply session_ok_more, H2.
Qed.
Lemma store_ok_insert issued n m sid s : store_ok issued n m -> session_ok sid issued n s -> store_ok issued n (<[sid := s]> m).
Proof.
  intros [H1 H2] Hs. split; [done|]. intros sid' s' [[<- <-]|[_ ?]]%lookup_insert_Some; [done | by apply H2].
Qed.

(** Events that announce no checkpoint leave the chain alone. *)
Lemma completed_snoc es e : completed (es ++ [e]) =
  completed es ++ match ce_type e, ce_checkpoint e with turn_completed, Some c => [c] | _, _ => [] end.
Proof.
  unfold completed. rewrite omap_app. f_equal. cbn. by destruct (ce_type e), (ce_checkpoint e).
Qed.

Lemma ensure_inv {S} (b : bool) code (s : S) n u s' n' : ensure b code s n = (Ok u, s', n') -> b = true /\ s' = s /\ n' = n.
Proof. destruct b; [by intros [= <- <- <-] | done]. Qed.
Lemma ensure_keeps {S} (b : bool) code (s : S) n r s' n' : ensure b code s n = (r, s', n') -> s' = s /\ n' = n.
Proof. destruct b; by intros [= <- <- <-]. Qed.

Lemma make_event_runs {S} ty t c ack d (s : S) n : exists e, make_event uuid wall ty t c ack d s n = (Ok e, s, Datatypes.S (Datatypes.S n)) /\
  ce_type e = ty /\ ce_checkpoint e = c /\ ce_turn_id e = ct_turn_id t /\ ce_epoch e = ct_epoch t.
Proof. eexists. split; [reflexivity|]. done. Qed.

Lemma validate_request_keeps {S} r (s : S) n x s' n' : validate_request r s n = (x, s', n') -> s' = s /\ n' = n.
Proof.
  unfold validate_request, validate_identifier, validate_digest, ensure.
  destruct (String.eqb _ _); cbn; [|by intros [= <- <- <-]].
  destruct (nonempty (cr_session_id r)) as [i|]; [destruct (is_identifier i)|]; cbn; try (by intros [= <- <- <-]).
  all: destruct (is_digest _); cbn; try (by intros [= <- <- <-]).
  all: destruct (nonempty (cr_parent_checkpoint_digest r)) as [d|]; [destruct (is_digest d)|]; by intros [= <- <- <-].
Qed.

Lemma app_prefix_inj p a b : (p ++ a)%string = (p ++ b)%string -> a = b.
Proof. induction p as [|c p IH]; [done|]. rewrite !app_string_cons. intros [= H]. by apply IH. Qed.

(** The admission of a turn into a session that is ready for it. *)
Lemma start_ok sid issued n m s req : store_ok issued n m -> session_ok sid issued n s ->
  active_turn_id s = None -> (latest_checkpoint s = None \/ latest_checkpoint_acknowledged s = true) ->
  let tid := ("acp_turn_" ++ uuid n)%string in
  let turn := {| ct_session_id := sid; ct_turn_id := tid; ct_epoch := next_epoch s;
                 ct_parent_checkpoint_digest := gateway_digest <$> latest_checkpoint s;
                 ct_client_state_digest := cr_state_digest req; ct_protocol_version := cr_protocol_version req |} in
  forall e, ce_type e = turn_started ->
  store_ok (turn :: issued) (S n) (<[sid := with_event e (with_active (Some tid) (Some (next_epoch s)) s)]> m).
Proof.
  intros [Hids Hall] Hs Ha Hready tid turn e He. pose proof (session_ok_more sid issued n (S n) s ltac:(lia) Hs) as (H1 & H2 & H3 & _).
  assert (forall u, u ∈ issued -> ct_turn_id u <> tid) as Hnew.
  { intros u (k & Hk & Eu)%Hids E. rewrite E in Eu. apply app_prefix_inj, uuid_fresh in Eu. lia. }
  split.
  - intros u [-> | Hu]%elem_of_cons; [exists n; by split; [lia|] |]. destruct (Hids u Hu) as (k & ? & ?). exists k. split; [lia | done].
  - intros sid' s' [[<- <-]|[Hne Hs']]%lookup_insert_Some.
    + unfold session_ok. cbn [events with_event with_active latest_checkpoint next_epoch active_turn_id active_epoch latest_checkpoint_acknowledged].
      rewrite completed_snoc, He, app_nil_r. split_and!; try done; [exists n; by split; [lia|]|].
      intros u [-> | Hu]%elem_of_cons; [done|]. intros E. by destruct (Hnew u Hu).
    + destruct (session_ok_more sid' issued n (S n) s' ltac:(lia) (Hall sid' s' Hs')) as (G1 & G2 & G3 & G4). split_and!; try done.
      destruct (active_turn_id s') as [t|] eqn:Et; [|done]. destruct G4 as (G4 & G5 & G6 & G7). split_and!; try done.
      intros u [-> | Hu]%elem_of_cons; [|by apply G7]. cbn. intros _ E. by destruct Hne.
Qed.

Ltac run_in H := unfold mbind, M_bind, raise, mret, M_ret, modify, get, gets in H; cbn in H.

Lemma bind_case {E S A B} (m : M E S A) (k : A -> M E S B) s n r s' n' : mbind k m s n = (r, s', n') ->
  (exists a s1 n1, m s n = (Ok a, s1, n1) /\ k a s1 n1 = (r, s', n')) \/ (exists e, m s n = (Raise e, s', n') /\ r = Raise e).
Proof. unfold mbind, M_bind. destruct (m s n) as [[[a|e] s1] n1]; [left; eauto 10 | intros [= <- <- <-]; right; eauto]. Qed.

Lemma alter_at {A} (f : A -> A) (m : gmap string A) k x : m !! k = Some x -> alter f k m = <[k := f x]> m.
Proof. intros H. apply map_eq. intros j. destruct (decide (j = k)) as [->|]; [by rewrite lookup_alter_eq, lookup_insert_eq, H | by rewrite lookup_alter_ne, lookup_insert_ne]. Qed.

Lemma update_runs sid f (m : Sessions) n : update_session sid f m n = (Ok tt, alter f sid m, n).
Proof. reflexivity. Qed.

Lemma new_session_ok sid version issued n : session_ok sid issued n (new_session sid version).
Proof. by split_and!. Qed.

(** The last lines of [begin_turn]. *)
Lemma begin_tail sid issued n m s req : store_ok issued n m -> m !! sid = Some s -> active_turn_id s = None ->
  (latest_checkpoint s = None \/ latest_checkpoint_acknowledged s = true) ->
  forall r m' n', (tid ← new_turn_id uuid;
    let turn := {| ct_session_id := sid; ct_turn_id := tid; ct_epoch := next_epoch s;
                   ct_parent_checkpoint_digest := gateway_digest <$> latest_checkpoint s;
                   ct_client_state_digest := cr_state_digest req; ct_protocol_version := cr_protocol_version req |} in
    update_session sid (with_active (Some tid) (Some (next_epoch s))) ;;
    e ← make_event uuid wall turn_started turn None false None;
    update_session sid (with_event e) ;; mret turn) m n = (r, m', n') ->
  exists t, r = Ok t /\ store_ok (t :: issued) n' m' /\ (n <= n')%nat.
Proof.
  intros Hok Hs Ha Hready r m' n' H.
  match type of H with (_ ≫= ?k) _ _ = _ => rewrite (bind_ok (new_turn_id uuid) k m n ("acp_turn_" ++ uuid n)%string m (S n) eq_refl) in H end.
  cbv beta zeta in H. rewrite (bind_ok _ _ _ _ _ _ _ (update_runs _ _ _ _)) in H. cbv beta in H.
  edestruct @make_event_runs as (e & He & Hty & _). rewrite (bind_ok _ _ _ _ _ _ _ He) in H. cbv beta in H.
  rewrite (bind_ok _ _ _ _ _ _ _ (update_runs _ _ _ _)) in H. injection H as <- <- <-.
  eexists. split; [reflexivity|]. split; [|lia]. eapply store_ok_more; [|erewrite (alter_at _ m) by exact Hs; erewrite alter_at by (apply lookup_insert_eq); rewrite insert_insert_eq; eapply start_ok; eauto]; [lia|].
  by apply Hok.
Qed.

Lemma nonempty_active sid issued n s : session_ok sid issued n s -> nonempty (active_turn_id s) = None -> active_turn_id s = None.
Proof.
  intros (_ & _ & _ & H) He. destruct (active_turn_id s) as [t|]; [|done]. destruct H as (_ & (k & _ & ->) & _). done.
Qed.

Lemma begin_ok issued n m req r m' n' : store_ok issued n m -> begin_turn uuid wall req m n = (r, m', n') ->
  store_ok (match r with Ok t => t :: issued | Raise _ => issued end) n' m' /\ (n <= n')%nat.
Proof.
  intros Hok H. unfold begin_turn in H.
  apply bind_case in H as [([] & s1 & n1 & Hv & H)|(e & Hv & ->)]; apply validate_request_keeps in Hv as [-> ->]; [|done].
  assert (exists sid n1, (n <= n1)%nat /\ match nonempty (cr_session_id req) with Some s => mret s | None => new_session_id uuid end m n
    = (@Ok exn string sid, m, n1)) as (sid & n1 & Hn1 & Hsid).
  { destruct (nonempty (cr_session_id req)); [by eexists _, n | eexists _, (S n); split; [lia | reflexivity]]. }
  rewrite (bind_ok _ _ _ _ _ _ _ Hsid) in H. cbv beta in H. apply (store_ok_more _ _ n1) in Hok; [|done].
  rewrite (bind_ok get _ _ _ _ _ _ eq_refl) in H. cbv beta in H.
  apply bind_case in H as [(s & m1 & n2 & Hg & H)|(e & Hg & ->)].
  2: { destruct (m !! sid); unfold ensure in Hg; [destruct (String.eqb _ _) | destruct (bool_decide _)]; run_in Hg;
       by simplify_eq. }
  assert (n2 = n1 /\ m1 !! sid = Some s /\ store_ok issued n1 m1) as (-> & Hs & Hok1).
  { destruct (m !! sid) as [s0|] eqn:Em; unfold ensure in Hg.
    - destruct (String.eqb _ _); run_in Hg; [|done]. by simplify_eq.
    - destruct (bool_decide _); run_in Hg; [|done]. injection Hg as <- <- <-. split_and!; [done | apply lookup_insert_eq|].
      apply store_ok_insert; [done | apply new_session_ok]. }
  clear Hg Hok Hsid m. apply bind_case in H as [([] & m2 & n2 & Ha & H)|(e & [-> ->]%ensure_keeps & ->)]; [|done].
  apply ensure_inv in Ha as (Ha%bool_decide_eq_true & -> & ->). eapply nonempty_active in Ha; [|by apply Hok1].
  apply bind_case in H as [([] & m2 & n2 & Hl & H)|(e & Hl & ->)].
  2: { destruct (latest_checkpoint s); [|done].
       apply bind_case in Hl as [([] & m2 & n2 & (_ & -> & ->)%ensure_inv & [-> ->]%ensure_keeps)|(e' & [-> ->]%ensure_keeps & _)]; done. }
  assert ((latest_checkpoint s = None \/ latest_checkpoint_acknowledged s = true) /\ m2 = m1 /\ n2 = n1) as (Hready & -> & ->).
  { destruct (latest_checkpoint s); [|injection Hl as <- <-; by auto].
    apply bind_inv in Hl as ([] & m3 & n3 & (? & -> & ->)%ensure_inv & (_ & -> & ->)%ensure_inv). by auto. }
  eapply begin_tail in H as (t & -> & ? & ?); eauto. split; [done | lia].
Qed.

Lemma active_session_inv t (m : Sessions) n r m' n' : active_session t m n = (r, m', n') ->
  m' = m /\ n' = n /\ forall s, r = Ok s ->
    m !! ct_session_id t = Some s /\ active_turn_id s = Some (ct_turn_id t) /\ active_epoch s = Some (ct_epoch t).
Proof.
  intros H. unfold active_session in H. rewrite (bind_ok get _ _ _ _ _ _ eq_refl) in H. cbv beta in H.
  destruct (m !! ct_session_id t) as [s|]; [|run_in H; by simplify_eq].
  apply bind_case in H as [([] & m2 & n2 & (Hb & -> & ->)%ensure_inv & H)|(e & [-> ->]%ensure_keeps & ->)]; [|done].
  injection H as <- <- <-. split_and!; try done. intros s' [= <-].
  apply andb_true_iff in Hb as [?%bool_decide_eq_true ?%bool_decide_eq_true]. done.
Qed.

(** Recording an event on a session that [f] just changed. *)
Lemma record_runs sid f (m : Sessions) n s ty t c ack d : m !! sid = Some s ->
  exists e, ce_type e = ty /\ ce_checkpoint e = c /\
    (update_session sid f ;; e ← make_event uuid wall ty t c ack d; update_session sid (with_event e) ;; mret e) m n
    = (Ok e, <[sid := with_event e (f s)]> m, S (S n)).
Proof.
  intros Hs. edestruct (@make_event_runs Sessions ty t c ack d) as (e & He & Hty & Hc & _). exists e. split_and!; [done..|].
  rewrite (bind_ok _ _ _ _ _ _ _ (update_runs _ _ _ _)). cbv beta. rewrite (bind_ok _ _ _ _ _ _ _ He). cbv beta.
  rewrite (bind_ok _ _ _ _ _ _ _ (update_runs _ _ _ _)). cbv beta.
  rewrite (alter_at _ m) with (x := s) by done. erewrite alter_at by (apply lookup_insert_eq). by rewrite insert_insert_eq.
Qed.

Lemma complete_ok issued n m t q r ep x m' n' : store_ok issued n m -> t ∈ issued ->
  complete_turn uuid wall canonical_dumps sha256 t q r ep m n = (x, m', n') -> store_ok issued n' m' /\ (n <= n')%nat.
Proof.
  intros Hok Ht H. unfold complete_turn in H.
  apply bind_case in H as [(s & m1 & n1 & Ha & H)|(e & (-> & -> & _)%active_session_inv & ->)]; [|done].
  apply active_session_inv in Ha as (-> & -> & Hs). destruct (Hs s eq_refl) as (Hm & Hact & Hep).
  rewrite (bind_ok (read_clock wall) _ _ _ _ _ _ eq_refl) in H. cbv beta zeta in H.
  set (c := make_checkpoint _ _ _ _ _ _ _) in H.
  edestruct (record_runs (ct_session_id t) (with_checkpoint c (ct_epoch t + 1))) as (e & Hty & Hc & Hrun); [exact Hm|].
  rewrite Hrun in H. injection H as <- <- <-. split; [|lia]. apply store_ok_insert; [eapply store_ok_more; [|exact Hok]; lia|].
  destruct Hok as [_ Hall]. destruct (Hall _ _ Hm) as (H1 & H2 & H3 & H4). rewrite Hact in H4. destruct H4 as (H4 & _ & _ & H7).
  unfold session_ok. cbn [events with_event with_checkpoint latest_checkpoint next_epoch active_turn_id active_epoch].
  rewrite completed_snoc, Hty, Hc. assert (ct_epoch t = next_epoch s) as Eep by congruence. split_and!; try done.
  - apply chain_snoc; [done | cbn; rewrite Eep; lia|]. cbn. rewrite (H7 t Ht eq_refl eq_refl), H2. by destruct (latest_checkpoint s).
  - by rewrite last_snoc.
  - rewrite length_app. cbn. lia.
Qed.

Lemma interrupt_ok issued n m t d x m' n' : store_ok issued n m ->
  interrupt_turn uuid wall t d m n = (x, m', n') -> store_ok issued n' m' /\ (n <= n')%nat.
Proof.
  intros Hok H. unfold interrupt_turn in H.
  apply bind_case in H as [(s & m1 & n1 & Ha & H)|(e & (-> & -> & _)%active_session_inv & ->)]; [|done].
  apply active_session_inv in Ha as (-> & -> & Hs). destruct (Hs s eq_refl) as (Hm & _).
  edestruct (record_runs (ct_session_id t) (with_active None None)) as (e & Hty & Hc & Hrun); [exact Hm|].
  rewrite Hrun in H. injection H as <- <- <-. split; [|lia]. apply store_ok_insert; [eapply store_ok_more; [|exact Hok]; lia|].
  destruct Hok as [_ Hall]. destruct (Hall _ _ Hm) as (H1 & H2 & H3 & _).
  unfold session_ok. cbn [events with_event with_active latest_checkpoint next_epoch active_turn_id active_epoch].
  rewrite completed_snoc, Hty, app_nil_r. by split_and!.
Qed.

Lemma acknowledge_ok issued n m sid tid ep d x m' n' : store_ok issued n m ->
  acknowledge uuid wall sid tid ep d m n = (x, m', n') -> store_ok issued n' m' /\ (n <= n')%nat.
Proof.
  intros Hok H. unfold acknowledge in H.
  apply bind_case in H as [([] & m1 & n1 & (_ & -> & ->)%ensure_inv & H)|(e & [-> ->]%ensure_keeps & ->)]; [|done].
  apply bind_case in H as [([] & m1 & n1 & (_ & -> & ->)%ensure_inv & H)|(e & [-> ->]%ensure_keeps & ->)]; [|done].
  apply bind_case in H as [([] & m1 & n1 & (_ & -> & ->)%ensure_inv & H)|(e & [-> ->]%ensure_keeps & ->)]; [|done].
  rewrite (bind_ok get _ _ _ _ _ _ eq_refl) in H. cbv beta in H.
  destruct (m !! sid) as [s|] eqn:Hm; [|run_in H; by simplify_eq]. destruct (latest_checkpoint s) as [c|] eqn:El; [|run_in H; by simplify_eq].
  apply bind_case in H as [([] & m1 & n1 & (_ & -> & ->)%ensure_inv & H)|(e & [-> ->]%ensure_keeps & ->)]; [|done].
  apply bind_case in H as [([] & m1 & n1 & (_ & -> & ->)%ensure_inv & H)|(e & [-> ->]%ensure_keeps & ->)]; [|done].
  edestruct (record_runs sid with_acknowledged) as (e & Hty & Hc & Hrun); [exact Hm|].
  cbv zeta in H. rewrite Hrun in H. injection H as <- <- <-. split; [|lia].
  apply store_ok_insert; [eapply store_ok_more; [|exact Hok]; lia|].
  destruct Hok as [_ Hall]. destruct (session_ok_more sid issued n (S (S n)) s ltac:(lia) (Hall _ _ Hm)) as (H1 & H2 & H3 & H4).
  unfold session_ok. cbn [events with_event with_acknowledged latest_checkpoint next_epoch active_turn_id active_epoch latest_checkpoint_acknowledged].
  rewrite completed_snoc, Hty, app_nil_r. split_and!; try done. destruct (active_turn_id s); [|done].
  destruct H4 as (? & ? & _ & ?). split_and!; try done. by right.
Qed.

Lemma reachable_ok issued m n : reachable issued m n -> store_ok issued n m.
Proof.
  induction 1 as [n|issued m n c r m' n' _ IH Hh Hrun].
  { split; [by intros u ?%not_elem_of_nil | by intros sid s ?]. }
  destruct c as [rq|t q rs ep|sid tid ep d|t d]; cbn [run_call] in Hrun;
    apply bind_case in Hrun as [(y & m1 & n1 & H & Hr)|(e & H & ->)]; try (injection Hr as <- <- <-).
  - by apply begin_ok with (issued := issued) in H as [? _].
  - by apply begin_ok with (issued := issued) in H as [? _].
  - by eapply complete_ok in H as [? _].
  - by eapply complete_ok in H as [? _].
  - by eapply acknowledge_ok in H as [? _].
  - by eapply acknowledge_ok in H as [? _].
  - by eapply interrupt_ok in H as [? _].
  - by eapply interrupt_ok in H as [? _].
Qed.
End memory.

(** ** The durable store *)

Section durable.
Context (py_str : json -> string).
Context (uuid : nat -> string) (wall : nat -> Q) (canonical_dumps : json -> string) (sha256 : string -> string).

(** The abstract session a stored payload stands for. *)
Definition active_view (t e : json) : option (option (string * Z)) :=
  match t, e with
  | JNull, JNull => Some None
  | JStr t, JInt e => if truthy t then Some (Some (t, e)) else None
  | _, _ => None
  end.
Definition latest_view (j : json) : option (option Checkpoint) :=
  match j with JNull => Some None | JObj (_ :: _) => c ← checkpoint_from_dict py_str j; Some (Some c) | _ => None end.
Definition acp_of_payload (p : odict string json) : option ACP :=
  act ← active_view (pget "active_turn_id" p) (pget "active_epoch" p);
  lat ← latest_view (pget "latest_checkpoint" p);
  match od_get "next_epoch" p, od_get "latest_checkpoint_acknowledged" p with
  | Some (JInt z), Some (JBool b) => Some {| a_next := z; a_active := act; a_latest := lat; a_acked := b |}
  | _, _ => None
  end.
Definition acp_of_row (sid : string) (row : StoredSession) : option ACP :=
  if String.eqb (session_id row) sid
  then match session_payload row with JObj p => acp_of_payload p | _ => None end else None.
(** A session that does not exist yet is in the initial state. *)
Definition view_at (d : Database) (sid : string) : option ACP :=
  match durable_sessions d !! sid with None => Some acp_init | Some row => acp_of_row sid row end.

Definition db_ok (d : Database) : Prop := forall sid, exists a, view_at d sid = Some a /\ acp_wf a.
(** Every session moves along the life cycle. *)
Definition evolves (d d' : Database) : Prop :=
  forall sid a, view_at d sid = Some a -> exists a', view_at d' sid = Some a' /\ rtc acp_step a a'.

#[local] Instance evolves_preorder : PreOrder evolves.
Proof.
  split.
  - intros d sid a H. by exists a.
  - intros d1 d2 d3 H1 H2 sid a (a2 & Ha2 & S1)%H1. destruct (H2 sid a2 Ha2) as (a3 & ? & S2). exists a3.
    split; [done | by etransitivity].
Qed.
Lemma same_sessions_evolve d d' : durable_sessions d' = durable_sessions d -> evolves d d'.
Proof. intros E sid a H. exists a. split; [|done]. unfold view_at in *. by rewrite E. Qed.
Lemma evolves_ok d d' : db_ok d -> evolves d d' -> db_ok d'.
Proof.
  intros Hd He sid. destruct (Hd sid) as (a & Ha & Hwf). destruct (He sid a Ha) as (a' & Ha' & Hs). exists a'. split; [done|].
  clear -Hwf Hs. induction Hs as [|a1 a2 a3 H12 _ IH]; [done|]. apply IH. by eapply acp_wf_step.
Qed.

(** Updates of the payload, seen abstractly. *)
Lemma pget_set k k' v p : pget k (od_set k' v p) = if decide (k = k') then v else pget k p.
Proof. unfold pget. rewrite od_get_set_cases. by case_decide. Qed.
Ltac payload :=
  unfold acp_of_payload, completed_payload, clear_active; rewrite !pget_set, !od_get_set_cases;
  repeat match goal with |- context [decide (?a = ?b)] =>
    first [rewrite (decide_True (P := a = b)) by reflexivity | rewrite (decide_False (P := a = b)) by discriminate] end.

Lemma acp_of_payload_inv p a : acp_of_payload p = Some a ->
  active_view (pget "active_turn_id" p) (pget "active_epoch" p) = Some (a_active a) /\
  latest_view (pget "latest_checkpoint" p) = Some (a_latest a) /\
  od_get "next_epoch" p = Some (JInt (a_next a)) /\ od_get "latest_checkpoint_acknowledged" p = Some (JBool (a_acked a)).
Proof.
  unfold acp_of_payload. destruct (active_view _ _) as [act|]; [|done]. destruct (latest_view _) as [lat|]; [|done]. cbn.
  destruct (od_get "next_epoch" p) as [[]|]; try done. destruct (od_get "latest_checkpoint_acknowledged" p) as [[]|]; try done.
  by intros [= <-].
Qed.

Lemma payload_clear p a : acp_of_payload p = Some a -> acp_of_payload (clear_active p) =
  Some {| a_next := a_next a; a_active := None; a_latest := a_latest a; a_acked := a_acked a |}.
Proof. intros (_ & H2 & H3 & H4)%acp_of_payload_inv. payload. cbn [active_view mbind option_bind]. by rewrite H2, H3, H4. Qed.
Lemma payload_start p a t e : acp_of_payload p = Some a -> truthy t = true ->
  acp_of_payload (od_set "active_epoch" (JInt e) (od_set "active_turn_id" (JStr t) p)) =
  Some {| a_next := a_next a; a_active := Some (t, e); a_latest := a_latest a; a_acked := a_acked a |}.
Proof. intros (_ & H2 & H3 & H4)%acp_of_payload_inv Ht. payload. cbn [active_view]. rewrite Ht. cbn [mbind option_bind]. by rewrite H2, H3, H4. Qed.
Lemma payload_ack p a : acp_of_payload p = Some a ->
  acp_of_payload (od_set "latest_checkpoint_acknowledged" (JBool true) p) =
  Some {| a_next := a_next a; a_active := a_active a; a_latest := a_latest a; a_acked := true |}.
Proof. intros (H1 & H2 & H3 & _)%acp_of_payload_inv. payload. by rewrite H1, H2, H3. Qed.
Lemma latest_view_dict c : latest_view (checkpoint_to_dict c) = Some (Some c).
Proof.
  transitivity (c0 ← checkpoint_from_dict py_str (checkpoint_to_dict c); Some (Some c0)); [reflexivity|].
  by rewrite checkpoint_dict_roundtrip.
Qed.
Lemma payload_complete p a t c : acp_of_payload p = Some a -> acp_of_payload (completed_payload t c p) =
  Some {| a_next := ct_epoch t + 1; a_active := None; a_latest := Some c; a_acked := false |}.
Proof.
  intros _. payload. cbn [active_view mbind option_bind]. by rewrite latest_view_dict.
Qed.

(** A checkpoint in the payload is the abstract one. *)
Lemma stored_checkpoint_runs p a w n : acp_of_payload p = Some a -> stored_checkpoint py_str p w n = (Ok (a_latest a), w, n).
Proof.
  intros (_ & H2 & _)%acp_of_payload_inv. unfold stored_checkpoint. destruct (pget "latest_checkpoint" p) as [| | | | | |[|f fs]]; try done.
  - by injection H2 as <-.
  - unfold latest_view in H2. cbn [jtruthy]. destruct (checkpoint_from_dict py_str (JObj (f :: fs))); [|done].
    cbn in H2. injection H2 as <-. done.
Qed.

(** Saving a session just loaded succeeds. *)
Lemma save_runs w n s p : durable_sessions (cs_db w) !! session_id s = Some s ->
  exists s' w', save wall s p w n = (Ok s', w', S n) /\ session_id s' = session_id s /\ session_payload s' = JObj p /\
    cs_self w' = cs_self w /\ durable_sessions (cs_db w') = <[session_id s := s']> (durable_sessions (cs_db w)).
Proof.
  intros H. unfold save, on_db, save_session, zoom, transaction, mbind, M_bind, read_clock, get, gets, modify, mret, M_ret. cbn.
  rewrite H, Nat.eqb_refl. cbn. rewrite lookup_insert_eq. eexists _, _. by split_and!.
Qed.

Lemma evolves_save d d' sid s s' p p' a a' : durable_sessions d !! sid = Some s -> session_id s = sid -> session_payload s = JObj p ->
  acp_of_payload p = Some a -> durable_sessions d' = <[sid := s']> (durable_sessions d) -> session_id s' = sid ->
  session_payload s' = JObj p' -> acp_of_payload p' = Some a' -> rtc acp_step a a' -> evolves d d'.
Proof.
  intros H1 H2 H3 H4 H5 H6 H7 H8 Hs sid' b Hb. unfold view_at in *. rewrite H5.
  destruct (decide (sid' = sid)) as [->|Hne].
  - rewrite lookup_insert_eq. rewrite H1 in Hb. unfold acp_of_row in *. rewrite H2, H3, String.eqb_refl, H4 in Hb.
    injection Hb as <-. exists a'. by rewrite H6, H7, String.eqb_refl.
  - rewrite lookup_insert_ne by done. by exists b.
Qed.

(** Computations that only move sessions along the life cycle. *)
Definition safe {A} (m : CW A) : Prop := forall w n, db_ok (cs_db w) -> evolves (cs_db w) (cs_db (out_st (m w n))).

Lemma safe_ret {A} (a : A) : safe (mret a).
Proof. by intros w n _. Qed.
Lemma safe_raise {A} e : safe (raise e : CW A).
Proof. by intros w n _. Qed.
Lemma safe_ensure b code : safe (ensure b code).
Proof. destruct b; [apply safe_ret | apply safe_raise]. Qed.
Lemma safe_same {A} (m : CW A) : (forall w n, durable_sessions (cs_db (out_st (m w n))) = durable_sessions (cs_db w)) -> safe m.
Proof. intros H w n _. by apply same_sessions_evolve. Qed.
Lemma safe_bind {A B} (m : CW A) (k : A -> CW B) : safe m ->
  (forall w n a w1 n1, m w n = (Ok a, w1, n1) -> db_ok (cs_db w1) -> evolves (cs_db w1) (cs_db (out_st (k a w1 n1)))) ->
  safe (mbind k m).
Proof.
  intros Hm Hk w n Hok. specialize (Hm w n Hok). unfold mbind, M_bind. destruct (m w n) as [[[a|e] w1] n1] eqn:E; [|exact Hm].
  cbn in Hm. etransitivity; [exact Hm|]. eapply Hk; [exact E|]. by eapply evolves_ok.
Qed.
Lemma safe_seq {A B} (m : CW A) (k : A -> CW B) : safe m -> (forall a, safe (k a)) -> safe (mbind k m).
Proof. intros Hm Hk. apply safe_bind; [done|]. intros w n a w1 n1 _ Hok. by apply Hk. Qed.
Lemma safe_finally {A} (m : CW A) h : safe m -> safe h -> safe (finally m h).
Proof.
  intros Hm Hh w n Hok. specialize (Hm w n Hok). unfold finally. destruct (m w n) as [[r w1] n1]. cbn in Hm.
  specialize (Hh w1 n1 (evolves_ok _ _ Hok Hm)). destruct (h w1 n1) as [[[u|e] w2] n2]; cbn in *; by etransitivity.
Qed.
Lemma safe_clock clk : safe (read_clock clk).
Proof. by intros w n _. Qed.
Lemma safe_get : safe get.
Proof. by intros w n _. Qed.

Lemma lease_sessions res own ttl d n : durable_sessions (out_st (acquire_lease wall res own ttl d n)) = durable_sessions d.
Proof.
  unfold acquire_lease, acquire_lease_locked, transaction, mbind, M_bind, read_clock, get, modify, mret, M_ret. cbn.
  destruct (durable_leases d !! res) as [row|]; cbn; [|done]. destruct (String.eqb _ _); cbn; [done|]. by destruct (_ ⪯ _).
Qed.
Lemma release_sessions res own tok d n : durable_sessions (out_st (release_lease res own tok d n)) = durable_sessions d.
Proof. change (durable_sessions (delete_owned res own tok d) = durable_sessions d). unfold delete_owned. by destruct (owns res own tok d). Qed.

Lemma safe_on_db {A} (m : M exn Database A) : (forall d n, durable_sessions (out_st (m d n)) = durable_sessions d) -> safe (on_db m).
Proof.
  intros H. apply safe_same. intros w n. unfold on_db, zoom. specialize (H (cs_db w) n). by destruct (m (cs_db w) n) as [[r d] n1].
Qed.
Lemma safe_acquire sid : safe (acquire_session wall sid).
Proof.
  unfold acquire_session. apply safe_seq; [apply safe_get | intros w]. apply safe_seq; [apply safe_on_db, lease_sessions | intros [l|]].
  - apply safe_ret.
  - apply safe_raise.
Qed.
Lemma safe_release l : safe (release_session l).
Proof.
  unfold release_session. apply safe_seq; [apply safe_get | intros w]. apply safe_seq; [apply safe_on_db, release_sessions | intros; apply safe_ret].
Qed.
Lemma safe_make_event ty t c ack d : safe (make_event uuid wall ty t c ack d).
Proof. by intros w n _. Qed.
Lemma safe_new_turn : safe (new_turn_id uuid).
Proof. by intros w n _. Qed.

(** The row of [sid], as the process read it. *)
Definition current (w : ContinuationWorld) (sid : string) (s : StoredSession) (p : odict string json) (a : ACP) : Prop :=
  durable_sessions (cs_db w) !! sid = Some s /\ session_id s = sid /\ session_payload s = JObj p /\ acp_of_payload p = Some a /\ acp_wf a.

Lemma current_of w sid s : db_ok (cs_db w) -> durable_sessions (cs_db w) !! sid = Some s -> exists p a, current w sid s p a.
Proof.
  intros Hok Hs. destruct (Hok sid) as (a & Hv & Hwf). unfold view_at in Hv. rewrite Hs in Hv. unfold acp_of_row in Hv.
  destruct (String.eqb_spec (session_id s) sid); [|done]. destruct (session_payload s) as [| | | | | |p] eqn:Ep; try done.
  exists p, a. by split_and!.
Qed.

Lemma payload_of_runs w sid s p a n : current w sid s p a -> payload_of s w n = (Ok p, w, n).
Proof. intros (_ & _ & Hp & _). unfold payload_of. by rewrite Hp. Qed.

(** Saving a payload whose view is reached by the life cycle. *)
Lemma save_evolves w sid s p a p' a' n : current w sid s p a -> acp_of_payload p' = Some a' -> acp_wf a' -> rtc acp_step a a' ->
  exists s' w', save wall s p' w n = (Ok s', w', S n) /\ evolves (cs_db w) (cs_db w') /\ current w' sid s' p' a' /\ cs_self w' = cs_self w.
Proof.
  intros (Hs & Hid & Hp & Ha & Hwf) Ha' Hwf' Hst. destruct (save_runs w n s p') as (s' & w' & E & E1 & E2 & E3 & E4); [by rewrite Hid|].
  rewrite Hid in *. exists s', w'. split_and!; [done | by eapply (evolves_save (cs_db w) (cs_db w') sid s s' p p') | | done].
  split_and!; try done. by rewrite E4, lookup_insert_eq.
Qed.

Lemma check_parent_runs req p a c w n : acp_of_payload p = Some a -> exists r, check_parent req p c w n = (r, w, n) /\
  (r = Ok tt -> c = None \/ a_acked a = true).
Proof.
  intros (_ & _ & _ & H4)%acp_of_payload_inv. unfold check_parent. destruct c as [c|]; [|eexists; split; [reflexivity | by left]].
  rewrite H4. cbn [default from_option jtruthy]. unfold id. destruct (a_acked a).
  - rewrite (bind_ok (ensure true 409) _ _ _ _ _ _ eq_refl). unfold ensure.
    destruct (bool_decide _); eexists; (split; [reflexivity | by right]).
  - eexists. split; [reflexivity | done].
Qed.

Lemma start_turn_evolves req sid lease s p a w n : current w sid s p a -> a_active a = None ->
  evolves (cs_db w) (cs_db (out_st (start_turn py_str uuid wall req sid lease s p w n))).
Proof.
  intros Hc Ha. pose proof Hc as (_ & _ & _ & Hp & Hwf). unfold start_turn.
  rewrite (bind_ok _ _ _ _ _ _ _ (stored_checkpoint_runs p a w n Hp)). cbv beta.
  destruct (check_parent_runs req p a (a_latest a) w n Hp) as ([[]|e] & Hck & Hready).
  2: { by rewrite (bind_raise _ _ _ _ _ _ _ Hck). }
  rewrite (bind_ok _ _ _ _ _ _ _ Hck). cbv beta. specialize (Hready eq_refl).
  rewrite (bind_ok _ _ w n ("acp_turn_" ++ uuid n)%string w (S n) eq_refl). cbv beta.
  pose proof Hp as (_ & _ & -> & _)%acp_of_payload_inv. rewrite (bind_ok _ _ w (S n) (a_next a) w (S n) eq_refl). cbv beta zeta.
  pose proof (AcpStart a ("acp_turn_" ++ uuid n)%string Ha Hready) as Hst.
  edestruct (save_evolves w sid s p a) as (s' & w' & E & Hev & _);
    [exact Hc | apply (payload_start p a ("acp_turn_" ++ uuid n)%string (a_next a) Hp eq_refl) | by eapply acp_wf_step | by apply rtc_once|].
  rewrite (bind_ok _ _ _ _ _ _ _ E). cbv beta. exact Hev.
Qed.

Lemma load_or_create_spec req sid w n : db_ok (cs_db w) ->
  evolves (cs_db w) (cs_db (out_st (load_or_create wall req sid w n))) /\
  forall s w1 n1, load_or_create wall req sid w n = (Ok s, w1, n1) -> durable_sessions (cs_db w1) !! sid = Some s.
Proof.
  intros Hok. unfold load_or_create. rewrite (bind_ok _ _ w n (durable_sessions (cs_db w) !! sid) w n) by (by destruct w).
  cbv beta. destruct (durable_sessions (cs_db w) !! sid) as [s|] eqn:Es.
  { split; [done|]. intros s' w1 n1 [= <- <- <-]. done. }
  destruct (bool_decide (nonempty (cr_parent_checkpoint_digest req) = None)) eqn:Eb; cbn [ensure].
  2: { split; [done|]. intros s' w1 n1 H. discriminate H. }
  rewrite (bind_ok (mret tt) _ _ _ _ _ _ eq_refl). cbv beta.
  set (row := {| session_id := sid; protocol_version := cr_protocol_version req; session_payload := empty_payload; revision := 1;
                 session_created_at := wall n; session_updated_at := wall n |}).
  set (w1 := with_db (with_sessions (<[sid := row]> (durable_sessions (cs_db w))) (cs_db w)) w).
  assert (on_db (create_session wall sid (cr_protocol_version req) empty_payload) w n = (Ok (Some row), w1, S n)) as E.
  { unfold on_db, create_session, zoom, transaction, mbind, M_bind, read_clock, get, gets, modify, mret, M_ret. cbn.
    rewrite Es. cbn. by rewrite lookup_insert_eq. }
  rewrite (bind_ok _ _ _ _ _ _ _ E). cbv beta. split.
  - intros sid' b Hb. cbn. unfold view_at in *. cbn. destruct (decide (sid' = sid)) as [->|Hne].
    + rewrite lookup_insert_eq. rewrite Es in Hb. injection Hb as <-. exists acp_init. split; [|done].
      unfold acp_of_row. cbn. by rewrite String.eqb_refl.
    + rewrite lookup_insert_ne by done. by exists b.
  - intros s' w2 n2 [= <- <- <-]. cbn. by rewrite lookup_insert_eq.
Qed.

Lemma active_view_truthy t e o : active_view t e = Some o -> jtruthy t = true -> o <> None.
Proof. destruct t, e; try done. cbn. destruct (truthy s) eqn:E; [by intros [= <-] | by intros _ ?; congruence]. Qed.
Lemma active_view_falsy t e o : active_view t e = Some o -> jtruthy t = false -> o = None.
Proof. destruct t, e; try done; cbn; [by intros [= <-]|]. destruct (truthy s) eqn:E; [congruence | done]. Qed.

Lemma begin_body_evolves req sid lease w n : db_ok (cs_db w) ->
  evolves (cs_db w) (cs_db (out_st (begin_body py_str uuid wall req sid lease w n))).
Proof.
  intros Hok. unfold begin_body. destruct (load_or_create_spec req sid w n Hok) as [Hev Hrow].
  destruct (load_or_create wall req sid w n) as [[[s|e] w1] n1] eqn:El; [|rewrite (bind_raise _ _ _ _ _ _ _ El); exact Hev].
  rewrite (bind_ok _ _ _ _ _ _ _ El). cbv beta. cbn in Hev. etransitivity; [exact Hev|]. specialize (Hrow s w1 n1 eq_refl).
  pose proof (evolves_ok _ _ Hok Hev) as Hok1. destruct (current_of w1 sid s Hok1 Hrow) as (p & a & Hc).
  destruct (String.eqb (protocol_version s) (cr_protocol_version req)); cbn [ensure]; [|done].
  rewrite (bind_ok (mret tt) _ _ _ _ _ _ eq_refl). cbv beta. rewrite (bind_ok _ _ _ _ _ _ _ (payload_of_runs w1 sid s p a n1 Hc)). cbv beta zeta.
  pose proof Hc as (_ & _ & _ & Hp & Hwf). pose proof Hp as (Hact & _)%acp_of_payload_inv.
  destruct (jtruthy (pget "active_turn_id" p)) eqn:Et.
  - rewrite (bind_ok get _ _ _ _ _ _ eq_refl). cbv beta. destruct (existsb _ _); [done|].
    pose proof (AcpInterrupt a (active_view_truthy _ _ _ Hact Et)) as Hst.
    edestruct (save_evolves w1 sid s p a) as (s2 & w2 & E & Hev2 & Hc2 & _);
      [exact Hc | by apply payload_clear | by eapply acp_wf_step | by apply rtc_once|].
    rewrite (bind_ok _ _ _ _ _ _ _ E). cbv beta. etransitivity; [exact Hev2|].
    rewrite (bind_ok _ _ _ _ _ _ _ (payload_of_runs w2 sid s2 _ _ (S n1) Hc2)). cbv beta.
    pose proof (start_turn_evolves req sid lease s2 _ _ w2 (S n1) Hc2 eq_refl) as Hstart.
    unfold mbind, M_bind. by destruct (start_turn _ _ _ _ _ _ _ _ _ _) as [[[t|e] w3] n3].
  - pose proof (start_turn_evolves req sid lease s p a w1 n1 Hc (active_view_falsy _ _ _ Hact Et)) as Hstart.
    unfold mbind, M_bind. by destruct (start_turn _ _ _ _ _ _ _ _ _ _) as [[[t|e] w3] n3].
Qed.

Lemma safe_validate r : safe (validate_request r).
Proof.
  intros w n _. destruct (validate_request r w n) as [[x w'] n'] eqn:E. apply validate_request_keeps in E as [-> ->]. done.
Qed.

Lemma safe_begin req : safe (durable_begin_turn py_str uuid wall req).
Proof.
  unfold durable_begin_turn. apply safe_seq; [apply safe_validate | intros _].
  apply safe_seq; [destruct (nonempty _); by intros w n _ | intros sid]. apply safe_seq; [apply safe_acquire | intros lease].
  intros w n Hok. pose proof (begin_body_evolves req sid lease w n Hok) as Hev. unfold release_unless_retained.
  destruct (begin_body _ _ _ _ _ _ w n) as [[[[t|]|e] w1] n1]; cbn in Hev; try exact Hev.
  pose proof (safe_release lease w1 n1 (evolves_ok _ _ Hok Hev)) as Hrel.
  destruct (release_session lease w1 n1) as [[[u|e2] w2] n2]; cbn in *; by etransitivity.
Qed.

Lemma safe_turn_lease t : safe (turn_lease t).
Proof. unfold turn_lease. apply safe_seq; [apply safe_get | intros w]. destruct (od_get _ _); [apply safe_ret | apply safe_raise]. Qed.
Lemma safe_drop t l : safe (drop_turn t l).
Proof. unfold drop_turn. apply safe_seq; [by intros w n _ | intros _; apply safe_release]. Qed.

(** The session of a live turn, as both finishing operations find it. *)
Lemma active_session_spec t w n : db_ok (cs_db w) -> exists r, durable_active_session t w n = (r, w, n) /\
  forall sp, r = Ok sp -> exists a, current w (ct_session_id t) sp.1 sp.2 a /\ a_active a = Some (ct_turn_id t, ct_epoch t).
Proof.
  intros Hok. unfold durable_active_session.
  rewrite (bind_ok _ _ w n (durable_sessions (cs_db w) !! ct_session_id t) w n) by (by destruct w). cbv beta.
  destruct (durable_sessions (cs_db w) !! ct_session_id t) as [s|] eqn:Es; [|by eexists].
  destruct (current_of w (ct_session_id t) s Hok Es) as (p & a & Hc).
  destruct (String.eqb (protocol_version s) (ct_protocol_version t)); cbn [ensure]; [|by eexists].
  rewrite (bind_ok (mret tt) _ _ _ _ _ _ eq_refl). cbv beta. rewrite (bind_ok _ _ _ _ _ _ _ (payload_of_runs w _ s p a n Hc)). cbv beta.
  destruct (is_text _ _ && is_epoch _ _) eqn:Eb; cbn [ensure]; [|by eexists].
  rewrite (bind_ok (mret tt) _ _ _ _ _ _ eq_refl). eexists. split; [reflexivity|]. intros sp [= <-]. exists a. split; [done|].
  pose proof Hc as (_ & _ & _ & (Hact & _)%acp_of_payload_inv & _). apply andb_true_iff in Eb as [E1 E2].
  destruct (pget "active_turn_id" p); try done. cbn in E1. apply String.eqb_eq in E1 as ->.
  destruct (pget "active_epoch" p); try done. cbn in E2, Hact. apply Z.eqb_eq in E2 as ->. destruct (truthy _); [|done]. by injection Hact as <-.
Qed.

Lemma safe_complete t q r ep : safe (durable_complete_turn uuid wall canonical_dumps sha256 t q r ep).
Proof.
  unfold durable_complete_turn. apply safe_seq; [apply safe_turn_lease | intros lease]. apply safe_finally; [|apply safe_drop].
  intros w n Hok. destruct (active_session_spec t w n Hok) as ([sp|e] & E & Hsp); [|by rewrite (bind_raise _ _ _ _ _ _ _ E)].
  rewrite (bind_ok _ _ _ _ _ _ _ E). cbv beta. destruct (Hsp sp eq_refl) as (a & Hc & Hact).
  rewrite (bind_ok (read_clock wall) _ _ _ _ _ _ eq_refl). cbv beta zeta. set (c := make_checkpoint _ _ _ _ _ _ _).
  pose proof (AcpComplete a c Hact) as Hst. pose proof Hc as (_ & _ & _ & Hp & Hwf).
  edestruct (save_evolves w (ct_session_id t) sp.1 sp.2 a) as (s' & w' & Es & Hev & _);
    [exact Hc | by apply (payload_complete sp.2 a t c) | by eapply (acp_wf_step _ _ Hwf Hst) | by apply rtc_once|].
  rewrite (bind_ok _ _ _ _ _ _ _ Es). exact Hev.
Qed.

Lemma safe_interrupt t d : safe (durable_interrupt_turn uuid wall t d).
Proof.
  unfold durable_interrupt_turn. apply safe_seq; [apply safe_turn_lease | intros lease]. apply safe_finally; [|apply safe_drop].
  intros w n Hok. destruct (active_session_spec t w n Hok) as ([sp|e] & E & Hsp); [|by rewrite (bind_raise _ _ _ _ _ _ _ E)].
  rewrite (bind_ok _ _ _ _ _ _ _ E). cbv beta. destruct (Hsp sp eq_refl) as (a & Hc & Hact).
  assert (a_active a <> None) as Hne by congruence. pose proof (AcpInterrupt a Hne) as Hst. pose proof Hc as (_ & _ & _ & Hp & Hwf).
  edestruct (save_evolves w (ct_session_id t) sp.1 sp.2 a) as (s' & w' & Es & Hev & _);
    [exact Hc | by apply payload_clear | by eapply (acp_wf_step _ _ Hwf Hst) | by apply rtc_once|].
  rewrite (bind_ok _ _ _ _ _ _ _ Es). exact Hev.
Qed.

Lemma safe_acknowledge sid tid ep dg : safe (durable_acknowledge py_str uuid wall sid tid ep dg).
Proof.
  unfold durable_acknowledge. do 3 (apply safe_seq; [apply safe_ensure | intros _]).
  apply safe_seq; [apply safe_acquire | intros lease]. apply safe_finally; [|apply safe_release].
  intros w n Hok. rewrite (bind_ok _ _ w n (durable_sessions (cs_db w) !! sid) w n) by (by destruct w). cbv beta.
  destruct (durable_sessions (cs_db w) !! sid) as [s|] eqn:Es; [|done].
  destruct (current_of w sid s Hok Es) as (p & a & Hc). pose proof Hc as (_ & _ & _ & Hp & Hwf).
  rewrite (bind_ok _ _ _ _ _ _ _ (payload_of_runs w sid s p a n Hc)). cbv beta.
  rewrite (bind_ok _ _ _ _ _ _ _ (stored_checkpoint_runs p a w n Hp)). cbv beta.
  destruct (a_latest a) as [c|] eqn:El; [|done]. destruct (acknowledges tid ep dg c); cbn [ensure]; [|done].
  rewrite (bind_ok (mret tt) _ _ _ _ _ _ eq_refl). cbv beta. pose proof Hp as (_ & _ & _ & ->)%acp_of_payload_inv.
  cbn [default from_option jtruthy]. unfold id. destruct (a_acked a) eqn:Ek; cbn [jtruthy negb ensure]; [done|].
  rewrite (bind_ok (mret tt) _ _ _ _ _ _ eq_refl). cbv beta. pose proof (AcpAcknowledge a c El Ek) as Hst.
  edestruct (save_evolves w sid s p a) as (s' & w' & E & Hev & _);
    [exact Hc | by apply payload_ack | by eapply acp_wf_step | by apply rtc_once|].
  rewrite (bind_ok _ _ _ _ _ _ _ E). exact Hev.
Qed.

Definition durable_call (c : acp_call) : CW unit :=
  match c with
  | Begin r => _ ← durable_begin_turn py_str uuid wall r; mret tt
  | Complete t q r ep => _ ← durable_complete_turn uuid wall canonical_dumps sha256 t q r ep; mret tt
  | Acknowledge sid tid ep d => _ ← durable_acknowledge py_str uuid wall sid tid ep d; mret tt
  | Interrupt t d => _ ← durable_interrupt_turn uuid wall t d; mret tt
  end.
Lemma safe_call c : safe (durable_call c).
Proof.
  destruct c; (apply safe_seq; [|intros; apply safe_ret]).
  - apply safe_begin.
  - apply safe_complete.
  - apply safe_acknowledge.
  - apply safe_interrupt.
Qed.
End durable.

(** ** Theorems *)

(** C19: checkpoints form a chain.  In every store reached by any client calls,
    failing ones included, the checkpoints a session announced have the epochs
    0, 1, 2, ..., each names the digest of the one before it as its parent, the
    last one is the session's latest checkpoint, and the next epoch is their
    number: no epoch is skipped or completed twice. *)
Theorem checkpoints_form_chain uuid wall canonical_dumps sha256 issued m n sid s :
  (forall i j, uuid i = uuid j -> i = j) -> reachable uuid wall canonical_dumps sha256 issued m n -> m !! sid = Some s ->
  chain 0 None (completed (events s)) /\ last (completed (events s)) = latest_checkpoint s /\
  next_epoch s = Z.of_nat (length (completed (events s))) /\ acp_wf (acp_of s).
Proof.
  intros Hu Hr Hs. apply (reachable_ok uuid wall canonical_dumps sha256 Hu) in Hr as [_ Hall].
  destruct (Hall sid s Hs) as (H1 & H2 & H3 & H4). split_and!; try done. unfold acp_wf, acp_of. cbn [a_next a_latest a_active a_acked]. split_and!.
  - rewrite H3, <- H2. pose proof (chain_last _ _ _ H1) as H. destruct (last _); [lia | by rewrite H].
  - lia.
  - destruct (active_turn_id s); [|done]. by destruct H4 as (-> & _ & ? & _).
Qed.

(** C20: the durable store keeps the life cycle.  On a database whose sessions
    are well formed, every call of every process sharing it, failing ones
    included, moves every session only along the abstract life cycle and leaves
    them well formed: an epoch advances only with a completed turn, a turn starts
    only after the latest checkpoint was acknowledged, and a stale turn is
    discarded without advancing the epoch. *)
Theorem durable_refines_lifecycle py_str uuid wall canonical_dumps sha256 c w n :
  db_ok py_str (cs_db w) ->
  let w' := out_st (durable_call py_str uuid wall canonical_dumps sha256 c w n) in
  evolves py_str (cs_db w) (cs_db w') /\ db_ok py_str (cs_db w').
Proof. intros Hok w'. pose proof (safe_call py_str uuid wall canonical_dumps sha256 c w n Hok) as H. split; [done | by eapply evolves_ok]. Qed.

(** *** A run in which a stale acknowledgement orphans a live turn *)

Fixpoint repeat_char (c : ascii) (n : nat) : string := match n with O => EmptyString | S k => String c (repeat_char c k) end.
Definition demo_digest : string := repeat_char "a" 64.
Definition demo_sha (_ : string) : string := demo_digest.
Definition demo_uuid (n : nat) : string := repeat_char "f" n.
Definition demo_wall (n : nat) : Q := Qnat n.
Definition no_text (_ : json) : string := "".

Lemma demo_uuid_fresh i j : demo_uuid i = demo_uuid j -> i = j.
Proof. revert j. induction i as [|i IH]; intros [|j]; cbn; try done. intros [= H]. f_equal. by apply IH. Qed.

Definition demo_ask : ContinuationRequest :=
  {| cr_state_digest := demo_digest; cr_session_id := Some "s1"; cr_parent_checkpoint_digest := None; cr_protocol_version := ACP_VERSION |}.

(** A client that begins, completes and acknowledges its own turns. *)
Inductive step : Type := DoBegin (parent : option string) | DoComplete | DoAcknowledge.
Definition demo_request : NormalizedRequest :=
  {| request_id := "r"; req_model := "m"; messages := []; system_instruction := None; tools := []; req_max_output_tokens := None; temperature := None;
     stream := false; system_cache_control := None; tool_choice := None; req_metadata := [] |}.
Definition demo_response : NormalizedResponse :=
  {| response_id := "x"; resp_model := "m"; resp_content := Some "ok"; resp_reasoning_content := None; resp_reasoning_signature := None;
     resp_tool_calls := []; finish_reason := "stop"; input_tokens := 1%Z; output_tokens := 1%Z; raw_response := None |}.
Definition call_of (issued : list ContinuationTurn) (st : step) : acp_call :=
  match st, issued with
  | DoComplete, t :: _ => Complete t demo_request demo_response "ep"
  | DoAcknowledge, t :: _ => Acknowledge (ct_session_id t) (ct_turn_id t) (ct_epoch t) demo_digest
  | DoBegin parent, _ => Begin {| cr_state_digest := demo_digest; cr_session_id := Some "s1"; cr_parent_checkpoint_digest := parent; cr_protocol_version := ACP_VERSION |}
  | _, [] => Begin demo_ask
  end.
Definition play_step (g : list ContinuationTurn * Sessions * nat) (st : step) : list ContinuationTurn * Sessions * nat :=
  let '(issued, m, n) := g in
  let '(r, m', n') := run_call demo_uuid demo_wall no_text demo_sha (call_of issued st) m n in
  (match r with Ok (Some t) => t :: issued | _ => issued end, m', n').
Definition played (steps : list step) : list ContinuationTurn * Sessions * nat := foldl play_step ([], ∅, 0%nat) steps.
Lemma played_reachable steps :
  reachable demo_uuid demo_wall no_text demo_sha (played steps).1.1 (played steps).1.2 (played steps).2.
Proof.
  assert (forall g, reachable demo_uuid demo_wall no_text demo_sha g.1.1 g.1.2 g.2 ->
    reachable demo_uuid demo_wall no_text demo_sha (foldl play_step g steps).1.1 (foldl play_step g steps).1.2 (foldl play_step g steps).2) as H;
    [|apply H, reach_init].
  induction steps as [|st steps IH]; intros [[issued m] n] H; [exact H|].
  cbn [foldl]. apply IH. unfold play_step. destruct (run_call _ _ _ _ (call_of issued st) m n) as [[r m'] n'] eqn:E.
  eapply reach_call; [exact H | | exact E]. destruct st, issued; cbn; try done; by left.
Qed.

(** Two turns, both completed, the first acknowledged. *)
Lemma checkpoints_form_chain_witness :
  exists s, (played [DoBegin None; DoComplete; DoAcknowledge; DoBegin (Some demo_digest); DoComplete]).1.2 !! "s1" = Some s /\
    length (completed (events s)) = 2%nat /\ chain 0 None (completed (events s)) /\
    last (completed (events s)) = latest_checkpoint s /\ next_epoch s = 2%Z.
Proof.
  set (steps := [DoBegin None; DoComplete; DoAcknowledge; DoBegin (Some demo_digest); DoComplete]).
  destruct ((played steps).1.2 !! "s1") as [s|] eqn:E; [|exfalso; vm_compute in E; discriminate].
  destruct (checkpoints_form_chain demo_uuid demo_wall no_text demo_sha _ _ _ "s1" s demo_uuid_fresh (played_reachable steps) E) as (H1 & H2 & H3 & _).
  assert (length (completed (events s)) = 2%nat) as Hl by (vm_compute in E; injection E as <-; reflexivity).
  exists s. rewrite Hl in H3. repeat split; [exact Hl | exact H1 | exact H2 | exact H3].
Defined.

Lemma empty_db_ok py_str : db_ok py_str init_db.
Proof. intros sid. exists acp_init. split; [reflexivity | apply acp_wf_init]. Qed.
Definition process (owner : string) (d : Database) : ContinuationWorld := {| cs_self := new_continuation_store owner 120; cs_db := d |}.

Lemma durable_refines_lifecycle_witness :
  let w' := out_st (durable_call no_text demo_uuid demo_wall no_text demo_sha (Begin demo_ask) (process "A" init_db) 0%nat) in
  evolves no_text init_db (cs_db w') /\ db_ok no_text (cs_db w').
Proof. exact (durable_refines_lifecycle no_text demo_uuid demo_wall no_text demo_sha (Begin demo_ask) (process "A" init_db) 0%nat (empty_db_ok no_text)). Defined.

(** Two processes over one database.  [A] has completed and acknowledged a first
    turn and is inside its second one when the client repeats its old
    acknowledgement through [A]. *)
Definition demo_answer : NormalizedResponse :=
  {| response_id := "r"; resp_model := "m"; resp_content := Some "hi"; resp_reasoning_content := None; resp_reasoning_signature := None;
     resp_tool_calls := []; finish_reason := "stop"; input_tokens := 0; output_tokens := 0; raw_response := None |}.
Definition demo_prompt : NormalizedRequest :=
  {| request_id := "q"; req_model := "m"; messages := []; system_instruction := None; system_cache_control := None; tools := [];
     tool_choice := None; req_max_output_tokens := None; temperature := None; stream := false; req_metadata := [] |}.
Definition demo_next : ContinuationRequest :=
  {| cr_state_digest := demo_digest; cr_session_id := Some "s1"; cr_parent_checkpoint_digest := Some demo_digest;
     cr_protocol_version := ACP_VERSION |}.

(** What [A] does: the live turn it ends with, and whether the repeated
    acknowledgement was refused. *)
Definition first_process : CW (ContinuationTurn * bool) :=
  t1 ← durable_begin_turn no_text demo_uuid demo_wall demo_ask;
  _ ← durable_complete_turn demo_uuid demo_wall no_text demo_sha t1 demo_prompt demo_answer "ep";
  _ ← durable_acknowledge no_text demo_uuid demo_wall "s1" (ct_turn_id t1) (ct_epoch t1) demo_digest;
  t2 ← durable_begin_turn no_text demo_uuid demo_wall demo_next;
  refused ← try_except (_ ← durable_acknowledge no_text demo_uuid demo_wall "s1" (ct_turn_id t1) (ct_epoch t1) demo_digest; mret false) (mret true);
  mret (t2, refused).

Definition orphan_run : option (bool * Z * Z * bool) :=
  match first_process (process "A" init_db) 0%nat with
  | (Ok (t2, refused), wa, n) =>
      match durable_begin_turn no_text demo_uuid demo_wall demo_next (process "B" (cs_db wa)) n with
      | (Ok u, wb, n1) =>
          let '(r, _, _) := durable_complete_turn demo_uuid demo_wall no_text demo_sha t2 demo_prompt demo_answer "ep"
                              {| cs_self := cs_self wa; cs_db := cs_db wb |} n1 in
          Some (refused, ct_epoch t2, ct_epoch u, match r with Raise (ContinuationProtocolError 409) => true | _ => false end)
      | _ => None
      end
  | _ => None
  end.

(** A repeated acknowledgement orphans a live turn.  The acknowledgement is
    refused, but it renewed the lease of the live turn, which belongs to the same
    process, and releases it on its way out.  Another process can then take the
    session, discard the live turn as crashed and start a second one at the same
    epoch; the answer of the first turn is refused although its lease had not
    expired. *)
Theorem stale_ack_orphans_turn : orphan_run = Some (true, 1%Z, 1%Z, true).
Proof. vm_compute. exact eq_refl. Qed.
