(* ===== verification/Sse.v ===== *)
(** * Server-sent events

    [src/durallm/streaming/parser.py] ([SSEStreamParser],
    [WireStreamAssembler]) and [src/durallm/streaming/modes.py]
    ([interruption_sse], [synthesize_anthropic_sse], [synthesize_openai_sse]).

    A byte string is a [string]; decoded text is the same bytes.  A generator is
    the list of what it yields, consumed to its end.  The JSON codec is an
    argument; a parsed payload that is absent ([None]) is [JNull]. *)

From stdpp Require Import base tactics list strings.
From Stdlib Require Import QArith Ascii.
From S2P Require Import Prelude PyText Utf8 Json PyDyn IR.

Definition nl : ascii := chr 10.
Definition cr : ascii := chr 13.

(** ** The frame parser *)

Record ParsedSSEEvent : Type := {
  ev_event : string;
  ev_data : string;
  json_data : json;
  is_done : bool;
}.

Record SSEStreamParser : Type := {
  sp_buffer : string;
  sp_event_type : string;
  sp_data_lines : list string;
}.

Definition new_parser : SSEStreamParser :=
  {| sp_buffer := ""; sp_event_type := "message"; sp_data_lines := [] |}.

(** [buffer.split(b"\n", 1)] when a line feed is in the buffer. *)
Fixpoint split_line (s : string) : option (string * string) :=
  match s with
  | EmptyString => None
  | String c s' =>
      if ascii_dec c nl then Some (EmptyString, s')
      else '(line, rest) ← split_line s'; Some (String c line, rest)
  end.

(** [line[:-1] if line.endswith(b"\r")] *)
Fixpoint chomp_cr (s : string) : string :=
  match s with
  | EmptyString => EmptyString
  | String c s' =>
      match s' with
      | EmptyString => if ascii_dec c cr then EmptyString else s
      | _ => String c (chomp_cr s')
      end
  end.

Section parser.
Context (json_loads : string -> option json).

(** The event built from the pending data lines. *)
Definition make_event (event_type : string) (data_lines : list string) : ParsedSSEEvent :=
  let data_str := join (String nl "") data_lines in
  let done_ := String.eqb (ustrip data_str) "[DONE]" in
  {| ev_event := event_type; ev_data := data_str;
     json_data := if negb done_ && truthy data_str then default JNull (json_loads data_str) else JNull;
     is_done := done_ |}.

(** One complete line, its carriage return removed: the events it yields and
    the pending event type and data lines, or [None] when it does not decode. *)
Definition line_step (line : string) (event_type : string) (data_lines : list string)
    : option (list ParsedSSEEvent * string * list string) :=
  if negb (truthy line) then
    match data_lines with
    | [] => Some ([], event_type, data_lines)
    | _ => Some ([make_event event_type data_lines], "message", [])
    end
  else
    line_str ← utf8_decode line;
    if starts_with ":" line_str then Some ([], event_type, data_lines)
    else if starts_with "event:" line_str then Some ([], ustrip (str_drop 6 line_str), data_lines)
    else if starts_with "data:" line_str then Some ([], event_type, data_lines ++ [ustrip (str_drop 5 line_str)])
    else Some ([], event_type, data_lines).

(** The [while b"\n" in self._buffer] loop; every pass shortens the buffer by a
    line or leaves the loop, so its length is enough fuel. *)
Fixpoint feed_loop (fuel : nat) (p : SSEStreamParser) : list ParsedSSEEvent * SSEStreamParser :=
  match fuel with
  | O => ([], p)
  | S f =>
      match split_line (sp_buffer p) with
      | None => ([], p)
      | Some (raw, rest) =>
          let line := chomp_cr raw in
          match line_step line (sp_event_type p) (sp_data_lines p) with
          | None =>
              ([], {| sp_buffer := line ++ String nl rest; sp_event_type := sp_event_type p; sp_data_lines := sp_data_lines p |})
          | Some (es, et, ds) =>
              let '(es', p') := feed_loop f {| sp_buffer := rest; sp_event_type := et; sp_data_lines := ds |} in
              (es ++ es', p')
          end
      end
  end.

Definition feed (chunk : string) (p : SSEStreamParser) : list ParsedSSEEvent * SSEStreamParser :=
  let buffer := (sp_buffer p ++ chunk)%string in
  feed_loop (String.length buffer) {| sp_buffer := buffer; sp_event_type := sp_event_type p; sp_data_lines := sp_data_lines p |}.

(** A whole stream, chunk by chunk. *)
Fixpoint feed_all (chunks : list string) (p : SSEStreamParser) : list ParsedSSEEvent * SSEStreamParser :=
  match chunks with
  | [] => ([], p)
  | c :: cs => let '(es, p1) := feed c p in let '(es', p2) := feed_all cs p1 in (es ++ es', p2)
  end.

(** The event type is not reset by [flush]. *)
Definition flush (p : SSEStreamParser) : list ParsedSSEEvent * SSEStreamParser :=
  (match sp_data_lines p with [] => [] | ds => [make_event (sp_event_type p) ds] end,
   {| sp_buffer := ""; sp_event_type := sp_event_type p; sp_data_lines := [] |}).
End parser.

(** ** The assembler *)

(** A dictionary key made from a JSON value: numbers are equal when their values
    are ([1 == 1.0 == True]); lists and dicts are not hashable. *)
Inductive index_key : Type := KNum (q : Q) | KStr (s : string) | KNone.
#[export] Instance Q_eq_decision : EqDecision Q.
Proof. solve_decision. Defined.
#[export] Instance index_key_eq_dec : EqDecision index_key.
Proof. solve_decision. Defined.
Definition index_of (j : json) : option index_key :=
  match j with
  | JNull => Some KNone
  | JBool b => Some (KNum (if b then 1 else 0))
  | JInt z => Some (KNum (inject_Z z))
  | JFloat q => Some (KNum (Qred q))
  | JStr s => Some (KStr s)
  | JArr _ | JObj _ => None
  end.

Record ToolSlot : Type := { slot_id : json; slot_name : json; slot_args : string }.
Definition empty_slot : ToolSlot := {| slot_id := JStr ""; slot_name := JStr ""; slot_args := "" |}.

Record WireStreamAssembler : Type := {
  text_content : string;
  asm_reasoning_content : string;
  asm_reasoning_signature : json;
  asm_tool_calls : list (index_key * ToolSlot);
  asm_finish_reason : json;
}.
Definition new_assembler : WireStreamAssembler :=
  {| text_content := ""; asm_reasoning_content := ""; asm_reasoning_signature := JNull; asm_tool_calls := []; asm_finish_reason := JNull |}.

Definition with_text (s : string) (a : WireStreamAssembler) : WireStreamAssembler :=
  {| text_content := s; asm_reasoning_content := asm_reasoning_content a; asm_reasoning_signature := asm_reasoning_signature a;
     asm_tool_calls := asm_tool_calls a; asm_finish_reason := asm_finish_reason a |}.
Definition with_reasoning (s : string) (a : WireStreamAssembler) : WireStreamAssembler :=
  {| text_content := text_content a; asm_reasoning_content := s; asm_reasoning_signature := asm_reasoning_signature a;
     asm_tool_calls := asm_tool_calls a; asm_finish_reason := asm_finish_reason a |}.
Definition with_signature (j : json) (a : WireStreamAssembler) : WireStreamAssembler :=
  {| text_content := text_content a; asm_reasoning_content := asm_reasoning_content a; asm_reasoning_signature := j;
     asm_tool_calls := asm_tool_calls a; asm_finish_reason := asm_finish_reason a |}.
Definition with_slots (l : list (index_key * ToolSlot)) (a : WireStreamAssembler) : WireStreamAssembler :=
  {| text_content := text_content a; asm_reasoning_content := asm_reasoning_content a;
     asm_reasoning_signature := asm_reasoning_signature a; asm_tool_calls := l; asm_finish_reason := asm_finish_reason a |}.
Definition with_finish (j : json) (a : WireStreamAssembler) : WireStreamAssembler :=
  {| text_content := text_content a; asm_reasoning_content := asm_reasoning_content a;
     asm_reasoning_signature := asm_reasoning_signature a; asm_tool_calls := asm_tool_calls a; asm_finish_reason := j |}.

Abbreviation W := (M dyn_error WireStreamAssembler).

Definition py_index (j : json) : W index_key :=
  match index_of j with Some k => mret k | None => raise TypeError end.

Definition modify_slot (k : index_key) (f : ToolSlot -> ToolSlot) : W unit :=
  modify (fun a => with_slots (match od_get k (asm_tool_calls a) with
                               | Some s => od_set k (f s) (asm_tool_calls a)
                               | None => asm_tool_calls a end) a).
(** [if idx not in self.tool_calls: self.tool_calls[idx] = {...}] *)
Definition ensure_slot (k : index_key) : W unit :=
  modify (fun a => if od_mem k (asm_tool_calls a) then a else with_slots (od_set k empty_slot (asm_tool_calls a)) a).
Definition add_args (s : string) (t : ToolSlot) : ToolSlot :=
  {| slot_id := slot_id t; slot_name := slot_name t; slot_args := slot_args t ++ s |}.
Definition set_id (j : json) (t : ToolSlot) : ToolSlot :=
  {| slot_id := j; slot_name := slot_name t; slot_args := slot_args t |}.
Definition set_name (j : json) (t : ToolSlot) : ToolSlot :=
  {| slot_id := slot_id t; slot_name := j; slot_args := slot_args t |}.

(** [content_block_delta] *)
Definition process_block_delta (payload : json) : W unit :=
  delta ← py_get_or "delta" (JObj []) payload;
  dtype ← py_get "type" delta;
  if jeqs "text_delta" dtype then
    t ← py_get_or "text" (JStr "") delta; s ← py_text t; modify (fun a => with_text (text_content a ++ s) a)
  else if jeqs "thinking_delta" dtype then
    t ← py_get_or "thinking" (JStr "") delta; s ← py_text t; modify (fun a => with_reasoning (asm_reasoning_content a ++ s) a)
  else if jeqs "signature_delta" dtype then
    t ← py_get "signature" delta; modify (with_signature t)
  else if jeqs "input_json_delta" dtype then
    idx ← py_get_or "index" (JInt 0) payload; k ← py_index idx;
    ensure_slot k ;;
    t ← py_get_or "partial_json" (JStr "") delta; s ← py_text t; modify_slot k (add_args s)
  else mret tt.

(** [content_block_start] *)
Definition process_block_start (payload : json) : W unit :=
  cb ← py_get_or "content_block" (JObj []) payload;
  ctype ← py_get "type" cb;
  if jeqs "tool_use" ctype then
    idx ← py_get_or "index" (JInt 0) payload; i ← py_get_or "id" (JStr "") cb; n ← py_get_or "name" (JStr "") cb;
    k ← py_index idx;
    modify (fun a => with_slots (od_set k {| slot_id := i; slot_name := n; slot_args := "" |} (asm_tool_calls a)) a)
  else mret tt.

(** [for tc in tc_deltas]: one OpenAI tool-call fragment. *)
Definition process_tool_delta (tc : json) : W unit :=
  idx ← py_get_or "index" (JInt 0) tc;
  k ← py_index idx;
  ensure_slot k ;;
  i ← py_get "id" tc;
  when (jtruthy i) (modify_slot k (set_id i)) ;;
  fn ← py_get_or "function" (JObj []) tc;
  n ← py_get "name" fn;
  when (jtruthy n) (modify_slot k (set_name n)) ;;
  ar ← py_get "arguments" fn;
  when (jtruthy ar) (s ← py_text ar; modify_slot k (add_args s)).

Definition append_text (j : json) : W unit := s ← py_text j; modify (fun a => with_text (text_content a ++ s) a).
Definition append_reasoning (j : json) : W unit :=
  s ← py_text j; modify (fun a => with_reasoning (asm_reasoning_content a ++ s) a).

(** OpenAI and DeepSeek chunks. *)
Definition process_choices (payload : json) : W unit :=
  choices ← py_get_or "choices" (JArr []) payload;
  when (jtruthy choices) (
    c0 ← py_first choices;
    fr ← py_get "finish_reason" c0;
    when (jtruthy fr) (modify (with_finish fr)) ;;
    delta ← py_get_or "delta" (JObj []) c0;
    ct ← py_get "content" delta;
    when (jtruthy ct) (append_text ct) ;;
    rc ← py_get "reasoning_content" delta;
    when (jtruthy rc) (append_reasoning rc) ;;
    tcs ← py_get_or "tool_calls" (JArr []) delta;
    l ← py_iter tcs;
    for_each l process_tool_delta).

Definition process_event (e : ParsedSSEEvent) : W unit :=
  if is_done e || negb (jtruthy (json_data e)) then mret tt else
  let payload := json_data e in
  etype ← (if truthy (ev_event e) then mret (JStr (ev_event e)) else py_get_or "type" (JStr "") payload);
  (if jeqs "content_block_delta" etype then process_block_delta payload
   else if jeqs "content_block_start" etype then process_block_start payload
   else mret tt) ;;
  process_choices payload.

Definition process_events (es : list ParsedSSEEvent) : W unit := for_each es process_event.

(** [sorted(self.tool_calls.keys())]: keys of one kind; others do not compare. *)
Definition key_le (a b : index_key) : option bool :=
  match a, b with
  | KNum x, KNum y => Some (Qle_bool x y)
  | KStr x, KStr y => Some (String.leb x y)
  | _, _ => None
  end.
Definition comparable (ks : list index_key) : bool :=
  match ks with
  | [] | [_] => true
  | k :: ks' => forallb (fun k' => match key_le k k' with Some _ => true | None => false end) ks'
  end.
Definition slot_le (a b : index_key * ToolSlot) : bool := default true (key_le a.1 b.1).

Section assembled.
Context (json_loads : string -> option json).

Definition slot_arguments (raw : string) : json :=
  if truthy raw then match json_loads raw with Some j => j | None => JObj [("_raw", JStr raw)] end else JObj [].
Definition assembled_call (s : ToolSlot) : json :=
  JObj [("id", slot_id s); ("name", slot_name s); ("arguments", slot_arguments (slot_args s))].
Definition assembled_tool_calls (a : WireStreamAssembler) : res dyn_error (list json) :=
  if comparable (od_keys (asm_tool_calls a))
  then Ok (map (fun ks => assembled_call ks.2) (sort_by slot_le (asm_tool_calls a)))
  else Raise TypeError.
End assembled.

(** ** Synthetic streams *)

Inductive StreamingMode : Type := TRUE_STREAMING | ATOMIC_BUFFERED.
Inductive MidStreamFailurePolicy : Type := ABORT | RESTART_FULL_RESPONSE | DISABLE_FALLBACK_AFTER_FIRST_BYTE.

Section synthesis.
(** [json.dumps(_, ensure_ascii=False)] and [json.dumps(_)]. *)
Context (json_dumps json_dumps_ascii : json -> string).

(** An event frame: an event line, a data line and a blank line. *)
Definition frame (event : string) (payload : json) : string :=
  ("event: " ++ event ++ String nl "data: " ++ json_dumps payload ++ String nl (String nl ""))%string.
Definition data_frame (text : string) : string :=
  ("data: " ++ text ++ String nl (String nl ""))%string.

Definition interrupted_text : string := "Upstream stream interrupted; start a new continuation turn.".
Definition interruption_detail (message endpoint_id : string) : json :=
  JObj [("event", JStr "interrupted"); ("continuation_required", JBool true); ("endpoint_id", JStr endpoint_id);
        ("message", JStr (utake 500 message))].
Definition interruption_payload (protocol message endpoint_id : string) : json :=
  if String.eqb protocol "anthropic" then
    JObj [("type", JStr "error");
          ("error", JObj [("type", JStr "api_error"); ("message", JStr interrupted_text);
                          ("lcb", interruption_detail message endpoint_id)])]
  else
    JObj [("error", JObj [("type", JStr "stream_interrupted"); ("message", JStr interrupted_text);
                          ("lcb", interruption_detail message endpoint_id)])].
Definition interruption_sse (protocol message endpoint_id : string) : string :=
  let payload := interruption_payload protocol message endpoint_id in
  if String.eqb protocol "anthropic" then frame "error" payload
  else (frame "lcb.interrupted" payload ++ data_frame "[DONE]")%string.

(** [x if x.startswith(p) else p + x] *)
Definition prefixed (p x : string) : string := if starts_with p x then x else (p ++ x)%string.

(** [tc.raw_arguments or json.dumps(tc.arguments)] *)
Definition argument_text (dumps : json -> string) (tc : NormalizedToolCall) : string :=
  if truthy (raw_arguments tc) then raw_arguments tc else dumps (tc_arguments tc).

Definition block_start (idx : Z) (block : list (string * json)) : string :=
  frame "content_block_start" (JObj [("type", JStr "content_block_start"); ("index", JInt idx); ("content_block", JObj block)]).
Definition block_delta (idx : Z) (delta : list (string * json)) : string :=
  frame "content_block_delta" (JObj [("type", JStr "content_block_delta"); ("index", JInt idx); ("delta", JObj delta)]).
Definition block_stop (idx : Z) : string :=
  frame "content_block_stop" (JObj [("type", JStr "content_block_stop"); ("index", JInt idx)]).

Definition present (o : option string) : option string := match o with Some s => if truthy s then Some s else None | None => None end.

(** Each part of the answer and the number of blocks it uses. *)
Definition thinking_frames (idx : Z) (r : NormalizedResponse) : list string * Z :=
  match present (resp_reasoning_content r) with
  | None => ([], idx)
  | Some th =>
      ([block_start idx [("type", JStr "thinking"); ("thinking", JStr "")];
        block_delta idx [("type", JStr "thinking_delta"); ("thinking", JStr th)]] ++
       match present (resp_reasoning_signature r) with
       | Some sg => [block_delta idx [("type", JStr "signature_delta"); ("signature", JStr sg)]]
       | None => []
       end ++ [block_stop idx], (idx + 1)%Z)
  end.
Definition text_frames (idx : Z) (r : NormalizedResponse) : list string * Z :=
  match present (resp_content r) with
  | None => ([], idx)
  | Some t =>
      ([block_start idx [("type", JStr "text"); ("text", JStr "")];
        block_delta idx [("type", JStr "text_delta"); ("text", JStr t)]; block_stop idx], (idx + 1)%Z)
  end.
Definition tool_frames (idx : Z) (tc : NormalizedToolCall) : list string :=
  [block_start idx [("type", JStr "tool_use"); ("id", JStr (tc_id tc)); ("name", JStr (tc_name tc)); ("input", JObj [])];
   block_delta idx [("type", JStr "input_json_delta"); ("partial_json", JStr (argument_text json_dumps tc))]; block_stop idx].
Fixpoint tools_frames (idx : Z) (tcs : list NormalizedToolCall) : list string :=
  match tcs with
  | [] => []
  | tc :: tcs' => tool_frames idx tc ++ tools_frames (idx + 1) tcs'
  end.

(** [stop_map.get(finish_reason, "end_turn")] *)
Definition anthropic_stop (finish : string) : string :=
  default "end_turn" (od_get finish [("stop", "end_turn"); ("tool_calls", "tool_use"); ("length", "max_tokens")]).

Definition message_start (r : NormalizedResponse) (requested_model : string) : string :=
  frame "message_start" (JObj [("type", JStr "message_start"); ("message", JObj [
    ("id", JStr (prefixed "msg_" (response_id r))); ("type", JStr "message"); ("role", JStr "assistant");
    ("model", JStr requested_model); ("content", JArr []); ("stop_reason", JNull); ("stop_sequence", JNull);
    ("usage", JObj [("input_tokens", JInt (input_tokens r)); ("output_tokens", JInt 1)])])]).
Definition message_delta (r : NormalizedResponse) : string :=
  frame "message_delta" (JObj [("type", JStr "message_delta");
    ("delta", JObj [("stop_reason", JStr (anthropic_stop (finish_reason r))); ("stop_sequence", JNull)]);
    ("usage", JObj [("output_tokens", JInt (output_tokens r))])]).
Definition message_stop : string := frame "message_stop" (JObj [("type", JStr "message_stop")]).

Definition synthesize_anthropic_sse (r : NormalizedResponse) (requested_model : string) : list string :=
  let '(thinking, i1) := thinking_frames 0 r in
  let '(text, i2) := text_frames i1 r in
  [message_start r requested_model] ++ thinking ++ text ++ tools_frames i2 (resp_tool_calls r) ++ [message_delta r; message_stop].

Definition openai_tool (idx : Z) (tc : NormalizedToolCall) : json :=
  JObj [("index", JInt idx); ("id", JStr (tc_id tc)); ("type", JStr "function");
        ("function", JObj [("name", JStr (tc_name tc)); ("arguments", JStr (argument_text json_dumps_ascii tc))])].
Fixpoint openai_tools (idx : Z) (tcs : list NormalizedToolCall) : list json :=
  match tcs with
  | [] => []
  | tc :: tcs' => openai_tool idx tc :: openai_tools (idx + 1) tcs'
  end.
Definition opt_field (k : string) (o : option string) : list (string * json) :=
  match present o with Some s => [(k, JStr s)] | None => [] end.
Definition openai_delta (r : NormalizedResponse) : json :=
  JObj ([("role", JStr "assistant")] ++ opt_field "content" (resp_content r) ++
        opt_field "reasoning_content" (resp_reasoning_content r) ++
        match resp_tool_calls r with [] => [] | tcs => [("tool_calls", JArr (openai_tools 0 tcs))] end).
Definition openai_finish (r : NormalizedResponse) : string :=
  match resp_tool_calls r with [] => finish_reason r | _ => "tool_calls" end.
(** [created] is [int(time.time())]. *)
Definition openai_chunk (created : Z) (r : NormalizedResponse) (requested_model : string) : json :=
  JObj [("id", JStr (prefixed "chatcmpl-" (response_id r))); ("object", JStr "chat.completion.chunk"); ("created", JInt created);
        ("model", JStr requested_model);
        ("choices", JArr [JObj [("index", JInt 0); ("delta", openai_delta r); ("finish_reason", JStr (openai_finish r))]])].
Definition synthesize_openai_sse (created : Z) (r : NormalizedResponse) (requested_model : string) : list string :=
  [data_frame (json_dumps (openai_chunk created r requested_model)); data_frame "[DONE]"].
End synthesis.
