(* ===== verification/SseProps.v ===== *)
(** * Properties of the stream parser

    The parser computes the same events whatever the chunk boundaries: feeding
    agrees with a reference that sees the whole stream at once.  A synthesized
    answer is reassembled exactly.  A line that does not decode, and an
    interruption written in the middle of a frame, are lost. *)

From stdpp Require Import base tactics list strings.
From Stdlib Require Import QArith Ascii.
From S2P Require Import Prelude PyText Utf8 Json JsonText PyDyn IR Sse.
Import JsonTextProps.

(** ** The reference: all complete lines of a stream, in order *)

Fixpoint lines_of (s : string) : list string * string :=
  match s with
  | EmptyString => ([], EmptyString)
  | String c s' =>
      let '(ls, r) := lines_of s' in
      if ascii_dec c nl then (EmptyString :: ls, r)
      else match ls with [] => ([], String c r) | l :: ls' => (String c l :: ls', r) end
  end.

Section reference.
Context (json_loads : string -> option json).

(** Events of the lines up to the first one that does not decode, the pending
    event type and data, and whether such a line was met. *)
Fixpoint run_lines (ls : list string) (et : string) (ds : list string) : list ParsedSSEEvent * string * list string * bool :=
  match ls with
  | [] => ([], et, ds, false)
  | l :: ls' =>
      match line_step json_loads (chomp_cr l) et ds with
      | None => ([], et, ds, true)
      | Some (es, et1, ds1) => let '(es', et2, ds2, w) := run_lines ls' et1 ds1 in (es ++ es', et2, ds2, w)
      end
  end.

Definition reference_run (s : string) := run_lines (lines_of s).1 "message" [].
Definition reference_events (s : string) : list ParsedSSEEvent := (reference_run s).1.1.1.

Lemma lines_of_app s t :
  lines_of (s ++ t) = ((lines_of s).1 ++ (lines_of ((lines_of s).2 ++ t)).1, (lines_of ((lines_of s).2 ++ t)).2).
Proof.
  induction s as [|c s IH]; [cbn; change ("" ++ t)%string with t; by destruct (lines_of t)|]. rewrite app_string_cons. cbn [lines_of]. rewrite IH.
  destruct (lines_of s) as [ls r]. cbn [fst snd]. destruct (ascii_dec c nl); [done|].
  destruct ls as [|l ls]; [|done]. cbn [fst snd app]. rewrite app_string_cons. cbn [lines_of].
  destruct (lines_of (r ++ t)) as [ls' r']. destruct (ascii_dec c nl); [done|]. by destruct ls'.
Qed.

Lemma split_line_spec s :
  match split_line s with
  | None => lines_of s = ([], s)
  | Some (l, rest) => lines_of s = (l :: (lines_of rest).1, (lines_of rest).2) /\ (String.length rest < String.length s)%nat
  end.
Proof.
  induction s as [|c s IH]; [done|]. cbn [split_line lines_of].
  destruct (ascii_dec c nl) as [->|Hne]; [destruct (lines_of s); split; [done | simpl; lia]|].
  destruct (split_line s) as [[l rest]|]; cbn [mbind option_bind].
  - destruct IH as [-> Hl]. split; [done | simpl; lia].
  - by rewrite IH.
Qed.

Definition undecodable (s : string) : Prop :=
  exists l rest, split_line s = Some (l, rest) /\ utf8_valid (chomp_cr l) = false.

Lemma line_step_None l et ds : line_step json_loads l et ds = None <-> utf8_valid l = false.
Proof.
  unfold line_step, utf8_decode. destruct (truthy l) eqn:Et; cbn [negb].
  - destruct (utf8_valid l); cbn [mbind option_bind]; [|done]. by repeat case_match.
  - apply negb_false_iff, String.eqb_eq in Et as ->. by destruct ds.
Qed.

Lemma split_line_app s t l rest : split_line s = Some (l, rest) -> split_line (s ++ t) = Some (l, (rest ++ t)%string).
Proof.
  revert l rest. induction s as [|c s IH]; intros l rest; [done|]. rewrite app_string_cons. cbn [split_line].
  destruct (ascii_dec c nl); [by intros [= <- <-]|].
  destruct (split_line s) as [[l1 r1]|]; [|done]. cbn [mbind option_bind]. intros [= <- <-].
  by rewrite (IH l1 r1).
Qed.

Lemma split_line_join l rest : (lines_of l).1 = [] -> split_line (l ++ String nl rest) = Some (l, rest).
Proof.
  induction l as [|c l IH]; [done|]. rewrite app_string_cons. cbn [split_line lines_of].
  destruct (lines_of l) as [ls r]. destruct (ascii_dec c nl); [done|]. destruct ls; [|done]. intros _. by rewrite IH.
Qed.

Lemma split_line_clean s l rest : split_line s = Some (l, rest) -> (lines_of l).1 = [].
Proof.
  revert l rest. induction s as [|c s IH]; intros l rest; [done|]. cbn [split_line].
  destruct (ascii_dec c nl) as [|Hne]; [by intros [= <- <-]|].
  destruct (split_line s) as [[l1 r1]|]; [|done]. intros [= <- <-]. cbn [lines_of]. specialize (IH l1 r1 eq_refl).
  destruct (lines_of l1) as [ls r]. cbn in IH. subst. by destruct (ascii_dec c nl).
Qed.

(** Removing a carriage return from a line keeps it one line and keeps it
    undecodable. *)
Lemma chomp_cases l : chomp_cr l = l \/ l = (chomp_cr l ++ String cr "")%string.
Proof.
  induction l as [|c l IH]; [by left|]. destruct l as [|c2 l].
  - cbn. destruct (ascii_dec c cr) as [->|]; [by right | by left].
  - change (chomp_cr (String c (String c2 l))) with (String c (chomp_cr (String c2 l))).
    destruct IH as [E|E]; [left; by rewrite E | right; rewrite app_string_cons; by rewrite <- E].
Qed.
Lemma lines_of_nil_app a b : (lines_of (a ++ b)).1 = [] -> (lines_of a).1 = [].
Proof. rewrite lines_of_app. cbn [fst]. by intros [? _]%app_nil. Qed.
Lemma chomp_clean l : (lines_of l).1 = [] -> (lines_of (chomp_cr l)).1 = [].
Proof. destruct (chomp_cases l) as [-> | E]; [done|]. rewrite E at 1. apply lines_of_nil_app. Qed.
Lemma chomp_invalid l : utf8_valid l = false -> utf8_valid (chomp_cr l) = false.
Proof.
  intros H. destruct (chomp_cases l) as [-> | E]; [done|]. apply not_true_iff_false. intros Hv.
  rewrite E, utf8_valid_app in H by done. done.
Qed.

(** The loop of [feed] computes the reference on the lines of its buffer. *)
Lemma feed_loop_run fuel p : (String.length (sp_buffer p) <= fuel)%nat ->
  forall es et ds w, run_lines (lines_of (sp_buffer p)).1 (sp_event_type p) (sp_data_lines p) = (es, et, ds, w) ->
  exists b, feed_loop json_loads fuel p = (es, {| sp_buffer := b; sp_event_type := et; sp_data_lines := ds |}) /\
    if w then undecodable b else b = (lines_of (sp_buffer p)).2.
Proof.
  revert p. induction fuel as [|fuel IH]; intros [b et0 ds0]; cbn [sp_buffer sp_event_type sp_data_lines feed_loop]; intros Hf es et ds w Hrun.
  { destruct b; [|simpl in Hf; lia]. cbn in Hrun. simplify_eq. by eexists. }
  pose proof (split_line_spec b) as Hs. destruct (split_line b) as [[l rest]|] eqn:Eb.
  2: { rewrite Hs in Hrun. cbn in Hrun. simplify_eq. exists b. by rewrite Hs. }
  destruct Hs as [Hl Hlen]. rewrite Hl in Hrun |- *. cbn [fst snd run_lines] in Hrun |- *.
  destruct (line_step json_loads (chomp_cr l) et0 ds0) as [[[es1 et1] ds1]|] eqn:Est.
  - destruct (run_lines (lines_of rest).1 et1 ds1) as [[[es2 et2] ds2] w2] eqn:E2. simplify_eq.
    destruct (IH {| sp_buffer := rest; sp_event_type := et1; sp_data_lines := ds1 |}) with (es := es2) (et := et) (ds := ds) (w := w)
      as (b' & -> & Hb); [cbn; lia | done|]. by exists b'.
  - simplify_eq. eexists. split; [done|]. apply line_step_None in Est. exists (chomp_cr l), rest.
    split; [|by apply chomp_invalid]. apply split_line_join, chomp_clean. by eapply split_line_clean.
Qed.

Lemma run_lines_app l1 l2 et ds :
  run_lines (l1 ++ l2) et ds =
  let '(es1, et1, ds1, w1) := run_lines l1 et ds in
  if w1 then (es1, et1, ds1, true)
  else let '(es2, et2, ds2, w2) := run_lines l2 et1 ds1 in (es1 ++ es2, et2, ds2, w2).
Proof.
  revert et ds. induction l1 as [|l l1 IH]; intros et ds; cbn [app run_lines].
  - by destruct (run_lines l2 et ds) as [[[? ?] ?] ?].
  - destruct (line_step json_loads (chomp_cr l) et ds) as [[[es et1] ds1]|]; [|done].
    rewrite IH. destruct (run_lines l1 et1 ds1) as [[[es1 et2] ds2] []]; [done|].
    destruct (run_lines l2 et2 ds2) as [[[? ?] ?] ?]. by rewrite app_assoc.
Qed.

Lemma undecodable_app b c : undecodable b -> undecodable (b ++ c).
Proof. intros (l & rest & Hs & Hv). exists l, (rest ++ c)%string. split; [by apply split_line_app | done]. Qed.

Lemma undecodable_feed b c et ds : undecodable b ->
  exists b', feed json_loads c {| sp_buffer := b; sp_event_type := et; sp_data_lines := ds |}
             = ([], {| sp_buffer := b'; sp_event_type := et; sp_data_lines := ds |}) /\ undecodable b'.
Proof.
  intros (l & rest & Hs & Hv)%(undecodable_app _ c). unfold feed. cbn [sp_buffer sp_event_type sp_data_lines].
  destruct (feed_loop_run (String.length (b ++ c)) {| sp_buffer := (b ++ c)%string; sp_event_type := et; sp_data_lines := ds |})
    with (es := @nil ParsedSSEEvent) (et := et) (ds := ds) (w := true) as (b' & -> & Hb); [done | | by exists b'].
  cbn [sp_buffer sp_event_type sp_data_lines]. pose proof (split_line_spec (b ++ c)) as H. rewrite Hs in H. destruct H as [-> _].
  cbn [fst run_lines]. by apply line_step_None with (et := et) (ds := ds) in Hv as ->.
Qed.

(** The state of a parser that has consumed [s], having yielded [es]. *)
Definition tracks (s : string) (es : list ParsedSSEEvent) (p : SSEStreamParser) : Prop :=
  exists w, reference_run s = (es, sp_event_type p, sp_data_lines p, w) /\
    if w : bool then undecodable (sp_buffer p) else sp_buffer p = (lines_of s).2.

Lemma feed_tracks s es p c : tracks s es p ->
  tracks (s ++ c) (es ++ (feed json_loads c p).1) (feed json_loads c p).2.
Proof.
  destruct p as [b et ds]. intros (w & Hrun & Hb). unfold tracks, reference_run in *. cbn [sp_buffer sp_event_type sp_data_lines] in *.
  rewrite lines_of_app. cbn [fst snd]. rewrite run_lines_app, Hrun. destruct w.
  - destruct (undecodable_feed b c et ds Hb) as (b' & -> & Hb'). exists true. by rewrite app_nil_r.
  - subst b. destruct (run_lines (lines_of ((lines_of s).2 ++ c)).1 et ds) as [[[es2 et2] ds2] w2] eqn:E2.
    unfold feed. cbn [sp_buffer sp_event_type sp_data_lines].
    destruct (feed_loop_run (String.length ((lines_of s).2 ++ c)) {| sp_buffer := ((lines_of s).2 ++ c)%string; sp_event_type := et; sp_data_lines := ds |})
      with (es := es2) (et := et2) (ds := ds2) (w := w2) as (b' & -> & Hb'); [done | done|]. by exists w2.
Qed.

Lemma feed_all_tracks chunks s es p : tracks s es p ->
  tracks (s ++ join "" chunks) (es ++ (feed_all json_loads chunks p).1) (feed_all json_loads chunks p).2.
Proof.
  revert s es p. induction chunks as [|c cs IH]; intros s es p Hp; cbn [feed_all].
  - cbn [join fst snd]. by rewrite app_string_nil, app_nil_r.
  - pose proof (feed_tracks s es p c Hp) as H1. destruct (feed json_loads c p) as [es1 p1].
    specialize (IH _ _ _ H1). cbn [fst snd] in *. destruct (feed_all json_loads cs p1) as [es2 p2]. cbn [fst snd] in *.
    replace (join "" (c :: cs)) with (c ++ join "" cs)%string; [by rewrite app_assoc, <- app_string_assoc|].
    destruct cs; [by rewrite app_string_nil | done].
Qed.
End reference.

(** ** Frames *)

(** Text a frame can carry: one line that stripping leaves alone. *)
Definition tidy (s : string) : Prop :=
  one_line s = true /\ exists a m b, s = String a (m ++ String b "") /\ visible a = true /\ visible b = true.

Lemma tidy_strip s : tidy s -> ustrip (" " ++ s) = s.
Proof.
  intros (_ & a & m & b & -> & Ha & Hb). rewrite <- (ustrip_visible a b m) at 2 by done. done.
Qed.
Lemma tidy_truthy s : tidy s -> truthy s = true.
Proof. by intros (_ & a & m & b & -> & _). Qed.

Lemma printable_chomp s : all_chars printable s = true -> chomp_cr s = s.
Proof.
  intros Hs. destruct (chomp_cases s) as [-> | E]; [done|]. rewrite E, all_chars_app, andb_true_iff in Hs. by destruct Hs.
Qed.
Lemma lines_of_line l t : all_chars printable l = true ->
  lines_of (l ++ String nl t) = (l :: (lines_of t).1, (lines_of t).2).
Proof.
  induction l as [|c l IH]; [change ("" ++ ?x)%string with x; cbn [lines_of]; by destruct (lines_of t)|].
  intros [Hc Hl]%andb_true_iff. rewrite app_string_cons. cbn [lines_of]. rewrite (IH Hl).
  destruct (ascii_dec c nl) as [->|]; [discriminate Hc | done].
Qed.

Section frames.
Context (json_loads : string -> option json).
Abbreviation run := (run_lines json_loads).

Lemma run_line l t et ds : all_chars printable l = true ->
  run (lines_of (l ++ String nl t)).1 et ds =
  match line_step json_loads l et ds with
  | None => ([], et, ds, true)
  | Some (es, et1, ds1) => let '(es', et2, ds2, w) := run (lines_of t).1 et1 ds1 in (es ++ es', et2, ds2, w)
  end.
Proof. intros Hl. rewrite lines_of_line by done. cbn [fst run_lines]. by rewrite printable_chomp. Qed.

Lemma tidy_line p s : tidy s -> one_line p = true -> all_chars printable (p ++ s) = true /\ utf8_valid (p ++ s) = true.
Proof. intros [Hs _] Hp. by apply andb_true_iff, (one_line_app p s). Qed.

Lemma step_event e et ds : tidy e -> line_step json_loads ("event: " ++ e) et ds = Some ([], e, ds).
Proof.
  intros He. destruct (tidy_line "event: " e He eq_refl) as [_ Hv]. unfold line_step, utf8_decode. rewrite Hv.
  transitivity (Some (@nil ParsedSSEEvent, ustrip (" " ++ e), ds)); [reflexivity | by rewrite tidy_strip].
Qed.
Lemma step_data d et ds : tidy d -> line_step json_loads ("data: " ++ d) et ds = Some ([], et, ds ++ [d]).
Proof.
  intros He. destruct (tidy_line "data: " d He eq_refl) as [_ Hv]. unfold line_step, utf8_decode. rewrite Hv.
  transitivity (Some (@nil ParsedSSEEvent, et, ds ++ [ustrip (" " ++ d)])); [reflexivity | by rewrite tidy_strip].
Qed.

(** A data line and a blank line complete an event. *)
Lemma run_data d t et : tidy d ->
  run (lines_of (data_frame d ++ t)).1 et [] =
  let '(es, et', ds, w) := run (lines_of t).1 "message" [] in (make_event json_loads et [d] :: es, et', ds, w).
Proof.
  intros Hd. destruct (tidy_line "data: " d Hd eq_refl) as [Hp _].
  replace (data_frame d ++ t)%string with (("data: " ++ d) ++ String nl ("" ++ String nl t))%string.
  2: { unfold data_frame. by rewrite !app_string_assoc. }
  rewrite run_line, step_data by done. rewrite run_line by done. cbn [line_step truthy]. 
  change (line_step json_loads "" et ([] ++ [d])) with (Some ([make_event json_loads et [d]], "message", @nil string)).
  cbn match. by destruct (run (lines_of t).1 "message" []) as [[[? ?] ?] ?].
Qed.

Context (json_dumps : json -> string) `{!JsonCodec json_dumps json_loads}.

Lemma object_tidy fs : json_ok (JObj fs) = true -> tidy (json_dumps (JObj fs)).
Proof.
  intros Hok. split; [by apply codec_line|]. destruct (codec_object fs) as [t ->]. by exists (chr 123), t, (chr 125).
Qed.
Lemma object_not_done fs : json_ok (JObj fs) = true ->
  forall et, make_event json_loads et [json_dumps (JObj fs)] =
  {| ev_event := et; ev_data := json_dumps (JObj fs); json_data := JObj fs; is_done := false |}.
Proof.
  intros Hok et. unfold make_event. cbn [join]. pose proof (object_tidy fs Hok) as Ht. pose proof (codec_object fs) as [t E].
  rewrite (tidy_truthy _ Ht), codec_roundtrip by done.
  assert (String.eqb (ustrip (json_dumps (JObj fs))) "[DONE]" = false) as ->; [|done].
  rewrite E, ustrip_visible by done. done.
Qed.

(** A frame with an event line. *)
Lemma run_frame e fs t et : tidy e -> json_ok (JObj fs) = true ->
  run (lines_of (frame json_dumps e (JObj fs) ++ t)).1 et [] =
  let '(es, et', ds, w) := run (lines_of t).1 "message" [] in
  ({| ev_event := e; ev_data := json_dumps (JObj fs); json_data := JObj fs; is_done := false |} :: es, et', ds, w).
Proof.
  intros He Hok. destruct (tidy_line "event: " e He eq_refl) as [Hp _].
  replace (frame json_dumps e (JObj fs) ++ t)%string with (("event: " ++ e) ++ String nl (data_frame (json_dumps (JObj fs)) ++ t))%string.
  2: { unfold frame, data_frame. rewrite !app_string_assoc. done. }
  rewrite run_line, step_event by done. rewrite run_data, object_not_done by (done || by apply object_tidy).
  by destruct (run (lines_of t).1 "message" []) as [[[? ?] ?] ?].
Qed.

(** Frames in sequence. *)
Definition frame_event (f : string * list (string * json)) : ParsedSSEEvent :=
  {| ev_event := f.1; ev_data := json_dumps (JObj f.2); json_data := JObj f.2; is_done := false |}.
Definition frame_text (f : string * list (string * json)) : string := frame json_dumps f.1 (JObj f.2).
Lemma run_frames fs : Forall (fun f => tidy f.1 /\ json_ok (JObj f.2) = true) fs ->
  reference_events json_loads (join "" (map frame_text fs)) = map frame_event fs.
Proof.
  intros Hfs. unfold reference_events, reference_run.
  assert (run (lines_of (join "" (map frame_text fs))).1 "message" [] = (map frame_event fs, "message", [], false)) as ->; [|done].
  induction Hfs as [|f fs [Hf1 Hf2] Hfs IH]; [done|]. cbn [map]. rewrite <- (app_string_nil (join _ _)), join_cons.
  unfold frame_text at 1. destruct fs as [|f2 fs].
  - by rewrite run_frame.
  - cbn [map] in *. rewrite app_string_nil. change ("" ++ ?x)%string with x. rewrite run_frame by done.
    by rewrite IH.
Qed.
End frames.

(** ** Reassembling a synthesized answer *)

Lemma tidy_check s a b : one_line s = true -> s = String a (String.substring 1 (String.length s - 2) s ++ String b "") ->
  visible a = true -> visible b = true -> tidy s.
Proof. intros H1 H2 Ha Hb. split; [done|]. eauto 10. Qed.
Ltac tidy_name := eapply tidy_check; reflexivity.

(** [json_ok] of an object literal, from the well-formedness of its texts. *)
Ltac jok :=
  cbn [json_ok forallb map fst snd]; rewrite ?andb_true_iff; repeat split; try reflexivity; try assumption.

Lemma for_each_app {E S A} (l1 l2 : list A) (f : A -> M E S unit) s n s1 n1 :
  for_each l1 f s n = (Ok tt, s1, n1) -> for_each (l1 ++ l2) f s n = for_each l2 f s1 n1.
Proof.
  revert s n. induction l1 as [|x l1 IH]; intros s n; cbn [for_each app]; [by intros [= <- <-]|].
  unfold mbind, M_bind. destruct (f x s n) as [[[[]|e] s2] n2]; [apply IH | done].
Qed.

Section conveys.
Context (json_dumps json_dumps_ascii : json -> string) (json_loads : string -> option json) `{!JsonCodec json_dumps json_loads}.

(** The frames [strs], received in a state of [P], act on the assembler as [f]. *)
Definition conveys (P : WireStreamAssembler -> Prop) (strs : list string) (f : WireStreamAssembler -> WireStreamAssembler) : Prop :=
  exists fs, strs = map (frame_text json_dumps) fs /\ Forall (fun f => tidy f.1 /\ json_ok (JObj f.2) = true) fs /\
    forall a n, P a -> process_events (map (frame_event json_dumps) fs) a n = (Ok tt, f a, n).

Lemma conveys_app (P P' : WireStreamAssembler -> Prop) s1 s2 f g :
  conveys P s1 f -> conveys P' s2 g -> (forall a, P a -> P' (f a)) -> conveys P (s1 ++ s2) (g ∘ f).
Proof.
  intros (fs1 & -> & H1 & R1) (fs2 & -> & H2 & R2) HP. exists (fs1 ++ fs2). rewrite map_app, Forall_app. split_and!; try done.
  intros a n Ha. unfold process_events in *. rewrite map_app. erewrite for_each_app by (by apply R1). apply R2, HP, Ha.
Qed.
Lemma conveys_nil P : conveys P [] id.
Proof. exists []. by split_and!. Qed.

(** One frame whose processing evaluates. *)
Lemma conveys_one (P : WireStreamAssembler -> Prop) e fs f : tidy e -> json_ok (JObj fs) = true ->
  (forall a n, P a -> process_event (frame_event json_dumps (e, fs)) a n = (Ok tt, f a, n)) ->
  conveys P [frame json_dumps e (JObj fs)] f.
Proof.
  intros He Hok Hp. exists [(e, fs)]. split_and!; [done | by apply Forall_singleton|]. intros a n Ha.
  unfold process_events. cbn [map for_each]. erewrite bind_ok by (by apply Hp). done.
Qed.

Lemma conveys_cons (P P' : WireStreamAssembler -> Prop) s strs f g :
  conveys P [s] f -> conveys P' strs g -> (forall a, P a -> P' (f a)) -> conveys P (s :: strs) (g ∘ f).
Proof. apply (conveys_app P P' [s]). Qed.

Abbreviation anyA := (fun _ : WireStreamAssembler => True).

Lemma stop_conveys P idx : conveys P [block_stop json_dumps idx] id.
Proof. apply conveys_one; [tidy_name | jok | reflexivity]. Qed.

Lemma thinking_conveys idx r :
  (forall s, resp_reasoning_content r = Some s -> utf8_valid s = true) ->
  (forall s, resp_reasoning_signature r = Some s -> utf8_valid s = true) ->
  conveys anyA (thinking_frames json_dumps idx r).1
    (match present (resp_reasoning_content r) with
     | None => id
     | Some th => fun a =>
         let a1 := with_reasoning (asm_reasoning_content a ++ th) a in
         match present (resp_reasoning_signature r) with Some sg => with_signature (JStr sg) a1 | None => a1 end
     end).
Proof.
  intros H1 H2. unfold thinking_frames.
  destruct (resp_reasoning_content r) as [th|]; cbn [present]; [|apply conveys_nil].
  destruct (truthy th) eqn:Et; [|apply conveys_nil]. cbn [fst]. specialize (H1 th eq_refl).
  eapply (conveys_cons anyA anyA _ _ id); [apply conveys_one; [tidy_name | jok | reflexivity] | | done].
  assert (conveys anyA [block_delta json_dumps idx [("type", JStr "thinking_delta"); ("thinking", JStr th)]]
    (fun a => with_reasoning (asm_reasoning_content a ++ th) a)) as Hth by (apply conveys_one; [tidy_name | jok | reflexivity]).
  destruct (resp_reasoning_signature r) as [sg|]; cbn [present].
  2: { eapply (conveys_cons anyA anyA _ _ _ id); [exact Hth | apply stop_conveys | done]. }
  destruct (truthy sg) eqn:Es.
  2: { eapply (conveys_cons anyA anyA _ _ _ id); [exact Hth | apply stop_conveys | done]. }
  specialize (H2 sg eq_refl).
  eapply (conveys_cons anyA anyA _ _ _ (with_signature (JStr sg))); [exact Hth | | done].
  eapply (conveys_cons anyA anyA _ _ _ id); [|apply stop_conveys | done].
  apply conveys_one; [tidy_name | jok | reflexivity].
Qed.

Lemma text_conveys idx r : (forall s, resp_content r = Some s -> utf8_valid s = true) ->
  conveys anyA (text_frames json_dumps idx r).1
    (match present (resp_content r) with None => id | Some t => fun a => with_text (text_content a ++ t) a end).
Proof.
  intros H1. unfold text_frames.
  destruct (resp_content r) as [t|]; cbn [present]; [|apply conveys_nil].
  destruct (truthy t) eqn:Et; [|apply conveys_nil]. cbn [fst]. specialize (H1 t eq_refl).
  eapply (conveys_cons anyA anyA _ _ id); [apply conveys_one; [tidy_name | jok | reflexivity] | | done].
  eapply (conveys_cons anyA anyA _ _ _ id); [|apply stop_conveys | done].
  apply conveys_one; [tidy_name | jok | reflexivity].
Qed.
Lemma conveys_ext (P : WireStreamAssembler -> Prop) s f g : conveys P s f -> (forall a, P a -> f a = g a) -> conveys P s g.
Proof. intros (fs & -> & H1 & R) He. exists fs. split_and!; [done..|]. intros a n Ha. rewrite <- He by done. by apply R. Qed.
Lemma conveys_weaken (P P' : WireStreamAssembler -> Prop) s f : conveys P' s f -> (forall a, P a -> P' a) -> conveys P s f.
Proof. intros (fs & -> & H1 & R) He. exists fs. split_and!; auto. Qed.

(** Tool blocks. *)
Definition slot_of (tc : NormalizedToolCall) : ToolSlot :=
  {| slot_id := JStr (tc_id tc); slot_name := JStr (tc_name tc); slot_args := argument_text json_dumps tc |}.
Definition idx_key (i : Z) : index_key := KNum (inject_Z i).
Definition fresh (i : Z) (a : WireStreamAssembler) : Prop := forall j, (i <= j)%Z -> idx_key j ∉ od_keys (asm_tool_calls a).
Definition add_slot (i : Z) (s : ToolSlot) (a : WireStreamAssembler) : WireStreamAssembler :=
  with_slots (asm_tool_calls a ++ [(idx_key i, s)]) a.

Lemma tool_conveys idx tc : utf8_valid (tc_id tc) = true -> utf8_valid (tc_name tc) = true ->
  utf8_valid (argument_text json_dumps tc) = true ->
  conveys (fresh idx) (tool_frames json_dumps idx tc) (add_slot idx (slot_of tc)).
Proof.
  intros H1 H2 H3. set (s0 := {| slot_id := JStr (tc_id tc); slot_name := JStr (tc_name tc); slot_args := "" |}).
  set (P1 a := exists a0, fresh idx a0 /\ a = add_slot idx s0 a0).
  assert (forall a, fresh idx a -> idx_key idx ∉ od_keys (asm_tool_calls a)) as Hf by (intros a Ha; apply Ha; lia).
  eapply conveys_ext.
  - eapply (conveys_cons _ P1 _ _ (add_slot idx s0)).
    + apply conveys_one; [tidy_name | jok|]. intros a n Ha.
      transitivity (@Ok dyn_error unit tt, with_slots (od_set (idx_key idx) s0 (asm_tool_calls a)) a, n); [reflexivity|].
      by rewrite od_set_new by auto.
    + eapply (conveys_cons P1 anyA _ _ (fun a => with_slots (od_set (idx_key idx) (slot_of tc) (asm_tool_calls a)) a) id);
        [|apply stop_conveys | done].
      apply conveys_one; [tidy_name | jok|]. intros a n (a0 & Ha0 & ->).
      destruct (od_set_last (asm_tool_calls a0) (idx_key idx) s0 (slot_of tc)) as [Hset Hget]; [by auto|].
      unfold add_slot. cbn [asm_tool_calls with_slots]. rewrite Hset.
      set (a := with_slots (asm_tool_calls a0 ++ [(idx_key idx, s0)]) a0).
      transitivity (@Ok dyn_error unit tt,
        (fun b => with_slots (match od_get (idx_key idx) (asm_tool_calls b) with
           | Some s => od_set (idx_key idx) (add_args (argument_text json_dumps tc) s) (asm_tool_calls b)
           | None => asm_tool_calls b end) b)
        (if od_mem (idx_key idx) (asm_tool_calls a) then a else with_slots (od_set (idx_key idx) empty_slot (asm_tool_calls a)) a), n);
        [reflexivity|].
      unfold od_mem, a. cbn [asm_tool_calls with_slots]. rewrite Hget. cbn [asm_tool_calls with_slots]. rewrite Hget.
      change (add_args (argument_text json_dumps tc) s0) with (slot_of tc). by rewrite Hset.
    + intros a Ha. by exists a.
  - intros a Ha. cbn. unfold add_slot. cbn [asm_tool_calls with_slots].
    by destruct (od_set_last (asm_tool_calls a) (idx_key idx) s0 (slot_of tc)) as [-> _]; [by auto|].
Qed.
Definition call_ok (tc : NormalizedToolCall) : bool :=
  utf8_valid (tc_id tc) && utf8_valid (tc_name tc) && utf8_valid (raw_arguments tc) && json_ok (tc_arguments tc).
Fixpoint slots_from (idx : Z) (tcs : list NormalizedToolCall) : list (index_key * ToolSlot) :=
  match tcs with [] => [] | tc :: tcs' => (idx_key idx, slot_of tc) :: slots_from (idx + 1) tcs' end.

Lemma argument_text_utf8 tc : call_ok tc = true -> utf8_valid (argument_text json_dumps tc) = true.
Proof.
  unfold call_ok, argument_text. rewrite !andb_true_iff. intros [[_ H1] H2]. destruct (truthy _); [done|].
  by apply codec_line, andb_true_iff in H2 as [_ ?].
Qed.

Lemma fresh_add idx s a : fresh idx a -> fresh (idx + 1) (add_slot idx s a).
Proof.
  intros H j Hj. unfold add_slot, od_keys. cbn [asm_tool_calls with_slots]. rewrite fmap_app, elem_of_app. intros [Hin|Hin].
  - apply (H j); [lia | done].
  - csimpl in Hin. apply list_elem_of_singleton in Hin. unfold idx_key, inject_Z in Hin. simplify_eq. lia.
Qed.

Lemma tools_conveys tcs idx : forallb call_ok tcs = true ->
  conveys (fresh idx) (tools_frames json_dumps idx tcs) (fun a => with_slots (asm_tool_calls a ++ slots_from idx tcs) a).
Proof.
  revert idx. induction tcs as [|tc tcs IH]; intros idx Hok.
  - eapply conveys_ext; [apply conveys_nil|]. intros [] _. cbn. by rewrite app_nil_r.
  - apply andb_true_iff in Hok as [Htc Htcs]. eapply conveys_ext.
    + eapply (conveys_app (fresh idx) (fresh (idx + 1))); [|by apply IH | apply fresh_add].
      pose proof (argument_text_utf8 tc Htc). unfold call_ok in Htc. rewrite !andb_true_iff in Htc. destruct Htc as [[[? ?] ?] ?]. by apply tool_conveys.
    + intros a _. cbn. by rewrite <- app_assoc.
Qed.

(** Everything a synthesized stream prints is text. *)
Definition response_ok (r : NormalizedResponse) (model : string) : bool :=
  utf8_valid (response_id r) && utf8_valid model && utf8_valid (default "" (resp_content r)) &&
  utf8_valid (default "" (resp_reasoning_content r)) && utf8_valid (default "" (resp_reasoning_signature r)) &&
  utf8_valid (finish_reason r) && forallb call_ok (resp_tool_calls r).

Definition first_block (r : NormalizedResponse) : Z :=
  ((if bool_decide (is_Some (present (resp_reasoning_content r))) then 1 else 0) + (if bool_decide (is_Some (present (resp_content r))) then 1 else 0))%Z.

(** What the assembler holds after the answer. *)
Definition answered (r : NormalizedResponse) : WireStreamAssembler :=
  {| text_content := default "" (resp_content r);
     asm_reasoning_content := default "" (resp_reasoning_content r);
     asm_reasoning_signature := match present (resp_reasoning_content r), present (resp_reasoning_signature r) with
                                | Some _, Some sg => JStr sg | _, _ => JNull end;
     asm_tool_calls := slots_from (first_block r) (resp_tool_calls r);
     asm_finish_reason := JNull |}.

Lemma prefixed_utf8 p x : utf8_valid p = true -> utf8_valid x = true -> utf8_valid (prefixed p x) = true.
Proof. intros. unfold prefixed. destruct (starts_with p x); [done | by apply utf8_valid_app]. Qed.
Lemma anthropic_stop_utf8 f : utf8_valid (anthropic_stop f) = true.
Proof. unfold anthropic_stop. cbn [od_get]. by repeat case_decide. Qed.

Lemma synthesize_conveys r model : response_ok r model = true ->
  conveys (fun a => a = new_assembler) (synthesize_anthropic_sse json_dumps r model) (fun _ => answered r).
Proof.
  unfold response_ok. rewrite !andb_true_iff. intros [[[[[[Hid Hm] Hc] Hr] Hs] _] Htcs].
  assert (forall o s, o = Some s -> utf8_valid (default "" o) = true -> utf8_valid s = true) as Hsome by (intros ? ? -> H; exact H).
  pose proof (prefixed_utf8 "msg_" _ eq_refl Hid). pose proof (anthropic_stop_utf8 (finish_reason r)).
  unfold synthesize_anthropic_sse.
  pose proof (thinking_conveys 0 r ltac:(eauto) ltac:(eauto)) as Hth. destruct (thinking_frames json_dumps 0 r) as [th i1] eqn:Eth.
  pose proof (text_conveys i1 r ltac:(eauto)) as Htx. destruct (text_frames json_dumps i1 r) as [tx i2] eqn:Etx. cbn [fst] in *.
  assert (i2 = first_block r) as ->.
  { unfold thinking_frames, text_frames, first_block in *. repeat case_match; simplify_eq; done. }
  eapply conveys_ext.
  - eapply (conveys_cons _ (fun a => asm_tool_calls a = []) _ _ id); [apply conveys_one; [tidy_name | jok | reflexivity] | | by intros a ->].
    eapply (conveys_app _ (fun a => asm_tool_calls a = []));
      [eapply conveys_weaken; [exact Hth | done] | | intros a Ha; by repeat case_match].
    eapply (conveys_app _ (fresh (first_block r)));
      [eapply conveys_weaken; [exact Htx | done] | | intros a Ha; unfold fresh; repeat case_match; cbn; rewrite Ha; intros; apply not_elem_of_nil].
    eapply (conveys_app _ anyA); [by apply tools_conveys | | done].
    eapply (conveys_cons anyA anyA _ _ id id); [apply conveys_one; [tidy_name | jok | reflexivity] | | done].
    apply conveys_one; [tidy_name | jok | reflexivity].
  - cbn. intros a ->. unfold answered, present. clear.
    destruct (resp_reasoning_content r) as [[|c1 s1]|], (resp_content r) as [[|c2 s2]|], (resp_reasoning_signature r) as [[|c3 s3]|]; done.
Qed.

(** Blocks come in the order of their indices. *)
Lemma slots_sorted idx tcs : sort_by slot_le (slots_from idx tcs) = slots_from idx tcs /\
  comparable (od_keys (slots_from idx tcs)) = true.
Proof.
  split.
  - revert idx. induction tcs as [|tc tcs IH]; intros idx; [done|]. cbn [slots_from sort_by foldr]. unfold sort_by in IH. rewrite IH.
    destruct tcs as [|tc2 tcs]; [done|]. cbn [slots_from insert_by]. unfold slot_le, key_le, idx_key. cbn [fst default].
    replace (Qle_bool (inject_Z idx) (inject_Z (idx + 1))) with true; [done|]. symmetry. apply Qle_bool_true.
    rewrite <- Zle_Qle. lia.
  - destruct tcs as [|tc [|tc2 tcs]]; [done..|]. cbn [slots_from]. unfold od_keys. csimpl. unfold comparable, idx_key.
    cbn [forallb key_le]. generalize (idx + 1 + 1)%Z. induction tcs as [|tc3 tcs IH]; intros i; [done|]. csimpl. apply IH.
Qed.

Lemma slots_calls tcs idx (f : ToolSlot -> json) : map (fun ks => f ks.2) (slots_from idx tcs) = map (f ∘ slot_of) tcs.
Proof. revert idx. induction tcs as [|tc tcs IH]; intros idx; [done|]. cbn. by rewrite IH. Qed.

(** A call whose text, when there is one, is that of its arguments. *)
Definition text_agrees (tc : NormalizedToolCall) : Prop :=
  (exists fs, tc_arguments tc = JObj fs) /\ (raw_arguments tc = "" \/ json_loads (raw_arguments tc) = Some (tc_arguments tc)).
Definition expected_call (tc : NormalizedToolCall) : json :=
  JObj [("id", JStr (tc_id tc)); ("name", JStr (tc_name tc)); ("arguments", tc_arguments tc)].

Lemma slot_arguments_text tc : text_agrees tc -> call_ok tc = true ->
  slot_arguments json_loads (argument_text json_dumps tc) = tc_arguments tc.
Proof.
  intros [[fs Hfs] Hraw] Hok. unfold call_ok in Hok. rewrite !andb_true_iff in Hok. destruct Hok as [_ Hok].
  unfold slot_arguments, argument_text. destruct (truthy (raw_arguments tc)) eqn:Et.
  - rewrite Et. destruct Hraw as [E|E]; [by rewrite E in Et | by rewrite E].
  - rewrite codec_roundtrip by done. rewrite Hfs in *. by rewrite (tidy_truthy _ (object_tidy json_loads json_dumps fs Hok)).
Qed.
End conveys.

(** ** OpenAI chunks *)

Lemma ensure_slot_fresh i a n : idx_key i ∉ od_keys (asm_tool_calls a) ->
  ensure_slot (idx_key i) a n = (Ok tt, add_slot i empty_slot a, n).
Proof.
  intros H. unfold ensure_slot, modify, od_mem. pose proof H as ->%od_get_None. by rewrite od_set_new.
Qed.
Lemma modify_slot_last i f s a n : idx_key i ∉ od_keys (asm_tool_calls a) ->
  modify_slot (idx_key i) f (add_slot i s a) n = (Ok tt, add_slot i (f s) a, n).
Proof.
  intros H. unfold modify_slot, modify, add_slot. cbn [asm_tool_calls with_slots].
  destruct (od_set_last (asm_tool_calls a) (idx_key i) s (f s) H) as [E1 E2]. by rewrite E2, E1.
Qed.
Lemma when_slot (b : bool) i f s a n : idx_key i ∉ od_keys (asm_tool_calls a) ->
  when b (modify_slot (idx_key i) f) (add_slot i s a) n = (Ok tt, add_slot i (if b then f s else s) a, n).
Proof. intros H. destruct b; [by apply modify_slot_last | done]. Qed.

Section openai.
Context (json_dumps_ascii : json -> string).

Lemma tool_delta_runs i tc a n : fresh i a ->
  process_tool_delta (openai_tool json_dumps_ascii i tc) a n = (Ok tt, add_slot i (slot_of json_dumps_ascii tc) a, n).
Proof.
  intros Hf. assert (idx_key i ∉ od_keys (asm_tool_calls a)) as H by (apply Hf; lia).
  unfold process_tool_delta. mstep. mstep. erewrite bind_ok by (by apply ensure_slot_fresh). cbv beta.
  mstep. erewrite bind_ok by (by apply when_slot). cbv beta. mstep. mstep. erewrite bind_ok by (by apply when_slot). cbv beta.
  mstep. set (t := argument_text json_dumps_ascii tc).
  set (s1 := if truthy (tc_id tc) then set_id (JStr (tc_id tc)) empty_slot else empty_slot).
  set (s2 := if truthy (tc_name tc) then set_name (JStr (tc_name tc)) s1 else s1).
  transitivity (when (truthy t) (modify_slot (idx_key i) (add_args t)) (add_slot i s2 a) n); [reflexivity|].
  rewrite when_slot by done. do 3 f_equal. subst s2 s1 t. unfold slot_of.
  destruct (tc_id tc), (tc_name tc), (argument_text json_dumps_ascii tc); reflexivity.
Qed.

Lemma tool_deltas_run tcs i a n : fresh i a ->
  for_each (openai_tools json_dumps_ascii i tcs) process_tool_delta a n
  = (Ok tt, with_slots (asm_tool_calls a ++ slots_from json_dumps_ascii i tcs) a, n).
Proof.
  revert i a n. induction tcs as [|tc tcs IH]; intros i a n Hf; cbn [openai_tools for_each slots_from].
  - rewrite app_nil_r. by destruct a.
  - erewrite bind_ok by (by apply tool_delta_runs). cbv beta. rewrite IH by (by apply fresh_add).
    unfold add_slot. cbn [asm_tool_calls with_slots]. by rewrite <- app_assoc.
Qed.

(** What the assembler holds after an OpenAI chunk. *)
Definition answered_openai (r : NormalizedResponse) : WireStreamAssembler :=
  {| text_content := default "" (resp_content r);
     asm_reasoning_content := default "" (resp_reasoning_content r);
     asm_reasoning_signature := JNull;
     asm_tool_calls := slots_from json_dumps_ascii 0 (resp_tool_calls r);
     asm_finish_reason := if truthy (openai_finish r) then JStr (openai_finish r) else JNull |}.

Lemma openai_chunk_runs created r model data n :
  process_event {| ev_event := "message"; ev_data := data; json_data := openai_chunk json_dumps_ascii created r model; is_done := false |}
    new_assembler n = (Ok tt, answered_openai r, n).
Proof.
  unfold answered_openai. set (fin := openai_finish r). 
  transitivity ((when (truthy fin) (modify (with_finish (JStr fin))) ;;
    ct ← (py_get "content" (openai_delta json_dumps_ascii r) : W json);
    when (jtruthy ct) (append_text ct) ;;
    rc ← (py_get "reasoning_content" (openai_delta json_dumps_ascii r) : W json);
    when (jtruthy rc) (append_reasoning rc) ;;
    tcs ← (py_get_or "tool_calls" (JArr []) (openai_delta json_dumps_ascii r) : W json);
    l ← (py_iter tcs : W (list json));
    for_each l process_tool_delta) new_assembler n); [reflexivity|].
  assert (exists a0, when (truthy fin) (modify (with_finish (JStr fin)) : W unit) new_assembler n = (Ok tt, a0, n) /\
    a0 = with_finish (if truthy fin then JStr fin else JNull) new_assembler) as (a0 & E & Ha0) by (destruct (truthy fin); eauto).
  erewrite bind_ok by exact E. cbv beta. clear E.
  destruct (resp_content r) as [[|c1 s1]|] eqn:E1, (resp_reasoning_content r) as [[|c2 s2]|] eqn:E2, (resp_tool_calls r) as [|tc tcs] eqn:E3;
    unfold openai_delta, opt_field; rewrite E1, E2, E3; subst a0.
  all: try reflexivity.
  all: repeat mstep; rewrite tool_deltas_run; [reflexivity | intros j _; apply not_elem_of_nil].
Qed.
End openai.

Section openai_stream.
Context (json_dumps json_dumps_ascii : json -> string) (json_loads : string -> option json).
Context `{!JsonCodec json_dumps json_loads} `{!JsonCodec json_dumps_ascii json_loads}.

Lemma openai_tools_ok tcs i : forallb call_ok tcs = true -> forallb json_ok (openai_tools json_dumps_ascii i tcs) = true.
Proof.
  revert i. induction tcs as [|tc tcs IH]; intros i Hok; [done|]. apply andb_true_iff in Hok as [Htc Htcs].
  cbn [openai_tools forallb]. rewrite (IH _ Htcs), andb_true_r.
  pose proof (argument_text_utf8 json_dumps_ascii json_loads tc Htc). unfold call_ok in Htc. rewrite !andb_true_iff in Htc.
  destruct Htc as [[[? ?] ?] ?]. unfold openai_tool. jok.
Qed.

Lemma openai_chunk_ok created r model : response_ok r model = true ->
  json_ok (openai_chunk json_dumps_ascii created r model) = true.
Proof.
  unfold response_ok. rewrite !andb_true_iff. intros [[[[[[Hid Hm] Hc] Hr] _] Hf] Htcs].
  pose proof (prefixed_utf8 "chatcmpl-" _ eq_refl Hid). pose proof (openai_tools_ok _ 0 Htcs) as Hts.
  assert (utf8_valid (openai_finish r) = true) by (unfold openai_finish; by destruct (resp_tool_calls r)).
  assert (json_ok (openai_delta json_dumps_ascii r) = true) as Hd.
  { unfold openai_delta, opt_field.
    destruct (resp_content r) as [[|c1 s1]|], (resp_reasoning_content r) as [[|c2 s2]|], (resp_tool_calls r) as [|tc tcs];
      cbn [present]; unfold truthy; cbn [String.eqb negb app id] in *; jok. }
  unfold openai_chunk. jok.
Qed.

Lemma openai_events created r model : response_ok r model = true ->
  exists d e2, reference_events json_loads (join "" (synthesize_openai_sse json_dumps json_dumps_ascii created r model)) =
    [{| ev_event := "message"; ev_data := d; json_data := openai_chunk json_dumps_ascii created r model; is_done := false |}; e2] /\
    is_done e2 = true.
Proof.
  intros Hok%(openai_chunk_ok created). unfold reference_events, reference_run, synthesize_openai_sse. cbn [join].
  change ("" ++ ?x)%string with x. rewrite <- (app_string_nil (data_frame "[DONE]")).
  assert (tidy "[DONE]") as Hdone by tidy_name.
  unfold openai_chunk in *. rewrite run_data by (by apply (object_tidy json_loads)). rewrite run_data by done. cbn [lines_of run_lines fst].
  rewrite (object_not_done json_loads) by done. eexists _, _. split; [reflexivity | reflexivity].
Qed.
End openai_stream.

(** ** Theorems *)

(** C35: chunk boundaries do not matter.  Whatever the chunks a stream arrives in
    (cut inside a line, a CRLF or a multi-byte character), the parser yields the
    events of the reference that sees the whole stream, and is left with its
    pending event type and data lines, which [flush] completes. *)
Theorem feed_chunk_invariant loads chunks es p : feed_all loads chunks new_parser = (es, p) ->
  exists w, reference_run loads (join "" chunks) = (es, sp_event_type p, sp_data_lines p, w) /\
    (w = false -> sp_buffer p = (lines_of (join "" chunks)).2).
Proof.
  intros E. destruct (feed_all_tracks loads chunks "" [] new_parser) as (w & H1 & H2); [by exists false|].
  rewrite E in H1, H2. cbn [fst snd app] in *. change ("" ++ ?x)%string with x in *. exists w. split; [done|]. by intros ->.
Qed.

Lemma feed_chunk_invariant_witness :
  exists w, reference_run loads (join "" ["da"; "ta: {}"; String cr (String nl ""); String nl "x"]) =
    ([make_event loads "message" ["{}"]], "message", [], w) /\ (w = false -> "x" = "x").
Proof.
  exact (feed_chunk_invariant loads ["da"; "ta: {}"; String cr (String nl ""); String nl "x"]
    [make_event loads "message" ["{}"]] {| sp_buffer := "x"; sp_event_type := "message"; sp_data_lines := [] |} eq_refl).
Defined.

(** A complete line that is not UTF-8 stops the parser for good.  It is put
    back in front of the buffer to wait for more bytes, but the bytes that arrive
    go after its line feed, so it fails again on every later chunk: no event is
    yielded any more, and closing the stream drops the rest. *)
Theorem undecodable_line_wedges loads p chunks : undecodable (sp_buffer p) ->
  (feed_all loads chunks p).1 = [] /\ sp_data_lines (feed_all loads chunks p).2 = sp_data_lines p /\
  undecodable (sp_buffer (feed_all loads chunks p).2).
Proof.
  destruct p as [b et ds]. cbn [sp_buffer sp_data_lines]. revert b. induction chunks as [|c cs IH]; intros b Hb; [done|].
  cbn [feed_all]. destruct (undecodable_feed loads b c et ds Hb) as (b' & -> & Hb'). specialize (IH b' Hb').
  by destruct (feed_all loads cs _).
Qed.

Definition bad_line : string := String "d" (String (chr 255) (String nl "data: {}")).
Lemma undecodable_line_wedges_witness :
  let p := {| sp_buffer := bad_line; sp_event_type := "message"; sp_data_lines := [] |} in
  (feed_all loads [String nl (String nl "")] p).1 = [].
Proof.
  refine (proj1 (undecodable_line_wedges loads _ [String nl (String nl "")] _)).
  eexists _, _. split; [reflexivity | vm_compute; reflexivity].
Defined.

(** The events of a stream that is cut into [chunks]. *)
Lemma feed_all_events loads chunks : (feed_all loads chunks new_parser).1 = reference_events loads (join "" chunks).
Proof.
  destruct (feed_all_tracks loads chunks "" [] new_parser) as (w & H & _); [by exists false|].
  unfold reference_events. change ("" ++ ?x)%string with x in H. by rewrite H.
Qed.

Lemma assembled_slots dumps loads `{!JsonCodec dumps loads} idx tcs a :
  forallb call_ok tcs = true -> Forall (text_agrees loads) tcs -> asm_tool_calls a = slots_from dumps idx tcs ->
  assembled_tool_calls loads a = Ok (map expected_call tcs).
Proof.
  intros Hok Ht Ha. unfold assembled_tool_calls. rewrite Ha. destruct (slots_sorted dumps idx tcs) as [-> ->].
  f_equal. rewrite slots_calls. clear Ha. induction Ht as [|tc tcs Htc Ht IH]; [done|].
  apply andb_true_iff in Hok as [Hok1 Hok2]. cbn [map]. rewrite IH by done. f_equal.
  unfold expected_call, assembled_call. cbn. by rewrite (slot_arguments_text dumps loads).
Qed.

(** An answer replayed as a synthetic stream, in the Anthropic or the OpenAI
    format and cut into any chunks, is reassembled exactly: text, reasoning,
    signature, finish reason and, in order, every tool call with its identifier,
    name and arguments.  Only the Anthropic finish reason is not recovered. *)
Theorem replay_roundtrip dumps dumps_ascii loads `{!JsonCodec dumps loads} `{!JsonCodec dumps_ascii loads} created r model chunks :
  response_ok r model = true -> Forall (text_agrees loads) (resp_tool_calls r) ->
  (join "" chunks = join "" (synthesize_anthropic_sse dumps r model) ->
   exists a, process_events (feed_all loads chunks new_parser).1 new_assembler 0%nat = (Ok tt, a, 0%nat) /\
     text_content a = default "" (resp_content r) /\ asm_reasoning_content a = default "" (resp_reasoning_content r) /\
     asm_reasoning_signature a = match present (resp_reasoning_content r), present (resp_reasoning_signature r) with
                                 | Some _, Some sg => JStr sg | _, _ => JNull end /\
     asm_finish_reason a = JNull /\ assembled_tool_calls loads a = Ok (map expected_call (resp_tool_calls r))) /\
  (join "" chunks = join "" (synthesize_openai_sse dumps dumps_ascii created r model) ->
   exists a, process_events (feed_all loads chunks new_parser).1 new_assembler 0%nat = (Ok tt, a, 0%nat) /\
     text_content a = default "" (resp_content r) /\ asm_reasoning_content a = default "" (resp_reasoning_content r) /\
     asm_finish_reason a = (if truthy (openai_finish r) then JStr (openai_finish r) else JNull) /\
     assembled_tool_calls loads a = Ok (map expected_call (resp_tool_calls r))).
Proof.
  intros Hok Ht. assert (forallb call_ok (resp_tool_calls r) = true) as Hcalls.
  { unfold response_ok in Hok. rewrite !andb_true_iff in Hok. by destruct Hok. }
  split; intros E; rewrite feed_all_events, E.
  - destruct (synthesize_conveys dumps loads r model Hok) as (fs & -> & Hfs & Hrun).
    exists (answered dumps r). rewrite (run_frames loads dumps fs Hfs). split_and!; [by apply Hrun | done..|].
    by eapply (assembled_slots dumps).
  - destruct (openai_events dumps dumps_ascii loads created r model Hok) as (d & e2 & -> & He2).
    exists (answered_openai dumps_ascii r). split_and!; [|done..|].
    + unfold process_events. cbn [for_each]. erewrite bind_ok by apply openai_chunk_runs. cbv beta.
      unfold process_event at 1. by rewrite He2.
    + by eapply (assembled_slots dumps_ascii).
Qed.

Definition replay_demo : NormalizedResponse :=
  {| response_id := "r1"; resp_model := "m"; resp_content := Some "h"; resp_reasoning_content := Some "why";
     resp_reasoning_signature := Some "sig";
     resp_tool_calls := [{| tc_id := "c1"; tc_name := "ls"; tc_arguments := JObj [("a", JInt 1)]; raw_arguments := ""; tc_metadata := [] |}];
     finish_reason := "stop"; input_tokens := 3; output_tokens := 4; raw_response := None |}.
Definition demo_dumps : json -> string := dumps (fun _ => "0.0").
Lemma replay_roundtrip_witness :
  exists a, process_events (feed_all loads (synthesize_anthropic_sse demo_dumps replay_demo "m") new_parser).1 new_assembler 0%nat = (Ok tt, a, 0%nat) /\
    text_content a = "h" /\ asm_reasoning_content a = "why" /\ asm_reasoning_signature a = JStr "sig" /\ asm_finish_reason a = JNull /\
    assembled_tool_calls loads a = Ok [JObj [("id", JStr "c1"); ("name", JStr "ls"); ("arguments", JObj [("a", JInt 1)])]].
Proof.
  refine (proj1 (replay_roundtrip demo_dumps demo_dumps loads 0 replay_demo "m" (synthesize_anthropic_sse demo_dumps replay_demo "m") _ _) eq_refl).
  - vm_compute. reflexivity.
  - constructor; [|constructor]. split; [by eexists | by left].
Defined.

(** ** Interruptions *)

Definition interruption_name (protocol : string) : string :=
  if String.eqb protocol "anthropic" then "error" else "lcb.interrupted".

Section interruption.
Context (json_dumps : json -> string) (json_loads : string -> option json) `{!JsonCodec json_dumps json_loads}.
Context (protocol message endpoint_id : string).
Context (Hm : utf8_valid message = true) (He : utf8_valid endpoint_id = true).

Lemma payload_ok : exists fs, interruption_payload protocol message endpoint_id = JObj fs /\ json_ok (JObj fs) = true.
Proof.
  pose proof (utake_utf8 500 message Hm) as Hu. unfold interruption_payload, interruption_detail.
  destruct (String.eqb protocol "anthropic"); eexists; (split; [reflexivity | jok]).
Qed.

Lemma interruption_run et : exists rest, run_lines json_loads (lines_of (interruption_sse json_dumps protocol message endpoint_id)).1 et [] =
  ({| ev_event := interruption_name protocol; ev_data := json_dumps (interruption_payload protocol message endpoint_id);
      json_data := interruption_payload protocol message endpoint_id; is_done := false |} :: rest, "message", [], false) /\
  Forall (fun e => is_done e = true) rest.
Proof.
  destruct payload_ok as (fs & E & Hok). unfold interruption_sse, interruption_name. rewrite E.
  destruct (String.eqb protocol "anthropic").
  - rewrite <- (app_string_nil (frame _ _ _)). rewrite (run_frame json_loads) by (done || tidy_name). by eexists.
  - rewrite (run_frame json_loads) by (done || tidy_name). rewrite <- (app_string_nil (data_frame _)).
    rewrite run_data by tidy_name. eexists. split; [reflexivity|]. repeat constructor.
Qed.
End interruption.

(** An interruption sent between frames reaches the client as an explicit
    error event that carries its payload, and changes nothing of the answer
    assembled so far: a partial answer is never taken for a finished one. *)
Theorem interruption_is_explicit dumps loads `{!JsonCodec dumps loads} protocol message endpoint_id et a n :
  utf8_valid message = true -> utf8_valid endpoint_id = true ->
  exists e rest p', feed loads (interruption_sse dumps protocol message endpoint_id)
      {| sp_buffer := ""; sp_event_type := et; sp_data_lines := [] |} = (e :: rest, p') /\
    ev_event e = interruption_name protocol /\ json_data e = interruption_payload protocol message endpoint_id /\
    process_events (e :: rest) a n = (Ok tt, a, n).
Proof.
  intros Hm He. destruct (interruption_run dumps loads protocol message endpoint_id Hm He et) as (rest & Hrun & Hdone).
  set (text := interruption_sse dumps protocol message endpoint_id) in *.
  destruct (feed_loop_run loads (String.length text) {| sp_buffer := text; sp_event_type := et; sp_data_lines := [] |} ltac:(done) _ _ _ _ Hrun)
    as (b & Hf & _).
  eexists _, rest, _. split; [unfold feed; change (sp_buffer _ ++ text)%string with text; exact Hf|]. split_and!; [done..|].
  unfold process_events. cbn [for_each]. unfold interruption_name, interruption_payload.
  assert (for_each rest process_event a n = (Ok tt, a, n)) as Hrest.
  { clear -Hdone. induction Hdone as [|e rest He _ IH]; [done|]. cbn [for_each].
    erewrite bind_ok by (unfold process_event; rewrite He; reflexivity). apply IH. }
  destruct (String.eqb protocol "anthropic"); (rewrite (bind_ok _ _ a n tt a n); [exact Hrest | reflexivity]).
Qed.

Lemma interruption_is_explicit_witness :
  exists e rest p', feed loads (interruption_sse demo_dumps "openai" "reset" "ep1") new_parser = (e :: rest, p') /\
    ev_event e = "lcb.interrupted" /\ json_data e = interruption_payload "openai" "reset" "ep1" /\
    process_events (e :: rest) new_assembler 0%nat = (Ok tt, new_assembler, 0%nat).
Proof. exact (interruption_is_explicit demo_dumps loads "openai" "reset" "ep1" "message" new_assembler 0%nat eq_refl eq_refl). Defined.

(** The frames of an interruption, after the text of an unfinished line. *)
Lemma run_torn loads dumps `{!JsonCodec dumps loads} b name fs tail et ds : one_line b = true -> starts_with "data:" b = true ->
  tidy name -> json_ok (JObj fs) = true ->
  exists e, ev_event e = et /\
    run_lines loads (lines_of (b ++ frame dumps name (JObj fs) ++ tail)).1 et ds =
    let '(es, et', ds', w) := run_lines loads (lines_of tail).1 "message" [] in (e :: es, et', ds', w).
Proof.
  intros Hb Hd Hn Hok. pose proof (object_tidy loads dumps fs Hok) as Ht.
  destruct (tidy_line "data: " _ Ht eq_refl) as [Hp2 _].
  assert (one_line (b ++ "event: " ++ name) = true) as Hl by (apply one_line_app; [done|]; apply one_line_app; [done | apply Hn]).
  pose proof Hl as [Hp Hv]%andb_true_iff.
  replace (b ++ frame dumps name (JObj fs) ++ tail)%string
    with ((b ++ "event: " ++ name) ++ String nl (("data: " ++ dumps (JObj fs)) ++ String nl ("" ++ String nl tail)))%string.
  2: { unfold frame. rewrite !app_string_assoc. done. }
  apply prefix_true in Hd as [t Et].
  assert (exists d, line_step loads (b ++ "event: " ++ name) et ds = Some ([], et, ds ++ [d])) as [d Hstep].
  { unfold line_step, utf8_decode. rewrite Hv. cbn [mbind option_bind].
    assert (starts_with "data:" (b ++ "event: " ++ name) = true) as ->.
    { apply prefix_true. eexists. by rewrite Et, app_string_assoc. }
    rewrite Et, !app_string_assoc. by eexists. }
  rewrite run_line, Hstep, run_line, (step_data loads), run_line by done.
  exists (make_event loads et ((ds ++ [d]) ++ [dumps (JObj fs)])). split; [done|].
  assert (line_step loads "" et ((ds ++ [d]) ++ [dumps (JObj fs)]) =
    Some ([make_event loads et ((ds ++ [d]) ++ [dumps (JObj fs)])], "message", [])) as ->.
  { unfold line_step. cbn [truthy]. by destruct ds. }
  by destruct (run_lines loads (lines_of tail).1 "message" []) as [[[? ?] ?] ?].
Qed.

(** An interruption that arrives while a data line is unfinished is lost.
    The relay writes it after whatever bytes the provider had sent, so its event
    line is glued to the unfinished line: the client sees an event of the old
    type with unparsable data and no interruption event. *)
Theorem interruption_lost_midframe dumps loads `{!JsonCodec dumps loads} protocol message endpoint_id b et ds :
  utf8_valid message = true -> utf8_valid endpoint_id = true -> one_line b = true -> starts_with "data:" b = true ->
  Forall (fun e => ev_event e = et \/ is_done e = true)
    (feed loads (interruption_sse dumps protocol message endpoint_id)
       {| sp_buffer := b; sp_event_type := et; sp_data_lines := ds |}).1.
Proof.
  intros Hm He Hb Hd. destruct (payload_ok protocol message endpoint_id Hm He) as (fs & E & Hok).
  set (text := interruption_sse dumps protocol message endpoint_id).
  assert (exists es et' ds' w, run_lines loads (lines_of (b ++ text)).1 et ds = (es, et', ds', w) /\
    Forall (fun e => ev_event e = et \/ is_done e = true) es) as (es & et' & ds' & w & Hrun & Hes).
  { subst text. unfold interruption_sse. rewrite E. destruct (String.eqb protocol "anthropic").
    - rewrite <- (app_string_nil (frame _ _ _)).
      destruct (run_torn loads dumps b "error" fs "" et ds) as (e & He1 & ->); [done | done | tidy_name | done|].
      eexists _, _, _, _. split; [reflexivity|]. constructor; [by left | constructor].
    - rewrite <- (app_string_nil (data_frame _)).
      destruct (run_torn loads dumps b "lcb.interrupted" fs (data_frame "[DONE]" ++ "") et ds) as (e & He1 & ->);
        [done | done | tidy_name | done|].
      rewrite run_data by tidy_name. eexists _, _, _, _. split; [reflexivity|].
      constructor; [by left|]. constructor; [by right | constructor]. }
  destruct (feed_loop_run loads (String.length (b ++ text)) {| sp_buffer := (b ++ text)%string; sp_event_type := et; sp_data_lines := ds |}
    ltac:(done) _ _ _ _ Hrun) as (b' & Hf & _).
  unfold feed. cbn [sp_buffer sp_event_type sp_data_lines]. by rewrite Hf.
Qed.

Lemma interruption_lost_midframe_witness :
  Forall (fun e => ev_event e = "message" \/ is_done e = true)
    (feed loads (interruption_sse demo_dumps "openai" "reset" "ep1")
       {| sp_buffer := "data: {"; sp_event_type := "message"; sp_data_lines := [] |}).1.
Proof. apply (interruption_lost_midframe demo_dumps loads); reflexivity. Defined.
