(* ===== verification/CodecOpenAI.v ===== *)
(** * The OpenAI codec

    [src/durallm/protocol/openai.py]: Chat Completions payloads to and from the
    message records of [IR].

    [py_repr] is [str] of a value that is not a text, [json_dumps] is
    [json.dumps(_, ensure_ascii=False)], [uuid] the identifier drawn at a reading
    and [created] the second of the answer. *)

From stdpp Require Import base tactics list strings.
From Stdlib Require Import QArith Ascii.
From S2P Require Import Prelude PyText Utf8 Json PyDyn IR Sse.

Section openai_codec.
Context (py_repr : json -> string) (json_dumps : json -> string) (json_loads : string -> option json) (uuid : nat -> string).

(** [f"{prefix}{uuid.uuid4().hex[:len]}"] *)
Definition fresh_id {S} (prefix : string) (len : nat) : M dyn_error S string :=
  fun s n => (Ok (prefix ++ str_take len (uuid n))%string, s, Datatypes.S n).

Definition default_schema : json := JObj [("type", JStr "object"); ("properties", JObj [])].

(** ** Requests *)

(** Arguments that come as a dict or as text; text that does not parse gives no
    arguments. *)
Definition read_arguments (raw : json) : json * string :=
  if is_dict raw then (raw, json_dumps raw)
  else let s := py_str py_repr raw in (default (JObj []) (json_loads s), s).

Definition openai_tool_call {S} (tc : json) : M dyn_error S NormalizedToolCall :=
  fn ← py_get_or "function" (JObj []) tc;
  raw ← py_get_or "arguments" (JStr "{}") fn;
  let '(args, raw_str) := read_arguments raw in
  i ← py_get "id" tc;
  tid ← (if jtruthy i then want_str i else fresh_id "call_" 8);
  nm ← py_get_or "name" (JStr "") fn;
  name ← want_str nm;
  mret (make_tool_call json_dumps tid name args raw_str).
Definition openai_tool_calls {S} (msg : json) : M dyn_error S (list NormalizedToolCall) :=
  tcs ← py_get_or "tool_calls" (JArr []) msg;
  l ← py_iter tcs;
  map_m openai_tool_call l.

(** [msg.get("reasoning_content") or msg.get("thinking")] *)
Definition openai_reasoning {S} (msg : json) : M dyn_error S json :=
  rc ← py_get "reasoning_content" msg;
  if jtruthy rc then mret rc else py_get "thinking" msg.

Definition openai_tool_result {S} (msg content : json) : M dyn_error S NormalizedToolResult :=
  t ← py_get_or "tool_call_id" (JStr "") msg; tid ← want_str t;
  nm ← py_get "name" msg; name ← want_opt_str nm;
  mret {| tr_tool_call_id := tid; tr_tool_name := name; tr_content := py_str py_repr content; is_error := false |}.

(** One message, with the system instruction found so far. *)
Definition openai_message {S} (sys : option string) (msg : json) : M dyn_error S (option string * NormalizedMessage) :=
  role ← py_get_or "role" (JStr "user") msg;
  ct ← py_get_or "content" (JStr "") msg;
  let content := jor ct (JStr "") in
  reasoning ← openai_reasoning msg;
  let sys' := if jeqs "system" role && negb (truthy (default "" sys)) then Some (py_str py_repr content) else sys in
  calls ← openai_tool_calls msg;
  results ← (if jeqs "tool" role then r ← openai_tool_result msg content; mret [r] else mret []);
  nm ← py_get "name" msg; name ← want_opt_str nm;
  rl ← want_str role;
  mret (sys', {| role := rl; content := if jtruthy content then py_str py_repr content else "";
                 reasoning_content := if jtruthy reasoning then Some (py_str py_repr reasoning) else None;
                 reasoning_signature := None; tool_calls := calls; tool_results := results; msg_name := name;
                 msg_cache_control := None; msg_metadata := [] |}).
Fixpoint openai_messages {S} (sys : option string) (l : list json) : M dyn_error S (option string * list NormalizedMessage) :=
  match l with
  | [] => mret (sys, [])
  | msg :: l' =>
      p ← openai_message sys msg;
      rest ← openai_messages p.1 l';
      mret (rest.1, p.2 :: rest.2)
  end.

Definition openai_tool_def {S} (t : json) : M dyn_error S (list NormalizedToolDefinition) :=
  ty ← py_get "type" t;
  has ← (if jeqs "function" ty then py_in "function" t else mret false);
  if (has : bool) then
    fn ← py_item "function" t;
    nm ← py_get_or "name" (JStr "") fn; name ← want_str nm;
    ds ← py_get_or "description" (JStr "") fn; description ← want_str ds;
    params ← py_get_or "parameters" default_schema fn;
    mret [{| td_name := name; td_description := description; td_parameters := params; td_cache_control := None |}]
  else mret [].

Definition openai_request_to_ir {S} (body : json) : M dyn_error S NormalizedRequest :=
  req_id ← fresh_id "req_" 12;
  md ← py_get_or "model" (JStr "default") body; model ← want_str md;
  ms ← py_get_or "messages" (JArr []) body; l ← py_iter ms;
  p ← openai_messages None l;
  ts ← py_get_or "tools" (JArr []) body; tl ← py_iter ts;
  tools ← map_m openai_tool_def tl;
  choice ← py_get "tool_choice" body;
  mt ← py_get "max_tokens" body; mc ← py_get "max_completion_tokens" body; max_tokens ← want_opt_int (jor mt mc);
  tp ← py_get "temperature" body; temp ← want_opt_num tp;
  st ← py_get_or "stream" (JBool false) body;
  mret {| request_id := req_id; req_model := model; messages := p.2; system_instruction := p.1; system_cache_control := None;
          tools := concat tools; tool_choice := jopt choice; req_max_output_tokens := max_tokens; temperature := temp;
          stream := jtruthy st; req_metadata := [] |}.

Definition tool_choice_to_openai (tc : option json) : option json :=
  match tc with
  | Some (JStr s) => if existsb (String.eqb s) ["auto"; "required"; "none"] then Some (JStr s) else None
  | Some (JObj fs) =>
      let kind := default JNull (od_get "type" fs) in
      let name := default JNull (od_get "name" fs) in
      if jeqs "function" kind then Some (JObj fs)
      else if jeqs "auto" kind || jeqs "none" kind then Some kind
      else if jeqs "any" kind then Some (JStr "required")
      else if jeqs "tool" kind && jtruthy name
      then Some (JObj [("type", JStr "function"); ("function", JObj [("name", name)])])
      else None
  | _ => None
  end.

Definition call_arguments_text (tc : NormalizedToolCall) : string :=
  if truthy (raw_arguments tc) then raw_arguments tc else json_dumps (tc_arguments tc).
Definition openai_call (tc : NormalizedToolCall) : json :=
  JObj [("id", JStr (tc_id tc)); ("type", JStr "function");
        ("function", JObj [("name", JStr (tc_name tc)); ("arguments", JStr (call_arguments_text tc))])].

(** [tool_id_to_name] *)
Definition tool_names_by_id (ms : list NormalizedMessage) : odict string string :=
  foldl (fun d tc => if truthy (tc_id tc) && truthy (tc_name tc) then od_set (tc_id tc) (tc_name tc) d else d) []
    (concat (map tool_calls ms)).
(** [tr.tool_name or tool_id_to_name.get(tr.tool_call_id, "tool")] *)
Definition result_name (names : odict string string) (tr : NormalizedToolResult) : string :=
  match present (tr_tool_name tr) with Some s => s | None => default "tool" (od_get (tr_tool_call_id tr) names) end.
Definition openai_result (names : odict string string) (tr : NormalizedToolResult) : json :=
  JObj [("role", JStr "tool"); ("tool_call_id", JStr (tr_tool_call_id tr)); ("name", JStr (result_name names tr)); ("content", JStr (tr_content tr))].

Definition encode_message (names : odict string string) (m : NormalizedMessage) : list json :=
  if String.eqb (role m) "system" then [JObj [("role", JStr "system"); ("content", JStr (content m))]]
  else if String.eqb (role m) "user" then
    (if truthy (content m) then [JObj [("role", JStr "user"); ("content", JStr (content m))]] else []) ++
    map (openai_result names) (tool_results m)
  else if String.eqb (role m) "assistant" then
    [JObj ([("role", JStr "assistant"); ("content", if truthy (content m) then JStr (content m) else JNull)] ++
           opt_field "reasoning_content" (reasoning_content m) ++
           match tool_calls m with [] => [] | tcs => [("tool_calls", JArr (map openai_call tcs))] end)]
  else if String.eqb (role m) "tool" then
    map (openai_result names) (tool_results m) ++
    match tool_results m with [] => [JObj [("role", JStr "tool"); ("content", JStr (content m))]] | _ => [] end
  else [].

Definition openai_function (t : NormalizedToolDefinition) : json :=
  JObj [("type", JStr "function");
        ("function", JObj [("name", JStr (td_name t)); ("description", JStr (td_description t)); ("parameters", td_parameters t)])].

Definition encode_messages (req : NormalizedRequest) : list json :=
  let has_system := existsb (fun m => String.eqb (role m) "system") (messages req) in
  (if negb has_system then match present (system_instruction req) with
     | Some s => [JObj [("role", JStr "system"); ("content", JStr s)]] | None => [] end else []) ++
  concat (map (encode_message (tool_names_by_id (messages req))) (messages req)).

(** [if req.max_output_tokens: payload["max_tokens"] = ...] *)
Definition int_field (k : string) (o : option Z) : list (string * json) :=
  match o with Some z => if (z =? 0)%Z then [] else [(k, JInt z)] | None => [] end.
Definition num_field (k : string) (o : option Q) : list (string * json) :=
  match o with Some q => [(k, JFloat q)] | None => [] end.

Definition ir_to_openai_request (req : NormalizedRequest) (target_model : string) : json :=
  JObj ([("model", JStr target_model); ("messages", JArr (encode_messages req))] ++
        int_field "max_tokens" (req_max_output_tokens req) ++ num_field "temperature" (temperature req) ++
        (if stream req then [("stream", JBool true)] else []) ++
        match tools req with
        | [] => []
        | ts => [("tools", JArr (map openai_function ts))] ++
                match tool_choice_to_openai (tool_choice req) with Some c => [("tool_choice", c)] | None => [] end
        end).

(** ** Responses *)

Definition openai_response_to_ir {S} (resp : json) : M dyn_error S NormalizedResponse :=
  choices ← py_get_or "choices" (JArr []) resp;
  first ← (if jtruthy choices then py_first choices else mret (JObj []));
  msg ← py_get_or "message" (JObj []) first;
  ct ← py_get "content" msg; content ← want_opt_str ct;
  reasoning ← openai_reasoning msg;
  calls ← openai_tool_calls msg;
  fr ← py_get_or "finish_reason" (JStr "stop") first; finish ← want_str fr;
  usage ← py_get_or "usage" (JObj []) resp;
  fallback ← fresh_id "resp_" 12;
  ri ← py_get_or "id" (JStr fallback) resp; rid ← want_str ri;
  md ← py_get_or "model" (JStr "default") resp; model ← want_str md;
  rs ← want_opt_str reasoning;
  pt ← py_get_or "prompt_tokens" (JInt 0) usage; inp ← want_int pt;
  co ← py_get_or "completion_tokens" (JInt 0) usage; out ← want_int co;
  mret {| response_id := rid; resp_model := model; resp_content := content; resp_reasoning_content := rs;
          resp_reasoning_signature := None; resp_tool_calls := calls; finish_reason := finish; input_tokens := inp;
          output_tokens := out; raw_response := Some resp |}.

Definition ir_to_openai_response (created : Z) (resp : NormalizedResponse) (requested_model : string) : json :=
  let message := [("role", JStr "assistant"); ("content", match resp_content resp with Some s => JStr s | None => JNull end)] ++
    opt_field "reasoning_content" (resp_reasoning_content resp) ++
    match resp_tool_calls resp with [] => [] | tcs => [("tool_calls", JArr (map openai_call tcs))] end in
  JObj [("id", JStr (prefixed "chatcmpl-" (response_id resp))); ("object", JStr "chat.completion"); ("created", JInt created);
        ("model", JStr requested_model);
        ("choices", JArr [JObj [("index", JInt 0); ("message", JObj message); ("finish_reason", JStr (openai_finish resp))]]);
        ("usage", JObj [("prompt_tokens", JInt (input_tokens resp)); ("completion_tokens", JInt (output_tokens resp));
                        ("total_tokens", JInt (input_tokens resp + output_tokens resp))])].
End openai_codec.

(** ** A buffered event stream

    [sse_chunks_to_ir]: an upstream that answered with [data:] lines although it
    was asked for one document. *)

Record ChunkSlot : Type := { cs_id : json; cs_name : json; cs_arguments : string }.
Record ChunkState : Type := {
  content_parts : list json;
  reasoning_parts : list json;
  tool_calls_map : list (index_key * ChunkSlot);
  ch_finish_reason : json;
  ch_response_id : json;
  ch_model : json;
  prompt_tokens : json;
  completion_tokens : json;
}.

Section chunks.
Context (json_loads : string -> option json) (json_dumps : json -> string) (uuid : nat -> string).
Abbreviation K := (M dyn_error ChunkState).

Definition set_content l s : ChunkState :=
  {| content_parts := l; reasoning_parts := reasoning_parts s; tool_calls_map := tool_calls_map s; ch_finish_reason := ch_finish_reason s;
     ch_response_id := ch_response_id s; ch_model := ch_model s; prompt_tokens := prompt_tokens s; completion_tokens := completion_tokens s |}.
Definition set_reasoning l s : ChunkState :=
  {| content_parts := content_parts s; reasoning_parts := l; tool_calls_map := tool_calls_map s; ch_finish_reason := ch_finish_reason s;
     ch_response_id := ch_response_id s; ch_model := ch_model s; prompt_tokens := prompt_tokens s; completion_tokens := completion_tokens s |}.
Definition set_map m s : ChunkState :=
  {| content_parts := content_parts s; reasoning_parts := reasoning_parts s; tool_calls_map := m; ch_finish_reason := ch_finish_reason s;
     ch_response_id := ch_response_id s; ch_model := ch_model s; prompt_tokens := prompt_tokens s; completion_tokens := completion_tokens s |}.
Definition set_finish j s : ChunkState :=
  {| content_parts := content_parts s; reasoning_parts := reasoning_parts s; tool_calls_map := tool_calls_map s; ch_finish_reason := j;
     ch_response_id := ch_response_id s; ch_model := ch_model s; prompt_tokens := prompt_tokens s; completion_tokens := completion_tokens s |}.
Definition set_head i m s : ChunkState :=
  {| content_parts := content_parts s; reasoning_parts := reasoning_parts s; tool_calls_map := tool_calls_map s;
     ch_finish_reason := ch_finish_reason s; ch_response_id := i; ch_model := m; prompt_tokens := prompt_tokens s;
     completion_tokens := completion_tokens s |}.
Definition set_usage p c s : ChunkState :=
  {| content_parts := content_parts s; reasoning_parts := reasoning_parts s; tool_calls_map := tool_calls_map s;
     ch_finish_reason := ch_finish_reason s; ch_response_id := ch_response_id s; ch_model := ch_model s; prompt_tokens := p;
     completion_tokens := c |}.

(** [a += b] on the accumulated name. *)
Definition add_text (a b : json) : K json :=
  match a, b with JStr x, JStr y => mret (JStr (x ++ y)) | _, _ => raise Untyped end.

Definition change_slot (k : index_key) (f : ChunkSlot -> ChunkSlot) : K unit :=
  modify (fun s => match od_get k (tool_calls_map s) with Some c => set_map (od_set k (f c) (tool_calls_map s)) s | None => s end).

(** One tool-call fragment. *)
Definition chunk_tool (tc : json) : K unit :=
  idx ← py_get_or "index" (JInt 0) tc;
  k ← match index_of idx with Some k => mret k | None => raise TypeError end;
  s ← get;
  fn ← py_get_or "function" (JObj []) tc;
  match od_get k (tool_calls_map s) with
  | None =>
      i ← py_get "id" tc;
      tid ← (if jtruthy i then mret i else u ← fresh_id uuid "call_" 8; mret (JStr u));
      nm ← py_get_or "name" (JStr "") fn;
      modify (fun s => set_map (od_set k {| cs_id := tid; cs_name := nm; cs_arguments := "" |} (tool_calls_map s)) s)
  | Some c =>
      i ← py_get "id" tc;
      when (jtruthy i) (change_slot k (fun c => {| cs_id := i; cs_name := cs_name c; cs_arguments := cs_arguments c |})) ;;
      nm ← py_get "name" fn;
      when (jtruthy nm) (
        n2 ← add_text (cs_name c) nm;
        change_slot k (fun c => {| cs_id := cs_id c; cs_name := n2; cs_arguments := cs_arguments c |}))
  end ;;
  ar ← py_get "arguments" fn;
  when (jtruthy ar) (
    t ← py_text ar;
    change_slot k (fun c => {| cs_id := cs_id c; cs_name := cs_name c; cs_arguments := cs_arguments c ++ t |})).

Definition chunk_choice (choice : json) : K unit :=
  fr ← py_get "finish_reason" choice;
  when (jtruthy fr) (modify (set_finish fr)) ;;
  delta ← py_get_or "delta" (JObj []) choice;
  ct ← py_get "content" delta;
  when (jtruthy ct) (modify (fun s => set_content (content_parts s ++ [ct]) s)) ;;
  r1 ← py_get "reasoning" delta; r2 ← py_get "reasoning_content" delta;
  let reasoning := jor r1 r2 in
  when (jtruthy reasoning) (modify (fun s => set_reasoning (reasoning_parts s ++ [reasoning]) s)) ;;
  tcs ← py_get_or "tool_calls" (JArr []) delta;
  l ← py_iter tcs;
  for_each l chunk_tool.

(** One parsed chunk that is a dict. *)
Definition chunk_object (chunk : json) : K unit :=
  i ← py_get "id" chunk; m ← py_get "model" chunk;
  modify (fun s => set_head (jor i (ch_response_id s)) (jor m (ch_model s)) s) ;;
  u ← py_get "usage" chunk;
  when (is_dict u) (
    s ← get;
    p ← py_get_or "prompt_tokens" (prompt_tokens s) u;
    c ← py_get_or "completion_tokens" (completion_tokens s) u;
    modify (set_usage p c)) ;;
  cs ← py_get_or "choices" (JArr []) chunk;
  l ← py_iter cs;
  for_each l chunk_choice.

(** The loop over the lines; [break] at the end marker. *)
Fixpoint chunk_lines (ls : list string) : K unit :=
  match ls with
  | [] => mret tt
  | raw :: ls' =>
      let line := ustrip raw in
      if negb (truthy line) || starts_with ":" line then chunk_lines ls'
      else if starts_with "data:" line then
        let data := ustrip (str_drop 5 line) in
        if String.eqb data "[DONE]" then mret tt
        else match json_loads data with
             | Some (JObj fs) => chunk_object (JObj fs) ;; chunk_lines ls'
             | _ => chunk_lines ls'
             end
      else chunk_lines ls'
  end.

(** ["".join(parts)] *)
Definition join_parts {S} (l : list json) : M dyn_error S (option string) :=
  match l with
  | [] => mret None
  | _ => ts ← map_m py_text l; mret (Some (join "" ts))
  end.

Definition chunk_call {S} (c : ChunkSlot) : M dyn_error S NormalizedToolCall :=
  i ← want_str (cs_id c); n ← want_str (cs_name c);
  let raw := cs_arguments c in
  let args := if truthy raw then default (JObj []) (json_loads raw) else JObj [] in
  mret (make_tool_call json_dumps i n args raw).

Definition chunk_raw (rid model : json) (content : option string) (calls : list NormalizedToolCall) (fr p c : json) : json :=
  JObj [("id", rid); ("model", model);
        ("choices", JArr [JObj [("index", JInt 0);
           ("message", JObj [("role", JStr "assistant"); ("content", match content with Some s => JStr s | None => JNull end);
              ("tool_calls", match calls with
                 | [] => JNull
                 | _ => JArr (map (fun tc => JObj [("id", JStr (tc_id tc)); ("type", JStr "function");
                     ("function", JObj [("name", JStr (tc_name tc)); ("arguments", JStr (raw_arguments tc))])]) calls)
                 end)]);
           ("finish_reason", fr)]]);
        ("usage", JObj [("prompt_tokens", p); ("completion_tokens", c)])].

Definition slot_order (a b : index_key * ChunkSlot) : bool := default true (key_le a.1 b.1).

Definition finish_chunks : K NormalizedResponse :=
  s ← get;
  slots ← (if comparable (od_keys (tool_calls_map s)) then mret (sort_by slot_order (tool_calls_map s)) else raise TypeError);
  calls ← map_m (fun kc => chunk_call kc.2) slots;
  content ← join_parts (content_parts s);
  reasoning ← join_parts (reasoning_parts s);
  rid ← want_str (ch_response_id s); model ← want_str (ch_model s); fr ← want_str (ch_finish_reason s);
  p ← want_int (prompt_tokens s); c ← want_int (completion_tokens s);
  mret {| response_id := rid; resp_model := model; resp_content := content; resp_reasoning_content := reasoning;
          resp_reasoning_signature := None; resp_tool_calls := calls; finish_reason := fr; input_tokens := p; output_tokens := c;
          raw_response := Some (chunk_raw (JStr rid) (JStr model) content calls (JStr fr) (JInt p) (JInt c)) |}.

(** The state before the first line. *)
Definition start_chunks (rid default_model : string) : ChunkState :=
  {| content_parts := []; reasoning_parts := []; tool_calls_map := []; ch_finish_reason := JStr "stop"; ch_response_id := JStr rid;
     ch_model := JStr default_model; prompt_tokens := JInt 0; completion_tokens := JInt 0 |}.

Definition sse_chunks_to_ir (sse_text default_model : string) (n : nat) : res dyn_error NormalizedResponse :=
  let rid := ("resp_" ++ str_take 12 (uuid n))%string in
  out_res ((chunk_lines (usplitlines sse_text) ;; finish_chunks) (start_chunks rid default_model) (S n)).
End chunks.
