(* ===== verification/CodecOpenAIProps.v ===== *)
(** * Properties of the OpenAI codec

    Round trips of requests and answers, and two inputs real peers send that the
    decoders lose. *)

From stdpp Require Import base tactics list strings.
From Stdlib Require Import QArith Ascii.
From S2P Require Import Prelude PyText Utf8 Json JsonText PyDyn IR Sse CodecOpenAI.
Import JsonTextProps.

Section roundtrip.
Context (py_repr : json -> string) (json_dumps : json -> string) (json_loads : string -> option json) (uuid : nat -> string).

(** A call as the decoder rebuilds it: its text filled in, no annotations. *)
Definition canonical_call (tc : NormalizedToolCall) : NormalizedToolCall :=
  {| tc_id := tc_id tc; tc_name := tc_name tc; tc_arguments := tc_arguments tc;
     raw_arguments := call_arguments_text json_dumps tc; tc_metadata := [] |}.
(** A call with an identifier whose text stands for its arguments. *)
Definition call_faithful (tc : NormalizedToolCall) : Prop :=
  truthy (tc_id tc) = true /\ truthy (call_arguments_text json_dumps tc) = true /\
  json_loads (call_arguments_text json_dumps tc) = Some (tc_arguments tc).

Lemma make_tool_call_text i nm args raw : truthy raw = true ->
  make_tool_call json_dumps i nm args raw = {| tc_id := i; tc_name := nm; tc_arguments := args; raw_arguments := raw; tc_metadata := [] |}.
Proof. intros H. unfold make_tool_call. by rewrite H. Qed.

Lemma call_roundtrip {S} tc (s : S) n : call_faithful tc ->
  openai_tool_call py_repr json_dumps json_loads uuid (openai_call json_dumps tc) s n = (Ok (canonical_call tc), s, n).
Proof.
  intros (Hid & Ht & Hl). unfold openai_tool_call. mstep. mstep. cbn [default od_get].
  change (read_arguments py_repr json_dumps json_loads _) with
    (default (JObj []) (json_loads (call_arguments_text json_dumps tc)), call_arguments_text json_dumps tc).
  rewrite Hl. cbn [default from_option]. cbv beta iota. mstep. erewrite bind_ok.
  2: { change (jtruthy _) with (truthy (tc_id tc)). rewrite Hid. reflexivity. }
  cbv beta. mstep. mstep. unfold id. by rewrite make_tool_call_text.
Qed.

Lemma calls_roundtrip {S} tcs (s : S) n : Forall call_faithful tcs ->
  map_m (openai_tool_call py_repr json_dumps json_loads uuid) (map (openai_call json_dumps) tcs) s n = (Ok (map canonical_call tcs), s, n).
Proof.
  induction 1 as [|tc tcs Htc Htcs IH]; [done|]. cbn [map map_m]. rewrite (bind_ok _ _ _ _ _ _ _ (call_roundtrip tc s n Htc)). cbv beta.
  by rewrite (bind_ok _ _ _ _ _ _ _ IH).
Qed.

(** The [tool_calls] field of an assistant message. *)
Lemma tool_calls_field {S} fs tcs (s : S) n : Forall call_faithful tcs ->
  od_get "tool_calls" fs = match tcs with [] => None | _ => Some (JArr (map (openai_call json_dumps) tcs)) end ->
  openai_tool_calls py_repr json_dumps json_loads uuid (JObj fs) s n = (Ok (map canonical_call tcs), s, n).
Proof.
  intros Htcs Hf. unfold openai_tool_calls, py_get_or. rewrite Hf. erewrite bind_ok by reflexivity. cbv beta.
  destruct tcs as [|tc tcs]; [done|]. erewrite bind_ok by reflexivity. cbv beta. by apply calls_roundtrip.
Qed.

(** ** Answers *)

(** What an answer becomes when it is sent and read back. *)
Definition returned (created : Z) (r : NormalizedResponse) (model : string) : NormalizedResponse :=
  {| response_id := prefixed "chatcmpl-" (response_id r); resp_model := model; resp_content := resp_content r;
     resp_reasoning_content := present (resp_reasoning_content r); resp_reasoning_signature := None;
     resp_tool_calls := map canonical_call (resp_tool_calls r); finish_reason := openai_finish r;
     input_tokens := input_tokens r; output_tokens := output_tokens r;
     raw_response := Some (ir_to_openai_response json_dumps created r model) |}.

Lemma response_roundtrip {S} created r model (s : S) n : Forall call_faithful (resp_tool_calls r) ->
  openai_response_to_ir py_repr json_dumps json_loads uuid (ir_to_openai_response json_dumps created r model) s n
  = (Ok (returned created r model), s, Datatypes.S n).
Proof.
  intros Hc. unfold openai_response_to_ir.
  set (msg := JObj ([("role", JStr "assistant"); ("content", match resp_content r with Some s => JStr s | None => JNull end)] ++
    opt_field "reasoning_content" (resp_reasoning_content r) ++
    match resp_tool_calls r with [] => [] | tcs => [("tool_calls", JArr (map (openai_call json_dumps) tcs))] end)).
  mstep. erewrite (bind_ok _ _ _ _ (JObj [("index", JInt 0); ("message", msg); ("finish_reason", JStr (openai_finish r))])) by reflexivity.
  cbv beta. rewrite (bind_ok _ _ _ _ msg s n eq_refl). cbv beta.
  rewrite (bind_ok _ _ _ _ (match resp_content r with Some s => JStr s | None => JNull end) s n eq_refl). cbv beta.
  rewrite (bind_ok _ _ _ _ (resp_content r) s n) by (by destruct (resp_content r)). cbv beta.
  rewrite (bind_ok _ _ _ _ (match present (resp_reasoning_content r) with Some x => JStr x | None => JNull end) s n).
  2: { subst msg. unfold opt_field, openai_reasoning. destruct (resp_reasoning_content r) as [[|c x]|], (resp_tool_calls r); reflexivity. }
  cbv beta. rewrite (bind_ok _ _ _ _ (map canonical_call (resp_tool_calls r)) s n).
  2: { apply tool_calls_field; [done|]. unfold opt_field. destruct (resp_reasoning_content r) as [[|c x]|], (resp_tool_calls r); reflexivity. }
  cbv beta. do 8 mstep.
  rewrite (bind_ok _ _ _ _ (present (resp_reasoning_content r)) s (Datatypes.S n)) by (by destruct (present (resp_reasoning_content r))). cbv beta.
  reflexivity.
Qed.

(** ** Requests *)

(** A message without annotations. *)
Definition bare (r c : string) (reasoning : option string) (calls : list NormalizedToolCall) (results : list NormalizedToolResult)
    (name : option string) : NormalizedMessage :=
  {| role := r; content := c; reasoning_content := reasoning; reasoning_signature := None; tool_calls := calls;
     tool_results := results; msg_name := name; msg_cache_control := None; msg_metadata := [] |}.

(** A call that already carries the text of its arguments. *)
Definition settled_call (tc : NormalizedToolCall) : Prop :=
  truthy (tc_id tc) = true /\ truthy (raw_arguments tc) = true /\
  json_loads (raw_arguments tc) = Some (tc_arguments tc) /\ tc_metadata tc = [].

Lemma settled_canonical tc : settled_call tc -> call_faithful tc /\ canonical_call tc = tc.
Proof.
  intros (Hi & Hr & Hl & Hm). unfold call_faithful, canonical_call, call_arguments_text. rewrite Hr.
  split; [done|]. destruct tc; cbn in *. by subst.
Qed.
Lemma settled_calls tcs : Forall settled_call tcs -> Forall call_faithful tcs /\ map canonical_call tcs = tcs.
Proof.
  induction 1 as [|tc tcs Htc _ [IH1 IH2]]; [done|]. apply settled_canonical in Htc as [H1 H2].
  split; [by constructor|]. cbn [map]. by rewrite H2, IH2.
Qed.

(** The messages a Chat Completions conversation is made of. *)
Inductive openai_turn : NormalizedMessage -> Prop :=
  | turn_system c : openai_turn (bare "system" c None [] [] None)
  | turn_user c : truthy c = true -> openai_turn (bare "user" c None [] [] None)
  | turn_assistant c reasoning calls :
      present reasoning = reasoning -> Forall settled_call calls -> openai_turn (bare "assistant" c reasoning calls [] None)
  | turn_tool tid name c :
      truthy name = true ->
      openai_turn (bare "tool" c None []
        [{| tr_tool_call_id := tid; tr_tool_name := Some name; tr_content := c; is_error := false |}] (Some name)).

(** The system instruction after one more message. *)
Definition scan_system (sys : option string) (m : NormalizedMessage) : option string :=
  if String.eqb (role m) "system" && negb (truthy (default "" sys)) then Some (content m) else sys.

(** Each turn is encoded as one message, which reads back as the turn. *)
Lemma turn_roundtrip {S} m names sys (s : S) n : openai_turn m ->
  exists j, encode_message json_dumps names m = [j] /\
  openai_message py_repr json_dumps json_loads uuid sys j s n = (Ok (scan_system sys m, m), s, n).
Proof.
  destruct 1 as [c|c Hc|c reasoning calls Hr Hcs|tid name c Hn].
  - eexists. split; [reflexivity|]. by destruct c.
  - eexists. unfold encode_message. cbn [role content bare tool_results String.eqb Ascii.eqb Bool.eqb]. rewrite Hc.
    split; [reflexivity|]. by destruct c.
  - eexists. split; [reflexivity|]. apply settled_calls in Hcs as [Hf Hm].
    set (j := JObj _). unfold openai_message.
    rewrite (bind_ok _ _ _ _ (JStr "assistant") s n eq_refl). cbv beta.
    rewrite (bind_ok _ _ _ _ (if truthy c then JStr c else JNull) s n eq_refl). cbv beta.
    rewrite (bind_ok _ _ _ _ (match reasoning with Some x => JStr x | None => JNull end) s n).
    2: { subst j. destruct reasoning as [[|a x]|], calls; done. }
    cbv beta. rewrite (bind_ok _ _ _ _ (map canonical_call calls) s n).
    2: { apply tool_calls_field; [done|]. unfold opt_field. by destruct reasoning as [[|a x]|], calls. }
    cbv beta. mstep. rewrite (bind_ok _ _ _ _ JNull s n).
    2: { subst j. by destruct reasoning as [[|a x]|], calls. }
    cbv beta. mstep. mstep. rewrite Hm. by destruct c; destruct reasoning as [[|? ?]|].
  - eexists. unfold encode_message, openai_result, result_name, present.
    cbn [role content bare tool_results tr_tool_name tr_tool_call_id tr_content map app String.eqb Ascii.eqb Bool.eqb]. rewrite Hn.
    split; [reflexivity|]. by destruct c.
Qed.

Lemma turns_roundtrip {S} ms names sys (s : S) n : Forall openai_turn ms ->
  openai_messages py_repr json_dumps json_loads uuid sys (concat (map (encode_message json_dumps names) ms)) s n
  = (Ok (foldl scan_system sys ms, ms), s, n).
Proof.
  intros H. revert sys. induction H as [|m ms Hm _ IH]; intros sys; [done|]. cbn [map concat foldl].
  destruct (turn_roundtrip m names sys s n Hm) as (j & -> & Hj). cbn [app openai_messages].
  rewrite (bind_ok _ _ _ _ _ _ _ Hj). cbv beta. cbn [fst snd].
  by rewrite (bind_ok _ _ _ _ _ _ _ (IH (scan_system sys m))).
Qed.

Lemma function_roundtrip {S} t (s : S) n : td_cache_control t = None ->
  openai_tool_def (openai_function t) s n = (Ok [t], s, n).
Proof. intros H. destruct t. cbn in H. by subst. Qed.

Lemma functions_roundtrip {S} ts (s : S) n : Forall (fun t => td_cache_control t = None) ts ->
  map_m openai_tool_def (map openai_function ts) s n = (Ok (map (fun t => [t]) ts), s, n).
Proof.
  induction 1 as [|t ts Ht _ IH]; [done|]. cbn [map map_m]. rewrite (bind_ok _ _ _ _ _ _ _ (function_roundtrip t s n Ht)).
  cbv beta. by rewrite (bind_ok _ _ _ _ _ _ _ IH).
Qed.

(** A request as a Chat Completions client means it. *)
Record openai_shaped (req : NormalizedRequest) : Prop := {
  shaped_turns : Forall openai_turn (messages req);
  shaped_system : system_instruction req = foldl scan_system None (messages req);
  shaped_tools : Forall (fun t => td_cache_control t = None) (tools req);
  shaped_choice : tool_choice req = match tools req with [] => None | _ => tool_choice_to_openai (tool_choice req) end;
  shaped_limit : req_max_output_tokens req <> Some 0%Z;
  shaped_bare : system_cache_control req = None /\ req_metadata req = [];
}.

Definition readdressed (i model : string) (r : NormalizedRequest) : NormalizedRequest :=
  {| request_id := i; req_model := model; messages := messages r; system_instruction := system_instruction r;
     system_cache_control := system_cache_control r; tools := tools r; tool_choice := tool_choice r;
     req_max_output_tokens := req_max_output_tokens r; temperature := temperature r; stream := stream r; req_metadata := req_metadata r |}.

Lemma no_system_scan ms : existsb (fun m => String.eqb (role m) "system") ms = false -> foldl scan_system None ms = None.
Proof.
  induction ms as [|m ms IH]; [done|]. cbn [existsb foldl]. intros [H1 H2]%orb_false_iff. unfold scan_system at 2. rewrite H1. by apply IH.
Qed.

Lemma no_prefix req : openai_shaped req -> encode_messages json_dumps req =
  concat (map (encode_message json_dumps (tool_names_by_id (messages req))) (messages req)).
Proof.
  intros [_ Hs _ _ _ _]. unfold encode_messages. destruct (existsb _ (messages req)) eqn:E; [done|].
  by rewrite Hs, (no_system_scan _ E).
Qed.

(** What the encoder writes after the messages. *)
Definition option_fields (req : NormalizedRequest) : list (string * json) :=
  int_field "max_tokens" (req_max_output_tokens req) ++ num_field "temperature" (temperature req) ++
  (if stream req then [("stream", JBool true)] else []) ++
  match tools req with
  | [] => []
  | ts => [("tools", JArr (map openai_function ts))] ++
          match tool_choice_to_openai (tool_choice req) with Some c => [("tool_choice", c)] | None => [] end
  end.

Lemma option_fields_get req : openai_shaped req ->
  let get k := od_get k (option_fields req) in
  get "model" = None /\ get "messages" = None /\ get "max_completion_tokens" = None /\
  get "max_tokens" = JInt <$> req_max_output_tokens req /\ get "temperature" = JFloat <$> temperature req /\
  get "stream" = (if stream req then Some (JBool true) else None) /\
  get "tools" = match tools req with [] => None | ts => Some (JArr (map openai_function ts)) end /\
  get "tool_choice" = tool_choice req.
Proof.
  intros [_ _ _ Hc Hl _] get. subst get. unfold option_fields, int_field, num_field.
  destruct (req_max_output_tokens req) as [z|]; [destruct (z =? 0)%Z eqn:E; [apply Z.eqb_eq in E; by subst|]|];
    destruct (tools req); rewrite <- ?Hc; destruct (temperature req), (stream req), (tool_choice req); done.
Qed.

Lemma jopt_choice req c : openai_shaped req -> tool_choice req = Some c -> jopt c = Some c.
Proof.
  intros [_ _ _ Hc _ _] E. destruct (tools req); [congruence|]. rewrite E in Hc. by destruct c.
Qed.

Lemma request_roundtrip {S} req model (s : S) n : openai_shaped req ->
  openai_request_to_ir py_repr json_dumps json_loads uuid (ir_to_openai_request json_dumps req model) s n
  = (Ok (readdressed ("req_" ++ str_take 12 (uuid n)) model req), s, Datatypes.S n).
Proof.
  intros H. pose proof (option_fields_get req H) as (_ & _ & Fmc & Fmt & Ft & Fs & Ftl & Fc).
  pose proof (no_prefix req H) as Hp. assert (Hj : forall c, tool_choice req = Some c -> jopt c = Some c) by (intros; by eapply jopt_choice).
  destruct H as [Hm Hs Ht Hc Hl [Hsc Hmd]].
  set (fs := ("model", JStr model) :: ("messages", JArr (encode_messages json_dumps req)) :: option_fields req).
  change (ir_to_openai_request json_dumps req model) with (JObj fs).
  unfold openai_request_to_ir, py_get. do 5 mstep.
  rewrite Hp. erewrite bind_ok by (by apply turns_roundtrip). cbv beta.
  assert (Ftl' : default (JArr []) (od_get "tools" fs) = JArr (map openai_function (tools req))).
  { change (od_get "tools" fs) with (od_get "tools" (option_fields req)). rewrite Ftl. by destruct (tools req). }
  rewrite (bind_ok _ _ _ _ _ _ _ (get_ok _ _ _ _ _ _ Ftl')). cbv beta. mstep.
  erewrite bind_ok by (by apply functions_roundtrip). cbv beta.
  read_field Fc. read_field Fmt. read_field Fmc.
  erewrite (bind_ok _ _ _ _ (req_max_output_tokens req)) by (by destruct (req_max_output_tokens req) as [[| |]|]). cbv beta.
  read_field Ft. erewrite (bind_ok _ _ _ _ (temperature req)) by (by destruct (temperature req)). cbv beta. read_field Fs.
  unfold mret, M_ret, readdressed. rewrite concat_singletons, Hs, Hsc, Hmd. do 4 f_equal.
  - destruct (tool_choice req) as [c|] eqn:E; [by apply Hj|done].
  - by destruct (stream req).
Qed.
End roundtrip.

(** ** Claims *)

(** C21: a conversation in Chat Completions form survives the trip to an upstream
    of that dialect: reading the encoded request gives the same messages, tool
    calls, results, reasoning, system instruction, tools, choice, limits and
    sampling, under a fresh request id and the target model. *)
Theorem openai_request_roundtrip py_repr json_dumps json_loads uuid {S} req model (s : S) n :
  openai_shaped json_loads req ->
  openai_request_to_ir py_repr json_dumps json_loads uuid (ir_to_openai_request json_dumps req model) s n
  = (Ok (readdressed ("req_" ++ str_take 12 (uuid n)) model req), s, Datatypes.S n).
Proof. apply request_roundtrip. Qed.

(** an answer written for an OpenAI client reads back as the answer: content,
    reasoning, every tool call with the text of its arguments, token counts, and
    the finish reason [tool_calls] whenever it calls a tool.  With Python's JSON
    codec any call whose arguments are a value of it is preserved, also one that
    came without the text. *)
Theorem openai_response_roundtrip py_repr dumps loads `{!JsonCodec dumps loads} uuid {S} created r model (s : S) n :
  Forall (fun tc => truthy (tc_id tc) = true /\
    (raw_arguments tc = "" /\ is_dict (tc_arguments tc) = true /\ json_ok (tc_arguments tc) = true \/
     truthy (raw_arguments tc) = true /\ loads (raw_arguments tc) = Some (tc_arguments tc))) (resp_tool_calls r) ->
  openai_response_to_ir py_repr dumps loads uuid (ir_to_openai_response dumps created r model) s n
  = (Ok (returned dumps created r model), s, Datatypes.S n).
Proof.
  intros H. apply response_roundtrip. eapply Forall_impl; [exact H|]. intros tc [Hi Ha]. cbv beta.
  unfold call_faithful, call_arguments_text. split; [done|]. destruct Ha as [(Er & Hd & Hok)|[Hr Hl]].
  - rewrite Er. destruct (tc_arguments tc) as [| | | | | |fs]; try done. cbn [truthy].
    split; [by destruct (codec_object (dumps := dumps) fs) as [t ->] | by apply codec_roundtrip].
  - by rewrite Hr.
Qed.

(** a message whose [tool_calls] is [null] (how the API itself writes an
    assistant turn without calls) is refused with a [TypeError], by the request
    and by the response decoder, although the code defaults a missing field. *)
Theorem null_tool_calls_crash py_repr json_dumps json_loads uuid {S} c tail (s : S) n :
  let msg := JObj [("role", JStr "assistant"); ("content", JStr c); ("tool_calls", JNull)] in
  out_res (openai_request_to_ir py_repr json_dumps json_loads uuid
    (JObj [("model", JStr "m"); ("messages", JArr (msg :: tail))]) s n) = Raise TypeError /\
  out_res (openai_response_to_ir py_repr json_dumps json_loads uuid
    (JObj [("choices", JArr [JObj [("message", msg); ("finish_reason", JStr "stop")]])]) s n) = Raise TypeError.
Proof. split; by destruct c. Qed.

(** a user message in content parts (the multimodal form of the API) is not
    read: its text becomes Python's rendering of the list of parts, and that text
    is what the upstream is sent. *)
Theorem content_parts_stringified py_repr json_dumps json_loads uuid {S} p parts model (s : S) n :
  truthy (py_repr (JArr (p :: parts))) = true ->
  let body := JObj [("model", JStr "m"); ("messages", JArr [JObj [("role", JStr "user"); ("content", JArr (p :: parts))]])] in
  exists req, openai_request_to_ir py_repr json_dumps json_loads uuid body s n = (Ok req, s, Datatypes.S n) /\
  encode_messages json_dumps req = [JObj [("role", JStr "user"); ("content", JStr (py_repr (JArr (p :: parts))))]] /\
  ir_to_openai_request json_dumps req model = JObj [("model", JStr model); ("messages", JArr (encode_messages json_dumps req))].
Proof.
  intros Hr body. set (text := py_repr (JArr (p :: parts))) in *.
  exists {| request_id := "req_" ++ str_take 12 (uuid n); req_model := "m"; messages := [bare "user" text None [] [] None];
    system_instruction := None; system_cache_control := None; tools := []; tool_choice := None; req_max_output_tokens := None;
    temperature := None; stream := false; req_metadata := [] |}.
  split; [reflexivity|]. split; [|reflexivity]. by destruct text.
Qed.

(** ** Witnesses *)

Definition no_repr (j : json) : string := "?".
Definition fixed_uuid (n : nat) : string := "0123456789abcdef".
Definition demo_call : NormalizedToolCall :=
  {| tc_id := "call_1"; tc_name := "ls"; tc_arguments := JObj [("path", JStr "/")]; raw_arguments := dumps (fun _ => "0.0") (JObj [("path", JStr "/")]);
     tc_metadata := [] |}.
Definition demo_request : NormalizedRequest :=
  {| request_id := "r"; req_model := "m";
     messages := [bare "system" "be brief" None [] [] None; bare "user" "list" None [] [] None;
       bare "assistant" "" (Some "hm") [demo_call] [] None;
       bare "tool" "a b" None [] [{| tr_tool_call_id := "call_1"; tr_tool_name := Some "ls"; tr_content := "a b"; is_error := false |}] (Some "ls")];
     system_instruction := Some "be brief"; system_cache_control := None;
     tools := [{| td_name := "ls"; td_description := "lists"; td_parameters := default_schema; td_cache_control := None |}];
     tool_choice := Some (JStr "auto"); req_max_output_tokens := Some 256%Z; temperature := Some (1 # 2)%Q; stream := true; req_metadata := [] |}.
Definition demo_answer : NormalizedResponse :=
  {| response_id := "x"; resp_model := "m"; resp_content := Some "ok"; resp_reasoning_content := None; resp_reasoning_signature := None;
     resp_tool_calls := [demo_call; {| tc_id := "call_2"; tc_name := "ls"; tc_arguments := JObj []; raw_arguments := ""; tc_metadata := [] |}];
     finish_reason := "stop"; input_tokens := 3%Z; output_tokens := 4%Z; raw_response := None |}.

Lemma demo_shaped : openai_shaped loads demo_request.
Proof.
  assert (settled_call loads demo_call) by (by repeat split).
  split; try done; [|by constructor].
  constructor; [constructor|]. constructor; [by constructor|]. constructor; [constructor; [done|]; by constructor|].
  constructor; [by constructor | constructor].
Qed.

Lemma openai_request_roundtrip_witness :
  openai_shaped loads demo_request /\
  out_res (openai_request_to_ir no_repr (dumps (fun _ => "0.0")) loads fixed_uuid
    (ir_to_openai_request (dumps (fun _ => "0.0")) demo_request "m2") tt 0%nat)
  = Ok (readdressed "req_0123456789ab" "m2" demo_request).
Proof.
  split; [exact demo_shaped|]. unfold out_res.
  by rewrite (openai_request_roundtrip no_repr (dumps (fun _ => "0.0")) loads fixed_uuid demo_request "m2" tt 0%nat demo_shaped).
Defined.

Lemma openai_response_roundtrip_witness :
  openai_response_to_ir no_repr (dumps (fun _ => "0.0")) loads fixed_uuid (ir_to_openai_response (dumps (fun _ => "0.0")) 1 demo_answer "m") tt 0%nat
  = (Ok (returned (dumps (fun _ => "0.0")) 1 demo_answer "m"), tt, 1%nat).
Proof.
  apply (openai_response_roundtrip no_repr (dumps (fun _ => "0.0")) loads). constructor; [|constructor; [|constructor]].
  - split; [done|]. by right.
  - split; [done|]. by left.
Defined.

Lemma content_parts_stringified_witness :
  exists req, openai_request_to_ir no_repr (dumps (fun _ => "0.0")) loads fixed_uuid
    (JObj [("model", JStr "m"); ("messages", JArr [JObj [("role", JStr "user"); ("content", JArr [JObj [("type", JStr "text"); ("text", JStr "hi")]])]])]) tt 0%nat
  = (Ok req, tt, 1%nat) /\
  encode_messages (dumps (fun _ => "0.0")) req = [JObj [("role", JStr "user"); ("content", JStr "?")]] /\
  ir_to_openai_request (dumps (fun _ => "0.0")) req "m" = JObj [("model", JStr "m"); ("messages", JArr (encode_messages (dumps (fun _ => "0.0")) req))].
Proof. apply (content_parts_stringified no_repr (dumps (fun _ => "0.0")) loads fixed_uuid (JObj [("type", JStr "text"); ("text", JStr "hi")]) []). reflexivity. Defined.
