(* ===== verification/CodecAnthropic.v ===== *)
(** * The Anthropic codec

    [src/durallm/protocol/anthropic.py]: Messages payloads to and from the
    message records of [IR].  Parameters as in [CodecOpenAI]. *)

From stdpp Require Import base tactics list strings.
From Stdlib Require Import QArith Ascii.
From S2P Require Import Prelude PyText Utf8 Json PyDyn IR Sse CodecOpenAI.

Section anthropic_codec.
Context (py_repr : json -> string) (json_dumps : json -> string) (uuid : nat -> string).

Definition newline : string := String nl "".
(** ["\n".join(parts)]; a part that is not a text raises. *)
Definition join_lines {S} (l : list json) : M dyn_error S string :=
  ts ← map_m py_text l; mret (join newline ts).

Definition block_is (ty : string) (b : json) : bool :=
  match b with JObj fs => jeqs ty (default JNull (od_get "type" fs)) | _ => false end.
Definition block_field (k : string) (d : json) (b : json) : json :=
  match b with JObj fs => default d (od_get k fs) | _ => d end.

(** ** Requests *)

(** The system prompt and its cache annotation. *)
Definition read_system {S} (raw : json) : M dyn_error S (option string * option json) :=
  match raw with
  | JStr s => mret (if truthy s then Some s else None, None)
  | JArr l =>
      let parts := map (block_field "text" (JStr "")) (filter (fun b => block_is "text" b = true) l) in
      text ← match parts with [] => mret None | _ => t ← join_lines parts; mret (Some t) end;
      mret (text, block_field "cache_control" JNull <$> find (fun b => jtruthy (block_field "cache_control" JNull b)) l)
  | _ => mret (None, None)
  end.

Definition read_tool_def {S} (t : json) : M dyn_error S (list NormalizedToolDefinition) :=
  if is_dict t then
    nm ← py_get_or "name" (JStr "") t; name ← want_str nm;
    ds ← py_get_or "description" (JStr "") t; description ← want_str ds;
    params ← py_get_or "input_schema" default_schema t;
    cache ← py_get "cache_control" t;
    mret [{| td_name := name; td_description := description; td_parameters := params; td_cache_control := jopt cache |}]
  else mret [].

(** What the loop over the content blocks of a message has gathered. *)
Record Blocks : Type := {
  bl_text : list json;
  bl_reasoning : list json;
  bl_signatures : list json;
  bl_calls : list NormalizedToolCall;
  bl_results : list NormalizedToolResult;
  bl_cache : option json;
}.
Definition no_blocks : Blocks :=
  {| bl_text := []; bl_reasoning := []; bl_signatures := []; bl_calls := []; bl_results := []; bl_cache := None |}.

Definition read_tool_use {S} (b : json) : M dyn_error S NormalizedToolCall :=
  i ← py_get "id" b;
  tid ← (if jtruthy i then want_str i else fresh_id uuid "toolu_" 8);
  nm ← py_get_or "name" (JStr "") b; name ← want_str nm;
  tinput ← py_get_or "input" (JObj []) b;
  mret (if is_dict tinput then make_tool_call json_dumps tid name tinput (json_dumps tinput)
        else make_tool_call json_dumps tid name (JObj []) (py_str py_repr tinput)).

Definition read_tool_result {S} (b : json) : M dyn_error S NormalizedToolResult :=
  t ← py_get_or "tool_use_id" (JStr "") b; tid ← want_str t;
  c ← py_get_or "content" (JStr "") b;
  text ← match c with
         | JArr l => join_lines (map (block_field "text" (JStr "")) (filter (fun x => is_dict x = true) l))
         | _ => mret (py_str py_repr c)
         end;
  e ← py_get_or "is_error" (JBool false) b;
  mret {| tr_tool_call_id := tid; tr_tool_name := None; tr_content := text; is_error := jtruthy e |}.

Definition with_cache (c : json) (a : Blocks) : Blocks :=
  {| bl_text := bl_text a; bl_reasoning := bl_reasoning a; bl_signatures := bl_signatures a; bl_calls := bl_calls a;
     bl_results := bl_results a; bl_cache := if jtruthy c then Some c else bl_cache a |}.

(** One content block. *)
Definition read_block {S} (a : Blocks) (b : json) : M dyn_error S Blocks :=
  if is_dict b then
    let a := with_cache (block_field "cache_control" JNull b) a in
    if block_is "text" b then
      mret {| bl_text := bl_text a ++ [block_field "text" (JStr "") b]; bl_reasoning := bl_reasoning a; bl_signatures := bl_signatures a;
              bl_calls := bl_calls a; bl_results := bl_results a; bl_cache := bl_cache a |}
    else if block_is "thinking" b then
      let sg := block_field "signature" JNull b in
      mret {| bl_text := bl_text a; bl_reasoning := bl_reasoning a ++ [block_field "thinking" (JStr "") b];
              bl_signatures := if jtruthy sg then bl_signatures a ++ [sg] else bl_signatures a;
              bl_calls := bl_calls a; bl_results := bl_results a; bl_cache := bl_cache a |}
    else if block_is "tool_use" b then
      tc ← read_tool_use b;
      mret {| bl_text := bl_text a; bl_reasoning := bl_reasoning a; bl_signatures := bl_signatures a;
              bl_calls := bl_calls a ++ [tc]; bl_results := bl_results a; bl_cache := bl_cache a |}
    else if block_is "tool_result" b then
      tr ← read_tool_result b;
      mret {| bl_text := bl_text a; bl_reasoning := bl_reasoning a; bl_signatures := bl_signatures a;
              bl_calls := bl_calls a; bl_results := bl_results a ++ [tr]; bl_cache := bl_cache a |}
    else mret a
  else mret a.
Fixpoint read_blocks {S} (a : Blocks) (l : list json) : M dyn_error S Blocks :=
  match l with [] => mret a | b :: l' => a' ← read_block a b; read_blocks a' l' end.

Definition plain_message (r c : string) : NormalizedMessage :=
  {| role := r; content := c; reasoning_content := None; reasoning_signature := None; tool_calls := []; tool_results := [];
     msg_name := None; msg_cache_control := None; msg_metadata := [] |}.

(** The message of the gathered blocks; a signature survives only with its one
    thinking block. *)
Definition blocks_message {S} (r : string) (a : Blocks) : M dyn_error S NormalizedMessage :=
  text ← match bl_text a with [] => mret "" | l => join_lines l end;
  reasoning ← match bl_reasoning a with [] => mret None | l => t ← join_lines l; mret (Some t) end;
  sg ← match bl_reasoning a, bl_signatures a with [_], x :: _ => t ← want_str x; mret (Some t) | _, _ => mret None end;
  mret {| role := r; content := text; reasoning_content := reasoning; reasoning_signature := sg; tool_calls := bl_calls a;
          tool_results := bl_results a; msg_name := None; msg_cache_control := bl_cache a; msg_metadata := [] |}.

Definition anthropic_message {S} (msg : json) : M dyn_error S NormalizedMessage :=
  rl ← py_get_or "role" (JStr "user") msg; r ← want_str rl;
  c ← py_get "content" msg;
  match c with
  | JStr s => mret (plain_message r s)
  | JArr l => a ← read_blocks no_blocks l; blocks_message r a
  | _ => mret (plain_message r (py_str py_repr (jor c (JStr ""))))
  end.

Definition anthropic_request_to_ir {S} (body : json) : M dyn_error S NormalizedRequest :=
  req_id ← fresh_id uuid "req_" 12;
  md ← py_get_or "model" (JStr "auto-coding-agent") body; model ← want_str md;
  raw_system ← py_get "system" body;
  sys ← read_system raw_system;
  ts ← py_get_or "tools" (JArr []) body; tl ← py_iter ts;
  tools ← map_m read_tool_def tl;
  ms ← py_get_or "messages" (JArr []) body; l ← py_iter ms;
  messages ← map_m anthropic_message l;
  choice ← py_get "tool_choice" body;
  mt ← py_get "max_tokens" body; max_tokens ← want_opt_int mt;
  tp ← py_get "temperature" body; temp ← want_opt_num tp;
  st ← py_get_or "stream" (JBool false) body;
  mret {| request_id := req_id; req_model := model; messages := messages; system_instruction := sys.1; system_cache_control := sys.2;
          tools := concat tools; tool_choice := jopt choice; req_max_output_tokens := max_tokens; temperature := temp;
          stream := jtruthy st; req_metadata := [] |}.

Definition tool_choice_to_anthropic {S} (tc : option json) : M dyn_error S (option json) :=
  match tc with
  | Some (JStr s) =>
      mret (od_get s [("auto", JObj [("type", JStr "auto")]); ("required", JObj [("type", JStr "any")]); ("none", JObj [("type", JStr "none")])])
  | Some (JObj fs) =>
      let kind := default JNull (od_get "type" fs) in
      if jeqs "auto" kind || jeqs "any" kind || jeqs "tool" kind || jeqs "none" kind then mret (Some (JObj fs))
      else if jeqs "function" kind then
        name ← py_get "name" (jor (default JNull (od_get "function" fs)) (JObj []));
        mret (if jtruthy name then Some (JObj [("type", JStr "tool"); ("name", name)]) else None)
      else mret None
  | _ => mret None
  end.

(** [if x: d[k] = x] *)
Definition truthy_field (k : string) (o : option json) : list (string * json) :=
  match o with Some j => if jtruthy j then [(k, j)] else [] | None => [] end.

Definition tool_entry (t : NormalizedToolDefinition) : json :=
  JObj ([("name", JStr (td_name t)); ("description", JStr (td_description t)); ("input_schema", td_parameters t)] ++
        truthy_field "cache_control" (td_cache_control t)).

Definition thinking_block (r sg : option string) : list json :=
  match present r, present sg with
  | Some t, Some g => [JObj [("type", JStr "thinking"); ("thinking", JStr t); ("signature", JStr g)]]
  | _, _ => []
  end.
Definition text_block (c : string) : list json := if truthy c then [JObj [("type", JStr "text"); ("text", JStr c)]] else [].
Definition tool_use_block (tc : NormalizedToolCall) : json :=
  JObj [("type", JStr "tool_use"); ("id", JStr (tc_id tc)); ("name", JStr (tc_name tc)); ("input", tc_arguments tc)].
Definition tool_result_block (tr : NormalizedToolResult) : json :=
  JObj [("type", JStr "tool_result"); ("tool_use_id", JStr (tr_tool_call_id tr)); ("content", JStr (tr_content tr)); ("is_error", JBool (is_error tr))].
Definition content_blocks (m : NormalizedMessage) : list json :=
  thinking_block (reasoning_content m) (reasoning_signature m) ++ text_block (content m) ++
  map tool_use_block (tool_calls m) ++ map tool_result_block (tool_results m).

(** [content_blocks[-1]["cache_control"] = m.cache_control] *)
Definition annotate (c : json) (b : json) : json :=
  match b with JObj fs => JObj (od_set "cache_control" c fs) | _ => b end.
Fixpoint annotate_last (c : json) (l : list json) : list json :=
  match l with [] => [] | [b] => [annotate c b] | b :: l' => b :: annotate_last c l' end.

Definition anthropic_turn (m : NormalizedMessage) : json :=
  let blocks := match msg_cache_control m with
                | Some c => if jtruthy c then annotate_last c (content_blocks m) else content_blocks m
                | None => content_blocks m end in
  JObj [("role", JStr (role m)); ("content", match blocks with [] => JStr (content m) | _ => JArr blocks end)].

Definition is_system (m : NormalizedMessage) : bool := String.eqb (role m) "system".

(** [payload["system"]], from the instruction or else from the first system
    message; the second is set after the other keys. *)
Definition system_field (req : NormalizedRequest) : list (string * json) :=
  match present (system_instruction req) with
  | Some s => [("system", match system_cache_control req with
      | Some c => if jtruthy c then JArr [JObj [("type", JStr "text"); ("text", JStr s); ("cache_control", c)]] else JStr s
      | None => JStr s end)]
  | None => []
  end.
Definition late_system_field (req : NormalizedRequest) : list (string * json) :=
  match present (system_instruction req) with
  | Some _ => []
  | None => match find is_system (messages req) with Some m => [("system", JStr (content m))] | None => [] end
  end.

Definition ir_to_anthropic_request {S} (req : NormalizedRequest) (target_model : string) : M dyn_error S json :=
  choice ← match tools req with [] => mret None | _ => tool_choice_to_anthropic (tool_choice req) end;
  mret (JObj ([("model", JStr target_model);
               ("messages", JArr (map anthropic_turn (filter (fun m => is_system m = false) (messages req))))] ++
              system_field req ++
              int_field "max_tokens" (req_max_output_tokens req) ++ num_field "temperature" (temperature req) ++
              (if stream req then [("stream", JBool true)] else []) ++
              match tools req with [] => [] | ts => [("tools", JArr (map tool_entry ts))] end ++
              match choice with Some c => [("tool_choice", c)] | None => [] end ++
              late_system_field req)).

(** ** Answers *)

Definition answer_call {S} (tc : NormalizedToolCall) : M dyn_error S json :=
  i ← (if truthy (tc_id tc) then mret (tc_id tc) else fresh_id uuid "toolu_" 8);
  mret (JObj [("type", JStr "tool_use"); ("id", JStr i); ("name", JStr (tc_name tc)); ("input", tc_arguments tc)]).

Definition ir_to_anthropic_response {S} (r : NormalizedResponse) (requested_model : string) : M dyn_error S json :=
  calls ← map_m answer_call (resp_tool_calls r);
  let blocks := thinking_block (resp_reasoning_content r) (resp_reasoning_signature r) ++
                text_block (default "" (resp_content r)) ++ calls in
  mret (JObj [("id", JStr (prefixed "msg_" (response_id r))); ("type", JStr "message"); ("role", JStr "assistant");
              ("model", JStr requested_model); ("content", JArr blocks); ("stop_reason", JStr (anthropic_stop (finish_reason r)));
              ("stop_sequence", JNull);
              ("usage", JObj [("input_tokens", JInt (input_tokens r)); ("output_tokens", JInt (output_tokens r))])]).
End anthropic_codec.

From S2P Require Import JsonText CodecOpenAIProps.
Import JsonTextProps.

(** ** Properties of the Anthropic codec *)
Module CodecAnthropicProps.

Section roundtrip.
Context (py_repr : json -> string) (json_dumps : json -> string) (uuid : nat -> string).
Abbreviation reader := (read_blocks py_repr json_dumps uuid).

(** A call whose text is the rendering of its arguments. *)
Definition rendered_call (tc : NormalizedToolCall) : Prop :=
  truthy (tc_id tc) = true /\ is_dict (tc_arguments tc) = true /\ raw_arguments tc = json_dumps (tc_arguments tc) /\ tc_metadata tc = [].

(** A message as a Messages client means it. *)
Record anthropic_shape (m : NormalizedMessage) : Prop := {
  shape_role : is_system m = false;
  shape_thinking : reasoning_content m = None /\ reasoning_signature m = None \/
    exists t g, reasoning_content m = Some t /\ reasoning_signature m = Some g /\ truthy t = true /\ truthy g = true;
  shape_calls : Forall rendered_call (tool_calls m);
  shape_results : Forall (fun tr => tr_tool_name tr = None) (tool_results m);
  shape_bare : msg_name m = None /\ msg_metadata m = [];
  shape_cache : forall c, msg_cache_control m = Some c -> jtruthy c = true /\ content_blocks m <> [];
}.

Lemma read_blocks_app {S} l1 l2 a (s : S) n : reader a (l1 ++ l2) s n =
  (a' ← reader a l1; reader a' l2) s n.
Proof.
  revert a s n. induction l1 as [|b l1 IH]; intros a s n; [done|]. cbn [app read_blocks].
  unfold mbind, M_bind. destruct (read_block _ _ _ a b s n) as [[[a'|e] s'] n']; [|done]. by rewrite IH.
Qed.

Definition put (text reasoning sigs : list json) calls results (a : Blocks) : Blocks :=
  {| bl_text := bl_text a ++ text; bl_reasoning := bl_reasoning a ++ reasoning; bl_signatures := bl_signatures a ++ sigs;
     bl_calls := bl_calls a ++ calls; bl_results := bl_results a ++ results; bl_cache := bl_cache a |}.
Lemma put_nil a : put [] [] [] [] [] a = a.
Proof. unfold put. rewrite !app_nil_r. by destruct a. Qed.
Lemma put_put x1 x2 x3 x4 x5 y1 y2 y3 y4 y5 a : put y1 y2 y3 y4 y5 (put x1 x2 x3 x4 x5 a) = put (x1 ++ y1) (x2 ++ y2) (x3 ++ y3) (x4 ++ y4) (x5 ++ y5) a.
Proof. unfold put. cbn. by rewrite !(assoc_L (++)). Qed.
Lemma with_null_cache a : with_cache JNull a = a.
Proof. by destruct a. Qed.

Lemma read_calls {S} tcs a (s : S) n : Forall rendered_call tcs ->
  reader a (map tool_use_block tcs) s n = (Ok (put [] [] [] tcs [] a), s, n).
Proof.
  intros H. revert a. induction H as [|tc tcs (Hi & Hd & Hr & Hm) _ IH]; intros a; [by rewrite put_nil|].
  cbn [map read_blocks]. erewrite (bind_ok _ _ _ _ (put [] [] [] [tc] [] a)).
  - rewrite IH, put_put. done.
  - unfold read_block. change (is_dict _) with true. change (block_is "text" _) with false. change (block_is "thinking" _) with false.
    change (block_is "tool_use" (tool_use_block tc)) with true. change (block_field "cache_control" JNull (tool_use_block tc)) with JNull. rewrite with_null_cache. cbv iota zeta.
    erewrite (bind_ok _ _ _ _ tc).
    + unfold put. by rewrite !app_nil_r.
    + unfold read_tool_use. mstep. change (jtruthy _) with (truthy (tc_id tc)). rewrite Hi. do 4 mstep.
      change (default (JObj []) _) with (tc_arguments tc). rewrite Hd. unfold mret, M_ret, make_tool_call. do 3 f_equal.
      destruct tc; cbn in *. subst. by destruct (negb _ && _).
Qed.

Lemma read_results {S} trs a (s : S) n : Forall (fun tr => tr_tool_name tr = None) trs ->
  reader a (map tool_result_block trs) s n = (Ok (put [] [] [] [] trs a), s, n).
Proof.
  intros H. revert a. induction H as [|tr trs Ht _ IH]; intros a; [by rewrite put_nil|].
  cbn [map read_blocks]. erewrite (bind_ok _ _ _ _ (put [] [] [] [] [tr] a)).
  - rewrite IH, put_put. done.
  - unfold put. rewrite !app_nil_r. destruct tr, a. cbn in Ht. by subst.
Qed.

Lemma read_thinking {S} r g a (s : S) n :
  r = None /\ g = None \/ (exists t h, r = Some t /\ g = Some h /\ truthy t = true /\ truthy h = true) ->
  reader a (thinking_block r g) s n = (Ok (put [] (JStr <$> option_list r) (JStr <$> option_list g) [] [] a), s, n).
Proof.
  intros [[-> ->]|(t & h & -> & -> & Ht & Hh)]; [by rewrite put_nil|]. unfold thinking_block, present. rewrite Ht, Hh.
  unfold put. rewrite !app_nil_r. destruct a, h; done.
Qed.
Lemma read_text {S} c a (s : S) n : reader a (text_block c) s n = (Ok (put (if truthy c then [JStr c] else []) [] [] [] [] a), s, n).
Proof. destruct c; [by rewrite put_nil|]. unfold put. rewrite !app_nil_r. by destruct a. Qed.

Definition gathered (m : NormalizedMessage) : Blocks :=
  put (if truthy (content m) then [JStr (content m)] else []) (JStr <$> option_list (reasoning_content m))
    (JStr <$> option_list (reasoning_signature m)) (tool_calls m) (tool_results m) no_blocks.

Lemma read_content {S} m (s : S) n : anthropic_shape m -> reader no_blocks (content_blocks m) s n = (Ok (gathered m), s, n).
Proof.
  intros [_ Ht Hc Hr _ _]. unfold content_blocks. rewrite read_blocks_app. erewrite bind_ok by (by apply read_thinking). cbv beta.
  rewrite read_blocks_app. erewrite bind_ok by apply read_text. cbv beta.
  rewrite read_blocks_app. erewrite bind_ok by (by apply read_calls). cbv beta.
  rewrite read_results by done. rewrite !put_put, ?app_nil_r. done.
Qed.

(** The annotation of a block is read as the annotation of its message. *)
Lemma read_annotated {S} c fs a (s : S) n : jtruthy c = true -> od_get "cache_control" fs = None ->
  read_block py_repr json_dumps uuid a (annotate c (JObj fs)) s n =
  (a' ← read_block py_repr json_dumps uuid a (JObj fs); mret (with_cache c a')) s n.
Proof.
  intros Hc Hf. unfold annotate, read_block, read_tool_use, read_tool_result, py_get, py_get_or, block_is, block_field, is_dict.
  rewrite od_get_set_eq, Hf, !(od_get_set_ne fs _ "cache_control") by done. cbn [default]. rewrite with_null_cache.
  destruct (jeqs "text" _); [done|]. destruct (jeqs "thinking" _); [done|].
  destruct (jeqs "tool_use" _); [|destruct (jeqs "tool_result" _); [|done]];
    match goal with |- (?m ≫= _) s n = _ => generalize m end; intros mm; unfold mbind, M_bind; by destruct (mm s n) as [[[x|e] s'] n'].
Qed.

Definition unannotated (b : json) : Prop := exists fs, b = JObj fs /\ od_get "cache_control" fs = None.

Lemma read_annotated_last {S} c l a a' (s : S) n s' n' : jtruthy c = true -> Forall unannotated l -> l <> [] ->
  reader a l s n = (Ok a', s', n') -> reader a (annotate_last c l) s n = (Ok (with_cache c a'), s', n').
Proof.
  intros Hc Hl. revert a s n. induction Hl as [|b l (fs & -> & Hf) Hl IH]; intros a s n Hne H; [done|].
  cbn [read_blocks] in H. destruct l as [|b2 l].
  - cbn [annotate_last read_blocks]. cbn [read_blocks] in H.
    apply bind_inv in H as (a1 & s1 & n1 & Hb & [= <- <- <-]).
    rewrite (bind_ok _ _ _ _ (with_cache c a1) s1 n1); [done|]. rewrite read_annotated by done. by rewrite (bind_ok _ _ _ _ _ _ _ Hb).
  - apply bind_inv in H as (a1 & s1 & n1 & Hb & H). change (annotate_last c (JObj fs :: b2 :: l)) with (JObj fs :: annotate_last c (b2 :: l)).
    cbn [read_blocks]. rewrite (bind_ok _ _ _ _ _ _ _ Hb). cbv beta. by apply IH.
Qed.

Lemma content_unannotated m : Forall unannotated (content_blocks m).
Proof.
  unfold content_blocks. repeat (apply Forall_app; split).
  - unfold thinking_block. destruct (present (reasoning_content m)), (present (reasoning_signature m)); repeat constructor. by eexists.
  - unfold text_block. destruct (truthy (content m)); repeat constructor. by eexists.
  - apply Forall_map, Forall_true. intros. by eexists.
  - apply Forall_map, Forall_true. intros. by eexists.
Qed.

(** The gathered blocks make the message again. *)
Lemma gathered_message {S} m (s : S) n : anthropic_shape m ->
  blocks_message (role m) (match msg_cache_control m with Some c => with_cache c (gathered m) | None => gathered m end) s n = (Ok m, s, n).
Proof.
  intros [_ Ht _ _ [Hn Hm] Hc].
  assert (forall cc, cc = msg_cache_control m ->
    bl_cache (match cc with Some c => with_cache c (gathered m) | None => gathered m end) = cc) as Hcc.
  { intros [c|] E; [|done]. destruct (Hc c (eq_sym E)) as [H _]. cbn. by rewrite H. }
  specialize (Hcc _ eq_refl). unfold blocks_message. rewrite Hcc. destruct m as [r c rc rs tcs trs nm cc md]. cbn in *. subst.
  destruct Ht as [[-> ->]|(t & g & -> & -> & Htt & Hg)]; destruct c, cc; done.
Qed.

(** A message without blocks is sent as its empty text. *)
Lemma empty_message m : anthropic_shape m -> content_blocks m = [] -> msg_cache_control m = None -> m = plain_message (role m) (content m).
Proof.
  intros [_ Ht _ _ [Hn Hm] _] E Ecc. unfold content_blocks in E.
  apply app_eq_nil in E as [Et [_ [Ec Er]%app_eq_nil]%app_eq_nil]. apply map_eq_nil in Ec, Er.
  destruct m as [r c rc rs tcs trs nm cc md]. cbn in *. subst. destruct Ht as [[-> ->]|(t & g & -> & -> & H1 & H2)]; [done|].
  unfold thinking_block, present in Et. by rewrite H1, H2 in Et.
Qed.

Lemma message_roundtrip {S} m (s : S) n : anthropic_shape m ->
  anthropic_message py_repr json_dumps uuid (anthropic_turn m) s n = (Ok m, s, n).
Proof.
  intros H. pose proof (gathered_message m s n H) as Hg. pose proof (read_content m s n H) as Hr. pose proof (shape_cache _ H) as Hc.
  unfold anthropic_turn. destruct (msg_cache_control m) as [c|] eqn:Ecc.
  - destruct (Hc c eq_refl) as [Ht Hne]. rewrite Ht.
    pose proof (read_annotated_last c (content_blocks m) no_blocks _ s n s n Ht (content_unannotated m) Hne Hr) as Ha.
    assert (annotate_last c (content_blocks m) <> []) as Hne'.
    { destruct (content_blocks m) as [|b [|b2 l]]; done. }
    destruct (annotate_last c (content_blocks m)) as [|b l]; [done|].
    unfold anthropic_message. do 3 mstep. change (default JNull _) with (JArr (b :: l)).
    cbv iota. by rewrite (bind_ok _ _ _ _ _ _ _ Ha).
  - destruct (content_blocks m) as [|b l] eqn:E.
    + transitivity (Ok (E := dyn_error) (plain_message (role m) (content m)), s, n); [done | by rewrite <- empty_message].
    + unfold anthropic_message. do 3 mstep. change (default JNull _) with (JArr (b :: l)). cbv iota.
      by rewrite (bind_ok _ _ _ _ _ _ _ Hr).
Qed.

(** A request as a Messages client means it. *)
Record anthropic_shaped (req : NormalizedRequest) : Prop := {
  ashaped_messages : Forall anthropic_shape (messages req);
  ashaped_system : present (system_instruction req) = system_instruction req;
  ashaped_cache : forall c, system_cache_control req = Some c -> jtruthy c = true /\ system_instruction req <> None;
  ashaped_tools : Forall (fun t => forall c, td_cache_control t = Some c -> jtruthy c = true) (tools req);
  ashaped_choice : tool_choice req = None \/
    tools req <> [] /\ exists fs, tool_choice req = Some (JObj fs) /\
      (let kind := default JNull (od_get "type" fs) in jeqs "auto" kind || jeqs "any" kind || jeqs "tool" kind || jeqs "none" kind) = true;
  ashaped_limit : req_max_output_tokens req <> Some 0%Z;
  ashaped_bare : req_metadata req = [];
}.

Lemma messages_roundtrip {S} ms (s : S) n : Forall anthropic_shape ms ->
  map_m (anthropic_message py_repr json_dumps uuid) (map anthropic_turn (filter (fun m => is_system m = false) ms)) s n = (Ok ms, s, n).
Proof.
  induction 1 as [|m ms Hm _ IH]; [done|]. rewrite filter_cons_True by apply Hm. cbn [map map_m].
  rewrite (bind_ok _ _ _ _ _ _ _ (message_roundtrip m s n Hm)). cbv beta. by rewrite (bind_ok _ _ _ _ _ _ _ IH).
Qed.

Lemma tool_roundtrip {S} t (s : S) n : (forall c, td_cache_control t = Some c -> jtruthy c = true) ->
  read_tool_def (tool_entry t) s n = (Ok [t], s, n).
Proof.
  intros H. unfold tool_entry, truthy_field. destruct t as [nm ds ps [c|]]; cbn in H; [|done].
  specialize (H c eq_refl). cbn [td_cache_control]. rewrite H. by destruct c.
Qed.
Lemma tools_roundtrip {S} ts (s : S) n : Forall (fun t => forall c, td_cache_control t = Some c -> jtruthy c = true) ts ->
  map_m read_tool_def (map tool_entry ts) s n = (Ok (map (fun t => [t]) ts), s, n).
Proof.
  induction 1 as [|t ts Ht _ IH]; [done|]. cbn [map map_m]. rewrite (bind_ok _ _ _ _ _ _ _ (tool_roundtrip t s n Ht)).
  cbv beta. by rewrite (bind_ok _ _ _ _ _ _ _ IH).
Qed.
Definition sent_fields (req : NormalizedRequest) : list (string * json) :=
  system_field req ++ int_field "max_tokens" (req_max_output_tokens req) ++ num_field "temperature" (temperature req) ++
  (if stream req then [("stream", JBool true)] else []) ++
  match tools req with [] => [] | ts => [("tools", JArr (map tool_entry ts))] end ++
  match tool_choice req with Some c => [("tool_choice", c)] | None => [] end.

Lemma no_late_system req : anthropic_shaped req -> late_system_field req = [].
Proof.
  intros [Hm _ _ _ _ _ _]. unfold late_system_field. destruct (present _); [done|].
  induction Hm as [|m ms H _ IH]; [done|]. cbn [find]. by rewrite (shape_role _ H).
Qed.

Lemma encode_shaped {S} req model (s : S) n : anthropic_shaped req ->
  ir_to_anthropic_request req model s n =
  (Ok (JObj (("model", JStr model) :: ("messages", JArr (map anthropic_turn (filter (fun m => is_system m = false) (messages req)))) :: sent_fields req)), s, n).
Proof.
  intros H. pose proof (no_late_system req H) as Hl. destruct H as [_ _ _ _ Hc _ _]. unfold ir_to_anthropic_request, sent_fields. rewrite Hl.
  rewrite (bind_ok _ _ _ _ (tool_choice req) s n); [by rewrite app_nil_r|].
  destruct Hc as [->|(Hne & fs & -> & Hk)]; destruct (tools req); try done. cbv zeta in Hk. unfold tool_choice_to_anthropic. cbv zeta. by rewrite Hk.
Qed.

Lemma sent_fields_get req : anthropic_shaped req ->
  let get k := od_get k (sent_fields req) in
  get "system" = snd <$> head (system_field req) /\
  get "max_tokens" = JInt <$> req_max_output_tokens req /\ get "temperature" = JFloat <$> temperature req /\
  get "stream" = (if stream req then Some (JBool true) else None) /\
  get "tools" = match tools req with [] => None | ts => Some (JArr (map tool_entry ts)) end /\
  get "tool_choice" = tool_choice req.
Proof.
  intros [_ _ _ _ _ Hl _] get. subst get. unfold sent_fields, int_field, num_field, system_field.
  assert (forall z, req_max_output_tokens req = Some z -> (z =? 0)%Z = false) as Hz.
  { intros z E. apply Z.eqb_neq. intros ->. done. }
  destruct (req_max_output_tokens req) as [z|]; [rewrite (Hz z eq_refl)|];
    destruct (present _), (tools req), (temperature req), (stream req), (tool_choice req); done.
Qed.

Lemma system_roundtrip {S} req (s : S) n : anthropic_shaped req ->
  read_system (default JNull (snd <$> head (system_field req))) s n = (Ok (system_instruction req, system_cache_control req), s, n).
Proof.
  intros [_ Hs Hc _ _ _ _]. unfold system_field. rewrite Hs. destruct (system_instruction req) as [t|] eqn:E.
  - assert (truthy t = true) as Ht by (unfold present in Hs; destruct (truthy t); done).
    destruct (system_cache_control req) as [c|] eqn:Ec.
    + destruct (Hc c eq_refl) as [Hj _]. rewrite Hj. cbn [head fmap option_fmap option_map snd default from_option id]. unfold read_system.
      rewrite (bind_ok _ _ _ _ (Some t) s n) by reflexivity. cbn [find]. change (jtruthy (block_field _ _ _)) with (jtruthy c). by rewrite Hj.
    + transitivity (Ok (E := dyn_error) (if truthy t then Some t else None, None : option json), s, n); [done | by rewrite Ht].
  - destruct (system_cache_control req) as [c|] eqn:Ec; [|done]. by destruct (Hc c eq_refl).
Qed.

Lemma arequest_roundtrip {S} req model (s : S) n j : anthropic_shaped req ->
  ir_to_anthropic_request req model s n = (Ok j, s, n) ->
  anthropic_request_to_ir py_repr json_dumps uuid j s n
  = (Ok (readdressed ("req_" ++ str_take 12 (uuid n)) model req), s, Datatypes.S n).
Proof.
  intros H. rewrite (encode_shaped req model s n H). intros [= <-].
  pose proof (sent_fields_get req H) as (Fsys & Fmt & Ft & Fs & Ftl & Fc).
  pose proof (system_roundtrip req s (Datatypes.S n) H) as Hsys.
  destruct H as [Hm _ _ Ht Hc _ Hmd].
  set (fs := ("model", _) :: _).
  unfold anthropic_request_to_ir, py_get. do 3 mstep.
  read_field Fsys. rewrite (bind_ok _ _ _ _ _ _ _ Hsys). cbv beta.
  assert (Ftl' : default (JArr []) (od_get "tools" fs) = JArr (map tool_entry (tools req))).
  { change (od_get "tools" fs) with (od_get "tools" (sent_fields req)). rewrite Ftl. by destruct (tools req). }
  rewrite (bind_ok _ _ _ _ _ _ _ (get_ok _ _ _ _ _ _ Ftl')). cbv beta. mstep.
  erewrite bind_ok by (by apply tools_roundtrip). cbv beta. do 2 mstep.
  erewrite bind_ok by (by apply messages_roundtrip). cbv beta.
  read_field Fc. read_field Fmt.
  erewrite (bind_ok _ _ _ _ (req_max_output_tokens req)) by (by destruct (req_max_output_tokens req)). cbv beta.
  read_field Ft. erewrite (bind_ok _ _ _ _ (temperature req)) by (by destruct (temperature req)). cbv beta. read_field Fs.
  unfold mret, M_ret, readdressed. rewrite concat_singletons, Hmd. do 4 f_equal.
  - by destruct Hc as [->|(_ & k & -> & _)].
  - by destruct (stream req).
Qed.
End roundtrip.

End CodecAnthropicProps.
