(* ===== verification/CodecGemini.v ===== *)
(** * The Gemini codec

    [src/durallm/protocol/gemini.py]: tool schemas for the Gemini schema message,
    [generateContent] requests, and answers.

    [py_repr] is [str] of a value that is not a text, [json_dumps] is
    [json.dumps(_, ensure_ascii=False)], [body_digest] the hexadecimal SHA-1 of the
    answer rendered with sorted keys. *)

From stdpp Require Import base tactics list strings.
From Stdlib Require Import QArith Ascii.
From S2P Require Import Prelude PyText Utf8 Json PyDyn IR Sse CodecOpenAI.

(** [str.upper()] on ASCII text. *)
Definition ascii_upper (c : ascii) : ascii := if ((97 <=? code c) && (code c <=? 122))%nat then chr (code c - 32) else c.
Fixpoint py_upper (s : string) : string :=
  match s with EmptyString => EmptyString | String c s' => String (ascii_upper c) (py_upper s') end.

(** ** Schemas *)

Definition GEMINI_TYPE_MAP : odict string string :=
  [("object", "OBJECT"); ("string", "STRING"); ("integer", "INTEGER"); ("number", "NUMBER"); ("boolean", "BOOLEAN"); ("array", "ARRAY")].
Definition GEMINI_PROHIBITED_KEYS : list string :=
  ["$schema"; "additionalProperties"; "default"; "title"; "$id"; "$comment"; "examples"; "definitions"; "$defs"].
Definition MAX_REF_DEPTH : nat := 8.

Definition object_schema : json := JObj [("type", JStr "OBJECT")].

Definition resolve_local_ref (ref : string) (definitions : list (string * json)) : option (list (string * json)) :=
  match split_on "/" ref with
  | [a; b; c] =>
      if String.eqb a "#" && (String.eqb b "$defs" || String.eqb b "definitions") then
        match od_get c definitions with Some (JObj fs) => Some fs | _ => None end
      else None
  | _ => None
  end.

(** [{**a, **b}] *)
Definition od_update {V} (a b : list (string * V)) : list (string * V) := foldl (fun d kv => od_set (fst kv) (snd kv) d) a b.

(** Cleaning recurses through references and sub-schemas; [Unfinished] marks a
    call whose fuel ran out. *)
Inductive clean_error : Type := Unfinished | Python (e : dyn_error).
Abbreviation C := (M clean_error unit).

Section gemini_codec.
Context (py_repr : json -> string) (json_dumps : json -> string) (body_digest : json -> string).

(** [{**j}] of something that must be a dict. *)
Definition as_dict (j : json) : C (list (string * json)) :=
  match j with JObj fs => mret fs | _ => raise (Python TypeError) end.
Definition collect_definitions (fs : list (string * json)) : C (list (string * json)) :=
  a ← as_dict (default (JObj []) (od_get "definitions" fs));
  b ← as_dict (default (JObj []) (od_get "$defs" fs));
  mret (od_update (od_update [] a) b).

Definition clean_type (v : json) : C json :=
  match v with
  | JStr s => mret (JStr (default (py_upper s) (od_get (py_lower s) GEMINI_TYPE_MAP)))
  | JArr l =>
      match default (JStr "string") (head (filter (fun x => jeqs "null" x = false) l)) with
      | JStr t => mret (JStr (default "STRING" (od_get (py_lower t) GEMINI_TYPE_MAP)))
      | _ => raise (Python AttributeError)
      end
  | _ => mret (JStr "OBJECT")
  end.

(** One key of the schema, given the function that cleans a sub-schema. *)
Definition clean_key (deeper : json -> C json) (cleaned : list (string * json)) (kv : string * json) : C (list (string * json)) :=
  let '(k, v) := kv in
  if existsb (String.eqb k) GEMINI_PROHIBITED_KEYS then mret cleaned
  else if String.eqb k "type" then t ← clean_type v; mret (od_set "type" t cleaned)
  else match v with
  | JObj ps =>
      if String.eqb k "properties" then
        cs ← map_m (fun p => c ← deeper (snd p); mret (fst p, c)) ps;
        mret (od_set "properties" (JObj (od_update [] cs)) cleaned)
      else if String.eqb k "items" then c ← deeper v; mret (od_set "items" c cleaned)
      else mret cleaned
  | JArr l =>
      if String.eqb k "required" then mret (od_set "required" (JArr (map (fun x => JStr (py_str py_repr x)) l)) cleaned)
      else if String.eqb k "enum" then mret (od_set "enum" (JArr (map (fun x => JStr (py_str py_repr x)) l)) cleaned)
      else mret cleaned
  | JStr _ => if String.eqb k "description" then mret (od_set "description" v cleaned) else mret cleaned
  | _ => mret cleaned
  end.
Fixpoint clean_keys (deeper : json -> C json) (cleaned : list (string * json)) (fs : list (string * json)) : C (list (string * json)) :=
  match fs with
  | [] => mret cleaned
  | kv :: fs' => c ← clean_key deeper cleaned kv; clean_keys deeper c fs'
  end.

(** A nested call: the definitions are known. *)
Fixpoint clean_nested (fuel : nat) (definitions : list (string * json)) (depth : nat) (schema : json) : C json :=
  match fuel with
  | O => raise Unfinished
  | S f =>
      match schema with
      | JObj fs =>
          match od_get "$ref" fs with
          | Some (JStr ref) =>
              match resolve_local_ref ref definitions with
              | Some target =>
                  if (MAX_REF_DEPTH <=? depth)%nat then mret object_schema
                  else clean_nested f definitions (S depth) (JObj (od_update target (filter (fun kv => fst kv <> "$ref") fs)))
              | None => mret object_schema
              end
          | _ =>
              cleaned ← clean_keys (clean_nested f definitions (S depth)) [] fs;
              mret (JObj (if od_mem "type" cleaned then cleaned else od_set "type" (JStr "OBJECT") cleaned))
          end
      | _ => mret schema
      end
  end.

(** Nesting depth of a value. *)
Fixpoint height (j : json) : nat :=
  match j with
  | JArr l => S (foldr (fun x n => Nat.max (height x) n) O l)
  | JObj fs => S (foldr (fun kv n => Nat.max (height (snd kv)) n) O fs)
  | _ => O
  end.
Definition clean_fuel (schema : json) : nat := S (MAX_REF_DEPTH + height schema).

Definition clean_gemini_schema (schema : json) : C json :=
  match schema with
  | JObj fs => definitions ← collect_definitions fs; clean_nested (clean_fuel schema) definitions O schema
  | _ => mret schema
  end.

(** The call from the request encoder. *)
Definition cleaned_parameters {S} (schema : json) : M dyn_error S json := fun s n =>
  match clean_gemini_schema schema tt n with
  | (Ok j, _, n') => (Ok j, s, n')
  | (Raise (Python e), _, n') => (Raise e, s, n')
  | (Raise Unfinished, _, n') => (Raise Untyped, s, n')
  end.

(** ** Requests *)

Definition tool_choice_to_gemini {S} (tc : option json) : M dyn_error S (option json) :=
  let config (mode : json) (names : list json) :=
    Some (JObj [("functionCallingConfig", JObj (("mode", mode) :: match names with [] => [] | _ => [("allowedFunctionNames", JArr names)] end))]) in
  match tc with
  | Some (JStr s) =>
      mret (mode ← od_get s [("auto", "AUTO"); ("required", "ANY"); ("none", "NONE")]; config (JStr mode) [])
  | Some (JObj fs) =>
      let kind := default JNull (od_get "type" fs) in
      let name := default JNull (od_get "name" fs) in
      if jeqs "auto" kind then mret (config (JStr "AUTO") [])
      else if jeqs "none" kind then mret (config (JStr "NONE") [])
      else if jeqs "any" kind then mret (config (JStr "ANY") [])
      else if jeqs "tool" kind && jtruthy name then mret (config (JStr "ANY") [name])
      else if jeqs "function" kind then
        fname ← py_get "name" (jor (default JNull (od_get "function" fs)) (JObj []));
        mret (if jtruthy fname then config (JStr "ANY") [fname] else None)
      else mret None
  | _ => mret None
  end.

Definition text_part (c : string) : json := JObj [("text", JStr c)].
Definition function_response (name output : string) : json :=
  JObj [("functionResponse", JObj [("name", JStr name); ("response", JObj [("output", JStr output)])])].
(** [name or "tool"] *)
Definition or_tool (name : option string) : string := default "tool" (present name).
Definition result_part (tr : NormalizedToolResult) : json := function_response (or_tool (tr_tool_name tr)) (tr_content tr).
Definition call_part (tc : NormalizedToolCall) : json := JObj [("functionCall", JObj [("name", JStr (tc_name tc)); ("args", tc_arguments tc)])].

Definition gemini_turn (r : string) (parts : list json) : json :=
  JObj [("role", JStr r); ("parts", JArr (match parts with [] => [text_part ""] | _ => parts end))].

Definition gemini_contents (m : NormalizedMessage) : list json :=
  let text := if truthy (content m) then [text_part (content m)] else [] in
  if String.eqb (role m) "system" then []
  else if String.eqb (role m) "user" then [gemini_turn "user" (text ++ map result_part (tool_results m))]
  else if String.eqb (role m) "assistant" then [gemini_turn "model" (text ++ map call_part (tool_calls m))]
  else if String.eqb (role m) "tool" then
    match tool_results m with
    | [] => if truthy (content m) then [gemini_turn "user" [function_response (or_tool (msg_name m)) (content m)]] else []
    | trs => map (fun tr => gemini_turn "user" [result_part tr]) trs
    end
  else [].

Definition declaration {S} (t : NormalizedToolDefinition) : M dyn_error S json :=
  ps ← cleaned_parameters (td_parameters t);
  mret (JObj [("name", JStr (td_name t)); ("description", JStr (td_description t)); ("parameters", ps)]).

Definition generation_config (req : NormalizedRequest) : list (string * json) :=
  match req_max_output_tokens req with
  | Some z => if (z =? 0)%Z then [] else [("maxOutputTokens", JInt (Z.min z 8192))]
  | None => []
  end ++ num_field "temperature" (temperature req).

Definition ir_to_gemini_request {S} (req : NormalizedRequest) (target_model : string) : M dyn_error S json :=
  let system := match present (get_effective_system_instruction req) with
                | Some t => [("systemInstruction", JObj [("parts", JArr [text_part t])])] | None => [] end in
  tool_fields ← match tools req with
    | [] => mret []
    | ts =>
        declarations ← map_m declaration ts;
        cfg ← tool_choice_to_gemini (tool_choice req);
        mret (("tools", JArr [JObj [("functionDeclarations", JArr declarations)]]) ::
              match cfg with Some c => [("toolConfig", c)] | None => [] end)
    end;
  mret (JObj ([("contents", JArr (concat (map gemini_contents (messages req))))] ++ system ++ tool_fields ++
              match generation_config req with [] => [] | g => [("generationConfig", JObj g)] end)).

(** ** Answers *)

Definition gemini_response_id (fs : list (string * json)) : string :=
  match od_get "responseId" fs with
  | Some (JStr s) => if truthy s then s else ("gemini_" ++ str_take 12 (body_digest (JObj fs)))%string
  | _ => ("gemini_" ++ str_take 12 (body_digest (JObj fs)))%string
  end.

Definition gemini_call {S} (rid : string) (index : nat) (fc : json) : M dyn_error S NormalizedToolCall :=
  args ← py_get_or "args" (JObj []) fc;
  nm ← py_get_or "name" (JStr "") fc; name ← want_str nm;
  let i := ("call_" ++ rid ++ "_" ++ py_str_nat index)%string in
  mret (if is_dict args then make_tool_call json_dumps i name args (json_dumps args)
        else make_tool_call json_dumps i name (JObj []) (py_str py_repr args)).

(** [for index, p in enumerate(parts)]: the texts and the calls. *)
Fixpoint gemini_parts {S} (rid : string) (index : nat) (parts : list json) : M dyn_error S (list json * list NormalizedToolCall) :=
  match parts with
  | [] => mret ([], [])
  | p :: parts' =>
      is_text ← py_in "text" p;
      is_call ← (if (is_text : bool) then mret false else py_in "functionCall" p);
      texts ← (if (is_text : bool) then t ← py_item "text" p; mret [t] else mret []);
      calls ← (if (is_call : bool) then fc ← py_item "functionCall" p; tc ← gemini_call rid index fc; mret [tc] else mret []);
      rest ← gemini_parts rid (Datatypes.S index) parts';
      mret (texts ++ rest.1, calls ++ rest.2)
  end.

Definition gemini_response_to_ir {S} (resp : json) (model_name : string) : M dyn_error S NormalizedResponse :=
  candidates ← py_get_or "candidates" (JArr []) resp;
  let rid := match resp with JObj fs => gemini_response_id fs | _ => "" end in
  if negb (jtruthy candidates) then
    mret {| response_id := rid; resp_model := model_name; resp_content := Some ""; resp_reasoning_content := None;
            resp_reasoning_signature := None; resp_tool_calls := []; finish_reason := "stop"; input_tokens := 0; output_tokens := 0;
            raw_response := Some resp |}
  else
    first ← py_first candidates;
    content_obj ← py_get_or "content" (JObj []) first;
    parts ← py_get_or "parts" (JArr []) content_obj;
    l ← py_iter parts;
    tc ← gemini_parts rid 0 l;
    usage ← py_get_or "usageMetadata" (JObj []) resp;
    content ← join_parts tc.1;
    pt ← py_get_or "promptTokenCount" (JInt 0) usage; inp ← want_int pt;
    ct ← py_get_or "candidatesTokenCount" (JInt 0) usage; out ← want_int ct;
    mret {| response_id := rid; resp_model := model_name; resp_content := content; resp_reasoning_content := None;
            resp_reasoning_signature := None; resp_tool_calls := tc.2; finish_reason := match tc.2 with [] => "stop" | _ => "tool_calls" end;
            input_tokens := inp; output_tokens := out; raw_response := Some resp |}.
End gemini_codec.

(** ** Properties of the Gemini codec

    Schema cleaning terminates on cyclic references and yields only what the
    Gemini schema message has; call identifiers are distinct. *)
Module CodecGeminiProps.

(** ** Schemas of the Gemini dialect *)

Inductive gemini_entry (P : json -> Prop) : string * json -> Prop :=
  | entry_type s : gemini_entry P ("type", JStr s)
  | entry_description s : gemini_entry P ("description", JStr s)
  | entry_required l : gemini_entry P ("required", JArr (map JStr l))
  | entry_enum l : gemini_entry P ("enum", JArr (map JStr l))
  | entry_items j : P j -> gemini_entry P ("items", j)
  | entry_properties ps : Forall (fun kv => P (snd kv)) ps -> gemini_entry P ("properties", JObj ps).
Inductive gemini_schema : json -> Prop :=
  | schema_other j : is_dict j = false -> gemini_schema j
  | schema_object fs : od_mem "type" fs = true -> Forall (gemini_entry gemini_schema) fs -> gemini_schema (JObj fs).

(** ** Schemas that raise nothing *)

(** A list of types starts, [null] aside, with a text. *)
Definition type_list_ok (v : json) : bool :=
  match v with
  | JArr l => match default (JStr "string") (head (filter (fun x => jeqs "null" x = false) l)) with JStr _ => true | _ => false end
  | _ => true
  end.
Fixpoint types_ok (j : json) : bool :=
  match j with
  | JArr l => forallb types_ok l
  | JObj fs => forallb (fun kv => (negb (String.eqb (fst kv) "type") || type_list_ok (snd kv)) && types_ok (snd kv)) fs
  | _ => true
  end.
Definition dict_or_absent (k : string) (j : json) : bool :=
  match jget k j with Some v => is_dict v | None => true end.
Definition readable_schema (j : json) : bool := types_ok j && dict_or_absent "definitions" j && dict_or_absent "$defs" j.

(** A computation that returns a value of [P] or, unless [strict], raises a Python
    exception. *)
Definition yields {A} (strict : bool) (P : A -> Prop) (m : C A) : Prop :=
  forall n, match out_res (m tt n) with Ok a => P a | Raise Unfinished => False | Raise (Python _) => strict = false end.

Lemma yields_ret {A} b (P : A -> Prop) a : P a -> yields b P (mret a).
Proof. by intros H n. Qed.
Lemma yields_bind {A B} b (P : A -> Prop) (Q : B -> Prop) (m : C A) (k : A -> C B) :
  yields b P m -> (forall a, P a -> yields b Q (k a)) -> yields b Q (mbind k m).
Proof.
  intros Hm Hk n. specialize (Hm n). unfold mbind, M_bind, out_res in *. destruct (m tt n) as [[[a|[|e]] []] n1]; cbn in *; try done.
  by apply Hk.
Qed.
Lemma yields_python {A} b (P : A -> Prop) e : b = false -> yields b P (raise (Python e) : C A).
Proof. by intros H n. Qed.
Lemma yields_map {A B} b (P : B -> Prop) (f : A -> C B) l : (forall x, x ∈ l -> yields b P (f x)) -> yields b (Forall P) (map_m f l).
Proof.
  induction l as [|x l IH]; intros H; [by apply yields_ret|]. cbn [map_m].
  eapply yields_bind; [apply H; left|]. intros y Hy. eapply yields_bind; [apply IH; intros z Hz; apply H; by right|].
  intros ys Hys. apply yields_ret. by constructor.
Qed.

Create HintDb yields.
#[export] Hint Resolve yields_ret yields_python : yields.

Lemma strict_false (b : bool) (P : Prop) : (b = true -> P) -> ~ P -> b = false.
Proof. destruct b; [intros H HP; by destruct (HP (H eq_refl)) | done]. Qed.
Lemma types_ok_fields fs : types_ok (JObj fs) = true <->
  Forall (fun kv => (fst kv = "type" -> type_list_ok (snd kv) = true) /\ types_ok (snd kv) = true) fs.
Proof.
  cbn [types_ok]. induction fs as [|[k v] fs IH]; cbn [forallb]; [split; [constructor | done]|].
  rewrite Forall_cons, !andb_true_iff, IH, orb_true_iff, negb_true_iff. cbn [fst snd]. destruct (String.eqb_spec k "type"); naive_solver.
Qed.

Lemma Forall_od_update {V} (P : string * V -> Prop) b a : Forall P a -> Forall P b -> Forall P (od_update a b).
Proof.
  unfold od_update. intros Ha Hb. revert a Ha. induction Hb as [|[k v] b H Hb IH]; intros a Ha; [done|]. cbn [foldl].
  apply IH. by apply od_Forall_set.
Qed.

Lemma height_le fs d : (height (JObj fs) <= S d)%nat <-> Forall (fun kv => (height (snd kv) <= d)%nat) fs.
Proof.
  cbn [height]. induction fs as [|kv fs IH]; cbn [foldr]; [split; [constructor | lia]|].
  rewrite Forall_cons, <- IH. lia.
Qed.
Lemma height_member kv fs : kv ∈ fs -> (height (snd kv) < height (JObj fs))%nat.
Proof.
  intros H. destruct (height (JObj fs)) as [|d] eqn:E; [done|].
  pose proof (proj1 (height_le fs d) ltac:(lia)) as Hf. rewrite Forall_forall in Hf. specialize (Hf kv H). cbv beta in Hf. lia.
Qed.

Section cleaning.
Context (py_repr : json -> string).

Lemma strings_of (l : list json) : exists ss, map (fun x => JStr (py_str py_repr x)) l = map JStr ss.
Proof. exists (map (py_str py_repr) l). by rewrite map_map. Qed.

Lemma type_yields b v : (b = true -> type_list_ok v = true) -> yields b (fun j => exists s, j = JStr s) (clean_type v).
Proof.
  intros Hb. destruct v as [| | | | |l|]; unfold clean_type; eauto with yields. unfold type_list_ok in Hb.
  destruct (default _ _); eauto with yields; apply yields_python; (eapply strict_false; [exact Hb|done]).
Qed.

(** One key: sub-schemas are cleaned by the nested call. *)
Lemma key_yields b deeper cleaned k v : Forall (gemini_entry gemini_schema) cleaned ->
  (b = true -> (k = "type" -> type_list_ok v = true) /\ types_ok v = true) ->
  (forall j, (height j <= height v)%nat -> (b = true -> types_ok j = true) -> yields b gemini_schema (deeper j)) ->
  yields b (Forall (gemini_entry gemini_schema)) (clean_key py_repr deeper cleaned (k, v)).
Proof.
  intros Hc Hb Hd. unfold clean_key. destruct (existsb _ _); [by apply yields_ret|].
  destruct (String.eqb_spec k "type").
  { eapply yields_bind; [apply type_yields; naive_solver|]. intros ? [s ->]. apply yields_ret, od_Forall_set; [constructor | done]. }
  destruct v as [| | | |s|l|ps]; try (by apply yields_ret).
  - destruct (String.eqb k "description"); apply yields_ret; [apply od_Forall_set; [constructor | done] | done].
  - destruct (strings_of l) as [ss ->].
    destruct (String.eqb k "required"); [|destruct (String.eqb k "enum")]; apply yields_ret; try done;
      apply od_Forall_set; try done; constructor.
  - destruct (String.eqb k "properties"); [|destruct (String.eqb k "items"); [|by apply yields_ret]].
    + eapply (yields_bind _ (Forall (fun kv => gemini_schema (snd kv)))).
      * apply yields_map. intros [pk pv] Hp. eapply yields_bind; [|intros c Hcl; by apply yields_ret].
        apply Hd; [pose proof (height_member _ _ Hp); cbn [snd] in *; lia|]. intros E. destruct (Hb E) as [_ Ht].
        rewrite types_ok_fields, Forall_forall in Ht. by apply (Ht _ Hp).
      * intros cs Hcs. apply yields_ret, od_Forall_set; [|done]. constructor. by apply Forall_od_update.
    + eapply yields_bind; [apply Hd; naive_solver|]. intros c Hcl. apply yields_ret, od_Forall_set; [by constructor | done].
Qed.

Lemma keys_yields b deeper fs d cleaned : Forall (gemini_entry gemini_schema) cleaned ->
  Forall (fun kv => (height (snd kv) <= d)%nat) fs -> (b = true -> types_ok (JObj fs) = true) ->
  (forall j, (height j <= d)%nat -> (b = true -> types_ok j = true) -> yields b gemini_schema (deeper j)) ->
  yields b (Forall (gemini_entry gemini_schema)) (clean_keys py_repr deeper cleaned fs).
Proof.
  intros Hc Hfs. setoid_rewrite types_ok_fields. intros Hb Hd. revert cleaned Hc.
  induction Hfs as [|[k v] fs Hv _ IH]; intros cleaned Hc; [by apply yields_ret|]. setoid_rewrite Forall_cons in Hb.
  cbn [clean_keys]. eapply yields_bind; [apply key_yields; [done | naive_solver | intros j Hj; apply Hd; cbn in Hv; lia]|].
  apply IH. naive_solver.
Qed.

Lemma resolve_In ref defs target : resolve_local_ref ref defs = Some target -> exists c, (c, JObj target) ∈ defs.
Proof.
  intros H. unfold resolve_local_ref in H. destruct (split_on "/" ref) as [|a [|b [|c [|? ?]]]]; try done.
  destruct (_ && _); [|done]. destruct (od_get c defs) as [[| | | | | |fs]|] eqn:E; try done. injection H as ->.
  exists c. by apply od_get_In.
Qed.

(** Either references are left, or only the depth of the value. *)
Definition enough (D depth fuel : nat) (j : json) : Prop :=
  (height j <= D /\ (if (MAX_REF_DEPTH <=? depth) then height j else MAX_REF_DEPTH - depth + D) < fuel)%nat.
Definition known (b : bool) (D : nat) (kv : string * json) : Prop := (height (snd kv) <= D)%nat /\ (b = true -> types_ok (snd kv) = true).

(** The definition a reference names, overridden by the keys beside it. *)
Lemma merged_known b D target fs : (height (JObj target) <= D)%nat -> (height (JObj fs) <= D)%nat ->
  (b = true -> types_ok (JObj target) = true) -> (b = true -> types_ok (JObj fs) = true) ->
  let merged := JObj (od_update target (filter (fun kv => fst kv <> "$ref") fs)) in
  (height merged <= D)%nat /\ (b = true -> types_ok merged = true).
Proof.
  intros Ht Hh Hbt Hb. destruct D as [|D]; [cbn in Ht; lia|].
  assert (forall P, Forall P fs -> Forall P (filter (fun kv : string * json => fst kv <> "$ref") fs)) as Hfilter.
  { intros P HP. apply Forall_forall. intros kv [_ Hkv]%list_elem_of_filter. rewrite Forall_forall in HP. by apply HP. }
  split.
  - apply height_le, Forall_od_update; [by apply height_le | by apply Hfilter, height_le].
  - intros E. apply types_ok_fields, Forall_od_update; [by apply types_ok_fields, Hbt | by apply Hfilter, types_ok_fields, Hb].
Qed.

Lemma nested_yields b fuel D defs depth schema : Forall (known b D) defs ->
  enough D depth fuel schema -> (b = true -> types_ok schema = true) ->
  yields b gemini_schema (clean_nested py_repr fuel defs depth schema).
Proof.
  intros Hdefs. revert depth schema. induction fuel as [|f IH]; intros depth schema [Hh Hf] Hb; [lia|].
  destruct schema as [| | | | | |fs]; try (apply yields_ret; by constructor). cbn [clean_nested].
  assert (yields b gemini_schema (cleaned ← clean_keys py_repr (clean_nested py_repr f defs (S depth)) [] fs;
    mret (JObj (if od_mem "type" cleaned then cleaned else od_set "type" (JStr "OBJECT") cleaned)))) as Hkeys.
  { destruct (height (JObj fs)) as [|d] eqn:Eh; [done|].
    eapply yields_bind; [apply (keys_yields _ _ _ d); [constructor | by apply height_le; lia | done |]|].
    - intros j Hj Hbj. apply IH; [|done]. split; [lia|]. revert Hf.
      destruct (Nat.leb_spec MAX_REF_DEPTH depth), (Nat.leb_spec MAX_REF_DEPTH (S depth)); lia.
    - intros cleaned Hc. apply yields_ret. destruct (od_mem "type" cleaned) eqn:E; [by constructor|].
      constructor; [|apply od_Forall_set; [constructor | done]]. unfold od_mem. by rewrite od_get_set_eq. }
  destruct (od_get "$ref" fs) as [[| | | |ref| |]|]; try exact Hkeys.
  assert (gemini_schema object_schema) as Hobj by (repeat constructor).
  destruct (resolve_local_ref ref defs) as [target|] eqn:Er; [|by apply yields_ret].
  destruct (Nat.leb_spec MAX_REF_DEPTH depth) as [|Hlt]; [by apply yields_ret|].
  apply resolve_In in Er as [c Hc]. rewrite Forall_forall in Hdefs. destruct (Hdefs _ Hc) as [Ht Hbt]. rewrite <- Forall_forall in Hdefs.
  destruct (merged_known b D target fs Ht Hh Hbt Hb) as [Hm Hbm]. apply IH; [|done]. split; [done|].
  destruct (Nat.leb_spec MAX_REF_DEPTH (S depth)); lia.
Qed.

Lemma definitions_yield b fs : (b = true -> readable_schema (JObj fs) = true) ->
  yields b (Forall (known b (height (JObj fs)))) (collect_definitions fs).
Proof.
  intros Hb.
  assert (forall k, (b = true -> dict_or_absent k (JObj fs) = true) ->
    yields b (Forall (known b (height (JObj fs)))) (as_dict (default (JObj []) (od_get k fs)))) as H.
  { intros k Hk. unfold dict_or_absent, jget in Hk. destruct (od_get k fs) as [j|] eqn:E; [|by apply yields_ret]. cbn [default].
    destruct j as [| | | | | |gs]; try (apply yields_python; eapply strict_false; [exact Hk | done]). apply yields_ret.
    apply od_get_In in E. pose proof (height_member _ _ E) as Hh. cbn [snd] in Hh. apply Forall_forall. intros kv Hkv.
    split; [pose proof (height_member _ _ Hkv); lia|]. intros Eb. pose proof (Hb Eb) as [[Ht _]%andb_true_iff _]%andb_true_iff.
    rewrite types_ok_fields, Forall_forall in Ht. destruct (Ht _ E) as [_ Hgs]. cbn [snd] in Hgs.
    rewrite types_ok_fields, Forall_forall in Hgs. by apply Hgs. }
  unfold collect_definitions.
  eapply yields_bind; [apply H; intros Eb; pose proof (Hb Eb) as [[_ ?]%andb_true_iff _]%andb_true_iff; done|]. intros a Ha.
  eapply yields_bind; [apply H; intros Eb; pose proof (Hb Eb) as [_ ?]%andb_true_iff; done|]. intros d Hd.
  apply yields_ret. apply Forall_od_update; [|done]. by apply Forall_od_update.
Qed.

Lemma clean_yields b schema : (b = true -> readable_schema schema = true) -> yields b gemini_schema (clean_gemini_schema py_repr schema).
Proof.
  intros Hb. destruct schema as [| | | | | |fs]; try (apply yields_ret; by constructor). unfold clean_gemini_schema.
  eapply yields_bind; [by apply definitions_yield|]. intros defs Hdefs. eapply nested_yields; [done | |].
  - split; [done|]. unfold clean_fuel. cbn [Nat.leb MAX_REF_DEPTH]. lia.
  - intros Eb. pose proof (Hb Eb) as [[? _]%andb_true_iff _]%andb_true_iff. done.
Qed.
End cleaning.

(** C23: cleaning a tool schema for Gemini always terminates, whatever cycle its
    local references form, and what it returns is a schema in which every object
    has a type and only keys of the Gemini schema message occur, down to the last
    property: no [$ref], [$defs], [default] or [additionalProperties] is sent.
    A schema whose definitions are dicts and whose type lists hold texts is always
    cleaned; for another the only other outcome is a Python exception. *)
Theorem clean_gemini_schema_sound py_repr schema n :
  match out_res (clean_gemini_schema py_repr schema tt n) with
  | Ok j => gemini_schema j
  | Raise Unfinished => False
  | Raise (Python _) => readable_schema schema = false
  end.
Proof. apply (clean_yields py_repr (readable_schema schema)). done. Qed.

(** ** Call identifiers *)

Section calls.
Context (py_repr : json -> string) (json_dumps : json -> string).

Definition call_id (rid : string) (i : nat) : string := ("call_" ++ rid ++ "_" ++ py_str_nat i)%string.
Lemma call_id_inj rid i j : call_id rid i = call_id rid j -> i = j.
Proof. unfold call_id. intros H. do 3 apply app_string_inj in H. by apply py_str_nat_inj. Qed.

Lemma gemini_call_id {S} rid i fc (s : S) n tc s' n' : gemini_call py_repr json_dumps rid i fc s n = (Ok tc, s', n') -> tc_id tc = call_id rid i.
Proof.
  unfold gemini_call. intros (args & ? & ? & _ & H)%bind_inv. apply bind_inv in H as (nm & ? & ? & _ & H).
  apply bind_inv in H as (name & ? & ? & _ & H). injection H as <- _ _. by destruct (is_dict args).
Qed.

(** The calls of a list of parts carry their positions, in order. *)
Lemma gemini_parts_ids {S} rid i parts (s : S) n p s' n' : gemini_parts py_repr json_dumps rid i parts s n = (Ok p, s', n') ->
  exists js, map tc_id p.2 = map (call_id rid) js /\ NoDup js /\ Forall (fun j => (i <= j)%nat) js.
Proof.
  revert i s n p s' n'. induction parts as [|q parts IH]; intros i s n p s' n' H.
  { injection H as <- _ _. exists []. repeat split; constructor. }
  cbn [gemini_parts] in H. apply bind_inv in H as (is_text & s1 & n1 & _ & H). apply bind_inv in H as (is_call & s2 & n2 & _ & H).
  apply bind_inv in H as (texts & s3 & n3 & _ & H). apply bind_inv in H as (calls & s4 & n4 & Hc & H).
  apply bind_inv in H as (rest & s5 & n5 & Hr & H). injection H as <- _ _. cbn [snd].
  apply IH in Hr as (js & Hjs & Hnd & Hle).
  assert (map tc_id calls = [] \/ map tc_id calls = [call_id rid i]) as Hcalls.
  { destruct is_call; [|injection Hc as <- _ _; by left]. apply bind_inv in Hc as (fc & ? & ? & _ & Hc).
    apply bind_inv in Hc as (tc & ? & ? & Htc & Hc). injection Hc as <- _ _. right. cbn [map]. by apply gemini_call_id in Htc as ->. }
  rewrite map_app, Hjs. destruct Hcalls as [->| ->].
  - exists js. split; [done|]. split; [done|]. eapply Forall_impl; [exact Hle|]. cbv beta. lia.
  - exists (i :: js). split; [done|]. split; constructor; [|done|lia|eapply Forall_impl; [exact Hle|]; cbv beta; lia].
    intros Hin. rewrite Forall_forall in Hle. specialize (Hle _ Hin). cbv beta in Hle. lia.
Qed.
End calls.

(** The tool calls of a Gemini answer, which carry no identifier on the wire,
    get pairwise distinct ones derived from the answer's own identifier, and the
    finish reason says [tool_calls] exactly when there is a call. *)
Theorem gemini_call_ids_distinct py_repr json_dumps body_digest {S} resp model (s : S) n r s' n' :
  gemini_response_to_ir py_repr json_dumps body_digest resp model s n = (Ok r, s', n') ->
  NoDup (map tc_id (resp_tool_calls r)) /\ (finish_reason r = "tool_calls" <-> resp_tool_calls r <> []) /\
  Forall (fun tc => exists i, tc_id tc = call_id (response_id r) i) (resp_tool_calls r).
Proof.
  unfold gemini_response_to_ir. intros (candidates & s1 & n1 & _ & H)%bind_inv.
  destruct (negb (jtruthy candidates)); [injection H as <- _ _; cbn; repeat split; [constructor | done | done | constructor]|].
  apply bind_inv in H as (first & ? & ? & _ & H). apply bind_inv in H as (co & ? & ? & _ & H). apply bind_inv in H as (parts & ? & ? & _ & H).
  apply bind_inv in H as (l & ? & ? & _ & H). apply bind_inv in H as (p & ? & ? & Hp & H). do 6 apply bind_inv in H as (? & ? & ? & _ & H).
  injection H as <- _ _. cbn [resp_tool_calls finish_reason response_id]. apply gemini_parts_ids in Hp as (js & Hjs & Hnd & _).
  rewrite Hjs. split; [apply NoDup_fmap_2; [exact (call_id_inj _) | done]|]. split; [by destruct p.2|].
  apply Forall_forall. intros tc Htc. apply (list_elem_of_fmap_2 tc_id) in Htc. change (tc_id <$> p.2) with (map tc_id p.2) in Htc.
  rewrite Hjs in Htc. apply list_elem_of_fmap in Htc as (i & -> & _). by exists i.
Qed.

(** ** Witnesses *)

Definition cyclic_schema : json :=
  JObj [("$defs", JObj [("node", JObj [("type", JStr "object"); ("properties", JObj [("next", JObj [("$ref", JStr "#/$defs/node")])])])]);
        ("$ref", JStr "#/$defs/node"); ("additionalProperties", JBool false)].
Example clean_cyclic :
  readable_schema cyclic_schema = true /\
  exists j, out_res (clean_gemini_schema (fun _ => "?") cyclic_schema tt 0%nat) = Ok j /\ height j = 9%nat.
Proof. split; [reflexivity|]. eexists. split; vm_compute; reflexivity. Qed.

Definition two_calls : json :=
  JObj [("responseId", JStr "r1"); ("candidates", JArr [JObj [("content", JObj [("parts", JArr [
    JObj [("functionCall", JObj [("name", JStr "ls"); ("args", JObj [])])]; JObj [("text", JStr "and")];
    JObj [("functionCall", JObj [("name", JStr "cat"); ("args", JObj [])])]])])]])].
Lemma gemini_call_ids_distinct_witness :
  exists r, out_res (gemini_response_to_ir (fun _ => "?") (fun _ => "{}") (fun _ => "0") two_calls "m" tt 0%nat) = Ok r /\
  map tc_id (resp_tool_calls r) = ["call_r1_0"; "call_r1_2"] /\ NoDup (map tc_id (resp_tool_calls r)).
Proof.
  eexists. split; [reflexivity|]. split; [reflexivity|].
  apply (gemini_call_ids_distinct (fun _ => "?") (fun _ => "{}") (fun _ => "0") two_calls "m" tt 0%nat _ tt 0%nat). reflexivity.
Defined.

End CodecGeminiProps.
