(* ===== verification/Translators.v ===== *)
(** * Wire translators of the first-generation router

    [src/durallm/translators.py]: Chat Completions to Gemini and back, Messages to
    Chat Completions and back, and the repair of tool arguments.  Everything is
    over JSON values; an ill-typed payload raises as in Python.  Tool identifiers
    that are numbers are outside the model.

    [py_repr] is [str] of a value that is not a text and [py_quote] is [repr];
    [json_dumps] is [json.dumps(_, ensure_ascii=False)] and [dumps_ascii] the
    plain [json.dumps]. *)

From stdpp Require Import base tactics list strings.
From Stdlib Require Import QArith Qround Ascii.
From S2P Require Import Prelude PyText Utf8 Json PyDyn Regex ToolValidation Sse CodecOpenAI CodecAnthropic CodecGemini.

(** ** Repairing tool arguments *)

(** [\s] on text: any Unicode white space. *)
Definition uspace : regex := alts (space :: map lit wide_spaces).
Definition json_fence_re : regex := seqs [lit fence; opt (lit "json"); many uspace].
Definition end_fence_re : regex := seqs [many uspace; lit fence; REnd].
Definition comma_re : regex := seqs [lit ","; many uspace; RGroup (any_of "]}")].

(** The text before it is parsed. *)
Definition unfence (cleaned : string) : string :=
  if starts_with fence cleaned then
    re_sub end_fence_re (fun _ => "") (match re_match json_fence_re cleaned with Some (_, rest) => rest | None => cleaned end)
  else cleaned.
Definition tidy (raw : string) : string := re_sub comma_re (fun g => nth 0 g "") (unfence (ustrip raw)).

Section translators.
Context (py_repr py_quote json_dumps dumps_ascii : json -> string) (json_loads : string -> option json).
Context (uuid : nat -> string) (wall : nat -> Q).

Definition repair_json_string (raw : string) : option string :=
  if negb (truthy (ustrip raw)) then Some "{}" else
  match json_loads (tidy raw) with Some (JObj _) => Some (tidy raw) | _ => None end.
(** The call on a value of unknown type. *)
Definition repair_value {S} (raw : json) : M dyn_error S (option string) :=
  if negb (jtruthy raw) then mret (Some "{}")
  else match raw with JStr s => mret (repair_json_string s) | _ => raise AttributeError end.

(** ** Chat Completions to Gemini *)

Definition call_to_gemini {S} (tc : json) : M dyn_error S json :=
  fn ← py_get_or "function" (JObj []) tc;
  args ← py_get_or "arguments" (JStr "{}") fn;
  let args' := match args with JStr s => default (JObj []) (json_loads s) | _ => args end in
  name ← py_get "name" fn;
  mret (JObj [("functionCall", JObj [("name", name); ("args", args')])]).

(** One message: the system instruction it sets and the turns it adds. *)
Definition message_to_gemini {S} (msg : json) : M dyn_error S (option json * list json) :=
  role ← py_get_or "role" (JStr "user") msg;
  ct ← py_get_or "content" (JStr "") msg;
  let content := jor ct (JStr "") in
  let text := text_part (py_str py_repr content) in
  if jeqs "system" role then mret (Some (JObj [("parts", JArr [text])]), [])
  else if jeqs "user" role then mret (None, [gemini_turn "user" [text]])
  else if jeqs "assistant" role then
    tcs ← py_get_or "tool_calls" (JArr []) msg;
    l ← py_iter tcs;
    calls ← map_m call_to_gemini l;
    mret (None, [gemini_turn "model" ((if jtruthy content then [text] else []) ++ calls)])
  else if jeqs "tool" role then
    name ← py_get "name" msg;
    mret (None, [gemini_turn "function" [JObj [("functionResponse",
      JObj [("name", jor name (JStr "bash")); ("response", JObj [("output", JStr (py_str py_repr content))])])]]])
  else mret (None, []).
Fixpoint messages_to_gemini {S} (sys : option json) (ms : list json) : M dyn_error S (option json * list json) :=
  match ms with
  | [] => mret (sys, [])
  | m :: ms' =>
      r ← message_to_gemini m;
      rest ← messages_to_gemini (match fst r with Some j => Some j | None => sys end) ms';
      mret (fst rest, snd r ++ snd rest)
  end.

Definition tool_to_gemini {S} (t : json) : M dyn_error S json :=
  fn ← py_get_or "function" (JObj []) t;
  raw ← py_get_or "parameters" default_schema fn;
  cleaned ← cleaned_parameters py_repr raw;
  name ← py_get "name" fn;
  desc ← py_get_or "description" (JStr "") fn;
  mret (JObj [("name", name); ("description", desc); ("parameters", cleaned)]).

Definition convert_openai_to_gemini_payload {S} (req : json) : M dyn_error S (odict string json) :=
  ms ← py_get_or "messages" (JArr []) req;
  l ← py_iter ms;
  out ← messages_to_gemini None l;
  let base := ("contents", JArr (snd out)) :: match fst out with Some j => [("systemInstruction", j)] | None => [] end in
  tools ← py_get "tools" req;
  if jtruthy tools then
    ts ← py_iter tools;
    ds ← map_m tool_to_gemini ts;
    mret (base ++ [("tools", JArr [JObj [("functionDeclarations", JArr ds)]])])
  else mret base.

(** ** Gemini to Chat Completions *)

(** The text and the tool calls of the parts. *)
Fixpoint parts_to_openai {S} (parts : list json) : M dyn_error S (list json * list json) :=
  match parts with
  | [] => mret ([], [])
  | p :: parts' =>
      has_text ← py_in "text" p;
      if (has_text : bool) then
        t ← py_item "text" p;
        rest ← parts_to_openai parts';
        mret (t :: fst rest, snd rest)
      else
        has_call ← py_in "functionCall" p;
        if (has_call : bool) then
          fc ← py_item "functionCall" p;
          id ← fresh_id uuid "call_" 8;
          name ← py_get "name" fc;
          args ← py_get_or "args" (JObj []) fc;
          rest ← parts_to_openai parts';
          mret (fst rest, JObj [("id", JStr id); ("type", JStr "function");
            ("function", JObj [("name", name); ("arguments", JStr (dumps_ascii args))])] :: snd rest)
        else parts_to_openai parts'
  end.

Definition completion_head (id : string) (created : Q) (model : string) (message : json) (finish : string) : odict string json :=
  [("id", JStr id); ("object", JStr "chat.completion"); ("created", JInt (Qfloor created)); ("model", JStr model);
   ("choices", JArr [JObj [("index", JInt 0); ("message", message); ("finish_reason", JStr finish)]])].

Definition convert_gemini_to_openai_response {S} (resp : json) (model : string) : M dyn_error S json :=
  candidates ← py_get_or "candidates" (JArr []) resp;
  if negb (jtruthy candidates) then
    id ← fresh_id uuid "chatcmpl-" 12;
    created ← read_clock wall;
    mret (JObj (completion_head id created model (JObj [("role", JStr "assistant"); ("content", JStr "")]) "stop"))
  else
    first ← py_first candidates;
    content ← py_get_or "content" (JObj []) first;
    parts ← py_get_or "parts" (JArr []) content;
    l ← py_iter parts;
    found ← parts_to_openai l;
    texts ← map_m py_text (fst found);
    let text := match texts with [] => JNull | _ => JStr (String.concat "" texts) end in
    let calls := snd found in
    let message := [("role", JStr "assistant"); ("content", text)] ++ match calls with [] => [] | _ => [("tool_calls", JArr calls)] end in
    usage ← py_get_or "usageMetadata" (JObj []) resp;
    id ← fresh_id uuid "chatcmpl-" 12;
    created ← read_clock wall;
    p ← py_get_or "promptTokenCount" (JInt 0) usage;
    c ← py_get_or "candidatesTokenCount" (JInt 0) usage;
    t ← py_get_or "totalTokenCount" (JInt 0) usage;
    mret (JObj (completion_head id created model (JObj message) (match calls with [] => "stop" | _ => "tool_calls" end) ++
      [("usage", JObj [("prompt_tokens", p); ("completion_tokens", c); ("total_tokens", t)])])).
(** ** Messages to Chat Completions *)

Definition message (role content : json) : json := JObj [("role", role); ("content", content)].
Definition system_messages {S} (req : json) : M dyn_error S (list json) :=
  system ← py_get "system" req;
  match system with
  | JStr s => mret (if truthy s then [message (JStr "system") (JStr s)] else [])
  | JArr l =>
      match map (block_field "text" (JStr "")) (filter (fun b => block_is "text" b = true) l) with
      | [] => mret []
      | parts => t ← join_lines parts; mret [message (JStr "system") (JStr t)]
      end
  | _ => mret []
  end.

(** [tool_id_to_name[tid] = tname] for the calls of the assistant's turns. *)
Definition name_call {S} (names : odict string json) (b : json) : M dyn_error S (odict string json) :=
  if block_is "tool_use" b then
    let tid := block_field "id" JNull b in
    let tname := block_field "name" JNull b in
    if jtruthy tid && jtruthy tname then
      match tid with
      | JStr s => mret (od_set s tname names)
      | JArr _ | JObj _ => raise TypeError
      | _ => raise Untyped
      end
    else mret names
  else mret names.
Definition fold_m {E S A B} (f : A -> B -> M E S A) : list B -> A -> M E S A :=
  fix go l a := match l with [] => mret a | b :: l' => a' ← f a b; go l' a' end.
Definition name_calls {S} (names : odict string json) (msg : json) : M dyn_error S (odict string json) :=
  role ← py_get "role" msg;
  if jeqs "assistant" role then
    content ← py_get "content" msg;
    match content with JArr bs => fold_m name_call bs names | _ => mret names end
  else mret names.

(** [tool_id_to_name.get(id, "bash")] *)
Definition name_of {S} (names : odict string json) (id : json) : M dyn_error S json :=
  match id with
  | JStr s => mret (default (JStr "bash") (od_get s names))
  | JArr _ | JObj _ => raise TypeError
  | _ => mret (JStr "bash")
  end.

(** The text parts and the tool calls of an assistant's turn. *)
Definition assistant_block {S} (acc : list json * list json) (b : json) : M dyn_error S (list json * list json) :=
  let '(texts, calls) := acc in
  if block_is "text" b then mret (texts ++ [block_field "text" (JStr "") b], calls)
  else if block_is "tool_use" b then
    let i := block_field "id" JNull b in
    id ← (if jtruthy i then mret i else fresh ← fresh_id uuid "toolu_" 8; mret (JStr fresh));
    mret (texts, calls ++ [JObj [("id", id); ("type", JStr "function");
      ("function", JObj [("name", block_field "name" JNull b); ("arguments", JStr (json_dumps (block_field "input" (JObj []) b)))])]])
  else mret acc.
Definition joined {S} (texts : list json) : M dyn_error S json :=
  match texts with [] => mret JNull | _ => t ← join_lines texts; mret (JStr t) end.
Definition assistant_message {S} (bs : list json) : M dyn_error S (list json) :=
  acc ← fold_m assistant_block bs ([], []);
  content ← joined (fst acc);
  mret [JObj ([("role", JStr "assistant"); ("content", content)] ++ match snd acc with [] => [] | cs => [("tool_calls", JArr cs)] end)].

(** What a user's turn has emitted, and the text waiting to be. *)
Definition flush_text {S} (acc : list json * list json) : M dyn_error S (list json) :=
  match snd acc with
  | [] => mret (fst acc)
  | texts => t ← join_lines texts; mret (fst acc ++ [message (JStr "user") (JStr t)])
  end.
Definition result_text {S} (b : json) : M dyn_error S string :=
  match block_field "content" (JStr "") b with
  | JArr l => join_lines (map (block_field "text" (JStr "")) (filter (fun x => is_dict x = true) l))
  | c => mret (py_str py_repr c)
  end.
Definition user_block {S} (names : odict string json) (acc : list json * list json) (b : json) : M dyn_error S (list json * list json) :=
  if block_is "tool_result" b then
    out ← flush_text acc;
    let id := jor (block_field "tool_use_id" JNull b) (JStr "call_unknown") in
    name ← name_of names id;
    text ← result_text b;
    mret (out ++ [JObj [("role", JStr "tool"); ("name", name); ("tool_call_id", id); ("content", JStr text)]], [])
  else if block_is "text" b then mret (fst acc, snd acc ++ [block_field "text" (JStr "") b])
  else mret acc.

Definition message_to_openai {S} (names : odict string json) (msg : json) : M dyn_error S (list json) :=
  role ← py_get_or "role" (JStr "user") msg;
  content ← py_get "content" msg;
  match content with
  | JArr bs =>
      if jeqs "assistant" role then assistant_message bs
      else if jeqs "user" role then acc ← fold_m (user_block names) bs ([], []); flush_text acc
      else mret []
  | JStr s => mret [message role (JStr s)]
  | _ => mret [message role (JStr (py_str py_repr (jor content (JStr ""))))]
  end.

Definition tool_to_openai {S} (t : json) : M dyn_error S json :=
  match t with
  | JObj fs => mret (JObj [("type", JStr "function"); ("function", JObj [("name", default JNull (od_get "name" fs));
      ("description", default (JStr "") (od_get "description" fs)); ("parameters", default default_schema (od_get "input_schema" fs))])])
  | _ => raise Untyped
  end.

(** [min(req["max_tokens"], 8192)] *)
Definition limited_tokens {S} (fs : odict string json) : M dyn_error S json :=
  match od_get "max_tokens" fs with
  | None => mret (JInt 8192)
  | Some (JInt z) => mret (JInt (Z.min z 8192))
  | Some (JFloat _ | JBool _) => raise Untyped
  | Some _ => raise TypeError
  end.

Definition anthropic_to_openai_request {S} (req : json) (model : string) : M dyn_error S (odict string json) :=
  system ← system_messages req;
  ms ← py_get_or "messages" (JArr []) req;
  l ← py_iter ms;
  names ← fold_m name_calls l [];
  turns ← map_m (message_to_openai names) l;
  match req with
  | JObj fs =>
      tokens ← limited_tokens fs;
      let tools := match od_get "tools" fs with Some (JArr ts) => filter (fun t => is_dict t = true) ts | _ => [] end in
      ts ← map_m tool_to_openai tools;
      mret ([("model", JStr model); ("messages", JArr (system ++ concat turns)); ("stream", JBool false); ("max_tokens", tokens)] ++
            match od_get "temperature" fs with Some t => [("temperature", t)] | None => [] end ++
            match ts with [] => [] | _ => [("tools", JArr ts)] end)
  | _ => raise AttributeError
  end.

(** ** Chat Completions to Messages *)

(** Arguments that cannot be repaired become text, never a call. *)
Definition call_block {S} (tc : json) : M dyn_error S json :=
  fn ← py_get_or "function" (JObj []) tc;
  raw ← py_get_or "arguments" (JStr "{}") fn;
  repaired ← repair_value raw;
  match repaired with
  | None =>
      name ← py_get "name" fn;
      mret (JObj [("type", JStr "text");
        ("text", JStr ("[unparseable tool_call arguments for " ++ py_quote name ++ ": " ++ py_str py_repr raw ++ "]"))])
  | Some t =>
      i ← py_get "id" tc;
      id ← (if jtruthy i then mret i else fresh ← fresh_id uuid "toolu_" 8; mret (JStr fresh));
      name ← py_get "name" fn;
      match json_loads t with
      | Some input => mret (JObj [("type", JStr "tool_use"); ("id", id); ("name", name); ("input", input)])
      | None => raise Untyped
      end
  end.
(** [{"type": ty, k: j}] for a text that is not empty. *)
Definition text_blocks (ty k : string) (j : json) : list json :=
  match j with JStr s => if truthy s then [JObj [("type", JStr ty); (k, JStr s)]] else [] | _ => [] end.

Definition stop_reason_map : odict string string := [("stop", "end_turn"); ("tool_calls", "tool_use"); ("length", "max_tokens")].
Definition stop_of {S} (finish : json) : M dyn_error S string :=
  match finish with
  | JStr s => mret (default "end_turn" (od_get s stop_reason_map))
  | JArr _ | JObj _ => raise TypeError
  | _ => mret "end_turn"
  end.

Definition openai_to_anthropic_response {S} (resp : json) (model : string) : M dyn_error S json :=
  choices ← py_get_or "choices" (JArr []) resp;
  msg ← (if jtruthy choices then c0 ← py_first choices; py_get_or "message" (JObj []) c0 else mret (JObj []));
  reasoning ← openai_reasoning msg;
  text ← py_get "content" msg;
  tcs ← py_get_or "tool_calls" (JArr []) msg;
  l ← py_iter tcs;
  calls ← map_m call_block l;
  let blocks := text_blocks "thinking" "thinking" reasoning ++ text_blocks "text" "text" text ++ calls in
  finish ← (if jtruthy choices then c0 ← py_first choices; py_get_or "finish_reason" (JStr "stop") c0 else mret (JStr "stop"));
  stop ← stop_of finish;
  let stop' := if String.eqb stop "tool_use" && negb (existsb (block_is "tool_use") blocks) then "end_turn" else stop in
  usage ← py_get_or "usage" (JObj []) resp;
  i ← py_get "id" resp;
  id ← (if jtruthy i then mret i else fresh ← fresh_id uuid "msg_" 12; mret (JStr fresh));
  p ← py_get_or "prompt_tokens" (JInt 0) usage;
  c ← py_get_or "completion_tokens" (JInt 0) usage;
  mret (JObj [("id", id); ("type", JStr "message"); ("role", JStr "assistant"); ("model", JStr model); ("content", JArr blocks);
              ("stop_reason", JStr stop'); ("stop_sequence", JNull);
              ("usage", JObj [("input_tokens", p); ("output_tokens", c)])]).
End translators.

From S2P Require Import JsonText.
Import JsonTextProps.

(** ** What the translators preserve

    Repair leaves printed arguments alone when no text in them has a comma, calls
    survive the way to Chat Completions and back, and arguments that do not parse
    never become a call. *)
Module TranslatorsProps.

(** ** Text the comma expression does not touch *)

(** A character that can follow a separator: visible and no closing bracket. *)
Definition starter (c : ascii) : bool := visible c && negb (is_ch 93 c) && negb (is_ch 125 c).
Fixpoint quiet (s : string) : bool :=
  match s with
  | EmptyString => true
  | String c s' =>
      (if is_ch 44 c then match s' with String sp (String d _) => is_ch 32 sp && starter d | _ => false end else true) && quiet s'
  end.

Lemma quiet_app a b : quiet a = true -> quiet b = true -> quiet (a ++ b)%string = true.
Proof.
  intros Ha Hb. induction a as [|c a IH]; [done|]. rewrite app_string_cons. cbn [quiet] in *. apply andb_true_iff in Ha as [Hc Ha].
  rewrite (IH Ha), andb_true_r. destruct (is_ch 44 c); [|done]. destruct a as [|sp [|d a]]; done.
Qed.

Definition plain_text (s : string) : bool := all_chars (fun c => negb (is_ch 44 c)) s.
Lemma plain_quiet s : plain_text s = true -> quiet s = true.
Proof. induction s as [|c s IH]; [done|]. intros [Hc Hs]%andb_true_iff. cbn [quiet]. rewrite (IH Hs). by destruct (is_ch 44 c). Qed.
Lemma plain_app a b : plain_text (a ++ b) = plain_text a && plain_text b.
Proof. apply all_chars_app. Qed.
Lemma esc_plain s : plain_text s = true -> plain_text (esc_string s) = true.
Proof.
  induction s as [|c s IH]; [done|]. intros [Hc Hs]%andb_true_iff. cbn [esc_string]. rewrite plain_app, (IH Hs), andb_true_r.
  revert Hc. clear. by destruct c as [[] [] [] [] [] [] [] []].
Qed.
Lemma string_plain s : plain_text s = true -> plain_text (dumps_string s) = true.
Proof. intros H. unfold dumps_string. cbn [plain_text all_chars]. fold (plain_text (esc_string s ++ String chq "")). by rewrite plain_app, esc_plain. Qed.

(** The values whose texts have no comma. *)
Fixpoint comma_free (j : json) : bool :=
  match j with
  | JStr s => plain_text s
  | JArr l => forallb comma_free l
  | JObj fs => forallb (fun kv => plain_text (fst kv) && comma_free (snd kv)) fs
  | _ => true
  end.

Lemma int_plain z : plain_text (dumps_int z) = true.
Proof.
  assert (forall n, (0 <= n)%Z -> plain_text (dec_nonneg n) = true) as H.
  { intros n Hn. destruct (dec_nonneg_spec n Hn) as (_ & H & _). unfold plain_text. revert H. clear.
    induction (dec_nonneg n) as [|c s IH]; [done|]. cbn [all_chars]. intros [Hc Hs]%andb_true_iff. rewrite (IH Hs), andb_true_r.
    revert Hc. by destruct c as [[] [] [] [] [] [] [] []]. }
  unfold dumps_int. destruct (Z.ltb_spec z 0); [|by apply H]. cbn [plain_text all_chars]. apply H. lia.
Qed.
Lemma dumps_starter fr j : json_ok j = true -> exists c s, dumps fr j = String c s /\ starter c = true.
Proof.
  destruct j as [|[]|z|q|s|l|fs]; try (intros _; eexists _, _; by split); intros H; [|discriminate H].
  destruct (dumps_int_head z) as (c & s & E & Hc). exists c, s. cbn [dumps]. rewrite E. split; [done|].
  revert Hc. clear. by destruct c as [[] [] [] [] [] [] [] []]; intros [|].
Qed.

Lemma quiet_sep c s : starter c = true -> quiet (String c s) = true -> quiet (", " ++ String c s)%string = true.
Proof. intros Hc Hs. change (quiet (", " ++ String c s)%string) with (starter c && quiet (String c s)). by rewrite Hc. Qed.
Lemma quiet_join ws : Forall (fun w => quiet w = true /\ exists c s, w = String c s /\ starter c = true) ws -> quiet (join ", " ws) = true.
Proof.
  induction 1 as [|w ws [Hw _] Hws IH]; [done|]. destruct ws as [|w2 ws]; [done|].
  change (join ", " (w :: w2 :: ws)) with (w ++ ", " ++ join ", " (w2 :: ws))%string. apply quiet_app; [done|].
  apply Forall_cons in Hws as [[_ (c & s & -> & Hc)] _]. 
  destruct ws as [|w3 ws]; [by apply quiet_sep|].
  change (join ", " (String c s :: w3 :: ws)) with (String c (s ++ ", " ++ join ", " (w3 :: ws)))%string in *. by apply quiet_sep.
Qed.

Lemma dumps_quiet fr j : json_ok j = true -> comma_free j = true -> quiet (dumps fr j) = true.
Proof.
  induction j as [|b|z|q|s|l IH|fs IH] using json_nested_ind; intros Hok Hc; try done.
  - by destruct b.
  - apply plain_quiet, int_plain.
  - by apply plain_quiet, string_plain.
  - cbn [dumps]. change (String (chr 91) ?t) with (String (chr 91) "" ++ t)%string at 1.
    repeat apply quiet_app; try done. apply quiet_join, Forall_forall. intros w (x & -> & Hx)%list_elem_of_fmap.
    cbn [json_ok comma_free] in *. rewrite forallb_forall in Hok, Hc. rewrite Forall_forall in IH. apply list_elem_of_In in Hx as Hx'.
    split; [by apply IH; [|apply Hok|apply Hc] | by apply dumps_starter, Hok].
  - cbn [dumps]. change (String (chr 123) ?t) with (String (chr 123) "" ++ t)%string at 1.
    repeat apply quiet_app; try done. apply quiet_join, Forall_forall. intros w ([k x] & -> & Hx)%list_elem_of_fmap.
    cbn [json_ok comma_free fst snd] in *. apply andb_true_iff in Hok as [_ Hok]. rewrite forallb_forall in Hok, Hc. rewrite Forall_forall in IH.
    apply list_elem_of_In in Hx as Hx'. destruct (andb_true_eq _ _ (eq_sym (Hok _ Hx'))) as [Ok1 Ok2], (andb_true_eq _ _ (eq_sym (Hc _ Hx'))) as [C1 C2].
    cbn [fst snd] in *. split; [|eexists _, _; by split].
    apply quiet_app; [by apply plain_quiet, string_plain|]. apply quiet_app; [done | by apply (IH (k, x))].
Qed.

(** ** The expression on quiet text *)

Lemma uspace_starter d t : starter d = true -> matches uspace (String d t) = [].
Proof. by destruct d as [[] [] [] [] [] [] [] []]; intros [=]. Qed.
Lemma comma_other c t : is_ch 44 c = false -> matches comma_re (String c t) = [].
Proof. by destruct c as [[] [] [] [] [] [] [] []]; intros [=]. Qed.
Lemma star_none f n s : f s = [] -> star true f n s = [([], s)].
Proof. intros H. destruct n; [done|]. cbn [star]. by rewrite H. Qed.
Lemma star_space d t n : starter d = true ->
  star true (matches uspace) (S n) (String (chr 32) (String d t)) = [([], String d t); ([], String (chr 32) (String d t))].
Proof.
  intros Hd. cbn [star]. assert (matches uspace (String (chr 32) (String d t)) = [([], String d t)]) as -> by (by destruct d as [[] [] [] [] [] [] [] []]).
  rewrite filter_cons_True by (cbn; lia). cbn [filter list_filter map concat]. unfold then_match. cbn [fst snd].
  by rewrite star_none by (by apply uspace_starter).
Qed.
Lemma comma_starter d t : starter d = true -> matches comma_re (String (chr 44) (String (chr 32) (String d t))) = [].
Proof.
  intros Hd. unfold comma_re. cbn [seqs matches lit many]. unfold then_match.
  change (matches (ch ",") (String (chr 44) (String (chr 32) (String d t)))) with [(@nil string, String (chr 32) (String d t))].
  cbn [map concat fst snd String.length]. rewrite star_space by done. revert Hd. by destruct d as [[] [] [] [] [] [] [] []]; intros [=].
Qed.
Lemma sub_quiet f n s : quiet s = true -> re_sub_go n comma_re f s = s.
Proof.
  revert s. induction n as [|n IH]; intros s Hs; [by destruct s|]. destruct s as [|c s]; [done|]. cbn [re_sub_go].
  assert (matches comma_re (String c s) = []) as ->; [|cbn [quiet] in Hs; apply andb_true_iff in Hs as [_ Hs]; by rewrite IH].
  cbn [quiet] in Hs. apply andb_true_iff in Hs as [Hc _]. destruct (is_ch 44 c) eqn:E; [|by apply comma_other].
  destruct s as [|sp [|d s]]; [done..|]. apply andb_true_iff in Hc as [Hsp Hd].
  assert (c = chr 44) as -> by (revert E; clear; by destruct c as [[] [] [] [] [] [] [] []]).
  assert (sp = chr 32) as -> by (revert Hsp; clear; by destruct sp as [[] [] [] [] [] [] [] []]). by apply comma_starter.
Qed.

(** A printed object whose texts have no comma is returned as it is. *)
Lemma repair_printed fr fs : json_ok (JObj fs) = true -> comma_free (JObj fs) = true ->
  repair_json_string loads (dumps fr (JObj fs)) = Some (dumps fr (JObj fs)).
Proof.
  intros Hok Hc. destruct (codec_object (dumps := dumps fr) (loads := loads) fs) as [t Et]. unfold repair_json_string, tidy.
  assert (ustrip (dumps fr (JObj fs)) = dumps fr (JObj fs)) as -> by (rewrite Et; by apply ustrip_visible).
  assert (truthy (dumps fr (JObj fs)) = true) as -> by by rewrite Et. cbn [negb].
  assert (unfence (dumps fr (JObj fs)) = dumps fr (JObj fs)) as -> by by rewrite Et.
  unfold re_sub. rewrite sub_quiet by by apply dumps_quiet. by rewrite loads_dumps.
Qed.

(** ** Calls on the way to Chat Completions and back *)

Section calls.
Context (fr : Q -> string) (py_repr py_quote : json -> string) (uuid : nat -> string).

Record call : Type := { c_id : string; c_name : string; c_input : odict string json }.
Definition call_ok (c : call) : Prop := truthy (c_id c) = true /\ json_ok (JObj (c_input c)) = true /\ comma_free (JObj (c_input c)) = true.
Definition use_block (c : call) : json :=
  JObj [("type", JStr "tool_use"); ("id", JStr (c_id c)); ("name", JStr (c_name c)); ("input", JObj (c_input c))].
Definition text_block (t : string) : json := JObj [("type", JStr "text"); ("text", JStr t)].
Definition openai_form (c : call) : json :=
  JObj [("id", JStr (c_id c)); ("type", JStr "function");
    ("function", JObj [("name", JStr (c_name c)); ("arguments", JStr (dumps fr (JObj (c_input c))))])].

Lemma assistant_calls {S} cs texts done (s : S) n : Forall call_ok cs ->
  fold_m (assistant_block (dumps fr) uuid) (map use_block cs) (texts, done) s n = (Ok (texts, done ++ map openai_form cs), s, n).
Proof.
  intros H. revert done. induction H as [|c cs (Hid & _) Hcs IH]; intros done; [by rewrite app_nil_r|].
  cbn [map fold_m]. erewrite bind_ok.
  2: { instantiate (1 := n). instantiate (1 := s). instantiate (1 := (texts, done ++ [openai_form c])).
       destruct c as [[|a i] nm input]; [done | reflexivity]. }
  cbv beta. etrans; [apply IH|]. by rewrite <- app_assoc.
Qed.

Lemma call_back {S} c (s : S) n : call_ok c -> call_block py_repr py_quote loads uuid (openai_form c) s n = (Ok (use_block c), s, n).
Proof.
  intros (Hid & Hok & Hc). unfold call_block. set (args := JStr (dumps fr (JObj (c_input c)))).
  rewrite (bind_ok _ _ s n (JObj [("name", JStr (c_name c)); ("arguments", args)]) s n eq_refl). cbv beta.
  rewrite (bind_ok _ _ s n args s n eq_refl). cbv beta.
  destruct (codec_object (dumps := dumps fr) (loads := loads) (c_input c)) as [t Et].
  erewrite bind_ok.
  2: { unfold repair_value. assert (jtruthy args = true) as -> by (subst args; cbn [jtruthy]; by rewrite Et).
       cbn [negb]. subst args. cbv iota. by rewrite repair_printed. }
  cbv beta iota. rewrite (bind_ok _ _ s n (JStr (c_id c)) s n eq_refl). cbv beta.
  rewrite (bind_ok _ _ s n (JStr (c_id c)) s n) by (destruct c as [[|a i] nm input]; [done | reflexivity]). cbv beta.
  rewrite (bind_ok _ _ s n (JStr (c_name c)) s n eq_refl). by rewrite loads_dumps.
Qed.
Lemma calls_back {S} cs (s : S) n : Forall call_ok cs ->
  map_m (call_block py_repr py_quote loads uuid) (map openai_form cs) s n = (Ok (map use_block cs), s, n).
Proof. induction 1 as [|c cs Hc Hcs IH]; [done|]. cbn [map map_m]. erewrite bind_ok by by apply call_back. cbv beta. by erewrite bind_ok by exact IH. Qed.
End calls.

(** ** Claims *)

Definition completion (id finish : string) (message : json) : json :=
  JObj [("id", JStr id); ("choices", JArr [JObj [("index", JInt 0); ("message", message); ("finish_reason", JStr finish)]])].
Definition field_of (k : string) (r : res dyn_error json) : json := match r with Ok j => block_field k JNull j | Raise _ => JNull end.

Definition chat_message (text : string) (calls : list json) : json :=
  JObj ([("role", JStr "assistant"); ("content", JStr text)] ++ match calls with [] => [] | _ => [("tool_calls", JArr calls)] end).
(** An answer made of one message, once its calls are read. *)
Lemma answer_runs py_repr py_quote json_loads uuid id finish text calls blocks model n : truthy text = true ->
  map_m (call_block py_repr py_quote json_loads uuid) calls tt n = (Ok blocks, tt, n) ->
  let answer := out_res (openai_to_anthropic_response py_repr py_quote json_loads uuid (completion id finish (chat_message text calls)) model tt n) in
  let stop := default "end_turn" (od_get finish stop_reason_map) in
  field_of "content" answer = JArr (text_block text :: blocks) /\
  field_of "stop_reason" answer = JStr (if String.eqb stop "tool_use" && negb (existsb (block_is "tool_use") blocks) then "end_turn" else stop).
Proof.
  intros Ht Hc answer stop. subst answer. unfold openai_to_anthropic_response.
  set (choice := JObj [("index", JInt 0); ("message", chat_message text calls); ("finish_reason", JStr finish)]).
  rewrite (bind_ok _ _ tt n (JArr [choice]) tt n eq_refl). cbv beta.
  rewrite (bind_ok _ _ tt n (chat_message text calls) tt n eq_refl). cbv beta.
  rewrite (bind_ok _ _ tt n JNull tt n) by by destruct calls. cbv beta.
  rewrite (bind_ok _ _ tt n (JStr text) tt n) by by destruct calls. cbv beta.
  rewrite (bind_ok _ _ tt n (JArr calls) tt n) by by destruct calls. cbv beta.
  rewrite (bind_ok _ _ tt n calls tt n eq_refl). cbv beta. rewrite (bind_ok _ _ tt n blocks tt n Hc). cbv beta zeta.
  rewrite (bind_ok _ _ tt n (JStr finish) tt n eq_refl). cbv beta. rewrite (bind_ok _ _ tt n stop tt n eq_refl). cbv beta.
  rewrite (bind_ok _ _ tt n (JObj []) tt n eq_refl). cbv beta. rewrite (bind_ok _ _ tt n (JStr id) tt n eq_refl). cbv beta.
  assert (text_blocks "text" "text" (JStr text) = [text_block text]) as -> by (unfold text_blocks; by rewrite Ht).
  by destruct id.
Qed.

(** An assistant's turn survives the way to Chat Completions and back.  A turn of
    a text and tool calls whose arguments have no comma inside a text is written as
    one message; an answer made of that message is read as the same text and the
    same calls, identifiers and arguments included, and it stops for tool use
    exactly when there are calls. *)
Theorem legacy_turn_roundtrip fr py_repr py_quote uuid text cs id model n :
  truthy text = true -> Forall call_ok cs ->
  let blocks := text_block text :: map use_block cs in
  exists m, assistant_message (dumps fr) uuid blocks tt n = (Ok [m], tt, n) /\
    let answer := out_res (openai_to_anthropic_response py_repr py_quote loads uuid
                    (completion id (match cs with [] => "stop" | _ => "tool_calls" end) m) model tt n) in
    field_of "content" answer = JArr blocks /\
    field_of "stop_reason" answer = JStr (match cs with [] => "end_turn" | _ => "tool_use" end).
Proof.
  intros Ht Hcs blocks. exists (chat_message text (map (openai_form fr) cs)). split.
  - unfold assistant_message. erewrite bind_ok.
    2: { subst blocks. cbn [fold_m]. erewrite bind_ok by reflexivity. cbv beta. exact (assistant_calls fr uuid cs [JStr text] [] tt n Hcs). }
    cbv beta. rewrite (bind_ok _ _ tt n (JStr text) tt n eq_refl). by destruct cs.
  - destruct (answer_runs py_repr py_quote loads uuid id (match cs with [] => "stop" | _ => "tool_calls" end) text (map (openai_form fr) cs)
      (map use_block cs) model n Ht) as [H1 H2]; [by apply calls_back|]. split; [exact H1|]. etrans; [exact H2|]. by destruct cs.
Qed.

Lemma legacy_turn_roundtrip_witness :
  let cs := [{| c_id := "t1"; c_name := "bash"; c_input := [("cmd", JStr "ls [a]"); ("n", JArr [JInt 1; JInt 2])] |}] in
  exists m, assistant_message (dumps (fun _ => "0.0")) (fun _ => "u") (text_block "hi" :: map use_block cs) tt 0%nat = (Ok [m], tt, 0%nat) /\
    field_of "stop_reason" (out_res (openai_to_anthropic_response (fun _ => "") (fun _ => "") loads (fun _ => "u") (completion "r" "tool_calls" m) "claude-x" tt 0%nat)) =
    JStr "tool_use".
Proof.
  intros cs. destruct (legacy_turn_roundtrip (fun _ => "0.0") (fun _ => "") (fun _ => "") (fun _ => "u") "hi" cs "r" "claude-x" 0%nat) as (m & H1 & _ & H2).
  - reflexivity.
  - repeat constructor.
  - exists m. split; [exact H1 | exact H2].
Defined.

(** The tool calls of the message of an answer, and their arguments. *)
Definition calls_of (resp : json) : list json :=
  match block_field "choices" JNull resp with
  | JArr (c :: _) => match block_field "tool_calls" JNull (block_field "message" JNull c) with JArr l => l | _ => [] end
  | _ => []
  end.
Definition arguments_of (tc : json) : json := block_field "arguments" (JStr "{}") (block_field "function" (JObj []) tc).

Section fails_closed.
Context (py_repr py_quote : json -> string) (json_loads : string -> option json) (uuid : nat -> string).
Hypothesis loads_empty : json_loads "{}" = Some (JObj []).

(** What the input of a call block comes from. *)
Definition read_from (raw : json) (input : odict string json) : Prop :=
  (jtruthy raw = false /\ input = []) \/
  exists s, raw = JStr s /\ ((ustrip s = "" /\ input = []) \/ json_loads (tidy s) = Some (JObj input)).

Lemma repair_from {S} raw t (s s' : S) n n' : repair_value json_loads raw s n = (Ok (Some t), s', n') ->
  exists input, json_loads t = Some (JObj input) /\ read_from raw input.
Proof.
  unfold repair_value. destruct (jtruthy raw) eqn:Et; cbn [negb]; [|intros [= <- _ _]; exists []; split; [done | by left]].
  destruct raw as [| | | |x| |]; try done. unfold repair_json_string. destruct (truthy (ustrip x)) eqn:Ex; cbn [negb].
  - destruct (json_loads (tidy x)) as [[| | | | | |fs]|] eqn:El; try done. intros [= <- _ _]. exists fs. split; [done|]. right. by exists x; split; [|right].
  - intros [= <- _ _]. exists []. split; [done|]. right. exists x. split; [done|]. left. by destruct (ustrip x).
Qed.

Lemma call_block_closed {S} tc b (s s' : S) n n' : call_block py_repr py_quote json_loads uuid tc s n = (Ok b, s', n') -> block_is "tool_use" b = true ->
  exists input, block_field "input" JNull b = JObj input /\ read_from (arguments_of tc) input.
Proof.
  unfold call_block. intros (fn & s1 & n1 & Hf & H)%bind_inv Hb. apply bind_inv in H as (raw & s2 & n2 & Hr & H).
  assert (raw = arguments_of tc) as ->.
  { destruct tc as [| | | | | |fs]; try done. injection Hf as <- <- <-. unfold arguments_of. cbn [block_field]. destruct (default _ (od_get "function" fs)); try done.
    by injection Hr as <- <- <-. }
  apply bind_inv in H as ([t|] & s3 & n3 & Hrep & H).
  - destruct (repair_from _ _ _ _ _ _ Hrep) as (input & Hl & Hi). repeat (apply bind_inv in H as (? & ? & ? & _ & H)).
    rewrite Hl in H. injection H as <- _ _. by exists input.
  - apply bind_inv in H as (? & ? & ? & _ & H). by injection H as <- _ _.
Qed.
Lemma call_blocks_closed {S} l bs (s s' : S) n n' : map_m (call_block py_repr py_quote json_loads uuid) l s n = (Ok bs, s', n') ->
  Forall2 (fun tc b => block_is "tool_use" b = true -> exists input, block_field "input" JNull b = JObj input /\ read_from (arguments_of tc) input) l bs.
Proof.
  revert bs s n s' n'. induction l as [|tc l IH]; intros bs s n s' n'; [by intros [= <- _ _]|]. cbn [map_m].
  intros (b & s1 & n1 & Hb & H)%bind_inv. apply bind_inv in H as (ys & s2 & n2 & Hys & [= <- _ _]).
  constructor; [by eapply call_block_closed | by eapply IH].
Qed.
End fails_closed.

(** The calls that are read are those of the answer's message: what has no [get]
    raises before a block is made. *)
Lemma block_calls_dict {S} py_repr py_quote json_loads uuid l bs (s s' : S) n n' :
  map_m (call_block py_repr py_quote json_loads uuid) l s n = (Ok bs, s', n') -> Forall (fun tc => is_dict tc = true) l.
Proof.
  revert bs s n s' n'. induction l as [|tc l IH]; intros bs s n s' n'; [done|]. cbn [map_m].
  intros (b & s1 & n1 & Hb & H)%bind_inv. apply bind_inv in H as (ys & s2 & n2 & Hys & _). constructor; [|by eapply IH].
  unfold call_block in Hb. apply bind_inv in Hb as (fn & ? & ? & Hf & _). by destruct tc.
Qed.
Lemma iter_dicts {S} tcs l (s s' : S) n n' : py_iter tcs s n = (Ok l, s', n') -> Forall (fun tc => is_dict tc = true) l -> tcs = JArr l \/ l = [].
Proof.
  destruct tcs as [| | | |x|l'|fs]; intros [= <- _ _] Hd; [|by left|].
  - destruct x as [|c x]; [by right|]. by inversion Hd.
  - destruct fs as [|f fs]; [by right|]. by inversion Hd.
Qed.
Lemma message_calls (resp choices msg tcs : json) l (s s1 s2 s4 s5 : unit) n n1 n2 n4 n5 :
  py_get_or "choices" (JArr []) resp s n = (Ok choices, s1, n1) ->
  (if jtruthy choices then c0 ← py_first choices; py_get_or "message" (JObj []) c0 else mret (JObj [])) s1 n1 = (Ok msg, s2, n2) ->
  py_get_or "tool_calls" (JArr []) msg s4 n4 = (Ok tcs, s5, n5) ->
  tcs = JArr l \/ l = [] -> forall tc, tc ∈ l -> tc ∈ calls_of resp.
Proof.
  intros Hch Hm Htc Hl tc Hin. destruct Hl as [-> | ->]; [|by apply not_elem_of_nil in Hin].
  assert (msg <> JObj []) as Hne by (intros ->; injection Htc as <- _ _; by apply not_elem_of_nil in Hin).
  destruct resp as [| | | | | |fs]; try done. injection Hch as Hch _ _. unfold calls_of. cbn [block_field].
  destruct (jtruthy choices) eqn:Et; [|by injection Hm as <- _ _].
  destruct (od_get "choices" fs) as [ch|]; cbn [default] in *; unfold id in *; subst; [|done].
  apply bind_inv in Hm as (c0 & ? & ? & Hf & Hm). destruct c0 as [| | | | | |cf]; try done. injection Hm as <- _ _.
  destruct choices as [| | | |w|[|c cs]|]; try done; [destruct w; [done | inversion Hf]|]. injection Hf as -> _ _. cbn [block_field] in *.
  destruct (od_get "message" cf) as [[| | | | | |mf]|]; try done. injection Htc as Htc _ _. cbn [default block_field] in *. unfold id in *. cbn [block_field].
  destruct (od_get "tool_calls" mf) as [tc'|]; cbn [default] in *; [unfold id in *; by subst|]. injection Htc as <-. by apply not_elem_of_nil in Hin.
Qed.

Lemma text_no_call ty k j b : String.eqb "tool_use" ty = false -> b ∈ text_blocks ty k j -> block_is "tool_use" b = false.
Proof.
  intros Hty. unfold text_blocks. destruct j as [| | | |t| |]; try (intros H; by apply not_elem_of_nil in H).
  destruct (truthy t); [|intros H; by apply not_elem_of_nil in H]. by intros ->%list_elem_of_singleton.
Qed.

(** Arguments that do not parse never become a call.  Whatever an upstream answers,
    every call in the translated answer has an object as its input, and that object
    is what the arguments of one of the upstream's calls parse to, or the empty
    object where they were blank; and an answer stops for tool use only if it has a
    call. *)
Theorem legacy_answer_fails_closed py_repr py_quote json_loads uuid resp model n j n' :
  json_loads "{}" = Some (JObj []) ->
  openai_to_anthropic_response py_repr py_quote json_loads uuid resp model tt n = (Ok j, tt, n') ->
  exists blocks, block_field "content" JNull j = JArr blocks /\
    (forall b, b ∈ blocks -> block_is "tool_use" b = true -> exists tc input, tc ∈ calls_of resp /\ block_field "input" JNull b = JObj input /\
       read_from json_loads (arguments_of tc) input) /\
    (block_field "stop_reason" JNull j = JStr "tool_use" -> exists b, b ∈ blocks /\ block_is "tool_use" b = true).
Proof.
  intros Hl H. unfold openai_to_anthropic_response in H.
  apply bind_inv in H as (choices & s1 & n1 & Hch & H). apply bind_inv in H as (msg & s2 & n2 & Hm & H).
  apply bind_inv in H as (reasoning & s3 & n3 & _ & H). apply bind_inv in H as (text & s4 & n4 & _ & H).
  apply bind_inv in H as (tcs & s5 & n5 & Htc & H). apply bind_inv in H as (l & s6 & n6 & Hit & H).
  apply bind_inv in H as (calls & s7 & n7 & Hc & H).
  apply bind_inv in H as (finish & s8 & n8 & _ & H). apply bind_inv in H as (stop & s9 & n9 & _ & H).
  repeat (apply bind_inv in H as (? & ? & ? & _ & H)). injection H as <- _. cbn [block_field].
  set (blocks := text_blocks "thinking" "thinking" reasoning ++ text_blocks "text" "text" text ++ calls).
  exists blocks. split_and!; [reflexivity| |].
  - intros b Hb Hu. assert (b ∈ calls) as Hbc.
    { subst blocks. rewrite !elem_of_app in Hb. destruct Hb as [Hb|[Hb|Hb]]; [| |done]; (apply text_no_call in Hb; [congruence | done]). }
    pose proof (call_blocks_closed _ _ _ _ Hl _ _ _ _ _ _ Hc) as Hf. apply list_elem_of_lookup in Hbc as [k Hk].
    destruct (Forall2_lookup_r _ _ _ _ _ Hf Hk) as (tc & Htl & Hi). destruct (Hi Hu) as (input & Ei & Hr).
    exists tc, input. split_and!; [|done..]. eapply message_calls; [done..| |by eapply list_elem_of_lookup_2].
    eapply iter_dicts; [done | by eapply block_calls_dict].
  - intros [= Hs]. destruct (existsb (block_is "tool_use") blocks) eqn:Ex.
    + apply existsb_exists in Ex as (b & Hb & Hu). exists b. split; [by apply list_elem_of_In | done].
    + destruct (String.eqb stop "tool_use") eqn:Es; cbn [andb negb] in Hs; [done|]. subst stop. done.
Qed.

Definition parsed_call (args : string) : json :=
  completion "r" "tool_calls" (chat_message "x" [JObj [("id", JStr "c"); ("function", JObj [("name", JStr "bash"); ("arguments", JStr args)])]]).
Definition blocks_of (args : string) : json :=
  field_of "content" (out_res (openai_to_anthropic_response (fun _ => "") (fun _ => "repr") loads (fun _ => "u") (parsed_call args) "claude-x" tt 0%nat)).
Definition braced (s : string) : string := (String (chr 123) (s ++ String (chr 125) ""))%string.

Lemma legacy_answer_fails_closed_witness :
  exists blocks, blocks_of (braced (quoted "a" ++ ": [1,]"))%string = JArr blocks /\ exists b, b ∈ blocks /\ block_is "tool_use" b = true.
Proof.
  destruct (openai_to_anthropic_response (fun _ => "") (fun _ => "repr") loads (fun _ => "u") (parsed_call (braced (quoted "a" ++ ": [1,]"))) "claude-x" tt 0%nat)
    as [[r []] n'] eqn:E.
  destruct r as [j|e]; [|vm_compute in E; discriminate E].
  destruct (legacy_answer_fails_closed (fun _ => "") (fun _ => "repr") loads (fun _ => "u") (parsed_call (braced (quoted "a" ++ ": [1,]"))) "claude-x" 0%nat j n'
    eq_refl E) as (blocks & Hc & _ & Hs).
  exists blocks. split; [unfold blocks_of; rewrite E; exact Hc|]. apply Hs. vm_compute in E. injection E as <- _. reflexivity.
Defined.

(** Repair changes arguments that were valid.  The expression that removes trailing
    commas does not know texts: arguments that parse as they are and whose text has
    a comma before a closing bracket reach the client with that comma removed, as
    the input of a call the model never made. *)
Theorem repair_alters_arguments :
  let args := braced (quoted "cmd" ++ ": " ++ quoted "echo [1, ]")%string in
  loads args = Some (JObj [("cmd", JStr "echo [1, ]")]) /\
  repair_json_string loads args = Some (braced (quoted "cmd" ++ ": " ++ quoted "echo [1]"))%string /\
  blocks_of args = JArr [text_block "x"; use_block {| c_id := "c"; c_name := "bash"; c_input := [("cmd", JStr "echo [1]")] |}] /\
  blocks_of (braced "oops") = JArr [text_block "x"; text_block ("[unparseable tool_call arguments for repr: " ++ braced "oops" ++ "]")].
Proof. split_and!; vm_compute; reflexivity. Qed.

End TranslatorsProps.
