(* ===== verification/Adapters.v ===== *)
(** * Reading provider answers

    The [normalize_response] methods of [src/durallm/providers/adapters.py]: the
    body as text, an event stream where a document was expected, and Anthropic's
    two answer forms. *)

From stdpp Require Import base tactics list strings.
From Stdlib Require Import QArith Ascii.
From S2P Require Import Prelude PyText Utf8 Json PyDyn IR Sse CodecOpenAI CodecAnthropic CodecGemini.

(** [ValueError] for an empty body or text that is not JSON, [UnicodeDecodeError],
    or an exception of the codecs. *)
Inductive answer_error : Type := EmptyBody | NotJson | NotUtf8 | Codec (e : dyn_error).

Definition lift {S A} (m : M dyn_error S A) : M answer_error S A := fun s n =>
  match m s n with (Ok a, s', n') => (Ok a, s', n') | (Raise e, s', n') => (Raise (Codec e), s', n') end.

Section adapters.
Context (py_repr : json -> string) (json_dumps : json -> string) (json_loads : string -> option json) (uuid : nat -> string)
  (body_digest : json -> string).

(** [body.decode("utf-8", errors="replace").strip()] *)
Definition body_text (body : string) : string := ustrip (utf8_replace body).
Definition line_mark (p text : string) : bool := starts_with p text || contains (String nl p) text.

(** [OpenAICompatibleAdapter.normalize_response] *)
Definition openai_normalize {S} (model body : string) : M answer_error S NormalizedResponse :=
  let text := body_text body in
  if negb (truthy text) then raise EmptyBody
  else if line_mark "data:" text then
    fun s n => match sse_chunks_to_ir json_loads json_dumps uuid text model n with
               | Ok r => (Ok r, s, Datatypes.S n) | Raise e => (Raise (Codec e), s, Datatypes.S n) end
  else match json_loads text with
       | Some j => lift (openai_response_to_ir py_repr json_dumps json_loads uuid j)
       | None => raise NotJson
       end.

(** ** Anthropic documents *)

(** The loop over the content blocks. *)
Record AnswerBlocks : Type := { ab_text : list json; ab_reasoning : json; ab_signature : json; ab_calls : list NormalizedToolCall }.
Definition no_answer_blocks : AnswerBlocks := {| ab_text := []; ab_reasoning := JNull; ab_signature := JNull; ab_calls := [] |}.

Definition answer_block {S} (a : AnswerBlocks) (b : json) : M dyn_error S AnswerBlocks :=
  ty ← py_get "type" b;
  if jeqs "text" ty then
    mret {| ab_text := ab_text a ++ [block_field "text" (JStr "") b]; ab_reasoning := ab_reasoning a; ab_signature := ab_signature a; ab_calls := ab_calls a |}
  else if jeqs "thinking" ty then
    mret {| ab_text := ab_text a; ab_reasoning := block_field "thinking" (JStr "") b; ab_signature := block_field "signature" JNull b; ab_calls := ab_calls a |}
  else if jeqs "tool_use" ty then
    i ← py_get_or "id" (JStr "") b; tid ← want_str i;
    nm ← py_get_or "name" (JStr "") b; name ← want_str nm;
    args ← py_get_or "input" (JObj []) b;
    mret {| ab_text := ab_text a; ab_reasoning := ab_reasoning a; ab_signature := ab_signature a;
            ab_calls := ab_calls a ++ [make_tool_call json_dumps tid name args ""] |}
  else mret a.
Fixpoint answer_blocks {S} (a : AnswerBlocks) (l : list json) : M dyn_error S AnswerBlocks :=
  match l with [] => mret a | b :: l' => a' ← answer_block a b; answer_blocks a' l' end.

(** [finish_map.get(stop_reason, "stop")]; a list or a dict is no key. *)
Definition finish_of {S} (stop_reason : json) : M dyn_error S string :=
  match stop_reason with
  | JStr s => mret (default "stop" (od_get s [("end_turn", "stop"); ("tool_use", "tool_calls"); ("max_tokens", "length")]))
  | JArr _ | JObj _ => raise TypeError
  | _ => mret "stop"
  end.
(** ["".join(parts)] of a list that may be empty. *)
Definition join_all {S} (l : list json) : M dyn_error S string := ts ← map_m py_text l; mret (join "" ts).

Definition anthropic_answer {S} (model : string) (raw : json) : M dyn_error S NormalizedResponse :=
  c ← py_get_or "content" (JArr []) raw; l ← py_iter c;
  a ← answer_blocks no_answer_blocks l;
  usage ← py_get_or "usage" (JObj []) raw;
  stop ← py_get_or "stop_reason" (JStr "end_turn") raw;
  i ← py_get_or "id" (JStr "") raw; rid ← want_str i;
  content ← join_all (ab_text a);
  reasoning ← want_opt_str (ab_reasoning a); signature ← want_opt_str (ab_signature a);
  finish ← finish_of stop;
  it ← py_get_or "input_tokens" (JInt 0) usage; inp ← want_int it;
  ot ← py_get_or "output_tokens" (JInt 0) usage; out ← want_int ot;
  mret {| response_id := rid; resp_model := model; resp_content := Some content; resp_reasoning_content := reasoning;
          resp_reasoning_signature := signature; resp_tool_calls := ab_calls a; finish_reason := finish; input_tokens := inp;
          output_tokens := out; raw_response := Some raw |}.

(** ** Anthropic event streams

    [_parse_anthropic_sse] *)
Record AnswerStream : Type := {
  as_text : list json;
  as_reasoning : json;
  as_signature : json;
  as_calls : list NormalizedToolCall;
  as_model : json;
  as_id : json;
  as_input_tokens : json;
  as_output_tokens : json;
  as_stop_reason : json;
  as_block_type : json;
  as_tool_id : json;
  as_tool_name : json;
  as_tool_input : string;
}.
Abbreviation A := (M dyn_error AnswerStream).

Definition with_head (i m inp : json) (a : AnswerStream) : AnswerStream :=
  {| as_text := as_text a; as_reasoning := as_reasoning a; as_signature := as_signature a; as_calls := as_calls a; as_model := m; as_id := i;
     as_input_tokens := inp; as_output_tokens := as_output_tokens a; as_stop_reason := as_stop_reason a; as_block_type := as_block_type a;
     as_tool_id := as_tool_id a; as_tool_name := as_tool_name a; as_tool_input := as_tool_input a |}.
Definition with_text (l : list json) (a : AnswerStream) : AnswerStream :=
  {| as_text := l; as_reasoning := as_reasoning a; as_signature := as_signature a; as_calls := as_calls a; as_model := as_model a; as_id := as_id a;
     as_input_tokens := as_input_tokens a; as_output_tokens := as_output_tokens a; as_stop_reason := as_stop_reason a; as_block_type := as_block_type a;
     as_tool_id := as_tool_id a; as_tool_name := as_tool_name a; as_tool_input := as_tool_input a |}.
Definition with_thinking (r g : json) (a : AnswerStream) : AnswerStream :=
  {| as_text := as_text a; as_reasoning := r; as_signature := g; as_calls := as_calls a; as_model := as_model a; as_id := as_id a;
     as_input_tokens := as_input_tokens a; as_output_tokens := as_output_tokens a; as_stop_reason := as_stop_reason a; as_block_type := as_block_type a;
     as_tool_id := as_tool_id a; as_tool_name := as_tool_name a; as_tool_input := as_tool_input a |}.
Definition with_block (ty : json) (a : AnswerStream) : AnswerStream :=
  {| as_text := as_text a; as_reasoning := as_reasoning a; as_signature := as_signature a; as_calls := as_calls a; as_model := as_model a; as_id := as_id a;
     as_input_tokens := as_input_tokens a; as_output_tokens := as_output_tokens a; as_stop_reason := as_stop_reason a; as_block_type := ty;
     as_tool_id := as_tool_id a; as_tool_name := as_tool_name a; as_tool_input := as_tool_input a |}.
Definition with_tool (i nm : json) (text : string) (a : AnswerStream) : AnswerStream :=
  {| as_text := as_text a; as_reasoning := as_reasoning a; as_signature := as_signature a; as_calls := as_calls a; as_model := as_model a; as_id := as_id a;
     as_input_tokens := as_input_tokens a; as_output_tokens := as_output_tokens a; as_stop_reason := as_stop_reason a; as_block_type := as_block_type a;
     as_tool_id := i; as_tool_name := nm; as_tool_input := text |}.
Definition with_calls (l : list NormalizedToolCall) (a : AnswerStream) : AnswerStream :=
  {| as_text := as_text a; as_reasoning := as_reasoning a; as_signature := as_signature a; as_calls := l; as_model := as_model a; as_id := as_id a;
     as_input_tokens := as_input_tokens a; as_output_tokens := as_output_tokens a; as_stop_reason := as_stop_reason a; as_block_type := as_block_type a;
     as_tool_id := as_tool_id a; as_tool_name := as_tool_name a; as_tool_input := as_tool_input a |}.
Definition with_end (stop out : json) (a : AnswerStream) : AnswerStream :=
  {| as_text := as_text a; as_reasoning := as_reasoning a; as_signature := as_signature a; as_calls := as_calls a; as_model := as_model a; as_id := as_id a;
     as_input_tokens := as_input_tokens a; as_output_tokens := out; as_stop_reason := stop; as_block_type := as_block_type a;
     as_tool_id := as_tool_id a; as_tool_name := as_tool_name a; as_tool_input := as_tool_input a |}.

Definition on_message_start (data : json) : A unit :=
  msg ← py_get_or "message" (JObj []) data;
  i ← py_get "id" msg; m ← py_get "model" msg;
  usage ← py_get_or "usage" (JObj []) msg;
  a ← get;
  inp ← py_get_or "input_tokens" (as_input_tokens a) usage;
  modify (fun a => with_head (jor i (as_id a)) (jor m (as_model a)) inp a).

Definition on_block_start (data : json) : A unit :=
  cb ← py_get_or "content_block" (JObj []) data;
  ty ← py_get "type" cb;
  modify (with_block ty) ;;
  if jeqs "text" ty then t ← py_get_or "text" (JStr "") cb; modify (fun a => with_text (as_text a ++ [t]) a)
  else if jeqs "thinking" ty then
    r ← py_get_or "thinking" (JStr "") cb; g ← py_get "signature" cb; modify (with_thinking r g)
  else if jeqs "tool_use" ty then
    u ← fresh_id uuid "toolu_" 8;
    i ← py_get_or "id" (JStr u) cb; nm ← py_get_or "name" (JStr "") cb; modify (with_tool i nm "")
  else mret tt.

(** [(reasoning or "") + text] and [text += json]; other types raise. *)
Definition concat_text (a b : json) : A json :=
  match a, b with JStr x, JStr y => mret (JStr (x ++ y)) | _, _ => raise TypeError end.

Definition on_block_delta (data : json) : A unit :=
  delta ← py_get_or "delta" (JObj []) data;
  ty ← py_get "type" delta;
  if jeqs "text_delta" ty then t ← py_get_or "text" (JStr "") delta; modify (fun a => with_text (as_text a ++ [t]) a)
  else if jeqs "thinking_delta" ty then
    t ← py_get_or "thinking" (JStr "") delta;
    a ← get;
    r ← concat_text (jor (as_reasoning a) (JStr "")) t;
    modify (fun a => with_thinking r (as_signature a) a)
  else if jeqs "input_json_delta" ty then
    t ← py_get_or "partial_json" (JStr "") delta;
    s ← py_text t;
    modify (fun a => with_tool (as_tool_id a) (as_tool_name a) (as_tool_input a ++ s) a)
  else mret tt.

Definition on_block_stop : A unit :=
  a ← get;
  when (jeqs "tool_use" (as_block_type a)) (
    i ← want_str (as_tool_id a); nm ← want_str (as_tool_name a);
    let raw := as_tool_input a in
    let args := if truthy raw then default (JObj []) (json_loads raw) else JObj [] in
    modify (fun a => with_calls (as_calls a ++ [make_tool_call json_dumps i nm args raw]) a)) ;;
  modify (with_block JNull).

Definition on_message_delta (data : json) : A unit :=
  delta ← py_get_or "delta" (JObj []) data;
  stop ← py_get "stop_reason" delta;
  usage ← py_get_or "usage" (JObj []) data;
  a ← get;
  out ← py_get_or "output_tokens" (as_output_tokens a) usage;
  modify (fun a => with_end (jor stop (as_stop_reason a)) out a).

Definition stream_event (data : json) : A unit :=
  ty ← py_get "type" data;
  if jeqs "message_start" ty then on_message_start data
  else if jeqs "content_block_start" ty then on_block_start data
  else if jeqs "content_block_delta" ty then on_block_delta data
  else if jeqs "content_block_stop" ty then on_block_stop
  else if jeqs "message_delta" ty then on_message_delta data
  else mret tt.

Fixpoint stream_lines (ls : list string) : A unit :=
  match ls with
  | [] => mret tt
  | raw :: ls' =>
      let line := ustrip raw in
      if negb (truthy line) || negb (starts_with "data:" line) then stream_lines ls'
      else match json_loads (ustrip (str_drop 5 line)) with
           | Some (JObj fs) => stream_event (JObj fs) ;; stream_lines ls'
           | _ => stream_lines ls'
           end
  end.

Definition finish_stream : A NormalizedResponse :=
  a ← get;
  i ← want_str (as_id a); m ← want_str (as_model a);
  content ← join_parts (as_text a);
  reasoning ← want_opt_str (as_reasoning a); signature ← want_opt_str (as_signature a);
  finish ← finish_of (as_stop_reason a);
  inp ← want_int (as_input_tokens a); out ← want_int (as_output_tokens a);
  mret {| response_id := i; resp_model := m; resp_content := content; resp_reasoning_content := reasoning;
          resp_reasoning_signature := signature; resp_tool_calls := as_calls a; finish_reason := finish; input_tokens := inp;
          output_tokens := out; raw_response := Some (JObj [("id", JStr i); ("model", JStr m); ("content", JArr (as_text a))]) |}.

Definition start_stream (mid default_model : string) : AnswerStream :=
  {| as_text := []; as_reasoning := JNull; as_signature := JNull; as_calls := []; as_model := JStr default_model; as_id := JStr mid;
     as_input_tokens := JInt 0; as_output_tokens := JInt 0; as_stop_reason := JStr "end_turn"; as_block_type := JNull;
     as_tool_id := JStr ""; as_tool_name := JStr ""; as_tool_input := "" |}.

Definition parse_anthropic_sse (sse_text default_model : string) (n : nat) : res dyn_error NormalizedResponse :=
  let mid := ("msg_" ++ str_take 12 (uuid n))%string in
  out_res ((stream_lines (usplitlines sse_text) ;; finish_stream) (start_stream mid default_model) (S n)).

(** [AnthropicAdapter.normalize_response] *)
Definition anthropic_normalize {S} (model body : string) : M answer_error S NormalizedResponse :=
  let text := body_text body in
  if negb (truthy text) then raise EmptyBody
  else if line_mark "event:" text then
    fun s n => match parse_anthropic_sse text model n with
               | Ok r => (Ok r, s, Datatypes.S n) | Raise e => (Raise (Codec e), s, Datatypes.S n) end
  else match json_loads text with
       | Some j => lift (anthropic_answer model j)
       | None => raise NotJson
       end.

(** [GeminiAdapter.normalize_response]: strict decoding. *)
Definition gemini_normalize {S} (model body : string) : M answer_error S NormalizedResponse :=
  match utf8_decode body with
  | None => raise NotUtf8
  | Some text =>
      match json_loads text with
      | Some j => lift (gemini_response_to_ir py_repr json_dumps body_digest j model)
      | None => raise NotJson
      end
  end.
End adapters.

From S2P Require Import JsonText CodecOpenAIProps.
Import JsonTextProps.
Import CodecAnthropicProps.

(** ** Properties of the codecs together

    Requests and answers across the three dialects: what survives the way through
    a gateway, and what is lost between them. *)
Module AdaptersProps.

(** ** Bodies *)

Section bodies.
Context (json_dumps : json -> string) (json_loads : string -> option json) `{!JsonCodec json_dumps json_loads}.

Lemma no_break p s : all_chars printable s = true -> contains (String nl p) s = false.
Proof.
  induction s as [|c s IH]; [done|]. cbn [all_chars contains]. intros [Hc Hs]%andb_true_iff. rewrite (IH Hs), orb_false_r.
  destruct (String.prefix (String nl p) (String c s)) eqn:E; [|done]. apply prefix_true in E as [t Et].
  rewrite app_string_cons in Et. injection Et as -> _. done.
Qed.

(** A rendered document is read as that document. *)
Lemma document_body fs : json_ok (JObj fs) = true ->
  body_text (json_dumps (JObj fs)) = json_dumps (JObj fs) /\ truthy (json_dumps (JObj fs)) = true /\
  line_mark "data:" (json_dumps (JObj fs)) = false /\ line_mark "event:" (json_dumps (JObj fs)) = false.
Proof.
  intros Hok. pose proof (codec_line _ Hok) as [Hp Hv]%andb_true_iff. unfold body_text, line_mark.
  rewrite utf8_replace_valid by done. rewrite !no_break by done. destruct (codec_object fs) as [t ->].
  by rewrite ustrip_visible.
Qed.
Lemma document_object j : json_ok j = true -> (exists fs, j = JObj fs) ->
  body_text (json_dumps j) = json_dumps j /\ truthy (json_dumps j) = true /\
  line_mark "data:" (json_dumps j) = false /\ line_mark "event:" (json_dumps j) = false.
Proof. intros Hok [fs ->]. by apply document_body. Qed.
End bodies.

(** ** Answers to and from a Messages upstream *)

Section anthropic_answers.
Context (json_dumps : json -> string).

(** An answer as the next gateway reads it. *)
Definition answer_call_read (tc : NormalizedToolCall) : NormalizedToolCall := make_tool_call json_dumps (tc_id tc) (tc_name tc) (tc_arguments tc) "".
Definition answer_read (j : json) (model : string) (r : NormalizedResponse) : NormalizedResponse :=
  let signed := truthy (default "" (resp_reasoning_content r)) && truthy (default "" (resp_reasoning_signature r)) in
  {| response_id := prefixed "msg_" (response_id r); resp_model := model; resp_content := Some (default "" (resp_content r));
     resp_reasoning_content := if signed then resp_reasoning_content r else None;
     resp_reasoning_signature := if signed then resp_reasoning_signature r else None;
     resp_tool_calls := map answer_call_read (resp_tool_calls r);
     finish_reason := if existsb (String.eqb (finish_reason r)) ["tool_calls"; "length"] then finish_reason r else "stop";
     input_tokens := input_tokens r; output_tokens := output_tokens r; raw_response := Some j |}.

Definition use_block (tc : NormalizedToolCall) : json :=
  JObj [("type", JStr "tool_use"); ("id", JStr (tc_id tc)); ("name", JStr (tc_name tc)); ("input", tc_arguments tc)].
Lemma encode_calls {S} (uuid : nat -> string) tcs (s : S) n : Forall (fun tc => truthy (tc_id tc) = true) tcs ->
  map_m (answer_call uuid) tcs s n = (Ok (map use_block tcs), s, n).
Proof.
  induction 1 as [|tc tcs Ht _ IH]; [done|]. cbn [map_m map]. erewrite bind_ok; [cbv beta; by rewrite (bind_ok _ _ _ _ _ _ _ IH)|].
  unfold answer_call. rewrite Ht. reflexivity.
Qed.

Lemma read_answer_calls {S} tcs a (s : S) n :
  answer_blocks json_dumps a (map use_block tcs) s n =
  (Ok {| ab_text := ab_text a; ab_reasoning := ab_reasoning a; ab_signature := ab_signature a; ab_calls := ab_calls a ++ map answer_call_read tcs |}, s, n).
Proof.
  revert a. induction tcs as [|tc tcs IH]; intros a; [cbn; rewrite app_nil_r; by destruct a|]. cbn [map answer_blocks].
  erewrite bind_ok by reflexivity. cbv beta. rewrite IH. cbn [ab_text ab_reasoning ab_signature ab_calls]. by rewrite <- (assoc_L (++)).
Qed.

Lemma answer_blocks_app {S} l1 l2 a (s : S) n : answer_blocks json_dumps a (l1 ++ l2) s n = (a' ← answer_blocks json_dumps a l1; answer_blocks json_dumps a' l2) s n.
Proof.
  revert a s n. induction l1 as [|b l1 IH]; intros a s n; [done|]. cbn [app answer_blocks].
  unfold mbind, M_bind. destruct (answer_block _ a b s n) as [[[a'|e] s'] n']; [|done]. by rewrite IH.
Qed.

Lemma finish_roundtrip {S} f (s : S) n : finish_of (JStr (anthropic_stop f)) s n =
  (Ok (if existsb (String.eqb f) ["tool_calls"; "length"] then f else "stop"), s, n).
Proof.
  unfold anthropic_stop. cbn [od_get existsb]. repeat (case_decide; [subst; done|]).
  assert (forall x, f <> x -> String.eqb f x = false) as Hne by (intros; by apply String.eqb_neq). by rewrite !Hne.
Qed.

Lemma anthropic_answer_roundtrip {S} (uuid : nat -> string) r requested model (s : S) n j : Forall (fun tc => truthy (tc_id tc) = true) (resp_tool_calls r) ->
  ir_to_anthropic_response uuid r requested s n = (Ok j, s, n) ->
  anthropic_answer json_dumps model j s n = (Ok (answer_read j model r), s, n).
Proof.
  intros Hc. unfold ir_to_anthropic_response. rewrite (bind_ok _ _ _ _ _ _ _ (encode_calls uuid _ s n Hc)). cbv beta.
  set (blocks := thinking_block _ _ ++ _). intros [= Ej].
  assert (exists a, answer_blocks json_dumps no_answer_blocks blocks s n = (Ok a, s, n) /\
    join_all (ab_text a) s n = (Ok (default "" (resp_content r)), s, n) /\ ab_calls a = map answer_call_read (resp_tool_calls r) /\
    want_opt_str (ab_reasoning a) s n = (Ok (resp_reasoning_content (answer_read j model r)), s, n) /\
    want_opt_str (ab_signature a) s n = (Ok (resp_reasoning_signature (answer_read j model r)), s, n)) as (a & Ha & Ht & Hcs & Hr & Hg).
  { subst blocks. unfold thinking_block, text_block, answer_read. cbn [resp_reasoning_content resp_reasoning_signature].
    destruct (resp_content r) as [[|? ?]|]; destruct (resp_reasoning_content r) as [[|? ?]|];
      destruct (resp_reasoning_signature r) as [[|? ?]|]; cbn [app present truthy default from_option id andb];
      eexists; (split; [repeat (erewrite answer_blocks_app || idtac); cbn [answer_blocks]; repeat mstep; apply read_answer_calls|]);
      split_and!; reflexivity. }
  rewrite <- Ej. unfold anthropic_answer. mstep. mstep. rewrite (bind_ok _ _ _ _ _ _ _ Ha). cbv beta. do 4 mstep.
  rewrite (bind_ok _ _ _ _ _ _ _ Ht). cbv beta. rewrite (bind_ok _ _ _ _ _ _ _ Hr). cbv beta. rewrite (bind_ok _ _ _ _ _ _ _ Hg). cbv beta.
  rewrite (bind_ok _ _ _ _ _ _ _ (finish_roundtrip (finish_reason r) s n)). cbv beta. do 4 mstep.
  rewrite Hcs, Ej. reflexivity.
Qed.
End anthropic_answers.

(** ** Results without a tool name *)

Section nameless.
Context (py_repr : json -> string) (json_dumps : json -> string) (uuid : nat -> string).
Definition nameless (tr : NormalizedToolResult) : Prop := tr_tool_name tr = None.

Lemma read_block_nameless {S} a b (s : S) n a' s' n' : Forall nameless (bl_results a) ->
  read_block py_repr json_dumps uuid a b s n = (Ok a', s', n') -> Forall nameless (bl_results a').
Proof.
  intros Ha. unfold read_block. destruct (is_dict b); [|by intros [= <- _ _]].
  destruct (block_is "text" b); [by intros [= <- _ _]|]. destruct (block_is "thinking" b); [by intros [= <- _ _]|].
  destruct (block_is "tool_use" b); [by intros (tc & ? & ? & _ & [= <- _ _])%bind_inv|].
  destruct (block_is "tool_result" b); [|by intros [= <- _ _]].
  intros (tr & ? & ? & Htr & [= <- _ _])%bind_inv. cbn [bl_results]. apply Forall_app. split; [done|]. constructor; [|constructor].
  unfold read_tool_result in Htr. do 5 apply bind_inv in Htr as (? & ? & ? & _ & Htr). by injection Htr as <- _ _.
Qed.
Lemma read_blocks_nameless {S} l a (s : S) n a' s' n' : Forall nameless (bl_results a) ->
  read_blocks py_repr json_dumps uuid a l s n = (Ok a', s', n') -> Forall nameless (bl_results a').
Proof.
  revert a s n. induction l as [|b l IH]; intros a s n Ha; [by intros [= <- _ _]|]. cbn [read_blocks].
  intros (a1 & s1 & n1 & Hb & H)%bind_inv. by eapply IH; [eapply read_block_nameless|].
Qed.
Lemma message_nameless {S} msg (s : S) n m s' n' :
  anthropic_message py_repr json_dumps uuid msg s n = (Ok m, s', n') -> Forall nameless (tool_results m).
Proof.
  unfold anthropic_message. intros H. do 2 apply bind_inv in H as (? & ? & ? & _ & H). apply bind_inv in H as (c & ? & ? & _ & H).
  destruct c as [| | | | |l|]; try (by injection H as <- _ _; constructor).
  apply bind_inv in H as (a & ? & ? & Ha & H). apply read_blocks_nameless in Ha; [|constructor].
  unfold blocks_message in H. do 3 apply bind_inv in H as (? & ? & ? & _ & H). by injection H as <- _ _.
Qed.
End nameless.

Lemma map_m_Forall {S A B} (f : A -> M dyn_error S B) (P : B -> Prop) l s n ys s' n' :
  (forall x s n y s' n', f x s n = (Ok y, s', n') -> P y) -> map_m f l s n = (Ok ys, s', n') -> Forall P ys.
Proof.
  intros Hf. revert s n ys s' n'. induction l as [|x l IH]; intros s n ys s' n'; [intros [= <- _ _]; constructor|]. cbn [map_m].
  intros (y & s1 & n1 & Hy & H)%bind_inv. apply bind_inv in H as (ys' & s2 & n2 & Hys & H). injection H as <- _ _.
  constructor; [by eapply Hf | by eapply IH].
Qed.

(** ** Claims *)

(** A conversation in Messages form survives the trip to an upstream of that
    dialect: thinking with its signature, text, tool calls, tool results with their
    error marks, cache annotations of messages, tools and system prompt, choice,
    limit and sampling all read back as they were. *)
Theorem anthropic_request_roundtrip py_repr json_dumps uuid {S} req model (s : S) n :
  anthropic_shaped json_dumps req ->
  exists j, ir_to_anthropic_request req model s n = (Ok j, s, n) /\
  anthropic_request_to_ir py_repr json_dumps uuid j s n
  = (Ok (readdressed ("req_" ++ str_take 12 (uuid n)) model req), s, Datatypes.S n).
Proof.
  intros H. eexists. split; [by eapply encode_shaped|]. eapply arequest_roundtrip; [done|]. by eapply encode_shaped.
Qed.

(** The answer under another model's name, with the document it was read from. *)
Definition labelled (model : string) (document : json) (r : NormalizedResponse) : NormalizedResponse :=
  {| response_id := response_id r; resp_model := model; resp_content := resp_content r;
     resp_reasoning_content := resp_reasoning_content r; resp_reasoning_signature := resp_reasoning_signature r;
     resp_tool_calls := resp_tool_calls r; finish_reason := finish_reason r;
     input_tokens := input_tokens r; output_tokens := output_tokens r; raw_response := Some document |}.

(** The answers a dialect can express: its identifiers, its finish reasons, and
    what it has a place for. *)
Record chat_answer (dumps : json -> string) (r : NormalizedResponse) : Prop := {
  chat_id : starts_with "chatcmpl-" (response_id r) = true;
  chat_reasoning : present (resp_reasoning_content r) = resp_reasoning_content r /\ resp_reasoning_signature r = None;
  chat_calls : Forall (fun tc => canonical_call dumps tc = tc) (resp_tool_calls r);
  chat_finish : openai_finish r = finish_reason r;
}.
Record messages_answer (dumps : json -> string) (r : NormalizedResponse) : Prop := {
  ma_id : starts_with "msg_" (response_id r) = true;
  ma_content : is_Some (resp_content r);
  ma_reasoning : (resp_reasoning_content r = None /\ resp_reasoning_signature r = None) \/
    exists t sig, resp_reasoning_content r = Some t /\ truthy t = true /\ resp_reasoning_signature r = Some sig /\ truthy sig = true;
  ma_calls : Forall (fun tc => answer_call_read dumps tc = tc) (resp_tool_calls r);
  ma_finish : finish_reason r ∈ ["stop"; "tool_calls"; "length"];
}.

Lemma map_fixed {A} (f : A -> A) l : Forall (fun x => f x = x) l -> map f l = l.
Proof. induction 1 as [|x l Hx _ IH]; [done|]. cbn. by rewrite Hx, IH. Qed.
Lemma chat_exact dumps created r model : chat_answer dumps r ->
  returned dumps created r model = labelled model (ir_to_openai_response dumps created r model) r.
Proof.
  intros [Hi [Hr Hs] Hc Hf]. unfold returned, labelled, prefixed. by rewrite Hi, Hr, Hs, Hf, map_fixed.
Qed.
Lemma messages_exact dumps j model r : messages_answer dumps r -> answer_read dumps j model r = labelled model j r.
Proof.
  intros [Hi [c Hc] Hr Hcs Hf]. unfold answer_read, labelled, prefixed. rewrite Hi, Hc, map_fixed by done. f_equal.
  - destruct Hr as [[-> ->]|(t & sig & -> & Ht & -> & Hs)]; [done|]. cbn. by rewrite Ht, Hs.
  - destruct Hr as [[-> ->]|(t & sig & -> & Ht & -> & Hs)]; [done|]. cbn. by rewrite Ht, Hs.
  - repeat (apply elem_of_cons in Hf as [->|Hf]; [done|]). by apply elem_of_nil in Hf.
Qed.

(** C22: an answer that one gateway writes and another reads as its upstream's.  For
    answers whose calls carry an identifier and an argument text that parses to
    their arguments, the OpenAI form is read back as [returned] and the Anthropic form as
    [answer_read].  An answer the dialect can express comes back exactly, up to the
    model's name and the attached document.  The only other changes: the identifier
    gets the dialect's prefix; the OpenAI form drops the reasoning's signature and
    empty reasoning, and its finish reason is [tool_calls] when there are calls; the Anthropic form drops
    reasoning without a signature, reads a missing text as the empty one and any
    finish reason but [tool_calls] and [length] as [stop]; calls lose their metadata
    and have their argument text normalised. *)
Theorem chained_gateways_preserve_answers py_repr dumps loads `{!JsonCodec dumps loads} uuid {S} created r model endpoint (s : S) n j :
  Forall (call_faithful dumps loads) (resp_tool_calls r) ->
  json_ok (ir_to_openai_response dumps created r model) = true ->
  ir_to_anthropic_response uuid r model s n = (Ok j, s, n) -> json_ok j = true ->
  openai_normalize py_repr dumps loads uuid endpoint (dumps (ir_to_openai_response dumps created r model)) s n
    = (Ok (returned dumps created r model), s, Datatypes.S n) /\
  anthropic_normalize dumps loads uuid endpoint (dumps j) s n = (Ok (answer_read dumps j endpoint r), s, n) /\
  (chat_answer dumps r ->
    returned dumps created r model = labelled model (ir_to_openai_response dumps created r model) r) /\
  (messages_answer dumps r -> answer_read dumps j endpoint r = labelled endpoint j r).
Proof.
  intros Hc Ho Hj Hok. split_and!; [| | apply chat_exact | apply messages_exact].
  - unfold openai_normalize. destruct (document_object dumps loads _ Ho) as (-> & -> & -> & _); [by eexists|]. cbn [negb].
    rewrite codec_roundtrip by done. unfold lift. by rewrite (response_roundtrip py_repr dumps loads uuid created r model s n Hc).
  - unfold anthropic_normalize. destruct (document_object dumps loads _ Hok) as (-> & -> & _ & ->).
    { unfold ir_to_anthropic_response in Hj. apply bind_inv in Hj as (calls & ? & ? & _ & [= <- _ _]). by eexists. }
    cbn [negb]. rewrite codec_roundtrip by done. unfold lift.
    rewrite (anthropic_answer_roundtrip dumps uuid r model endpoint s n j); [done | | done].
    eapply Forall_impl; [exact Hc|]. by intros tc [Hi _].
Qed.

(** Tool results of a Messages conversation reach a Gemini upstream without
    their function's name: the decoder of such requests never fills it in and the
    Gemini encoder, unlike the OpenAI one, does not look it up by call id, so every
    result is attributed to a function called [tool]. *)
Theorem gemini_results_nameless py_repr json_dumps uuid {S} body (s : S) n req s' n' :
  anthropic_request_to_ir py_repr json_dumps uuid body s n = (Ok req, s', n') ->
  Forall (fun m => map result_part (tool_results m) = map (fun tr => function_response "tool" (tr_content tr)) (tool_results m)) (messages req).
Proof.
  unfold anthropic_request_to_ir. intros H. do 10 apply bind_inv in H as (? & ? & ? & _ & H).
  apply bind_inv in H as (ms & ? & ? & Hms & H). do 6 apply bind_inv in H as (? & ? & ? & _ & H). injection H as <- _ _. cbn [messages].
  eapply Forall_impl; [eapply map_m_Forall; [|exact Hms]; intros; by eapply message_nameless|].
  intros m Hm. cbv beta in *. apply map_ext_in. intros tr Htr%list_elem_of_In. rewrite Forall_forall in Hm.
  unfold result_part. by rewrite (Hm tr Htr).
Qed.

(** A tool message of a Chat Completions conversation is sent to an Anthropic
    upstream under the role [tool], which the Messages dialect does not have, with
    its output twice: once as text and once as the tool result. *)
Theorem tool_turn_sent_as_tool {S} req model c tid name (s : S) n j s' n' :
  truthy c = true ->
  bare "tool" c None [] [{| tr_tool_call_id := tid; tr_tool_name := Some name; tr_content := c; is_error := false |}] (Some name) ∈ messages req ->
  ir_to_anthropic_request req model s n = (Ok j, s', n') ->
  exists ms, jget "messages" j = Some (JArr ms) /\
  JObj [("role", JStr "tool"); ("content", JArr [JObj [("type", JStr "text"); ("text", JStr c)];
    JObj [("type", JStr "tool_result"); ("tool_use_id", JStr tid); ("content", JStr c); ("is_error", JBool false)]])] ∈ ms.
Proof.
  intros Hc Hin. unfold ir_to_anthropic_request. intros (choice & ? & ? & _ & H)%bind_inv. injection H as <- _ _.
  eexists. split; [reflexivity|]. apply list_elem_of_fmap. eexists. split; [|apply list_elem_of_filter; split; [|exact Hin]; reflexivity].
  unfold anthropic_turn, content_blocks, text_block. cbn [msg_cache_control content tool_calls tool_results reasoning_content role bare map app].
  by rewrite Hc.
Qed.

(** ** Witnesses *)

Definition py_dumps : json -> string := dumps (fun _ => "0.0").
Definition thinking_call : NormalizedToolCall :=
  {| tc_id := "toolu_1"; tc_name := "ls"; tc_arguments := JObj [("path", JStr "/")]; raw_arguments := py_dumps (JObj [("path", JStr "/")]); tc_metadata := [] |}.
Definition messages_request : NormalizedRequest :=
  {| request_id := "r"; req_model := "m";
     messages := [bare "user" "list" None [] [] None;
       {| role := "assistant"; content := ""; reasoning_content := Some "hm"; reasoning_signature := Some "sig"; tool_calls := [thinking_call];
          tool_results := []; msg_name := None; msg_cache_control := Some (JObj [("type", JStr "ephemeral")]); msg_metadata := [] |};
       bare "user" "" None [] [{| tr_tool_call_id := "toolu_1"; tr_tool_name := None; tr_content := "a b"; is_error := true |}] None];
     system_instruction := Some "be brief"; system_cache_control := Some (JObj [("type", JStr "ephemeral")]);
     tools := [{| td_name := "ls"; td_description := "lists"; td_parameters := default_schema; td_cache_control := None |}];
     tool_choice := Some (JObj [("type", JStr "auto")]); req_max_output_tokens := Some 256%Z; temperature := None; stream := true; req_metadata := [] |}.

Lemma messages_shaped : anthropic_shaped py_dumps messages_request.
Proof.
  assert (rendered_call py_dumps thinking_call) by (by repeat split).
  split; try done.
  - constructor; [|constructor; [|constructor; [|constructor]]]; split; try done; try (by constructor); try (by left).
    + right. by exists "hm", "sig".
    + by intros c [= <-].
  - by intros c [= <-].
  - constructor; [done | constructor].
  - right. split; [done|]. by eexists.
Qed.

Lemma anthropic_request_roundtrip_witness :
  anthropic_shaped py_dumps messages_request /\
  exists j, ir_to_anthropic_request messages_request "m2" tt 0%nat = (Ok j, tt, 0%nat) /\
  anthropic_request_to_ir no_repr py_dumps fixed_uuid j tt 0%nat = (Ok (readdressed "req_0123456789ab" "m2" messages_request), tt, 1%nat).
Proof. split; [exact messages_shaped|]. exact (anthropic_request_roundtrip no_repr py_dumps fixed_uuid messages_request "m2" tt 0%nat messages_shaped). Defined.

Definition signed_answer : NormalizedResponse :=
  {| response_id := "msg_1"; resp_model := "m"; resp_content := Some "ok"; resp_reasoning_content := Some "why"; resp_reasoning_signature := Some "sig";
     resp_tool_calls := [thinking_call]; finish_reason := "tool_calls"; input_tokens := 3%Z; output_tokens := 4%Z; raw_response := None |}.
Definition signed_document : json :=
  match out_res (ir_to_anthropic_response fixed_uuid signed_answer "m" tt 0%nat) with Ok j => j | Raise _ => JNull end.
Lemma chained_gateways_preserve_answers_witness :
  openai_normalize no_repr py_dumps loads fixed_uuid "up" (py_dumps (ir_to_openai_response py_dumps 1 signed_answer "m")) tt 0%nat
    = (Ok (returned py_dumps 1 signed_answer "m"), tt, 1%nat) /\
  anthropic_normalize py_dumps loads fixed_uuid "up" (py_dumps signed_document) tt 0%nat = (Ok (labelled "up" signed_document signed_answer), tt, 0%nat).
Proof.
  destruct (chained_gateways_preserve_answers no_repr py_dumps loads fixed_uuid 1 signed_answer "m" "up" tt 0%nat signed_document) as (H1 & H2 & _ & H3).
  - constructor; [by repeat split | constructor].
  - vm_compute. exact eq_refl.
  - vm_compute. exact eq_refl.
  - vm_compute. exact eq_refl.
  - split; [exact H1|]. rewrite H3 in H2; [exact H2|]. split.
    + reflexivity.
    + exists "ok". reflexivity.
    + right. exists "why", "sig". repeat split.
    + constructor; [vm_compute; exact eq_refl | constructor].
    + right. left.
Defined.

Definition result_body : json :=
  JObj [("messages", JArr [JObj [("role", JStr "user"); ("content", JArr [JObj [("type", JStr "tool_result"); ("tool_use_id", JStr "toolu_1"); ("content", JStr "a b")]])]])].
Lemma gemini_results_nameless_witness :
  exists req, out_res (anthropic_request_to_ir no_repr py_dumps fixed_uuid result_body tt 0%nat) = Ok req /\ length (messages req) = 1%nat /\
  Forall (fun m => map result_part (tool_results m) = map (fun tr => function_response "tool" (tr_content tr)) (tool_results m)) (messages req).
Proof.
  eexists. split; [reflexivity|]. split; [reflexivity|].
  apply (gemini_results_nameless no_repr py_dumps fixed_uuid result_body tt 0%nat _ tt 1%nat). reflexivity.
Defined.

Lemma tool_turn_sent_as_tool_witness :
  exists ms, jget "messages" (match out_res (ir_to_anthropic_request demo_request "m" tt 0%nat) with Ok j => j | Raise _ => JNull end) = Some (JArr ms) /\
  JObj [("role", JStr "tool"); ("content", JArr [JObj [("type", JStr "text"); ("text", JStr "a b")];
    JObj [("type", JStr "tool_result"); ("tool_use_id", JStr "call_1"); ("content", JStr "a b"); ("is_error", JBool false)]])] ∈ ms.
Proof.
  apply (tool_turn_sent_as_tool demo_request "m" "a b" "call_1" "ls" tt 0%nat _ tt 0%nat); [reflexivity | do 3 right; left | reflexivity].
Defined.

End AdaptersProps.
