(* ===== verification/Context.v ===== *)
(** * Context budgeting and compaction

    [src/durallm/agent/context.py].  Lengths and character classes are those of
    ASCII text.  The JSON codec and the indented printer are used as library
    functions: they are parameters.  The regular expressions for diagnostic and
    progress lines are run by the matcher of [Regex]. *)

From stdpp Require Import base tactics list sets strings.
From Stdlib Require Import QArith Ascii.
From S2P Require Import Prelude Models Json PyText Regex IR.

Definition slen (s : string) : nat := String.length s.

(** ** Token estimates *)

Definition tokens_of_len (n : nat) : nat := Nat.max 1 ((n + 3) / 4).

(** ** Lines of tool output

    [re.IGNORECASE] compares letters without their case.  A word boundary looks at
    both sides of a position: what comes before is a condition on the previous
    character, what follows is the next one or the end; for a search that only asks
    whether there is a match it does not matter that the next one is consumed. *)
Definition is_word (c : ascii) : bool :=
  is_digit c || (97 <=? code (ascii_lower c))%nat && (code (ascii_lower c) <=? 122)%nat || (code c =? 95)%nat.
Definition ich (c : ascii) : regex := RChar (fun d => Ascii.eqb (ascii_lower c) (ascii_lower d)).
Fixpoint ilit (s : string) : regex :=
  match s with
  | EmptyString => REps
  | String c EmptyString => ich c
  | String c s' => RSeq (ich c) (ilit s')
  end.

Definition anywhere (prev : option ascii) : bool := true.
Definition outside_word (prev : option ascii) : bool := match prev with Some c => negb (is_word c) | None => true end.
Definition inside_word (prev : option ascii) : bool := match prev with Some c => is_word c | None => false end.
Definition word_end : regex := RAlt (RChar (fun c => negb (is_word c))) REnd.
Definition quotation : regex := ch (chr 34).

(** [DIAGNOSTIC_PATTERNS], alternative by alternative.  A boundary next to an equals
    sign asks for a word on its other side. *)
Definition DIAGNOSTIC_PATTERNS : list ((option ascii -> bool) * regex) :=
  [(anywhere, seqs [alts [ilit "error"; ilit "fatal"; seqs [ilit "fail"; opt (alts [ilit "ed"; ilit "ure"])]; ilit "exception";
                          ilit "critical"; ilit "traceback"; ilit "panic"]; word_end]);
   (anywhere, seqs [alts [seqs [ilit "exit"; opt (seqs [plus space; ilit "code"])]; ilit "returncode"];
                    many space; opt (any_of ":="); many space; plus digit]);
   (anywhere, alts (map ilit ["AssertionError"; "TypeError"; "ValueError"; "KeyError"; "IndexError"; "AttributeError";
                              "SyntaxError"; "NameError"]));
   (outside_word, seqs [ilit "FAILED"; word_end]);
   (outside_word, seqs [ilit "FAIL"; word_end]);
   (inside_word, seqs [ilit "=== FAILURES ==="; RChar is_word]);
   (inside_word, seqs [ilit "=== ERRORS ==="; RChar is_word]);
   (anywhere, seqs [ilit "error[E"; plus digit; lit "]"]);
   (anywhere, seqs [ilit "error TS"; plus digit]);
   (anywhere, seqs [plus (RChar (fun c => is_word c || contains (String c "") ".-/")); lit "."; plus (RChar is_word);
                    lit ":"; plus digit; opt (seqs [lit ":"; plus digit]); lit ":"; many space; opt (ilit "fatal ");
                    alts [ilit "error"; ilit "warning"]]);
   (anywhere, seqs [ilit "File "; quotation; plus (RChar (fun c => negb (Ascii.eqb (chr 34) c))); quotation;
                    ilit ", line "; plus digit]);
   (anywhere, ilit "diff --git");
   (anywhere, seqs [lit "@@ -"; plus (any_of "0123456789,"); lit " +"; plus (any_of "0123456789,"); lit " @@"])].

Definition matches_at (prev : option ascii) (s : string) (p : (option ascii -> bool) * regex) : bool :=
  fst p prev && match matches (snd p) s with [] => false | _ => true end.
(** Whether an alternative matches somewhere in the text. *)
Fixpoint found_in (ps : list ((option ascii -> bool) * regex)) (prev : option ascii) (s : string) : bool :=
  existsb (matches_at prev s) ps ||
  match s with String c s' => found_in ps (Some c) s' | EmptyString => false end.
Definition is_diagnostic (line : string) : bool := found_in DIAGNOSTIC_PATTERNS None line.

Definition progress_re : regex :=
  seqs [plus (any_of ".FEsxX"); plus space; lit "["; many space; plus digit; lit "%]"].
Definition dots_re : regex := RSeq (plus (ch ".")) REnd.
(** Progress lines of a test runner. *)
Definition is_progress (line : string) : bool :=
  match re_match progress_re line, re_match dots_re line with None, None => false | _, _ => true end.

Section context.
Context (json_dumps json_dumps_indent : json -> string) (json_loads : string -> option json).

(** The lengths [estimate_tokens] adds up for a message. *)
Definition message_len (m : NormalizedMessage) : nat :=
  (slen (content m) + slen (default "" (reasoning_content m)) +
   list_sum (map (fun tc => slen (if truthy (raw_arguments tc) then raw_arguments tc else json_dumps (tc_arguments tc)))
     (tool_calls m)) +
   list_sum (map (fun tr => slen (tr_content tr)) (tool_results m)))%nat.

Definition request_len (r : NormalizedRequest) : nat :=
  (slen (default "" (system_instruction r)) + list_sum (map message_len (messages r)))%nat.

(** [estimate_tokens] of a request, of a text, of any other payload. *)
Definition estimate_tokens (r : NormalizedRequest) : nat := tokens_of_len (request_len r).
Definition estimate_text_tokens (s : string) : nat := tokens_of_len (slen s).
Definition estimate_json_tokens (j : json) : nat := tokens_of_len (slen (json_dumps j)).

(** ** Summaries of tool output *)

Definition newline : string := String (chr 10) "".
Definition lines_of (l : list string) : string := join newline l.
Definition truncated_mark : string := (newline ++ "... [truncated]")%string.

Definition summary_keys : list string :=
  ["status"; "exit_code"; "returncode"; "error"; "errors"; "message";
   "path"; "file"; "id"; "count"; "stderr"; "stdout"].

(** The fields of the JSON object that are kept, in the order of the key list. *)
Definition extract_fields (fs : list (string * json)) : list (string * json) :=
  omap (fun k => (fun v => (k, v)) <$> od_get k fs) summary_keys.

(** Cuts a text that is longer than the limit. *)
Definition clip (max_chars : nat) (s : string) : string :=
  if (max_chars <? slen s)%nat then (str_take max_chars s ++ truncated_mark)%string else s.

(** Diagnostic lines, without repetition, in order of appearance. *)
Fixpoint diagnostics (seen : list string) (lines : list string) : list string :=
  match lines with
  | [] => []
  | ln :: rest =>
      let cleaned := strip ln in
      if negb (truthy cleaned) || is_progress cleaned then diagnostics seen rest
      else if is_diagnostic cleaned && negb (bool_decide (cleaned ∈ seen))
      then cleaned :: diagnostics (cleaned :: seen) rest
      else diagnostics seen rest
  end.

Definition nonblank (lines : list string) : list string := filter (fun s => truthy s = true) (map strip lines).

Definition compacted_mark : string := "[Historical Tool Output compacted by DuraLLM to fit target budget]".

(** [extract_diagnostic_summary] *)
Definition extract_diagnostic_summary (raw : string) (max_chars : nat) : string :=
  if (slen raw <=? max_chars)%nat then raw else
  match (match json_loads raw with
         | Some (JObj fs) => match extract_fields fs with [] => None | ex => Some ex end
         | _ => None end) with
  | Some ex =>
      let formatted := ("[Structured Tool Output Summary (by DuraLLM)]:" ++ newline ++
        json_dumps_indent (JObj ex) ++ newline ++ "... (remaining payload truncated to preserve context budget)")%string in
      clip max_chars formatted
  | None =>
      let lines := splitlines raw in
      if (length lines <=? 4)%nat then
        let half := Nat.max 50 ((max_chars - 60) / 2) in
        (compacted_mark ++ newline ++ str_take half raw ++ newline ++ "... [truncated] ..." ++ newline ++
         str_last half raw)%string
      else
        let diag := diagnostics [] lines in
        let parts := [compacted_mark; ("--- HEAD (" ++ py_str_nat (length lines) ++ " total lines) ---")%string;
                      lines_of (nonblank (take 3 lines))] ++
          (match diag with
           | [] => []
           | _ => [("--- EXTRACTED DIAGNOSTICS & ERRORS (" ++ py_str_nat (length diag) ++ " findings) ---")%string;
                   lines_of (take (Nat.max 2 (Nat.min (length diag) 8)) diag)]
           end) ++
          ["--- TAIL ---"; lines_of (nonblank (drop (length lines - 3) lines))] in
        clip max_chars (lines_of parts)
  end.

(** ** Budgets and compaction *)

Record ContextBudget : Type := {
  model_context_window : Z;
  desired_output_tokens : Z;
  safety_margin_tokens : Z;
}.

(** [available_input_budget] *)
Definition available_input_budget (b : ContextBudget) : Z :=
  Z.max 512 (model_context_window b - desired_output_tokens b - safety_margin_tokens b).

Definition fits (target : Z) (r : NormalizedRequest) : bool := (Z.of_nat (estimate_tokens r) <=? target)%Z.

(** Tool results longer than [limit] are summarised. *)
Definition compact_results (limit : nat) (m : NormalizedMessage) : NormalizedMessage :=
  with_results (map (fun tr => if (limit <? slen (tr_content tr))%nat
                               then with_tr_content (extract_diagnostic_summary (tr_content tr) limit) tr else tr)
                 (tool_results m)) m.

Definition first_user_idx (ms : list NormalizedMessage) : option nat := fst <$> list_find (fun m => role m = "user") ms.
Definition protected_prefix_count (ms : list NormalizedMessage) : nat :=
  match first_user_idx ms with Some i => S i | None => 1 end.

(** Phase 1 *)
Definition phase1_message (root : option nat) (len idx : nat) (m : NormalizedMessage) : NormalizedMessage :=
  let m1 := compact_results 400 m in
  let is_root_user := bool_decide (Some idx = root) in
  let is_final_msg := (idx =? len - 1)%nat in
  if (1000 <? slen (content m1))%nat then
    if negb is_root_user && negb is_final_msg then with_content (extract_diagnostic_summary (content m1) 600) m1
    else if is_final_msg && negb is_root_user then with_content (extract_diagnostic_summary (content m1) 1200) m1
    else m1
  else m1.
Definition phase1 (root : option nat) (ms : list NormalizedMessage) : list NormalizedMessage :=
  imap (phase1_message root (length ms)) ms.

(** Phase 2: the turns between the protected prefix and the preserved tail. *)
Definition assistant_mark : string :=
  (newline ++ "... [Prior assistant reasoning compacted by DuraLLM] ..." ++ newline)%string.
Definition phase2_message (m : NormalizedMessage) : NormalizedMessage :=
  let m1 := compact_results 300 m in
  if (600 <? slen (content m1))%nat && String.eqb (role m1) "assistant"
  then with_content (str_take 300 (content m1) ++ assistant_mark ++ str_last 300 (content m1))%string m1
  else m1.
Definition phase2 (prefix tail : nat) (ms : list NormalizedMessage) : list NormalizedMessage :=
  imap (fun idx m => if ((prefix <=? idx) && (idx <? Nat.max prefix (length ms - tail)))%nat then phase2_message m else m) ms.

(** [messages.pop(i)] *)
Definition pop_at {A} (i : nat) (ms : list A) : list A := take i ms ++ drop (S i) ms.

(** [while len(messages) > keep: if fits: break; messages.pop(i)]; [fuel] bounds
    the iterations, one message disappears in each. *)
Fixpoint evict_loop (fuel keep i : nat) (target : Z) (r : NormalizedRequest) : NormalizedRequest :=
  match fuel with
  | O => r
  | S f => if (keep <? length (messages r))%nat && negb (fits target r)
           then evict_loop f keep i target (with_messages (pop_at i (messages r)) r) else r
  end.
Definition evict_turns (keep i : nat) (target : Z) (r : NormalizedRequest) : NormalizedRequest :=
  evict_loop (length (messages r)) keep i target r.

(** Phase 3 *)
Definition phase3_message (root : option nat) (idx : nat) (m : NormalizedMessage) : NormalizedMessage :=
  if bool_decide (Some idx = root) then m else
  let m1 := compact_results 250 m in
  if (500 <? slen (content m1))%nat then with_content (extract_diagnostic_summary (content m1) 400) m1 else m1.
Definition phase3 (root : option nat) (ms : list NormalizedMessage) : list NormalizedMessage :=
  imap (phase3_message root) ms.

(** Phase 4: descriptions of tools and of their parameters, then the system
    instruction. *)
Definition short_description (d : string) : string :=
  if (120 <? slen d)%nat then
    let first_sent := (before ". " d ++ ".")%string in
    if (slen first_sent <=? 120)%nat then first_sent else str_take 120 d
  else d.
Definition shorten_property (p : json) : json :=
  match p with
  | JObj fs =>
      match od_get "description" fs with
      | Some (JStr s) => if (50 <? slen s)%nat then JObj (od_set "description" (JStr (str_take 50 s)) fs) else p
      | _ => p
      end
  | _ => p
  end.
(** [properties.values()] raises on anything but an object. *)
Definition shorten_parameters (params : json) : res exn json :=
  match params with
  | JObj fs =>
      match od_get "properties" fs with
      | None => Ok params
      | Some (JObj ps) => Ok (JObj (od_set "properties" (JObj (map (fun kv => (fst kv, shorten_property (snd kv))) ps)) fs))
      | Some _ => Raise (RuntimeError "AttributeError")
      end
  | _ => Ok params
  end.
Definition shorten_tool (t : NormalizedToolDefinition) : res exn NormalizedToolDefinition :=
  match shorten_parameters (td_parameters t) with
  | Ok p => Ok {| td_name := td_name t; td_description := short_description (td_description t); td_parameters := p;
                  td_cache_control := td_cache_control t |}
  | Raise e => Raise e
  end.
Fixpoint shorten_tools (ts : list NormalizedToolDefinition) : res exn (list NormalizedToolDefinition) :=
  match ts with
  | [] => Ok []
  | t :: ts' =>
      match shorten_tool t with
      | Raise e => Raise e
      | Ok t' => match shorten_tools ts' with Ok l => Ok (t' :: l) | Raise e => Raise e end
      end
  end.
Definition system_mark : string := (newline ++ "... [System instruction condensed by ContextManager] ...")%string.
Definition condense_system (target : Z) (r : NormalizedRequest) : NormalizedRequest :=
  match system_instruction r with
  | Some s => if (2000 <? slen s)%nat && negb (fits target r)
              then with_system (Some (str_take 2000 s ++ system_mark)%string) r else r
  | None => r
  end.

(** [compact]: the request to send and whether it was compacted. *)
Definition compact (preserve_tail_turns : nat) (request : NormalizedRequest) (budget : ContextBudget)
    : res exn (NormalizedRequest * bool) :=
  let target := available_input_budget budget in
  if fits target request then Ok (request, false) else
  let root := first_user_idx (messages request) in
  let prefix := protected_prefix_count (messages request) in
  let r1 := with_messages (phase1 root (messages request)) request in
  if fits target r1 then Ok (r1, true) else
  let r2 := with_messages (phase2 prefix preserve_tail_turns (messages r1)) r1 in
  if fits target r2 then Ok (r2, true) else
  let r3 := evict_turns (preserve_tail_turns + prefix) prefix target r2 in
  if fits target r3 then Ok (r3, true) else
  let r4 := with_messages (phase3 root (messages r3)) r3 in
  if fits target r4 then Ok (r4, true) else
  match shorten_tools (tools r4) with
  | Raise e => Raise e
  | Ok ts =>
      let r5 := condense_system target (with_tools ts r4) in
      let r6 := evict_turns (2 + prefix) prefix target r5 in
      if fits target r6 then Ok (r6, true)
      else Raise (ContextOverflowError (Z.of_nat (estimate_tokens r6)) target)
  end.
End context.

(** ** Correctness of context compaction

    A compacted request fits its budget or the call raises; compaction only
    shortens texts and drops turns between the protected prefix and the tail;
    the root objective survives verbatim. *)
Module ContextProps.

(** What compaction may not touch in a message: everything but the texts. *)
Definition result_skel (t : NormalizedToolResult) := (tr_tool_call_id t, tr_tool_name t, is_error t).
Definition msg_skel (m : NormalizedMessage) :=
  (role m, reasoning_content m, reasoning_signature m, tool_calls m, map result_skel (tool_results m), msg_name m).

(** ** Which lines a summary quotes *)

Definition telling (x : string) : bool := truthy x && negb (is_progress x) && is_diagnostic x.

Lemma diagnostics_cons seen ln rest :
  diagnostics seen (ln :: rest) =
    if telling (strip ln) && negb (bool_decide (strip ln ∈ seen)) then strip ln :: diagnostics (strip ln :: seen) rest
    else diagnostics seen rest.
Proof. cbn [diagnostics]. unfold telling. by destruct (truthy _), (is_progress _), (is_diagnostic _), (bool_decide _). Qed.

Lemma diagnostics_elem seen lines x :
  x ∈ diagnostics seen lines <-> x ∉ seen /\ x ∈ map strip lines /\ telling x = true.
Proof.
  revert seen. induction lines as [|ln rest IH]; intros seen; [set_solver|]. rewrite diagnostics_cons. cbn [map].
  destruct (telling (strip ln)) eqn:Et; cbn [andb].
  - destruct (bool_decide_reflect (strip ln ∈ seen)); cbn [negb]; rewrite ?elem_of_cons, IH, ?elem_of_cons;
      destruct (decide (x = strip ln)) as [->|]; naive_solver.
  - rewrite IH, elem_of_cons. split; [naive_solver|]. intros (? & [->|?] & ?); [congruence | done].
Qed.

Lemma diagnostics_nodup seen lines : NoDup (diagnostics seen lines).
Proof.
  revert seen. induction lines as [|ln rest IH]; intros seen; [constructor|]. rewrite diagnostics_cons.
  case_match; [|apply IH]. constructor; [rewrite diagnostics_elem; set_solver | apply IH].
Qed.

(** The findings of a summary are the telling lines of the output, each once. *)
Theorem diagnostics_spec lines :
  NoDup (diagnostics [] lines) /\ forall x, x ∈ diagnostics [] lines <-> x ∈ map strip lines /\ telling x = true.
Proof. split; [apply diagnostics_nodup|]. intros x. rewrite diagnostics_elem. set_solver. Qed.

(** Lines of compilers, test runners and patches that are found, and some that are
    not: the banners that open the report of a test run stand between equals signs, where
    the expression asks for letters. *)
Definition quoted (s : string) : string := (String (chr 34) s ++ String (chr 34) "")%string.
Example diagnostic_lines :
  forallb telling ["src/main.c:12:5: error: expected ;"; "E   AssertionError: 1 != 2"; "FAILED tests/test_a.py::test_b";
    "  File " ++ quoted "a.py" ++ ", line 3"; "error[E0308]: mismatched types"; "a.ts(1,2): error TS2322: no"; "exit code: 1";
    "@@ -1,2 +1,3 @@"; "diff --git a/x b/x"; "thread 'main' panicked; panic!"]%string = true /\
  existsb telling ["=== FAILURES ==="; "=================== ERRORS ==================="; "..F.E [ 50%]"; "....";
    "errors were not found"; "collected 12 items"; ""]%string = false.
Proof. split; vm_compute; reflexivity. Qed.

Section context_props.
Context (json_dumps json_dumps_indent : json -> string) (json_loads : string -> option json).
Implicit Types r : NormalizedRequest.

Local Abbreviation summarise := (extract_diagnostic_summary json_dumps_indent json_loads).
Local Abbreviation compact_request := (compact json_dumps json_dumps_indent json_loads).

(** [r] is [orig] with texts shortened and turns after the prefix dropped. *)
Record kept (tail : nat) (orig r : NormalizedRequest) : Prop := {
  kept_skel : exists k, let p := protected_prefix_count (messages orig) in
    (msg_skel <$> messages r) = take p (msg_skel <$> messages orig) ++ drop (p + k) (msg_skel <$> messages orig);
  kept_len : (Nat.min (length (messages orig)) (protected_prefix_count (messages orig) + Nat.min 2 tail)
    <= length (messages r))%nat;
  kept_root : forall i m, first_user_idx (messages orig) = Some i -> messages orig !! i = Some m ->
    exists m', messages r !! i = Some m' /\ content m' = content m;
  kept_tools : map td_name (tools r) = map td_name (tools orig);
  kept_system : system_instruction r = system_instruction orig \/
    exists s, system_instruction orig = Some s /\ (2000 < slen s)%nat /\
      system_instruction r = Some (str_take 2000 s ++ system_mark)%string;
}.

Lemma kept_refl tail r : kept tail r r.
Proof.
  split; [|lia|by eauto|done|by left]. exists 0%nat. cbv zeta. rewrite Nat.add_0_r. by rewrite take_drop.
Qed.

Lemma root_before_prefix ms i : first_user_idx ms = Some i -> (i < protected_prefix_count ms)%nat.
Proof. unfold protected_prefix_count. intros ->. lia. Qed.

(** A pass over the messages that leaves skeletons and the root's content. *)
Lemma kept_pass tail orig r (f : nat -> NormalizedMessage -> NormalizedMessage) :
  (forall i m, msg_skel (f i m) = msg_skel m) ->
  (forall i m, first_user_idx (messages orig) = Some i -> content (f i m) = content m) ->
  kept tail orig r -> kept tail orig (with_messages (imap f (messages r)) r).
Proof.
  intros Hs Hc [H1 H2 H3 H4 H5].
  assert ((msg_skel <$> imap f (messages r)) = (msg_skel <$> messages r)) as Hm.
  { apply list_eq. intros i. rewrite !list_lookup_fmap, list_lookup_imap.
    destruct (messages r !! i); simpl; [by rewrite Hs | done]. }
  split; cbn [messages with_messages tools system_instruction]; [by rewrite Hm | by rewrite length_imap | | done | done].
  intros i m Hi Hm0. destruct (H3 i m Hi Hm0) as (m' & Hm' & Hcm). rewrite list_lookup_imap, Hm'. simpl.
  eexists. split; [done|]. by rewrite Hc.
Qed.

Lemma pop_skel {A} p k (l : list A) : (p <= length l)%nat ->
  take p (take p l ++ drop (p + k) l) ++ drop (S p) (take p l ++ drop (p + k) l) = take p l ++ drop (p + S k) l.
Proof.
  intros Hp. rewrite take_app_le, take_take, Nat.min_id by (rewrite length_take; lia).
  rewrite drop_app_ge by (rewrite length_take; lia). rewrite length_take, drop_drop. do 2 f_equal. lia.
Qed.

Lemma kept_pop tail orig r :
  let p := protected_prefix_count (messages orig) in
  (p + Nat.min 2 tail < length (messages r))%nat ->
  kept tail orig r -> kept tail orig (with_messages (pop_at p (messages r)) r).
Proof.
  intros p Hlen [[k H1] H2 H3 H4 H5]. cbv zeta in H1. fold p in H1.
  assert (length (messages r) <= length (messages orig))%nat as Hle.
  { apply (f_equal length) in H1. rewrite length_app, length_take, length_drop, !length_fmap in H1. lia. }
  split; cbn [messages with_messages tools system_instruction]; [|unfold pop_at; rewrite length_app, length_take, length_drop; fold p; lia| | done | done].
  - exists (S k). cbv zeta. fold p. unfold pop_at. rewrite fmap_app, fmap_take, fmap_drop.
    rewrite H1.
    apply pop_skel. rewrite length_fmap. lia.
  - intros i m Hi Hm. destruct (H3 i m Hi Hm) as (m' & Hm' & Hc). exists m'. split; [|done].
    apply root_before_prefix in Hi. fold p in Hi. unfold pop_at. rewrite lookup_app_l by (rewrite length_take; lia).
    by rewrite lookup_take_lt.
Qed.

Lemma kept_evict tail orig r keep target :
  (protected_prefix_count (messages orig) + Nat.min 2 tail <= keep)%nat ->
  kept tail orig r ->
  kept tail orig (evict_turns json_dumps keep (protected_prefix_count (messages orig)) target r).
Proof.
  intros Hkeep. unfold evict_turns. generalize (length (messages r)) as fuel. intros fuel. revert r.
  induction fuel as [|fuel IH]; intros r Hr; simpl; [done|].
  destruct (Nat.ltb_spec keep (length (messages r))); simpl; [|done]. destruct (fits json_dumps target r); [done|].
  apply IH, kept_pop; [lia | done].
Qed.

(** The eviction loop ends because the request fits or nothing may go. *)
Lemma evict_turns_stops keep i target r : (i < keep)%nat ->
  let r' := evict_turns json_dumps keep i target r in
  fits json_dumps target r' = true \/ (length (messages r') <= keep)%nat.
Proof.
  intros Hi. unfold evict_turns.
  assert (forall fuel r, (length (messages r) <= fuel)%nat ->
    let r' := evict_loop json_dumps fuel keep i target r in
    fits json_dumps target r' = true \/ (length (messages r') <= keep)%nat) as Hg; [|by apply Hg].
  induction fuel as [|fuel IH]; intros r0 Hl; simpl; [right; lia|].
  destruct (Nat.ltb_spec keep (length (messages r0))); simpl; [|right; lia].
  destruct (fits json_dumps target r0) eqn:E; simpl; [by left|]. apply IH. simpl. unfold pop_at.
  rewrite length_app, length_take, length_drop. lia.
Qed.

Lemma compact_results_skel n m :
  msg_skel (compact_results json_dumps_indent json_loads n m) = msg_skel m /\
  content (compact_results json_dumps_indent json_loads n m) = content m.
Proof.
  split; [|done]. unfold msg_skel. simpl. do 2 f_equal. rewrite map_map. apply map_ext. intros t.
  by destruct (n <? slen (tr_content t))%nat.
Qed.

Lemma phase1_skel root len i m :
  msg_skel (phase1_message json_dumps_indent json_loads root len i m) = msg_skel m /\
  (root = Some i -> content (phase1_message json_dumps_indent json_loads root len i m) = content m).
Proof.
  unfold phase1_message. destruct (compact_results_skel 400 m) as [Hs Hc]. revert Hs Hc.
  generalize (compact_results json_dumps_indent json_loads 400 m). intros m1 Hs Hc.
  split; [by repeat case_match|]. intros ->. rewrite bool_decide_eq_true_2 by done. simpl. rewrite andb_false_r.
  by case_match.
Qed.
Lemma phase2_skel m : msg_skel (phase2_message json_dumps_indent json_loads m) = msg_skel m.
Proof. unfold phase2_message. destruct (compact_results_skel 300 m) as [Hs _]. by case_match. Qed.
Lemma phase3_skel root i m :
  msg_skel (phase3_message json_dumps_indent json_loads root i m) = msg_skel m /\
  (root = Some i -> phase3_message json_dumps_indent json_loads root i m = m).
Proof.
  unfold phase3_message. split; [|intros ->; by rewrite bool_decide_eq_true_2].
  case_bool_decide; [done|]. destruct (compact_results_skel 250 m) as [Hs _]. by case_match.
Qed.

Lemma shorten_tools_names ts ts' : shorten_tools ts = Ok ts' -> map td_name ts' = map td_name ts.
Proof.
  revert ts'. induction ts as [|t ts IH]; intros ts'; simpl; [by intros [= <-]|].
  unfold shorten_tool. destruct (shorten_parameters (td_parameters t)); [|done].
  destruct (shorten_tools ts) as [l|]; [|done]. intros [= <-]. simpl. by rewrite (IH l eq_refl).
Qed.

Lemma shorten_tools_raise ts e : shorten_tools ts = Raise e ->
  exists t, t ∈ ts /\ shorten_parameters (td_parameters t) = Raise e.
Proof.
  induction ts as [|t ts IH]; simpl; [done|]. unfold shorten_tool.
  destruct (shorten_parameters (td_parameters t)) eqn:E.
  - destruct (shorten_tools ts) as [l|e']; [done|]. intros [= ->]. destruct (IH eq_refl) as (t' & Hin & Ht').
    exists t'. split; [by right | done].
  - intros [= ->]. exists t. split; [by left | done].
Qed.

Lemma kept_condense tail orig r target :
  system_instruction r = system_instruction orig -> kept tail orig r -> kept tail orig (condense_system json_dumps target r).
Proof.
  intros Hs Hk. unfold condense_system. destruct (system_instruction r) as [s|] eqn:E; [|done].
  destruct (Nat.ltb_spec 2000 (slen s)); simpl; [|done]. destruct (fits json_dumps target r); [done|].
  destruct Hk as [H1 H2 H3 H4 H5]. split; try done. right. exists s. by rewrite <- Hs.
Qed.

Lemma evict_fields keep i target r :
  let r' := evict_turns json_dumps keep i target r in
  system_instruction r' = system_instruction r /\ tools r' = tools r.
Proof.
  unfold evict_turns. generalize (length (messages r)) as fuel. intros fuel. revert r.
  induction fuel as [|fuel IH]; intros r; simpl; [done|]. case_match; [|done].
  destruct (IH (with_messages (pop_at i (messages r)) r)) as [-> ->]. done.
Qed.

(** Compaction, phase by phase. *)
Lemma compact_kept tail r budget r' was :
  compact_request tail r budget = Ok (r', was) ->
  kept tail r r' /\ fits json_dumps (available_input_budget budget) r' = true /\ (was = false -> r' = r).
Proof.
  unfold compact. set (target := available_input_budget budget).
  destruct (fits json_dumps target r) eqn:E0; [intros [= <- <-]; split; [apply kept_refl | done]|].
  set (r1 := with_messages (phase1 _ _ _ _) r).
  assert (kept tail r r1) as K1.
  { apply kept_pass; [intros; apply phase1_skel | intros; by apply phase1_skel | apply kept_refl]. }
  destruct (fits json_dumps target r1) eqn:E1; [by intros [= <- <-]|].
  set (r2 := with_messages (phase2 _ _ _ _ _) r1).
  assert (kept tail r r2) as K2.
  { apply kept_pass; [intros; case_match; [apply phase2_skel | done]| |exact K1].
    intros i m Hi%root_before_prefix. destruct (Nat.leb_spec (protected_prefix_count (messages r)) i); [lia | done]. }
  destruct (fits json_dumps target r2) eqn:E2; [by intros [= <- <-]|].
  set (r3 := evict_turns _ _ _ _ r2).
  assert (kept tail r r3) as K3 by (apply kept_evict; [lia | exact K2]).
  destruct (fits json_dumps target r3) eqn:E3; [by intros [= <- <-]|].
  set (r4 := with_messages (phase3 _ _ _ _) r3).
  assert (kept tail r r4) as K4.
  { apply kept_pass; [intros; apply phase3_skel | | exact K3]. intros i m Hi. by rewrite (proj2 (phase3_skel _ i m) Hi). }
  destruct (fits json_dumps target r4) eqn:E4; [by intros [= <- <-]|].
  destruct (shorten_tools (tools r4)) as [ts|] eqn:Et; [|done]. cbv zeta.
  assert (kept tail r (condense_system json_dumps target (with_tools ts r4))) as K5.
  { apply kept_condense.
    - exact (proj1 (evict_fields _ _ target r2)).
    - destruct K4 as [H1 H2 H3 H4 H5]. split; try done. simpl. by rewrite (shorten_tools_names _ _ Et). }
  destruct (fits json_dumps target (evict_turns _ _ _ _ _)) eqn:E6; [|done]. intros [= <- <-].
  split; [apply kept_evict; [lia | exact K5] | done].
Qed.
End context_props.

(** C32: compaction fits or fails.  [compact] returns a request whose estimate is
    within the available budget (the unchanged request when it already fitted),
    or raises; when the tool schemas are well formed the only exception is the
    overflow error, and it reports an estimate above the budget. *)
Theorem compact_fits_or_raises dumps indent loads tail r budget :
  let target := available_input_budget budget in
  match compact dumps indent loads tail r budget with
  | Ok (r', was) => (Z.of_nat (estimate_tokens dumps r') <= target)%Z /\ (was = false <-> fits dumps target r = true)
                    /\ (was = false -> r' = r)
  | Raise (ContextOverflowError need avail) => avail = target /\ (target < need)%Z
  | Raise _ => exists t e, t ∈ tools r /\ shorten_parameters (td_parameters t) = Raise e
  end.
Proof.
  intros target. destruct (compact dumps indent loads tail r budget) as [[r' was]|e] eqn:E.
  - destruct (compact_kept dumps indent loads tail r budget r' was E) as (_ & Hf & Hw).
    split; [by apply Z.leb_le in Hf|]. split; [|done]. revert E. unfold compact. fold target.
    destruct (fits dumps target r) eqn:E0; [by intros [= <- <-]|]. intros E. split; [|done]. intros ->.
    rewrite (Hw eq_refl) in Hf. fold target in Hf. congruence.
  - revert E. unfold compact. fold target. repeat (case_match; [done|]).
    match goal with |- context [shorten_tools (tools ?x)] => set (r4 := x) end.
    assert (tools r4 = tools r) as Ht.
    { unfold r4. match goal with |- context [evict_turns _ ?k ?i ?t ?x] => exact (proj2 (evict_fields dumps k i t x)) end. }
    rewrite Ht.
    destruct (shorten_tools (tools r)) as [ts|e'] eqn:Es.
    + case_match eqn:Ef; [done|]. intros [= <-]. split; [done|]. by apply Z.leb_gt in Ef.
    + intros [= <-]. destruct (shorten_tools_raise _ _ Es) as (t & Ht1 & Hp). destruct e'; try by eauto.
      exfalso. revert Hp. unfold shorten_parameters. by repeat case_match.
Qed.

(** Compaction keeps the task.  In a compacted request the surviving turns
    are the protected prefix (up to the first user message) followed by a suffix
    of the rest, each with its role, reasoning, tool calls and result identities
    unchanged; at least two turns (or the configured tail, if shorter) remain
    after the prefix; the root user objective is kept word for word; no tool
    disappears; and the system instruction is the original or its first 2000
    characters with a mark. *)
Theorem compact_keeps_task dumps indent loads tail r budget r' was :
  compact dumps indent loads tail r budget = Ok (r', was) -> kept tail r r'.
Proof. intros H. by apply compact_kept in H as [Hk _]. Qed.

Definition msg (rl text : string) (calls : list NormalizedToolCall) (results : list NormalizedToolResult) : NormalizedMessage :=
  {| role := rl; content := text; reasoning_content := None; reasoning_signature := None; tool_calls := calls;
     tool_results := results; msg_name := None; msg_cache_control := None; msg_metadata := [] |}.
Fixpoint filler (n : nat) : string := match n with O => EmptyString | S k => String (chr 120) (filler k) end.
Definition call (id : string) : NormalizedToolCall :=
  {| tc_id := id; tc_name := "bash"; tc_arguments := JObj []; raw_arguments := "{}"; tc_metadata := [] |}.
Definition result (id : string) : NormalizedToolResult :=
  {| tr_tool_call_id := id; tr_tool_name := Some "bash"; tr_content := filler 200; is_error := false |}.
(** Four tool exchanges after the objective, about 600 tokens in all. *)
Definition demo_request : NormalizedRequest :=
  {| request_id := "r"; req_model := "m";
     messages := msg "user" "fix the bug" [] [] ::
       concat (map (fun id => [msg "assistant" (filler 400) [call id] []; msg "tool" "" [] [result id]]) ["c1"; "c2"; "c3"; "c4"]);
     system_instruction := None; tools := []; req_max_output_tokens := None; temperature := None; stream := false;
     system_cache_control := None; tool_choice := None; req_metadata := [] |}.
Definition demo_budget : ContextBudget :=
  {| model_context_window := 0; desired_output_tokens := 0; safety_margin_tokens := 0 |}.
Definition no_codec (j : json) : string := "".
Definition demo_compact := compact no_codec no_codec (fun _ => None).

Lemma compact_keeps_task_witness :
  exists r', demo_compact 6 demo_request demo_budget = Ok (r', true) /\ kept 6 demo_request r'.
Proof.
  eexists. split; [vm_compute; reflexivity|].
  apply (compact_keeps_task no_codec no_codec (fun _ => None) 6 demo_request demo_budget _ true).
  vm_compute. reflexivity.
Defined.

(** Eviction can orphan a tool result.  Turns are evicted one at a time, so
    compaction can drop the assistant turn that issued a tool call and keep the
    result that answers it. *)
Theorem eviction_orphans_result :
  exists r', demo_compact 6 demo_request demo_budget = Ok (r', true) /\
    existsb (fun m => existsb (fun t => String.eqb (tr_tool_call_id t) "c1") (tool_results m)) (messages r') = true /\
    existsb (fun m => existsb (fun t => String.eqb (tc_id t) "c1") (tool_calls m)) (messages r') = false.
Proof. eexists. split; [vm_compute; reflexivity|]. vm_compute. by split. Qed.

(** Shortening tool schemas frees nothing.  The size estimate ignores tool
    definitions, so phase 4 never changes whether a request fits: it degrades
    descriptions without making room. *)
Theorem tool_shortening_is_futile dumps ts r target :
  shorten_tools (tools r) = Ok ts ->
  estimate_tokens dumps (with_tools ts r) = estimate_tokens dumps r /\
  fits dumps target (with_tools ts r) = fits dumps target r.
Proof. done. Qed.

End ContextProps.
