(* ===== verification/Pruner.v ===== *)
(** * The request pruner

    [src/durallm/pruner.py]: the last-minute compaction of wire-format payloads,
    which the provider adapters apply before they send a request.  A payload is a
    JSON value; the deep copies it is worked on make the updates in place
    invisible to the caller, so they are functional updates here.  Lengths are
    those of ASCII text.  A payload whose [messages] is not a list, or holds
    anything else than dicts, raises as in Python; [Untyped] stands for the cases in
    which Python would go on, or fail, with a value of another type. *)

From stdpp Require Import base tactics list strings.
From Stdlib Require Import QArith.
From S2P Require Import Prelude Models Json PyText PyDyn IR Context.

(** [for i, x in enumerate(l, start=i)], each element updated in place. *)
Fixpoint imap_m {E S A B} (f : nat -> A -> M E S B) (i : nat) (l : list A) : M E S (list B) :=
  match l with
  | [] => mret []
  | x :: l' => y ← f i x; ys ← imap_m f (Datatypes.S i) l'; mret (y :: ys)
  end.

Definition fields : Type := list (string * json).

Section pruner.
Context (json_dumps json_dumps_indent : json -> string) (json_loads : string -> option json).
Abbreviation summary := (extract_diagnostic_summary json_dumps_indent json_loads).

(** [estimate_tokens]; serialising a JSON value cannot fail. *)
Definition payload_tokens (j : json) : Z :=
  Z.of_nat (tokens_of_len (slen (match j with JStr s => s | _ => json_dumps j end))).

Definition with_msgs (ms : list json) (fs : fields) : fields := od_set "messages" (JArr ms) fs.
(** [estimate_tokens(req)] while [messages] is being changed. *)
Definition tokens_with (fs : fields) (ms : list json) : Z := payload_tokens (JObj (with_msgs ms fs)).

(** [obj["k"] = summary(obj["k"])] when it is a text longer than [limit]. *)
Definition compact_field (k : string) (limit max_chars : nat) (fs : fields) : fields :=
  match od_get k fs with
  | Some (JStr s) => if (limit <? slen s)%nat then od_set k (JStr (summary s max_chars)) fs else fs
  | _ => fs
  end.

(** A [tool_result] part of a list content. *)
Definition compact_part (limit max_chars : nat) (part : json) : json :=
  match part with
  | JObj fs => if jeqs "tool_result" (default JNull (od_get "type" fs)) then JObj (compact_field "content" limit max_chars fs) else part
  | _ => part
  end.

(** A message: only a dict has [get]. *)
Definition on_dict {S} (f : fields -> M dyn_error S fields) (msg : json) : M dyn_error S json :=
  match msg with JObj fs => fs' ← f fs; mret (JObj fs') | _ => raise AttributeError end.
Definition role_is (r : string) (fs : fields) : bool := jeqs r (default JNull (od_get "role" fs)).

(** [payload.get("messages", [])] *)
Definition messages_of {S} (fs : fields) : M dyn_error S (list json) :=
  match od_get "messages" fs with None => mret [] | Some (JArr l) => mret l | Some _ => raise Untyped end.

(** [1 if messages and messages[0].get("role") == "system" else 0], plus one *)
Definition start_index {S} (ms : list json) : M dyn_error S nat :=
  match ms with
  | [] => mret 1%nat
  | m :: _ => r ← py_get "role" m; mret (if jeqs "system" r then 2 else 1)%nat
  end.

(** [while len(messages) > keep and estimate > target: messages.pop(i)]; one
    message disappears in each round, so the fuel, the number of messages, is
    enough. *)
Fixpoint pop_while (fuel keep i : nat) (target : Z) (fs : fields) (ms : list json) : list json :=
  match fuel with
  | O => ms
  | S f => if (keep <? length ms)%nat && (target <? tokens_with fs ms)%Z then pop_while f keep i target fs (pop_at i ms) else ms
  end.

(** ** Anthropic payloads *)

Definition compaction_mark : string :=
  (newline ++ "... [Output compacted by DuraLLM to fit context window] ..." ++ newline)%string.
Definition halve_block (b : json) : json :=
  match b with
  | JObj fs =>
      if jeqs "tool_result" (default JNull (od_get "type" fs)) then
        match od_get "content" fs with
        | Some (JStr s) =>
            if (600 <? slen s)%nat then JObj (od_set "content" (JStr (str_take 250 s ++ compaction_mark ++ str_last 250 s)) fs) else b
        | _ => b
        end
      else b
  | _ => b
  end.
Definition halve_results {S} (last i : nat) (msg : json) : M dyn_error S json :=
  if ((1 <=? i) && (i <? last))%nat then
    on_dict (fun fs => mret match od_get "content" fs with Some (JArr bs) => od_set "content" (JArr (map halve_block bs)) fs | _ => fs end) msg
  else mret msg.

Definition prune_anthropic_request {S} (request : json) (max_context_tokens safety_margin_tokens : Z) : M dyn_error S json :=
  let target := Z.max 512 (max_context_tokens - safety_margin_tokens) in
  if (payload_tokens request <=? target)%Z then mret request else
  match request with
  | JObj fs =>
      ms ← messages_of fs;
      if (length ms <=? 4)%nat then mret request else
      ms1 ← (if (7 <? length ms)%nat then imap_m (halve_results (length ms - 6)) 0 ms else mret ms);
      if (tokens_with fs ms1 <=? target)%Z then mret (JObj (with_msgs ms1 fs)) else
      mret (JObj (with_msgs (pop_while (length ms1) 8 1 target fs ms1) fs))
  | _ => raise AttributeError
  end.

(** ** OpenAI payloads *)

(** Two messages or fewer: nothing to evict, long contents are summarised. *)
Definition compact_short {S} (msg : json) : M dyn_error S json :=
  on_dict (fun fs => mret
    (if role_is "tool" fs || role_is "user" fs then
       match od_get "content" fs with
       | Some (JStr _) => compact_field "content" 2000 1500 fs
       | Some (JArr ps) => od_set "content" (JArr (map (compact_part 1000 800) ps)) fs
       | _ => fs
       end
     else fs)) msg.

(** Step 1: tool results, harder before the last two messages. *)
Definition compact_tool_turn {S} (start cutoff i : nat) (msg : json) : M dyn_error S json :=
  if (i <? start)%nat then mret msg else
  on_dict (fun fs => mret
    (if role_is "tool" fs
     then if (i <? cutoff)%nat then compact_field "content" 400 300 fs else compact_field "content" 1200 800 fs
     else fs)) msg.

(** Step 3: the tail is shortened by two messages at a time, from six. *)
Fixpoint shrink_tail (fuel tail min_tail start : nat) (target : Z) (fs : fields) (ms : list json) : list json :=
  match fuel with
  | O => ms
  | S f =>
      if (min_tail <? tail)%nat && (target <? tokens_with fs ms)%Z
      then shrink_tail f (tail - 2) min_tail start target fs (pop_while (length ms) (start + (tail - 2)) start target fs ms)
      else ms
  end.

(** Step 4: what assistants said, the last message excepted. *)
Definition compact_assistant {S} (start last i : nat) (msg : json) : M dyn_error S json :=
  if ((start <=? i) && (i <? last))%nat then
    on_dict (fun fs => mret (if role_is "assistant" fs then compact_field "content" 400 300 fs else fs)) msg
  else mret msg.

(** Steps 2 to 4, from the compacted messages. *)
Definition openai_window {S} (target : Z) (min_preserve_tail start : nat) (fs : fields) (ms1 : list json) : M dyn_error S json :=
  if (tokens_with fs ms1 <=? target)%Z then mret (JObj (with_msgs ms1 fs)) else
  let ms2 := pop_while (length ms1) (start + 6) start target fs ms1 in
  if (tokens_with fs ms2 <=? target)%Z then mret (JObj (with_msgs ms2 fs)) else
  let ms3 := shrink_tail 3 6 min_preserve_tail start target fs ms2 in
  if (tokens_with fs ms3 <=? target)%Z then mret (JObj (with_msgs ms3 fs)) else
  ms4 ← imap_m (compact_assistant start (length ms3 - 1)) 0 ms3;
  mret (JObj (with_msgs ms4 fs)).

Definition prune_openai_request {S} (request : json) (max_context_tokens safety_margin_tokens : Z) (min_preserve_tail : nat) : M dyn_error S json :=
  let target := Z.max 512 (max_context_tokens - safety_margin_tokens) in
  if (payload_tokens request <=? target)%Z then mret request else
  match request with
  | JObj fs =>
      ms ← messages_of fs;
      match ms with
      | [] => mret request
      | _ =>
          if (length ms <=? 2)%nat then ms' ← map_m compact_short ms; mret (JObj (with_msgs ms' fs)) else
          start ← start_index ms;
          ms1 ← imap_m (compact_tool_turn start (Nat.max start (length ms - 2))) 0 ms;
          openai_window target min_preserve_tail start fs ms1
      end
  | _ => raise AttributeError
  end.

(** ** Tool definitions *)

Definition clip_field (max_chars : nat) (cut : string -> string) (fs : fields) : fields :=
  match od_get "description" fs with
  | Some (JStr d) => if (max_chars <? slen d)%nat then od_set "description" (JStr (cut d)) fs else fs
  | _ => fs
  end.
(** The first sentence, or the first characters when it is too long. *)
Definition first_sentence (max_chars : nat) (d : string) : string :=
  let s := (before ". " d ++ ".")%string in if (slen s <=? max_chars)%nat then s else str_take max_chars d.
Definition clip_parameter (max_param_chars : nat) (p : json) : json :=
  match p with JObj fs => JObj (clip_field max_param_chars (str_take max_param_chars) fs) | _ => p end.
Definition clip_properties (max_param_chars : nat) (fn : fields) : fields :=
  match od_get "parameters" fn with
  | Some (JObj ps) =>
      match od_get "properties" ps with
      | Some (JObj props) =>
          od_set "parameters" (JObj (od_set "properties" (JObj (map (fun kv => (fst kv, clip_parameter max_param_chars (snd kv))) props)) ps)) fn
      | _ => fn
      end
  | _ => fn
  end.
Definition compact_tool (max_desc_chars max_param_chars : nat) (t : json) : json :=
  match t with
  | JObj fs =>
      match od_get "function" fs with
      | Some (JObj fn) =>
          JObj (od_set "function" (JObj (clip_properties max_param_chars (clip_field max_desc_chars (first_sentence max_desc_chars) fn))) fs)
      | _ => t
      end
  | _ => t
  end.
Definition compact_tool_definitions (tools : list json) (max_desc_chars max_param_chars : nat) : list json :=
  map (compact_tool max_desc_chars max_param_chars) tools.

(** ** Token-per-minute ceilings *)

Definition FREE_TIER_TPM_LIMIT : Z := 12000.

Definition prune_for_free_tpm {S} (request : json) (tpm_limit safety_margin_tokens : Z) : M dyn_error S json :=
  if (tpm_limit <? payload_tokens request)%Z then prune_openai_request request tpm_limit safety_margin_tokens 2 else mret request.

(** [len(part["text"]) > limit] and the summary that replaces it. *)
Definition compact_text {S} (limit max_chars : nat) (fs : fields) : M dyn_error S fields :=
  match od_get "text" fs with
  | None => mret fs
  | Some (JStr _) => mret (compact_field "text" limit max_chars fs)
  | Some (JArr l) => if (limit <? length l)%nat then raise Untyped else mret fs
  | Some (JObj l) => if (limit <? length l)%nat then raise Untyped else mret fs
  | Some _ => raise TypeError
  end.

(** Step 2: the system prompt without blank lines and indentation. *)
Definition condensed_mark : string := (newline ++ "... [System prompt formatting rules compacted for Groq execution] ...")%string.
Definition condense (s : string) : string :=
  let c := lines_of (nonblank (splitlines s)) in
  if (1800 <? slen c)%nat then (str_take 1800 c ++ condensed_mark)%string else c.
(** The condensed first message, when there is one to condense. *)
Definition condensed_system {S} (ms : list json) : M dyn_error S (option (list json)) :=
  match ms with
  | [] => mret None
  | m :: ms' =>
      r ← py_get "role" m;
      mret (match m with
      | JObj fs =>
          match jeqs "system" r, od_get "content" fs with
          | true, Some (JStr s) => if (1500 <? slen s)%nat then Some (JObj (od_set "content" (JStr (condense s)) fs) :: ms') else None
          | _, _ => None
          end
      | _ => None
      end)
  end.

(** Step 3: tool results in their two forms, and long user messages. *)
Definition compact_sub {S} (sub : json) : M dyn_error S json :=
  match sub with JObj fs => fs' ← compact_text 600 500 fs; mret (JObj fs') | _ => mret sub end.
Definition compact_user_part {S} (part : json) : M dyn_error S json :=
  match part with
  | JObj fs =>
      if jeqs "tool_result" (default JNull (od_get "type" fs)) then
        match od_get "content" fs with
        | Some (JArr subs) => subs' ← map_m compact_sub subs; mret (JObj (od_set "content" (JArr subs') fs))
        | _ => mret (JObj (compact_field "content" 600 500 fs))
        end
      else mret part
  | _ => mret part
  end.
Definition compact_results_of {S} (msg : json) : M dyn_error S json :=
  on_dict (fun fs =>
    if role_is "tool" fs then mret (compact_field "content" 600 500 fs)
    else if role_is "user" fs then
      match od_get "content" fs with
      | Some (JArr ps) => ps' ← map_m compact_user_part ps; mret (od_set "content" (JArr ps') fs)
      | _ => mret (compact_field "content" 2000 1500 fs)
      end
    else mret fs) msg.

(** Step 5: once more, harder. *)
Definition squeeze_part {S} (part : json) : M dyn_error S json :=
  match part with
  | JObj fs =>
      let ty := default JNull (od_get "type" fs) in
      if jeqs "text" ty then fs' ← compact_text 1000 800 fs; mret (JObj fs')
      else if jeqs "tool_result" ty then mret (JObj (compact_field "content" 400 300 fs))
      else mret part
  | _ => mret part
  end.
Definition squeeze {S} (msg : json) : M dyn_error S json :=
  on_dict (fun fs =>
    if role_is "tool" fs || role_is "user" fs then
      match od_get "content" fs with
      | Some (JArr ps) => ps' ← map_m squeeze_part ps; mret (od_set "content" (JArr ps') fs)
      | _ => mret (compact_field "content" 1000 800 fs)
      end
    else mret fs) msg.

(** [req["messages"]], changed in place, when the request has the key. *)
Definition put_msgs (ms : list json) (fs : fields) : fields := if od_mem "messages" fs then with_msgs ms fs else fs.

(** Steps 5 and 6, on what the sliding window left. *)
Definition groq_last_resort {S} (max_input_tokens : Z) (req : json) : M dyn_error S json :=
  match req with
  | JObj fs =>
      ms ← messages_of fs;
      ms1 ← map_m squeeze ms;
      start ← start_index ms1;
      mret (JObj (put_msgs (pop_while (length ms1) (start + 2) start max_input_tokens fs ms1) fs))
  | _ => raise AttributeError
  end.

(** Steps 3 to 6. *)
Definition groq_messages {S} (max_input_tokens : Z) (fs : fields) (ms : list json) : M dyn_error S json :=
  ms1 ← map_m compact_results_of ms;
  let req := JObj (put_msgs ms1 fs) in
  if (payload_tokens req <=? max_input_tokens)%Z then mret req else
  req' ← prune_openai_request req max_input_tokens 150 2;
  if (payload_tokens req' <=? max_input_tokens)%Z then mret req' else groq_last_resort max_input_tokens req'.

(** Steps 2 to 6. *)
Definition groq_conversation {S} (max_input_tokens : Z) (fs : fields) : M dyn_error S json :=
  ms ← messages_of fs;
  c ← condensed_system ms;
  match c with
  | Some ms1 =>
      let req := JObj (with_msgs ms1 fs) in
      if (payload_tokens req <=? max_input_tokens)%Z then mret req else groq_messages max_input_tokens fs ms1
  | None => groq_messages max_input_tokens fs ms
  end.

(** Step 1 *)
Definition groq_tools (fs : fields) : option fields :=
  match od_get "tools" fs with
  | Some (JArr (t :: ts)) => Some (od_set "tools" (JArr (compact_tool_definitions (t :: ts) 150 60)) fs)
  | _ => None
  end.

Definition prune_for_groq_tpm {S} (payload : json) (max_input_tokens : Z) : M dyn_error S json :=
  if (payload_tokens payload <=? max_input_tokens)%Z then mret payload else
  match payload with
  | JObj fs0 =>
      let fs := default fs0 (groq_tools fs0) in
      if bool_decide (groq_tools fs0 <> None) && (payload_tokens (JObj fs) <=? max_input_tokens)%Z then mret (JObj fs) else
      groq_conversation max_input_tokens fs
  | _ => raise Untyped
  end.
End pruner.
