(* ===== verification/PrunerProps.v ===== *)
(** * What pruning keeps

    Pruning never fails on a well-formed conversation, keeps its opening and its
    end, and only shortens contents; but it can separate a tool result from the
    call it answers, and its ceiling is not always met. *)

From stdpp Require Import base tactics list strings.
From Stdlib Require Import QArith.
From S2P Require Import Prelude Models Json PyText Utf8 JsonText PyDyn IR Context Pruner.

(** ** Windows *)

(** The conversation without [k] messages after the first [i]. *)
Definition window {A} (i k : nat) (l : list A) : list A := take i l ++ drop (i + k) l.

Lemma window_0 {A} i (l : list A) : window i 0 l = l.
Proof. unfold window. by rewrite Nat.add_0_r, take_drop. Qed.
Lemma window_length {A} i k (l : list A) : (i <= length l)%nat -> length (window i k l) = (i + (length l - (i + k)))%nat.
Proof. intros. unfold window. rewrite length_app, length_take, length_drop. lia. Qed.
Lemma window_pop {A} i k (l : list A) : (i <= length l)%nat -> window i k (pop_at i l) = window i (S k) l.
Proof.
  intros H. unfold window, pop_at. rewrite take_app_le by (rewrite length_take; lia). rewrite take_take, Nat.min_id.
  rewrite drop_app, length_take, drop_drop. replace (drop (i + k) (take i l)) with (@nil A) by (symmetry; apply drop_ge; rewrite length_take; lia).
  cbn [app]. do 2 f_equal. lia.
Qed.
Lemma window_window {A} i k k' (l : list A) : (i <= length l)%nat -> window i k (window i k' l) = window i (k' + k) l.
Proof.
  intros H. unfold window at 1 2. rewrite take_app_le by (rewrite length_take; lia). rewrite take_take, Nat.min_id.
  unfold window. f_equal. rewrite drop_app, length_take, drop_drop.
  replace (drop (i + k) (take i l)) with (@nil A) by (symmetry; apply drop_ge; rewrite length_take; lia). cbn [app]. f_equal. lia.
Qed.
Lemma window_Forall2 {A B} (R : A -> B -> Prop) i k l l' : Forall2 R l l' -> Forall2 R (window i k l) (window i k l').
Proof. intros H. apply Forall2_app; [by apply Forall2_take | by apply Forall2_drop]. Qed.
Lemma window_take {A} i k (l : list A) : (i <= length l)%nat -> take i (window i k l) = take i l.
Proof. intros. unfold window. rewrite take_app_le by (rewrite length_take; lia). by rewrite take_take, Nat.min_id. Qed.
Lemma window_Forall {A} (P : A -> Prop) i k l : Forall P l -> Forall P (window i k l).
Proof. intros H. apply Forall_app. split; [by apply Forall_take | by apply Forall_drop]. Qed.

(** ** Messages that differ in their content only *)

Inductive like : json -> json -> Prop :=
| like_refl m : like m m
| like_content fs fs' : (forall k, k <> "content" -> od_get k fs' = od_get k fs) -> like (JObj fs) (JObj fs').

Lemma like_trans a b c : like a b -> like b c -> like a c.
Proof.
  intros [m|fs fs' H]; [done|]. inversion 1 as [|fs1 fs2 H2]; subst; [by constructor|]. constructor. intros k Hk. by rewrite H2, H.
Qed.
Lemma like_dict a b : like a b -> is_dict a = true -> is_dict b = true.
Proof. by intros []. Qed.
Lemma like_list_refl l : Forall2 like l l.
Proof. induction l; constructor; [apply like_refl | done]. Qed.
Lemma like_list_trans l1 l2 l3 : Forall2 like l1 l2 -> Forall2 like l2 l3 -> Forall2 like l1 l3.
Proof.
  intros H. revert l3. induction H; inversion 1; subst; constructor; [by eapply like_trans | auto].
Qed.
#[export] Hint Resolve like_refl like_list_refl : prune.

(** A message with a text or no content, as the OpenAI encoder writes them. *)
Definition plain (m : json) : bool :=
  match m with JObj fs => match od_get "content" fs with Some (JArr _) => false | _ => true end | _ => false end.

Section pruner_props.
Context (json_dumps json_dumps_indent : json -> string) (json_loads : string -> option json).
Abbreviation compact_field := (compact_field json_dumps_indent json_loads).
Abbreviation tokens := (payload_tokens json_dumps).
Abbreviation tokens_with := (tokens_with json_dumps).
Abbreviation pop_while := (pop_while json_dumps).

Lemma compact_like limit mx fs : like (JObj fs) (JObj (compact_field "content" limit mx fs)).
Proof.
  unfold Pruner.compact_field. destruct (od_get "content" fs) as [[]|]; try apply like_refl. case_match; [|apply like_refl].
  constructor. intros k Hk. by rewrite od_get_set_ne.
Qed.
Lemma compact_plain limit mx fs : plain (JObj fs) = true -> plain (JObj (compact_field "content" limit mx fs)) = true.
Proof.
  unfold Pruner.compact_field, plain. destruct (od_get "content" fs) as [[]|] eqn:E; intros; try by rewrite E.
  destruct (limit <? slen s)%nat; [by rewrite od_get_set_eq | by rewrite E].
Qed.

(** ** Loops over the messages *)

Lemma imap_m_like {S} (P : json -> Prop) (f : nat -> json -> M dyn_error S json) start l i (s : S) n :
  (forall j m, P m -> exists m', f j m s n = (Ok m', s, n) /\ like m m' /\ P m' /\ ((j < start)%nat -> m' = m)) -> Forall P l ->
  exists l', imap_m f i l s n = (Ok l', s, n) /\ Forall2 like l l' /\ Forall P l' /\ take (start - i) l' = take (start - i) l.
Proof.
  intros Hf. revert i. induction l as [|m l IH]; intros i Hl; [by exists []|]. inversion Hl as [|? ? Hm Hl']; subst.
  destruct (Hf i m Hm) as (m' & Hr & Hk & Hm' & He). destruct (IH (Datatypes.S i) Hl') as (l' & Hr' & Hk' & Hp & Ht).
  exists (m' :: l'). cbn [imap_m]. rewrite (bind_ok _ _ _ _ _ _ _ Hr). cbv beta. rewrite (bind_ok _ _ _ _ _ _ _ Hr').
  split_and!; [done | by constructor | by constructor |].
  destruct (start - i)%nat as [|d] eqn:E; [done|]. cbn [take]. rewrite He by lia. replace d with (start - Datatypes.S i)%nat by lia. by rewrite Ht.
Qed.

Lemma map_m_like {S} (P : json -> Prop) (f : json -> M dyn_error S json) l (s : S) n :
  (forall m, P m -> exists m', f m s n = (Ok m', s, n) /\ like m m' /\ P m') -> Forall P l ->
  exists l', map_m f l s n = (Ok l', s, n) /\ Forall2 like l l' /\ Forall P l'.
Proof.
  intros Hf Hl. induction Hl as [|m l Hm Hl IH]; [by exists []|].
  destruct (Hf m Hm) as (m' & Hr & Hk & Hm'). destruct IH as (l' & Hr' & Hk' & Hp).
  exists (m' :: l'). cbn [map_m]. rewrite (bind_ok _ _ _ _ _ _ _ Hr). cbv beta. rewrite (bind_ok _ _ _ _ _ _ _ Hr').
  split_and!; [done | by constructor | by constructor].
Qed.

(** Eviction removes messages after the first [i] only, stops as soon as the
    payload fits, and otherwise goes on to the floor. *)
Lemma pop_while_spec fuel keep i target fs ms : (i <= keep)%nat -> (i <= length ms)%nat ->
  exists k, pop_while fuel keep i target fs ms = window i k ms /\ (Nat.min (length ms) keep <= length (window i k ms))%nat /\
    ((length ms <= fuel + keep)%nat -> (length (window i k ms) <= keep)%nat \/ (tokens_with fs (window i k ms) <= target)%Z).
Proof.
  intros Hi. revert ms. induction fuel as [|f IH]; intros ms Hl; cbn [Pruner.pop_while].
  { exists 0%nat. rewrite window_0. split_and!; [done | lia | intros; left; lia]. }
  destruct (Nat.ltb_spec keep (length ms)) as [Hk|Hk]; cbn [andb].
  2:{ exists 0%nat. rewrite window_0. split_and!; [done | lia | by left]. }
  destruct (Z.ltb_spec target (tokens_with fs ms)) as [Ht|Ht].
  2:{ exists 0%nat. rewrite window_0. split_and!; [done | lia | by right]. }
  assert (Hp : length (pop_at i ms) = (length ms - 1)%nat) by (unfold pop_at; rewrite length_app, length_take, length_drop; lia).
  destruct (IH (pop_at i ms)) as (k & -> & Hmin & Hend); [lia|]. exists (Datatypes.S k). rewrite window_pop in * by lia.
  split_and!; [done | lia | intros; apply Hend; lia].
Qed.

Lemma shrink_spec fuel t start target fs ms : (start <= length ms)%nat ->
  exists k, shrink_tail json_dumps fuel (2 * t) 2 start target fs ms = window start k ms /\
    (Nat.min (length ms) (start + 2) <= length (window start k ms))%nat /\
    ((t <= fuel + 1)%nat -> (length ms <= start + 2 * t)%nat \/ (tokens_with fs ms <= target)%Z ->
     (length (window start k ms) <= start + 2)%nat \/ (tokens_with fs (window start k ms) <= target)%Z).
Proof.
  revert t ms. induction fuel as [|f IH]; intros t ms Hl; cbn [shrink_tail].
  { exists 0%nat. rewrite window_0. split_and!; [done | lia | intros ? [|]; [left; lia | by right]]. }
  destruct (Nat.ltb_spec 2 (2 * t)) as [Ht|Ht]; cbn [andb].
  2:{ exists 0%nat. rewrite window_0. split_and!; [done | lia | intros ? [|]; [left; lia | by right]]. }
  destruct (Z.ltb_spec target (tokens_with fs ms)) as [Hz|Hz].
  2:{ exists 0%nat. rewrite window_0. split_and!; [done | lia | by right]. }
  replace (2 * t - 2)%nat with (2 * (t - 1))%nat by lia.
  destruct (pop_while_spec (length ms) (start + 2 * (t - 1)) start target fs ms) as (k & -> & Hm & He); [lia | done|].
  assert (Hlen : (start <= length (window start k ms))%nat) by (rewrite window_length by done; lia).
  destruct (IH (t - 1)%nat (window start k ms) Hlen) as (k' & -> & Hm' & He'). exists (k + k')%nat. rewrite window_window in * by done.
  split_and!; [done | lia |]. intros Hf _. apply He'; [lia | apply He; lia].
Qed.

(** ** The prunes *)

(** The number of messages at the opening that are kept: the system message, when
    it comes first, and the first message after it. *)
Definition opening (ms : list json) : nat :=
  match ms with m :: _ => if jeqs "system" (default JNull (jget "role" m)) then 2 else 1 | [] => 1 end.

(** What a pruned payload [req] keeps of the messages [ms] of [fs]: the messages
    it has are those of [ms] without some right after the first [start], in order
    and equal but for their contents; at least [floor] are left, if there were as
    many; and if there are more the payload is within the limit. *)
Definition pruned (start floor : nat) (limit : Z) (fs : fields) (ms : list json) (req : json) : Prop :=
  exists ms' k, req = JObj (with_msgs ms' fs) /\ Forall2 like (window start k ms) ms' /\
    (Nat.min (length ms) floor <= length ms')%nat /\ ((length ms' <= floor)%nat \/ (tokens req <= limit)%Z).

Lemma pruned_from start floor limit fs ms ms1 req : Forall2 like ms ms1 -> pruned start floor limit fs ms1 req -> pruned start floor limit fs ms req.
Proof.
  intros Hk (ms' & k & -> & Hw & Hm & Hd). exists ms', k. split_and!; [done | | by rewrite (Forall2_length _ _ _ Hk) | done].
  eapply like_list_trans; [by apply window_Forall2 | done].
Qed.

Lemma start_runs {S} ms (s : S) n : Forall (fun m => is_dict m = true) ms -> start_index ms s n = (Ok (opening ms), s, n).
Proof.
  destruct ms as [|m ms]; [done|]. inversion 1 as [|? ? Hm _]; subst. by destruct m.
Qed.

Lemma opening_bound ms : (1 <= opening ms <= 2)%nat.
Proof. destruct ms; cbn [opening]; [lia | case_match; lia]. Qed.

Lemma list_content_like fs l : like (JObj fs) (JObj (od_set "content" (JArr l) fs)).
Proof. constructor. intros k Hk. by rewrite od_get_set_ne. Qed.
#[local] Hint Resolve compact_like list_content_like : prune.

(** The shape of messages, any dict or a plain one, that the steps keep. *)
Section shaped.
Context (P : json -> bool).
Hypothesis P_dict : forall m, P m = true -> is_dict m = true.
Hypothesis P_compact : forall limit mx fs, P (JObj fs) = true -> P (JObj (compact_field "content" limit mx fs)) = true.
Hypothesis P_list : forall fs l l', P (JObj fs) = true -> od_get "content" fs = Some (JArr l) -> P (JObj (od_set "content" (JArr l') fs)) = true.

Lemma on_dict_runs {S} (f : fields -> fields) m (s : S) n : P m = true ->
  (forall fs, P (JObj fs) = true -> like (JObj fs) (JObj (f fs)) /\ P (JObj (f fs)) = true) ->
  exists m', on_dict (fun fs => mret (f fs)) m s n = (Ok m', s, n) /\ like m m' /\ P m' = true.
Proof.
  intros Hm Hf. specialize (P_dict m Hm). destruct m as [| | | | | |fs]; try done. exists (JObj (f fs)). split; [done | by apply Hf].
Qed.

Lemma short_runs {S} m (s : S) n : P m = true ->
  exists m', compact_short json_dumps_indent json_loads m s n = (Ok m', s, n) /\ like m m' /\ P m' = true.
Proof. intros H. apply on_dict_runs; [done|]. intros fs Hfs. cbv beta. repeat case_match; eauto with prune. Qed.

Lemma tool_turn_runs {S} start cutoff i m (s : S) n : P m = true ->
  exists m', compact_tool_turn json_dumps_indent json_loads start cutoff i m s n = (Ok m', s, n) /\ like m m' /\
    P m' = true /\ ((i < start)%nat -> m' = m).
Proof.
  intros H. unfold compact_tool_turn. destruct (Nat.ltb_spec i start); [exists m; split_and!; auto with prune|].
  edestruct (on_dict_runs (S := S)) as (m' & Hr & Hk & Hd); [exact H | | exists m'; split_and!; [exact Hr | done | done | lia]].
  intros fs Hfs. cbv beta. repeat case_match; eauto with prune.
Qed.

Lemma assistant_runs {S} start lst i m (s : S) n : P m = true ->
  exists m', compact_assistant json_dumps_indent json_loads start lst i m s n = (Ok m', s, n) /\ like m m' /\
    P m' = true /\ ((i < start)%nat -> m' = m).
Proof.
  intros H. unfold compact_assistant. destruct (Nat.leb_spec start i); cbn [andb]; [|exists m; split_and!; auto with prune].
  destruct (i <? lst)%nat; [|exists m; split_and!; auto with prune].
  edestruct (on_dict_runs (S := S)) as (m' & Hr & Hk & Hd); [exact H | | exists m'; split_and!; [exact Hr | done | done | lia]].
  intros fs Hfs. cbv beta. repeat case_match; eauto with prune.
Qed.

Abbreviation shaped := (Forall (fun m => P m = true)).
Lemma shaped_dicts ms : shaped ms -> Forall (fun m => is_dict m = true) ms.
Proof. intros H. eapply Forall_impl; [exact H | exact P_dict]. Qed.

(** The messages [ms'] that a step leaves of [ms]. *)
Definition outcome (start floor : nat) (target : Z) (fs : fields) (ms ms' : list json) : Prop :=
  shaped ms' /\ pruned start floor target fs ms (JObj (with_msgs ms' fs)) /\ take start ms' = take start ms.

Lemma outcome_window start floor target fs ms k : shaped ms -> (start <= length ms)%nat ->
  (Nat.min (length ms) floor <= length (window start k ms))%nat ->
  (length (window start k ms) <= floor)%nat \/ (tokens_with fs (window start k ms) <= target)%Z ->
  outcome start floor target fs ms (window start k ms).
Proof.
  intros Hsh Hl Hm Hd. split_and!; [by apply window_Forall | | by apply window_take].
  exists (window start k ms), k. split_and!; auto with prune.
Qed.

Lemma openai_window_runs {S} target start fs ms (s : S) n : shaped ms -> (start <= length ms)%nat ->
  exists ms', openai_window json_dumps json_dumps_indent json_loads target 2 start fs ms s n
      = (Ok (JObj (with_msgs ms' fs)), s, n) /\ outcome start (start + 2) target fs ms ms'.
Proof.
  intros Hsh Hl. unfold openai_window. destruct (Z.leb_spec (tokens_with fs ms) target) as [|Hbig].
  { exists ms. split; [done|]. rewrite <- (window_0 start ms) at 2. apply outcome_window; rewrite ?window_0; auto. lia. }
  destruct (pop_while_spec (length ms) (start + 6) start target fs ms) as (k & -> & Hm & He); [lia | done|].
  destruct (Z.leb_spec (tokens_with fs (window start k ms)) target) as [|Hbig2].
  { exists (window start k ms). split; [done|]. apply outcome_window; auto. lia. }
  assert (Hlen : (start <= length (window start k ms))%nat) by (rewrite window_length by done; lia).
  destruct (shrink_spec 3 3 start target fs (window start k ms) Hlen) as (k' & Hk' & Hm' & He').
  change (2 * 3)%nat with 6%nat in *. rewrite Hk'. clear Hk'. rewrite window_window in * by done. set (ms3 := window start (k + k') ms) in *.
  destruct (Z.leb_spec (tokens_with fs ms3) target) as [|Hbig3].
  { exists ms3. split; [done|]. unfold ms3 in *. apply outcome_window; auto. lia. }
  assert (Hs3 : shaped ms3) by (by apply window_Forall).
  destruct (imap_m_like (S := S) (fun m => P m = true) _ start ms3 0 s n (fun j m Hm => assistant_runs start (length ms3 - 1) j m s n Hm) Hs3)
    as (ms4 & Hr & Hk4 & Hs4 & Ht4).
  exists ms4. rewrite (bind_ok _ _ _ _ _ _ _ Hr). rewrite Nat.sub_0_r in Ht4. pose proof (Forall2_length _ _ _ Hk4) as Hl4.
  split; [done|]. split_and!; [done | | by rewrite Ht4; apply window_take]. exists ms4, (k + k')%nat. split_and!; [done | done | lia|].
  destruct He' as [|]; [lia | apply He; lia | left; lia | lia].
Qed.

(** Sliding-window pruning of an OpenAI payload. *)
Lemma prune_openai_runs {S} fs ms mx margin (s : S) n :
  od_get "messages" fs = Some (JArr ms) -> shaped ms ->
  let target := Z.max 512 (mx - margin) in
  exists ms', prune_openai_request json_dumps json_dumps_indent json_loads (JObj fs) mx margin 2 s n
      = (Ok (JObj (with_msgs ms' fs)), s, n) /\ shaped ms' /\
    pruned (opening ms) (opening ms + 2) target fs ms (JObj (with_msgs ms' fs)) /\
    ((2 < length ms)%nat -> take (opening ms) ms' = take (opening ms) ms) /\ ((tokens (JObj fs) <= target)%Z -> ms' = ms).
Proof.
  intros Hms Hsh target. pose proof (opening_bound ms) as Hop.
  assert (Hsame : with_msgs ms fs = fs) by (by apply od_set_same).
  assert (Hall : (tokens (JObj fs) <= target)%Z \/ (length ms <= 2)%nat -> pruned (opening ms) (opening ms + 2) target fs ms (JObj (with_msgs ms fs))).
  { intros Hd. exists ms, 0%nat. rewrite Hsame, window_0. split_and!; auto with prune; lia. }
  unfold prune_openai_request. fold target. destruct (Z.leb_spec (tokens (JObj fs)) target) as [Hfit|Hbig].
  { exists ms. rewrite Hsame in *. split_and!; auto. }
  unfold messages_of. rewrite Hms. erewrite bind_ok by reflexivity. cbv beta.
  destruct ms as [|m0 ms0] eqn:Ems. { exists []. rewrite Hsame in *. split_and!; auto. }
  rewrite <- Ems in *. clear Ems m0 ms0. destruct (Nat.leb_spec (length ms) 2) as [Hlen|Hlen].
  { destruct (map_m_like (S := S) (fun m => P m = true) _ ms s n (fun m Hm => short_runs m s n Hm) Hsh) as (ms' & Hr & Hk & Hs').
    exists ms'. rewrite (bind_ok _ _ _ _ _ _ _ Hr). pose proof (Forall2_length _ _ _ Hk). split_and!; [done | done | | lia | lia].
    exists ms', 0%nat. rewrite window_0. split_and!; [done | done | lia | left; lia]. }
  rewrite (bind_ok _ _ _ _ _ _ _ (start_runs ms s n (shaped_dicts _ Hsh))). cbv beta. set (start := opening ms) in *.
  destruct (imap_m_like (S := S) (fun m => P m = true) _ start ms 0 s n
    (fun j m Hm => tool_turn_runs start (Nat.max start (length ms - 2)) j m s n Hm) Hsh) as (ms1 & Hr & Hk & Hs1 & Ht1).
  rewrite (bind_ok _ _ _ _ _ _ _ Hr). rewrite Nat.sub_0_r in Ht1. pose proof (Forall2_length _ _ _ Hk) as Hl1.
  destruct (openai_window_runs target start fs ms1 s n Hs1 ltac:(lia)) as (ms' & -> & Hs' & Hp' & Ht').
  exists ms'. split_and!; [done | done | by eapply pruned_from | intros; by rewrite Ht' | lia].
Qed.
End shaped.

(** ** The ceiling of tokens per minute *)

Abbreviation all_plain := (Forall (fun m => plain m = true)).
Lemma plain_dict m : plain m = true -> is_dict m = true.
Proof. by destruct m. Qed.
Lemma plain_list fs l l' : plain (JObj fs) = true -> od_get "content" fs = Some (JArr l) -> plain (JObj (od_set "content" (JArr l') fs)) = true.
Proof. cbn [plain]. intros H E. by rewrite E in H. Qed.
#[local] Hint Resolve plain_dict plain_list compact_plain : prune.

Lemma with_msgs_twice a b fs : with_msgs a (with_msgs b fs) = with_msgs a fs.
Proof. apply od_set_set. Qed.
Lemma put_msgs_present ms ms' fs : od_get "messages" fs = Some ms -> put_msgs ms' fs = with_msgs ms' fs.
Proof. intros H. unfold put_msgs, od_mem. by rewrite H. Qed.

Lemma opening_like ms ms' : Forall2 like ms ms' -> opening ms' = opening ms.
Proof.
  intros [|m m' l l' Hk _]; [done|]. cbn [opening]. destruct Hk as [|fs fs' H]; [done|]. cbn [jget]. by rewrite H.
Qed.
Lemma opening_window i k ms : (1 <= i)%nat -> opening (window i k ms) = opening ms.
Proof. intros H. destruct ms as [|m ms]; [unfold window; by rewrite take_nil, drop_nil|]. destruct i; [lia | done]. Qed.

Lemma on_dict_plain {S} (f : fields -> M dyn_error S fields) (g : fields -> fields) m (s : S) n : plain m = true ->
  (forall fs, plain (JObj fs) = true -> f fs s n = (Ok (g fs), s, n) /\ like (JObj fs) (JObj (g fs)) /\ plain (JObj (g fs)) = true) ->
  exists m', on_dict f m s n = (Ok m', s, n) /\ like m m' /\ plain m' = true.
Proof.
  destruct m as [| | | | | |fs]; try done. intros Hp Hf. destruct (Hf fs Hp) as (Hr & Hk & Hp'). exists (JObj (g fs)).
  cbn [on_dict]. by rewrite (bind_ok _ _ _ _ _ _ _ Hr).
Qed.

(** A content that is not a list goes through the text branch. *)
Lemma plain_content {S} fs (a : list json -> M dyn_error S fields) (b : M dyn_error S fields) : plain (JObj fs) = true ->
  match od_get "content" fs with Some (JArr ps) => a ps | _ => b end = b.
Proof. cbn [plain]. by destruct (od_get "content" fs) as [[]|]. Qed.

Lemma results_of_runs {S} m (s : S) n : plain m = true ->
  exists m', compact_results_of json_dumps_indent json_loads m s n = (Ok m', s, n) /\ like m m' /\ plain m' = true.
Proof.
  intros H. apply (on_dict_plain _ (fun fs => if role_is "tool" fs then compact_field "content" 600 500 fs
    else if role_is "user" fs then compact_field "content" 2000 1500 fs else fs)); [done|].
  intros fs Hp. rewrite plain_content by done. repeat case_match; auto with prune.
Qed.
Lemma squeeze_runs {S} m (s : S) n : plain m = true ->
  exists m', squeeze json_dumps_indent json_loads m s n = (Ok m', s, n) /\ like m m' /\ plain m' = true.
Proof.
  intros H. apply (on_dict_plain _ (fun fs => if role_is "tool" fs || role_is "user" fs then compact_field "content" 1000 800 fs else fs)); [done|].
  intros fs Hp. rewrite plain_content by done. repeat case_match; auto with prune.
Qed.

Lemma condensed_runs {S} ms (s : S) n : all_plain ms ->
  exists o, condensed_system ms s n = (Ok o, s, n) /\ forall ms', o = Some ms' -> Forall2 like ms ms' /\ all_plain ms'.
Proof.
  destruct ms as [|m ms]; [by exists None|]. inversion 1 as [|? ? Hm Hms]; subst. destruct m as [| | | | | |fs]; try done.
  eexists. split; [reflexivity|]. intros ms' Hs. repeat case_match; simplify_eq. split; constructor; auto with prune.
  - constructor. intros k Hk. by rewrite od_get_set_ne.
  - cbn [plain]. by rewrite od_get_set_eq.
Qed.

Lemma last_resort_runs {S} limit fs ms ms0 k0 (s : S) n :
  od_get "messages" fs <> None -> all_plain ms -> Forall2 like (window (opening ms0) k0 ms0) ms -> 
  (Nat.min (length ms0) (opening ms0 + 2) <= length ms)%nat ->
  exists req, groq_last_resort json_dumps json_dumps_indent json_loads limit (JObj (with_msgs ms fs)) s n
      = (Ok req, s, n) /\ pruned (opening ms0) (opening ms0 + 2) limit fs ms0 req.
Proof.
  intros Hms Hp Hw Hmin. pose proof (opening_bound ms0) as Hop.
  assert (Hlen0 : (length (window (opening ms0) k0 ms0) <= length ms0)%nat) by (unfold window; rewrite length_app, length_take, length_drop; lia).
  unfold groq_last_resort, messages_of, with_msgs. rewrite od_get_set_eq. fold (with_msgs ms fs). erewrite bind_ok by reflexivity. cbv beta.
  destruct (map_m_like (S := S) (fun m => plain m = true) _ ms s n (fun m Hm => squeeze_runs m s n Hm) Hp) as (ms1 & Hr & Hk & Hp1).
  rewrite (bind_ok _ _ _ _ _ _ _ Hr). cbv beta.
  pose proof (like_list_trans _ _ _ Hw Hk) as Hw1. pose proof (Forall2_length _ _ _ Hw1) as Hl1. pose proof (Forall2_length _ _ _ Hk) as Hl.
  rewrite (bind_ok _ _ _ _ _ _ _ (start_runs ms1 s n (shaped_dicts plain plain_dict ms1 Hp1))). cbv beta.
  rewrite (opening_like _ _ Hw1), opening_window by lia. rewrite (put_msgs_present (JArr ms)) by apply od_get_set_eq. set (start := opening ms0) in *.
  eexists. split; [reflexivity|]. rewrite with_msgs_twice.
  destruct (decide (start <= length ms1)%nat) as [Hle|Hgt].
  - destruct (pop_while_spec (length ms1) (start + 2) start limit (with_msgs ms fs) ms1) as (k & -> & Hm & He); [lia | done|].
    exists (window start k ms1), (k0 + k)%nat. split_and!; [done | | lia |].
    + rewrite <- window_window by lia. by apply window_Forall2.
    + unfold Pruner.tokens_with in He. rewrite with_msgs_twice in He. apply He. lia.
  - replace (pop_while (length ms1) (start + 2) start limit (with_msgs ms fs) ms1) with ms1.
    + exists ms1, k0. split_and!; [done | done | lia | left; lia].
    + destruct (length ms1) eqn:E; [done|]. cbn [Pruner.pop_while]. rewrite E. by destruct (Nat.ltb_spec (start + 2) (Datatypes.S n0)); [lia|].
Qed.

Lemma groq_messages_runs {S} limit fs ms (s : S) n : od_get "messages" fs <> None -> all_plain ms ->
  exists req, groq_messages json_dumps json_dumps_indent json_loads limit fs ms s n = (Ok req, s, n) /\
    pruned (opening ms) (opening ms + 2) limit fs ms req.
Proof.
  intros Hms Hp. unfold groq_messages.
  destruct (map_m_like (S := S) (fun m => plain m = true) _ ms s n (fun m Hm => results_of_runs m s n Hm) Hp) as (ms1 & Hr & Hk & Hp1).
  rewrite (bind_ok _ _ _ _ _ _ _ Hr). cbv beta. destruct (od_get "messages" fs) as [j|] eqn:Ej; [|done]. rewrite (put_msgs_present j) by done.
  destruct (Z.leb_spec (tokens (JObj (with_msgs ms1 fs))) limit) as [Hfit|_].
  { eexists. split; [reflexivity|]. exists ms1, 0%nat. rewrite window_0. split_and!; [done | done | rewrite (Forall2_length _ _ _ Hk); lia | by right]. }
  destruct (prune_openai_runs plain plain_dict compact_plain plain_list (S := S) (with_msgs ms1 fs) ms1 limit 150 s n)
    as (ms2 & Hr2 & Hp2 & (ms2' & k & Heq & Hw & Hm & _) & _); [apply od_get_set_eq | done|].
  rewrite (bind_ok _ _ _ _ _ _ _ Hr2). cbv beta. rewrite with_msgs_twice in *. assert (ms2' = ms2) as ->.
  { injection Heq as Heq%(f_equal (od_get "messages")). unfold with_msgs in Heq. rewrite !od_get_set_eq in Heq. by simplify_eq. }
  rewrite (opening_like _ _ Hk) in *.
  assert (Hw' : Forall2 like (window (opening ms) k ms) ms2) by (eapply like_list_trans; [by apply window_Forall2 | done]).
  rewrite <- (Forall2_length _ _ _ Hk) in Hm.
  destruct (Z.leb_spec (tokens (JObj (with_msgs ms2 fs))) limit) as [Hfit|_].
  { eexists. split; [reflexivity|]. exists ms2, k. split_and!; [done | done | done | by right]. }
  apply (last_resort_runs limit fs ms2 ms k); [by rewrite Ej | done | done | done].
Qed.

Lemma groq_tools_messages fs fs' : groq_tools fs = Some fs' -> od_get "messages" fs' = od_get "messages" fs.
Proof. unfold groq_tools. intros. repeat case_match; simplify_eq. by apply od_get_set_ne. Qed.

Lemma groq_conversation_runs {S} limit fs ms (s : S) n : od_get "messages" fs = Some (JArr ms) -> all_plain ms ->
  exists req, groq_conversation json_dumps json_dumps_indent json_loads limit fs s n = (Ok req, s, n) /\
    pruned (opening ms) (opening ms + 2) limit fs ms req.
Proof.
  intros Hms Hp. assert (Hsome : od_get "messages" fs <> None) by (by rewrite Hms).
  unfold groq_conversation, messages_of. rewrite Hms. erewrite bind_ok by reflexivity. cbv beta.
  destruct (condensed_runs ms s n Hp) as (o & Hr & Ho). rewrite (bind_ok _ _ _ _ _ _ _ Hr). cbv beta.
  destruct o as [ms1|]; [|by apply groq_messages_runs]. destruct (Ho ms1 eq_refl) as [Hk Hp1]. rewrite <- (opening_like _ _ Hk).
  destruct (Z.leb_spec (tokens (JObj (with_msgs ms1 fs))) limit).
  - eexists. split; [reflexivity|]. apply (pruned_from _ _ _ _ _ ms1); [done|]. exists ms1, 0%nat. rewrite window_0. split_and!; auto with prune. lia.
  - destruct (groq_messages_runs limit fs ms1 s n Hsome Hp1) as (req & -> & Hpr). exists req. split; [done|]. by apply (pruned_from _ _ _ _ _ ms1).
Qed.

Lemma groq_runs {S} fs ms limit (s : S) n : od_get "messages" fs = Some (JArr ms) -> all_plain ms ->
  exists req fs', prune_for_groq_tpm json_dumps json_dumps_indent json_loads (JObj fs) limit s n = (Ok req, s, n) /\
    ((tokens (JObj fs) <= limit)%Z -> req = JObj fs) /\ (fs' = fs \/ groq_tools fs = Some fs') /\
    pruned (opening ms) (opening ms + 2) limit fs' ms req.
Proof.
  intros Hms Hp. unfold prune_for_groq_tpm.
  assert (Hdone : forall fs1, od_get "messages" fs1 = Some (JArr ms) -> (tokens (JObj fs1) <= limit)%Z -> pruned (opening ms) (opening ms + 2) limit fs1 ms (JObj fs1)).
  { intros fs1 H1 Hfit. exists ms, 0%nat. rewrite window_0. unfold with_msgs. rewrite od_set_same by done. split_and!; auto with prune. lia. }
  destruct (Z.leb_spec (tokens (JObj fs)) limit) as [Hfit|Hbig]; [exists (JObj fs), fs; auto|].
  set (fs1 := default fs (groq_tools fs)). assert (H1 : od_get "messages" fs1 = Some (JArr ms)).
  { unfold fs1. destruct (groq_tools fs) eqn:E; [|done]. cbn [default]. by erewrite groq_tools_messages. }
  assert (Hfs1 : fs1 = fs \/ groq_tools fs = Some fs1) by (unfold fs1; destruct (groq_tools fs); auto).
  destruct (_ && _) eqn:E.
  - apply andb_true_iff in E as [_ E%Z.leb_le]. exists (JObj fs1), fs1. split_and!; auto; lia.
  - destruct (groq_conversation_runs limit fs1 ms s n H1 Hp) as (req & Hr & Hpr). exists req, fs1. split_and!; auto; lia.
Qed.

(** ** Anthropic payloads *)

Lemma halve_runs {S} lst i m (s : S) n : is_dict m = true ->
  exists m', halve_results lst i m s n = (Ok m', s, n) /\ like m m' /\ is_dict m' = true /\ ((i < 1)%nat -> m' = m).
Proof.
  intros H. unfold halve_results. destruct (Nat.leb_spec 1 i); cbn [andb]; [|exists m; split_and!; auto with prune].
  destruct (i <? lst)%nat; [|exists m; split_and!; auto with prune].
  edestruct (on_dict_runs is_dict (fun _ H => H) (S := S)) as (m' & Hr & Hk & Hd); [exact H | | exists m'; split_and!; [exact Hr | done | done | lia]].
  intros fs Hfs. cbv beta. repeat case_match; auto with prune.
Qed.

Lemma prune_anthropic_runs {S} fs ms mx margin (s : S) n :
  od_get "messages" fs = Some (JArr ms) -> Forall (fun m => is_dict m = true) ms ->
  let target := Z.max 512 (mx - margin) in
  exists ms', prune_anthropic_request json_dumps (JObj fs) mx margin s n = (Ok (JObj (with_msgs ms' fs)), s, n) /\
    pruned 1 8 target fs ms (JObj (with_msgs ms' fs)) /\ take 1 ms' = take 1 ms /\ ((tokens (JObj fs) <= target)%Z -> ms' = ms).
Proof.
  intros Hms Hd target. assert (Hsame : with_msgs ms fs = fs) by (by apply od_set_same).
  assert (Hall : (tokens (JObj fs) <= target)%Z \/ (length ms <= 8)%nat -> pruned 1 8 target fs ms (JObj (with_msgs ms fs))).
  { intros H. exists ms, 0%nat. rewrite Hsame, window_0. split_and!; auto with prune; [lia | tauto]. }
  unfold prune_anthropic_request. fold target. destruct (Z.leb_spec (tokens (JObj fs)) target) as [Hfit|Hbig].
  { exists ms. rewrite Hsame in *. auto. }
  unfold messages_of. rewrite Hms. erewrite bind_ok by reflexivity. cbv beta.
  destruct (Nat.leb_spec (length ms) 4) as [Hlen|Hlen].
  { exists ms. rewrite Hsame in *. split_and!; auto. apply Hall. lia. }
  assert (exists ms1, (if (7 <? length ms)%nat then imap_m (halve_results (length ms - 6)) 0 ms else mret ms) s n = (Ok ms1, s, n) /\
    Forall2 like ms ms1 /\ take 1 ms1 = take 1 ms) as (ms1 & Hr & Hk & Ht).
  { destruct (7 <? length ms)%nat; [|exists ms; auto with prune].
    destruct (imap_m_like (S := S) (fun m => is_dict m = true) _ 1 ms 0 s n (fun j m Hm => halve_runs (length ms - 6) j m s n Hm) Hd) as (l & ? & ? & ? & ?).
    by exists l. }
  rewrite (bind_ok _ _ _ _ _ _ _ Hr). cbv beta. pose proof (Forall2_length _ _ _ Hk) as Hl.
  destruct (Z.leb_spec (tokens_with fs ms1) target) as [Hfit1|_].
  { exists ms1. split_and!; [done | | done | lia]. exists ms1, 0%nat. rewrite window_0. split_and!; [done | done | lia | by right]. }
  destruct (pop_while_spec (length ms1) 8 1 target fs ms1) as (k & -> & Hm & He); [lia | lia|].
  exists (window 1 k ms1). split_and!; [done | | by rewrite window_take by lia | lia].
  apply (pruned_from _ _ _ _ _ ms1); [done|]. exists (window 1 k ms1), k. split_and!; auto with prune. apply He. lia.
Qed.
End pruner_props.

(** ** Claims *)

(** C27: Pruning a payload never fails on a well-formed conversation, and keeps it
    recognisable.  A payload that fits is sent as it is.  Otherwise the messages
    are those of the conversation without some of the oldest ones after its
    opening, in order, and equal but for shortened contents; the OpenAI window
    leaves the opening (system message and first user message) untouched; of the
    other fields only the descriptions of tools change, and only for Groq.  The
    result is within the limit, or the conversation was cut to its floor: opening
    and last two messages (eight messages for Anthropic). *)
Theorem pruners_keep_conversation dumps dumps_indent loads {S} fs ms mx margin limit (s : S) n :
  od_get "messages" fs = Some (JArr ms) -> Forall (fun m => plain m = true) ms ->
  (exists ms', prune_openai_request dumps dumps_indent loads (JObj fs) mx margin 2 s n = (Ok (JObj (with_msgs ms' fs)), s, n) /\
    pruned dumps (opening ms) (opening ms + 2) (Z.max 512 (mx - margin)) fs ms (JObj (with_msgs ms' fs)) /\
    ((2 < length ms)%nat -> take (opening ms) ms' = take (opening ms) ms) /\
    ((payload_tokens dumps (JObj fs) <= Z.max 512 (mx - margin))%Z -> ms' = ms)) /\
  (exists req fs', prune_for_groq_tpm dumps dumps_indent loads (JObj fs) limit s n = (Ok req, s, n) /\
    ((payload_tokens dumps (JObj fs) <= limit)%Z -> req = JObj fs) /\ (fs' = fs \/ groq_tools fs = Some fs') /\
    pruned dumps (opening ms) (opening ms + 2) limit fs' ms req) /\
  (exists ms', prune_anthropic_request dumps (JObj fs) mx margin s n = (Ok (JObj (with_msgs ms' fs)), s, n) /\
    pruned dumps 1 8 (Z.max 512 (mx - margin)) fs ms (JObj (with_msgs ms' fs)) /\ take 1 ms' = take 1 ms /\
    ((payload_tokens dumps (JObj fs) <= Z.max 512 (mx - margin))%Z -> ms' = ms)).
Proof.
  intros Hms Hp. split_and!.
  - edestruct (prune_openai_runs dumps dumps_indent loads plain (plain_dict) (compact_plain dumps_indent loads) plain_list
      (S := S) fs ms mx margin s n) as (ms' & H1 & _ & H2 & H3 & H4); [done | done|]. by exists ms'.
  - by apply groq_runs.
  - apply prune_anthropic_runs; [done|]. eapply Forall_impl; [exact Hp | exact plain_dict].
Qed.

(** The tool results of a conversation that answer no earlier call. *)
Definition call_ids (m : json) : list string :=
  match jget "tool_calls" m with Some (JArr l) => omap (fun c => match jget "id" c with Some (JStr i) => Some i | _ => None end) l | _ => [] end.
Fixpoint orphans (seen : list string) (ms : list json) : list string :=
  match ms with
  | [] => []
  | m :: ms' =>
      (match jget "role" m, jget "tool_call_id" m with
       | Some (JStr "tool"), Some (JStr i) => if existsb (String.eqb i) seen then [] else [i]
       | _, _ => []
       end) ++ orphans (seen ++ call_ids m) ms'
  end.
Definition result_messages (r : res dyn_error json) : list json :=
  match r with Ok j => match jget "messages" j with Some (JArr l) => l | _ => [] end | _ => [] end.

Module Demo.
Definition say (r c : string) : json := JObj [("role", JStr r); ("content", JStr c)].
Fixpoint letters (k : nat) : string := match k with O => "" | S k' => String (chr 120) (letters k') end.
Definition call (arguments c : string) : json :=
  JObj [("role", JStr "assistant"); ("content", JStr c);
        ("tool_calls", JArr [JObj [("id", JStr "c1"); ("type", JStr "function"); ("function", JObj [("name", JStr "read"); ("arguments", JStr arguments)])]])].
Definition result : json := JObj [("role", JStr "tool"); ("tool_call_id", JStr "c1"); ("name", JStr "read"); ("content", JStr "done")].
Definition conversation (arguments c : string) (rest : list json) : json :=
  JObj [("model", JStr "m"); ("messages", JArr ([say "user" "start"; call arguments c; result] ++ rest))].
Definition text : json -> string := dumps (fun _ => "0.0").
Definition openai (j : json) (mx : Z) : res dyn_error json :=
  out_res (prune_openai_request text text loads j mx 500 2 tt 0%nat).
Definition groq (j : json) : res dyn_error json :=
  out_res (prune_for_groq_tpm text text loads j 3800 tt 0%nat).
End Demo.

(** What pruning cannot guarantee.  Evicting single messages can leave a tool
    result whose call is gone, which providers of this dialect refuse; and the
    arguments of tool calls are never shortened, so a Groq payload can stay over
    the ceiling of 3800 tokens that its adapter relies on. *)
Theorem pruning_gaps :
  (let j := Demo.conversation "{}" (Demo.letters 3000) [Demo.say "user" "go on"] in
   orphans [] (result_messages (Ok j)) = [] /\ orphans [] (result_messages (Demo.openai j 1000)) = ["c1"]) /\
  (exists req, Demo.groq (Demo.conversation (Demo.letters 16000) "" []) = Ok req /\ (3800 < payload_tokens Demo.text req)%Z).
Proof.
  split; [by vm_compute|]. eexists. split; [vm_compute; reflexivity|]. vm_compute. reflexivity.
Qed.

Lemma pruners_keep_conversation_witness :
  let fs := [("model", JStr "m"); ("messages", JArr [Demo.say "system" "s"; Demo.say "user" "u"; Demo.say "assistant" "a"])] in
  exists ms', Demo.openai (JObj fs) 1000 = Ok (JObj (with_msgs ms' fs)) /\ take 2 ms' = [Demo.say "system" "s"; Demo.say "user" "u"].
Proof.
  intros fs.
  destruct (pruners_keep_conversation Demo.text Demo.text loads (S := unit) fs
    [Demo.say "system" "s"; Demo.say "user" "u"; Demo.say "assistant" "a"] 1000 500 3800 tt 0%nat eq_refl) as ((ms' & Hr & _ & Hpre & _) & _).
  - repeat constructor.
  - exists ms'. unfold Demo.openai. rewrite Hr. split; [reflexivity | apply Hpre; cbn; lia].
Defined.
