(* ===== verification/ResponseValidation.v ===== *)
(** * Response validation

    [src/durallm/validation/response.py]: the sanity checks of a model response
    and the validation of its tool calls against the request's catalogue. *)

From stdpp Require Import base tactics list sets strings.
From Stdlib Require Import QArith.
From S2P Require Import Prelude Json Models PyText Regex ToolValidation ToolValidationProps IR.

(** The messages of a rejected response. *)
Inductive rejection : Type :=
| EmptyResponse
| TooLarge (length limit : nat)
| InvalidToolCall (tool : string) (why : option validation_error).

(** [rejection_reason] *)
Definition rejection_reason (r : rejection) : string :=
  match r with
  | EmptyResponse => "empty_response"
  | TooLarge _ _ => "response_size_exhaustion"
  | InvalidToolCall _ _ => "malformed_tool_call"
  end.

Record ResponseValidationResult : Type := {
  is_valid : bool;
  rv_rejection : option rejection;
  sanitized_response : option NormalizedResponse;
  rv_input_tokens : Z;
  rv_output_tokens : Z;
}.

Record ResponseValidator : Type := {
  tool_validator : ToolCallValidator;
  max_response_chars : nat;
  allow_empty_content_with_tools : bool;
}.
Definition new_response_validator (v : option ToolCallValidator) : ResponseValidator :=
  {| tool_validator := default (new_validator true) v; max_response_chars := Z.to_nat 5000000;
     allow_empty_content_with_tools := true |}.

Definition rejected (r : rejection) : ResponseValidationResult :=
  {| is_valid := false; rv_rejection := Some r; sanitized_response := None; rv_input_tokens := 0; rv_output_tokens := 0 |}.

(** [check_sanity] *)
Definition check_sanity (v : ResponseValidator) (response : NormalizedResponse) : option rejection :=
  let has_content := match resp_content response with Some c => truthy (strip c) | None => false end in
  let has_tools := match resp_tool_calls response with [] => false | _ => true end in
  if negb has_content && negb has_tools then Some EmptyResponse
  else match resp_content response with
       | Some c => if (max_response_chars v <? String.length c)%nat
                   then Some (TooLarge (String.length c) (max_response_chars v)) else None
       | None => None
       end.

(** [next((t.parameters for t in tools if t.name == name), None)] *)
Definition tool_schema (name : string) (tools : list NormalizedToolDefinition) : option json :=
  td_parameters <$> find (fun t => String.eqb (td_name t) name) tools.
Definition tool_names (tools : list NormalizedToolDefinition) : list string := map td_name tools.

Definition with_arguments (args : fields) (tc : NormalizedToolCall) : NormalizedToolCall :=
  {| tc_id := tc_id tc; tc_name := tc_name tc; tc_arguments := JObj args; raw_arguments := raw_arguments tc;
     tc_metadata := tc_metadata tc |}.
Definition with_tool_calls (tcs : list NormalizedToolCall) (r : NormalizedResponse) : NormalizedResponse :=
  {| response_id := response_id r; resp_model := resp_model r; resp_content := resp_content r;
     resp_reasoning_content := resp_reasoning_content r; resp_tool_calls := tcs; finish_reason := finish_reason r;
     input_tokens := input_tokens r; output_tokens := output_tokens r;
     resp_reasoning_signature := resp_reasoning_signature r; raw_response := raw_response r |}.

Section validator.
Context (json_dumps : json -> string) (json_loads_lax literal_eval : string -> option json) (float_str : Q -> string).

(** The loop over the tool calls: the rejection, and the calls as left behind. *)
Fixpoint validate_calls (v : ResponseValidator) (tools : list NormalizedToolDefinition) (tcs : list NormalizedToolCall)
    : res exn (option rejection * list NormalizedToolCall) :=
  match tcs with
  | [] => Ok (None, [])
  | tc :: tcs' =>
      let! report := validate_tool_call json_dumps json_loads_lax literal_eval float_str (tool_validator v) (tc_name tc)
                       (tc_arguments tc) (tool_schema (tc_name tc) tools) (Some (tool_names tools)) in
      if is_executable report then
        let! o := validate_calls v tools tcs' in
        Ok (fst o, with_arguments (validated_arguments report) tc :: snd o)
      else Ok (Some (InvalidToolCall (tc_name tc) (tv_error report)), tc :: tcs')
  end.

(** [validate]: the result and the response object as left behind. *)
Definition validate (v : ResponseValidator) (response : NormalizedResponse) (request : NormalizedRequest)
    : res exn (ResponseValidationResult * NormalizedResponse) :=
  match check_sanity v response with
  | Some r => Ok (rejected r, response)
  | None =>
      let! o := validate_calls v (tools request) (resp_tool_calls response) in
      let response' := with_tool_calls (snd o) response in
      match fst o with
      | Some r => Ok (rejected r, response')
      | None => Ok ({| is_valid := true; rv_rejection := None; sanitized_response := Some response';
                       rv_input_tokens := input_tokens response; rv_output_tokens := output_tokens response |}, response')
      end
  end.
End validator.

(** ** Facts *)

(** A response is sane when it says something, within the size limit. *)
Definition sane (v : ResponseValidator) (r : NormalizedResponse) : Prop :=
  (resp_tool_calls r <> [] \/ exists c, resp_content r = Some c /\ truthy (strip c) = true) /\
  (forall c, resp_content r = Some c -> (String.length c <= max_response_chars v)%nat).

Lemma check_sanity_iff v r : check_sanity v r = None <-> sane v r.
Proof.
  unfold check_sanity, sane. destruct (resp_content r) as [c|].
  - assert (Hl : (forall c', Some c = Some c' -> (String.length c' <= max_response_chars v)%nat) <->
                 (max_response_chars v <? String.length c)%nat = false).
    { rewrite Nat.ltb_ge. split; [intros H; by apply H | by intros H c' [= <-]]. }
    rewrite Hl. destruct (truthy (strip c)) eqn:E, (resp_tool_calls r) eqn:Et; simpl;
      destruct (_ <? _)%nat; split; try done; try (intros; split; [|done]; by eauto).
    all: intros [[?|(c' & [= <-] & ?)] ?]; congruence.
  - destruct (resp_tool_calls r) eqn:Et; simpl; split; try done.
    + intros [[?|(c & ? & _)] _]; done.
    + intros _. split; [by left | done].
Qed.

(** A call is callable when its tool is in the catalogue and its arguments
    conform to the tool's schema, if it has one. *)
Definition callable (tools : list NormalizedToolDefinition) (tc : NormalizedToolCall) : Prop :=
  tc_name tc ∈ tool_names tools /\
  exists args, tc_arguments tc = JObj args /\
    forall sp, schema_params_of (tool_schema (tc_name tc) tools) = Ok (Some sp) -> exists spf, sp = JObj spf /\ conforms spf args.

Definition schemas_wf (tools : list NormalizedToolDefinition) : Prop := Forall (fun t => jwf (td_parameters t)) tools.

Lemma tool_schema_wf tools name s : schemas_wf tools -> tool_schema name tools = Some s -> jwf s.
Proof.
  unfold tool_schema. intros Hw Hf. destruct (find _ tools) as [t|] eqn:E; [|done]. simplify_eq/=.
  apply find_some in E as [Hin _]. apply list_elem_of_In in Hin. unfold schemas_wf in Hw. rewrite Forall_forall in Hw. by apply Hw.
Qed.

Lemma report_callable dumps loads leval fstr v tc arguments tools r :
  schemas_wf tools ->
  validate_tool_call dumps loads leval fstr v (tc_name tc) arguments (tool_schema (tc_name tc) tools) (Some (tool_names tools)) = Ok r ->
  is_executable r = true -> callable tools (with_arguments (validated_arguments r) tc).
Proof.
  intros Hw Hc Hx. destruct (call_executable _ _ _ _ _ _ _ _ _ _ Hc Hx) as (args0 & n0 & _ & Hk & Hs & _).
  split; [by apply Hk|]. eexists. split; [reflexivity|]. intros sp Hsp.
  destruct Hs as [(Hn & _)|(spf & args & n1 & n2 & Hs & _ & Hval & _)]; [cbn in *; congruence|]. exists spf.
  cbn in Hsp. rewrite Hs in Hsp. injection Hsp as <-. split; [done|].
  destruct (validate_schema_good _ _ _ _ _ _ _ Hval) as (_ & _ & Hconf); [|by apply Hconf].
  eapply jwf_params; [|exact Hs]. intros s. by apply tool_schema_wf.
Qed.

Lemma validate_calls_sound dumps loads leval fstr v tools tcs tcs' :
  schemas_wf tools -> validate_calls dumps loads leval fstr v tools tcs = Ok (None, tcs') ->
  Forall (callable tools) tcs' /\ map tc_name tcs' = map tc_name tcs /\ map tc_id tcs' = map tc_id tcs.
Proof.
  intros Hw. revert tcs'. induction tcs as [|tc tcs IH]; intros tcs'; cbn [validate_calls].
  { intros. simplify_eq. by split_and!. }
  destruct (validate_tool_call _ _ _ _ _ _ _ _ _) as [r|] eqn:Er; [|done]. cbn [res_bind].
  destruct (is_executable r) eqn:Ex; [|done].
  destruct (validate_calls dumps loads leval fstr v tools tcs) as [[rj rest]|]; [|done]. cbn [res_bind fst snd].
  intros [= -> <-]. destruct (IH rest eq_refl) as (H1 & H2 & H3). cbn [map]. rewrite H2, H3.
  split_and!; [constructor; [by eapply report_callable | done] | done | done].
Qed.

(** a validated response is usable.  When the response validator accepts a
    response, the response has content or tool calls, is within the size limit,
    keeps its calls in order with their names and ids, and each call is of a
    tool of the request with arguments that conform to that tool's schema. *)
Theorem validated_response_usable dumps loads leval fstr v response request result response' :
  schemas_wf (tools request) ->
  validate dumps loads leval fstr v response request = Ok (result, response') -> is_valid result = true ->
  sanitized_response result = Some response' /\ sane v response' /\
  Forall (callable (tools request)) (resp_tool_calls response') /\
  map tc_name (resp_tool_calls response') = map tc_name (resp_tool_calls response) /\
  map tc_id (resp_tool_calls response') = map tc_id (resp_tool_calls response).
Proof.
  intros Hw. unfold validate. destruct (check_sanity v response) eqn:Es; [intros; by simplify_eq|].
  destruct (validate_calls _ _ _ _ _ _ _) as [[[rj|] tcs]|] eqn:Ec; cbn [res_bind fst snd]; [intros; by simplify_eq | | done].
  intros [= <- <-] _. apply validate_calls_sound in Ec as (H1 & H2 & H3); [|done].
  split_and!; [done | | done..]. apply check_sanity_iff in Es as [Hs Hl]. split; [|done].
  destruct Hs as [Hs|Hs]; [left | by right]. cbn. intros ->. by destruct (resp_tool_calls response).
Qed.

Lemma validated_response_usable_witness :
  let tools := [{| td_name := "move"; td_description := ""; td_parameters := Demo.schema; td_cache_control := None |}] in
  let tc args := {| tc_id := "c"; tc_name := "move"; tc_arguments := JObj args; raw_arguments := ""; tc_metadata := [] |} in
  Forall (callable tools) [tc Demo.good].
Proof.
  set (request := {| request_id := "r"; req_model := "m"; messages := []; system_instruction := None;
    IR.tools := [{| td_name := "move"; td_description := ""; td_parameters := Demo.schema; td_cache_control := None |}];
    req_max_output_tokens := None; temperature := None; stream := false;
    system_cache_control := None; tool_choice := None; req_metadata := [] |}).
  set (response args := {| response_id := "x"; resp_model := "m"; resp_content := None; resp_reasoning_content := None;
    resp_tool_calls := [{| tc_id := "c"; tc_name := "move"; tc_arguments := JObj args; raw_arguments := ""; tc_metadata := [] |}];
    finish_reason := "tool_calls"; input_tokens := 0; output_tokens := 0; resp_reasoning_signature := None; raw_response := None |}).
  refine (proj1 (proj2 (proj2 (validated_response_usable (fun _ => "") (fun _ => None) (fun _ => None) (fun _ => "")
    (new_response_validator None) (response Demo.sloppy) request
    {| is_valid := true; rv_rejection := None; sanitized_response := Some (response Demo.good); rv_input_tokens := 0;
       rv_output_tokens := 0 |} (response Demo.good) _ _ eq_refl)))).
  - constructor; [by apply Demo.schema_wf | constructor].
  - by vm_compute.
Defined.
