(* ===== verification/Interfaces.v ===== *)
(** * What the executor relies on

    The interfaces between the executor and its collaborators, as classes: the
    language runtime (clocks, randomness, JSON, rendering of exceptions), the
    provider adapters ([ProviderAdapter] of [src/durallm/providers/base.py]), the
    tool ledger and the attempt store ([AttemptStore] of
    [src/durallm/storage/contracts.py]).  The in-memory and the durable ledger,
    the SQLite and the cluster store are instances. *)

From stdpp Require Import base tactics list strings.
From Stdlib Require Import QArith.
From S2P Require Import Prelude Json Models PyText Execution Profile ToolLedger SqliteStore DurableLedger ClusterStore IR Classifier ToolValidation.

(** ** The runtime *)

Class Runtime : Type := {
  (* [time.time], [time.monotonic], [random.random] and [uuid.uuid4], by reading *)
  wall : nat -> Q;
  mono : nat -> Q;
  (* the [clock] of the breakers' configuration, [time.monotonic] by default *)
  breaker_clock : nat -> Q;
  draws : nat -> Q;
  uuids : nat -> string;
  environ : string -> option string;
  (* [json.dumps] with its three option sets, [json.loads] strict and lax *)
  dumps : json -> string;
  dumps_sorted : json -> string;
  dumps_indent : json -> string;
  loads : string -> option json;
  loads_lax : string -> option json;
  literal_eval : string -> option json;
  float_str : Q -> string;
  sha256 : string -> string;
  parse_http_date : string -> option Q;
  (* [str(e)], [type(e).__name__] and the attributes of an exception *)
  describe : exn -> error_value;
  (* the text of a validation message *)
  render : validation_error -> string;
}.

Definition read_uuid {R : Runtime} {E S} : M E S string := fun s n => (Ok (uuids n), s, Datatypes.S n).

(** ** Providers *)

Record PreparedRequest : Type := {
  pr_url : string;
  pr_headers : odict string string;
  pr_body : string;
  pr_method : string;
}.

Record ProviderExecutionResult : Type := {
  px_status_code : Z;
  px_headers : odict string string;
  px_body : string;
  px_duration_ms : Q;
  px_transport_error : option string;
}.

(** One adapter.  What the network answers may differ at every reading. *)
Record ProviderAdapter : Type := {
  prepare_request : Endpoint -> NormalizedRequest -> string -> res exn PreparedRequest;
  adapter_execute : PreparedRequest -> Q -> nat -> res exn ProviderExecutionResult;
  normalize_response : Endpoint -> ProviderExecutionResult -> res exn NormalizedResponse;
}.

(** [ProviderAdapterRegistry.get_adapter] *)
Definition get_adapter {P} (adapters : odict string P) (provider : string) (protocol : string)
    : res exn P :=
  match od_get (py_lower provider) adapters with
  | Some a => Ok a
  | None =>
      if truthy protocol && existsb (String.eqb (py_lower protocol)) ["openai"; "anthropic"; "gemini"] then
        match od_get (py_lower protocol) adapters with
        | Some a => Ok a
        | None => Raise (KeyError (py_lower protocol))
        end
      else Raise ConfigurationError
  end.

(** ** The tool ledger *)

Class ToolLedgerOps (T : Type) : Type := {
  tl_register_tool_call : string -> string -> string -> json -> M exn T unit;
  tl_check_idempotency : string -> string -> json -> M exn T (bool * option json);
  tl_has_indeterminate_operation : string -> string -> json -> M exn T bool;
  tl_mark_replayed : string -> json -> M exn T unit;
  tl_mark_indeterminate : string -> string -> M exn T unit;
  tl_mark_failed : string -> string -> M exn T unit;
  tl_mark_validated : string -> M exn T unit;
}.

Definition ignore {E S A} (m : M E S A) : M E S unit := _ ← m; mret tt.

#[export] Instance memory_ledger `{Runtime} : ToolLedgerOps ToolExecutionLedger := {|
  tl_register_tool_call c l t a := ignore (register_tool_call dumps_sorted sha256 wall c l t a);
  tl_check_idempotency := check_idempotency dumps_sorted sha256 wall;
  tl_has_indeterminate_operation := has_indeterminate_operation dumps_sorted sha256;
  tl_mark_replayed := mark_replayed wall;
  tl_mark_indeterminate := mark_indeterminate wall;
  tl_mark_failed := mark_failed wall;
  tl_mark_validated := mark_validated wall |}.

#[export] Instance durable_ledger `{Runtime} : ToolLedgerOps World := {|
  tl_register_tool_call c l t a := ignore (durable_register_tool_call dumps_sorted sha256 wall wall c l t a);
  tl_check_idempotency := durable_check_idempotency dumps_sorted sha256;
  tl_has_indeterminate_operation := durable_has_indeterminate_operation dumps_sorted sha256;
  tl_mark_replayed c r := on_base (mark_replayed wall c r);
  tl_mark_indeterminate := durable_mark_indeterminate wall;
  tl_mark_failed := durable_mark_failed wall;
  tl_mark_validated := durable_mark_validated wall |}.

(** What a tool runner needs of the ledger besides. *)
Class ToolRunnerOps (T : Type) : Type := {
  tr_mark_submitted : string -> M exn T unit;
  tr_mark_committed : string -> json -> M exn T unit;
  tr_get_record : string -> M exn T (option ToolExecutionRecord);
}.
#[export] Instance memory_runner `{Runtime} : ToolRunnerOps ToolExecutionLedger := {|
  tr_mark_submitted := mark_submitted wall;
  tr_mark_committed := mark_committed wall wall;
  tr_get_record := get_record |}.
#[export] Instance durable_runner `{Runtime} : ToolRunnerOps World := {|
  tr_mark_submitted := durable_mark_submitted wall;
  tr_mark_committed := durable_mark_committed wall wall;
  tr_get_record := durable_get_record |}.

(** What the executor relies on: a query for unresolved operations (submitted,
    with no acknowledgement) that answers truthfully, and bookkeeping that never
    makes an operation unresolved. *)
Class ToolLedgerLaws (T : Type) `{ToolLedgerOps T} : Type := {
  unresolved : T -> string -> string -> json -> Prop;
  indeterminate_exact l t a s n b s' n' :
    tl_has_indeterminate_operation l t a s n = (Ok b, s', n') -> s' = s /\ (b = true <-> unresolved s l t a);
  register_keeps_resolved l t a c l' t' a' : preserves (fun s => ~ unresolved s l t a) (tl_register_tool_call c l' t' a');
  check_keeps_resolved l t a l' t' a' : preserves (fun s => ~ unresolved s l t a) (tl_check_idempotency l' t' a');
  replayed_keeps_resolved l t a c r : preserves (fun s => ~ unresolved s l t a) (tl_mark_replayed c r);
  validated_keeps_resolved l t a c : preserves (fun s => ~ unresolved s l t a) (tl_mark_validated c);
}.

(** ** The attempt store *)

Class AttemptStoreOps (A : Type) : Type := {
  as_prepare_attempt : string -> string -> json -> M exn A unit;
  as_finish_attempt : string -> string -> json -> M exn A unit;
  (* only the SQLite store has [record_quota_lockout] *)
  as_record_quota_lockout : option (string -> string -> string -> Q -> string -> M exn A unit);
}.

#[export] Instance sqlite_attempts `{Runtime} : AttemptStoreOps Database := {|
  as_prepare_attempt a r p := ignore (prepare_attempt wall a r p);
  as_finish_attempt a st p := ignore (finish_attempt wall a st p);
  as_record_quota_lockout := Some (fun provider pool route expires reason =>
    record_quota_lockout wall provider pool route expires (Some reason)) |}.

#[export] Instance cluster_attempts `{Runtime} : AttemptStoreOps ClusterPersistenceStore := {|
  as_prepare_attempt a r p := ignore (cl_prepare_attempt wall a r p);
  as_finish_attempt a st p := ignore (cl_finish_attempt wall a st p);
  as_record_quota_lockout := None |}.
