(* ===== verification/Prepare.v ===== *)
(** * Requests as the adapters send them

    The [prepare_request] methods and the registry of
    [src/durallm/providers/adapters.py]: the payload of the codec, the output limits
    and the pruning that some providers need, the headers with the key, the URL. *)

From stdpp Require Import base tactics list strings.
From Stdlib Require Import QArith Ascii.
From S2P Require Import Prelude Models Json PyText Utf8 PyDyn IR Profile Sse CodecOpenAI CodecAnthropic CodecGemini Context Pruner Interfaces.

(** ** URLs and headers *)

Fixpoint drop_slashes (s : string) : string :=
  match s with EmptyString => s | String c s' => if (code c =? 47)%nat then drop_slashes s' else s end.
(** [s.rstrip("/")] *)
Definition rstrip_slash (s : string) : string := str_rev (drop_slashes (str_rev s)).
(** [f"{base}{path}" if not base.endswith(path) else base] *)
Definition url_for (base path : string) : string :=
  let b := rstrip_slash base in if ends_with path b then b else (b ++ path)%string.

Definition USER_AGENT : string := "durallm/0.2.1".
(** [if api_key: headers[name] = value] *)
Definition auth_header (name prefix : string) (api_key : option string) : odict string string :=
  match api_key with Some k => if truthy k then [(name, (prefix ++ k)%string)] else [] | None => [] end.
(** [headers.update(endpoint.headers)] *)
Definition with_endpoint_headers (e : Endpoint) (hs : odict string string) : odict string string := od_update hs (ep_headers e).

Section prepare.
Context (py_repr : json -> string) (json_dumps json_dumps_indent : json -> string) (json_loads : string -> option json).

Definition prepared (url : string) (headers : odict string string) (payload : json) : PreparedRequest :=
  {| pr_url := url; pr_headers := headers; pr_body := json_dumps payload; pr_method := "POST" |}.

(** ** OpenAI-compatible providers *)

(** [(endpoint.profile.max_output_tokens if endpoint.profile else 8192) or 8192] *)
Definition output_limit (e : Endpoint) : Z :=
  let z := match profile e with Some p => max_output_tokens p | None => 8192%Z end in if (z =? 0)%Z then 8192%Z else z.

(** [payload[k] = min(payload[k], bound)], when it is there. *)
Definition clamp_field {S} (k : string) (bound : Z) (fs : fields) : M dyn_error S fields :=
  match od_get k fs with
  | None => mret fs
  | Some (JInt z) => mret (od_set k (JInt (Z.min z bound)) fs)
  | Some _ => raise Untyped
  end.
(** [payload["max_tokens"] = min(payload.get("max_tokens", dflt), bound)] *)
Definition bound_output {S} (dflt bound : Z) (fs : fields) : M dyn_error S fields :=
  clamp_field "max_tokens" bound (if od_mem "max_tokens" fs then fs else od_set "max_tokens" (JInt dflt) fs).

Definition openai_payload {S} (e : Endpoint) (request : NormalizedRequest) : M dyn_error S json :=
  let max_out := output_limit e in
  match ir_to_openai_request json_dumps request (ep_model e) with
  | JObj fs =>
      let fs1 := od_set "stream" (JBool false) fs in
      fs2 ← (if od_mem "max_tokens" fs1 then clamp_field "max_tokens" max_out fs1
             else mret (od_set "max_tokens" (JInt (Z.min max_out 8192)) fs1));
      fs3 ← clamp_field "max_completion_tokens" max_out fs2;
      if String.eqb (py_lower (ep_provider e)) "groq" then
        fs4 ← bound_output 950 950 fs3;
        fs5 ← clamp_field "max_completion_tokens" 950 fs4;
        prune_for_groq_tpm json_dumps json_dumps_indent json_loads (JObj fs5) 3800
      else if String.eqb (py_lower (ep_provider e)) "nvidia" then
        prune_openai_request json_dumps json_dumps_indent json_loads (JObj fs3) 16000 500 2
      else mret (JObj fs3)
  | _ => raise Untyped
  end.

Definition openai_headers (e : Endpoint) (api_key : option string) : odict string string :=
  with_endpoint_headers e
    ([("Content-Type", "application/json"); ("Accept", "application/json"); ("User-Agent", USER_AGENT)] ++ auth_header "Authorization" "Bearer " api_key).

Definition openai_prepare {S} (e : Endpoint) (request : NormalizedRequest) (api_key : option string) : M dyn_error S PreparedRequest :=
  payload ← openai_payload e request;
  mret (prepared (url_for (base_url e) "/chat/completions") (openai_headers e api_key) payload).

(** ** Anthropic and Gemini *)

Definition anthropic_headers (e : Endpoint) (api_key : option string) : odict string string :=
  with_endpoint_headers e
    ([("Content-Type", "application/json"); ("anthropic-version", "2023-06-01"); ("User-Agent", USER_AGENT)] ++ auth_header "x-api-key" "" api_key).
Definition anthropic_prepare {S} (e : Endpoint) (request : NormalizedRequest) (api_key : option string) : M dyn_error S PreparedRequest :=
  payload ← ir_to_anthropic_request request (ep_model e);
  match payload with
  | JObj fs => mret (prepared (url_for (base_url e) "/messages") (anthropic_headers e api_key) (JObj (od_set "stream" (JBool false) fs)))
  | _ => raise Untyped
  end.

Definition gemini_headers (e : Endpoint) (api_key : option string) : odict string string :=
  with_endpoint_headers e ([("Content-Type", "application/json"); ("User-Agent", USER_AGENT)] ++ auth_header "x-goog-api-key" "" api_key).
Definition gemini_url (e : Endpoint) : string := (rstrip_slash (base_url e) ++ "/models/" ++ ep_model e ++ ":generateContent")%string.
Definition gemini_prepare {S} (e : Endpoint) (request : NormalizedRequest) (api_key : option string) : M dyn_error S PreparedRequest :=
  payload ← ir_to_gemini_request py_repr request (ep_model e);
  mret (prepared (gemini_url e) (gemini_headers e api_key) payload).

(** ** The registry *)

Inductive adapter_class : Type := OpenAICompatibleAdapter | AnthropicAdapter | GeminiAdapter.
Definition class_prepare {S} (c : adapter_class) : Endpoint -> NormalizedRequest -> option string -> M dyn_error S PreparedRequest :=
  match c with OpenAICompatibleAdapter => openai_prepare | AnthropicAdapter => anthropic_prepare | GeminiAdapter => gemini_prepare end.

Definition default_adapters : odict string adapter_class :=
  [("openai", OpenAICompatibleAdapter); ("groq", OpenAICompatibleAdapter); ("cerebras", OpenAICompatibleAdapter);
   ("openrouter", OpenAICompatibleAdapter); ("mistral", OpenAICompatibleAdapter); ("nvidia", OpenAICompatibleAdapter);
   ("anthropic", AnthropicAdapter); ("gemini", GeminiAdapter)].
Definition register {A} (provider : string) (adapter : A) (adapters : odict string A) : odict string A := od_set (py_lower provider) adapter adapters.
End prepare.

From S2P Require Import JsonText PrunerProps.

(** ** What the adapters send

    Every request that an OpenAI-compatible adapter prepares is bounded and names
    the endpoint's model, and the key of an account reaches nothing but the
    header made for it. *)
Module PrepareProps.

Section prepare_props.
Context (py_repr : json -> string) (json_dumps json_dumps_indent : json -> string) (json_loads : string -> option json).

(** The encoder writes plain messages. *)
Lemma encode_plain names m : Forall (fun j => plain j = true) (encode_message json_dumps names m).
Proof.
  unfold encode_message. assert (Hr : forall l, Forall (fun j => plain j = true) (map (openai_result names) l)).
  { intros l. apply Forall_fmap, Forall_true. done. }
  repeat case_match; try (apply Forall_app; split); repeat constructor; try apply Hr.
  all: cbn [plain od_get app]; repeat (case_decide; try done); by repeat case_match.
Qed.
Lemma encoded_plain r : Forall (fun j => plain j = true) (encode_messages json_dumps r).
Proof.
  unfold encode_messages. apply Forall_app. split; [repeat case_match; repeat constructor|].
  apply Forall_concat, Forall_fmap, Forall_true. intros m. apply encode_plain.
Qed.

(** The fields every prepared payload has, with [z] the output limit sent. *)
Definition carries (e : Endpoint) (z : Z) (fs : fields) : Prop :=
  od_get "model" fs = Some (JStr (ep_model e)) /\ od_get "stream" fs = Some (JBool false) /\ od_get "max_tokens" fs = Some (JInt z).

Lemma carries_msgs e z ms fs : carries e z fs -> carries e z (with_msgs ms fs).
Proof. intros (H1 & H2 & H3). unfold carries, with_msgs. by rewrite !od_get_set_ne. Qed.
Lemma carries_tools e z fs fs' : carries e z fs -> groq_tools fs = Some fs' -> carries e z fs'.
Proof.
  intros (H1 & H2 & H3). unfold groq_tools. intros. repeat case_match; simplify_eq. unfold carries. by rewrite !od_get_set_ne.
Qed.

(** The limit the client asked for. *)
Definition asked (r : NormalizedRequest) : option Z :=
  match req_max_output_tokens r with Some z => if (z =? 0)%Z then None else Some z | None => None end.

Lemma request_fields r model : exists fs, ir_to_openai_request json_dumps r model = JObj fs /\
  od_get "model" fs = Some (JStr model) /\ od_get "messages" fs = Some (JArr (encode_messages json_dumps r)) /\
  od_get "max_tokens" fs = JInt <$> asked r /\ od_get "max_completion_tokens" fs = None.
Proof.
  unfold ir_to_openai_request. eexists. split; [reflexivity|].
  unfold asked, int_field, num_field. set (ms := JArr _). set (t := map openai_function). set (c := tool_choice_to_openai _).
  destruct (req_max_output_tokens r) as [z|]; [destruct (z =? 0)%Z|]; destruct (temperature r), (stream r), (tools r), c; split_and!; reflexivity.
Qed.

(** The payload before the provider's own treatment. *)
Definition sent_limit (e : Endpoint) (r : NormalizedRequest) : Z :=
  match asked r with Some z => Z.min z (output_limit e) | None => Z.min (output_limit e) 8192 end.

Lemma clamp_absent {S} k b fs (s : S) n : od_get k fs = None -> clamp_field k b fs s n = (Ok fs, s, n).
Proof. unfold clamp_field. by intros ->. Qed.
Lemma clamp_int {S} k b fs z (s : S) n : od_get k fs = Some (JInt z) -> clamp_field k b fs s n = (Ok (od_set k (JInt (Z.min z b)) fs), s, n).
Proof. unfold clamp_field. by intros ->. Qed.

Lemma openai_payload_runs {S} e r (s : S) n : exists fs,
  carries e (sent_limit e r) fs /\ od_get "messages" fs = Some (JArr (encode_messages json_dumps r)) /\
  openai_payload json_dumps json_dumps_indent json_loads e r s n =
    (if String.eqb (py_lower (ep_provider e)) "groq" then
       prune_for_groq_tpm json_dumps json_dumps_indent json_loads
         (JObj (od_set "max_tokens" (JInt (Z.min (sent_limit e r) 950)) fs)) 3800 s n
     else if String.eqb (py_lower (ep_provider e)) "nvidia" then
       prune_openai_request json_dumps json_dumps_indent json_loads (JObj fs) 16000 500 2 s n
     else (Ok (JObj fs), s, n)).
Proof.
  destruct (request_fields r (ep_model e)) as (fs & Hf & Hm & Hms & Hx & Hc).
  exists (od_set "max_tokens" (JInt (sent_limit e r)) (od_set "stream" (JBool false) fs)).
  assert (Hget : forall k v, k <> "max_tokens" -> k <> "stream" -> od_get k fs = v ->
    od_get k (od_set "max_tokens" (JInt (sent_limit e r)) (od_set "stream" (JBool false) fs)) = v).
  { intros k v H1 H2 <-. by rewrite !od_get_set_ne. }
  split; [split_and!; [by apply Hget | rewrite od_get_set_ne by done; apply od_get_set_eq | apply od_get_set_eq]|]. split; [by apply Hget|].
  unfold openai_payload. rewrite Hf. cbv zeta beta iota.
  assert (Hrun : (if od_mem "max_tokens" (od_set "stream" (JBool false) fs)
      then clamp_field "max_tokens" (output_limit e) (od_set "stream" (JBool false) fs)
      else mret (od_set "max_tokens" (JInt (Z.min (output_limit e) 8192)) (od_set "stream" (JBool false) fs))) s n
    = (Ok (od_set "max_tokens" (JInt (sent_limit e r)) (od_set "stream" (JBool false) fs)), s, n)).
  { unfold od_mem, clamp_field, sent_limit. rewrite od_get_set_ne, Hx by done. by destruct (asked r). }
  rewrite (bind_ok _ _ _ _ _ _ _ Hrun). cbv beta. set (fs2 := od_set "max_tokens" _ _) in *.
  assert (H2 : od_get "max_completion_tokens" fs2 = None) by (by apply Hget).
  rewrite (bind_ok _ _ _ _ _ _ _ (clamp_absent _ _ _ s n H2)). cbv beta. destruct (py_lower (ep_provider e) =? "groq")%string; [|by destruct (py_lower (ep_provider e) =? "nvidia")%string].
  assert (H3 : od_get "max_tokens" fs2 = Some (JInt (sent_limit e r))) by apply od_get_set_eq.
  unfold bound_output, od_mem. rewrite H3. rewrite (bind_ok _ _ _ _ _ _ _ (clamp_int _ _ _ _ s n H3)). cbv beta.
  rewrite (bind_ok _ _ _ _ _ _ _ (clamp_absent "max_completion_tokens" 950 (od_set "max_tokens" (JInt (Z.min (sent_limit e r) 950)) fs2) s n
    ltac:(by rewrite od_get_set_ne))). done.
Qed.

Lemma carries_clamped e z fs : carries e z fs -> carries e (Z.min z 950) (od_set "max_tokens" (JInt (Z.min z 950)) fs).
Proof. intros (H1 & H2 & H3). unfold carries. rewrite od_get_set_eq. by rewrite !od_get_set_ne. Qed.
End prepare_props.

(** ** Headers *)

(** Updating headers that agree but for one keeps them so. *)
Lemma update_agree (a b l : odict string string) h : od_get h a = od_get h b -> od_get h (od_update a l) = od_get h (od_update b l).
Proof.
  unfold od_update. revert a b. induction l as [|[k v] l IH]; intros a b H; [done|]. cbn [foldl fst snd]. apply IH. rewrite !od_get_set_cases. by case_decide.
Qed.
Lemma od_get_app {V} k (a b : odict string V) : od_get k (a ++ b) = match od_get k a with Some v => Some v | None => od_get k b end.
Proof. induction a as [|[k' v] a IH]; [done|]. cbn [app od_get]. by case_decide. Qed.
Lemma auth_absent name prefix k h : h <> name -> od_get h (auth_header name prefix k) = None.
Proof. intros H. unfold auth_header. destruct k as [k|]; [|done]. destruct (truthy k); [|done]. cbn [od_get]. by rewrite decide_False. Qed.
Lemma headers_agree e base name prefix k1 k2 h : h <> name ->
  od_get h (with_endpoint_headers e (base ++ auth_header name prefix k1)) = od_get h (with_endpoint_headers e (base ++ auth_header name prefix k2)).
Proof. intros H. apply update_agree. by rewrite !od_get_app, !auth_absent. Qed.

(** ** Claims *)

(** Preparing a request for an OpenAI-compatible provider always succeeds, and
    what is sent names the endpoint's model, asks for a buffered answer and for no
    more output than the client asked for and the endpoint can give (at most 950
    tokens for Groq).  The conversation is the encoded one, whole; for NVIDIA and
    Groq it is pruned to their input limits, keeping its opening and its last two
    messages. *)
Theorem prepared_payload_sound dumps dumps_indent loads {S} e r (s : S) n :
  let ms := encode_messages dumps r in
  let z := sent_limit e r in
  exists fs, openai_payload dumps dumps_indent loads e r s n = (Ok (JObj fs), s, n) /\
  (z <= output_limit e)%Z /\ (forall a, asked r = Some a -> (z <= a)%Z) /\
  if String.eqb (py_lower (ep_provider e)) "groq" then
    carries e (Z.min z 950) fs /\ exists fs', pruned dumps (opening ms) (opening ms + 2) 3800 fs' ms (JObj fs)
  else if String.eqb (py_lower (ep_provider e)) "nvidia" then
    carries e z fs /\ exists fs', pruned dumps (opening ms) (opening ms + 2) 15500 fs' ms (JObj fs)
  else carries e z fs /\ od_get "messages" fs = Some (JArr ms).
Proof.
  intros ms z. destruct (openai_payload_runs dumps dumps_indent loads e r s n) as (fs & Hc & Hms & Hrun). rewrite Hrun. clear Hrun. fold z in Hc |- *. fold ms in Hms.
  assert (Hz : (z <= output_limit e)%Z /\ forall a, asked r = Some a -> (z <= a)%Z).
  { unfold z, sent_limit. destruct (asked r); split; intros; simplify_eq; lia. }
  destruct Hz as [Hz1 Hz2].
  destruct (String.eqb_spec (py_lower (ep_provider e)) "groq") as [Eg|Hg].
  { destruct (groq_runs dumps dumps_indent loads (S := S) (od_set "max_tokens" (JInt (Z.min z 950)) fs) ms 3800 s n) as (req & fs' & Hr & _ & Hfs & Hp);
      [rewrite od_get_set_ne by done; exact Hms | apply encoded_plain|].
    destruct Hp as (ms' & k & -> & Hp). exists (with_msgs ms' fs'). rewrite Hr. do 3 (split; [done|]). split; [|by exists fs', ms', k].
    apply carries_msgs. pose proof (carries_clamped e z fs Hc) as Hc'. destruct Hfs as [->|Ht]; [done | by eapply carries_tools]. }
  destruct (String.eqb_spec (py_lower (ep_provider e)) "nvidia") as [En|Hn].
  { destruct (prune_openai_runs dumps dumps_indent loads plain plain_dict (compact_plain dumps_indent loads) plain_list
      (S := S) fs ms 16000 500 s n Hms (encoded_plain dumps r)) as (ms' & -> & _ & Hp & _).
    exists (with_msgs ms' fs). do 3 (split; [done|]). split; [by apply carries_msgs | by exists fs]. }
  by exists fs.
Qed.

(** C18: The key of an account reaches nothing but its header.  Two requests prepared
    with different keys, by any of the three adapters, have the same URL, method
    and body, and the same headers but for the one that carries the key; the draws
    and failures are the same. *)
Theorem api_key_confined repr dumps dumps_indent loads {S} c e r k1 k2 (s : S) n :
  let prep k := class_prepare repr dumps dumps_indent loads c e r k s n in
  let auth := match c with OpenAICompatibleAdapter => "Authorization" | AnthropicAdapter => "x-api-key" | GeminiAdapter => "x-goog-api-key" end in
  match prep k1, prep k2 with
  | (Ok p1, s1, n1), (Ok p2, s2, n2) =>
      pr_url p1 = pr_url p2 /\ pr_body p1 = pr_body p2 /\ pr_method p1 = pr_method p2 /\ s1 = s2 /\ n1 = n2 /\
      forall h, h <> auth -> od_get h (pr_headers p1) = od_get h (pr_headers p2)
  | (Raise e1, s1, n1), (Raise e2, s2, n2) => e1 = e2 /\ s1 = s2 /\ n1 = n2
  | _, _ => False
  end.
Proof.
  intros prep auth. unfold prep, auth, class_prepare. destruct c.
  - unfold openai_prepare. destruct (openai_payload dumps dumps_indent loads e r s n) as [[[j|x] s'] n'] eqn:E.
    + rewrite !(bind_ok _ _ _ _ _ _ _ E). cbn. split_and!; try done. intros h Hh. by apply headers_agree.
    + by rewrite !(bind_raise _ _ _ _ _ _ _ E).
  - unfold anthropic_prepare. destruct (ir_to_anthropic_request r (ep_model e) s n) as [[[j|x] s'] n'] eqn:E.
    + rewrite !(bind_ok _ _ _ _ _ _ _ E). destruct j; try done. cbn. split_and!; try done. intros h Hh. by apply headers_agree.
    + by rewrite !(bind_raise _ _ _ _ _ _ _ E).
  - unfold gemini_prepare. destruct (ir_to_gemini_request repr r (ep_model e) s n) as [[[j|x] s'] n'] eqn:E.
    + rewrite !(bind_ok _ _ _ _ _ _ _ E). cbn. split_and!; try done. intros h Hh. by apply headers_agree.
    + by rewrite !(bind_raise _ _ _ _ _ _ _ E).
Qed.

(** A lookup in the default registry, extended by any registrations, finds an
    adapter or reports a configuration error; a registered provider is found. *)
Lemma lookup_reports {P} (adapters : odict string P) provider protocol : (forall k, k ∈ ["openai"; "anthropic"; "gemini"] -> od_get k adapters <> None) ->
  (exists a, get_adapter adapters provider protocol = Ok a) \/ get_adapter adapters provider protocol = Raise ConfigurationError.
Proof.
  intros Hd. unfold get_adapter. destruct (od_get (py_lower provider) adapters) as [a|]; [left; by exists a|].
  destruct (truthy protocol && existsb (String.eqb (py_lower protocol)) ["openai"; "anthropic"; "gemini"]) eqn:E; [|by right].
  apply andb_true_iff in E as [_ (k & Hk & Heq)%existsb_exists]. apply String.eqb_eq in Heq as <-. apply list_elem_of_In in Hk.
  specialize (Hd _ Hk). destruct (od_get (py_lower protocol) adapters) as [a|]; [left; by exists a | done].
Qed.
Lemma registered_found {P} (adapters : odict string P) provider protocol a : get_adapter (register provider a adapters) provider protocol = Ok a.
Proof. unfold get_adapter, register. by rewrite od_get_set_eq. Qed.

End PrepareProps.
