(* ===== verification/LedgerLaws.v ===== *)
(** * The two ledgers discharge what the executor relies on

    The in-memory ledger and the durable ledger satisfy [ToolLedgerLaws]. *)

From stdpp Require Import base tactics list gmap strings.
From Stdlib Require Import QArith.
From S2P Require Import Prelude Json Models PyText ToolLedger SqliteStore SqliteProps DurableLedger DurableProps Classifier ToolValidation Interfaces.
Import ToolLedgerProps.

Section laws.
Context {R : Runtime}.

(** ** In memory *)

Definition unresolved_record (l t hash : string) (r : ToolExecutionRecord) : bool :=
  String.eqb (logical_operation_id r) l && String.eqb (tool_name r) t && String.eqb (arguments_hash r) hash &&
  indeterminate_status (status r).
Definition memory_unresolved (s : ToolExecutionLedger) (l t : string) (a : json) : Prop :=
  exists r, r ∈ od_values (records_by_call_id s) /\
    unresolved_record l t (compute_arguments_hash dumps_sorted sha256 a) r = true.

(** A rewritten record that is resolved or already there. *)
Lemma resolved_set l t a c r s : ~ memory_unresolved s l t a ->
  indeterminate_status (status r) = false \/ r ∈ od_values (records_by_call_id s) ->
  ~ memory_unresolved (with_records (od_set c r (records_by_call_id s)) s) l t a.
Proof.
  intros Hs Hr (r' & Hin & Hu). apply Hs. exists r'. split; [|done]. cbn in Hin.
  unfold od_values in *. apply list_elem_of_fmap in Hin as ([k v] & -> & Hin).
  apply od_set_elem in Hin as [Hv|Hin]; [|by apply (list_elem_of_fmap_2 snd) in Hin]. simplify_eq/=.
  destruct Hr as [Hr|Hr]; [|done]. unfold unresolved_record in Hu. by rewrite Hr, andb_false_r in Hu.
Qed.
(** Eviction only drops records. *)
Lemma resolved_evict l t a now s : ~ memory_unresolved s l t a -> ~ memory_unresolved (evict_ledger now s) l t a.
Proof.
  intros Hs (r & Hin & Hu). apply Hs. exists r. split; [|done]. revert Hin. unfold od_values. cbn.
  rewrite !list_elem_of_fmap. intros (kv & -> & Hin). exists kv. split; [done|].
  eapply elem_of_sublist; [exact Hin | apply evict_store_sublist].
Qed.
Lemma resolved_update l t a c (f : ToolExecutionRecord -> M exn ToolExecutionLedger ToolExecutionRecord) :
  (forall r s n, exists r' n', f r s n = (Ok r', s, n') /\ (indeterminate_status (status r') = false \/ r' = r)) ->
  preserves (fun s => ~ memory_unresolved s l t a) (update_record c f).
Proof.
  intros Hf s n Hs. unfold update_record. mstep. destruct (od_get c (records_by_call_id s)) as [r|] eqn:E; [|done].
  destruct (Hf r s n) as (r' & n' & Hr & Hst). erewrite bind_ok by exact Hr. cbn. apply resolved_set; [done|].
  destruct Hst as [Hf1| ->]; [by left | right]. apply od_get_In in E. unfold od_values.
  by apply (list_elem_of_fmap_2 snd) in E.
Qed.

#[export] Instance memory_laws : ToolLedgerLaws ToolExecutionLedger.
Proof.
  refine {| unresolved := memory_unresolved |}.
  - intros l t a s n b s' n' H. cbn in H. unfold has_indeterminate_operation, gets in H. injection H as <- <- <-.
      split; [done|]. rewrite existsb_exists. unfold memory_unresolved.
      split; intros (r & Hin & Hr); exists r; (split; [by apply list_elem_of_In | exact Hr]).
  - intros l t a c l' t' a'. cbn. unfold ignore, register_tool_call, evict. preserve; cbn.
    + apply resolved_set; [done | by left].
    + by apply resolved_evict.
  - intros l t a l' t' a'. cbn. unfold check_idempotency. preserve.
  - intros l t a c r. cbn. apply resolved_update. intros rec s n. eexists _, _. split; [reflexivity | by left].
  - intros l t a c. cbn. apply resolved_update. intros rec s n. case_decide; eexists _, _; (split; [reflexivity|]); auto.
Defined.

(** ** Durable *)

Definition row_of (w : World) (l t : string) (a : json) : option StoredOperation :=
  durable_operations (store w) !! operation_key_of sha256 l t (compute_arguments_hash dumps_sorted sha256 a).
Definition durable_unresolved (w : World) (l t : string) (a : json) : Prop :=
  exists o, row_of w l t a = Some o /\ operation_requires_manual_resolution o = true.

(** Whatever leaves the database alone. *)
Lemma frames_resolved {B} l t a (m : M exn World B) : frames m -> preserves (fun w => ~ durable_unresolved w l t a) m.
Proof. intros Hm w n Hw. unfold durable_unresolved, row_of in *. by rewrite (Hm (store w) w n eq_refl). Qed.

(** A step of the store that creates only proposed rows and validates. *)
Lemma store_resolved {B} l t a (m : M exn Database B) :
  (forall d n k o', durable_operations (out_st (m d n)) !! k = Some o' ->
     durable_operations d !! k = Some o' \/ has_status o' PROPOSED \/ has_status o' VALIDATED) ->
  preserves (fun w => ~ durable_unresolved w l t a) (on_store m).
Proof.
  intros Hm w n Hw (o' & Ho & Hr). unfold row_of, on_store, zoom in Ho. specialize (Hm (store w) n).
  destruct (m (store w) n) as [[r d] n'] eqn:E. destruct (Hm _ _ Ho) as [Hold|Hst]; [by apply Hw; exists o'|].
  unfold operation_requires_manual_resolution in Hr. destruct Hst as [Hst|Hst]; by rewrite Hst in Hr.
Qed.

Lemma prepare_rows c l t h a d n k o' :
  durable_operations (out_st (prepare_operation sha256 wall c l t h a d n)) !! k = Some o' ->
  durable_operations d !! k = Some o' \/ has_status o' PROPOSED \/ has_status o' VALIDATED.
Proof.
  destruct (prepare_operation_out sha256 wall c l t h a d n) as [->|(o & -> & _ & Hs & _)]; [by left|].
  rewrite lookup_insert. case_decide; intros; simplify_eq; auto.
Qed.
Lemma validate_rows c d n k o' :
  durable_operations (out_st (mark_operation_validated wall c d n)) !! k = Some o' ->
  durable_operations d !! k = Some o' \/ has_status o' PROPOSED \/ has_status o' VALIDATED.
Proof.
  unfold mark_operation_validated. match goal with |- context [transaction ?m] => destruct (transaction_out m d n) as [-> _] end.
  case_match; [|by left]. mstep. destruct (lookup_call c d) as [op|]; [|by left].
  destruct (String.eqb _ _); (erewrite bind_ok by reflexivity); rewrite reload_st; [|by left]. cbn.
  rewrite lookup_alter. case_decide; [|by left]. destruct (durable_operations d !! _); [|done]. intros [= <-]. by right; right.
Qed.

#[export] Instance durable_laws : ToolLedgerLaws World.
Proof.
  refine {| unresolved := durable_unresolved |}.
  - intros l t a s n b s' n' H. cbn in H. unfold durable_has_indeterminate_operation, operation_for_key in H.
      apply bind_inv in H as (o & s1 & n1 & Ho & H). unfold on_store, zoom, gets in Ho. injection Ho as <- <- <-.
      injection H as <- <- <-. split; [by destruct s|]. unfold durable_unresolved, row_of.
      destruct (durable_operations (store s) !! _) as [o|]; split; try done; [by exists o | by intros (? & [= <-] & ?) | by intros (? & ? & ?)].
  - intros l t a c l' t' a'. cbn. unfold ignore. apply preserves_bind; [|intros; apply preserves_ret].
      unfold durable_register_tool_call. apply preserves_bind; [apply frames_resolved, on_base_frames | intros r].
      apply preserves_bind; [|intros o; apply frames_resolved, hydrate_frames]. apply store_resolved. intros. by eapply prepare_rows.
  - intros l t a l' t' a'. cbn. unfold durable_check_idempotency. apply preserves_bind; [|intros; apply preserves_ret].
      apply frames_resolved, on_store_read.
  - intros l t a c r. cbn. apply frames_resolved, on_base_frames.
  - intros l t a c. cbn. unfold durable_mark_validated.
      apply preserves_bind; [apply frames_resolved, durable_get_record_frames | intros [r|]]; [|apply preserves_ret].
      destruct (status r); try apply preserves_ret;
        (apply preserves_bind; [|intros; apply frames_resolved, on_base_frames]; apply store_resolved; intros; by eapply validate_rows).
Defined.

End laws.
