(* ===== verification/Executor.v ===== *)
(** * The request executor

    [src/durallm/execution/executor.py]: [GatewayExecutor.execute], the loop that
    selects a candidate, adapts the request, dispatches it, validates the answer
    and decides to return, retry, rotate a key, shrink, wait or fall back.

    The executor shares its registry, breakers, telemetry and lanes with its
    router, so they are the router's.  Local variables of the loop are a record.
    Calls on the pool manager, failover notifications and sleeps have no effect
    the loop reads back; they are recorded in the order they happen.  Logging is
    dropped. *)

From stdpp Require Import base tactics list gmap strings.
From Stdlib Require Import QArith Qround.
From S2P Require Import Prelude Json Models PyText Execution Metrics Breaker Registry Profile Telemetry Requirements RoutingStores Router ToolLedger IR Context ToolValidation ResponseValidation Classifier Interfaces.

(** ** State *)

(** Calls on a pool manager: the executor's own, or the module-wide one. *)
Inductive pool_call : Type :=
| RecordRouteSuccess (pool route : string)
| MarkCooldown (pool route : string) (seconds : Q)
| GlobalMarkCooldown (pool route : string) (seconds : Q)
| MarkQuotaExhausted (pool route : string) (seconds : Q)
| MarkProviderQuotaExhausted (pool provider : string) (seconds : Q)
| MarkDeprecated (pool model : string).

Record failover_event : Type := {
  fe_request_id : string;
  fe_source : string;
  fe_target : string;
  fe_reason : string;
  fe_timestamp : Q;
}.

Record GatewayExecutor (T A : Type) : Type := {
  router : CapabilityRouter;
  ex_policy : ExecutionPolicy;
  preserve_tail_turns : nat;
  ex_tool_validator : ToolCallValidator;
  response_validator : ResponseValidator;
  tool_ledger : T;
  attempt_store : option A;
  budget_store : BudgetReservationStore;
  key_pool : KeyRotationPool;
  has_pool_manager : bool;
  failover_listeners : list string;
  pool_calls : list pool_call;
  notifications : list (string * failover_event);
  sleeps : list Q;
}.
Arguments router {T A}. Arguments ex_policy {T A}. Arguments preserve_tail_turns {T A}.
Arguments ex_tool_validator {T A}. Arguments response_validator {T A}. Arguments tool_ledger {T A}.
Arguments attempt_store {T A}. Arguments budget_store {T A}. Arguments key_pool {T A}.
Arguments has_pool_manager {T A}. Arguments failover_listeners {T A}. Arguments pool_calls {T A}.
Arguments notifications {T A}. Arguments sleeps {T A}.

(** [GatewayExecutor.__init__] with its default collaborators over a router. *)
Definition new_executor {T A} (r : CapabilityRouter) (p : ExecutionPolicy) (tl : T) (st : option A) : GatewayExecutor T A :=
  {| router := r; ex_policy := p; preserve_tail_turns := 6; ex_tool_validator := new_validator true;
     response_validator := new_response_validator (Some (new_validator true)); tool_ledger := tl; attempt_store := st;
     budget_store := new_budget_store; key_pool := new_key_pool; has_pool_manager := false; failover_listeners := [];
     pool_calls := []; notifications := []; sleeps := [] |}.

(** [on_failover] *)
Definition on_failover {T A} (listener : string) (e : GatewayExecutor T A) : GatewayExecutor T A :=
  {| router := router e; ex_policy := ex_policy e; preserve_tail_turns := preserve_tail_turns e;
     ex_tool_validator := ex_tool_validator e; response_validator := response_validator e; tool_ledger := tool_ledger e;
     attempt_store := attempt_store e; budget_store := budget_store e; key_pool := key_pool e;
     has_pool_manager := has_pool_manager e; failover_listeners := failover_listeners e ++ [listener];
     pool_calls := pool_calls e; notifications := notifications e; sleeps := sleeps e |}.

(** The local variables of the loop. *)
Record Locals : Type := {
  attempt_ledger : AttemptLedger;
  request : NormalizedRequest;
  excluded_endpoints : list string;
  attempt_idx : nat;
  last_failure_reason : option string;
  last_endpoint : option Endpoint;
  fallback_marked : bool;
  window_shrink : odict string Q;
  output_cap_retried : list string;
  rate_limit_waits : nat;
}.

Record Run (T A : Type) : Type := { self : GatewayExecutor T A; vars : Locals }.
Arguments self {T A}. Arguments vars {T A}.

Definition set_ledger (l : AttemptLedger) (v : Locals) : Locals :=
  Build_Locals l (request v) (excluded_endpoints v) (attempt_idx v) (last_failure_reason v) (last_endpoint v)
    (fallback_marked v) (window_shrink v) (output_cap_retried v) (rate_limit_waits v).
Definition set_request (r : NormalizedRequest) (v : Locals) : Locals :=
  Build_Locals (attempt_ledger v) r (excluded_endpoints v) (attempt_idx v) (last_failure_reason v) (last_endpoint v)
    (fallback_marked v) (window_shrink v) (output_cap_retried v) (rate_limit_waits v).
Definition set_excluded (l : list string) (v : Locals) : Locals :=
  Build_Locals (attempt_ledger v) (request v) l (attempt_idx v) (last_failure_reason v) (last_endpoint v)
    (fallback_marked v) (window_shrink v) (output_cap_retried v) (rate_limit_waits v).
Definition set_attempt_idx (i : nat) (v : Locals) : Locals :=
  Build_Locals (attempt_ledger v) (request v) (excluded_endpoints v) i (last_failure_reason v) (last_endpoint v)
    (fallback_marked v) (window_shrink v) (output_cap_retried v) (rate_limit_waits v).
Definition set_last_failure (s : option string) (v : Locals) : Locals :=
  Build_Locals (attempt_ledger v) (request v) (excluded_endpoints v) (attempt_idx v) s (last_endpoint v)
    (fallback_marked v) (window_shrink v) (output_cap_retried v) (rate_limit_waits v).
Definition set_last_endpoint (e : option Endpoint) (v : Locals) : Locals :=
  Build_Locals (attempt_ledger v) (request v) (excluded_endpoints v) (attempt_idx v) (last_failure_reason v) e
    (fallback_marked v) (window_shrink v) (output_cap_retried v) (rate_limit_waits v).
Definition set_fallback_marked (b : bool) (v : Locals) : Locals :=
  Build_Locals (attempt_ledger v) (request v) (excluded_endpoints v) (attempt_idx v) (last_failure_reason v)
    (last_endpoint v) b (window_shrink v) (output_cap_retried v) (rate_limit_waits v).
Definition set_window_shrink (d : odict string Q) (v : Locals) : Locals :=
  Build_Locals (attempt_ledger v) (request v) (excluded_endpoints v) (attempt_idx v) (last_failure_reason v)
    (last_endpoint v) (fallback_marked v) d (output_cap_retried v) (rate_limit_waits v).
Definition set_output_cap_retried (l : list string) (v : Locals) : Locals :=
  Build_Locals (attempt_ledger v) (request v) (excluded_endpoints v) (attempt_idx v) (last_failure_reason v)
    (last_endpoint v) (fallback_marked v) (window_shrink v) l (rate_limit_waits v).
Definition set_rate_limit_waits (n : nat) (v : Locals) : Locals :=
  Build_Locals (attempt_ledger v) (request v) (excluded_endpoints v) (attempt_idx v) (last_failure_reason v)
    (last_endpoint v) (fallback_marked v) (window_shrink v) (output_cap_retried v) n.

Section setters.
Context {T A : Type}.
Implicit Types e : GatewayExecutor T A.

Definition set_router (r : CapabilityRouter) e : GatewayExecutor T A :=
  Build_GatewayExecutor T A r (ex_policy e) (preserve_tail_turns e) (ex_tool_validator e) (response_validator e)
    (tool_ledger e) (attempt_store e) (budget_store e) (key_pool e) (has_pool_manager e) (failover_listeners e)
    (pool_calls e) (notifications e) (sleeps e).
Definition set_policy (p : ExecutionPolicy) e : GatewayExecutor T A :=
  Build_GatewayExecutor T A (router e) p (preserve_tail_turns e) (ex_tool_validator e) (response_validator e)
    (tool_ledger e) (attempt_store e) (budget_store e) (key_pool e) (has_pool_manager e) (failover_listeners e)
    (pool_calls e) (notifications e) (sleeps e).
Definition set_tool_ledger (t : T) e : GatewayExecutor T A :=
  Build_GatewayExecutor T A (router e) (ex_policy e) (preserve_tail_turns e) (ex_tool_validator e) (response_validator e)
    t (attempt_store e) (budget_store e) (key_pool e) (has_pool_manager e) (failover_listeners e)
    (pool_calls e) (notifications e) (sleeps e).
Definition set_attempt_store (a : option A) e : GatewayExecutor T A :=
  Build_GatewayExecutor T A (router e) (ex_policy e) (preserve_tail_turns e) (ex_tool_validator e) (response_validator e)
    (tool_ledger e) a (budget_store e) (key_pool e) (has_pool_manager e) (failover_listeners e)
    (pool_calls e) (notifications e) (sleeps e).
Definition set_budget_store (b : BudgetReservationStore) e : GatewayExecutor T A :=
  Build_GatewayExecutor T A (router e) (ex_policy e) (preserve_tail_turns e) (ex_tool_validator e) (response_validator e)
    (tool_ledger e) (attempt_store e) b (key_pool e) (has_pool_manager e) (failover_listeners e)
    (pool_calls e) (notifications e) (sleeps e).
Definition set_key_pool (k : KeyRotationPool) e : GatewayExecutor T A :=
  Build_GatewayExecutor T A (router e) (ex_policy e) (preserve_tail_turns e) (ex_tool_validator e) (response_validator e)
    (tool_ledger e) (attempt_store e) (budget_store e) k (has_pool_manager e) (failover_listeners e)
    (pool_calls e) (notifications e) (sleeps e).
Definition add_pool_call (c : pool_call) e : GatewayExecutor T A :=
  Build_GatewayExecutor T A (router e) (ex_policy e) (preserve_tail_turns e) (ex_tool_validator e) (response_validator e)
    (tool_ledger e) (attempt_store e) (budget_store e) (key_pool e) (has_pool_manager e) (failover_listeners e)
    (pool_calls e ++ [c]) (notifications e) (sleeps e).
Definition add_notification (ev : failover_event) e : GatewayExecutor T A :=
  Build_GatewayExecutor T A (router e) (ex_policy e) (preserve_tail_turns e) (ex_tool_validator e) (response_validator e)
    (tool_ledger e) (attempt_store e) (budget_store e) (key_pool e) (has_pool_manager e) (failover_listeners e)
    (pool_calls e) (notifications e ++ map (fun l => (l, ev)) (failover_listeners e)) (sleeps e).
Definition add_sleep (q : Q) e : GatewayExecutor T A :=
  Build_GatewayExecutor T A (router e) (ex_policy e) (preserve_tail_turns e) (ex_tool_validator e) (response_validator e)
    (tool_ledger e) (attempt_store e) (budget_store e) (key_pool e) (has_pool_manager e) (failover_listeners e)
    (pool_calls e) (notifications e) (sleeps e ++ [q]).

Definition set_self e (w : Run T A) : Run T A := {| self := e; vars := vars w |}.
Definition set_vars (v : Locals) (w : Run T A) : Run T A := {| self := self w; vars := v |}.
End setters.

(** ** Pure parts *)

(** [int(x)] of a float: towards zero. *)
Definition py_trunc (x : Q) : Z := if 0 ⪯ x then Qfloor x else Qceiling x.

(** [x or d] for an optional number. *)
Definition oz_or (x : option Z) (d : Z) : Z := match x with Some z => z_or z d | None => d end.

Definition is_rate_limit_reason (r : FailoverReason) : bool :=
  match r with rate_limit | upstream_rate_limit => true | _ => false end.

(** Whether an attempt counts as waiting for a temporary rate limit. *)
Definition temporarily_limited (excluded : list string) (att : AttemptRecord) : bool :=
  bool_decide (ar_endpoint_id att ∈ excluded) &&
  match ar_failure att with
  | Some f => is_rate_limit_reason (fc_reason f) && negb (fc_is_permanent f) &&
              match fc_retry_after_seconds f with None => true | Some r => r ≺ 300 end
  | None => false
  end.

(** The endpoints waiting for a rate limit and the delays they stated. *)
Definition collect_limited (excluded : list string) (atts : list AttemptRecord) : list string * list Q :=
  fold_left (fun acc att =>
    if temporarily_limited excluded att && negb (bool_decide (ar_endpoint_id att ∈ fst acc)) then
      (fst acc ++ [ar_endpoint_id att],
       snd acc ++ match ar_failure att with
                  | Some f => match fc_retry_after_seconds f with
                              | Some r => if Qeqb r 0 then [] else [r] | None => [] end
                  | None => [] end)
    else acc) atts ([], []).

(** [min(l)] of a non-empty list. *)
Definition min_list (d : Q) (l : list Q) : Q := match l with [] => d | x :: l' => fold_left py_min l' x end.

(** The wait before a rate-limit rollover. *)
Definition rollover_wait (delays : list Q) (rem_sec : Q) : Q :=
  py_max 2 (py_min (py_min (min_list 8 delays) 15) (rem_sec - 5)).

(** [l.remove(x)]: the first occurrence. *)
Fixpoint remove_first (x : string) (l : list string) : list string :=
  match l with
  | [] => []
  | y :: l' => if String.eqb x y then l' else y :: remove_first x l'
  end.

(** Output size, safety margin and window for one candidate. *)
Definition size_budget (p : ModelProfile) (shrink : Q) (max_output : option Z) (est_in : Z) : ContextBudget :=
  let target_context := py_trunc (inject_Z (context_window p) * shrink) in
  let max_supported_out := z_or (max_output_tokens p) 4096 in
  let desired_output := Z.min (oz_or max_output max_supported_out) max_supported_out in
  let safety_margin := if (8000 <? target_context)%Z then 2048%Z
                       else Z.min 512 (py_trunc (inject_Z target_context * (1 # 10))) in
  let desired_output :=
    if (target_context - safety_margin - desired_output <? est_in)%Z && (1024 <? desired_output)%Z
    then Z.max 1024 (Z.min desired_output (target_context - safety_margin - est_in)) else desired_output in
  {| model_context_window := target_context; desired_output_tokens := desired_output;
     Context.safety_margin_tokens := safety_margin |}.

Definition with_max_output (z : Z) (r : NormalizedRequest) : NormalizedRequest :=
  {| request_id := request_id r; req_model := req_model r; messages := messages r; system_instruction := system_instruction r;
     tools := tools r; req_max_output_tokens := Some z; temperature := temperature r; stream := stream r;
     system_cache_control := system_cache_control r; tool_choice := tool_choice r; req_metadata := req_metadata r |}.

(** The requirement vector of a request. *)
Definition request_requirements (base : option RequirementVector) (r : NormalizedRequest) (pool : string) (est : Z) (ph : string)
    : RequirementVector :=
  let b := default default_requirements base in
  {| require_tools := match tools r with [] => false | _ => true end || match base with Some q => require_tools q | None => false end;
     require_parallel_tools := require_parallel_tools b; require_structured_output := require_structured_output b;
     require_vision := require_vision b; require_reasoning := require_reasoning b;
     minimum_context_tokens := minimum_context_tokens b; maximum_cost_usd := maximum_cost_usd b;
     latency_budget_ms := latency_budget_ms b; task_class := if String.eqb pool "coding" then "coding" else "general";
     allowed_providers := allowed_providers b; forbidden_providers := forbidden_providers b;
     estimated_input_tokens := est; expected_output_tokens := oz_or (req_max_output_tokens r) 0;
     Requirements.safety_margin_tokens := Requirements.safety_margin_tokens b;
     allow_context_compaction := allow_context_compaction b; required_region := required_region b;
     required_compliance := required_compliance b; allow_external_traffic := allow_external_traffic b;
     require_verified_capabilities := require_verified_capabilities b; minimum_quality_score := minimum_quality_score b;
     allow_quality_degradation := allow_quality_degradation b; budget_scope := budget_scope b;
     budget_limit_usd := budget_limit_usd b; prefix_hash := Some ph |}.

(** Cooldown and quota horizons of a failure. *)
Definition cooldown_horizon (f : FailureClassification) : option Q :=
  match fc_reason f with
  | rate_limit | upstream_rate_limit =>
      Some (py_min 120 (py_max 30 (default 60 (q_or (fc_retry_after_seconds f) (Some 60)))))
  | server_error | timeout | connection_refused | overloaded => Some 30
  | _ => None
  end.
Definition quota_horizon (f : FailureClassification) : option Q :=
  match fc_reason f with
  | billing => Some (default 86400 (q_or (fc_retry_after_seconds f) (Some 86400)))
  | _ => None
  end.

Definition account_wide (e : Endpoint) (f : FailureClassification) : bool :=
  let msg := py_lower (fc_message f) in
  contains "free-models-per-day" msg || contains "free model requests" msg || String.eqb (py_lower (ep_provider e)) "openrouter".

(** [endpoint.id.split(":")[-1]] *)
Definition last_segment (id : string) : string := List.last (split_on (chr 58) id) "".

(** Output clamping after a rejected output cap. *)
Definition clamped_output (cap : option Z) (current_max : Z) : Z :=
  match cap with
  | Some c => if (0 <? c)%Z then (if (64 <? c)%Z then Z.max 1 (c - 64) else c) else Z.min current_max 1024
  | None => Z.min current_max 1024
  end.

(** The token limit a size rejection states. *)
Definition token_limit_of (f : FailureClassification) : option Z :=
  let stated := match od_get "token_limit" (fc_details f) with Some (JInt z) => Some z | _ => None end in
  match stated with
  | Some z => if (z =? 0)%Z then parse_input_tpm_limit (fc_message f) else Some z
  | None => parse_input_tpm_limit (fc_message f)
  end.

(** The classification of an answer whose body or tool calls were rejected. *)
Definition semantic_failure (reason : FailoverReason) (message : string) : FailureClassification :=
  {| fc_category := SEMANTIC_AGENT_FAILURE; fc_reason := reason; fc_should_fallback := true; fc_retryable := false;
     fc_poisons_health := false; fc_is_permanent := false; fc_status_code := Some 200%Z; fc_retry_after_seconds := None;
     fc_message := message; fc_details := [] |}.

Definition rejection_message (r : rejection) : string :=
  match r with
  | EmptyResponse => "Model returned HTTP 200 with completely empty content and no tool calls"
  | TooLarge len limit => ("Response exceeded maximum character limit (" ++ py_str_nat len ++ " > " ++ py_str_nat limit ++ ")")%string
  | InvalidToolCall tool _ => ("Invalid tool call '" ++ tool ++ "'")%string
  end.

(** ** The loop *)

(** [try: m  except <those e with p e>: h e] *)
Definition catch {E S B} (m : M E S B) (p : E -> bool) (h : E -> M E S B) : M E S B := fun s n =>
  match m s n with
  | (Raise e, s', n') => if p e then h e s' n' else (Raise e, s', n')
  | o => o
  end.

(** A pure call that may raise. *)
Definition lift {E S B} (r : res E B) : M E S B := fun s n => (r, s, n).

(** What one pass through the loop body leads to. *)
Inductive outcome : Type :=
| Continue
| Return (response : NormalizedResponse) (decision : RoutingDecision).

Section executor.
Context {R : Runtime} {T A : Type} `{TL : ToolLedgerOps T} `{AS : AttemptStoreOps A}.
Context (adapters : odict string ProviderAdapter).
Local Abbreviation X := (M exn (Run T A)).

Definition on_self {B} (m : M exn (GatewayExecutor T A) B) : X B := zoom self set_self m.
Definition on_router {B} (m : M exn CapabilityRouter B) : X B := on_self (zoom router set_router m).
Definition on_budget {B} (m : M exn BudgetReservationStore B) : X B := on_self (zoom budget_store set_budget_store m).
Definition on_keys {B} (m : M exn KeyRotationPool B) : X B := on_self (zoom key_pool set_key_pool m).
Definition on_tools {B} (m : M exn T B) : X B := on_self (zoom tool_ledger set_tool_ledger m).
(** A ledger method: it sees the executor's policy object. *)
Definition on_ledger {B} (m : M exn LedgerState B) : X B :=
  zoom (fun w => {| policy := ex_policy (self w); led := attempt_ledger (vars w) |})
       (fun s w => {| self := set_policy (policy s) (self w); vars := set_ledger (led s) (vars w) |}) m.
Definition ledger_state (w : Run T A) : LedgerState := {| policy := ex_policy (self w); led := attempt_ledger (vars w) |}.
Definition upd_vars (f : Locals -> Locals) : X unit := modify (fun w => set_vars (f (vars w)) w).
Definition upd_self (f : GatewayExecutor T A -> GatewayExecutor T A) : X unit := modify (fun w => set_self (f (self w)) w).
Definition exclude (id : string) : X unit := upd_vars (fun v => set_excluded (excluded_endpoints v ++ [id]) v).
(** [if id not in excluded_endpoints: excluded_endpoints.append(id)] *)
Definition exclude_once (id : string) : X unit :=
  upd_vars (fun v => if bool_decide (id ∈ excluded_endpoints v) then v else set_excluded (excluded_endpoints v ++ [id]) v).
Definition sleep (q : Q) : X unit := upd_self (add_sleep q).
(** [pm = getattr(self, "pool_manager", None); if pm: pm.call(...)] *)
Definition on_pool_manager (c : pool_call) : X unit :=
  upd_self (fun e => if has_pool_manager e then add_pool_call c e else e).

Definition breaker_call {B} (e : Endpoint) (m : M exn (CircuitBreaker * option unit) B) : X B :=
  on_router (on_breakers (on_breaker (resource_key e) m)).
Definition health_call {B} (m : M exn HealthTelemetryStore B) : X B := on_router (on_health m).

(** [_attempt_payload] *)
Definition attempt_payload (a : AttemptRecord) (status detail : string) : json :=
  JObj [("request_id", JStr (ar_request_id a)); ("operation_id", JStr (ar_operation_id a));
        ("endpoint_id", JStr (ar_endpoint_id a)); ("provider", JStr (ar_provider a)); ("model", JStr (ar_model a));
        ("attempt_index", JInt (Z.of_nat (ar_attempt_index a))); ("fallback_index", JInt (Z.of_nat (ar_fallback_index a)));
        ("compacted", JBool (ar_compacted a)); ("status", JStr status);
        ("status_code", match ar_status_code a with Some z => JInt z | None => JNull end);
        ("success", JBool (ar_success a)); ("latency_ms", JFloat (ar_latency_ms a));
        ("failure_reason", match ar_failure a with Some f => JStr (FailoverReason_value (fc_reason f)) | None => JNull end);
        ("detail", JStr (str_take 500 detail))].

(** A method of the attempt store, when there is one. *)
Definition on_attempt_store (m : M exn A unit) : X unit := fun w n =>
  match attempt_store (self w) with
  | None => (Ok tt, w, n)
  | Some st => let '(r, st', n') := m st n in (r, set_self (set_attempt_store (Some st') (self w)) w, n')
  end.

(** [_prepare_durable_attempt], [_finish_durable_attempt] *)
Definition prepare_durable_attempt (a : AttemptRecord) : X unit :=
  on_attempt_store (as_prepare_attempt (attempt_id a) (ar_request_id a) (attempt_payload a "prepared" "")).
Definition finish_durable_attempt (a : AttemptRecord) (status detail : string) : X unit :=
  on_attempt_store (as_finish_attempt (attempt_id a) status (attempt_payload a status detail)).

(** [_record_lane_outcome] *)
Definition record_lane_outcome (e : Endpoint) (failure : option FailureClassification) : X unit :=
  match lane_key e with
  | None => mret tt
  | Some lane =>
      if truthy lane then
        match failure with
        | None => on_router (on_lanes (set_available lane))
        | Some f =>
            when (is_rate_limit_reason (fc_reason f))
              (on_router (on_lanes (set_unavailable wall lane (FailoverReason_value (fc_reason f))
                 (q_or (fc_retry_after_seconds f) (Some 60)))))
        end
      else mret tt
  end.

(** [attempt.finish(...)] *)
Definition finish (success : bool) (status : Z) (failure : option FailureClassification) (a : AttemptRecord) : X AttemptRecord :=
  now ← read_clock mono; mret (attempt_finish now success (Some status) failure a).

(** [if budget_reservation_id is not None: budget_store.settle(...)] *)
Definition settle_reservation (reservation : option string) (amount : Q) : X unit :=
  match reservation with Some rid => on_budget (settle rid amount) | None => mret tt end.

(** No candidate is left: wait for a rate-limit rollover, or give up. *)
Definition await_rollover (d : Deadline) (pool : string) : X outcome :=
  w ← get;
  let '(limited, delays) := collect_limited (excluded_endpoints (vars w)) (attempts (attempt_ledger (vars w))) in
  rem ← remaining_ms mono d;
  let rem_sec := (rem / 1000)%Q in
  if match limited with [] => false | _ => true end && (rate_limit_waits (vars w) <? 3)%nat && (10 ≺ rem_sec) then
    upd_vars (fun v => set_rate_limit_waits (S (rate_limit_waits v)) v) ;;
    sleep (rollover_wait delays rem_sec) ;;
    for_each limited (fun id =>
      upd_vars (fun v => set_excluded (remove_first id (excluded_endpoints v)) v) ;;
      w ← get;
      for_each (endpoints_for_pool pool (capability_registry (router (self w)))) (fun e =>
        when (String.eqb (ep_id e) id)
          (match lane_key e with
           | Some lane => when (truthy lane) (on_router (on_lanes (set_available lane)))
           | None => mret tt end))) ;;
    on_ledger (reset_for_rate_limit_retry limited) ;;
    upd_vars (set_last_failure (Some "rate_limit_rollover_retry")) ;;
    mret Continue
  else raise (NoHealthyRouteError pool).

Definition profile_of (e : Endpoint) (w : Run T A) : ModelProfile :=
  match profile e with
  | Some p => p
  | None => get_profile (ep_provider e) (ep_model e) (capability_registry (router (self w)))
  end.

Abbreviation tokens := (fun r => Z.of_nat (estimate_tokens dumps r)).

(** Context adaptation: the request to send, or [None] after excluding the
    candidate. *)
Definition adapt (e : Endpoint) (p : ModelProfile) : X (option (NormalizedRequest * bool)) :=
  w ← get;
  let req := request (vars w) in
  let shrink := default 1 (od_get (ep_id e) (window_shrink (vars w))) in
  let budget := size_budget p shrink (req_max_output_tokens req) (tokens req) in
  match compact dumps dumps_indent loads (preserve_tail_turns (self w)) req budget with
  | Raise (ContextOverflowError _ _) => exclude (ep_id e) ;; mret None
  | Raise x => raise x
  | Ok (adapted, was_compacted) =>
      if (shrink ≺ 1) && negb was_compacted then exclude (ep_id e) ;; mret None
      else mret (Some (with_max_output (desired_output_tokens budget) adapted, was_compacted))
  end.

(** The failover plan recorded when the endpoint changes. *)
Definition note_failover (d : Deadline) (e : Endpoint) (adapted : NormalizedRequest) (was_compacted : bool) : X unit :=
  w ← get;
  match last_endpoint (vars w) with
  | Some prev =>
      if String.eqb (ep_id prev) (ep_id e) then mret tt else
      when (negb (fallback_marked (vars w))) (on_ledger mark_fallback) ;;
      upd_vars (set_fallback_marked false) ;;
      rem ← remaining_ms mono d;
      let reason := str_or (last_failure_reason (vars w)) "endpoint_failover" in
      let plan := {| fp_request_id := request_id (request (vars w)); fp_source_endpoint := Some (ep_id prev);
                     fp_target_endpoint := ep_id e; fp_failover_reason := reason;
                     fp_context_tokens_before := tokens (request (vars w)); fp_context_tokens_after := tokens adapted;
                     fp_context_compaction_applied := was_compacted; fp_remaining_deadline_ms := rem |} in
      on_ledger (record_failover_plan plan) ;;
      now ← read_clock wall;
      upd_self (add_notification {| fe_request_id := request_id (request (vars w)); fe_source := ep_id prev;
                                    fe_target := ep_id e; fe_reason := reason; fe_timestamp := now |})
  | None => mret tt
  end ;;
  upd_vars (set_last_endpoint (Some e)).

(** A new attempt record. *)
Definition new_attempt (e : Endpoint) (was_compacted : bool) : X AttemptRecord :=
  aid ← read_uuid;
  start ← read_clock mono;
  gets (fun w => {| attempt_id := aid; ar_request_id := request_id (request (vars w)); ar_operation_id := "";
     ar_provider := ep_provider e; ar_model := ep_model e; ar_endpoint_id := ep_id e;
     ar_attempt_index := attempt_idx (vars w); ar_fallback_index := fallback_count (attempt_ledger (vars w));
     ar_start_time := start; ar_end_time := None; ar_latency_ms := 0; ar_ttft_ms := None; ar_status_code := None;
     ar_success := false; ar_failure := None; ar_compacted := was_compacted |}).

(** Budget reservation: whether to go on, and the reservation made. *)
Definition reserve_budget (req : RequirementVector) (p : ModelProfile) (e : Endpoint) (a : AttemptRecord)
    : X (option (option string)) :=
  match budget_limit_usd req with
  | None => mret (Some None)
  | Some limit =>
      w ← get;
      let rid := (request_id (request (vars w)) ++ ":" ++ attempt_id a)%string in
      r ← on_budget (reserve rid (str_or (budget_scope req) (request_id (request (vars w)))) (estimated_cost_usd req p) limit);
      match r with
      | Some _ => mret (Some (Some rid))
      | None =>
          exclude (ep_id e) ;;
          upd_vars (set_last_failure (Some "budget_reservation_denied")) ;;
          mret None
      end
  end.

(** Breaker admission: whether to go on. *)
Definition admission (e : Endpoint) (reservation : option string) : X bool :=
  catch (breaker_call e (acquire_permission breaker_clock) ;; mret true)
    (fun x => is_BreakerOpenError x || match x with ProbeAdmissionDeniedError _ => true | _ => false end)
    (fun _ =>
       match reservation with Some rid => on_budget (release rid) | None => mret tt end ;;
       exclude (ep_id e) ;; mret false).

(** The dispatch; an exception of the adapter is recorded and raised again. *)
Definition dispatch (pool : string) (e : Endpoint) (ad : ProviderAdapter) (prepared : PreparedRequest) (timeout_seconds : Q)
    (reservation : option string) (reserved_amount : Q) (a : AttemptRecord) : X ProviderExecutionResult :=
  catch (fun w n => (adapter_execute ad prepared timeout_seconds n, w, S n)) (fun _ => true) (fun exec_err =>
    f ← classify_failure wall parse_http_date (describe exec_err) (Some 502%Z) [];
    a ← finish false 502 (Some f) a;
    breaker_call e (record_failure breaker_clock (ar_latency_ms a) None (Some f)) ;;
    health_call (health_record_failure wall mono (ep_id e) (ar_latency_ms a) None (str_take 160 (fc_message f)) (Some 30) None false) ;;
    upd_self (add_pool_call (GlobalMarkCooldown pool (ep_id e) 30)) ;;
    record_lane_outcome e (Some f) ;;
    on_ledger (record_attempt a) ;;
    settle_reservation reservation reserved_amount ;;
    finish_durable_attempt a "transport_error" (err_str (describe exec_err)) ;;
    raise exec_err).

(** *** Answers *)

Definition with_id (id : string) (tc : NormalizedToolCall) : NormalizedToolCall :=
  {| tc_id := id; tc_name := tc_name tc; tc_arguments := tc_arguments tc; raw_arguments := raw_arguments tc;
     tc_metadata := tc_metadata tc |}.
Definition with_metadata (k : string) (v : json) (tc : NormalizedToolCall) : NormalizedToolCall :=
  {| tc_id := tc_id tc; tc_name := tc_name tc; tc_arguments := tc_arguments tc; raw_arguments := raw_arguments tc;
     tc_metadata := od_set k v (tc_metadata tc) |}.
Definition with_raw (s : string) (tc : NormalizedToolCall) : NormalizedToolCall :=
  {| tc_id := tc_id tc; tc_name := tc_name tc; tc_arguments := tc_arguments tc; raw_arguments := s;
     tc_metadata := tc_metadata tc |}.

(** The identifier minted for a call that has none, and the ledger's key. *)
Definition minted_id (rid : string) (attempt index : nat) (tc : NormalizedToolCall) : string :=
  if truthy (tc_id tc) then tc_id tc
  else ("call_" ++ str_take 8 rid ++ "_" ++ py_str_nat attempt ++ "_" ++ py_str_nat index)%string.
Definition ledger_key (rid : string) (attempt : nat) (id : string) : string :=
  (rid ++ ":att" ++ py_str_nat attempt ++ ":" ++ id)%string.

(** What the validator is given: the raw text when parsing left nothing. *)
Definition validation_input (tc : NormalizedToolCall) : json :=
  if truthy (raw_arguments tc) && negb (jtruthy (tc_arguments tc)) then JStr (raw_arguments tc) else tc_arguments tc.

(** The body of the loop over the tool calls: the call to hand on, or [None]
    when it was rejected. *)
Definition process_tool_call (e : Endpoint) (index : nat) (tc : NormalizedToolCall) : X (option NormalizedToolCall) :=
  w ← get;
  let rid := request_id (request (vars w)) in
  let defs := tools (request (vars w)) in
  let tc := with_id (minted_id rid (attempt_idx (vars w)) index tc) tc in
  let key := ledger_key rid (attempt_idx (vars w)) (tc_id tc) in
  on_tools (tl_register_tool_call key rid (tc_name tc) (tc_arguments tc)) ;;
  receipt ← on_tools (tl_check_idempotency rid (tc_name tc) (tc_arguments tc));
  let tc := with_metadata "ledger_call_id" (JStr key) tc in
  tc ← (if fst receipt : bool then
          on_tools (tl_mark_replayed key (default JNull (snd receipt))) ;;
          mret (with_metadata "execution_receipt" (default JNull (snd receipt)) (with_metadata "replayed" (JBool true) tc))
        else
          ind ← on_tools (tl_has_indeterminate_operation rid (tc_name tc) (tc_arguments tc));
          if ind : bool then
            on_tools (tl_mark_indeterminate key "A prior submission has no durable acknowledgement") ;;
            raise (IndeterminateToolOperationError rid (tc_name tc))
          else mret tc);
  report ← lift (validate_tool_call dumps loads_lax literal_eval float_str (ex_tool_validator (self w)) (tc_name tc)
                   (validation_input tc) (tool_schema (tc_name tc) defs) (Some (tool_names defs)));
  health_call (health_record_tool_outcome wall (ep_id e) (is_executable report)) ;;
  if is_executable report then
    let args := validated_arguments report in
    let tc' := with_arguments args tc in
    let tc' := match normalizations_applied report with
               | [] => tc'
               | _ => with_raw (dumps (JObj args)) (with_metadata "raw_arguments_before_normalization" (JStr (raw_arguments tc)) tc')
               end in
    on_tools (tl_mark_validated key) ;;
    mret (Some tc')
  else
    on_tools (tl_mark_failed key (match tv_error report with Some x => render x | None => "" end)) ;;
    mret None.

(** The loop over the tool calls, with its [break]. *)
Fixpoint process_tool_calls (e : Endpoint) (index : nat) (tcs : list NormalizedToolCall) : X (option (list NormalizedToolCall)) :=
  match tcs with
  | [] => mret (Some [])
  | tc :: tcs' =>
      r ← process_tool_call e index tc;
      match r with
      | None => mret None
      | Some tc' =>
          rest ← process_tool_calls e (S index) tcs';
          mret (match rest with Some l => Some (tc' :: l) | None => None end)
      end
  end.

(** [cost] of an answer *)
Definition answer_cost (p : ModelProfile) (adapted : NormalizedRequest) (response : NormalizedResponse) : Q :=
  let in_tokens := tokens adapted in
  let out_tokens := Z.of_nat (estimate_text_tokens (default "" (resp_content response))) in
  (inject_Z in_tokens / 1000000 * input_price_per_1m p + inject_Z out_tokens / 1000000 * output_price_per_1m p)%Q.

(** The bookkeeping of an accepted answer. *)
Definition complete (pool : string) (req : RequirementVector) (e : Endpoint) (p : ModelProfile) (adapted : NormalizedRequest)
    (response : NormalizedResponse) (duration : Q) (reservation : option string) (a : AttemptRecord) : X unit :=
  breaker_call e (record_success breaker_clock duration) ;;
  health_call (health_record_success wall (ep_id e) duration None) ;;
  record_lane_outcome e None ;;
  on_pool_manager (RecordRouteSuccess pool (ep_id e)) ;;
  match prefix_hash req with
  | Some ph => when (truthy ph) (on_router (on_cache (record_warm_cache wall (ep_id e) ph None)))
  | None => mret tt
  end ;;
  a ← finish true 200 None a;
  on_ledger (record_attempt a) ;;
  let cost := answer_cost p adapted response in
  on_ledger (add_cost cost) ;;
  settle_reservation reservation cost ;;
  finish_durable_attempt a "succeeded" "".

(** The [try] body for an HTTP 200: the accepted response, or a failure. *)
Definition accept (pool : string) (req : RequirementVector) (e : Endpoint) (p : ModelProfile) (ad : ProviderAdapter)
    (adapted : NormalizedRequest) (result : ProviderExecutionResult) (reservation : option string) (a : AttemptRecord)
    : X (NormalizedResponse + FailureClassification) :=
  response ← lift (normalize_response ad e result);
  w ← get;
  match check_sanity (response_validator (self w)) response with
  | Some r =>
      mret (inr (semantic_failure (if String.eqb (rejection_reason r) "empty_response" then empty_completion else output_cap_exceeded)
                   (rejection_message r)))
  | None =>
      calls ← process_tool_calls e 0 (resp_tool_calls response);
      match calls with
      | None => mret (inr (semantic_failure malformed_tool_call "Model generated invalid tool arguments"))
      | Some tcs =>
          let response := with_tool_calls tcs response in
          complete pool req e p adapted response (px_duration_ms result) reservation a ;;
          mret (inl response)
      end
  end.

(** What an answer is: an accepted response, or a classified failure. *)
Definition judge (pool : string) (req : RequirementVector) (e : Endpoint) (p : ModelProfile) (ad : ProviderAdapter)
    (adapted : NormalizedRequest) (result : ProviderExecutionResult) (reservation : option string) (reserved_amount : Q)
    (a : AttemptRecord) : X (NormalizedResponse + FailureClassification) :=
  if (px_status_code result =? 200)%Z then
    catch (accept pool req e p ad adapted result reservation a) (fun _ => true) (fun x =>
      match x with
      | IndeterminateToolOperationError _ _ =>
          a ← finish false 409 None a;
          settle_reservation reservation reserved_amount ;;
          on_ledger (record_attempt a) ;;
          finish_durable_attempt a "blocked_indeterminate_operation" "" ;;
          raise x
      | _ => f ← classify_failure wall parse_http_date (describe x) (Some 502%Z) []; mret (inr f)
      end)
  else
    f ← classify_failure wall parse_http_date (text_error (px_body result)) (Some (px_status_code result)) (px_headers result);
    mret (inr f).

(** *** Failures *)

(** Account-wide and daily quotas. *)
Definition record_billing (pool : string) (e : Endpoint) (f : FailureClassification) : X unit :=
  let wide := account_wide e f in
  retry_sec ← match quota_horizon f with
              | Some q => if Qeqb q 0 then (if wide then calculate_seconds_until_utc_midnight wall else mret 86400) else mret q
              | None => if wide then calculate_seconds_until_utc_midnight wall else mret 86400
              end;
  on_pool_manager (MarkQuotaExhausted pool (last_segment (ep_id e)) retry_sec) ;;
  when wide (on_pool_manager (MarkProviderQuotaExhausted pool (ep_provider e) retry_sec)) ;;
  match as_record_quota_lockout with
  | Some lockout =>
      w ← get;
      match attempt_store (self w) with
      | Some _ =>
          now ← read_clock wall;
          on_attempt_store (lockout (ep_provider e) pool (last_segment (ep_id e)) (now + retry_sec)%Q (str_take 160 (fc_message f))) ;;
          when wide (
            now ← read_clock wall;
            on_attempt_store (lockout (ep_provider e) pool "*" (now + retry_sec)%Q (str_take 160 (fc_message f))))
      | None => mret tt
      end
  | None => mret tt
  end ;;
  when wide (
    w ← get;
    for_each (endpoints_for_pool pool (capability_registry (router (self w)))) (fun e' =>
      when (String.eqb (py_lower (ep_provider e')) (py_lower (ep_provider e))) (exclude_once (ep_id e')))).

(** The bookkeeping of a failed attempt. *)
Definition record_failed_attempt (pool : string) (e : Endpoint) (result : ProviderExecutionResult) (f : FailureClassification)
    (reservation : option string) (reserved_amount : Q) (a : AttemptRecord) : X unit :=
  breaker_call e (record_failure breaker_clock (px_duration_ms result) None (Some f)) ;;
  health_call (health_record_failure wall mono (ep_id e) (px_duration_ms result) (Some (px_status_code result))
                 (str_take 160 (fc_message f)) None (quota_horizon f) (fc_is_permanent f)) ;;
  when (bool_decide (fc_reason f = billing)) (record_billing pool e f) ;;
  when (fc_is_permanent f || bool_decide (fc_reason f = model_not_found)) (
    on_router (mark_dead wall (ep_id e) (ep_provider e) (ep_model e) (str_take 160 (fc_message f))) ;;
    on_pool_manager (MarkDeprecated pool (ep_model e)) ;;
    exclude_once (ep_id e)) ;;
  record_lane_outcome e (Some f) ;;
  a ← finish false (px_status_code result) (Some f) a;
  on_ledger (record_attempt a) ;;
  settle_reservation reservation reserved_amount ;;
  finish_durable_attempt a "failed" (fc_message f) ;;
  upd_vars (set_last_failure (Some (FailoverReason_value (fc_reason f)))).

(** A rate-limited key is parked and another one tried. *)
Definition rotate_key (kid : string) (result : ProviderExecutionResult) (f : FailureClassification)
    (reservation : option string) (reserved_amount : Q) (a : AttemptRecord) : X unit :=
  on_keys (record_rate_limit wall kid (fc_retry_after_seconds f) None) ;;
  a ← finish false (px_status_code result) (Some f) a;
  on_ledger (record_attempt a) ;;
  settle_reservation reservation reserved_amount ;;
  finish_durable_attempt a "key_rotated_429" (fc_message f).

(** Giving up on an endpoint: cooldown, exclusion, one fallback hop. *)
Definition step_fallback (pool : string) (e : Endpoint) (f : FailureClassification) : X unit :=
  match cooldown_horizon f with
  | Some cd =>
      health_call (health_record_failure wall mono (ep_id e) 0 None "" (Some cd) None false) ;;
      on_pool_manager (MarkCooldown pool (ep_id e) cd)
  | None => mret tt
  end ;;
  exclude (ep_id e) ;;
  on_ledger mark_fallback ;;
  upd_vars (set_fallback_marked true).

(** The shrink ratio for a stated limit. *)
Definition shrink_ratio (p : ModelProfile) (limit : Z) : res exn Q :=
  let target_tokens := Z.max 1000 (py_trunc (inject_Z limit * (85 # 100))) in
  if (context_window p =? 0)%Z then Raise (RuntimeError "ZeroDivisionError")
  else Ok (py_max (1 # 10) (py_min (95 # 100) (inject_Z target_tokens / inject_Z (context_window p)))).

(** What to do after a recorded failure. *)
Definition decide_next (d : Deadline) (pool : string) (e : Endpoint) (p : ModelProfile) (f : FailureClassification) : X unit :=
  w ← get;
  let v := vars w in
  if bool_decide (fc_reason f = output_cap_exceeded) && negb (bool_decide (ep_id e ∈ output_cap_retried v)) &&
     can_attempt_endpoint (ep_id e) (ledger_state w) then
    let current_max := oz_or (req_max_output_tokens (request v)) (z_or (max_output_tokens p) 4096) in
    let clamped := clamped_output (parse_output_cap_from_error (fc_message f)) current_max in
    upd_vars (fun v => set_output_cap_retried (output_cap_retried v ++ [ep_id e]) v) ;;
    upd_vars (fun v => set_request (with_max_output clamped (request v)) v)
  else if (bool_decide (fc_reason f = payload_too_large) || bool_decide (fc_reason f = context_overflow)) &&
          negb (od_mem (ep_id e) (window_shrink v)) && can_attempt_endpoint (ep_id e) (ledger_state w) then
    ratio ← match token_limit_of f with
            | Some limit => if (0 <? limit)%Z then lift (shrink_ratio p limit) else mret (1 # 2)
            | None => mret (1 # 2)
            end;
    upd_vars (fun v => set_window_shrink (od_set (ep_id e) ratio (window_shrink v)) v)
  else if negb (fc_retryable f) || negb (can_attempt_endpoint (ep_id e) (ledger_state w)) then
    if negb (fc_should_fallback f) then raise (NonRecoverableFailureError (ep_id e))
    else step_fallback pool e f
  else
    u ← read_clock draws;
    let backoff := compute_backoff_seconds u (retry (ex_policy (self w)))
                     (Z.of_nat (attempts_on (ep_id e) (attempt_ledger v))) (fc_retry_after_seconds f) in
    rem ← remaining_ms mono d;
    if (rem / 1000)%Q ⪯ backoff then step_fallback pool e f
    else
      sleep backoff ;;
      match lane_key e with
      | Some lane => when (truthy lane) (on_router (on_lanes (set_available lane)))
      | None => mret tt
      end.

(** *** One pass, and the loop *)

(** Everything after the candidate passed the local checks. *)
Definition attempt_endpoint (d : Deadline) (pool : string) (req : RequirementVector) (keys : odict string string)
    (e : Endpoint) (decision : RoutingDecision) (adapted : NormalizedRequest) (was_compacted : bool) : X outcome :=
  w ← get;
  let p := profile_of e w in
  ad ← lift (get_adapter adapters (ep_provider e) (ep_protocol e));
  key ← on_keys (dispatch_key wall e keys);
  prepared ← lift (prepare_request ad e adapted (fst key));
  timeout_seconds ← per_attempt_timeout_for_provider mono d (Some (ep_provider e)) (estimated_input_tokens req);
  a ← new_attempt e was_compacted;
  reservation ← reserve_budget req p e a;
  match reservation with
  | None => mret Continue
  | Some rid =>
      let amount := match budget_limit_usd req with Some _ => estimated_cost_usd req p | None => 0 end in
      admitted ← admission e rid;
      if admitted : bool then
        prepare_durable_attempt a ;;
        result ← dispatch pool e ad prepared timeout_seconds rid amount a;
        verdict ← judge pool req e p ad adapted result rid amount a;
        match verdict with
        | inl response => mret (Return response decision)
        | inr f =>
            rotate ← (if bool_decide (fc_reason f = rate_limit) then
                        match snd key with
                        | Some kid => if truthy kid then on_keys (has_alternative_key wall e keys (Some kid) None) else mret false
                        | None => mret false
                        end
                      else mret false);
            (if rotate : bool then rotate_key (default "" (snd key)) result f rid amount a
             else record_failed_attempt pool e result f rid amount a ;; decide_next d pool e p f) ;;
            mret Continue
        end
      else mret Continue
  end.

(** The loop body. *)
Definition iteration (d : Deadline) (pool : string) (strategy : option string) (req : RequirementVector)
    (keys : odict string string) : X outcome :=
  upd_vars (fun v => set_attempt_idx (S (attempt_idx v)) v) ;;
  check mono d ;;
  w ← get;
  sel ← on_router (select_candidate wall breaker_clock req pool strategy (request_id (request (vars w)))
                     (excluded_endpoints (vars w)) (last_failure_reason (vars w)));
  match fst sel with
  | None => await_rollover d pool
  | Some e =>
      ok ← catch (on_ledger (validate_next_candidate (ep_id e)) ;; mret true) (fun _ => true)
             (fun _ => exclude (ep_id e) ;; mret false);
      if ok : bool then
        w ← get;
        adapted ← adapt e (profile_of e w);
        match adapted with
        | None => mret Continue
        | Some (adapted, was_compacted) =>
            note_failover d e adapted was_compacted ;;
            attempt_endpoint d pool req keys e (snd sel) adapted was_compacted
        end
      else mret Continue
  end.

(** The [while] loop; [None] when the fuel is spent. *)
Fixpoint execute_loop (fuel : nat) (d : Deadline) (pool : string) (strategy : option string) (req : RequirementVector)
    (keys : odict string string) : X (option (NormalizedResponse * RoutingDecision)) :=
  match fuel with
  | O => mret None
  | S fuel' =>
      expired ← is_expired mono d;
      w ← get;
      if expired || (max_total_attempts (ex_policy (self w)) <=? total_attempts (attempt_ledger (vars w)))%nat
      then raise (NoHealthyRouteError pool)
      else
        o ← iteration d pool strategy req keys;
        match o with
        | Return response decision => mret (Some (response, decision))
        | Continue => execute_loop fuel' d pool strategy req keys
        end
  end.

Definition initial_locals (r : NormalizedRequest) : Locals :=
  {| attempt_ledger := new_attempt_ledger; request := r; excluded_endpoints := []; attempt_idx := 0;
     last_failure_reason := None; last_endpoint := None; fallback_marked := false; window_shrink := [];
     output_cap_retried := []; rate_limit_waits := 0 |}.

(** [execute]: the response, the decision and the ledger, on the executor's state. *)
Definition execute (fuel : nat) (r : NormalizedRequest) (pool : string) (strategy : option string) (deadline_ms : Q)
    (keys : odict string string) (requirements : option RequirementVector)
    : M exn (GatewayExecutor T A) (option (NormalizedResponse * RoutingDecision * AttemptLedger)) := fun ex n =>
  let req := request_requirements requirements r pool (tokens r) (compute_prefix_hash dumps_sorted sha256 r) in
  let m : X (option (NormalizedResponse * RoutingDecision * AttemptLedger)) :=
    d ← new_deadline mono environ deadline_ms;
    o ← execute_loop fuel d pool strategy req keys;
    w ← get;
    mret (match o with Some (response, decision) => Some (response, decision, attempt_ledger (vars w)) | None => None end) in
  let '(r, w, n') := m {| self := ex; vars := initial_locals r |} n in (r, self w, n').
End executor.
