(* ===== verification/ExecutorDemo.v ===== *)
(** * Concrete executor runs

    A small gateway on which the executor model is evaluated: two endpoints of
    one pool, answers scripted by endpoint and reading.  These runs are the
    witnesses of the executor's theorems. *)

From stdpp Require Import base tactics list gmap strings.
From Stdlib Require Import QArith Qround.
From S2P Require Import Prelude Json Models PyText Execution Metrics Breaker Registry Profile Telemetry Requirements RoutingStores Router ToolLedger IR Context ToolValidation ResponseValidation Classifier Interfaces Executor SqliteStore.

#[export] Instance demo_runtime : Runtime := {|
  wall n := Qnat n; mono n := (Qnat n / 1000)%Q; breaker_clock n := (Qnat n / 1000)%Q; draws _ := 1 # 2; uuids := py_str_nat; environ _ := None;
  dumps _ := "{}"; dumps_sorted _ := "{}"; dumps_indent _ := "{}"; loads _ := None; loads_lax _ := None;
  literal_eval _ := None; float_str _ := ""; sha256 s := s; parse_http_date _ := None; describe x := text_error (match x with RuntimeError s => s | _ => "exception" end);
  render _ := "invalid" |}.

Definition demo_endpoint (id provider model : string) (prio : Z) (env : list string) : Endpoint :=
  {| ep_id := id; ep_provider := provider; ep_model := model; base_url := ""; ep_protocol := "openai"; deployment := None;
     quota_bucket_id := None; env_key := None; env_keys := env; ep_headers := []; weight := 1; priority := prio;
     profile := Some (declared provider model "openai" 65536 4096 false false false);
     ep_pool := "coding"; is_discovered := false; resource_lane := None |}.

Definition demo_caps (es : list Endpoint) : CapabilityRegistry :=
  fold_left (fun r e => register_endpoint e r) es {| profiles := []; aliases := []; endpoints := [] |}.

Definition answer (status : Z) (body : string) : res exn ProviderExecutionResult :=
  Ok {| px_status_code := status; px_headers := []; px_body := body; px_duration_ms := 10; px_transport_error := None |}.

Definition demo_response (body : string) (tcs : list NormalizedToolCall) : NormalizedResponse :=
  {| response_id := "x"; resp_model := "m"; resp_content := Some body; resp_reasoning_content := None; resp_tool_calls := tcs;
     finish_reason := "stop"; input_tokens := 0; output_tokens := 0; resp_reasoning_signature := None; raw_response := None |}.

(** An adapter that answers from the key it was given, every call carrying [tcs]. *)
Definition demo_adapter (script : string -> res exn ProviderExecutionResult) (tcs : list NormalizedToolCall) : ProviderAdapter :=
  {| prepare_request e r key := Ok {| pr_url := ep_id e; pr_headers := []; pr_body := key; pr_method := "POST" |};
     adapter_execute pr _ _ := script (pr_body pr);
     normalize_response _ r := Ok (demo_response (px_body r) tcs) |}.

Definition demo_request (defs : list NormalizedToolDefinition) : NormalizedRequest :=
  {| request_id := "req1"; req_model := "m";
     messages := [{| role := "user"; content := "hello"; reasoning_content := None; reasoning_signature := None;
                     tool_calls := []; tool_results := []; msg_name := None; msg_cache_control := None; msg_metadata := [] |}];
     system_instruction := None; tools := defs; req_max_output_tokens := None; temperature := None; stream := false;
     system_cache_control := None; tool_choice := None; req_metadata := [] |}.

Definition demo_executor (es : list Endpoint) (br : CircuitBreakerRegistry) : GatewayExecutor ToolExecutionLedger Database :=
  new_executor (new_router (demo_caps es) br (new_health_store (1 # 5))) default_policy (new_ledger 8 None) None.

Definition flaky_then_good : odict string ProviderAdapter :=
  [("groq", demo_adapter (fun _ => answer 503 "busy") []); ("mistral", demo_adapter (fun _ => answer 200 "fine") [])].

Definition demo_run : res exn (option (NormalizedResponse * RoutingDecision * AttemptLedger)) *
    GatewayExecutor ToolExecutionLedger Database * nat :=
  execute flaky_then_good 60 (demo_request []) "coding" (Some "priority") 300000 [] None
    (demo_executor [demo_endpoint "a" "groq" "llama" 1 []; demo_endpoint "b" "mistral" "codestral" 2 []] (new_breaker_registry None)) 0%nat.

(** The first endpoint is retried once, then the second one answers. *)
Example demo_run_fails_over :
  match demo_run with
  | (Ok (Some (r, _, l)), ex, _) =>
      resp_content r = Some "fine" /\ map ar_endpoint_id (attempts l) = ["a"; "a"; "b"] /\
      map ar_success (attempts l) = [false; false; true] /\ fallback_count l = 1%nat /\
      map fp_failover_reason (failover_plans l) = ["overloaded"] /\ length (sleeps ex) = 1%nat
  | _ => False
  end.
Proof. vm_compute. repeat split. Qed.
