(* ===== verification/ExecutorProps.v ===== *)
(** * Correctness of the executor: progress and termination

    Every pass through the loop that goes on either excludes the selected
    endpoint, or records an attempt, or uses up one of the three rate-limit
    waits; hence the loop ends. *)

From stdpp Require Import base tactics list gmap strings.
From Stdlib Require Import QArith Qround Lqa.
From S2P Require Import Prelude Json Models PyText Execution Metrics Breaker Registry Profile Telemetry Requirements RoutingStores Router RouterProps ToolLedger IR Context ToolValidation ToolValidationProps ResponseValidation Classifier ClassifierProps Interfaces Executor ExecutorDemo.

(** ** Preservation through the executor's lenses *)

Lemma preserves_run {E S B} (P : S -> Prop) (m : M E S B) s n r s' n' :
  preserves P m -> m s n = (r, s', n') -> P s -> P s'.
Proof. intros Hm H Hs. specialize (Hm s n Hs). by rewrite H in Hm. Qed.
Lemma preserves_zoom {E S T A} (P : S -> Prop) (g : S -> T) (p : T -> S -> S) (m : M E T A) :
  (forall t s, P s -> P (p t s)) -> preserves P (zoom g p m).
Proof. intros H s n Hs. unfold zoom. destruct (m (g s) n) as [[r t] n']. by apply H. Qed.
Lemma preserves_zoom_inner {E S T A} (P : S -> Prop) (Q : T -> Prop) (g : S -> T) (p : T -> S -> S) (m : M E T A) :
  (forall s, P s -> Q (g s)) -> (forall t s, P s -> Q t -> P (p t s)) -> preserves Q m -> preserves P (zoom g p m).
Proof.
  intros Hg Hp Hm s n Hs. specialize (Hm (g s) n (Hg s Hs)). unfold zoom.
  destruct (m (g s) n) as [[r t] n']. by apply Hp.
Qed.
Lemma preserves_catch {E S B} (P : S -> Prop) (m : M E S B) p h :
  preserves P m -> (forall e, preserves P (h e)) -> preserves P (catch m p h).
Proof.
  intros Hm Hh s n Hs. specialize (Hm s n Hs). unfold catch.
  destruct (m s n) as [[[b|e] s'] n']; [done|]. destruct (p e); [by apply Hh | done].
Qed.
Lemma preserves_lift {E S B} (P : S -> Prop) (r : res E B) : preserves P (lift r : M E S B).
Proof. by intros s n Hs. Qed.
Lemma preserves_reading {E S B} (P : S -> Prop) (f : nat -> res E B) : preserves P (fun (s : S) n => (f n, s, Datatypes.S n)).
Proof. by intros s n Hs. Qed.

(** Methods that only read clocks leave every state alone. *)
Lemma preserves_classify {S} (P : S -> Prop) w d e c h : preserves P (classify_failure w d e c h : M exn S _).
Proof.
  intros s n Hs. destruct (parse_retry_after_ok w d (od_get "retry-after" (clean_headers h)) s n) as (r & n1 & Hr & _).
  unfold classify_failure. erewrite bind_ok by exact Hr. cbv beta. repeat case_match; done.
Qed.
Lemma preserves_remaining {S} (P : S -> Prop) clk d : preserves P (remaining_ms clk d : M exn S Q).
Proof. unfold remaining_ms, elapsed_ms. preserve. Qed.
Lemma preserves_check {S} (P : S -> Prop) clk d : preserves P (check clk d : M exn S unit).
Proof. unfold check, is_expired, elapsed_ms. preserve; apply preserves_remaining. Qed.
Lemma preserves_expired {S} (P : S -> Prop) clk d : preserves P (is_expired clk d : M exn S bool).
Proof. unfold is_expired. preserve; apply preserves_remaining. Qed.
Lemma preserves_timeout {S} (P : S -> Prop) clk d p t : preserves P (per_attempt_timeout_for_provider clk d p t : M exn S Q).
Proof. unfold per_attempt_timeout_for_provider. preserve; [apply preserves_check | apply preserves_remaining]. Qed.
Lemma preserves_midnight {S} (P : S -> Prop) w : preserves P (calculate_seconds_until_utc_midnight w : M exn S Q).
Proof. unfold calculate_seconds_until_utc_midnight. preserve. Qed.

Create HintDb executor discriminated.
#[export] Hint Resolve preserves_lift preserves_classify preserves_remaining preserves_check preserves_expired
  preserves_timeout preserves_midnight preserves_reading : executor.

(** The capability registry is fixed. *)
Section registry.
Context (C : CapabilityRegistry).
Local Abbreviation fixed := (fun r : CapabilityRouter => capability_registry r = C).

Lemma fixed_health {B} (m : M exn HealthTelemetryStore B) : preserves fixed (on_health m).
Proof. apply preserves_zoom. by intros. Qed.
Lemma fixed_lanes {B} (m : M exn (odict string ResourceLaneStatus) B) : preserves fixed (on_lanes m).
Proof. apply preserves_zoom. by intros. Qed.
Lemma fixed_quality {B} (m : M exn ShadowQualityPolicy B) : preserves fixed (on_quality m).
Proof. apply preserves_zoom. by intros. Qed.
Lemma fixed_cache {B} (m : M exn PromptCacheTracker B) : preserves fixed (on_cache m).
Proof. apply preserves_zoom. by intros. Qed.
Lemma fixed_breakers {B} (m : M exn CircuitBreakerRegistry B) : preserves fixed (on_breakers m).
Proof. apply preserves_zoom. by intros. Qed.
#[local] Hint Resolve fixed_health fixed_lanes fixed_quality fixed_cache fixed_breakers : executor.

Lemma fixed_mark_dead w id p m r : preserves fixed (mark_dead w id p m r).
Proof. unfold mark_dead. preserve; eauto with executor. Qed.
Lemma fixed_evaluate w m req ex e : preserves fixed (evaluate_endpoint w m req ex e).
Proof.
  unfold evaluate_endpoint, is_dead, matches_hard_constraints. preserve; eauto with executor.
Qed.
Lemma fixed_select w m req pool st rid ex fb : preserves fixed (select_candidate w m req pool st rid ex fb).
Proof.
  assert (forall es, preserves fixed (evaluate_all w m req ex es)) as Hall.
  { induction es as [|e es IH]; cbn [evaluate_all]; preserve; auto using fixed_evaluate. }
  unfold select_candidate, choose. preserve; eauto with executor.
Qed.
End registry.
#[export] Hint Resolve fixed_health fixed_lanes fixed_quality fixed_cache fixed_breakers fixed_mark_dead fixed_select : executor.

Section progress.
Context {R : Runtime} {T A : Type} `{TL : ToolLedgerOps T} `{AS : AttemptStoreOps A}.
Context (adapters : odict string ProviderAdapter).
Implicit Types w : Run T A.

Definition registry_of w : CapabilityRegistry := capability_registry (router (self w)).
Definition cap_of w : nat := max_total_attempts (ex_policy (self w)).
Definition total_of w : nat := total_attempts (attempt_ledger (vars w)).
Definition excluded_of w : list string := excluded_endpoints (vars w).

(** A run only goes forward: configuration fixed, attempts and exclusions only
    added. *)
Definition grows w w' : Prop :=
  registry_of w' = registry_of w /\ ex_policy (self w') = ex_policy (self w) /\
  rate_limit_waits (vars w') = rate_limit_waits (vars w) /\ (total_of w <= total_of w')%nat /\
  excluded_of w ⊆ excluded_of w'.
Lemma grows_refl w : grows w w.
Proof. by split_and!. Qed.
Lemma grows_trans w1 w2 w3 : grows w1 w2 -> grows w2 w3 -> grows w1 w3.
Proof. intros (?&?&?&?&?) (?&?&?&?&?). split_and!; [congruence.. | lia | set_solver]. Qed.

Section from.
Context (w0 : Run T A).
Local Abbreviation G := (grows w0).

Lemma grows_self (f : GatewayExecutor T A -> GatewayExecutor T A) :
  (forall e, router (f e) = router e /\ ex_policy (f e) = ex_policy e) -> preserves G (upd_self f).
Proof.
  intros Hf. apply preserves_modify. intros w (H1 & H2 & H3 & H4 & H5). destruct (Hf (self w)) as [Hr Hp].
  split_and!; try done; cbn; [unfold registry_of in *; cbn; by rewrite Hr | by rewrite Hp].
Qed.
Lemma grows_router {B} (m : M exn CapabilityRouter B) :
  preserves (fun r => capability_registry r = registry_of w0) m -> preserves G (on_router m).
Proof.
  intros Hm. unfold on_router, on_self. apply preserves_zoom_inner with (Q := fun e => capability_registry (router e) = registry_of w0
      /\ ex_policy e = ex_policy (self w0)).
  - intros w (H1 & H2 & _). by split.
  - intros e w (H1 & H2 & H3 & H4 & H5) [Hr Hp]. by split_and!.
  - apply preserves_zoom_inner with (Q := fun r => capability_registry r = registry_of w0); [by intros e [? ?] | by intros r e [? ?] ? | done].
Qed.
Lemma grows_part {B U} (g : GatewayExecutor T A -> U) (p : U -> GatewayExecutor T A -> GatewayExecutor T A) (m : M exn U B) :
  (forall u e, router (p u e) = router e /\ ex_policy (p u e) = ex_policy e) -> preserves G (on_self (zoom g p m)).
Proof.
  intros Hp. apply preserves_zoom_inner with (Q := fun e => capability_registry (router e) = registry_of w0
      /\ ex_policy e = ex_policy (self w0)).
  - intros w (H1 & H2 & _). by split.
  - intros e w (H1 & H2 & H3 & H4 & H5) [Hr Hpo]. by split_and!.
  - apply preserves_zoom. intros u e [Hr Hpo]. destruct (Hp u e) as [-> ->]. by split.
Qed.
Lemma grows_budget {B} (m : M exn BudgetReservationStore B) : preserves G (on_budget m).
Proof. by apply grows_part. Qed.
Lemma grows_keys {B} (m : M exn KeyRotationPool B) : preserves G (on_keys m).
Proof. by apply grows_part. Qed.
Lemma grows_tools {B} (m : M exn T B) : preserves G (on_tools m).
Proof. by apply grows_part. Qed.
Lemma grows_store (m : M exn A unit) : preserves G (on_attempt_store m).
Proof.
  intros w n Hw. unfold on_attempt_store. destruct (attempt_store (self w)) as [st|]; [|done].
  destruct (m st n) as [[r st'] n']. destruct Hw as (H1 & H2 & H3 & H4 & H5). by split_and!.
Qed.
Lemma grows_vars (f : Locals -> Locals) :
  (forall v, rate_limit_waits (f v) = rate_limit_waits v /\ attempt_ledger (f v) = attempt_ledger v /\
             excluded_endpoints v ⊆ excluded_endpoints (f v)) -> preserves G (upd_vars f).
Proof.
  intros Hf. apply preserves_modify. intros w (H1 & H2 & H3 & H4 & H5). destruct (Hf (vars w)) as (Ha & Hb & Hc).
  split_and!; [done | done | cbn; congruence | unfold total_of in *; cbn; by rewrite Hb | unfold excluded_of in *; cbn; set_solver].
Qed.
Lemma grows_ledger (f : AttemptLedger -> AttemptLedger) :
  (forall l, total_attempts l <= total_attempts (f l))%nat -> preserves G (on_ledger (upd_led f)).
Proof.
  intros Hf. apply preserves_zoom_inner with (Q := fun s => policy s = ex_policy (self w0) /\ (total_of w0 <= total_attempts (led s))%nat).
  - intros w (H1 & H2 & H3 & H4 & H5). by split.
  - intros s w (H1 & H2 & H3 & H4 & H5) [Hp Ht]. by split_and!.
  - apply preserves_modify. intros s [Hp Ht]. split; [done|]. cbn. specialize (Hf (led s)). lia.
Qed.
Lemma grows_record a : preserves G (on_ledger (record_attempt a)).
Proof. apply grows_ledger. intros l. unfold total_attempts. cbn. rewrite length_app. lia. Qed.
Lemma grows_cost c : preserves G (on_ledger (add_cost c)).
Proof. by apply grows_ledger. Qed.
Lemma grows_fallback : preserves G (on_ledger mark_fallback).
Proof. by apply grows_ledger. Qed.
Lemma grows_plan p : preserves G (on_ledger (record_failover_plan p)).
Proof. by apply grows_ledger. Qed.
Lemma grows_validate id : preserves G (on_ledger (validate_next_candidate id)).
Proof.
  apply preserves_zoom_inner with (Q := fun s => policy s = ex_policy (self w0) /\ (total_of w0 <= total_attempts (led s))%nat).
  - intros w (H1 & H2 & H3 & H4 & H5). by split.
  - intros s w (H1 & H2 & H3 & H4 & H5) [Hp Ht]. by split_and!.
  - unfold validate_next_candidate. preserve.
Qed.
Lemma grows_exclude id : preserves G (exclude id).
Proof. apply grows_vars. intros v. split_and!; [done | done | cbn; set_solver]. Qed.
Lemma grows_exclude_once id : preserves G (exclude_once id).
Proof. apply grows_vars. intros v. case_bool_decide; split_and!; try done. cbn. set_solver. Qed.
Lemma grows_sleep q : preserves G (sleep q).
Proof. by apply grows_self. Qed.
Lemma grows_pool c : preserves G (on_pool_manager c).
Proof. apply grows_self. intros e. by destruct (has_pool_manager e). Qed.
Lemma grows_breaker {B} e (m : M exn (CircuitBreaker * option unit) B) : preserves G (breaker_call e m).
Proof. apply grows_router. eauto with executor. Qed.
Lemma grows_health {B} (m : M exn HealthTelemetryStore B) : preserves G (health_call m).
Proof. apply grows_router. eauto with executor. Qed.
Lemma grows_uuid : preserves G (read_uuid : M exn (Run T A) string).
Proof. by intros w n Hw. Qed.
End from.
End progress.
#[export] Hint Resolve grows_budget grows_keys grows_tools grows_store grows_record grows_cost grows_fallback grows_plan
  grows_validate grows_exclude grows_exclude_once grows_sleep grows_pool grows_breaker grows_health grows_uuid : executor.

Ltac grow :=
  preserve; repeat first
    [ apply preserves_catch; [|intros ?]; preserve
    | solve [eauto with executor]
    | solve [apply grows_router; eauto with executor]
    | solve [apply grows_vars; intros ?; split_and!; first [done | cbn; set_solver]]
    | solve [apply grows_self; intros ?; done] ].

Section passes.
Context {R : Runtime} {T A : Type} `{TL : ToolLedgerOps T} `{AS : AttemptStoreOps A}.
Context (adapters : odict string ProviderAdapter).
Implicit Types w : Run T A.

Lemma grows_settle w0 r q : preserves (grows w0) (settle_reservation r q).
Proof. unfold settle_reservation. grow. Qed.
Lemma grows_finish w0 b s f a : preserves (grows w0) (finish b s f a).
Proof. unfold finish. grow. Qed.
Lemma grows_lane w0 e f : preserves (grows w0) (record_lane_outcome e f).
Proof. unfold record_lane_outcome. grow. Qed.
#[local] Hint Resolve grows_settle grows_finish grows_lane : executor.
Lemma grows_durable w0 a s d : preserves (grows w0) (finish_durable_attempt a s d).
Proof. unfold finish_durable_attempt. grow. Qed.
Lemma grows_prepare w0 a : preserves (grows w0) (prepare_durable_attempt a).
Proof. unfold prepare_durable_attempt. grow. Qed.
#[local] Hint Resolve grows_durable grows_prepare : executor.
Lemma grows_adapt w0 e p : preserves (grows w0) (adapt e p).
Proof. unfold adapt. grow. Qed.
Lemma grows_note w0 d e r c : preserves (grows w0) (note_failover d e r c).
Proof. unfold note_failover. grow. Qed.
Lemma grows_new_attempt w0 e c : preserves (grows w0) (new_attempt e c).
Proof. unfold new_attempt. grow. Qed.
Lemma grows_reserve w0 req p e a : preserves (grows w0) (reserve_budget req p e a).
Proof. unfold reserve_budget. grow. Qed.
Lemma grows_admission w0 e r : preserves (grows w0) (admission e r).
Proof. unfold admission. grow. Qed.
Lemma grows_dispatch w0 pool e ad pr t r q a : preserves (grows w0) (dispatch pool e ad pr t r q a).
Proof. unfold dispatch. grow. Qed.
Lemma grows_tool_call w0 e i tc : preserves (grows w0) (process_tool_call e i tc).
Proof. unfold process_tool_call. grow. Qed.
Lemma grows_tool_calls w0 e i tcs : preserves (grows w0) (process_tool_calls e i tcs).
Proof. revert i. induction tcs as [|tc tcs IH]; intros i; cbn [process_tool_calls]; preserve; auto using grows_tool_call. Qed.
Lemma grows_complete w0 pool req e p ad r d rv a : preserves (grows w0) (complete pool req e p ad r d rv a).
Proof. unfold complete. grow. Qed.
#[local] Hint Resolve grows_adapt grows_note grows_new_attempt grows_reserve grows_admission grows_dispatch grows_tool_calls grows_complete : executor.
Lemma grows_judge w0 pool req e p ad r x rv q a : preserves (grows w0) (judge pool req e p ad r x rv q a).
Proof. unfold judge, accept. grow. Qed.
Lemma grows_billing w0 pool e f : preserves (grows w0) (record_billing pool e f).
Proof. unfold record_billing. grow. Qed.
Lemma grows_rotate w0 k x f r q a : preserves (grows w0) (rotate_key k x f r q a).
Proof. unfold rotate_key. grow. Qed.
Lemma grows_step_fallback w0 pool e f : preserves (grows w0) (step_fallback pool e f).
Proof. unfold step_fallback. grow. Qed.
#[local] Hint Resolve grows_judge grows_billing grows_rotate grows_step_fallback : executor.
Lemma grows_failed w0 pool e x f r q a : preserves (grows w0) (record_failed_attempt pool e x f r q a).
Proof. unfold record_failed_attempt. grow. Qed.
Lemma grows_decide w0 d pool e p f : preserves (grows w0) (decide_next d pool e p f).
Proof. unfold decide_next. grow. Qed.
#[local] Hint Resolve grows_failed grows_decide : executor.

(** *** What a pass that goes on has achieved *)

Section gains.
Context (w0 : Run T A) (e : Endpoint).
Definition progressed w : Prop := grows w0 w /\ (ep_id e ∈ excluded_of w \/ (total_of w0 < total_of w)%nat).
(** [m] makes progress whenever it ends with a result in [ok]. *)
Definition gains {B} (ok : B -> Prop) (m : M exn (Run T A) B) : Prop :=
  triple (grows w0) m (fun r w => forall b, r = Ok b -> ok b -> progressed w).

Lemma progressed_kept {B} (m : M exn (Run T A) B) : (forall w1, preserves (grows w1) m) -> preserves progressed m.
Proof.
  intros Hm w n [Hg Hp]. specialize (Hm w w n (grows_refl w)). split; [by eapply grows_trans|].
  destruct Hm as (_ & _ & _ & Ht & He). destruct Hp; [left; set_solver | right; lia].
Qed.
Lemma gains_seq {B C} (ok : C -> Prop) (m : M exn (Run T A) B) (k : B -> M exn (Run T A) C) :
  preserves (grows w0) m -> (forall b, gains ok (k b)) -> gains ok (mbind k m).
Proof. intros Hm Hk. eapply triple_bind; [exact Hm | exact Hk | done]. Qed.
Lemma gains_then {B C} (ok : C -> Prop) (m : M exn (Run T A) B) (k : B -> M exn (Run T A) C) :
  gains (fun _ => True) m -> (forall b w1, preserves (grows w1) (k b)) -> gains ok (mbind k m).
Proof.
  intros Hm Hk. eapply triple_bind with (R1 := fun r w => forall b, r = Ok b -> progressed w).
  - eapply triple_conseq; [exact Hm | done | intros r w H b Hb; by eapply H].
  - intros b. eapply triple_conseq; [apply (progressed_kept _ (Hk b)) | intros w H; by eapply H | by intros r w H].
  - done.
Qed.
Lemma gains_never {B} (ok : B -> Prop) (m : M exn (Run T A) B) :
  triple (grows w0) m (fun r _ => forall b, r = Ok b -> ~ ok b) -> gains ok m.
Proof. intros Hm. eapply triple_conseq; [exact Hm | done|]. intros r w H b Hb Hok. by destruct (H b Hb). Qed.
Lemma gains_ret {B} (ok : B -> Prop) b : ~ ok b -> gains ok (mret b).
Proof. intros H. apply gains_never, triple_ret. by intros w _ b' [= <-]. Qed.
Lemma gains_raise {B} (ok : B -> Prop) x : gains ok (raise x).
Proof. by apply triple_raise. Qed.

(** A step whose bad results already made progress. *)
Lemma gains_case {B C} (bad : B -> Prop) (ok : C -> Prop) (m : M exn (Run T A) B) (k : B -> M exn (Run T A) C) :
  gains bad m -> preserves (grows w0) m ->
  (forall b, (bad b /\ forall w1, preserves (grows w1) (k b)) \/ gains ok (k b)) -> gains ok (mbind k m).
Proof.
  intros Hm Hg Hk w n Hw. specialize (Hm w n Hw). specialize (Hg w n Hw). unfold mbind, M_bind.
  destruct (m w n) as [[[b|x] w'] n']; [|done]. cbn in *. destruct (Hk b) as [[Hb Hp]|Ho]; [|by apply Ho].
  intros c _ _. apply (progressed_kept _ Hp). by eapply Hm.
Qed.

Lemma exclude_gains {B} (ok : B -> Prop) (k : M exn (Run T A) B) :
  (forall w1, preserves (grows w1) k) -> gains ok (exclude (ep_id e) ;; k).
Proof.
  intros Hk. apply gains_then; [|done]. intros w n Hw b _ _. split; [by apply grows_exclude|].
  left. unfold excluded_of. cbn. set_solver.
Qed.
Lemma record_gains a : gains (fun _ => True) (on_ledger (record_attempt a)).
Proof.
  intros w n Hw b _ _. split; [by apply grows_record|]. right. destruct Hw as (_ & _ & _ & Ht & _).
  revert Ht. unfold total_of, total_attempts. cbn. rewrite length_app. cbn. lia.
Qed.

Lemma adapt_gains p : gains (fun o => o = None) (adapt e p).
Proof.
  unfold adapt. apply gains_seq; [apply preserves_get | intros w]. cbv zeta.
  destruct (compact _ _ _ _ _ _) as [[r c]|x].
  - destruct (_ && _); [apply exclude_gains; intros; apply preserves_ret | by apply gains_ret].
  - destruct x; first [apply exclude_gains; intros; apply preserves_ret | apply gains_raise].
Qed.
Lemma reserve_gains req p a : gains (fun o => o = None) (reserve_budget req p e a).
Proof.
  unfold reserve_budget. destruct (budget_limit_usd req); [|by apply gains_ret].
  apply gains_seq; [apply preserves_get | intros w]. cbv zeta. apply gains_seq; [apply grows_budget | intros [r|]].
  - by apply gains_ret.
  - apply exclude_gains. intros w1. grow.
Qed.
Lemma admission_gains r : gains (fun b => b = false) (admission e r).
Proof.
  unfold admission, catch. intros w n Hw.
  destruct ((breaker_call e (acquire_permission breaker_clock) ;; mret true : M exn (Run T A) bool) w n) as [[[b|x] w'] n'] eqn:E; [|destruct (_ || _) eqn:Ex; [|done]].
  - intros b' [= <-] ->. exfalso. unfold mbind, M_bind in E. by destruct (breaker_call _ _ _ _) as [[[]]].
  - assert (grows w0 w') as Hw'.
    { assert (preserves (grows w0) (breaker_call e (acquire_permission breaker_clock) ;; mret true)) as Hb by grow.
      specialize (Hb w n Hw). by rewrite E in Hb. }
    revert Hw'. apply (gains_seq (fun b => b = false)); [grow | intros _]. apply exclude_gains. intros. apply preserves_ret.
Qed.
Lemma rotate_gains k x f r q a : gains (fun _ => True) (rotate_key k x f r q a).
Proof.
  unfold rotate_key. apply gains_seq; [grow | intros _]. apply gains_seq; [grow | intros a'].
  apply gains_then; [apply record_gains | intros _ w1; grow].
Qed.
Lemma failed_gains pool x f r q a : gains (fun _ => True) (record_failed_attempt pool e x f r q a).
Proof.
  unfold record_failed_attempt. do 5 (apply gains_seq; [grow | intros ?]). apply gains_seq; [grow | intros a'].
  apply gains_then; [apply record_gains | intros _ w1; grow].
Qed.

Lemma attempt_gains d pool req keys dec r c :
  gains (fun o => o = Continue) (attempt_endpoint adapters d pool req keys e dec r c).
Proof.
  unfold attempt_endpoint. apply gains_seq; [apply preserves_get | intros w]. cbv zeta.
  do 5 (apply gains_seq; [grow | intros ?]).
  apply gains_case with (bad := fun o => o = None); [apply reserve_gains | grow|].
  intros [rid|]; [right | left; split; [done | intros; apply preserves_ret]].
  apply gains_case with (bad := fun b => b = false); [apply admission_gains | grow|].
  intros [|]; [right | left; split; [done | intros; apply preserves_ret]].
  do 2 (apply gains_seq; [grow | intros ?]). apply gains_seq; [grow | intros [resp|f]]; [by apply gains_ret|].
  apply gains_seq; [grow | intros [|]].
  - apply gains_then; [apply rotate_gains | intros; apply preserves_ret].
  - apply gains_then; [|intros; apply preserves_ret]. apply gains_then; [apply failed_gains | intros _ w1; grow].
Qed.
End gains.

(** *** One pass *)

(** The rollover wait uses up one of the three waits and changes neither the
    policy nor the number of attempts. *)
Definition waited C p t k w : Prop :=
  registry_of w = C /\ ex_policy (self w) = p /\ total_of w = t /\ rate_limit_waits (vars w) = k.
Lemma waited_router {B} C p t k (m : M exn CapabilityRouter B) :
  preserves (fun r => capability_registry r = C) m -> preserves (waited C p t k) (on_router m).
Proof.
  intros Hm. unfold on_router, on_self.
  apply preserves_zoom_inner with (Q := fun e => capability_registry (router e) = C /\ ex_policy e = p).
  - by intros w (? & ? & ?).
  - by intros e w (? & ? & ? & ?) [? ?].
  - apply preserves_zoom_inner with (Q := fun r => capability_registry r = C); [by intros e [] | by intros r e [] ? | done].
Qed.
Lemma waited_reset C p t k eps :
  (t < max_total_attempts p)%nat -> preserves (waited C p t k) (on_ledger (reset_for_rate_limit_retry eps)).
Proof.
  intros Ht. apply preserves_zoom_inner with (Q := fun s => policy s = p /\ total_attempts (led s) = t).
  - by intros w (? & ? & ? & ?).
  - by intros s w (? & ? & ? & ?) [? ?].
  - unfold reset_for_rate_limit_retry. apply preserves_bind; [by apply preserves_modify | intros _].
    apply preserves_modify. intros s [Hp Hs]. case_match eqn:E; [|done]. apply Nat.leb_le in E. rewrite Hp, Hs in E. lia.
Qed.
Lemma await_uses_wait d pool w n w' n' :
  await_rollover d pool w n = (Ok Continue, w', n') -> (total_of w < cap_of w)%nat ->
  waited (registry_of w) (ex_policy (self w)) (total_of w) (S (rate_limit_waits (vars w))) w' /\ (rate_limit_waits (vars w) < 3)%nat.
Proof.
  unfold await_rollover. intros H Hcap. apply bind_inv in H as (w1 & s1 & n1 & [= <- <- <-] & H).
  destruct (collect_limited _ _) as [limited delays]. apply bind_inv in H as (rem & s1 & n1 & Hr & H).
  assert (s1 = w) as -> by (pose proof (preserves_remaining (fun s => s = w) mono d w n eq_refl) as Hp; by rewrite Hr in Hp).
  cbv zeta in H. destruct (_ && _ && _) eqn:Ec; [|done]. rewrite !andb_true_iff, Nat.ltb_lt in Ec. split; [|tauto].
  apply bind_inv in H as ([] & s2 & n2 & [= <- <-] & H).
  match type of H with ?m ?s _ = _ => assert (preserves (waited (registry_of w) (ex_policy (self w)) (total_of w)
    (S (rate_limit_waits (vars w)))) m) as Hp end.
  { apply preserves_bind; [by apply preserves_modify | intros _].
    apply preserves_bind.
    - apply preserves_for_each. intros id. apply preserves_bind; [by apply preserves_modify | intros _].
      apply preserves_bind; [apply preserves_get | intros w1]. apply preserves_for_each. intros e. apply preserves_when.
      destruct (lane_key e); [|apply preserves_ret]. apply preserves_when, waited_router. eauto with executor.
    - intros _. apply preserves_bind; [by apply waited_reset | intros _].
      apply preserves_bind; [by apply preserves_modify | intros _; apply preserves_ret]. }
  match type of H with _ ?s ?k = _ => specialize (Hp s k (conj eq_refl (conj eq_refl (conj eq_refl eq_refl)))) end.
  by rewrite H in Hp.
Qed.

(** The candidate a selection returns is in the pool and not excluded. *)
Lemma select_candidate_fresh req pool st rid fb w n e dec w' n' :
  on_router (select_candidate wall breaker_clock req pool st rid (excluded_of w) fb) w n = (Ok (Some e, dec), w', n') ->
  e ∈ endpoints_for_pool pool (registry_of w) /\ ep_id e ∉ excluded_of w.
Proof.
  intros H. unfold on_router, on_self in H. apply zoom_inv in H as (ex & H & _). apply zoom_inv in H as (r & H & _).
  destruct (select_run wall breaker_clock req pool st rid (excluded_of w) fb (router (self w)) n)
    as (cs & r' & dec' & w1 & n1 & Hs & Hmap & Hall & _ & _ & _ & _ & Hr).
  rewrite Hs in H. simplify_eq. destruct Hr as (order & sel & -> & Hin & _).
  apply list_elem_of_filter in Hin as [Hel Hin]. rewrite Forall_forall in Hall.
  split; [unfold registry_of; rewrite <- Hmap; by apply list_elem_of_fmap_2|].
  exact (adm_not_excluded _ _ _ _ _ _ _ _ (proj2 (Hall sel Hin) Hel)).
Qed.

(** The opening of a pass of either loop: the deadline is checked and a
    candidate selected. *)
Definition with_selection {B} d pool st req (k : option Endpoint * RoutingDecision -> M exn (Run T A) B) : M exn (Run T A) B :=
  upd_vars (fun v => set_attempt_idx (S (attempt_idx v)) v) ;;
  check mono d ;;
  w ← get;
  sel ← on_router (select_candidate wall breaker_clock req pool st (request_id (request (vars w)))
                     (excluded_endpoints (vars w)) (last_failure_reason (vars w)));
  k sel.

(** A pass moved on: with a fresh candidate, or with one of the waits. *)
Definition advanced pool w w' : Prop :=
  (exists e, e ∈ endpoints_for_pool pool (registry_of w) /\ ep_id e ∉ excluded_of w /\ progressed w e w') \/
  (waited (registry_of w) (ex_policy (self w)) (total_of w) (S (rate_limit_waits (vars w))) w' /\ (rate_limit_waits (vars w) < 3)%nat).

Lemma selection_inv {B} d pool st req (k : option Endpoint * RoutingDecision -> M exn (Run T A) B) w n b w' n' :
  with_selection d pool st req k w n = (Ok b, w', n') ->
  exists sel dec w2 n2, k (sel, dec) w2 n2 = (Ok b, w', n') /\ grows w w2 /\ total_of w2 = total_of w /\
    match sel with Some e => e ∈ endpoints_for_pool pool (registry_of w) /\ ep_id e ∉ excluded_of w | None => True end.
Proof.
  unfold with_selection. intros H. apply bind_inv in H as ([] & w1 & n1 & H1 & H).
  assert (Hw1 : grows w w1 /\ excluded_of w1 = excluded_of w /\ registry_of w1 = registry_of w /\ total_of w1 = total_of w)
    by (injection H1 as <- _; by split_and!).
  clear H1. apply bind_inv in H as ([] & w1' & n2 & H1 & H).
  assert (w1' = w1) as -> by (pose proof (preserves_check (fun s => s = w1) mono d w1 n1 eq_refl) as Hp; by rewrite H1 in Hp).
  apply bind_inv in H as (? & ? & ? & [= <- <- <-] & H). apply bind_inv in H as ([sel dec] & w2 & n3 & Hs & H).
  destruct Hw1 as (Hg & He & Hr & Htot). exists sel, dec, w2, n3. split_and!; [done | | |].
  - pose proof (grows_router w _ (fixed_select _ wall breaker_clock req pool st (request_id (request (vars w1)))
      (excluded_endpoints (vars w1)) (last_failure_reason (vars w1))) w1 n2 Hg) as Hp. by rewrite Hs in Hp.
  - unfold on_router, on_self in Hs. apply zoom_inv in Hs as (ex & _ & ->). by rewrite <- Htot.
  - destruct sel as [e|]; [|done]. apply select_candidate_fresh in Hs as [Hin Hex]. by rewrite Hr in Hin; rewrite He in Hex.
Qed.

Lemma pass_advances {B} (again : B -> Prop) d pool st req (k : option Endpoint * RoutingDecision -> M exn (Run T A) B) w n b w' n' :
  with_selection d pool st req k w n = (Ok b, w', n') -> again b -> (total_of w < cap_of w)%nat ->
  (forall e dec, gains w e again (k (Some e, dec))) ->
  (forall dec w2 n2, k (None, dec) w2 n2 = (Ok b, w', n') -> exists n3, await_rollover d pool w2 n2 = (Ok Continue, w', n3)) ->
  advanced pool w w'.
Proof.
  intros H Hb Hcap Hsome Hnone. apply selection_inv in H as (sel & dec & w2 & n2 & H & Hg2 & Ht2 & Hsel). destruct sel as [e|].
  - left. exists e. destruct Hsel as [Hin Hex]. split; [done|]. split; [done|].
    specialize (Hsome e dec w2 n2 Hg2). rewrite H in Hsome. by eapply Hsome.
  - right. destruct Hg2 as (Hr2 & Hp2 & Hw2 & _). apply Hnone in H as (n4 & H).
    apply await_uses_wait in H as [Hw Hlt]; [|unfold cap_of in *; by rewrite Ht2, Hp2].
    rewrite Hr2, Hp2, Ht2, Hw2 in Hw. by rewrite Hw2 in Hlt.
Qed.

(** A check that excludes the candidate when it raises. *)
Lemma checked_gains w e (m : M exn (Run T A) unit) (h : exn -> M exn (Run T A) bool) : preserves (grows w) m ->
  (forall x, gains w e (fun b => b = false) (h x)) -> gains w e (fun b => b = false) (catch (m ;; mret true) (fun _ => true) h).
Proof.
  intros Hm Hh w1 n Hw1. unfold catch. specialize (Hm w1 n Hw1). unfold mbind, M_bind.
  destruct (m w1 n) as [[[[]|x] w2] n2]; [by intros b [= <-]|]. by apply Hh.
Qed.

Lemma iteration_progress d pool st req keys w n w' n' :
  iteration adapters d pool st req keys w n = (Ok Continue, w', n') -> (total_of w < cap_of w)%nat -> advanced pool w w'.
Proof.
  intros H Hcap. eapply (pass_advances (fun o => o = Continue)) in H; [exact H | done | done | | intros dec w2 n2 H2; by exists n'].
  intros e dec. cbn [fst snd]. apply gains_case with (bad := fun b => b = false).
  - apply checked_gains; [grow|]. intros x. apply exclude_gains. intros. apply preserves_ret.
  - grow.
  - intros [|]; [right | left; split; [done | intros; apply preserves_ret]].
    apply gains_seq; [apply preserves_get | intros w3].
    apply gains_case with (bad := fun o => o = None); [apply adapt_gains | grow|].
    intros [[r c]|]; [right | left; split; [done | intros; apply preserves_ret]].
    apply gains_seq; [grow | intros _]. apply attempt_gains.
Qed.

(** *** The loop ends *)

(** Endpoints of the pool not excluded yet. *)
Definition fresh_of pool w : nat :=
  length (filter (fun e => ep_id e ∉ excluded_of w) (endpoints_for_pool pool (registry_of w))).
Definition budget_of pool w : nat := (cap_of w - total_of w + fresh_of pool w)%nat.
(** Passes still possible: a budget now, and a whole one after every wait. *)
Definition passes pool w : nat :=
  (budget_of pool w + (3 - rate_limit_waits (vars w)) * (cap_of w + length (endpoints_for_pool pool (registry_of w)) + 1))%nat.

Lemma fresh_le pool w : (fresh_of pool w <= length (endpoints_for_pool pool (registry_of w)))%nat.
Proof. apply length_filter. Qed.

Lemma filter_length_lt {B} (P Q : B -> Prop) `{forall x, Decision (P x)} `{forall x, Decision (Q x)} (l : list B) x :
  (forall y, Q y -> P y) -> x ∈ l -> P x -> ~ Q x -> (length (filter Q l) < length (filter P l))%nat.
Proof.
  intros HQP Hx HP HQ. induction l as [|y l IH]; [set_solver|]. rewrite !filter_cons.
  assert (length (filter Q l) <= length (filter P l))%nat as Hle.
  { clear -HQP. induction l as [|z l IH]; [done|]. rewrite !filter_cons. repeat case_decide; simpl; [lia | naive_solver | lia | lia]. }
  apply elem_of_cons in Hx as [->|Hx]; [rewrite (decide_True _ _ HP), (decide_False _ _ HQ); simpl; lia|].
  specialize (IH Hx). repeat case_decide; simpl; [lia | naive_solver | lia | lia].
Qed.

Lemma advanced_decreases pool w w' : advanced pool w w' -> (total_of w < cap_of w)%nat ->
  (passes pool w' < passes pool w)%nat /\ ex_policy (self w') = ex_policy (self w) /\ registry_of w' = registry_of w.
Proof.
  intros H Hlt. destruct H as [(e & Hin & Hex & (Hr & Hp & Hw & Ht & He) & Hgain)|[Hw H3]].
  - split; [|done]. unfold passes, budget_of, cap_of, fresh_of in *. rewrite Hr, Hp, Hw. apply Nat.add_lt_mono_r.
    set (F w := length (filter (fun e => ep_id e ∉ excluded_of w) (endpoints_for_pool pool (registry_of w)))).
    assert (length (filter (fun e => ep_id e ∉ excluded_of w') (endpoints_for_pool pool (registry_of w))) <= F w)%nat as Hle.
    { unfold F. clear -He. induction (endpoints_for_pool pool (registry_of w)) as [|z l IH]; [done|]. rewrite !filter_cons.
      repeat case_decide; simpl; [lia | set_solver | lia | lia]. }
    destruct Hgain as [Hg|Hg]; [|fold (F w); lia].
    assert (length (filter (fun e => ep_id e ∉ excluded_of w') (endpoints_for_pool pool (registry_of w))) < F w)%nat; [|fold (F w); lia].
    apply filter_length_lt with (x := e); [set_solver | done | done | tauto].
  - destruct Hw as (Hr & Hp & Ht & Hk). split; [|done]. pose proof (fresh_le pool w') as Hf. rewrite Hr in Hf.
    unfold passes, budget_of, cap_of in *. rewrite Hr, Hp, Ht, Hk.
    replace (3 - rate_limit_waits (vars w))%nat with (S (3 - S (rate_limit_waits (vars w)))) by lia. lia.
Qed.

Lemma loop_ends fuel d pool st req keys w n :
  (passes pool w < fuel)%nat -> out_res (execute_loop adapters fuel d pool st req keys w n) <> Ok None.
Proof.
  revert w n. induction fuel as [|fuel IH]; intros w n Hf; [lia|]. cbn [execute_loop].
  destruct (is_expired mono d w n) as [[[x|err] w1] n1] eqn:Ex; [|by erewrite bind_raise by exact Ex].
  assert (w1 = w) as -> by (pose proof (preserves_expired (fun s => s = w) mono d w n eq_refl) as Hp; by rewrite Ex in Hp).
  erewrite bind_ok by exact Ex. cbv beta. mstep. destruct (x || _) eqn:Ec; [done|].
  apply orb_false_iff in Ec as [_ Hcap]. apply Nat.leb_gt in Hcap.
  destruct (iteration adapters d pool st req keys w n1) as [[[o|err] w2] n2] eqn:Ei; [|by erewrite bind_raise by exact Ei].
  erewrite bind_ok by exact Ei. cbv beta.
  destruct o as [|resp dec]; [|done]. apply IH. apply iteration_progress in Ei as (Hd & _)%advanced_decreases; [lia | done | done].
Qed.

(** *** The shared policy *)

Lemma await_keeps_policy d pool p t : (t < max_total_attempts p)%nat ->
  preserves (fun w => ex_policy (self w) = p /\ total_of w = t) (await_rollover d pool).
Proof.
  intros Ht w n [Hp Hw]. assert (Hex : exists k, waited (registry_of w) p t k w) by (by eexists).
  enough (preserves (fun w' => exists k, waited (registry_of w) p t k w') (await_rollover d pool)) as H.
  { destruct (H w n Hex) as (k & _ & ? & ? & _). done. }
  assert (forall {B} (m : M exn (Run T A) B), (forall k, preserves (waited (registry_of w) p t k) m) ->
    preserves (fun w' => exists k, waited (registry_of w) p t k w') m) as Hlift.
  { intros B m Hm s i [k Hk]. exists k. by apply Hm. }
  unfold await_rollover. apply preserves_bind; [apply preserves_get | intros w1]. destruct (collect_limited _ _) as [l ds].
  apply preserves_bind; [eauto with executor | intros rem]. cbv zeta. destruct (_ && _ && _); [|apply preserves_raise].
  apply preserves_bind; [|intros _; apply preserves_bind; [|intros _; apply preserves_bind; [|intros _; apply preserves_bind; [|intros _]]]].
  - apply preserves_modify. intros s (k & H1 & H2 & H3 & H4). eexists. by split_and!.
  - apply Hlift. intros k. by apply preserves_modify.
  - apply preserves_for_each. intros id. apply preserves_bind; [apply Hlift; intros k; by apply preserves_modify | intros _].
    apply preserves_bind; [apply preserves_get | intros w2]. apply preserves_for_each. intros e. apply preserves_when.
    destruct (lane_key e); [|apply preserves_ret]. apply preserves_when, Hlift. intros k. apply waited_router. eauto with executor.
  - apply Hlift. intros k. by apply waited_reset.
  - apply preserves_bind; [|intros _; apply preserves_ret]. apply Hlift. intros k. by apply preserves_modify.
Qed.

Lemma iteration_keeps_policy d pool st req keys w n :
  (total_of w < cap_of w)%nat -> ex_policy (self (out_st (iteration adapters d pool st req keys w n))) = ex_policy (self w).
Proof.
  intros Hcap. unfold iteration. set (w1 := set_vars (set_attempt_idx (S (attempt_idx (vars w))) (vars w)) w).
  erewrite bind_ok with (s' := w1) by reflexivity. cbv beta.
  destruct (check mono d w1 n) as [[[[]|x] w1'] n1] eqn:Ec;
    (assert (w1' = w1) as -> by (pose proof (preserves_check (fun s => s = w1) mono d w1 n eq_refl) as Hp; by rewrite Ec in Hp));
    [|by erewrite bind_raise by exact Ec].
  erewrite bind_ok by exact Ec. cbv beta. mstep.
  set (m := on_router _). destruct (m w1 n1) as [[[[sel dec]|x] w2] n2] eqn:Es; cycle 1.
  { erewrite bind_raise by exact Es. unfold m, on_router, on_self in Es.
    apply zoom_inv in Es as (ex & Es & ->). apply zoom_inv in Es as (r & _ & ->). done. }
  erewrite bind_ok by exact Es. cbv beta. cbn [fst snd].
  assert (ex_policy (self w2) = ex_policy (self w) /\ total_of w2 = total_of w) as [Hp2 Ht2].
  { unfold m, on_router, on_self in Es. apply zoom_inv in Es as (ex & Es & ->). by apply zoom_inv in Es as (r & _ & ->). }
  destruct sel as [e|].
  - rewrite <- Hp2. match goal with |- ex_policy (self (out_st (?k w2 n2))) = _ => assert (preserves (grows w2) k) as Hg end.
    { apply preserves_bind; [grow | intros ok]. destruct ok; [|grow]. apply preserves_bind; [apply preserves_get | intros w3].
      apply preserves_bind; [grow | intros [[r c]|]]; [|grow]. apply preserves_bind; [grow | intros _].
      unfold attempt_endpoint. grow. }
    by destruct (Hg w2 n2 (grows_refl w2)) as (_ & ? & _).
  - apply (await_keeps_policy d pool (ex_policy (self w)) (total_of w) Hcap w2 n2). by split.
Qed.

Lemma loop_keeps_policy fuel d pool st req keys w n :
  ex_policy (self (out_st (execute_loop adapters fuel d pool st req keys w n))) = ex_policy (self w).
Proof.
  revert w n. induction fuel as [|fuel IH]; intros w n; [done|]. cbn [execute_loop].
  destruct (is_expired mono d w n) as [[[x|err] w1] n1] eqn:Ex;
    (assert (w1 = w) as -> by (pose proof (preserves_expired (fun s => s = w) mono d w n eq_refl) as Hp; by rewrite Ex in Hp));
    [|by erewrite bind_raise by exact Ex].
  erewrite bind_ok by exact Ex. cbv beta. mstep. destruct (x || _) eqn:Ec; [done|].
  apply orb_false_iff in Ec as [_ Hcap]. apply Nat.leb_gt in Hcap.
  pose proof (iteration_keeps_policy d pool st req keys w n1 Hcap) as Hp.
  destruct (iteration adapters d pool st req keys w n1) as [[[o|err] w2] n2] eqn:Ei; [|by erewrite bind_raise by exact Ei].
  erewrite bind_ok by exact Ei. cbv beta. rewrite <- Hp. destruct o; [apply IH | done].
Qed.

(** A request is the loop from fresh local variables. *)
Lemma execute_unfold fuel r pool st dl keys reqs (ex : GatewayExecutor T A) n :
  let w := {| self := ex; vars := initial_locals r |} in
  exists d req, let o := execute_loop adapters fuel d pool st req keys w (S n) in
    out_res (execute adapters fuel r pool st dl keys reqs ex n) =
      match out_res o with
      | Ok (Some (resp, dec)) => Ok (Some (resp, dec, attempt_ledger (vars (out_st o))))
      | Ok None => Ok None
      | Raise x => Raise x
      end /\
    out_st (execute adapters fuel r pool st dl keys reqs ex n) = self (out_st o).
Proof.
  intros w. assert (exists d, new_deadline mono environ dl w n = (Ok d, w, S n)) as [d Hd] by (eexists; reflexivity).
  exists d, (request_requirements reqs r pool (Z.of_nat (estimate_tokens dumps r)) (compute_prefix_hash dumps_sorted sha256 r)).
  intros o. unfold execute. fold w. erewrite bind_ok by exact Hd. cbv beta. fold o.
  destruct o as [[[[[resp dec]|]|x] w'] n'] eqn:E; unfold o in E.
  - by erewrite bind_ok by exact E.
  - by erewrite bind_ok by exact E.
  - by erewrite bind_raise by exact E.
Qed.
End passes.
#[export] Hint Resolve grows_settle grows_finish grows_lane grows_durable grows_prepare grows_new_attempt : executor.

(** C2: the executor always comes to an end.  With as many passes as four times
    the attempt limit plus the size of the pool plus one, the loop of [execute]
    has returned a response or raised an exception: whatever the providers
    answer, whatever the clocks show, and even if they stand still. *)
Theorem execute_terminates `{Runtime} `{ToolLedgerOps T} `{AttemptStoreOps A} adapters fuel r pool strategy deadline_ms keys
    requirements (ex : GatewayExecutor T A) n :
  (4 * (max_total_attempts (ex_policy ex) + length (endpoints_for_pool pool (capability_registry (router ex))) + 1) <= fuel)%nat ->
  out_res (execute adapters fuel r pool strategy deadline_ms keys requirements ex n) <> Ok None.
Proof.
  intros Hf. destruct (execute_unfold adapters fuel r pool strategy deadline_ms keys requirements ex n) as (d & req & Hx & _).
  rewrite Hx. set (w := {| self := ex; vars := initial_locals r |}).
  pose proof (loop_ends adapters fuel d pool strategy req keys w (S n)) as Hl.
  assert (passes pool w < fuel)%nat as Hp.
  { pose proof (fresh_le pool w) as Hfr. unfold passes, budget_of, cap_of, total_of, registry_of in *. cbn in *. lia. }
  specialize (Hl Hp). destruct (out_res (execute_loop adapters fuel d pool strategy req keys w (S n))) as [[[resp dec]|]|x]; congruence.
Qed.

(** The two-endpoint run of the demonstration gateway. *)
Lemma execute_terminates_witness : out_res demo_run <> Ok None.
Proof. apply execute_terminates. vm_compute. lia. Defined.

(** Requests never raise the shared attempt limit.  Whatever a request goes
    through, rate-limit waits included, and however it ends, the executor's
    policy object is afterwards exactly what it was. *)
Theorem execute_keeps_policy `{Runtime} `{ToolLedgerOps T} `{AttemptStoreOps A} adapters fuel r pool strategy deadline_ms keys
    requirements (ex : GatewayExecutor T A) n :
  ex_policy (out_st (execute adapters fuel r pool strategy deadline_ms keys requirements ex n)) = ex_policy ex.
Proof.
  destruct (execute_unfold adapters fuel r pool strategy deadline_ms keys requirements ex n) as (d & req & _ & Hs).
  rewrite Hs. apply loop_keeps_policy.
Qed.
