(* ===== verification/ExecutorSafety.v ===== *)
(** * Correctness of the executor: what is handed to the client

    Whatever providers answer, a response that [execute] returns is one that a
    provider gave with HTTP 200, that passed the sanity checks, and all of whose
    tool calls were validated, repaired if need be, and checked against the tool
    ledger.  The ledger is used through its interface ([ToolLedgerLaws]). *)

From stdpp Require Import base tactics list gmap strings.
From Stdlib Require Import QArith Qround Lqa.
From S2P Require Import Prelude Json Models PyText Execution Metrics Breaker Registry Profile Telemetry Requirements RoutingStores Router RouterProps ToolLedger IR Context ToolValidation ToolValidationProps ResponseValidation Classifier Interfaces LedgerLaws Executor ExecutorDemo ExecutorProps.

Section safety.
Context {R : Runtime} {T A : Type} `{TL : ToolLedgerOps T} `{!ToolLedgerLaws T} `{AS : AttemptStoreOps A}.
Context (adapters : odict string ProviderAdapter).
Implicit Types w : Run T A.

(** ** What never changes during a request *)

Definition config (e : GatewayExecutor T A) : CapabilityRegistry * ToolCallValidator * ResponseValidator :=
  (capability_registry (router e), ex_tool_validator e, response_validator e).
Definition topic (v : Locals) : list NormalizedToolDefinition * string := (tools (request v), request_id (request v)).
Definition steady w0 w : Prop := config (self w) = config (self w0) /\ topic (vars w) = topic (vars w0).

Section from.
Context (w0 : Run T A).
Local Abbreviation G := (steady w0).

Lemma steady_self (f : GatewayExecutor T A -> GatewayExecutor T A) :
  (forall e, config (f e) = config e) -> preserves G (upd_self f).
Proof. intros Hf. apply preserves_modify. intros w [H1 H2]. split; [cbn; by rewrite Hf | done]. Qed.
Lemma steady_vars (f : Locals -> Locals) : (forall v, topic (f v) = topic v) -> preserves G (upd_vars f).
Proof. intros Hf. apply preserves_modify. intros w [H1 H2]. split; [done | cbn; by rewrite Hf]. Qed.
Lemma steady_part {B U} (g : GatewayExecutor T A -> U) (p : U -> GatewayExecutor T A -> GatewayExecutor T A) (m : M exn U B) :
  (forall u e, config (p u e) = config e) -> preserves G (on_self (zoom g p m)).
Proof.
  intros Hp. apply preserves_zoom_inner with (Q := fun e => config e = config (self w0)); [by intros w [] | by intros e w [] |].
  apply preserves_zoom. intros u e He. by rewrite Hp.
Qed.
Lemma steady_router {B} (m : M exn CapabilityRouter B) :
  (forall C, preserves (fun r => capability_registry r = C) m) -> preserves G (on_router m).
Proof.
  intros Hm. apply preserves_zoom_inner with (Q := fun e => config e = config (self w0)); [by intros w [] | by intros e w [] |].
  apply preserves_zoom_inner with (Q := fun r => capability_registry r = capability_registry (router (self w0))); [| |done].
  - by intros e [= ? ? ?].
  - intros r e [= ? ? ?] Hr. unfold config. cbn. congruence.
Qed.
Lemma steady_budget {B} (m : M exn BudgetReservationStore B) : preserves G (on_budget m).
Proof. by apply steady_part. Qed.
Lemma steady_keys {B} (m : M exn KeyRotationPool B) : preserves G (on_keys m).
Proof. by apply steady_part. Qed.
Lemma steady_tools {B} (m : M exn T B) : preserves G (on_tools m).
Proof. by apply steady_part. Qed.
Lemma steady_store (m : M exn A unit) : preserves G (on_attempt_store m).
Proof.
  intros w n Hw. unfold on_attempt_store. destruct (attempt_store (self w)) as [st|]; [|done].
  destruct (m st n) as [[r st'] n']. by destruct Hw.
Qed.
Lemma steady_ledger {B} (m : M exn LedgerState B) : preserves G (on_ledger m).
Proof. apply preserves_zoom. by intros s w []. Qed.
Lemma steady_exclude id : preserves G (exclude id).
Proof. by apply steady_vars. Qed.
Lemma steady_exclude_once id : preserves G (exclude_once id).
Proof. apply steady_vars. intros v. by case_bool_decide. Qed.
Lemma steady_sleep q : preserves G (sleep q).
Proof. by apply steady_self. Qed.
Lemma steady_pool c : preserves G (on_pool_manager c).
Proof. apply steady_self. intros e. by destruct (has_pool_manager e). Qed.
Lemma steady_breaker {B} e (m : M exn (CircuitBreaker * option unit) B) : preserves G (breaker_call e m).
Proof. apply steady_router. eauto with executor. Qed.
Lemma steady_health {B} (m : M exn HealthTelemetryStore B) : preserves G (health_call m).
Proof. apply steady_router. eauto with executor. Qed.
Lemma steady_uuid : preserves G (read_uuid : M exn (Run T A) string).
Proof. by intros w n Hw. Qed.
End from.
#[local] Hint Resolve steady_budget steady_keys steady_tools steady_store steady_ledger steady_exclude steady_exclude_once
  steady_sleep steady_pool steady_breaker steady_health steady_uuid : executor.

Ltac steadily :=
  preserve; repeat first
    [ apply preserves_catch; [|intros ?]; preserve
    | solve [eauto with executor]
    | solve [apply steady_router; eauto with executor]
    | solve [apply steady_vars; intros ?; done]
    | solve [apply steady_self; intros ?; done] ].

Lemma steady_lane w0 e f : preserves (steady w0) (record_lane_outcome e f).
Proof. unfold record_lane_outcome. steadily. Qed.
Lemma steady_settle w0 r q : preserves (steady w0) (settle_reservation r q).
Proof. unfold settle_reservation. steadily. Qed.
Lemma steady_finish w0 b s f a : preserves (steady w0) (finish b s f a).
Proof. unfold finish. steadily. Qed.
Lemma steady_durable w0 a s d : preserves (steady w0) (finish_durable_attempt a s d).
Proof. unfold finish_durable_attempt. steadily. Qed.
Lemma steady_prepare w0 a : preserves (steady w0) (prepare_durable_attempt a).
Proof. unfold prepare_durable_attempt. steadily. Qed.
#[local] Hint Resolve steady_lane steady_settle steady_finish steady_durable steady_prepare : executor.
Lemma steady_call w0 e i tc : preserves (steady w0) (process_tool_call e i tc).
Proof. unfold process_tool_call. steadily. Qed.
Lemma steady_calls w0 e i tcs : preserves (steady w0) (process_tool_calls e i tcs).
Proof. revert i. induction tcs as [|tc tcs IH]; intros i; cbn [process_tool_calls]; preserve; auto using steady_call. Qed.
Lemma steady_complete w0 pool req e p ad r d rv a : preserves (steady w0) (complete pool req e p ad r d rv a).
Proof. unfold complete. steadily. Qed.
#[local] Hint Resolve steady_calls steady_complete : executor.
Lemma steady_judge w0 pool req e p ad r x rv q a : preserves (steady w0) (judge pool req e p ad r x rv q a).
Proof. unfold judge, accept. steadily. Qed.
Lemma steady_billing w0 pool e f : preserves (steady w0) (record_billing pool e f).
Proof. unfold record_billing. steadily. Qed.
#[local] Hint Resolve steady_judge steady_billing : executor.
Lemma steady_fallback w0 pool e f : preserves (steady w0) (step_fallback pool e f).
Proof. unfold step_fallback. steadily. Qed.
Lemma steady_failed w0 pool e x f r q a : preserves (steady w0) (record_failed_attempt pool e x f r q a).
Proof. unfold record_failed_attempt. steadily. Qed.
Lemma steady_rotate w0 k x f r q a : preserves (steady w0) (rotate_key k x f r q a).
Proof. unfold rotate_key. steadily. Qed.
#[local] Hint Resolve steady_fallback steady_failed steady_rotate : executor.
Lemma steady_decide w0 d pool e p f : preserves (steady w0) (decide_next d pool e p f).
Proof. unfold decide_next. steadily. Qed.
Lemma steady_adapt w0 e p : preserves (steady w0) (adapt e p).
Proof. unfold adapt. steadily. Qed.
Lemma steady_note w0 d e r c : preserves (steady w0) (note_failover d e r c).
Proof. unfold note_failover. steadily. Qed.
Lemma steady_await w0 d pool : preserves (steady w0) (await_rollover d pool).
Proof. unfold await_rollover. steadily. Qed.
Lemma steady_reserve w0 req p e a : preserves (steady w0) (reserve_budget req p e a).
Proof. unfold reserve_budget. steadily. Qed.
Lemma steady_admission w0 e r : preserves (steady w0) (admission e r).
Proof. unfold admission. steadily. Qed.
Lemma steady_dispatch w0 pool e ad pr t r q a : preserves (steady w0) (dispatch pool e ad pr t r q a).
Proof. unfold dispatch. steadily. Qed.
Lemma steady_new_attempt w0 e c : preserves (steady w0) (new_attempt e c).
Proof. unfold new_attempt. steadily. Qed.
#[local] Hint Resolve steady_decide steady_adapt steady_note steady_await steady_reserve steady_admission steady_dispatch
  steady_new_attempt : executor.
Lemma steady_attempt w0 d pool req keys e dec r c : preserves (steady w0) (attempt_endpoint adapters d pool req keys e dec r c).
Proof. unfold attempt_endpoint. steadily. Qed.
Lemma steady_iteration w0 d pool st req keys : preserves (steady w0) (iteration adapters d pool st req keys).
Proof. unfold iteration. steadily. apply steady_attempt. Qed.

(** ** Tool calls *)

(** The operation has no submission that awaits its acknowledgement. *)
Definition resolved (rid : string) (tc : NormalizedToolCall) w : Prop :=
  ~ unresolved (tool_ledger (self w)) rid (tc_name tc) (tc_arguments tc).
Definition replayed (tc : NormalizedToolCall) : Prop :=
  od_get "replayed" (tc_metadata tc) = Some (JBool true) /\ is_Some (od_get "execution_receipt" (tc_metadata tc)).

(** What the client gets for a provider's call [tc0]: the same tool, an
    identifier (the provider's own if it gave one), arguments that conform to the
    schema, and an operation that is replayed from its receipt or not pending. *)
Definition handed (ts : list NormalizedToolDefinition) (rid : string) w (tc0 tc : NormalizedToolCall) : Prop :=
  callable ts tc /\ tc_name tc = tc_name tc0 /\ truthy (tc_id tc) = true /\
  (truthy (tc_id tc0) = true -> tc_id tc = tc_id tc0) /\ (replayed tc \/ resolved rid tc0 w).

(** Bookkeeping of the ledger keeps operations resolved; the rest leaves the
    ledger alone. *)
Lemma resolved_tools {B} rid tc (m : M exn T B) :
  preserves (fun t => ~ unresolved t rid (tc_name tc) (tc_arguments tc)) m -> preserves (resolved rid tc) (on_tools m).
Proof.
  intros Hm. apply preserves_zoom_inner with (Q := fun e => ~ unresolved (tool_ledger e) rid (tc_name tc) (tc_arguments tc)); [done | done|].
  by apply preserves_zoom_inner with (Q := fun t => ~ unresolved t rid (tc_name tc) (tc_arguments tc)).
Qed.
Lemma ledger_alone_health {B} (t : T) (m : M exn HealthTelemetryStore B) : preserves (fun w => tool_ledger (self w) = t) (health_call m).
Proof. apply preserves_zoom_inner with (Q := fun e => tool_ledger e = t); [done | done|]. by apply preserves_zoom. Qed.
Lemma resolved_health {B} rid tc (m : M exn HealthTelemetryStore B) : preserves (resolved rid tc) (health_call m).
Proof. intros w n Hw. unfold resolved in *. by rewrite (ledger_alone_health (tool_ledger (self w)) m w n eq_refl). Qed.
#[local] Hint Resolve resolved_health : executor.

Lemma minted_truthy rid a i tc : truthy (minted_id rid a i tc) = true.
Proof. unfold minted_id. by destruct (truthy (tc_id tc)) eqn:E. Qed.
Lemma minted_own rid a i tc : truthy (tc_id tc) = true -> minted_id rid a i tc = tc_id tc.
Proof. unfold minted_id. by intros ->. Qed.

(** The ledger part of a call: what is resolved stays resolved, and unless the
    call is replayed its own operation is found resolved. *)
Lemma receipt_step rid key tc (receipt : bool * option json) w n tc1 w' n' :
  (if fst receipt then
     on_tools (tl_mark_replayed key (default JNull (snd receipt))) ;;
     mret (with_metadata "execution_receipt" (default JNull (snd receipt)) (with_metadata "replayed" (JBool true) tc))
   else
     ind ← on_tools (tl_has_indeterminate_operation rid (tc_name tc) (tc_arguments tc));
     if ind : bool then
       on_tools (tl_mark_indeterminate key "A prior submission has no durable acknowledgement") ;;
       raise (IndeterminateToolOperationError rid (tc_name tc))
     else mret tc) w n = (Ok tc1, w', n') ->
  (forall rid0 tc0, resolved rid0 tc0 w -> resolved rid0 tc0 w') /\ tc_name tc1 = tc_name tc /\ tc_id tc1 = tc_id tc /\
  (replayed tc1 \/ resolved rid tc w').
Proof.
  destruct (fst receipt); intros H.
  - apply bind_inv in H as ([] & w1 & n1 & H1 & [= <- <- _]). split_and!; [|done | done|].
    + intros rid0 tc0 Hr. exact (preserves_run _ _ _ _ _ _ _ (resolved_tools _ _ _ (replayed_keeps_resolved _ _ _ _ _)) H1 Hr).
    + left. split; [|eexists; apply od_get_set_eq]. cbn. by rewrite od_get_set_ne, od_get_set_eq.
  - apply bind_inv in H as (b & w1 & n1 & H1 & H). unfold on_tools, on_self in H1.
    apply zoom_inv in H1 as (ex & H1 & ->). apply zoom_inv in H1 as (t & H1 & ->). apply indeterminate_exact in H1 as [-> Hb].
    destruct b; [by apply bind_inv in H as (? & ? & ? & _ & ?)|]. injection H as <- <- _. split_and!; [done.. |].
    right. unfold resolved. cbn. intros Hu. apply Hb in Hu. done.
Qed.

Lemma call_handed e i tc w n tc' w' n' :
  schemas_wf (tools (request (vars w))) -> process_tool_call e i tc w n = (Ok (Some tc'), w', n') ->
  (forall rid0 tc0, resolved rid0 tc0 w -> resolved rid0 tc0 w') /\
  handed (tools (request (vars w))) (request_id (request (vars w))) w' tc tc'.
Proof.
  unfold process_tool_call. intros Hwf H. apply bind_inv in H as (? & ? & ? & [= <- <- <-] & H). cbv zeta in H.
  set (tc1 := with_id _ tc) in H.
  apply bind_inv in H as ([] & w1 & n1 & H1 & H). apply bind_inv in H as (receipt & w2 & n2 & H2 & H).
  apply bind_inv in H as (tc2 & w3 & n3 & H3 & H). apply receipt_step in H3 as (Hk3 & Hnm & Hid & Hres).
  apply bind_inv in H as (report & w4 & n4 & H4 & H). injection H4 as Hrep <- <-. apply bind_inv in H as ([] & w5 & n5 & H5 & H).
  destruct (is_executable report) eqn:Hx; apply bind_inv in H as ([] & w6 & n6 & H6 & H); [|done].
  assert (Hkeep : forall rid0 tc0, (resolved rid0 tc0 w -> resolved rid0 tc0 w3) /\ (resolved rid0 tc0 w3 -> resolved rid0 tc0 w6)).
  { intros rid0 tc0. split; intros Hr.
    - apply Hk3. eapply (preserves_run _ _ _ _ _ _ _ (resolved_tools _ _ _ (check_keeps_resolved _ _ _ _ _ _)) H2).
      exact (preserves_run _ _ _ _ _ _ _ (resolved_tools _ _ _ (register_keeps_resolved _ _ _ _ _ _ _)) H1 Hr).
    - eapply (preserves_run _ _ _ _ _ _ _ (resolved_tools _ _ _ (validated_keeps_resolved _ _ _ _)) H6).
      exact (preserves_run _ _ _ _ _ _ _ (resolved_health _ _ _) H5 Hr). }
  injection H as <- <- _. split; [intros; by apply Hkeep, Hkeep|].
  pose proof (report_callable _ _ _ _ _ tc2 _ _ _ Hwf Hrep Hx) as Hc.
  assert (Hr : replayed tc2 \/ resolved (request_id (request (vars w))) tc w6).
  { destruct Hres as [Hres|Hres]; [by left | right]. by apply Hkeep in Hres. }
  unfold handed. destruct (normalizations_applied report) as [|x l].
  - split_and!; [done | done | cbn; rewrite Hid; apply minted_truthy | cbn; rewrite Hid; apply minted_own | done].
  - split_and!; [done | done | cbn; rewrite Hid; apply minted_truthy | cbn; rewrite Hid; apply minted_own |].
    destruct Hr as [[Hr1 Hr2]|Hr]; [left | by right]. split; cbn; by rewrite od_get_set_ne.
Qed.

Lemma handed_kept ts rid w w' tc tc' :
  (forall rid0 tc0, resolved rid0 tc0 w -> resolved rid0 tc0 w') -> handed ts rid w tc tc' -> handed ts rid w' tc tc'.
Proof. intros Hk (? & ? & ? & ? & Hr). split_and!; try done. destruct Hr; [by left | right; by apply Hk]. Qed.

Lemma calls_handed e i tcs w n l w' n' :
  schemas_wf (tools (request (vars w))) -> process_tool_calls e i tcs w n = (Ok (Some l), w', n') ->
  (forall rid0 tc0, resolved rid0 tc0 w -> resolved rid0 tc0 w') /\
  Forall2 (handed (tools (request (vars w))) (request_id (request (vars w))) w') tcs l.
Proof.
  revert i w n l w' n'. induction tcs as [|tc tcs IH]; intros i w n l w' n' Hwf; cbn [process_tool_calls].
  { intros [= <- <- _]. by split; [|constructor]. }
  intros H. apply bind_inv in H as ([tc'|] & w1 & n1 & H1 & H); [|done].
  assert (steady w w1) as [_ [= Ht Hi]] by exact (preserves_run _ _ _ _ _ _ _ (steady_call w e i tc) H1 (conj eq_refl eq_refl)).
  apply call_handed in H1 as [Hk1 Hh]; [|done]. apply bind_inv in H as ([rest|] & w2 & n2 & H2 & H); [|done].
  injection H as <- <- _. apply IH in H2 as [Hk2 Hf]; [|by rewrite Ht]. rewrite Ht, Hi in Hf.
  split; [auto|]. constructor; [|done]. by eapply handed_kept.
Qed.

(** ** Accepted answers *)

(** Everything but the tool ledger's own methods leaves it alone. *)
Lemma alone_part {B U} t (g : GatewayExecutor T A -> U) (p : U -> GatewayExecutor T A -> GatewayExecutor T A) (m : M exn U B) :
  (forall u e, tool_ledger (p u e) = tool_ledger e) -> preserves (fun w => tool_ledger (self w) = t) (on_self (zoom g p m)).
Proof.
  intros Hp. apply preserves_zoom_inner with (Q := fun e => tool_ledger e = t); [done | done|].
  apply preserves_zoom. intros u e He. by rewrite Hp.
Qed.
Lemma alone_store t (m : M exn A unit) : preserves (fun w => tool_ledger (self w) = t) (on_attempt_store m).
Proof.
  intros w n Hw. unfold on_attempt_store. destruct (attempt_store (self w)) as [st|]; [|done]. by destruct (m st n) as [[r st'] n'].
Qed.
Lemma alone_complete t pool req e p ad r d rv a :
  preserves (fun w => tool_ledger (self w) = t) (complete pool req e p ad r d rv a).
Proof.
  unfold complete, record_lane_outcome, settle_reservation, finish, finish_durable_attempt. preserve;
    try solve [by apply alone_part | by apply alone_store | by apply preserves_zoom].
  apply preserves_modify. intros w Hw. cbn. by destruct (has_pool_manager (self w)).
Qed.

(** The last record of the request's ledger is the success of [e]. *)
Definition last_succeeded (id : string) w : Prop :=
  exists a, last (attempts (attempt_ledger (vars w))) = Some a /\ ar_success a = true /\ ar_endpoint_id a = id.
Lemma last_store id (m : M exn A unit) : preserves (last_succeeded id) (on_attempt_store m).
Proof.
  intros w n Hw. unfold on_attempt_store. destruct (attempt_store (self w)) as [st|]; [|done]. by destruct (m st n) as [[r st'] n'].
Qed.
Lemma complete_last pool req e p ad r d rv a w n w' n' :
  complete pool req e p ad r d rv a w n = (Ok tt, w', n') -> last_succeeded (ar_endpoint_id a) w'.
Proof.
  unfold complete. intros H. do 5 (apply bind_inv in H as (? & ? & ? & _ & H)).
  apply bind_inv in H as (a' & w1 & n1 & Ha & H). apply bind_inv in Ha as (now & w2 & n2 & _ & [= <- <- _]).
  apply bind_inv in H as ([] & w3 & n3 & Hl & H). injection Hl as <- _.
  match type of H with ?m ?s _ = _ => assert (preserves (last_succeeded (ar_endpoint_id a)) m) as Hp end.
  { cbv zeta. apply preserves_bind; [by intros w4 n4 Hw4 | intros _].
    apply preserves_bind; [destruct rv; [by apply preserves_zoom | apply preserves_ret] | intros _; apply last_store]. }
  refine (preserves_run _ _ _ _ _ _ _ Hp H _). eexists. split; [cbn; apply last_snoc | done].
Qed.

(** How a response came about: an endpoint of the pool answered with HTTP 200,
    the answer is sane, its calls were handed on one by one, and its success is
    the last attempt recorded. *)
Definition answered pool w0 w (resp : NormalizedResponse) : Prop :=
  exists e ad result resp0,
    e ∈ endpoints_for_pool pool (capability_registry (router (self w0))) /\
    get_adapter adapters (ep_provider e) (ep_protocol e) = Ok ad /\
    px_status_code result = 200%Z /\ normalize_response ad e result = Ok resp0 /\
    sane (response_validator (self w0)) resp0 /\ resp = with_tool_calls (resp_tool_calls resp) resp0 /\
    Forall2 (handed (tools (request (vars w0))) (request_id (request (vars w0))) w) (resp_tool_calls resp0) (resp_tool_calls resp) /\
    last_succeeded (ep_id e) w.

Lemma judge_answered w0 pool pool' req e p ad adapted result rv q a w n resp w' n' :
  schemas_wf (tools (request (vars w0))) -> steady w0 w -> ar_endpoint_id a = ep_id e ->
  e ∈ endpoints_for_pool pool (capability_registry (router (self w0))) ->
  get_adapter adapters (ep_provider e) (ep_protocol e) = Ok ad ->
  judge pool' req e p ad adapted result rv q a w n = (Ok (inl resp), w', n') -> answered pool w0 w' resp.
Proof.
  intros Hwf [[= Hc1 Hc2 Hc3] [= Ht Hi]] Ha Hin Had. unfold judge, catch.
  destruct (px_status_code result =? 200)%Z eqn:Hs; [|intros H; by apply bind_inv in H as (? & ? & ? & _ & ?)].
  destruct (accept pool' req e p ad adapted result rv a w n) as [[[x|x] w1] n1] eqn:E.
  2: { intros H. exfalso. destruct x; repeat (apply bind_inv in H as (? & ? & ? & _ & H)); done. }
  intros [= -> -> ->]. unfold accept in E. apply bind_inv in E as (resp0 & w2 & n2 & [= Hn <- <-] & E).
  apply bind_inv in E as (? & ? & ? & [= <- <- <-] & E).
  destruct (check_sanity _ resp0) eqn:Es; [done|]. apply check_sanity_iff in Es. rewrite Hc3 in Es.
  apply bind_inv in E as ([tcs|] & w3 & n3 & Hcalls & E); [|done]. apply bind_inv in E as ([] & w4 & n4 & Hcomp & E).
  injection E as <- <- <-. apply calls_handed in Hcalls as [_ Hf]; [|by rewrite Ht]. rewrite Ht, Hi in Hf.
  exists e, ad, result, resp0. apply Z.eqb_eq in Hs. split_and!; try done.
  - cbn. eapply Forall2_impl; [exact Hf|]. intros tc tc'. apply handed_kept. unfold resolved.
    by rewrite (preserves_run _ _ _ _ _ _ _ (alone_complete (tool_ledger (self w3)) _ _ _ _ _ _ _ _ _) Hcomp eq_refl).
  - rewrite <- Ha. by eapply complete_last.
Qed.

Lemma attempt_answered w0 d pool req keys e dec r c w n resp dec' w' n' :
  schemas_wf (tools (request (vars w0))) -> steady w0 w ->
  e ∈ endpoints_for_pool pool (capability_registry (router (self w0))) ->
  attempt_endpoint adapters d pool req keys e dec r c w n = (Ok (Return resp dec'), w', n') -> answered pool w0 w' resp.
Proof.
  intros Hwf Hw Hin H. unfold attempt_endpoint in H. apply bind_inv in H as (? & ? & ? & [= <- <- <-] & H). cbv zeta in H.
  apply bind_inv in H as (ad & w1 & n1 & [= Had <- <-] & H). apply bind_inv in H as (key & w2 & n2 & H2 & H).
  apply (preserves_run _ _ _ _ _ _ _ (steady_keys w0 _)) in H2 as Hs2; [|done].
  apply bind_inv in H as (pr & w3 & n3 & [= _ <- <-] & H). apply bind_inv in H as (ts & w4 & n4 & H4 & H).
  apply (preserves_run _ _ _ _ _ _ _ (preserves_timeout (steady w0) _ _ _ _)) in H4 as Hs4; [|done].
  apply bind_inv in H as (a & w5 & n5 & H5 & H).
  apply (preserves_run _ _ _ _ _ _ _ (steady_new_attempt w0 _ _)) in H5 as Hs5; [|done].
  assert (ar_endpoint_id a = ep_id e) as Ha.
  { unfold new_attempt in H5. apply bind_inv in H5 as (? & ? & ? & _ & H5). apply bind_inv in H5 as (? & ? & ? & _ & H5).
    by injection H5 as <- _ _. }
  apply bind_inv in H as ([rid|] & w6 & n6 & H6 & H); [|done].
  apply (preserves_run _ _ _ _ _ _ _ (steady_reserve w0 _ _ _ _)) in H6 as Hs6; [|done].
  apply bind_inv in H as ([|] & w7 & n7 & H7 & H); [|done].
  apply (preserves_run _ _ _ _ _ _ _ (steady_admission w0 _ _)) in H7 as Hs7; [|done].
  apply bind_inv in H as ([] & w8 & n8 & H8 & H).
  apply (preserves_run _ _ _ _ _ _ _ (steady_prepare w0 _)) in H8 as Hs8; [|done].
  apply bind_inv in H as (result & w9 & n9 & H9 & H).
  apply (preserves_run _ _ _ _ _ _ _ (steady_dispatch w0 _ _ _ _ _ _ _ _)) in H9 as Hs9; [|done].
  apply bind_inv in H as ([resp0|f] & w10 & n10 & H10 & H).
  - injection H as <- _ <- _. by eapply judge_answered.
  - apply bind_inv in H as (? & ? & ? & _ & H). by apply bind_inv in H as (? & ? & ? & _ & ?).
Qed.

Lemma iteration_answered w0 d pool st req keys w n resp dec w' n' :
  schemas_wf (tools (request (vars w0))) -> steady w0 w ->
  iteration adapters d pool st req keys w n = (Ok (Return resp dec), w', n') -> answered pool w0 w' resp.
Proof.
  intros Hwf Hw H. unfold iteration in H. apply bind_inv in H as ([] & w1 & n1 & H1 & H).
  assert (steady w0 w1) as Hw1 by (by injection H1 as <- _). apply bind_inv in H as ([] & w2 & n2 & H2 & H).
  apply (preserves_run _ _ _ _ _ _ _ (preserves_check (steady w0) _ _)) in H2 as Hw2; [|done].
  apply bind_inv in H as (? & ? & ? & [= <- <- <-] & H). apply bind_inv in H as ([sel dec0] & w3 & n3 & H3 & H).
  apply (preserves_run _ _ _ _ _ _ _ (steady_router w0 _ (fun C => fixed_select C _ _ _ _ _ _ _ _))) in H3 as Hw3; [|done].
  cbn [fst snd] in H. destruct sel as [e|].
  2: { exfalso. unfold await_rollover in H. apply bind_inv in H as (? & ? & ? & _ & H). destruct (collect_limited _ _).
       apply bind_inv in H as (? & ? & ? & _ & H). cbv zeta in H. destruct (_ && _ && _); [|done].
       by do 5 (apply bind_inv in H as (? & ? & ? & _ & H)). }
  apply select_candidate_fresh in H3 as [Hin _].
  assert (registry_of w2 = capability_registry (router (self w0))) as Hreg by (by destruct Hw2 as [[= ? ? ?] _]).
  rewrite Hreg in Hin.
  apply bind_inv in H as ([|] & w4 & n4 & H4 & H); [|done].
  assert (steady w0 w4) as Hw4 by (eapply preserves_run; [|exact H4 | exact Hw3]; steadily).
  apply bind_inv in H as (? & ? & ? & [= <- <- <-] & H). apply bind_inv in H as ([[r c]|] & w5 & n5 & H5 & H); [|done].
  apply (preserves_run _ _ _ _ _ _ _ (steady_adapt w0 _ _)) in H5 as Hw5; [|done].
  apply bind_inv in H as ([] & w6 & n6 & H6 & H).
  apply (preserves_run _ _ _ _ _ _ _ (steady_note w0 _ _ _ _)) in H6 as Hw6; [|done].
  by eapply attempt_answered.
Qed.

Lemma loop_answered w0 fuel d pool st req keys w n resp dec w' n' :
  schemas_wf (tools (request (vars w0))) -> steady w0 w ->
  execute_loop adapters fuel d pool st req keys w n = (Ok (Some (resp, dec)), w', n') -> answered pool w0 w' resp.
Proof.
  intros Hwf. revert w n. induction fuel as [|fuel IH]; intros w n Hw H; [done|]. cbn [execute_loop] in H.
  apply bind_inv in H as (x & w1 & n1 & H1 & H).
  apply (preserves_run _ _ _ _ _ _ _ (preserves_expired (steady w0) _ _)) in H1 as Hw1; [|done].
  apply bind_inv in H as (? & ? & ? & [= <- <- <-] & H). destruct (x || _); [done|].
  apply bind_inv in H as (o & w2 & n2 & H2 & H).
  apply (preserves_run _ _ _ _ _ _ _ (steady_iteration w0 _ _ _ _ _)) in H2 as Hw2; [|done].
  destruct o as [|resp1 dec1]; [by eapply IH|]. injection H as <- <- <- <-. exact (iteration_answered w0 _ _ _ _ _ _ _ _ _ _ _ Hwf Hw1 H2).
Qed.
End safety.

(** C1: what the client receives.  When [execute] returns, with any provider
    behaviour, clocks, ledger and store, then an endpoint of the pool answered
    with HTTP 200 and its success is the last attempt of the returned ledger; the
    answer is not empty and within the size limit; and the response is that
    answer with every tool call, in order, validated: of a tool of the request,
    with arguments that conform to its schema, with an identifier, and of an
    operation that is either replayed from its receipt or has no submission
    awaiting acknowledgement in the ledger. *)
Theorem execute_answer_sound `{Runtime} `{ToolLedgerOps T} `{!ToolLedgerLaws T} `{AttemptStoreOps A} adapters fuel r pool
    strategy deadline_ms keys requirements (ex ex' : GatewayExecutor T A) n n' resp dec ledger :
  schemas_wf (tools r) ->
  execute adapters fuel r pool strategy deadline_ms keys requirements ex n = (Ok (Some (resp, dec, ledger)), ex', n') ->
  exists e ad result resp0 a,
    e ∈ endpoints_for_pool pool (capability_registry (router ex)) /\
    get_adapter adapters (ep_provider e) (ep_protocol e) = Ok ad /\
    px_status_code result = 200%Z /\ normalize_response ad e result = Ok resp0 /\
    last (attempts ledger) = Some a /\ ar_success a = true /\ ar_endpoint_id a = ep_id e /\
    sane (response_validator ex) resp0 /\ resp = with_tool_calls (resp_tool_calls resp) resp0 /\
    Forall2 (fun tc0 tc =>
      callable (tools r) tc /\ tc_name tc = tc_name tc0 /\ truthy (tc_id tc) = true /\
      (truthy (tc_id tc0) = true -> tc_id tc = tc_id tc0) /\
      (replayed tc \/ ~ unresolved (tool_ledger ex') (request_id r) (tc_name tc0) (tc_arguments tc0)))
      (resp_tool_calls resp0) (resp_tool_calls resp).
Proof.
  intros Hwf He. destruct (execute_unfold adapters fuel r pool strategy deadline_ms keys requirements ex n) as (d & req & Hr & Hs).
  rewrite He in Hr, Hs. unfold out_res at 1 in Hr. unfold out_st at 1 in Hs. cbn [fst snd] in Hr, Hs.
  set (w0 := {| self := ex; vars := initial_locals r |}) in *.
  destruct (execute_loop adapters fuel d pool strategy req keys w0 (S n)) as [[[[[resp1 dec1]|]|x] w'] n1] eqn:El; try done.
  cbn in Hr, Hs. simplify_eq.
  destruct (loop_answered adapters w0 _ _ _ _ _ _ _ _ _ _ _ _ Hwf (conj eq_refl eq_refl) El)
    as (e & ad & result & resp0 & ? & ? & ? & ? & ? & ? & Hf & a & ? & ? & ?).
  exists e, ad, result, resp0, a. split_and!; done.
Qed.

(** A provider whose call needs the repair of its arguments. *)
Definition demo_tools : list NormalizedToolDefinition :=
  [{| td_name := "move"; td_description := ""; td_parameters := Demo.schema; td_cache_control := None |}].
Definition demo_tool_run :=
  execute [("groq", demo_adapter (fun _ => answer 200 "") [{| tc_id := ""; tc_name := "move"; tc_arguments := JObj Demo.sloppy;
                                                             raw_arguments := ""; tc_metadata := [] |}])]
    60 (demo_request demo_tools) "coding" (Some "priority") 300000 [] None
    (demo_executor [demo_endpoint "a" "groq" "llama" 1 []] (new_breaker_registry None)) 0%nat.

Lemma execute_answer_sound_witness :
  match out_res demo_tool_run with
  | Ok (Some (resp, _, _)) => map tc_arguments (resp_tool_calls resp) = [JObj Demo.good] /\ Forall (callable demo_tools) (resp_tool_calls resp)
  | _ => False
  end.
Proof.
  assert (match out_res demo_tool_run with
          | Ok (Some (resp, _, _)) => map tc_arguments (resp_tool_calls resp) = [JObj Demo.good] | _ => False end) as Hc
    by (vm_compute; exact eq_refl).
  assert (schemas_wf (tools (demo_request demo_tools))) as Hwf by (constructor; [by apply Demo.schema_wf | constructor]).
  destruct demo_tool_run as [[[[[[resp dec] l]|]|x] ex'] n'] eqn:E; [|done..].
  destruct (execute_answer_sound _ _ _ _ _ _ _ _ _ _ _ _ _ _ _ Hwf E)
    as (_ & _ & _ & resp0 & _ & _ & _ & _ & _ & _ & _ & _ & _ & _ & Hf).
  split; [exact Hc|]. clear E Hc. induction Hf as [|tc0 tc l1 l2 Hh]; constructor; [apply Hh | done].
Defined.
