(* ===== verification/ExecutorRuns.v ===== *)
(** * Two executor runs

    Requests on a small gateway whose outcome is not what the code intends: a
    rotation of API keys that uses up the probe permits of a breaker, and two
    different malformed tool calls that share one receipt. *)

From stdpp Require Import base tactics list gmap strings.
From Stdlib Require Import QArith Qround.
From S2P Require Import Prelude Json Models PyText Execution Metrics Breaker BreakerProps Registry Profile Telemetry Requirements RoutingStores Router ToolLedger IR Context ToolValidation ResponseValidation Classifier Interfaces Executor SqliteStore ExecutorDemo.

(** ** Key rotation in HALF_OPEN *)

(** A registry whose breaker tripped on ten failures. *)
Definition tripped (id : string) : CircuitBreakerRegistry :=
  out_st (for_each (replicate 10 tt) (fun _ => on_breaker id (record_failure breaker_clock 10 None None)) (new_breaker_registry None) 0%nat).

Definition keyed_endpoint : Endpoint := demo_endpoint "a" "groq" "llama" 1 ["GROQ"].

(** Three keys, two of which are rate-limited; the breaker's wait is over. *)
Definition rotation_run : res exn (option (NormalizedResponse * RoutingDecision * AttemptLedger)) *
    GatewayExecutor ToolExecutionLedger Database * nat :=
  execute [("groq", demo_adapter (fun key => if String.eqb key "good" then answer 200 "fine" else answer 429 "rate limit") [])]
    60 (demo_request []) "coding" (Some "priority") 300000 [("GROQ", "bad1,good,bad2")] None
    (demo_executor [keyed_endpoint] (tripped (resource_key keyed_endpoint))) (Z.to_nat 40000).

(** Rotating keys wedges a recovering breaker.  An endpoint has a good key,
    its breaker is due for probing, and the first two keys tried are
    rate-limited.  Each rotation takes a probe permit that nobody returns, so
    the good key is never used, the request fails after its three waits, and the
    breaker stays HALF_OPEN with every permit in flight and refuses every call at
    every later reading of the clock. *)
Theorem rotation_wedges_breaker :
  out_res rotation_run = Raise (NoHealthyRouteError "coding") /\ length (sleeps (out_st rotation_run)) = 3%nat /\
  exists b, od_get (resource_key keyed_endpoint) (breakers (breaker_registry (router (out_st rotation_run)))) = Some b /\
    bstate b = HALF_OPEN /\ half_open_in_flight b = half_open_max_calls (Breaker.config b) /\
    forall n, out_res (acquire_permission breaker_clock (b, None : option unit) n) = Raise (ProbeAdmissionDeniedError (breaker_id b)).
Proof.
  assert (match od_get (resource_key keyed_endpoint) (breakers (breaker_registry (router (out_st rotation_run)))) with
          | Some b => (bstate b, half_open_in_flight b, half_open_max_calls (Breaker.config b)) = (HALF_OPEN, 2%nat, 2%nat)
          | None => False end) as Hb by (vm_compute; exact eq_refl).
  split; [vm_compute; exact eq_refl|]. split; [vm_compute; exact eq_refl|].
  destruct (od_get _ _) as [b|]; [|done]. injection Hb as Hs Hi Hm. exists b. rewrite Hi, Hm. split_and!; [done.. |].
  intros n. rewrite exhausted_refuses; cbn; congruence.
Qed.

(** ** Receipts of malformed calls *)

(** A runtime whose hash tells the two argument objects apart. *)
Definition path_args (p : string) : json := JObj [("path", JStr p)].
#[local] Instance repair_runtime : Runtime := {|
  wall n := Qnat n; mono n := (Qnat n / 1000)%Q; breaker_clock n := (Qnat n / 1000)%Q; draws _ := 1 # 2; uuids := py_str_nat; environ _ := None;
  dumps _ := "{}"; dumps_sorted j := match j with JObj [(_, JStr p)] => p | _ => "{}" end; dumps_indent _ := "{}";
  loads _ := None; loads_lax _ := None;
  literal_eval s := if String.eqb s "{'path': 'a'}" then Some (path_args "a")
                    else if String.eqb s "{'path': 'b'}" then Some (path_args "b") else None;
  float_str _ := ""; sha256 s := s; parse_http_date _ := None; describe _ := text_error "exception"; render _ := "invalid" |}.

(** What the codecs make of arguments that are not JSON: an empty object. *)
Definition malformed_call (raw : string) : NormalizedToolCall :=
  {| tc_id := "c"; tc_name := "remove"; tc_arguments := JObj []; raw_arguments := raw; tc_metadata := [] |}.
Definition remove_tools : list NormalizedToolDefinition :=
  [{| td_name := "remove"; td_description := ""; td_parameters := JObj []; td_cache_control := None |}].
Definition remove_run (raw : string) (ex : GatewayExecutor ToolExecutionLedger Database) (n : nat) :=
  execute [("groq", demo_adapter (fun _ => answer 200 "") [malformed_call raw])]
    60 (demo_request remove_tools) "coding" (Some "priority") 300000 [] None ex n.
Definition first_remove := remove_run "{'path': 'a'}"
  (demo_executor [demo_endpoint "a" "groq" "llama" 1 []] (new_breaker_registry None)) 0%nat.
(** The client runs the call it was handed and commits the receipt. *)
Definition committed_executor : GatewayExecutor ToolExecutionLedger Database :=
  set_tool_ledger (out_st (mark_committed (fun n => Qnat n) (fun n => Qnat n) "req1:att1:c" (JStr "removed a")
    (tool_ledger (out_st first_remove)) 100%nat)) (out_st first_remove).
Definition second_remove := remove_run "{'path': 'b'}" committed_executor 200%nat.

Definition returned_calls {X} (o : res exn (option (NormalizedResponse * RoutingDecision * AttemptLedger)) * X * nat)
    : list (json * option json) :=
  match out_res o with
  | Ok (Some (resp, _, _)) => map (fun tc => (tc_arguments tc, od_get "execution_receipt" (tc_metadata tc))) (resp_tool_calls resp)
  | _ => []
  end.

(** With well-formed arguments the two removals are told apart. *)
Definition formed_remove : res exn (option (NormalizedResponse * RoutingDecision * AttemptLedger)) *
    GatewayExecutor ToolExecutionLedger Database * nat :=
  execute [("groq", demo_adapter (fun _ => answer 200 "") [{| tc_id := "c"; tc_name := "remove"; tc_arguments := path_args "b";
                                                              raw_arguments := ""; tc_metadata := [] |}])]
    60 (demo_request remove_tools) "coding" (Some "priority") 300000 [] None committed_executor 200%nat.
Example formed_calls_differ : returned_calls formed_remove = [(path_args "b", None)].
Proof. vm_compute. exact eq_refl. Qed.

(** A repaired call can be answered with another call's receipt.  The
    ledger keys a call by the arguments the codec parsed, which are empty for
    every malformed text, while the client receives the repaired arguments: after
    the removal of [a] was committed, the removal of [b] in the same logical
    request is returned as already executed, with the receipt of [a], although
    the two argument objects have different hashes. *)
Theorem malformed_calls_share_receipt :
  returned_calls first_remove = [(path_args "a", None)] /\
  returned_calls second_remove = [(path_args "b", Some (JStr "removed a"))] /\
  compute_arguments_hash dumps_sorted sha256 (path_args "a") <> compute_arguments_hash dumps_sorted sha256 (path_args "b").
Proof. split_and!; [vm_compute; exact eq_refl.. | vm_compute; discriminate]. Qed.
