(* ===== verification/ExecutorStream.v ===== *)
(** * Native streams

    [src/durallm/execution/executor.py]: [open_native_stream], the failover loop
    that ends when the first bytes of a provider are in hand, and
    [NativeStreamHandle], which relays the rest and reports the outcome once.

    A provider's stream is what its iterator will yield and how it ends.  The
    handle works on the executor it came from and on the ledger of its call.
    [lane_store.set_available(None)], for an endpoint without a lane, stores an
    entry that nothing reads, and is dropped. *)

From stdpp Require Import base tactics list gmap strings.
From Stdlib Require Import QArith Qround.
From S2P Require Import Prelude Json Models PyText Execution Metrics Breaker Registry Profile Telemetry Requirements RoutingStores Router ToolLedger IR Context ToolValidation ResponseValidation Classifier Interfaces Executor.

(** ** Streams *)

(** What stops a stream: a [ProviderStreamError] has a phase. *)
Record stream_break : Type := { sb_phase : option string; sb_error : error_value }.
Definition provider_break (phase text : string) : stream_break :=
  {| sb_phase := Some phase;
     sb_error := {| err_str := text; err_type := "ProviderStreamError"; err_status_code := None; err_code := None;
                    err_response_status := None; err_body := None |} |}.
(** [GeneratorExit], raised inside the handle when its consumer closes it. *)
Definition generator_exit : stream_break :=
  {| sb_phase := None;
     sb_error := {| err_str := ""; err_type := "GeneratorExit"; err_status_code := None; err_code := None;
                    err_response_status := None; err_body := None |} |}.

Record byte_script : Type := { script_chunks : list string; script_end : option stream_break }.

(** [ProviderStreamResult] *)
Record opened_stream : Type := {
  os_status_code : Z;
  os_headers : odict string string;
  os_duration_ms : Q;
  os_body : string;
  os_stream : option byte_script;
}.

(** An adapter of the streaming path; not every adapter has [open_stream]. *)
Record StreamAdapter : Type := {
  stream_prepare : Endpoint -> NormalizedRequest -> string -> res exn PreparedRequest;
  stream_open : option (PreparedRequest -> TransportTimeouts -> nat -> res exn opened_stream);
}.

Record NativeStreamHandle : Type := {
  h_first_chunk : string;
  h_rest : byte_script;
  h_endpoint : Endpoint;
  h_decision : RoutingDecision;
  h_attempt : AttemptRecord;
  h_vars : Locals;
  h_finished : bool;
}.

Definition with_ttft (q : Q) (a : AttemptRecord) : AttemptRecord :=
  {| attempt_id := attempt_id a; ar_request_id := ar_request_id a; ar_operation_id := ar_operation_id a;
     ar_provider := ar_provider a; ar_model := ar_model a; ar_endpoint_id := ar_endpoint_id a;
     ar_attempt_index := ar_attempt_index a; ar_fallback_index := ar_fallback_index a; ar_start_time := ar_start_time a;
     ar_end_time := ar_end_time a; ar_latency_ms := ar_latency_ms a; ar_ttft_ms := Some q; ar_status_code := ar_status_code a;
     ar_success := ar_success a; ar_failure := ar_failure a; ar_compacted := ar_compacted a |}.

(** ** Requirements and budgets *)

(** The requirement vector of a streamed request. *)
Definition stream_requirements (r : NormalizedRequest) (pool : string) (est : Z) (ph : string) : RequirementVector :=
  let b := default_requirements in
  {| require_tools := false;
     require_parallel_tools := require_parallel_tools b; require_structured_output := require_structured_output b;
     require_vision := require_vision b; require_reasoning := require_reasoning b;
     minimum_context_tokens := minimum_context_tokens b; maximum_cost_usd := maximum_cost_usd b;
     latency_budget_ms := latency_budget_ms b; task_class := if String.eqb pool "coding" then "coding" else "general";
     allowed_providers := allowed_providers b; forbidden_providers := forbidden_providers b;
     estimated_input_tokens := est; expected_output_tokens := oz_or (req_max_output_tokens r) 4096;
     Requirements.safety_margin_tokens := Requirements.safety_margin_tokens b;
     allow_context_compaction := allow_context_compaction b; required_region := required_region b;
     required_compliance := required_compliance b; allow_external_traffic := allow_external_traffic b;
     require_verified_capabilities := require_verified_capabilities b; minimum_quality_score := minimum_quality_score b;
     allow_quality_degradation := allow_quality_degradation b; budget_scope := budget_scope b;
     budget_limit_usd := budget_limit_usd b; prefix_hash := Some ph |}.

(** Output size and window for one candidate, with the fixed margin. *)
Definition stream_budget (p : ModelProfile) (max_output : option Z) (est_in : Z) : ContextBudget :=
  let max_supported_out := z_or (max_output_tokens p) 4096 in
  let desired_output := Z.min (oz_or max_output max_supported_out) max_supported_out in
  let desired_output :=
    if (context_window p - 2048 - desired_output <? est_in)%Z && (1024 <? desired_output)%Z
    then Z.max 1024 (Z.min desired_output (context_window p - 2048 - est_in)) else desired_output in
  {| model_context_window := context_window p; desired_output_tokens := desired_output; Context.safety_margin_tokens := 2048 |}.

(** [_streaming_prepared_request] *)
Definition streaming_prepared_request (dumps : json -> string) (loads : string -> option json) (p : PreparedRequest) : res exn PreparedRequest :=
  match loads (pr_body p) with
  | Some (JObj fs) =>
      Ok {| pr_url := pr_url p; pr_headers := od_set "Accept" "text/event-stream" (pr_headers p);
            pr_body := dumps (JObj (od_set "stream" (JBool true) fs)); pr_method := pr_method p |}
  | _ => Raise ConfigurationError
  end.

(** The next element of the iterator: a chunk and the rest, or how it ended. *)
Definition next_chunk (s : byte_script) : (string * byte_script) + option stream_break :=
  match script_chunks s with
  | c :: cs => inl (c, {| script_chunks := cs; script_end := script_end s |})
  | [] => inr (script_end s)
  end.

Definition is_timeout_phase (p : string) : bool := existsb (String.eqb p) ["idle"; "total"; "first_byte"].

Inductive stream_outcome : Type :=
| Again
| Opened (h : NativeStreamHandle).

Section native_stream.
Context {R : Runtime} {T A : Type} `{TL : ToolLedgerOps T} `{AS : AttemptStoreOps A}.
Context (adapters : odict string StreamAdapter).
Local Abbreviation X := (M exn (Run T A)).
Abbreviation tokens := (fun r => Z.of_nat (estimate_tokens dumps r)).

(** [excluded_endpoints.append(id); last_failure_reason = why; continue] *)
Definition pass_over (e : Endpoint) (why : string) : X unit :=
  exclude (ep_id e) ;; upd_vars (set_last_failure (Some why)).

(** ** Before the dispatch *)

(** Candidate validation and breaker admission: whether to go on. *)
Definition stream_admission (e : Endpoint) : X bool :=
  catch (on_ledger (validate_next_candidate (ep_id e)) ;; breaker_call e (acquire_permission breaker_clock) ;; mret true) (fun _ => true)
    (fun x => pass_over e (if is_BreakerOpenError x || match x with ProbeAdmissionDeniedError _ => true | _ => false end
                           then "breaker_admission_denied" else "stream_route_rejected") ;;
              mret false).

(** The adapted request, or [None] after excluding the candidate. *)
Definition stream_adapt (e : Endpoint) (p : ModelProfile) : X (option (NormalizedRequest * bool)) :=
  w ← get;
  let req := request (vars w) in
  let budget := stream_budget p (req_max_output_tokens req) (tokens req) in
  match compact dumps dumps_indent loads (preserve_tail_turns (self w)) req budget with
  | Raise (ContextOverflowError _ _) => pass_over e "context_overflow" ;; mret None
  | Raise x => raise x
  | Ok (adapted, was_compacted) => mret (Some (with_max_output (desired_output_tokens budget) adapted, was_compacted))
  end.

(** ** A failed opening *)

Definition stream_billing (pool : string) (e : Endpoint) (f : FailureClassification) : X unit :=
  let wide := account_wide e f in
  retry_sec ← match quota_horizon f with
              | Some q => if Qeqb q 0 then (if wide then calculate_seconds_until_utc_midnight wall else mret 86400) else mret q
              | None => if wide then calculate_seconds_until_utc_midnight wall else mret 86400
              end;
  on_pool_manager (MarkQuotaExhausted pool (last_segment (ep_id e)) retry_sec) ;;
  when wide (on_pool_manager (MarkProviderQuotaExhausted pool (ep_provider e) retry_sec)) ;;
  when wide (
    w ← get;
    for_each (endpoints_for_pool pool (capability_registry (router (self w)))) (fun e' =>
      when (String.eqb (py_lower (ep_provider e')) (py_lower (ep_provider e))) (exclude_once (ep_id e')))).

Definition record_open_failure (pool : string) (e : Endpoint) (status : Z) (f : FailureClassification) (a : AttemptRecord) : X unit :=
  a ← finish false status (Some f) a;
  breaker_call e (record_failure breaker_clock (ar_latency_ms a) None (Some f)) ;;
  health_call (health_record_failure wall mono (ep_id e) (ar_latency_ms a) None (str_take 160 (fc_message f)) None (quota_horizon f) (fc_is_permanent f)) ;;
  when (bool_decide (fc_reason f = billing)) (stream_billing pool e f) ;;
  when (fc_is_permanent f || bool_decide (fc_reason f = model_not_found)) (
    on_router (mark_dead wall (ep_id e) (ep_provider e) (ep_model e) (str_take 160 (fc_message f))) ;;
    on_pool_manager (MarkDeprecated pool (ep_model e)) ;;
    exclude_once (ep_id e)) ;;
  record_lane_outcome e (Some f) ;;
  on_ledger (record_attempt a) ;;
  finish_durable_attempt a "stream_open_failed" (fc_message f) ;;
  upd_vars (set_last_failure (Some (FailoverReason_value (fc_reason f)))).

(** Giving up on an endpoint. *)
Definition stream_fallback (pool : string) (e : Endpoint) (f : FailureClassification) : X unit :=
  match cooldown_horizon f with
  | Some cd =>
      health_call (health_record_failure wall mono (ep_id e) 0 None "" (Some cd) None false) ;;
      on_pool_manager (MarkCooldown pool (ep_id e) cd)
  | None => mret tt
  end ;;
  exclude (ep_id e) ;;
  on_ledger mark_fallback.

(** Retry the endpoint after a backoff, or fall back. *)
Definition after_open_failure (d : Deadline) (pool : string) (e : Endpoint) (f : FailureClassification) : X unit :=
  if negb (fc_should_fallback f) then raise (NonRecoverableFailureError (ep_id e)) else
  w ← get;
  if fc_retryable f && can_attempt_endpoint (ep_id e) (ledger_state w) then
    u ← read_clock draws;
    let backoff := compute_backoff_seconds u (retry (ex_policy (self w)))
                     (Z.of_nat (attempts_on (ep_id e) (attempt_ledger (vars w)))) (fc_retry_after_seconds f) in
    rem ← remaining_ms mono d;
    if backoff ≺ (rem / 1000)%Q then
      sleep backoff ;;
      match lane_key e with Some lane => on_router (on_lanes (set_available lane)) | None => mret tt end
    else stream_fallback pool e f
  else stream_fallback pool e f.

(** The first bytes of an opened stream, or the failure that keeps it invisible:
    the error, the status it counts as, and the headers. *)
Definition first_bytes (result : opened_stream) : (string * byte_script) + (error_value * Z * odict string string) :=
  match os_stream result with
  | Some s =>
      if (os_status_code result =? 200)%Z then
        match next_chunk s with
        | inl (c, rest) =>
            if truthy c then inl (c, rest) else inr (text_error "provider returned an empty stream", 502%Z, os_headers result)
        | inr None => inr (sb_error (provider_break "first_byte" "provider closed an empty stream"), 597%Z, os_headers result)
        | inr (Some b) => inr (sb_error b, match sb_phase b with Some _ => 597%Z | None => 502%Z end, os_headers result)
        end
      else inr (text_error (os_body result), os_status_code result, os_headers result)
  | None => inr (text_error (os_body result), os_status_code result, os_headers result)
  end.

(** ** One pass, and the loop *)

Definition stream_attempt (d : Deadline) (pool : string) (keys : odict string string) (e : Endpoint) (decision : RoutingDecision)
    (p : ModelProfile) : X stream_outcome :=
  adapted ← stream_adapt e p;
  match adapted with
  | None => mret Again
  | Some (adapted, was_compacted) =>
      ad ← lift (get_adapter adapters (ep_provider e) (ep_protocol e));
      match stream_open ad with
      | None => pass_over e "adapter_has_no_native_stream" ;; mret Again
      | Some open =>
          key ← on_keys (dispatch_key wall e keys);
          plain ← lift (stream_prepare ad e adapted (fst key));
          prepared ← lift (streaming_prepared_request dumps loads plain);
          a ← new_attempt e was_compacted;
          prepare_durable_attempt a ;;
          timeouts ← transport_timeouts mono d true;
          result ← (fun w n => (open prepared timeouts n, w, S n));
          match first_bytes result with
          | inl (c, rest) =>
              now ← read_clock mono;
              let a := with_ttft (py_max (os_duration_ms result) ((now - ar_start_time a) * 1000)) a in
              on_pool_manager (RecordRouteSuccess pool (ep_id e)) ;;
              w ← get;
              mret (Opened {| h_first_chunk := c; h_rest := rest; h_endpoint := e; h_decision := decision; h_attempt := a;
                              h_vars := vars w; h_finished := false |})
          | inr (err, status, headers) =>
              f ← classify_failure wall parse_http_date err (Some status) headers;
              record_open_failure pool e status f a ;;
              after_open_failure d pool e f ;;
              mret Again
          end
      end
  end.

Definition stream_iteration (d : Deadline) (pool : string) (strategy : option string) (req : RequirementVector)
    (keys : odict string string) (client_protocol : string) : X stream_outcome :=
  upd_vars (fun v => set_attempt_idx (S (attempt_idx v)) v) ;;
  check mono d ;;
  w ← get;
  sel ← on_router (select_candidate wall breaker_clock req pool strategy (request_id (request (vars w)))
                     (excluded_endpoints (vars w)) (last_failure_reason (vars w)));
  match fst sel with
  | None => _ ← await_rollover d pool; mret Again
  | Some e =>
      if negb (String.eqb (ep_protocol e) client_protocol) then pass_over e "stream_protocol_mismatch" ;; mret Again else
      w ← get;
      let p := profile_of e w in
      if negb (supports_streaming p) then pass_over e "streaming_not_supported" ;; mret Again else
      admitted ← stream_admission e;
      if admitted : bool then stream_attempt d pool keys e (snd sel) p else mret Again
  end.

(** The [while] loop; [None] when the fuel is spent. *)
Fixpoint stream_loop (fuel : nat) (d : Deadline) (pool : string) (strategy : option string) (req : RequirementVector)
    (keys : odict string string) (client_protocol : string) : X (option NativeStreamHandle) :=
  match fuel with
  | O => mret None
  | S fuel' =>
      expired ← is_expired mono d;
      w ← get;
      if expired || (max_total_attempts (ex_policy (self w)) <=? total_attempts (attempt_ledger (vars w)))%nat
      then raise (NoHealthyRouteError pool)
      else
        o ← stream_iteration d pool strategy req keys client_protocol;
        match o with
        | Opened h => mret (Some h)
        | Again => stream_loop fuel' d pool strategy req keys client_protocol
        end
  end.

(** [open_native_stream] *)
Definition open_native_stream (fuel : nat) (r : NormalizedRequest) (pool : string) (strategy : option string)
    (keys : odict string string) (client_protocol : string) (deadline_ms : Q)
    : M exn (GatewayExecutor T A) (option NativeStreamHandle) := fun ex n =>
  let m : X (option NativeStreamHandle) :=
    match tools r with
    | _ :: _ => raise ConfigurationError
    | [] =>
        d ← new_deadline mono environ deadline_ms;
        let req := stream_requirements r pool (tokens r) (compute_prefix_hash dumps_sorted sha256 r) in
        stream_loop fuel d pool strategy req keys client_protocol
    end in
  let '(o, w, n') := m {| self := ex; vars := initial_locals r |} n in (o, self w, n').

(** ** The handle *)

(** [_finish_success], [_finish_failure] *)
Definition finish_success (h : NativeStreamHandle) : X unit :=
  if h_finished h then mret tt else
  a ← finish true 200 None (h_attempt h);
  breaker_call (h_endpoint h) (record_success breaker_clock (ar_latency_ms a)) ;;
  health_call (health_record_success wall (ep_id (h_endpoint h)) (ar_latency_ms a) None) ;;
  record_lane_outcome (h_endpoint h) None ;;
  on_ledger (record_attempt a) ;;
  finish_durable_attempt a "stream_succeeded" "".
Definition finish_failure (h : NativeStreamHandle) (b : stream_break) : X unit :=
  if h_finished h then mret tt else
  let phase := default "connection" (sb_phase b) in
  let status := if is_timeout_phase phase then 597%Z else 598%Z in
  f ← classify_failure wall parse_http_date (text_error (err_str (sb_error b))) (Some status) [];
  a ← finish false status (Some f) (h_attempt h);
  breaker_call (h_endpoint h) (record_failure breaker_clock (ar_latency_ms a) None (Some f)) ;;
  health_call (health_record_failure wall mono (ep_id (h_endpoint h)) (ar_latency_ms a) None (str_take 160 (fc_message f)) (Some 30) None false) ;;
  record_lane_outcome (h_endpoint h) (Some f) ;;
  on_ledger (record_attempt a) ;;
  finish_durable_attempt a "stream_interrupted" (err_str (sb_error b)).

(** What the consumer is handed: the chunks in order, up to where it closes the
    iterator after some of them, and what ended the iteration. *)
Definition relayed (h : NativeStreamHandle) (closed_after : option nat) : list string * option stream_break :=
  let all := h_first_chunk h :: filter (fun c => truthy c = true) (script_chunks (h_rest h)) in
  match closed_after with
  | Some k => if (k <=? length all)%nat then (take k all, Some generator_exit) else (all, script_end (h_rest h))
  | None => (all, script_end (h_rest h))
  end.

(** The iterator is spent and closed. *)
Definition finished_handle (v : Locals) (h : NativeStreamHandle) : NativeStreamHandle :=
  {| h_first_chunk := h_first_chunk h; h_rest := {| script_chunks := []; script_end := None |}; h_endpoint := h_endpoint h;
     h_decision := h_decision h; h_attempt := h_attempt h; h_vars := v; h_finished := true |}.

(** [iter_bytes]: the chunks handed on, the error the consumer sees, the handle
    afterwards.  A generator that is closed before its first chunk was asked for
    has run nothing. *)
Definition handle_iter_bytes (h : NativeStreamHandle) (closed_after : option nat)
    : M exn (GatewayExecutor T A) (list string * option stream_break * NativeStreamHandle) := fun ex n =>
  if bool_decide (closed_after = Some 0%nat) then (Ok ([], None, h), ex, n) else
  let '(chunks, ending) := relayed h closed_after in
  let m : X unit := match ending with Some b => finish_failure h b | None => finish_success h end in
  let '(r, w, n') := m {| self := ex; vars := h_vars h |} n in
  match r with
  | Ok _ => (Ok (chunks, ending, finished_handle (vars w) h), self w, n')
  | Raise x => (Raise x, self w, n')
  end.

(** [cancel]: the token makes the next turn of the provider's iterator raise. *)
Definition handle_cancel (reason : string) (h : NativeStreamHandle) : NativeStreamHandle :=
  if h_finished h then h else
  {| h_first_chunk := h_first_chunk h;
     h_rest := {| script_chunks := []; script_end := Some (provider_break "cancelled" (if truthy reason then reason else "stream cancelled")) |};
     h_endpoint := h_endpoint h; h_decision := h_decision h; h_attempt := h_attempt h; h_vars := h_vars h; h_finished := h_finished h |}.
End native_stream.
