(* ===== verification/ExecutorFrame.v ===== *)
(** * What the executor leaves alone

    The executor reaches its collaborators through a fixed set of calls.  [Stable I]
    says that each of them keeps the predicate [I] on runs; the lemmas lift it to
    everything the executor does outside its budget store, and, with [Unbudgeted],
    to whole requests, opened streams and the handles of streams. *)

From stdpp Require Import base tactics list gmap strings.
From Stdlib Require Import QArith Qround.
From S2P Require Import Prelude Json Models PyText Execution Metrics Breaker Registry Profile Telemetry Requirements RoutingStores Router ToolLedger IR Context ToolValidation ResponseValidation Classifier Interfaces Executor ExecutorProps ExecutorStream.

Section frame.
Context {R : Runtime} {T A : Type} `{TL : ToolLedgerOps T} `{AS : AttemptStoreOps A}.
Implicit Types (I : Run T A -> Prop) (w : Run T A).

(** The calls, one field each. *)
Class Stable I : Prop := {
  st_vars f : preserves I (upd_vars f);
  st_ledger B (m : M exn LedgerState B) : preserves I (on_ledger m);
  st_sleep q : preserves I (sleep q);
  st_note ev : preserves I (upd_self (add_notification ev));
  st_global c : preserves I (upd_self (add_pool_call c));
  st_manager c : preserves I (on_pool_manager c);
  st_keys B (m : M exn KeyRotationPool B) : preserves I (on_keys m);
  st_tools B (m : M exn T B) : preserves I (on_tools m);
  st_store m : preserves I (on_attempt_store m);
  st_lanes B (m : M exn (odict string ResourceLaneStatus) B) : preserves I (on_router (on_lanes m));
  st_cache B (m : M exn PromptCacheTracker B) : preserves I (on_router (on_cache m));
  st_well id d t : preserves I (health_call (health_record_success wall id d t));
  st_ill id d c m cd q p : preserves I (health_call (health_record_failure wall mono id d c m cd q p));
  st_tool id b : preserves I (health_call (health_record_tool_outcome wall id b));
  st_dead id p m r : preserves I (on_router (mark_dead wall id p m r));
  st_select req pool st rid ex fb : preserves I (on_router (select_candidate wall breaker_clock req pool st rid ex fb));
  st_acquire e : preserves I (breaker_call e (acquire_permission breaker_clock));
  st_success e d : preserves I (breaker_call e (record_success breaker_clock d));
  st_failure e d x c : preserves I (breaker_call e (record_failure breaker_clock d x c));
}.
Class Unbudgeted I : Prop := unbudgeted : forall B (m : M exn BudgetReservationStore B), preserves I (on_budget m).

Create HintDb frame discriminated.
Hint Resolve st_vars st_ledger st_sleep st_note st_global st_manager st_keys st_tools st_store st_lanes st_cache st_well st_ill st_tool st_dead
  st_select st_acquire st_success st_failure : frame.
Hint Resolve preserves_lift preserves_classify preserves_remaining preserves_check preserves_expired
  preserves_timeout preserves_midnight preserves_reading : frame.
Ltac steady := preserve; repeat first [ apply preserves_catch; [|intros ?]; preserve | solve [eauto with frame] ].

Section kept.
Context (I : Run T A -> Prop) `{HI : !Stable I}.

Lemma kept_uuid : preserves I (read_uuid : M exn (Run T A) string).
Proof. by intros w n Hw. Qed.
Lemma kept_exclude id : preserves I (exclude id).
Proof. apply st_vars. Qed.
Lemma kept_exclude_once id : preserves I (exclude_once id).
Proof. apply st_vars. Qed.
Hint Resolve kept_uuid kept_exclude kept_exclude_once : frame.
Lemma kept_finish b s f a : preserves I (finish b s f a).
Proof. unfold finish. steady. Qed.
Lemma kept_lane e f : preserves I (record_lane_outcome e f).
Proof. unfold record_lane_outcome. steady. Qed.
Lemma kept_durable a s d : preserves I (finish_durable_attempt a s d).
Proof. unfold finish_durable_attempt. steady. Qed.
Lemma kept_prepare a : preserves I (prepare_durable_attempt a).
Proof. unfold prepare_durable_attempt. steady. Qed.
Lemma kept_adapt e p : preserves I (adapt e p).
Proof. unfold adapt. steady. Qed.
Lemma kept_note d e r c : preserves I (note_failover d e r c).
Proof. unfold note_failover. steady. Qed.
Lemma kept_new_attempt e c : preserves I (new_attempt e c).
Proof. unfold new_attempt. steady. Qed.
Lemma kept_await d pool : preserves I (await_rollover d pool).
Proof. unfold await_rollover. steady. Qed.
Hint Resolve kept_finish kept_lane kept_durable kept_prepare kept_adapt kept_note kept_new_attempt kept_await : frame.
Lemma kept_tool_call e i tc : preserves I (process_tool_call e i tc).
Proof. unfold process_tool_call. steady. Qed.
Lemma kept_tool_calls e i tcs : preserves I (process_tool_calls e i tcs).
Proof. revert i. induction tcs as [|tc tcs IH]; intros i; cbn [process_tool_calls]; preserve; auto using kept_tool_call. Qed.
Lemma kept_billing pool e f : preserves I (record_billing pool e f).
Proof. unfold record_billing. steady. Qed.
Lemma kept_fallback pool e f : preserves I (step_fallback pool e f).
Proof. unfold step_fallback. steady. Qed.
Hint Resolve kept_tool_calls kept_billing kept_fallback : frame.
Lemma kept_decide d pool e p f : preserves I (decide_next d pool e p f).
Proof. unfold decide_next. steady. Qed.
Hint Resolve kept_decide : frame.

(** Streams reserve no budget. *)
Lemma kept_pass_over e why : preserves I (pass_over e why).
Proof. unfold pass_over. steady. Qed.
Lemma kept_timeouts d b : preserves I (transport_timeouts mono d b).
Proof. unfold transport_timeouts, make_transport_timeouts. steady. Qed.
Lemma kept_stream_billing pool e f : preserves I (stream_billing pool e f).
Proof. unfold stream_billing. steady. Qed.
Lemma kept_stream_fallback pool e f : preserves I (stream_fallback pool e f).
Proof. unfold stream_fallback. steady. Qed.
Hint Resolve kept_pass_over kept_timeouts kept_stream_billing kept_stream_fallback : frame.
Lemma kept_stream_adapt e p : preserves I (stream_adapt e p).
Proof. unfold stream_adapt. steady. Qed.
Lemma kept_open_failure pool e s f a : preserves I (record_open_failure pool e s f a).
Proof. unfold record_open_failure. steady. Qed.
Lemma kept_after_failure d pool e f : preserves I (after_open_failure d pool e f).
Proof. unfold after_open_failure. steady. Qed.
Lemma kept_stream_admission e : preserves I (stream_admission e).
Proof. unfold stream_admission. steady. Qed.
Hint Resolve kept_stream_adapt kept_open_failure kept_after_failure kept_stream_admission : frame.
Context (streams : odict string StreamAdapter).
Lemma kept_stream_attempt d pool keys e dec p : preserves I (stream_attempt streams d pool keys e dec p).
Proof. unfold stream_attempt. steady. Qed.
Hint Resolve kept_stream_attempt : frame.
Lemma kept_stream_iteration d pool st req keys proto : preserves I (stream_iteration streams d pool st req keys proto).
Proof. unfold stream_iteration. steady. Qed.
Lemma kept_stream_loop fuel d pool st req keys proto : preserves I (stream_loop streams fuel d pool st req keys proto).
Proof. induction fuel as [|fuel IH]; cbn [stream_loop]; steady; apply kept_stream_iteration. Qed.
Lemma kept_finish_success h : preserves I (finish_success h).
Proof. unfold finish_success. steady. Qed.
Lemma kept_finish_failure h b : preserves I (finish_failure h b).
Proof. unfold finish_failure. steady. Qed.
End kept.

Hint Resolve kept_uuid kept_exclude kept_exclude_once kept_finish kept_lane kept_durable kept_prepare kept_adapt kept_note
  kept_new_attempt kept_await kept_tool_calls kept_billing kept_fallback kept_decide : frame.

(** Requests, when the budget store does not matter either. *)
Section requests.
Context (I : Run T A -> Prop) `{HI : !Stable I} `{HB : !Unbudgeted I} (adapters : odict string ProviderAdapter).
Hint Resolve unbudgeted : frame.

Lemma kept_settle r q : preserves I (settle_reservation r q).
Proof. unfold settle_reservation. steady. Qed.
Hint Resolve kept_settle : frame.
Lemma kept_reserve req p e a : preserves I (reserve_budget req p e a).
Proof. unfold reserve_budget. steady. Qed.
Lemma kept_admission e r : preserves I (admission e r).
Proof. unfold admission. steady. Qed.
Lemma kept_dispatch pool e ad pr t r q a : preserves I (dispatch pool e ad pr t r q a).
Proof. unfold dispatch. steady. Qed.
Lemma kept_complete pool req e p ad r d rv a : preserves I (complete pool req e p ad r d rv a).
Proof. unfold complete. steady. Qed.
Hint Resolve kept_reserve kept_admission kept_dispatch kept_complete : frame.
Lemma kept_judge pool req e p ad r x rv q a : preserves I (judge pool req e p ad r x rv q a).
Proof. unfold judge, accept. steady. Qed.
Lemma kept_rotate k x f r q a : preserves I (rotate_key k x f r q a).
Proof. unfold rotate_key. steady. Qed.
Lemma kept_failed pool e x f r q a : preserves I (record_failed_attempt pool e x f r q a).
Proof. unfold record_failed_attempt. steady. Qed.
Hint Resolve kept_judge kept_rotate kept_failed : frame.
Lemma kept_attempt d pool req keys e dec r c : preserves I (attempt_endpoint adapters d pool req keys e dec r c).
Proof. unfold attempt_endpoint. steady. Qed.
Hint Resolve kept_attempt : frame.
Lemma kept_iteration d pool st req keys : preserves I (iteration adapters d pool st req keys).
Proof. unfold iteration. steady. Qed.
Lemma kept_loop fuel d pool st req keys : preserves I (execute_loop adapters fuel d pool st req keys).
Proof. induction fuel as [|fuel IH]; cbn [execute_loop]; steady; apply kept_iteration. Qed.
End requests.

(** ** Methods of the executor *)

(** A predicate on the executor alone, as one on runs. *)
Definition of_self (P : GatewayExecutor T A -> Prop) (w : Run T A) : Prop := P (self w).

Section methods.
Context (P : GatewayExecutor T A -> Prop) `{HI : !Stable (of_self P)}.
Lemma kept_execute `{!Unbudgeted (of_self P)} adapters fuel r pool st dl keys reqs : preserves P (execute adapters fuel r pool st dl keys reqs).
Proof.
  intros ex n Hex. destruct (execute_unfold adapters fuel r pool st dl keys reqs ex n) as (d & req & _ & ->).
  by apply (kept_loop (of_self P)).
Qed.
Lemma kept_open streams fuel r pool st keys proto dl : preserves P (open_native_stream streams fuel r pool st keys proto dl).
Proof.
  intros ex n Hex. unfold open_native_stream. destruct (tools r) as [|t ts]; [|done].
  assert (exists d, new_deadline mono environ dl {| self := ex; vars := initial_locals r |} n = (Ok d, {| self := ex; vars := initial_locals r |}, S n))
    as [d Hd] by (eexists; reflexivity).
  erewrite bind_ok by exact Hd. cbv beta zeta. set (req := stream_requirements _ _ _ _).
  pose proof (kept_stream_loop (of_self P) streams fuel d pool st req keys proto {| self := ex; vars := initial_locals r |} (S n) Hex) as H.
  destruct (stream_loop streams fuel d pool st req keys proto _ (S n)) as [[o w] n']. exact H.
Qed.
Lemma kept_iter h closed : preserves P (handle_iter_bytes h closed).
Proof.
  intros ex n Hex. unfold handle_iter_bytes. case_bool_decide; [done|]. destruct (relayed h closed) as [chunks ending].
  assert (preserves (of_self P) (match ending with Some b => finish_failure h b | None => finish_success h end)) as Hm
    by (destruct ending; [apply (kept_finish_failure (of_self P)) | apply (kept_finish_success (of_self P))]).
  specialize (Hm {| self := ex; vars := h_vars h |} n Hex).
  destruct (match ending with Some b => finish_failure h b | None => finish_success h end {| self := ex; vars := h_vars h |} n) as [[[u|x] w] n']; exact Hm.
Qed.
End methods.
End frame.
#[export] Hint Resolve st_vars st_ledger st_sleep st_note st_global st_manager st_keys st_tools st_store st_lanes st_cache st_well st_ill st_tool st_dead
  st_select st_acquire st_success st_failure : frame.
#[export] Hint Resolve preserves_lift preserves_classify preserves_remaining preserves_check preserves_expired
  preserves_timeout preserves_midnight preserves_reading : frame.
#[export] Hint Resolve kept_uuid kept_exclude kept_exclude_once kept_finish kept_lane kept_durable kept_prepare kept_adapt kept_note
  kept_new_attempt kept_await kept_tool_calls kept_billing kept_fallback kept_decide : frame.
Ltac steady := preserve; repeat first [ apply preserves_catch; [|intros ?]; preserve | solve [eauto with frame] ].
