(* ===== verification/ExecutorInvariants.v ===== *)
(** * Invariants of the running gateway

    The components' invariants hold in the composed system: over any history of
    requests and streams the breakers stay within their state machine, the
    telemetry adds up, and no budget reservation outlives its request. *)

From stdpp Require Import base tactics list gmap strings relations.
From Stdlib Require Import QArith Qround Lqa.
From S2P Require Import Prelude Json Models PyText Execution Metrics Breaker BreakerSpec BreakerFSM Registry Profile Telemetry Requirements RoutingStores Router RouterProps ToolLedger SqliteStore IR Context ToolValidation ResponseValidation Classifier ClassifierProps Interfaces Executor ExecutorDemo ExecutorProps ExecutorStream ExecutorFrame.

(** ** Breakers and telemetry of the router *)

Definition breaker_ok (cfg : CircuitBreakerConfig) (b : CircuitBreaker) : Prop :=
  config b = cfg /\ fsm_inv (half_open_max_calls cfg) (machine_of b).
Definition breakers_ok (cfg : CircuitBreakerConfig) (r : CircuitBreakerRegistry) : Prop :=
  default_config r = cfg /\ forall id b, od_get id (breakers r) = Some b -> breaker_ok cfg b.

Section registry.
Context (clock : nat -> Q) (cfg : CircuitBreakerConfig).

Lemma run_op_ok o (w : CircuitBreaker * option unit) n : breaker_ok cfg (fst w) -> breaker_ok cfg (fst (fst (BreakerFSM.run_op clock o w n))).
Proof.
  intros [Hc Hi]. destruct (run_op_inv clock o w n) as [Hc' Hr]. rewrite Hc in *. split; [done | by apply Hr].
Qed.
Lemma on_breaker_ok {A} id (m : M exn (CircuitBreaker * option unit) A) :
  (forall w n, breaker_ok cfg (fst w) -> breaker_ok cfg (fst (out_st (m w n)))) -> preserves (breakers_ok cfg) (on_breaker id m).
Proof.
  intros Hm r n [Hd Hr]. unfold on_breaker, get_or_create. mstep.
  assert (exists b r', (match od_get id (breakers r) with
     | Some b => mret b
     | None => modify (put_breaker id (new_breaker id (default (default_config r) None))) ;; mret (new_breaker id (default (default_config r) None))
     end : M exn CircuitBreakerRegistry CircuitBreaker) r n = (Ok b, r', n) /\ breaker_ok cfg b /\ breakers_ok cfg r') as (b & r' & E & Hb & Hr').
  { destruct (od_get id (breakers r)) as [b|] eqn:E; [exists b, r; split_and!; [done | by apply Hr in E | by split]|].
    assert (breaker_ok cfg (new_breaker id (default_config r))) as Hnew by (rewrite Hd; split; [done | apply new_breaker_inv]).
    eexists _, _. split_and!; [reflexivity | exact Hnew|]. split; [done|]. intros id' b'. cbn. destruct (decide (id' = id)) as [->|Hne].
    - rewrite od_get_set_eq. by intros [= <-].
    - rewrite od_get_set_ne by done. apply Hr. }
  rewrite E. specialize (Hm (b, None) n Hb). destruct (m (b, None) n) as [[res w] n2]. destruct Hr' as [Hd' Hr']. split; [done|].
  intros id' b'. cbn. destruct (decide (id' = id)) as [->|Hne]; [rewrite od_get_set_eq; by intros [= <-]|].
  rewrite od_get_set_ne by done. apply Hr'.
Qed.
End registry.

Definition telemetry_ok (s : HealthTelemetryStore) : Prop := Forall (fun kv => counters_ok (snd kv)) (snapshots s).
Section telemetry.
Context (wall mono : nat -> Q).
Lemma run_health_counts o : preserves telemetry_ok (run_health wall mono o).
Proof.
  intros s n Hs. enough (all_snaps counters_ok (ema_alpha s) (out_st (run_health wall mono o s n))) as [_ ?] by done.
  assert (all_snaps counters_ok (ema_alpha s) s) as Hall by done. generalize (ema_alpha s) Hall. clear Hs Hall. intros alpha. revert s n.
  change (preserves (all_snaps counters_ok alpha) (run_health wall mono o)).
  assert (forall id p m now, counters_ok (new_snapshot id p m now)) as Hnew by (by repeat split).
  destruct o; cbn [run_health].
  all: try (eapply triple_bind; [by apply get_or_create_spec | intros h | by intros ? ? [_ []]]; intros s n [Hs Hh]; revert s n Hs;
    match goal with |- forall s n, all_snaps ?P ?a s -> all_snaps _ _ (out_st (?m s n)) => change (preserves (all_snaps P a) m) end; preserve).
  all: try (apply mutate_spec; destruct Hh as (H1 & H2 & H3 & H4 & H5); unfold counters_ok, is_cold_start in *; cbn; split_and!; try done; try lia).
  - destruct (error_kind_of status message); lia.
  - destruct success; lia.
  - intros s n [Ha Hs]. split; [done|]. apply Forall_map. eapply Forall_impl; [exact Hs|]. done.
Qed.
Lemma lookup_counts id p m : preserves telemetry_ok (health_get_or_create wall id p m).
Proof.
  intros s n Hs. destruct (get_or_create_spec wall counters_ok (ema_alpha s) id p m) with (s := s) (n := n) as [[_ H] _]; [by repeat split | done | exact H].
Qed.
End telemetry.

(** ** The router *)

Section router.
Context {R : Runtime} (C : CapabilityRegistry) (cfg : CircuitBreakerConfig).
Definition router_ok (r : CapabilityRouter) : Prop :=
  capability_registry r = C /\ breakers_ok cfg (breaker_registry r) /\ telemetry_ok (health_store r).

Lemma ok_lanes {B} (m : M exn (odict string ResourceLaneStatus) B) : preserves router_ok (on_lanes m).
Proof. apply preserves_zoom. by intros ? ? (? & ? & ?). Qed.
Lemma ok_quality {B} (m : M exn ShadowQualityPolicy B) : preserves router_ok (on_quality m).
Proof. apply preserves_zoom. by intros ? ? (? & ? & ?). Qed.
Lemma ok_cache {B} (m : M exn PromptCacheTracker B) : preserves router_ok (on_cache m).
Proof. apply preserves_zoom. by intros ? ? (? & ? & ?). Qed.
Lemma ok_health {B} (m : M exn HealthTelemetryStore B) : preserves telemetry_ok m -> preserves router_ok (on_health m).
Proof. apply preserves_zoom_inner; [by intros ? (? & ? & ?) | by intros ? ? (? & ? & ?) ?]. Qed.
Lemma ok_breaker {B} id (m : M exn (CircuitBreaker * option unit) B) :
  (forall w n, breaker_ok cfg (fst w) -> breaker_ok cfg (fst (out_st (m w n)))) -> preserves router_ok (on_breakers (on_breaker id m)).
Proof. intros Hm. apply preserves_zoom_inner with (Q := breakers_ok cfg); [by intros ? (? & ? & ?) | by intros ? ? (? & ? & ?) ? | by apply on_breaker_ok]. Qed.
Lemma ok_state id : preserves router_ok (on_breakers (on_breaker id (state breaker_clock))).
Proof. apply ok_breaker. intros w n Hw. exact (run_op_ok breaker_clock cfg OpState w n Hw). Qed.
Lemma ok_lookup id p m : preserves router_ok (on_health (health_get_or_create wall id p m)).
Proof. apply ok_health, lookup_counts. Qed.
Lemma ok_dead id p m r : preserves router_ok (on_health (health_mark_dead wall id p m r)).
Proof. apply ok_health, (run_health_counts wall mono (HMarkDead id p m r)). Qed.
Hint Resolve ok_lanes ok_quality ok_cache ok_state ok_lookup ok_dead : frame.

Lemma ok_mark_dead id p m r : preserves router_ok (mark_dead wall id p m r).
Proof. unfold mark_dead. preserve; first [solve [eauto with frame] | by destruct H as (? & ? & ?)]. Qed.
Lemma ok_evaluate req ex e : preserves router_ok (evaluate_endpoint wall breaker_clock req ex e).
Proof. unfold evaluate_endpoint, is_dead, matches_hard_constraints. preserve; eauto with frame. Qed.
Lemma ok_select req pool st rid ex fb : preserves router_ok (select_candidate wall breaker_clock req pool st rid ex fb).
Proof.
  assert (forall es, preserves router_ok (evaluate_all wall breaker_clock req ex es)) as Hall.
  { induction es as [|e es IH]; cbn [evaluate_all]; preserve; auto using ok_evaluate. }
  unfold select_candidate, choose. preserve; first [solve [eauto with frame] | by destruct H as (? & ? & ?)].
Qed.
End router.

(** ** The executor *)

Section executor.
Context {R : Runtime} {T A : Type} `{TL : ToolLedgerOps T} `{AS : AttemptStoreOps A}.
Implicit Types ex : GatewayExecutor T A.

Lemma router_part {B U} (P : CapabilityRouter -> Prop) (g : GatewayExecutor T A -> U) (p : U -> GatewayExecutor T A -> GatewayExecutor T A) (m : M exn U B) :
  (forall u ex, router (p u ex) = router ex) -> preserves (of_self (fun ex => P (router ex))) (on_self (zoom g p m)).
Proof.
  intros Hp. apply preserves_zoom_inner with (Q := fun ex => P (router ex)); [done | done|].
  apply preserves_zoom. intros u ex. by rewrite Hp.
Qed.
Lemma router_inner {B} (P : CapabilityRouter -> Prop) (m : M exn CapabilityRouter B) :
  preserves P m -> preserves (of_self (fun ex => P (router ex))) (on_router m).
Proof.
  intros Hm. apply preserves_zoom_inner with (Q := fun ex => P (router ex)); [done | done|].
  by apply preserves_zoom_inner with (Q := P).
Qed.

Section sound.
Context (C : CapabilityRegistry) (cfg : CircuitBreakerConfig).
Definition executor_ok ex : Prop := router_ok C cfg (router ex).

#[local] Instance executor_stable : Stable (of_self executor_ok).
Proof.
  split; intros; try (by apply (router_part (router_ok C cfg))); try (apply (router_inner (router_ok C cfg))).
  - by intros w n Hw.
  - intros w n Hw. unfold on_ledger, zoom. destruct (m _ n) as [[r s] n']. exact Hw.
  - by intros w n Hw.
  - by intros w n Hw.
  - by intros w n Hw.
  - intros w n Hw. unfold on_pool_manager, upd_self, modify, of_self, out_st in *. cbn. by destruct (has_pool_manager (self w)).
  - intros w n Hw. unfold on_attempt_store. destruct (attempt_store (self w)) as [st|]; [|exact Hw]. destruct (m st n) as [[r st'] n']. exact Hw.
  - apply ok_lanes.
  - apply ok_cache.
  - apply ok_health, (run_health_counts wall mono (HSuccess id d t)).
  - apply ok_health, (run_health_counts wall mono (HFailure id d c m cd q p)).
  - apply ok_health, (run_health_counts wall mono (HTool id b)).
  - apply ok_mark_dead.
  - apply ok_select.
  - apply ok_breaker. intros w n Hw. exact (run_op_ok breaker_clock cfg OpAcquire w n Hw).
  - apply ok_breaker. intros w n Hw. exact (run_op_ok breaker_clock cfg (OpSuccess d) w n Hw).
  - apply ok_breaker. intros w n Hw. exact (run_op_ok breaker_clock cfg (OpFailure d x c) w n Hw).
Qed.
#[local] Instance executor_unbudgeted : Unbudgeted (of_self executor_ok).
Proof. intros B m. by apply (router_part (router_ok C cfg)). Qed.
End sound.
#[local] Existing Instances executor_stable executor_unbudgeted.

(** ** Histories *)

(** Requests, streams that are opened, and streams that are read to any point; each
    may come with other adapters, keys and a later reading of the clocks. *)
Inductive gateway_step : GatewayExecutor T A -> GatewayExecutor T A -> Prop :=
| step_execute adapters fuel r pool st dl keys reqs ex n :
    gateway_step ex (out_st (execute adapters fuel r pool st dl keys reqs ex n))
| step_open streams fuel r pool st keys proto dl ex n :
    gateway_step ex (out_st (open_native_stream streams fuel r pool st keys proto dl ex n))
| step_read h closed ex n : gateway_step ex (out_st (handle_iter_bytes h closed ex n)).

Lemma step_ok C cfg ex ex' : gateway_step ex ex' -> executor_ok C cfg ex -> executor_ok C cfg ex'.
Proof.
  destruct 1; intros Hex.
  - exact (kept_execute (executor_ok C cfg) adapters fuel r pool st dl keys reqs ex n Hex).
  - exact (kept_open (executor_ok C cfg) streams fuel r pool st keys proto dl ex n Hex).
  - exact (kept_iter (executor_ok C cfg) h closed ex n Hex).
Qed.
End executor.

(** ** Claims *)

(** C3: The running gateway keeps its components' invariants.  Over any history of
    requests and streams on a gateway with fresh breakers and telemetry, whatever
    the providers, ledgers, stores and clocks do: no breaker has more probes in
    flight than its configuration allows, METRICS_ONLY is never entered and the
    published transitions are a legal path; the counters of every endpoint add up and
    its rates are probabilities; and the registered endpoints never change. *)
Theorem gateway_state_sound `{Runtime} `{ToolLedgerOps T} `{AttemptStoreOps A} caps cfg alpha (ex ex' : GatewayExecutor T A) :
  router ex = new_router caps (new_breaker_registry (Some cfg)) (new_health_store alpha) -> rtc gateway_step ex ex' ->
  capability_registry (router ex') = caps /\
  (forall id b, od_get id (breakers (breaker_registry (router ex'))) = Some b ->
     (half_open_in_flight b <= half_open_max_calls cfg)%nat /\ bstate b <> METRICS_ONLY /\
     fsm_path CLOSED (map (fun e => (ev_from e, ev_to e)) (journal b)) (bstate b)) /\
  (forall id h, od_get id (snapshots (health_store (router ex'))) = Some h ->
     counters_ok h /\ (0 <= success_rate h <= 1)%Q /\ (0 <= tool_success_rate h <= 1)%Q /\ (0 <= semantic_success_rate h <= 1)%Q).
Proof.
  intros Hr Hrtc. assert (executor_ok caps cfg ex') as (Hc & [_ Hb] & Ht).
  { assert (executor_ok caps cfg ex) as Hex by (unfold executor_ok; rewrite Hr; split_and!; [done | by split | constructor]).
    clear Hr. induction Hrtc as [|x y z Hs _ IH]; [done|]. apply IH. by eapply step_ok. }
  split_and!; [done | |].
  - intros id b Hid. destruct (Hb id b Hid) as [_ (Hf & Hm & Hp & Hj)]. by split_and!.
  - intros id h Hid. apply od_get_In in Hid. apply (proj1 (Forall_forall _ _)) with (x := (id, h)) in Ht; [|exact Hid]. split; [exact Ht | by apply rates_bounded].
Qed.

Definition sound_start : GatewayExecutor ToolExecutionLedger Database :=
  demo_executor [demo_endpoint "a" "groq" "llama" 1 []; demo_endpoint "b" "mistral" "codestral" 2 []] (new_breaker_registry (Some default_breaker_config)).
Definition sound_end : GatewayExecutor ToolExecutionLedger Database :=
  out_st (execute flaky_then_good 60 (demo_request []) "coding" (Some "priority") 300000 [] None sound_start 0%nat).

(** A request that fails on one endpoint and is answered by the other. *)
Lemma gateway_state_sound_witness :
  (exists b, od_get "groq:default:llama:default" (breakers (breaker_registry (router sound_end))) = Some b /\ (half_open_in_flight b <= 2)%nat) /\
  capability_registry (router sound_end) = capability_registry (router sound_start).
Proof.
  destruct (gateway_state_sound (capability_registry (router sound_start)) default_breaker_config (1 # 5) sound_start sound_end) as (H1 & H2 & H3).
  - reflexivity.
  - apply rtc_once. apply step_execute.
  - split; [|exact H1]. destruct (od_get "groq:default:llama:default" (breakers (breaker_registry (router sound_end)))) as [b|] eqn:Hb.
    + exists b. split; [reflexivity | exact (proj1 (H2 _ b Hb))].
    + vm_compute in Hb. discriminate Hb.
Defined.
