(* ===== verification/ExecutorBudget.v ===== *)
(** * No request keeps a reservation

    A request reserves its estimated cost before each attempt and settles or
    releases it afterwards.  Between the two the executor calls the breakers, the
    telemetry, the lanes, the keys, the attempt store, the provider and the tool
    ledger.  [returns] marks the calls that cannot raise; [CalmStore] is what the
    executor needs of an attempt store, and both stores of the program promise it. *)

From stdpp Require Import base tactics list gmap strings.
From Stdlib Require Import QArith Qround Lqa.
From S2P Require Import Prelude Json Models PyText Execution Metrics Breaker BreakerSpec Registry Profile Telemetry Requirements RoutingStores Router ToolLedger SqliteStore ClusterStore IR Context ToolValidation ResponseValidation Classifier ClassifierProps Interfaces Executor ExecutorDemo ExecutorProps ExecutorStream ExecutorFrame.

(** ** Calls that cannot raise *)

Definition returns {E S B} (m : M E S B) : Prop := forall s n, res_ok (out_res (m s n)) = true.

Section returns.
Context {E S : Type}.
Lemma returns_ret {B} (b : B) : returns (mret b : M E S B).
Proof. by intros s n. Qed.
Lemma returns_get : returns (get : M E S S).
Proof. by intros s n. Qed.
Lemma returns_gets {B} (f : S -> B) : returns (gets f : M E S B).
Proof. by intros s n. Qed.
Lemma returns_clock clk : returns (read_clock clk : M E S Q).
Proof. by intros s n. Qed.
Lemma returns_modify (f : S -> S) : returns (modify f : M E S unit).
Proof. by intros s n. Qed.
Lemma returns_bind {B C} (m : M E S B) (k : B -> M E S C) : returns m -> (forall b, returns (k b)) -> returns (mbind k m).
Proof.
  intros Hm Hk s n. specialize (Hm s n). unfold mbind, M_bind. destruct (m s n) as [[[b|e] s'] n']; [apply Hk | done].
Qed.
Lemma returns_when b (m : M E S unit) : returns m -> returns (when b m).
Proof. intros H. destruct b; [exact H | apply returns_ret]. Qed.
Lemma returns_for_each {B} (l : list B) (f : B -> M E S unit) : (forall x, returns (f x)) -> returns (for_each l f).
Proof. intros Hf. induction l as [|x l IH]; [apply returns_ret|]. apply returns_bind; [apply Hf | done]. Qed.
Lemma returns_zoom {T B} (g : S -> T) (p : T -> S -> S) (m : M E T B) : returns m -> returns (zoom g p m).
Proof. intros Hm s n. specialize (Hm (g s) n). unfold zoom. by destruct (m (g s) n) as [[r t] n']. Qed.
End returns.

Create HintDb returns discriminated.
#[export] Hint Resolve returns_ret returns_get returns_gets returns_clock returns_modify : returns.
Ltac answers :=
  repeat lazymatch goal with
  | |- returns (mbind _ _) => apply returns_bind; [|intros ?]
  | |- returns (when _ _) => apply returns_when
  | |- returns (for_each _ _) => apply returns_for_each; intros ?
  | |- returns (zoom _ _ _) => apply returns_zoom
  | |- returns (let _ := _ in _) => cbv zeta
  | |- returns (match ?x with _ => _ end) => destruct x
  | |- returns _ => solve [eauto with returns]
  end.

(** A call that returns and keeps the precondition is passed over. *)
Lemma triple_pass {E S B C} (P : S -> Prop) (m : M E S B) (k : B -> M E S C) (R : res E C -> S -> Prop) :
  returns m -> preserves P m -> (forall b, triple P (k b) R) -> triple P (mbind k m) R.
Proof.
  intros Hr Hp Hk s n Hs. specialize (Hr s n). specialize (Hp s n Hs). unfold mbind, M_bind.
  destruct (m s n) as [[[b|e] s'] n']; [by apply Hk | done].
Qed.
Lemma triple_keep {E S B C} (P : S -> Prop) (m : M E S B) (k : B -> M E S C) (R : res E C -> S -> Prop) :
  preserves P m -> (forall b, triple P (k b) R) -> (forall e s, P s -> R (Raise e) s) -> triple P (mbind k m) R.
Proof. intros Hm Hk He. eapply triple_bind; [exact Hm | exact Hk | exact He]. Qed.
Lemma triple_preserves {E S B} (P : S -> Prop) (m : M E S B) (R : res E B -> S -> Prop) :
  preserves P m -> (forall r s, P s -> R r s) -> triple P m R.
Proof. intros Hp HR s n Hs. apply HR. by apply Hp. Qed.
Lemma triple_catch {E S B} (P : S -> Prop) (m : M E S B) p h (R1 R : res E B -> S -> Prop) :
  triple P m R1 -> (forall b s, R1 (Ok b) s -> R (Ok b) s) -> (forall e s, p e = false -> R1 (Raise e) s -> R (Raise e) s) ->
  (forall e, p e = true -> triple (R1 (Raise e)) (h e) R) -> triple P (catch m p h) R.
Proof.
  intros Hm Hok Hno Hh s n Hs. specialize (Hm s n Hs). unfold catch. destruct (m s n) as [[[b|e] s'] n']; [by apply Hok|].
  destruct (p e) eqn:Ep; [by apply Hh | by apply Hno].
Qed.

(** *** The collaborators *)

Lemma returns_classify {S} w d e c h : returns (classify_failure w d e c h : M exn S _).
Proof.
  intros s n. destruct (parse_retry_after_ok w d (od_get "retry-after" (clean_headers h)) s n) as (r & n1 & Hr & _).
  unfold classify_failure. erewrite bind_ok by exact Hr. cbv beta. repeat case_match; done.
Qed.
Lemma returns_midnight {S} w : returns (calculate_seconds_until_utc_midnight w : M exn S Q).
Proof. unfold calculate_seconds_until_utc_midnight. answers. Qed.
Lemma returns_health_lookup w id p m : returns (health_get_or_create w id p m).
Proof. unfold health_get_or_create. answers. Qed.
#[export] Hint Resolve returns_classify returns_midnight returns_health_lookup : returns.
Lemma returns_well w id d t : returns (health_record_success w id d t).
Proof. unfold health_record_success, mutate. answers. Qed.
Lemma returns_ill w c id d s m cd q p : returns (health_record_failure w c id d s m cd q p).
Proof. unfold health_record_failure, mutate. answers. Qed.
Lemma returns_dead w id p m r : returns (mark_dead w id p m r).
Proof. unfold mark_dead, on_health, health_mark_dead, mutate. answers. Qed.
Lemma returns_on_breaker {B} id (m : M exn (CircuitBreaker * option unit) B) : returns m -> returns (on_breaker id m).
Proof.
  intros Hm r n. unfold on_breaker. destruct (get_or_create_ok id None r n) as (b & r' & -> & _). specialize (Hm (b, None) n).
  by destruct (m (b, None) n) as [[res w] n2].
Qed.
Lemma returns_success clk d : returns (record_success clk d : M exn (CircuitBreaker * option unit) unit).
Proof. intros w n. by destruct (record_success_spec clk d w n) as (? & ? & ? & -> & _). Qed.
Lemma returns_failure clk d e f : returns (record_failure clk d e f : M exn (CircuitBreaker * option unit) unit).
Proof. intros w n. by destruct (record_failure_spec clk d e f w n) as (? & ? & ? & -> & _). Qed.
#[export] Hint Resolve returns_well returns_ill returns_dead returns_on_breaker returns_success returns_failure : returns.

(** ** The attempt store's promise *)

Class CalmStore (A : Type) `{AttemptStoreOps A} : Prop := {
  calm_prepare a r p : returns (as_prepare_attempt a r p);
  calm_lockout f provider pool route expires reason :
    as_record_quota_lockout = Some f -> returns (f provider pool route expires reason);
}.

#[export] Instance sqlite_calm `{Runtime} : CalmStore Database.
Proof.
  split.
  - intros a r p d n. cbn. unfold ignore, prepare_attempt, transaction, mbind, M_bind, read_clock, modify, gets, out_res. cbn.
    destruct (durable_attempts d !! a) eqn:E; cbn; rewrite ?E, ?lookup_insert_eq; done.
  - intros f provider pool route expires reason Hf. injection Hf as <-. unfold record_quota_lockout. answers.
Qed.
#[export] Instance cluster_calm `{Runtime} : CalmStore ClusterPersistenceStore.
Proof. split; [|done]. intros a r p. cbn. unfold ignore, cl_prepare_attempt. answers. Qed.

(** ** Reservations of one request *)

Section budget.
Context {R : Runtime} {T A : Type} `{TL : ToolLedgerOps T} `{AS : AttemptStoreOps A}.
Implicit Types (w : Run T A) (d : odict string BudgetReservation) (rv : option string).
Local Abbreviation X := (M exn (Run T A)).

(** What is reserved beyond [d] is at most the reservation [rv]. *)
Definition within d rv w : Prop :=
  forall rid, Some rid <> rv -> od_get rid d = None -> od_get rid (reserved (budget_store (self w))) = None.

Lemma within_weaken d rv w : within d None w -> within d rv w.
Proof. intros H rid _. by apply H. Qed.
Hint Resolve within_weaken : core.

#[local] Instance within_stable d rv : Stable (within d rv).
Proof.
  split; intros; intros w n Hw; try exact Hw.
  all: try (unfold on_router, on_keys, on_tools, breaker_call, health_call, on_router, on_self, on_ledger, zoom in *;
    match goal with |- context [let '(_, _) := let '(_, _) := ?x in _ in _] => destruct x as [[? ?] ?] | |- context [let '(_, _) := ?x in _] => destruct x as [[? ?] ?] end; exact Hw).
  - unfold on_pool_manager, upd_self, modify, out_st. unfold within in *. cbn. by destruct (has_pool_manager (self w)).
  - unfold on_attempt_store. destruct (attempt_store (self w)) as [st|]; [|exact Hw]. destruct (m st n) as [[r st'] n']. exact Hw.
Qed.
Hint Resolve within_stable : frame.

(** *** Taking and returning a reservation *)

Lemma settle_triple d rv q : (0 <= q)%Q -> triple (within d rv) (settle_reservation rv q) (fun r w => r = Ok tt /\ within d None w).
Proof.
  intros Hq w n Hw. destruct rv as [rid|]; [|done]. unfold settle_reservation, on_budget, on_self, zoom, settle.
  destruct (q ≺ 0) eqn:E; qbool; [lra|]. unfold mbind, M_bind, get. cbn.
  destruct (od_get rid (reserved (budget_store (self w)))) as [x|] eqn:Eg; cbn; (split; [done|]); intros k _ Hk; cbn.
  - destruct (decide (k = rid)) as [->|Hne]; [apply od_get_pop_eq|]. rewrite od_get_pop_ne by done. apply Hw; [congruence | done].
  - destruct (decide (k = rid)) as [->|Hne]; [done|]. apply Hw; [congruence | done].
Qed.
(** Settling an amount that may be refused: the reservation is returned or kept. *)
Lemma settle_cost d rv q : triple (within d rv) (settle_reservation rv q) (fun r w => match r with Ok _ => within d None w | Raise _ => within d rv w end).
Proof.
  destruct (Qlt_le_dec q 0) as [Hq|Hq].
  - intros w n Hw. destruct rv as [rid|]; [|done]. unfold settle_reservation, on_budget, on_self, zoom, settle.
    destruct (q ≺ 0) eqn:E; qbool; [|lra]. exact Hw.
  - eapply triple_conseq; [by apply (settle_triple d rv) | done | by intros ? ? [-> ?]].
Qed.
Lemma release_triple d rid : triple (within d (Some rid)) (on_budget (release rid)) (fun r w => r = Ok tt /\ within d None w).
Proof.
  intros w n Hw. split; [done|]. intros k _ Hk. cbn. destruct (decide (k = rid)) as [->|Hne]; [apply od_get_pop_eq|].
  rewrite od_get_pop_ne by done. apply Hw; [congruence | done].
Qed.
Lemma reserve_triple d req p e a :
  triple (within d None) (reserve_budget req p e a) (fun r w =>
    match r with
    | Ok (Some rv) => within d rv w /\ (0 <= match budget_limit_usd req with Some _ => estimated_cost_usd req p | None => 0 end)%Q
    | _ => within d None w
    end).
Proof.
  intros w n Hw. unfold reserve_budget. destruct (budget_limit_usd req) as [limit|]; [|by split; [|lra]].
  mstep. unfold on_budget, on_self, zoom, reserve.
  set (rid := (request_id (request (vars w)) ++ ":" ++ attempt_id a)%string).
  destruct ((estimated_cost_usd req p ≺ 0) || (limit ≺ 0)) eqn:E; [exact Hw|]. apply orb_false_iff in E as [E _]. qbool.
  unfold mbind, M_bind, get. cbn. destruct (od_get rid (reserved (budget_store (self w)))) as [x|] eqn:Eg.
  - cbn. split; [by apply within_weaken | done].
  - match goal with |- context [if ?b then _ else _] => destruct b end; [exact Hw|]. cbn. split; [|done].
    intros k Hk Hd. cbn. rewrite od_get_set_ne by congruence. by apply Hw.
Qed.
Lemma admission_triple d e rv :
  triple (within d rv) (admission e rv) (fun r w => match r with Ok true => within d rv w | _ => within d None w end).
Proof.
  unfold admission. apply triple_catch with (R1 := fun r w => within d rv w /\
      match r with Ok b => b = true | Raise x => is_BreakerOpenError x || match x with ProbeAdmissionDeniedError _ => true | _ => false end = true end).
  - intros w n Hw. split; [by apply (preserves_bind (within d rv)); [apply (st_acquire (I := within d rv)) | intros; apply preserves_ret|]|].
    unfold mbind, M_bind, breaker_call, on_router, on_self, on_breakers, zoom, on_breaker.
    destruct (get_or_create_ok (resource_key e) None (breaker_registry (router (self w))) n) as (b & r' & -> & _).
    destruct (acquire_spec breaker_clock (b, None) n) as (bc & r & w' & n' & now & -> & _ & _ & Ha). revert Ha. unfold acquired.
    destruct (bstate bc); try (by intros [= <- <-]). destruct (_ <=? _)%nat; by intros [= <- <-].
  - by intros b w [Hw ->].
  - intros x w Hx [_ Hp]. congruence.
  - intros x _. eapply triple_bind with (R1 := fun _ w => within d None w).
    + destruct rv as [rid|]; [|by intros w n [Hw _]]. eapply triple_conseq; [apply release_triple | by intros w [Hw _] | by intros r w [_ Hw]].
    + intros _. apply triple_preserves; [|intros [[]|] ? ?; by auto]. steady.
    + done.
Qed.

(** *** Calls made while a reservation is held *)

Context `{CS : !CalmStore A}.

Lemma returns_breaker {B} e (m : M exn (CircuitBreaker * option unit) B) : returns m -> returns (breaker_call e m : X B).
Proof. intros Hm. unfold breaker_call, on_router, on_self, on_breakers. answers. Qed.
Lemma returns_health {B} (m : M exn HealthTelemetryStore B) : returns m -> returns (health_call m : X B).
Proof. intros Hm. unfold health_call, on_router, on_self, on_health. answers. Qed.
Lemma returns_router {B} (m : M exn CapabilityRouter B) : returns m -> returns (on_router m : X B).
Proof. intros Hm. unfold on_router, on_self. answers. Qed.
Lemma returns_lanes {B} (m : M exn (odict string ResourceLaneStatus) B) : returns m -> returns (on_lanes m).
Proof. intros Hm. unfold on_lanes. answers. Qed.
Lemma returns_self f : returns (upd_self f : X unit).
Proof. unfold upd_self. answers. Qed.
Lemma returns_vars f : returns (upd_vars f : X unit).
Proof. unfold upd_vars. answers. Qed.
Lemma returns_pool c : returns (on_pool_manager c : X unit).
Proof. apply returns_self. Qed.
Lemma returns_ledger_record a : returns (on_ledger (record_attempt a) : X unit).
Proof. unfold on_ledger, record_attempt, upd_led. answers. Qed.
Lemma returns_finish b s f a : returns (finish b s f a : X AttemptRecord).
Proof. unfold finish. answers. Qed.
Lemma returns_store m : returns m -> returns (on_attempt_store m : X unit).
Proof.
  intros Hm w n. unfold on_attempt_store. destruct (attempt_store (self w)) as [st|]; [|done]. specialize (Hm st n).
  by destruct (m st n) as [[r st'] n'].
Qed.
Hint Resolve returns_breaker returns_health returns_router returns_lanes returns_self returns_vars returns_pool returns_ledger_record
  returns_finish returns_store calm_prepare calm_lockout : returns.
Lemma returns_lane e f : returns (record_lane_outcome e f : X unit).
Proof. unfold record_lane_outcome, set_available, set_unavailable. answers; auto with returns; apply returns_router, returns_lanes; answers. Qed.
Lemma returns_prepare a : returns (prepare_durable_attempt a : X unit).
Proof. unfold prepare_durable_attempt. answers. Qed.
Lemma returns_billing pool e f : returns (record_billing pool e f : X unit).
Proof. unfold record_billing. destruct as_record_quota_lockout eqn:El; answers; unfold exclude_once; auto with returns. Qed.
Lemma returns_alternative e keys k t : returns (on_keys (has_alternative_key wall e keys k t) : X bool).
Proof. unfold on_keys, on_self, has_alternative_key, now_or. answers. Qed.
Lemma returns_limit k q : returns (on_keys (record_rate_limit wall k q None) : X unit).
Proof. unfold on_keys, on_self, record_rate_limit, now_or. answers. Qed.
Hint Resolve returns_lane returns_prepare returns_billing returns_alternative returns_limit : returns.

(** *** The attempt *)

Ltac pass := eapply triple_pass; [solve [unfold exclude_once, exclude; answers] | solve [steady] | intros ?].

(** Whatever follows a settlement keeps the balance. *)
Lemma settled_then {B} d rv q (k : unit -> X B) (R1 : res exn B -> Run T A -> Prop) : (0 <= q)%Q ->
  preserves (within d None) (k tt) -> (forall r w, within d None w -> R1 r w) ->
  triple (within d rv) (mbind k (settle_reservation rv q)) R1.
Proof.
  intros Hq Hk HR. eapply triple_bind; [by apply (settle_triple d rv) | | by intros ? ? [? _]].
  intros []. eapply triple_conseq; [apply (triple_preserves (within d None) (k tt) R1 Hk HR) | by intros ? [_ ?] | done].
Qed.
Lemma dispatch_triple d rv pool e ad pr t q a : (0 <= q)%Q ->
  triple (within d rv) (dispatch pool e ad pr t rv q a) (fun r w => match r with Ok _ => within d rv w | Raise _ => within d None w end).
Proof.
  intros Hq. unfold dispatch. apply triple_catch with (R1 := fun _ => within d rv); [by intros w n Hw | done | done |]. intros x _.
  do 7 pass. apply settled_then; [done | steady | intros [] ? ?; by auto].
Qed.
Lemma complete_triple d rv pool req e p ad r dur a :
  triple (within d rv) (complete pool req e p ad r dur rv a) (fun o w => match o with Ok _ => within d None w | Raise _ => within d rv w end).
Proof.
  unfold complete. do 4 pass.
  apply triple_keep; [steady | intros _ | done].
  pass. pass. apply triple_keep; [steady | intros _ | done].
  eapply triple_bind; [apply settle_cost | intros [] | done].
  apply triple_preserves; [steady | intros [] ? ?; auto].
Qed.
Lemma accept_triple d rv pool req e p ad r x a :
  triple (within d rv) (accept pool req e p ad r x rv a) (fun o w => match o with Ok (inl _) => within d None w | _ => within d rv w end).
Proof.
  unfold accept. apply triple_keep; [steady | intros resp | done].
  apply triple_get_bind. intros w0 Hw0. destruct (check_sanity _ _); [by intros w n ->|].
  eapply triple_bind with (R1 := fun _ => within d rv); [|intros [tcs|] | done].
  - intros w n ->. by apply (kept_tool_calls (within d rv)).
  - eapply triple_bind; [apply complete_triple | | done]. intros []. by apply triple_ret.
  - by apply triple_ret.
Qed.
Lemma judge_triple d rv pool req e p ad r x q a : (0 <= q)%Q ->
  triple (within d rv) (judge pool req e p ad r x rv q a)
    (fun o w => match o with Ok (inl _) => within d None w | Ok (inr _) => within d rv w | Raise _ => within d None w end).
Proof.
  intros Hq. unfold judge. destruct (px_status_code x =? 200)%Z.
  - eapply triple_catch; [apply accept_triple | by intros [] | done|]. intros y _.
    destruct y; try (pass; by apply triple_ret). pass. by apply settled_then; [done | steady | intros [[]|] ? ?; auto].
  - pass. by apply triple_ret.
Qed.
Lemma rotate_triple d rv k x f q a : (0 <= q)%Q -> triple (within d rv) (rotate_key k x f rv q a) (fun _ => within d None).
Proof. intros Hq. unfold rotate_key. do 3 pass. by apply settled_then; [done | steady |]. Qed.
Lemma failed_triple d rv pool e x f q a : (0 <= q)%Q -> triple (within d rv) (record_failed_attempt pool e x f rv q a) (fun _ => within d None).
Proof. intros Hq. unfold record_failed_attempt. do 7 pass. by apply settled_then; [done | steady |]. Qed.

Context (adapters : odict string ProviderAdapter).
Lemma verdict_triple d rv dl pool keys e p key x f q a : (0 <= q)%Q ->
  triple (within d rv)
    (rotate ← (if bool_decide (fc_reason f = rate_limit) then
                 match key : option string with
                 | Some kid => if truthy kid then on_keys (has_alternative_key wall e keys (Some kid) None) else mret false
                 | None => mret false
                 end
               else mret false);
     (if rotate : bool then rotate_key (default "" key) x f rv q a
      else record_failed_attempt pool e x f rv q a ;; decide_next dl pool e p f) ;;
     mret Continue) (fun _ => within d None).
Proof.
  intros Hq. eapply triple_pass; [answers | steady | intros rot].
  eapply triple_bind with (R1 := fun _ => within d None); [|intros ?; by apply triple_ret | done].
  destruct rot; [by apply rotate_triple|].
  eapply triple_bind; [by apply failed_triple | intros ?; by apply (kept_decide (within d None)) | done].
Qed.
Lemma attempt_balanced d dl pool req keys e dec r c : preserves (within d None) (attempt_endpoint adapters dl pool req keys e dec r c).
Proof.
  unfold attempt_endpoint. apply triple_get_bind. intros w0 Hw0. cbv zeta. set (p := profile_of e w0). clearbody p.
  apply triple_conseq with (P' := within d None) (R' := fun _ => within d None); [|by intros ? -> | done]. clear w0 Hw0.
  do 5 (apply triple_keep; [steady | intros ? | done]).
  eapply triple_bind; [apply reserve_triple | intros [rv|] | by intros ? ?]; [|by apply triple_ret].
  intros w n [Hw Hq]. revert w n Hw.
  match goal with |- forall w n, within d rv w -> within d None (out_st (?m w n)) => change (triple (within d rv) m (fun _ => within d None)) end.
  eapply triple_bind; [apply admission_triple | intros [|] | done]; [|by apply triple_ret].
  pass. eapply triple_bind; [by apply dispatch_triple | intros result | done].
  eapply triple_bind; [by apply judge_triple | intros [resp|f] | done]; [by apply triple_ret | by apply verdict_triple].
Qed.
Hint Resolve attempt_balanced : frame.
Lemma iteration_balanced d dl pool st req keys : preserves (within d None) (iteration adapters dl pool st req keys).
Proof. unfold iteration. steady. Qed.
Lemma loop_balanced d fuel dl pool st req keys : preserves (within d None) (execute_loop adapters fuel dl pool st req keys).
Proof. induction fuel as [|fuel IH]; cbn [execute_loop]; steady; apply iteration_balanced. Qed.
End budget.

(** C13: A request gives back every reservation it makes.  Whatever the providers,
    the tool ledger and the clocks do, and whether the request is answered, raises or
    runs out of candidates, the budget store holds afterwards only reservations it
    held before; the attempt store is one that can file an intent. *)
Theorem execute_returns_reservations `{Runtime} `{ToolLedgerOps T} `{CalmStore A} adapters fuel r pool strategy deadline_ms keys reqs
    (ex : GatewayExecutor T A) n rid :
  od_get rid (reserved (budget_store ex)) = None ->
  od_get rid (reserved (budget_store (out_st (execute adapters fuel r pool strategy deadline_ms keys reqs ex n)))) = None.
Proof.
  intros Hrid. destruct (execute_unfold adapters fuel r pool strategy deadline_ms keys reqs ex n) as (d & req & _ & ->).
  assert (within (reserved (budget_store ex)) None {| self := ex; vars := initial_locals r |}) as Hw by (by intros k _ Hk).
  exact (loop_balanced adapters _ fuel d pool strategy req keys _ _ Hw rid ltac:(done) Hrid).
Qed.

(** ** Runs with a budget *)

(** A request limited to [limit] dollars of the scope "team". *)
Definition limited_to (limit : Q) : RequirementVector :=
  let b := default_requirements in
  {| require_tools := require_tools b; require_parallel_tools := require_parallel_tools b; require_structured_output := require_structured_output b;
     require_vision := require_vision b; require_reasoning := require_reasoning b; minimum_context_tokens := minimum_context_tokens b;
     maximum_cost_usd := maximum_cost_usd b; latency_budget_ms := latency_budget_ms b; task_class := task_class b;
     allowed_providers := allowed_providers b; forbidden_providers := forbidden_providers b;
     estimated_input_tokens := estimated_input_tokens b; expected_output_tokens := expected_output_tokens b;
     Requirements.safety_margin_tokens := Requirements.safety_margin_tokens b; allow_context_compaction := allow_context_compaction b;
     required_region := required_region b; required_compliance := required_compliance b; allow_external_traffic := allow_external_traffic b;
     require_verified_capabilities := require_verified_capabilities b; minimum_quality_score := minimum_quality_score b;
     allow_quality_degradation := allow_quality_degradation b; budget_scope := Some "team"; budget_limit_usd := Some limit; prefix_hash := None |}.
(** An endpoint whose output costs a dollar a token and whose answers may have 8192. *)
Definition priced_profile : ModelProfile :=
  let b := declared "groq" "llama" "openai" 65536 8192 false false false in
  {| mp_provider := mp_provider b; mp_model := mp_model b; mp_protocol := mp_protocol b; context_window := context_window b;
     max_output_tokens := max_output_tokens b; supports_tools := supports_tools b; supports_parallel_tools := supports_parallel_tools b;
     supports_structured_output := supports_structured_output b; supports_vision := supports_vision b; supports_reasoning := supports_reasoning b;
     supports_streaming := supports_streaming b; supports_json_mode := supports_json_mode b; supports_system_prompt := supports_system_prompt b;
     supports_multipart := supports_multipart b; is_free := is_free b; input_price_per_1m := 0; output_price_per_1m := 1000000;
     pricing := pricing b; privacy := privacy b; verification_status := verification_status b; last_verified_at := last_verified_at b;
     verification_method := verification_method b; capability_provenance := capability_provenance b; capability_expires_at := capability_expires_at b;
     tokenizer_id := tokenizer_id b; tokenizer_revision := tokenizer_revision b; expected_quality_score := expected_quality_score b;
     quality_confidence := quality_confidence b; quality_provenance := quality_provenance b |}.
Definition priced_endpoint : Endpoint :=
  {| ep_id := "a"; ep_provider := "groq"; ep_model := "llama"; base_url := ""; ep_protocol := "openai"; deployment := None;
     quota_bucket_id := None; env_key := None; env_keys := []; ep_headers := []; weight := 1; priority := 1; profile := Some priced_profile;
     ep_pool := "coding"; is_discovered := false; resource_lane := None |}.
Definition essay : string := Nat.iter (200 * 100) (String (chr 97)) "".
Definition budget_run {A} `{AttemptStoreOps A} (ad : ProviderAdapter) (st : option A) :=
  execute [("groq", ad)] 60 (demo_request []) "coding" (Some "priority") 300000 [] (Some (limited_to 4200))
    (new_executor (A := A) (new_router (demo_caps [priced_endpoint]) (new_breaker_registry None) (new_health_store (1 # 5))) default_policy (new_ledger 8 None) st) 0%nat.

(** A transport that fails: the attempt settles what it reserved. *)
Definition broken_line : ProviderAdapter := demo_adapter (fun _ => Raise (RuntimeError "Connection reset by peer")) [].
Lemma execute_returns_reservations_witness :
  od_get "req1:10" (reserved (budget_store (out_st (budget_run (A := Database) broken_line None)))) = None /\
  spent_in "team" (budget_store (out_st (budget_run (A := Database) broken_line None))) == 4096.
Proof. split; [|vm_compute; reflexivity]. apply execute_returns_reservations. reflexivity. Defined.

(** The reservation is called the maximum cost of the turn, but it supposes 4096 tokens
    of output where the request that is sent allows what the model can: an answer within
    its allowance overspends the scope. *)
Example answer_overspends_reservation :
  match budget_run (A := Database) (demo_adapter (fun _ => answer 200 essay) []) None with
  | (Ok (Some (r, _, _)), ex, _) => (4200 < spent_in "team" (budget_store ex))%Q
  | _ => False
  end.
Proof. vm_compute. reflexivity. Qed.

(** An attempt store that cannot write (a full disk): the exception leaves the request
    between the admission and the dispatch, with the reservation held. *)
#[local] Instance full_disk : AttemptStoreOps unit := {|
  as_prepare_attempt _ _ _ := raise (DurableStoreError "database or disk is full");
  as_finish_attempt _ _ _ := raise (DurableStoreError "database or disk is full");
  as_record_quota_lockout := None |}.
Example failed_intent_keeps_reservation :
  match budget_run (A := unit) broken_line (Some tt) with
  | (Raise (DurableStoreError _), ex, _) => od_keys (reserved (budget_store ex)) = ["req1:10"] /\ spent (budget_store ex) = []
  | _ => False
  end.
Proof. vm_compute. split; reflexivity. Qed.
