(* ===== verification/Demo.v ===== *)
(** * The local demonstration

    [src/durallm/demo.py]: the five turns of [run_demo] on the gateway's own
    registries, router, breakers and executor, and the programmable provider of
    [tests/faults/mock_provider.py] it talks to.  The breakers read the controlled
    clock, everything else the ambient runtime.

    A provider serves one scripted answer per call.  Its position moves by the number
    of attempts the executor files on it, and the demonstration's policy allows one
    attempt per endpoint and turn, so the script as it stands at the start of a turn
    determines every answer of the turn. *)

From stdpp Require Import base tactics list gmap strings.
From Stdlib Require Import QArith Qround.
From S2P Require Import Prelude Json Models PyText PyDyn JsonText CodecOpenAI Execution Metrics Breaker Registry Profile Telemetry Requirements RoutingStores Router ToolLedger SqliteStore IR Context ToolValidation ResponseValidation Classifier Interfaces Executor.

(** ** The programmable provider *)

Record MockFaultAction : Type := {
  fa_status_code : Z;
  fa_headers : odict string string;
  fa_body : string;
  fa_delay_ms : Q;
}.

Section mock.
Context {R : Runtime} (py_repr : json -> string).

Definition mock_success (content : string) : MockFaultAction :=
  let message := JObj [("role", JStr "assistant"); ("content", JStr content)] in
  let payload := JObj [("id", JStr "mock_success_1");
                       ("choices", JArr [JObj [("index", JInt 0); ("message", message); ("finish_reason", JStr "stop")]]);
                       ("usage", JObj [("prompt_tokens", JInt 50); ("completion_tokens", JInt 25)])] in
  {| fa_status_code := 200; fa_headers := []; fa_body := dumps payload; fa_delay_ms := 0 |}.
Definition mock_server_error (status_code : Z) (message : string) : MockFaultAction :=
  {| fa_status_code := status_code; fa_headers := []; fa_delay_ms := 0;
     fa_body := dumps (JObj [("error", JObj [("message", JStr message); ("code", JInt status_code)])]) |}.

Record ProgrammableMockAdapter : Type := {
  actions : list MockFaultAction;
  current_index : nat;
}.
Definition new_mock : ProgrammableMockAdapter := {| actions := []; current_index := 0 |}.
Definition set_sequence (l : list MockFaultAction) (m : ProgrammableMockAdapter) : ProgrammableMockAdapter :=
  {| actions := l; current_index := 0 |}.

(** The answer to the next call, and the provider after [k] calls. *)
Definition next_action (m : ProgrammableMockAdapter) : MockFaultAction :=
  default (mock_success "Success") (actions m !! current_index m).
Definition served (k : nat) (m : ProgrammableMockAdapter) : ProgrammableMockAdapter :=
  {| actions := actions m; current_index := Nat.max (current_index m) (Nat.min (length (actions m)) (current_index m + k)) |}.

Definition mock_execute (m : ProgrammableMockAdapter) (timeout_seconds : Q) : ProviderExecutionResult :=
  let action := next_action m in
  let delay := if 0 ≺ fa_delay_ms action then py_min (fa_delay_ms action) (timeout_seconds * 1000) else 10 in
  if (timeout_seconds * 1000)%Q ⪯ fa_delay_ms action then
    {| px_status_code := 504; px_headers := []; px_body := dumps (JObj [("error", JObj [("message", JStr "Timed out")])]);
       px_duration_ms := timeout_seconds * 1000; px_transport_error := None |}
  else
    {| px_status_code := fa_status_code action; px_headers := fa_headers action; px_body := fa_body action;
       px_duration_ms := delay; px_transport_error := None |}.

(** [prepare_request], [execute] and [normalize_response] of a provider at one position of its script. *)
Definition mock_adapter (m : ProgrammableMockAdapter) : ProviderAdapter :=
  {| prepare_request e r key :=
       Ok {| pr_url := "mock://" ++ ep_provider e ++ "/" ++ ep_model e;
             pr_headers := [("Content-Type", "application/json")] ++
                           (if truthy key then [("Authorization", "Bearer " ++ key)] else []);
             pr_body := dumps (JObj [("estimated_tokens", JInt (Z.of_nat (estimate_tokens dumps r)))]); pr_method := "POST" |}%string;
     adapter_execute _ timeout_seconds _ := Ok (mock_execute m timeout_seconds);
     normalize_response _ result :=
       match loads (px_body result) with
       | None => Raise (ValueError "Expecting value")
       | Some raw =>
           match openai_response_to_ir py_repr dumps loads uuids raw tt 0%nat with
           | (Ok r, _, _) => Ok r
           | (Raise _, _, _) => Raise (RuntimeError "codec")
           end
       end |}.
End mock.

(** ** The demonstration *)

(** [clock]: the breakers read the controlled clock. *)
Definition at_clock (t : Q) (R : Runtime) : Runtime := {|
  wall := @wall R; mono := @mono R; breaker_clock := fun _ => t; draws := @draws R; uuids := @uuids R; environ := @environ R;
  dumps := @dumps R; dumps_sorted := @dumps_sorted R; dumps_indent := @dumps_indent R; loads := @loads R; loads_lax := @loads_lax R;
  literal_eval := @literal_eval R; float_str := @float_str R; sha256 := @sha256 R; parse_http_date := @parse_http_date R;
  describe := @describe R; render := @render R |}.

Record DemoState : Type := {
  dm_clock : Q;
  dm_executor : GatewayExecutor ToolExecutionLedger Database;
  mock_primary : ProgrammableMockAdapter;
  mock_secondary : ProgrammableMockAdapter;
  dm_printed : list string;
}.

Definition demo_breaker_config : CircuitBreakerConfig :=
  {| failure_rate_threshold := 50; slow_call_rate_threshold := slow_call_rate_threshold default_breaker_config;
     cfg_slow_call_duration_ms := cfg_slow_call_duration_ms default_breaker_config; minimum_number_of_calls := 2;
     sliding_window_type := sliding_window_type default_breaker_config; sliding_window_size := 3;
     wait_duration_open_ms := 15000; half_open_max_calls := 2;
     max_half_open_duration_ms := max_half_open_duration_ms default_breaker_config |}.
Definition demo_policy : ExecutionPolicy :=
  {| retry := {| max_attempts_same_endpoint := 1; base_backoff_ms := base_backoff_ms default_retry; max_backoff_ms := max_backoff_ms default_retry;
                 jitter := jitter default_retry; retry_on_status := retry_on_status default_retry |};
     fallback := {| max_fallback_hops := 2; require_capability_match := require_capability_match default_fallback;
                    avoid_same_provider := avoid_same_provider default_fallback; avoid_recent_failure := avoid_recent_failure default_fallback |};
     max_total_attempts := max_total_attempts default_policy |}.
Definition mock_endpoint (id provider model url : string) (prio window : Z) : Endpoint :=
  {| ep_id := id; ep_provider := provider; ep_model := model; base_url := url; ep_protocol := "openai"; deployment := None;
     quota_bucket_id := None; env_key := None; env_keys := []; ep_headers := []; weight := 1; priority := prio;
     profile := Some (declared provider model "openai" window 4096 false false false);
     ep_pool := "coding"; is_discovered := false; resource_lane := None |}.
Definition ep_primary : Endpoint := mock_endpoint "primary-cerebras" "primary_cerebras" "llama3.3-70b" "mock://cerebras" 1 65536.
Definition ep_secondary : Endpoint := mock_endpoint "secondary-groq" "secondary_groq" "llama-3.3-70b" "mock://groq" 2 32768.
Definition tool_def : NormalizedToolDefinition :=
  {| td_name := "execute_code"; td_description := "Run Python code";
     td_parameters := JObj [("type", JStr "object"); ("properties", JObj [("code", JObj [("type", JStr "string")])]);
                            ("required", JArr [JStr "code"])]; td_cache_control := None |}.
Definition demo_message (who text : string) : NormalizedMessage :=
  {| role := who; content := text; reasoning_content := None; reasoning_signature := None; tool_calls := []; tool_results := [];
     msg_name := None; msg_cache_control := None; msg_metadata := [] |}.
Definition demo_turn (id : string) (ms : list NormalizedMessage) : NormalizedRequest :=
  {| request_id := id; req_model := "default"; messages := ms; system_instruction := None; tools := [tool_def];
     req_max_output_tokens := None; temperature := None; stream := false; system_cache_control := None; tool_choice := None; req_metadata := [] |}.

Definition demo_start : DemoState :=
  {| dm_clock := 1000;
     dm_executor := new_executor
       (new_router (register_endpoint ep_secondary (register_endpoint ep_primary new_registry))
          (new_breaker_registry (Some demo_breaker_config)) (new_health_store (1 # 5)))
       demo_policy default_ledger None;
     mock_primary := new_mock; mock_secondary := new_mock; dm_printed := [] |}.

Section demo.
Context {R : Runtime} (py_repr : json -> string) (fuel : nat).
Local Abbreviation D := (M exn DemoState).

Definition say (s : string) : D unit := modify (fun d =>
  {| dm_clock := dm_clock d; dm_executor := dm_executor d; mock_primary := mock_primary d; mock_secondary := mock_secondary d;
     dm_printed := dm_printed d ++ [s] |}).
Definition advance (seconds : Q) : D unit := modify (fun d =>
  {| dm_clock := dm_clock d + seconds; dm_executor := dm_executor d; mock_primary := mock_primary d; mock_secondary := mock_secondary d;
     dm_printed := dm_printed d |}).
Definition program_primary (l : list MockFaultAction) : D unit := modify (fun d =>
  {| dm_clock := dm_clock d; dm_executor := dm_executor d; mock_primary := set_sequence l (mock_primary d); mock_secondary := mock_secondary d;
     dm_printed := dm_printed d |}).
Definition program_secondary (l : list MockFaultAction) : D unit := modify (fun d =>
  {| dm_clock := dm_clock d; dm_executor := dm_executor d; mock_primary := mock_primary d; mock_secondary := set_sequence l (mock_secondary d);
     dm_printed := dm_printed d |}).

(** [executor.execute(req, pool="coding", strategy="priority")] *)
Definition demo_execute (r : NormalizedRequest) : D (NormalizedResponse * RoutingDecision * AttemptLedger) := fun d n =>
  let adapters := [("primary_cerebras", mock_adapter py_repr (mock_primary d)); ("secondary_groq", mock_adapter py_repr (mock_secondary d))] in
  match execute (R := at_clock (dm_clock d) R) adapters fuel r "coding" (Some "priority") 300000 [] None (dm_executor d) n with
  | (Ok (Some (resp, dec, l)), ex, n') =>
      (Ok (resp, dec, l),
       {| dm_clock := dm_clock d; dm_executor := ex; mock_primary := served (attempts_on (ep_id ep_primary) l) (mock_primary d);
          mock_secondary := served (attempts_on (ep_id ep_secondary) l) (mock_secondary d); dm_printed := dm_printed d |}, n')
  | (Ok None, ex, n') => (Raise (RuntimeError "fuel"), d, n')
  | (Raise x, ex, n') => (Raise x, d, n')
  end.

(** [breaker1.state.value], on the breaker object of the registry. *)
Definition primary_state : D string := fun d n =>
  let ex := dm_executor d in
  match od_get (resource_key ep_primary) (breakers (breaker_registry (router ex))) with
  | None => (Raise (RuntimeError "AttributeError"), d, n)
  | Some _ =>
      match on_breakers (on_breaker (resource_key ep_primary) (state (fun _ => dm_clock d))) (router ex) n with
      | (Ok st, r', n') =>
          (Ok (state_value st),
           {| dm_clock := dm_clock d; dm_executor := set_router r' ex; mock_primary := mock_primary d; mock_secondary := mock_secondary d;
              dm_printed := dm_printed d |}, n')
      | (Raise x, _, n') => (Raise x, d, n')
      end
  end.
Definition shown (r : NormalizedResponse) : string := default "None" (resp_content r).
Definition chosen (dec : RoutingDecision) : D string :=
  match selected_endpoint dec with Some e => mret (ep_id e) | None => raise (RuntimeError "AttributeError") end.
Definition rule : string := Nat.iter 75 (String (chr 61)) "".
Definition lf : string := String (chr 10) "".
Definition in_order (l : AttemptLedger) : string := py_str_nat (total_attempts l).

(** Steps 1 to 5 of [run_demo]. *)
Definition step_normal : D unit :=
  say "▶ STEP 1: Dispatching turn to Primary Provider (Cerebras)..." ;;
  program_primary [mock_success "Primary response: Tool code executed successfully"] ;;
  o ← demo_execute (demo_turn "req_turn_1" [demo_message "user" "Calculate prime factors of 2026"]);
  say ("  ✔ Result: " ++ shown o.1.1)%string ;;
  e ← chosen o.1.2;
  say ("  ✔ Selected Endpoint: " ++ e ++ " (Attempts: " ++ in_order o.2 ++ ")")%string ;;
  st ← primary_state;
  say ("  ✔ Primary Breaker State: " ++ st ++ lf)%string.
Definition step_outage : D unit :=
  say "▶ STEP 2: Primary suffers 503 Outage; Gateway initiates Semantic Failover..." ;;
  program_primary [mock_server_error 503 "Cerebras Service Unavailable"; mock_server_error 503 "Cerebras Service Unavailable"] ;;
  program_secondary [mock_success "Secondary (Groq) fallback response: recovered and completed task"] ;;
  o ← demo_execute (demo_turn "req_turn_2" [demo_message "user" "Deploy agent to cloud cluster"; demo_message "assistant" "Deploying..."]);
  say ("  ✔ Failover Succeeded! Response: " ++ shown o.1.1)%string ;;
  say ("  ✔ Total Attempts: " ++ in_order o.2 ++ " | Fallback Hops: " ++ py_str_nat (fallback_count o.2))%string ;;
  st ← primary_state;
  say ("  ✔ Primary Breaker State: " ++ st)%string ;;
  match failover_plans o.2 with
  | fplan :: _ => say ("  ✔ Observable FailoverPlan: " ++ default "None" (fp_source_endpoint fplan) ++ " -> " ++ fp_target_endpoint fplan ++
                       " (Reason: " ++ fp_failover_reason fplan ++ ")" ++ lf)%string
  | [] => mret tt
  end.
Definition step_bypass : D unit :=
  say "▶ STEP 3: Next Request arrives while Primary is OPEN..." ;;
  program_secondary [mock_success "Direct to secondary without touching primary"] ;;
  o ← demo_execute (demo_turn "req_turn_3" [demo_message "user" "Status update"]);
  e ← chosen o.1.2;
  say ("  ✔ Dispatched directly to: " ++ e ++ " (Primary bypassed with 0 upstream load)")%string ;;
  st ← primary_state;
  say ("  ✔ Attempts: " ++ in_order o.2 ++ " | Primary Breaker: " ++ st ++ lf)%string.
Definition step_recovery : D unit :=
  say "▶ STEP 4: Advancing clock by 20 seconds; Testing Self-Healing Recovery..." ;;
  advance 20 ;;
  st ← primary_state;
  say ("  ✔ Evaluated Breaker State: " ++ st ++ " (Now admits bounded probe permits)")%string ;;
  program_primary [mock_success "Primary probe call 1 successful"; mock_success "Primary probe call 2 successful"] ;;
  o4 ← demo_execute (demo_turn "req_turn_4" [demo_message "user" "Health probe turn"]);
  say ("  ✔ Probe 1 Admitted to Primary: " ++ shown o4.1.1)%string ;;
  o5 ← demo_execute (demo_turn "req_turn_5" [demo_message "user" "Health probe turn 2"]);
  say ("  ✔ Probe 2 Admitted to Primary: " ++ shown o5.1.1)%string ;;
  st ← primary_state;
  say ("  ✔ Breaker Reset! Primary State is now: " ++ st)%string.

(** [run_demo] *)
Definition run_demo : D unit :=
  say rule ;; say "⚡ DURALLM — DETERMINISTIC RESILIENCE & SEMANTIC FAILOVER DEMO" ;; say rule ;;
  say ("Simulating Autonomous Agent with Zero External Dependencies..." ++ lf)%string ;;
  step_normal ;; step_outage ;; step_bypass ;; step_recovery ;;
  say (lf ++ rule)%string ;;
  say "✔ DEMONSTRATION COMPLETE: High Availability Verified, FailoverPlan Emitted, Breaker Self-Healed" ;;
  say rule.
End demo.

(** ** Claims *)

(** A runtime whose clocks move by a millisecond a reading, with the JSON texts of the
    codec model. *)
Definition demo_world (uuids : nat -> string) (float_repr : Q -> string) (literal_eval : string -> option json)
    (parse_http_date : string -> option Q) (describe : exn -> error_value) (render : validation_error -> string) : Runtime := {|
  wall n := Qnat n / 1000; mono n := Qnat n / 1000; breaker_clock n := Qnat n / 1000; draws _ := 1 # 2; uuids := uuids; environ _ := None;
  dumps := JsonText.dumps float_repr; dumps_sorted := JsonText.dumps float_repr; dumps_indent := JsonText.dumps float_repr;
  loads := JsonText.loads; loads_lax := JsonText.loads; literal_eval := literal_eval; float_str := float_repr; sha256 s := s;
  parse_http_date := parse_http_date; describe := describe; render := render |}.

(** The demonstration shows what it says.  Whatever identifiers, float texts,
    dates and messages the runtime makes, the five turns are answered and the lines
    printed are these: the primary provider serves the first turn; its outage moves the
    second turn to the secondary one with one hop and a recorded plan and opens the
    breaker; the third turn goes straight to the secondary provider; after twenty
    seconds of the controlled clock two probes of the primary provider close the
    breaker again. *)
Theorem demo_transcript uuids float_repr literal_eval parse_http_date describe render py_repr :
  let o := run_demo (R := demo_world uuids float_repr literal_eval parse_http_date describe render) py_repr 60 demo_start 0%nat in
  out_res o = Ok tt /\
  dm_printed (out_st o) =
    [rule; "⚡ DURALLM — DETERMINISTIC RESILIENCE & SEMANTIC FAILOVER DEMO"; rule;
     "Simulating Autonomous Agent with Zero External Dependencies..." ++ lf;
     "▶ STEP 1: Dispatching turn to Primary Provider (Cerebras)...";
     "  ✔ Result: Primary response: Tool code executed successfully";
     "  ✔ Selected Endpoint: primary-cerebras (Attempts: 1)";
     "  ✔ Primary Breaker State: CLOSED" ++ lf;
     "▶ STEP 2: Primary suffers 503 Outage; Gateway initiates Semantic Failover...";
     "  ✔ Failover Succeeded! Response: Secondary (Groq) fallback response: recovered and completed task";
     "  ✔ Total Attempts: 2 | Fallback Hops: 1";
     "  ✔ Primary Breaker State: OPEN";
     "  ✔ Observable FailoverPlan: primary-cerebras -> secondary-groq (Reason: overloaded)" ++ lf;
     "▶ STEP 3: Next Request arrives while Primary is OPEN...";
     "  ✔ Dispatched directly to: secondary-groq (Primary bypassed with 0 upstream load)";
     "  ✔ Attempts: 1 | Primary Breaker: OPEN" ++ lf;
     "▶ STEP 4: Advancing clock by 20 seconds; Testing Self-Healing Recovery...";
     "  ✔ Evaluated Breaker State: HALF_OPEN (Now admits bounded probe permits)";
     "  ✔ Probe 1 Admitted to Primary: Primary probe call 1 successful";
     "  ✔ Probe 2 Admitted to Primary: Primary probe call 2 successful";
     "  ✔ Breaker Reset! Primary State is now: CLOSED";
     lf ++ rule;
     "✔ DEMONSTRATION COMPLETE: High Availability Verified, FailoverPlan Emitted, Breaker Self-Healed"; rule]%string.
Proof. intros o. split; vm_compute; reflexivity. Qed.

(** One 503 opens the breaker of the second step, although two are scripted and a
    comment says that two trip it: the success of the first step counts as the other of
    the two calls the window needs. *)
Example one_failure_trips uuids float_repr literal_eval parse_http_date describe render py_repr :
  let R := demo_world uuids float_repr literal_eval parse_http_date describe render in
  let d := out_st ((step_normal (R := R) py_repr 60 ;; step_outage (R := R) py_repr 60) demo_start 0%nat) in
  current_index (mock_primary d) = 1%nat /\
  option_map bstate (od_get (resource_key ep_primary) (breakers (breaker_registry (router (dm_executor d))))) = Some OPEN.
Proof. intros R d. split; vm_compute; reflexivity. Qed.
