(* ===== verification/ExecutorStreamProps.v ===== *)
(** * What native streams guarantee

    Opening a stream terminates, and what it opens speaks the client's protocol;
    the outcome of a relayed stream is reported once.  But candidates that are
    passed over after admission keep their breaker's permit, and a client that
    goes away is counted against the provider. *)

From stdpp Require Import base tactics list gmap strings.
From Stdlib Require Import QArith Qround.
From S2P Require Import Prelude Json Models PyText Execution Metrics Breaker BreakerProps Registry Profile Telemetry Requirements RoutingStores Router RouterProps ToolLedger SqliteStore IR Context ToolValidation ResponseValidation Classifier Interfaces Executor ExecutorDemo ExecutorProps ExecutorStream.

Section stream_progress.
Context {R : Runtime} {T A : Type} `{TL : ToolLedgerOps T} `{AS : AttemptStoreOps A}.
Context (adapters : odict string StreamAdapter).
Implicit Types w : Run T A.

Lemma grows_pass_over w0 e why : preserves (grows w0) (pass_over e why).
Proof. unfold pass_over. grow. Qed.
Lemma grows_timeouts w0 d b : preserves (grows w0) (transport_timeouts mono d b).
Proof. unfold transport_timeouts, make_transport_timeouts. grow. Qed.
Lemma grows_stream_billing w0 pool e f : preserves (grows w0) (stream_billing pool e f).
Proof. unfold stream_billing. grow. Qed.
Lemma grows_stream_fallback w0 pool e f : preserves (grows w0) (stream_fallback pool e f).
Proof. unfold stream_fallback. grow. Qed.
#[local] Hint Resolve grows_pass_over grows_timeouts grows_stream_billing grows_stream_fallback : executor.
Lemma grows_stream_adapt w0 e p : preserves (grows w0) (stream_adapt e p).
Proof. unfold stream_adapt. grow. Qed.
Lemma grows_open_failure w0 pool e s f a : preserves (grows w0) (record_open_failure pool e s f a).
Proof. unfold record_open_failure. grow. Qed.
Lemma grows_after_failure w0 d pool e f : preserves (grows w0) (after_open_failure d pool e f).
Proof. unfold after_open_failure. grow. Qed.
#[local] Hint Resolve grows_stream_adapt grows_open_failure grows_after_failure : executor.

(** ** Every pass makes progress *)

Section gains.
Context (w0 : Run T A) (e : Endpoint).

Lemma pass_over_gains {B} (ok : B -> Prop) why (k : M exn (Run T A) B) :
  (forall w1, preserves (grows w1) k) -> gains w0 e ok (pass_over e why ;; k).
Proof.
  intros Hk. apply gains_then; [|done]. unfold pass_over. apply exclude_gains. intros w1. grow.
Qed.
Lemma stream_adapt_gains p : gains w0 e (fun o => o = None) (stream_adapt e p).
Proof.
  unfold stream_adapt. apply gains_seq; [apply preserves_get | intros w]. cbv zeta.
  destruct (compact _ _ _ _ _ _) as [[r c]|x]; [by apply gains_ret|].
  destruct x; first [apply pass_over_gains; intros; apply preserves_ret | apply gains_raise].
Qed.
Lemma stream_admission_gains : gains w0 e (fun b => b = false) (stream_admission e).
Proof.
  unfold stream_admission. intros w n Hw. unfold catch.
  assert (Hm : preserves (grows w0) (on_ledger (validate_next_candidate (ep_id e)) ;; breaker_call e (acquire_permission breaker_clock) ;; mret true)) by grow.
  specialize (Hm w n Hw).
  destruct ((on_ledger (validate_next_candidate (ep_id e)) ;; breaker_call e (acquire_permission breaker_clock) ;; mret true) w n) as [[[b|x] w'] n'] eqn:E.
  - intros b' [= <-] ->. exfalso. apply bind_inv in E as (u & w1 & n1 & _ & E). apply bind_inv in E as (v & w2 & n2 & _ & E). done.
  - revert Hm. apply (pass_over_gains (fun b => b = false)). intros. apply preserves_ret.
Qed.
Lemma open_failure_gains pool s f a : gains w0 e (fun _ => True) (record_open_failure pool e s f a).
Proof.
  unfold record_open_failure. do 6 (apply gains_seq; [grow | intros ?]).
  apply gains_then; [apply record_gains | intros _ w1; grow].
Qed.

Lemma stream_attempt_gains d pool keys dec p : gains w0 e (fun o => o = Again) (stream_attempt adapters d pool keys e dec p).
Proof.
  unfold stream_attempt. apply gains_case with (bad := fun o => o = None); [apply stream_adapt_gains | grow|].
  intros [[r c]|]; [right | left; split; [done | intros; apply preserves_ret]].
  apply gains_seq; [grow | intros ad]. destruct (stream_open ad) as [open|]; [|apply pass_over_gains; intros; apply preserves_ret].
  do 6 (apply gains_seq; [grow | intros ?]).
  apply gains_seq; [intros w n Hw; exact Hw | intros result]. destruct (first_bytes result) as [[c' rest]|[[err st] hs]].
  - do 3 (apply gains_seq; [grow | intros ?]). by apply gains_ret.
  - apply gains_seq; [grow | intros f]. apply gains_then; [apply open_failure_gains | intros _ w1; grow].
Qed.
End gains.

Lemma await_continues d pool w n o w' n' : await_rollover d pool w n = (Ok o, w', n') -> o = Continue.
Proof.
  unfold await_rollover. intros H. apply bind_inv in H as (w1 & s1 & n1 & _ & H). destruct (collect_limited _ _) as [l ds].
  apply bind_inv in H as (rem & s2 & n2 & _ & H). cbv zeta in H. destruct (_ && _ && _); [|done].
  repeat (apply bind_inv in H as (? & ? & ? & _ & H)). by injection H.
Qed.

Lemma stream_iteration_progress d pool st req keys proto w n w' n' :
  stream_iteration adapters d pool st req keys proto w n = (Ok Again, w', n') -> (total_of w < cap_of w)%nat -> advanced pool w w'.
Proof.
  intros H Hcap. eapply (pass_advances (fun o => o = Again)) in H; [exact H | done | done | |].
  - intros e dec. cbn [fst snd]. case_match; [apply pass_over_gains; intros; apply preserves_ret|].
    apply gains_seq; [apply preserves_get | intros w1]. cbv zeta. case_match; [apply pass_over_gains; intros; apply preserves_ret|].
    apply gains_case with (bad := fun b => b = false); [apply stream_admission_gains | unfold stream_admission; grow|].
    intros [|]; [right; apply stream_attempt_gains | left; split; [done | intros; apply preserves_ret]].
  - intros dec w2 n2 H2. cbn [fst] in H2. apply bind_inv in H2 as (o & w3 & n3 & Ha & [= <- <-]). exists n3.
    by rewrite Ha, (await_continues _ _ _ _ _ _ _ Ha).
Qed.

Lemma stream_loop_ends fuel d pool st req keys proto w n :
  (passes pool w < fuel)%nat -> out_res (stream_loop adapters fuel d pool st req keys proto w n) <> Ok None.
Proof.
  revert w n. induction fuel as [|fuel IH]; intros w n Hf; [lia|]. cbn [stream_loop].
  destruct (is_expired mono d w n) as [[[x|err] w1] n1] eqn:Ex; [|by erewrite bind_raise by exact Ex].
  assert (w1 = w) as -> by (pose proof (preserves_expired (fun s => s = w) mono d w n eq_refl) as Hp; by rewrite Ex in Hp).
  erewrite bind_ok by exact Ex. cbv beta. mstep. destruct (x || _) eqn:Ec; [done|].
  apply orb_false_iff in Ec as [_ Hcap]. apply Nat.leb_gt in Hcap.
  destruct (stream_iteration adapters d pool st req keys proto w n1) as [[[o|err] w2] n2] eqn:Ei; [|by erewrite bind_raise by exact Ei].
  erewrite bind_ok by exact Ei. cbv beta.
  destruct o as [|h]; [|done]. apply IH. apply stream_iteration_progress in Ei as (Hd & _)%advanced_decreases; [lia | done | done].
Qed.

(** ** Earlier attempts all failed *)

Definition all_failed w : Prop := Forall (fun a => ar_success a = false) (attempts (attempt_ledger (vars w))).

Lemma failed_self {B} (m : M exn (GatewayExecutor T A) B) : preserves all_failed (on_self m).
Proof. intros w n Hw. unfold on_self, zoom. destruct (m (self w) n) as [[r ex] n']. exact Hw. Qed.
Lemma failed_upd_self f : preserves all_failed (upd_self f : M exn (Run T A) unit).
Proof. by intros w n Hw. Qed.
Lemma failed_vars f : (forall v, attempt_ledger (f v) = attempt_ledger v) -> preserves all_failed (upd_vars f : M exn (Run T A) unit).
Proof. intros Hf w n Hw. unfold all_failed. cbn. by rewrite Hf. Qed.
Lemma failed_ledger {B} (m : M exn LedgerState B) :
  preserves (fun s => Forall (fun a => ar_success a = false) (attempts (led s))) m -> preserves all_failed (on_ledger m).
Proof. intros Hm w n Hw. specialize (Hm (ledger_state w) n Hw). unfold on_ledger, zoom. fold (ledger_state w). by destruct (m (ledger_state w) n) as [[r st] n']. Qed.
Lemma failed_record a : ar_success a = false -> preserves all_failed (on_ledger (record_attempt a)).
Proof. intros Ha. apply failed_ledger, preserves_modify. intros s Hs. cbn. apply Forall_app. by repeat constructor. Qed.
Lemma failed_store m : preserves all_failed (on_attempt_store m : M exn (Run T A) unit).
Proof. intros w n Hw. unfold on_attempt_store. destruct (attempt_store (self w)) as [st|]; [|done]. by destruct (m st n) as [[r st'] n']. Qed.
Lemma failed_finish {B} s f a (k : AttemptRecord -> M exn (Run T A) B) :
  (forall a', ar_success a' = false -> preserves all_failed (k a')) -> preserves all_failed (finish false s f a ≫= k).
Proof. intros Hk w n Hw. unfold finish. rewrite (bind_ok _ _ w n _ w (S n) eq_refl). by apply Hk. Qed.
Lemma failed_fallback : preserves all_failed (on_ledger mark_fallback).
Proof. by apply failed_ledger, preserves_modify. Qed.
Lemma failed_validate id : preserves all_failed (on_ledger (validate_next_candidate id)).
Proof. apply failed_ledger. unfold validate_next_candidate. preserve. Qed.
Lemma failed_reset l : preserves all_failed (on_ledger (reset_for_rate_limit_retry l)).
Proof.
  apply failed_ledger. unfold reset_for_rate_limit_retry. apply preserves_bind; [by apply preserves_modify | intros _].
  apply preserves_modify. intros s Hs. by case_match.
Qed.
#[local] Hint Resolve failed_self failed_upd_self failed_store failed_fallback failed_validate failed_reset : executor.

Ltac keeps_failed :=
  preserve; repeat first
    [ apply preserves_catch; [|intros ?]; preserve
    | solve [eauto with executor]
    | solve [apply failed_vars; intros ?; repeat case_match; done] ].

Lemma failed_await d pool : preserves all_failed (await_rollover d pool).
Proof. unfold await_rollover, sleep. keeps_failed. Qed.
Lemma failed_pass_over e why : preserves all_failed (pass_over e why).
Proof. unfold pass_over, exclude. keeps_failed. Qed.
#[local] Hint Resolve failed_record failed_await failed_pass_over : executor.
Lemma failed_stream_adapt e p : preserves all_failed (stream_adapt e p).
Proof. unfold stream_adapt. keeps_failed. Qed.
Lemma failed_timeouts d b : preserves all_failed (transport_timeouts mono d b).
Proof. unfold transport_timeouts, make_transport_timeouts. keeps_failed. Qed.
Lemma failed_open_failure pool e st f a : preserves all_failed (record_open_failure pool e st f a).
Proof.
  unfold record_open_failure. apply failed_finish. intros a' Ha.
  unfold breaker_call, health_call, stream_billing, record_lane_outcome, finish_durable_attempt, on_pool_manager, on_router, exclude_once. keeps_failed.
Qed.
Lemma failed_after d pool e f : preserves all_failed (after_open_failure d pool e f).
Proof. unfold after_open_failure, stream_fallback, sleep, exclude, health_call, on_pool_manager, on_router. keeps_failed. Qed.
#[local] Hint Resolve failed_stream_adapt failed_timeouts failed_open_failure failed_after : executor.
Lemma failed_attempt d pool keys e dec p : preserves all_failed (stream_attempt adapters d pool keys e dec p).
Proof. unfold stream_attempt, prepare_durable_attempt, new_attempt, on_pool_manager. keeps_failed. Qed.
#[local] Hint Resolve failed_attempt : executor.
Lemma failed_iteration d pool st req keys proto : preserves all_failed (stream_iteration adapters d pool st req keys proto).
Proof. unfold stream_iteration, on_router, stream_admission, breaker_call. keeps_failed. Qed.

(** ** What an opened stream is *)

(** The stream of a handle is what the provider answered, from its first byte,
    to a request with the streaming flag. *)
Definition relays (h : NativeStreamHandle) : Prop :=
  exists ad open prepared timeouts m result s fs, get_adapter adapters (ep_provider (h_endpoint h)) (ep_protocol (h_endpoint h)) = Ok ad /\
    stream_open ad = Some open /\ open prepared timeouts m = Ok result /\
    pr_body prepared = dumps (JObj fs) /\ od_get "stream" fs = Some (JBool true) /\
    os_status_code result = 200%Z /\ os_stream result = Some s /\
    script_chunks s = h_first_chunk h :: script_chunks (h_rest h) /\ script_end s = script_end (h_rest h).

Lemma first_bytes_inv result c rest : first_bytes result = inl (c, rest) ->
  os_status_code result = 200%Z /\ c <> "" /\
  exists s, os_stream result = Some s /\ script_chunks s = c :: script_chunks rest /\ script_end s = script_end rest.
Proof.
  unfold first_bytes, next_chunk. destruct (os_stream result) as [s|]; [|done]. destruct (Z.eqb_spec (os_status_code result) 200); [|done].
  destruct (script_chunks s) as [|c' cs] eqn:E; [by case_match|]. destruct (truthy c') eqn:Et; [|done]. intros [= <- <-].
  split_and!; [done | by intros -> | by exists s].
Qed.
Lemma streaming_inv p p' : streaming_prepared_request dumps loads p = Ok p' -> exists fs, pr_body p' = dumps (JObj fs) /\ od_get "stream" fs = Some (JBool true).
Proof.
  unfold streaming_prepared_request. intros. repeat case_match; simplify_eq. eexists. split; [reflexivity | apply od_get_set_eq].
Qed.

Lemma stream_attempt_opened d pool keys e dec p w n h w' n' : stream_attempt adapters d pool keys e dec p w n = (Ok (Opened h), w', n') ->
  h_endpoint h = e /\ h_vars h = vars w' /\ relays h /\ h_first_chunk h <> "" /\ h_finished h = false /\ ar_endpoint_id (h_attempt h) = ep_id e.
Proof.
  unfold stream_attempt. intros H. apply bind_inv in H as ([[r c]|] & w1 & n1 & _ & H); [|done].
  apply bind_inv in H as (ad & w2 & n2 & [= Had <- <-] & H).
  destruct (stream_open ad) as [open|] eqn:Eo; [|by apply bind_inv in H as (? & ? & ? & _ & H)].
  apply bind_inv in H as (key & w3 & n3 & _ & H). apply bind_inv in H as (pl & w4 & n4 & _ & H).
  apply bind_inv in H as (pr & w5 & n5 & [= Hpr <- <-] & H). apply bind_inv in H as (a & w6 & n6 & Ha & H).
  apply bind_inv in H as (? & w7 & n7 & _ & H). apply bind_inv in H as (tm & w8 & n8 & _ & H).
  apply bind_inv in H as (result & w9 & n9 & [= Hres <- <-] & H).
  destruct (first_bytes result) as [[c' rest]|[[err st] hs]] eqn:Ef.
  2:{ do 3 (apply bind_inv in H as (? & ? & ? & _ & H)). done. }
  apply bind_inv in H as (now & ? & ? & _ & H). cbv zeta in H. apply bind_inv in H as (? & ? & ? & _ & H).
  apply bind_inv in H as (? & ? & ? & [= <- <- <-] & [= <- <- _]). cbn [h_endpoint h_vars h_first_chunk h_finished h_attempt].
  apply first_bytes_inv in Ef as (Hst & Hne & s & Hs & Hch & Hend). apply streaming_inv in Hpr as (fs & Hb & Hfs).
  split_and!; [done | done | by exists ad, open, pr, tm, n8, result, s, fs | done | done|].
  unfold new_attempt in Ha. apply bind_inv in Ha as (? & ? & ? & _ & Ha). apply bind_inv in Ha as (? & ? & ? & _ & [= <- _ _]). done.
Qed.

Definition opened_ok (pool proto : string) w (h : NativeStreamHandle) : Prop :=
  h_endpoint h ∈ endpoints_for_pool pool (registry_of w) /\ ep_protocol (h_endpoint h) = proto /\
  supports_streaming (profile_of (h_endpoint h) w) = true /\ h_first_chunk h <> "" /\ h_finished h = false /\
  ar_endpoint_id (h_attempt h) = ep_id (h_endpoint h) /\ relays h.

Lemma profile_kept e w w' : registry_of w' = registry_of w -> profile_of e w' = profile_of e w.
Proof. unfold registry_of, profile_of. by intros ->. Qed.

Lemma stream_iteration_opened d pool st req keys proto w n h w' n' :
  stream_iteration adapters d pool st req keys proto w n = (Ok (Opened h), w', n') -> opened_ok pool proto w h /\ h_vars h = vars w'.
Proof.
  intros H. apply selection_inv in H as (sel & dec & w2 & n2 & H & (Hreg & _) & _ & Hsel). cbn [fst snd] in H.
  destruct sel as [e|]; [|by apply bind_inv in H as (? & ? & ? & _ & H)].
  destruct (String.eqb_spec (ep_protocol e) proto) as [Hproto|]; cbn [negb] in H; [|by apply bind_inv in H as (? & ? & ? & _ & H)].
  apply bind_inv in H as (? & ? & ? & [= <- <- <-] & H). cbv zeta in H.
  destruct (supports_streaming (profile_of e w2)) eqn:Esup; cbn [negb] in H; [|by apply bind_inv in H as (? & ? & ? & _ & H)].
  apply bind_inv in H as ([|] & w3 & n3 & _ & H); [|done].
  apply stream_attempt_opened in H as (He & Hv & Hrel & Hne & Hfin & Hid). rewrite (profile_kept e w w2 Hreg) in Esup.
  split; [|done]. unfold opened_ok. rewrite He. split_and!; auto. apply Hsel.
Qed.

Lemma stream_loop_opened fuel d pool st req keys proto w n h w' n' : all_failed w ->
  stream_loop adapters fuel d pool st req keys proto w n = (Ok (Some h), w', n') ->
  opened_ok pool proto w h /\ Forall (fun a => ar_success a = false) (attempts (attempt_ledger (h_vars h))).
Proof.
  revert w n. induction fuel as [|fuel IH]; intros w n Hf H; [done|]. cbn [stream_loop] in H.
  apply bind_inv in H as (x & w1 & n1 & Ex & H).
  assert (w1 = w) as -> by (pose proof (preserves_expired (fun s => s = w) mono d w n eq_refl) as Hp; by rewrite Ex in Hp).
  apply bind_inv in H as (? & ? & ? & [= <- <- <-] & H). destruct (x || _) eqn:Ec; [done|].
  apply orb_false_iff in Ec as [_ Hcap]. apply Nat.leb_gt in Hcap. apply bind_inv in H as (o & w2 & n2 & Ei & H).
  pose proof (failed_iteration d pool st req keys proto w n1 Hf) as Hf2. rewrite Ei in Hf2. destruct o as [|h'].
  - apply stream_iteration_progress in Ei as (_ & _ & Hreg)%advanced_decreases; [|done|done].
    destruct (IH w2 n2 Hf2 H) as [Hok Hall]. split; [|done]. unfold opened_ok in *. by rewrite Hreg, (profile_kept _ w w2 Hreg) in Hok.
  - injection H as <- <- _. apply stream_iteration_opened in Ei as [Hok Hv]. split; [done|]. by rewrite Hv.
Qed.

Lemma open_unfold fuel r pool st keys proto dl (ex : GatewayExecutor T A) n : tools r = [] ->
  exists d req, let o := stream_loop adapters fuel d pool st req keys proto {| self := ex; vars := initial_locals r |} (S n) in
    open_native_stream adapters fuel r pool st keys proto dl ex n = (out_res o, self (out_st o), o.2).
Proof.
  intros Ht. set (w := {| self := ex; vars := initial_locals r |}).
  assert (exists d, new_deadline mono environ dl w n = (Ok d, w, S n)) as [d Hd] by (eexists; reflexivity).
  exists d, (stream_requirements r pool (Z.of_nat (estimate_tokens dumps r)) (compute_prefix_hash dumps_sorted sha256 r)).
  cbv zeta. unfold open_native_stream. rewrite Ht. fold w. erewrite bind_ok by exact Hd. cbv beta.
  by destruct (stream_loop _ _ _ _ _ _ _ _ _ _) as [[o w'] n'].
Qed.
End stream_progress.

(** ** Claims *)

(** C6: Opening a native stream always comes to an end: within the passes that
    bound [execute], it has returned a stream or raised, whatever the providers
    answer and whatever the clocks show. *)
Theorem open_native_stream_terminates `{Runtime} `{ToolLedgerOps T} `{AttemptStoreOps A} adapters fuel r pool st keys proto dl
    (ex : GatewayExecutor T A) n :
  (4 * (max_total_attempts (ex_policy ex) + length (endpoints_for_pool pool (capability_registry (router ex))) + 1) <= fuel)%nat ->
  out_res (open_native_stream adapters fuel r pool st keys proto dl ex n) <> Ok None.
Proof.
  intros Hf. destruct (tools r) as [|t ts] eqn:Et; [|unfold open_native_stream; by rewrite Et].
  destruct (open_unfold adapters fuel r pool st keys proto dl ex n Et) as (d & req & ->). cbn [out_res fst].
  apply stream_loop_ends. set (w := {| self := ex; vars := initial_locals r |}).
  pose proof (fresh_le pool w) as Hfr. unfold passes, budget_of, cap_of, total_of, registry_of in *. cbn in *. lia.
Qed.

(** C5: What an opened stream is.  The request had no tools; the endpoint is one of
    the pool, speaks the client's protocol and streams; the stream is the
    provider's own, from its first, non-empty chunk, for a request sent with the
    streaming flag.  Every attempt before it failed without a byte handed on, and
    its own attempt is open: bytes of two providers are never mixed. *)
Theorem opened_stream_sound `{Runtime} `{ToolLedgerOps T} `{AttemptStoreOps A} adapters fuel r pool st keys proto dl
    (ex : GatewayExecutor T A) n h ex' n' :
  open_native_stream adapters fuel r pool st keys proto dl ex n = (Ok (Some h), ex', n') ->
  tools r = [] /\ opened_ok adapters pool proto {| self := ex; vars := initial_locals r |} h /\
  Forall (fun a => ar_success a = false) (attempts (attempt_ledger (h_vars h))).
Proof.
  intros Ho. destruct (tools r) as [|t ts] eqn:Et; [split; [done|] | unfold open_native_stream in Ho; by rewrite Et in Ho].
  destruct (open_unfold adapters fuel r pool st keys proto dl ex n Et) as (d & req & Hx). cbv zeta in Hx. rewrite Ho in Hx.
  destruct (stream_loop _ _ _ _ _ _ _ _ _ _) as [[o w'] n''] eqn:E. cbn in Hx. simplify_eq.
  eapply stream_loop_opened; [|exact E]. constructor.
Qed.

(** ** The outcome of a stream *)

Section stream_report.
Context {R : Runtime} {T A : Type} `{TL : ToolLedgerOps T} `{AS : AttemptStoreOps A}.
Implicit Types w : Run T A.

Lemma vars_self {B} v (m : M exn (GatewayExecutor T A) B) : preserves (fun w => vars w = v) (on_self m).
Proof. intros w n Hw. unfold on_self, zoom. by destruct (m (self w) n) as [[r ex] n']. Qed.
Lemma vars_store v m : preserves (fun w => vars w = v) (on_attempt_store m : M exn (Run T A) unit).
Proof. intros w n Hw. unfold on_attempt_store. destruct (attempt_store (self w)) as [st|]; [|done]. by destruct (m st n) as [[r st'] n']. Qed.
Lemma vars_classify v e s h : preserves (fun w => vars w = v) (classify_failure wall parse_http_date e s h : M exn (Run T A) _).
Proof. apply preserves_classify. Qed.

#[local] Hint Resolve vars_self vars_store vars_classify : executor.
Lemma vars_lane v e f : preserves (fun w => vars w = v) (record_lane_outcome e f).
Proof. unfold record_lane_outcome, on_router. repeat case_match; eauto with executor; preserve; eauto with executor. Qed.

(** Both endings report to the breaker, health and lanes, then file one attempt. *)
Lemma report_files (bm : M exn (CircuitBreaker * option unit) unit) (hm : M exn HealthTelemetryStore unit) e fo a st d w n u w' n' :
  (breaker_call e bm ;; health_call hm ;; record_lane_outcome e fo ;; on_ledger (record_attempt a) ;; finish_durable_attempt a st d) w n
    = (Ok u, w', n') -> attempts (attempt_ledger (vars w')) = attempts (attempt_ledger (vars w)) ++ [a].
Proof.
  intros H. apply bind_inv in H as (? & w1 & n1 & H1 & H). apply bind_inv in H as (? & w2 & n2 & H2 & H).
  apply bind_inv in H as (? & w3 & n3 & H3 & H). apply bind_inv in H as (? & w4 & n4 & H4 & H).
  apply (preserves_run _ _ _ _ _ _ _ (vars_self (vars w) _)) in H1; [|done]. apply (preserves_run _ _ _ _ _ _ _ (vars_self (vars w) _)) in H2; [|done].
  apply (preserves_run _ _ _ _ _ _ _ (vars_lane (vars w) _ _)) in H3; [|done]. injection H4 as _ <- _.
  eapply (preserves_run _ _ _ _ _ _ _ (vars_store _ _)) in H; [|reflexivity]. by rewrite H, <- H3.
Qed.

Definition files (ok : bool) (h : NativeStreamHandle) (v v' : Locals) : Prop :=
  exists a, attempts (attempt_ledger v') = attempts (attempt_ledger v) ++ [a] /\ ar_success a = ok /\
    attempt_id a = attempt_id (h_attempt h) /\ ar_endpoint_id a = ar_endpoint_id (h_attempt h).

Lemma success_files h w n u w' n' : h_finished h = false -> finish_success h w n = (Ok u, w', n') -> files true h (vars w) (vars w').
Proof.
  unfold finish_success. intros -> H. apply bind_inv in H as (a & w1 & n1 & [= <- <- <-] & H). apply report_files in H.
  by eexists.
Qed.
Lemma failure_files h b w n u w' n' : h_finished h = false -> finish_failure h b w n = (Ok u, w', n') -> files false h (vars w) (vars w').
Proof.
  unfold finish_failure. intros -> H. apply bind_inv in H as (f & w1 & n1 & Hf & H). apply bind_inv in H as (a & w2 & n2 & [= <- <- <-] & H).
  apply report_files in H. apply (preserves_run _ _ _ _ _ _ _ (vars_classify (vars w) _ _ _)) in Hf; [|done]. rewrite Hf in H. by eexists.
Qed.
End stream_report.

(** C26: A relayed stream is reported exactly once.  The consumer gets the first
    chunk and then the provider's non-empty chunks in order, all of them unless the
    stream broke or the consumer left; one attempt is filed for it, a success
    exactly when the stream came to its end; iterating or cancelling the handle
    again files nothing and leaves the executor alone. *)
Theorem stream_reported_once `{Runtime} `{ToolLedgerOps T} `{AttemptStoreOps A} h closed (ex : GatewayExecutor T A) n chunks ending h' ex' n' :
  h_finished h = false -> closed <> Some 0%nat -> handle_iter_bytes h closed ex n = (Ok (chunks, ending, h'), ex', n') ->
  let all := h_first_chunk h :: filter (fun c => truthy c = true) (script_chunks (h_rest h)) in
  chunks `prefix_of` all /\ (closed = None -> chunks = all /\ ending = script_end (h_rest h)) /\
  files (bool_decide (ending = None)) h (h_vars h) (h_vars h') /\
  (forall reason, handle_cancel reason h' = h') /\ forall closed' (ex2 : GatewayExecutor T A) n2, exists chunks' ending' h2,
    handle_iter_bytes h' closed' ex2 n2 = (Ok (chunks', ending', h2), ex2, n2) /\ h_vars h2 = h_vars h'.
Proof.
  intros Hfin Hc Ho all. unfold handle_iter_bytes in Ho. rewrite bool_decide_false in Ho by done.
  destruct (relayed h closed) as [cs en] eqn:Er. cbv zeta in Ho.
  destruct ((match en with Some b => finish_failure h b | None => finish_success h end) {| self := ex; vars := h_vars h |} n)
    as [[[u|x] w] m] eqn:Ef; [|done].
  injection Ho as -> -> <- <- <-. split_and!.
  - unfold relayed in Er. repeat case_match; simplify_eq; try done. apply prefix_take.
  - intros ->. unfold relayed in Er. by injection Er as <- <-.
  - destruct ending as [b|]; [by eapply failure_files in Ef | by eapply success_files in Ef].
  - done.
  - intros closed' ex2 n2. unfold handle_iter_bytes. case_bool_decide; [by do 3 eexists|].
    destruct (relayed _ closed') as [cs' en']. exists cs', en'. eexists. split; [|reflexivity].
    by destruct en'.
Qed.

(** ** A stream on the demonstration gateway *)

(** A runtime whose bodies parse, so that the streaming flag can be set. *)
#[export] Instance stream_runtime : Runtime := {|
  wall n := Qnat n; mono n := (Qnat n / 1000)%Q; breaker_clock n := (Qnat n / 1000)%Q; draws _ := 1 # 2; uuids := py_str_nat; environ _ := None;
  dumps _ := "{}"; dumps_sorted _ := "{}"; dumps_indent _ := "{}"; loads _ := Some (JObj []); loads_lax _ := None;
  literal_eval _ := None; float_str _ := ""; sha256 s := s; parse_http_date _ := None; describe _ := text_error "exception"; render _ := "invalid" |}.

Definition stream_adapter (status : Z) (chunks : list string) (ending : option stream_break) : StreamAdapter :=
  {| stream_prepare e r key := Ok {| pr_url := ep_id e; pr_headers := []; pr_body := key; pr_method := "POST" |};
     stream_open := Some (fun _ _ _ => Ok {| os_status_code := status; os_headers := []; os_duration_ms := 10; os_body := "busy";
                                             os_stream := if (status =? 200)%Z then Some {| script_chunks := chunks; script_end := ending |} else None |}) |}.
Definition demo_streams : odict string StreamAdapter :=
  [("groq", stream_adapter 503 [] None); ("mistral", stream_adapter 200 ["fi"; ""; "ne"] None)].
Definition demo_gateway : GatewayExecutor ToolExecutionLedger Database :=
  demo_executor [demo_endpoint "a" "groq" "llama" 1 []; demo_endpoint "b" "mistral" "codestral" 2 []] (new_breaker_registry None).
Definition demo_stream := open_native_stream demo_streams 60 (demo_request []) "coding" (Some "priority") [] "openai" 300000 demo_gateway 0%nat.
(** A refused first endpoint, then the stream of the second. *)
Lemma demo_stream_opens : match out_res demo_stream with Ok (Some h) => h_first_chunk h = "fi" | _ => False end.
Proof. vm_compute. exact eq_refl. Qed.

Lemma open_native_stream_terminates_witness : out_res demo_stream <> Ok None.
Proof. apply open_native_stream_terminates. vm_compute. lia. Defined.

Lemma opened_stream_sound_witness :
  match out_res demo_stream with
  | Ok (Some h) => h_first_chunk h = "fi" /\ ep_protocol (h_endpoint h) = "openai" /\ relays demo_streams h /\
      Forall (fun a => ar_success a = false) (attempts (attempt_ledger (h_vars h)))
  | _ => False
  end.
Proof.
  pose proof demo_stream_opens as Hc. destruct demo_stream as [[[[h|]|x] ex'] n'] eqn:E; [|done..].
  destruct (opened_stream_sound _ _ _ _ _ _ _ _ _ _ _ _ _ E) as (_ & (_ & Hp & _ & _ & _ & _ & Hr) & Hf).
  split; [exact Hc|]. by split_and!.
Defined.

Lemma stream_reported_once_witness :
  match demo_stream with
  | (Ok (Some h), ex, n) =>
      match handle_iter_bytes h None ex n with
      | (Ok (chunks, ending, h'), _, _) => chunks = ["fi"; "ne"] /\ files (bool_decide (ending = None)) h (h_vars h) (h_vars h')
      | _ => False
      end
  | _ => False
  end.
Proof.
  assert (match demo_stream with
          | (Ok (Some h), ex, n) => h_finished h = false /\ match handle_iter_bytes h None ex n with
              | (Ok (chunks, _, _), _, _) => chunks = ["fi"; "ne"] | _ => False end
          | _ => False end) as Hc by (vm_compute; split; exact eq_refl).
  destruct demo_stream as [[[[h|]|x] ex] n]; [|done..]. destruct Hc as [Hfin Hc].
  destruct (handle_iter_bytes h None ex n) as [[[[[chunks ending] h']|x] ex'] n'] eqn:E; [|done].
  destruct (stream_reported_once h None ex n chunks ending h' ex' n' Hfin ltac:(discriminate) E) as (_ & _ & Hf & _). by split.
Defined.

(** ** Two native-stream runs

    Streams on the demonstration gateway whose effect on the circuit breaker is
    not what the code intends: handles that are given up before their first chunk
    is asked for keep the probe permits of a recovering breaker, and clients that
    leave in the middle of a healthy stream trip it. *)

Module StreamRuns.
Definition lone_endpoint : Endpoint := demo_endpoint "b" "mistral" "codestral" 1 [].
Definition tripped_streams : CircuitBreakerRegistry :=
  out_st (for_each (replicate 10 tt) (fun _ => on_breaker (resource_key lone_endpoint) (record_failure breaker_clock 10 None None))
    (new_breaker_registry None) 0%nat).

(** What a client does with its stream: reads it to the end, leaves after some
    chunks, or is gone before the first. *)
Definition serve_stream (closed : option nat) (s : GatewayExecutor ToolExecutionLedger Database * nat)
    : GatewayExecutor ToolExecutionLedger Database * nat :=
  match open_native_stream demo_streams 60 (demo_request []) "coding" (Some "priority") [] "openai" 300000 (fst s) (snd s) with
  | (Ok (Some h), ex, n) => let '(_, ex', n') := handle_iter_bytes h closed ex n in (ex', n')
  | (_, ex, n) => (ex, n)
  end.
Definition serve_streams (k : nat) (closed : option nat) (s : GatewayExecutor ToolExecutionLedger Database * nat) :=
  Nat.iter k (serve_stream closed) s.
Definition breaker_after (s : GatewayExecutor ToolExecutionLedger Database * nat) : option CircuitBreaker :=
  od_get (resource_key lone_endpoint) (breakers (breaker_registry (router (fst s)))).
Definition opens (s : GatewayExecutor ToolExecutionLedger Database * nat) : bool :=
  match out_res (open_native_stream demo_streams 60 (demo_request []) "coding" (Some "priority") [] "openai" 300000 (fst s) (snd s)) with
  | Ok (Some _) => true | _ => false end.
Definition recovering := (demo_executor [lone_endpoint] tripped_streams, Z.to_nat 40000).
Definition fresh := (demo_executor [lone_endpoint] (new_breaker_registry None), 0%nat).

(** A stream that nobody starts to read keeps its permit.  The breaker is due
    for probing and the provider is healthy; two clients vanish before their first
    chunk is asked for, the handle's outcome is never reported, and the breaker
    stays HALF_OPEN with every permit in flight and refuses every call at every
    later reading of the clock, whereas two streams that are read close it. *)
Theorem unread_streams_wedge_breaker :
  opens recovering = true /\ opens (serve_streams 1 (Some 0%nat) recovering) = true /\
  (exists b, breaker_after (serve_streams 2 (Some 0%nat) recovering) = Some b /\ bstate b = HALF_OPEN /\
     half_open_in_flight b = half_open_max_calls (Breaker.config b) /\
     forall n, out_res (acquire_permission breaker_clock (b, None : option unit) n) = Raise (ProbeAdmissionDeniedError (breaker_id b))) /\
  bstate <$> breaker_after (serve_streams 2 None recovering) = Some CLOSED.
Proof.
  split_and!; [vm_compute; exact eq_refl.. | | vm_compute; exact eq_refl].
  assert (match breaker_after (serve_streams 2 (Some 0%nat) recovering) with
          | Some b => (bstate b, half_open_in_flight b, half_open_max_calls (Breaker.config b)) = (HALF_OPEN, 2%nat, 2%nat)
          | None => False end) as Hb by (vm_compute; exact eq_refl).
  destruct (breaker_after _) as [b|]; [|done]. injection Hb as Hs Hi Hm. exists b. rewrite Hi, Hm. split_and!; [done.. |].
  intros n. rewrite exhausted_refuses; cbn; congruence.
Qed.

(** Clients that leave count against the provider.  The provider streams every
    answer in full; ten clients close their connection after the first chunk, each
    is filed as a failed attempt of the provider, and its breaker opens, so that
    the next client is refused.  The same ten streams read to the end leave the
    breaker closed. *)
Theorem disconnects_trip_breaker :
  forallb (fun k => opens (serve_streams k (Some 1%nat) fresh)) (seq 0 10) = true /\
  bstate <$> breaker_after (serve_streams 10 (Some 1%nat) fresh) = Some OPEN /\
  opens (serve_streams 10 (Some 1%nat) fresh) = false /\
  bstate <$> breaker_after (serve_streams 10 None fresh) = Some CLOSED /\ opens (serve_streams 10 None fresh) = true.
Proof. split_and!; vm_compute; exact eq_refl. Qed.
End StreamRuns.
