(* ===== verification/Gateway.v ===== *)
(** * The proxy gateway

    [src/durallm/gateway.py]: the bridge from the route pools to the executor.  It
    mirrors routes as endpoints, runs requests, and drives the continuation
    protocol around them.  The executor's calls of the pool manager are recorded in
    the executor and applied to it when the request is done; the executor does not
    read the pool manager in between. *)

From stdpp Require Import base tactics list strings.
From stdpp Require Import gmap.
From Stdlib Require Import QArith Ascii.
From S2P Require Import Prelude Json Models PyText Execution Profile Requirements Telemetry Router Pools SqliteStore Classifier IR Continuation ContinuationSqlite Interfaces Executor.

(** ** The continuation store as an interface *)

Class ContinuationStore (C : Type) : Type := {
  co_begin_turn : ContinuationRequest -> M exn C ContinuationTurn;
  co_complete_turn : ContinuationTurn -> NormalizedRequest -> NormalizedResponse -> string -> M exn C ContinuationEvent;
  co_acknowledge : string -> string -> Z -> string -> M exn C ContinuationEvent;
  co_interrupt_turn : ContinuationTurn -> string -> M exn C ContinuationEvent;
}.
Definition memory_continuations (uuid : nat -> string) (wall : nat -> Q) (canonical : json -> string) (sha256 : string -> string)
    : ContinuationStore (gmap string Session) :=
  {| co_begin_turn := begin_turn uuid wall; co_complete_turn := complete_turn uuid wall canonical sha256;
     co_acknowledge := acknowledge uuid wall; co_interrupt_turn := interrupt_turn uuid wall |}.
Definition durable_continuations (py_str : json -> string) (uuid : nat -> string) (wall : nat -> Q) (canonical : json -> string)
    (sha256 : string -> string) : ContinuationStore ContinuationWorld :=
  {| co_begin_turn := durable_begin_turn py_str uuid wall; co_complete_turn := durable_complete_turn uuid wall canonical sha256;
     co_acknowledge := durable_acknowledge py_str uuid wall; co_interrupt_turn := durable_interrupt_turn uuid wall |}.

(** ** Endpoints and errors *)

Definition qualified (pool route_id : string) : string := (pool ++ ":" ++ route_id)%string.

Definition endpoint_from_route (route : RouteDefinition) (pool : string) (prio : Z) : Endpoint :=
  {| ep_id := qualified pool (rt_id route); ep_provider := rt_provider route; ep_model := rt_model route; base_url := rt_base_url route;
     ep_protocol := rt_api_format route; deployment := None; quota_bucket_id := None; env_key := rt_env_key route;
     env_keys := rt_env_keys route; ep_headers := rt_headers route; weight := 1; priority := prio;
     profile := Some (make_profile (rt_provider route) (rt_model route) (rt_api_format route) (rt_context_length route)
       (rt_max_output_tokens route) (Some true) (Some true) (Some true) false false false);
     ep_pool := pool; is_discovered := rt_is_discovered route; resource_lane := None |}.

(** [status] is the status code of the classification a non-recoverable failure
    carries. *)
Definition http_error_for (e : exn) (status : option Z) : Z * string :=
  match e with
  | NoHealthyRouteError _ | NoCandidateMatchesError _ => (503, "no_healthy_route")
  | DeadlineExceededError _ _ => (504, "deadline_exceeded")
  | ContextOverflowError _ _ => (413, "context_overflow")
  | NonRecoverableFailureError _ =>
      (match status with Some c => if (400 <=? c) && (c <? 500) then c else 502 | None => 502 end, "upstream_failure")
  | ConfigurationError => (500, "configuration_error")
  | ContinuationProtocolError code => (code, "continuation_protocol_error")
  | IndeterminateToolOperationError _ _ => (409, "indeterminate_tool_operation")
  | ToolOperationProtocolError code => (code, "tool_operation_protocol_error")
  | _ => (502, "gateway_error")
  end%Z.

Record ProxyGateway (T A C : Type) : Type := {
  pool_manager : IsolatedPoolManager;
  gw_executor : GatewayExecutor T A;
  synced : list string;
  continuation_store : C;
}.
Arguments pool_manager {T A C}. Arguments gw_executor {T A C}. Arguments synced {T A C}. Arguments continuation_store {T A C}.

Definition set_caps (f : CapabilityRegistry -> CapabilityRegistry) (r : CapabilityRouter) : CapabilityRouter :=
  Build_CapabilityRouter (f (capability_registry r)) (breaker_registry r) (health_store r) (default_strategy r) (lane_store r)
    (shadow_quality_policy r) (cache_tracker r) (scorer r) (round_robin_indices r) (dead_list r).
Definition set_pool_manager {T A} (b : bool) (e : GatewayExecutor T A) : GatewayExecutor T A :=
  Build_GatewayExecutor T A (router e) (ex_policy e) (preserve_tail_turns e) (ex_tool_validator e) (response_validator e)
    (tool_ledger e) (attempt_store e) (budget_store e) (key_pool e) b (failover_listeners e) (pool_calls e) (notifications e) (sleeps e).
Definition clear_pool_calls {T A} (e : GatewayExecutor T A) : GatewayExecutor T A :=
  Build_GatewayExecutor T A (router e) (ex_policy e) (preserve_tail_turns e) (ex_tool_validator e) (response_validator e)
    (tool_ledger e) (attempt_store e) (budget_store e) (key_pool e) (has_pool_manager e) (failover_listeners e) [] (notifications e) (sleeps e).

Section gateway.
Context {R : Runtime} {T A C : Type} `{TL : ToolLedgerOps T} `{AS : AttemptStoreOps A} `{CO : ContinuationStore C}.
Context (adapters : odict string ProviderAdapter).
Local Abbreviation G := (M exn (ProxyGateway T A C)).
Implicit Types g : ProxyGateway T A C.

Definition set_pools (p : IsolatedPoolManager) g : ProxyGateway T A C :=
  {| pool_manager := p; gw_executor := gw_executor g; synced := synced g; continuation_store := continuation_store g |}.
Definition set_executor (e : GatewayExecutor T A) g : ProxyGateway T A C :=
  {| pool_manager := pool_manager g; gw_executor := e; synced := synced g; continuation_store := continuation_store g |}.
Definition set_synced (l : list string) g : ProxyGateway T A C :=
  {| pool_manager := pool_manager g; gw_executor := gw_executor g; synced := l; continuation_store := continuation_store g |}.
Definition set_continuations (c : C) g : ProxyGateway T A C :=
  {| pool_manager := pool_manager g; gw_executor := gw_executor g; synced := synced g; continuation_store := c |}.

(** The pool manager's methods do not raise. *)
Definition calm {S B} (m : M Empty_set S B) : M exn S B := fun s n =>
  match m s n with (Ok a, s', n') => (Ok a, s', n') | (Raise e, _, _) => match e with end end.
Definition on_pools {B} (m : M Empty_set IsolatedPoolManager B) : G B := zoom pool_manager set_pools (calm m).
Definition on_executor {B} (m : M exn (GatewayExecutor T A) B) : G B := zoom gw_executor set_executor m.
Definition on_continuations {B} (m : M exn C B) : G B := zoom continuation_store set_continuations m.
Definition on_registry (f : CapabilityRegistry -> CapabilityRegistry) : G unit :=
  modify (fun g => set_executor (set_router (set_caps f (router (gw_executor g))) (gw_executor g)) g).

(** [__init__]: the executor is given the pool manager if it has none. *)
Definition new_gateway (p : IsolatedPoolManager) (e : GatewayExecutor T A) (c : C) : ProxyGateway T A C :=
  {| pool_manager := p; gw_executor := set_pool_manager true e; synced := []; continuation_store := c |}.

(** One persisted lockout read at start. *)
Definition sync_lockout (now : Q) (item : (string * string * string) * LockoutRow) : G unit :=
  let '((provider, pool, route), row) := item in
  let pool_name := py_lower pool in
  let route_id := py_lower route in
  let provider_id := py_lower provider in
  let exp_at := lo_expires_at row in
  when (now ≺ exp_at) (
    let rem_sec := py_max 0 (exp_at - now) in
    if String.eqb route_id "*" || negb (truthy route_id) then
      when (truthy provider_id) (
        on_pools (modify (fun s => set_lockouts (od_set provider_id exp_at (account_lockouts s)) s)) ;;
        on_pools (mark_provider_quota_exhausted wall pool_name provider_id rem_sec))
    else
      on_pools (modify (fun s => set_quotas (od_set (pool_name, route_id) exp_at (exhausted_quotas s)) s)) ;;
      on_executor (zoom router set_router (on_health (health_record_failure wall mono (qualified pool_name route_id) 0 None
        ("Persisted daily quota lockout: " ++ lo_reason row) None (Some rem_sec) false)))).
Definition sync_lockouts (items : list ((string * string * string) * LockoutRow)) : G unit :=
  now ← read_clock wall;
  for_each items (sync_lockout now).

Definition usable (p : IsolatedPoolManager) (r : RouteDefinition) : bool :=
  match allowed_providers p with Some l => existsb (String.eqb (py_lower (rt_provider r))) l | None => true end &&
  match rt_env_key r with
  | Some k => negb (truthy k) || truthy (strip (default "" (od_get k (pm_keys p))))
  | None => true
  end.

(** One route of the loop of [sync_endpoints]. *)
Definition sync_route (pool : string) (pr : Z * RouteDefinition) : G unit :=
  let key := qualified pool (rt_id (snd pr)) in
  g ← get;
  when (negb (existsb (String.eqb key) (synced g)) && usable (pool_manager g) (snd pr)) (
    on_registry (register_endpoint (endpoint_from_route (snd pr) pool (fst pr))) ;;
    modify (fun g => set_synced (synced g ++ [key]) g)).
(** [enumerate(routes, 1)] *)
Fixpoint enumerate_from {B} (i : Z) (l : list B) : list (Z * B) :=
  match l with [] => [] | x :: l' => (i, x) :: enumerate_from (i + 1) l' end.
Definition sync_endpoints : G unit :=
  g ← get;
  for_each (enumerate_from 1 (coding_routes (pool_manager g))) (sync_route "coding") ;;
  for_each (enumerate_from 1 (agent_routes (pool_manager g))) (sync_route "general_agent").

(** What the executor asked of the pool manager. *)
Definition pool_effect (c : pool_call) : M Empty_set IsolatedPoolManager unit :=
  match c with
  | RecordRouteSuccess pool route => record_route_success mono pool route
  | MarkCooldown pool route seconds | GlobalMarkCooldown pool route seconds => mark_cooldown mono pool route seconds
  | MarkQuotaExhausted pool route seconds => mark_quota_exhausted wall pool route seconds
  | MarkProviderQuotaExhausted pool provider seconds => mark_provider_quota_exhausted wall pool provider seconds
  | MarkDeprecated pool model => mark_deprecated pool model
  end.
Definition deliver_pool_calls : G unit :=
  g ← get;
  on_pools (for_each (pool_calls (gw_executor g)) pool_effect) ;;
  modify (fun g => set_executor (clear_pool_calls (gw_executor g)) g).

(** [try: m; finally: h] *)
Definition finally_do {B} (m : G B) (h : G unit) : G B := fun g n =>
  let '(r, g1, n1) := m g n in
  match h g1 n1 with (Ok _, g2, n2) => (r, g2, n2) | (Raise e, g2, n2) => (Raise e, g2, n2) end.

Definition complete (fuel : nat) (r : NormalizedRequest) (pool : string)
    : G (option (NormalizedResponse * RoutingDecision * AttemptLedger)) :=
  sync_endpoints ;;
  g ← get;
  finally_do (on_executor (execute adapters fuel r pool (Some "priority") 300000 (pm_keys (pool_manager g)) None)) deliver_pool_calls.

Definition selected_id (d : RoutingDecision) : string :=
  match selected_endpoint d with Some e => ep_id e | None => "unknown" end.

(** [complete_turn]; [None] marks a run whose fuel ended. *)
Definition gateway_complete_turn (fuel : nat) (r : NormalizedRequest) (pool : string) (continuation : option ContinuationRequest)
    : G (option (NormalizedResponse * RoutingDecision * AttemptLedger * option ContinuationEvent)) :=
  match continuation with
  | None =>
      o ← complete fuel r pool;
      mret (match o with Some p => Some (p, None) | None => None end)
  | Some cr =>
      turn ← on_continuations (co_begin_turn cr);
      o ← (fun g n => match complete fuel r pool g n with
        | (Raise e, g', n') =>
            (on_continuations (co_interrupt_turn turn (err_str (describe e))) ;; raise e) g' n'
        | out => out
        end);
      match o with
      | None => mret None
      | Some (response, decision, ledger) =>
          event ← on_continuations (co_complete_turn turn r response (selected_id decision));
          mret (Some (response, decision, ledger, Some event))
      end
  end.

Definition acknowledge_continuation (session_id turn_id : string) (epoch : Z) (digest : string) : G ContinuationEvent :=
  on_continuations (co_acknowledge session_id turn_id epoch digest).
End gateway.
