(* ===== verification/GatewayProps.v ===== *)
(** * Properties of the gateway

    Proved against the interface of the continuation store, whose laws the
    in-memory store discharges. *)

From stdpp Require Import base tactics list strings.
From stdpp Require Import gmap.
From Stdlib Require Import QArith Ascii.
From S2P Require Import Prelude Json Models PyText Utf8 Execution Profile Requirements Telemetry Router Pools PoolsProps SqliteStore Classifier IR Continuation ContinuationSqlite ContinuationProps ToolLedger Breaker Registry Interfaces Executor ExecutorDemo Gateway.

(** ** What the gateway relies on *)

Class ContinuationLaws (C : Type) `{ContinuationStore C} : Type := {
  turn_active : C -> ContinuationTurn -> Prop;
  session_idle : C -> string -> Prop;
  begin_active r c n t c' n' : co_begin_turn r c n = (Ok t, c', n') -> turn_active c' t;
  complete_closes t q r ep c n : turn_active c t ->
    exists e c' n', co_complete_turn t q r ep c n = (Ok e, c', n') /\ session_idle c' (ct_session_id t) /\ ce_checkpoint e <> None;
  interrupt_closes t d c n : turn_active c t ->
    exists e c' n', co_interrupt_turn t d c n = (Ok e, c', n') /\ session_idle c' (ct_session_id t);
}.

Section memory.
Context (uuid : nat -> string) (wall : nat -> Q) (canonical : json -> string) (sha256 : string -> string).
Local Instance memory_store : ContinuationStore (gmap string Session) := memory_continuations uuid wall canonical sha256.

Definition memory_active (m : gmap string Session) (t : ContinuationTurn) : Prop :=
  exists s, m !! ct_session_id t = Some s /\ active_turn_id s = Some (ct_turn_id t) /\ active_epoch s = Some (ct_epoch t).
Definition memory_idle (m : gmap string Session) (sid : string) : Prop := exists s, m !! sid = Some s /\ active_turn_id s = None.

Lemma active_runs m t n s : m !! ct_session_id t = Some s -> active_turn_id s = Some (ct_turn_id t) -> active_epoch s = Some (ct_epoch t) ->
  active_session t m n = (Ok s, m, n).
Proof.
  intros Hm Ha He. unfold active_session. rewrite (bind_ok get _ _ _ _ _ _ eq_refl). cbv beta. rewrite Hm.
  by rewrite Ha, He, !bool_decide_true.
Qed.

Lemma memory_begin r m n t m' n' : begin_turn uuid wall r m n = (Ok t, m', n') -> memory_active m' t.
Proof.
  unfold begin_turn. intros (u & m1 & n1 & _ & H)%bind_inv. apply bind_inv in H as (sid & m2 & n2 & _ & H).
  apply bind_inv in H as (m3 & m3' & n3 & Hget & H). injection Hget as <- <- <-.
  apply bind_inv in H as (s & m4 & n4 & Hs & H).
  assert (m4 !! sid = Some s) as Hm4.
  { destruct (m2 !! sid) as [s0|] eqn:E.
    - apply bind_inv in Hs as ([] & m5 & n5 & (_ & -> & ->)%ensure_inv & Hs). by injection Hs as <- <- <-.
    - apply bind_inv in Hs as ([] & m5 & n5 & (_ & -> & ->)%ensure_inv & Hs). injection Hs as <- <- <-. apply lookup_insert_eq. }
  apply bind_inv in H as ([] & m5 & n5 & (_ & -> & ->)%ensure_inv & H). apply bind_inv in H as ([] & m6 & n6 & Hc & H).
  assert (m6 = m4) as ->.
  { destruct (latest_checkpoint s); [|by injection Hc]. apply bind_inv in Hc as ([] & m7 & n7 & (_ & -> & ->)%ensure_inv & Hc). by apply ensure_inv in Hc as (_ & -> & _). }
  apply bind_inv in H as (tid & m7 & n7 & Ht & H). apply bind_inv in Ht as (u2 & m8 & n8 & Hu & Ht). injection Hu as <- <- <-. injection Ht as <- <- <-.
  cbv zeta in H. set (turn := Build_ContinuationTurn _ _ _ _ _ _) in H.
  apply bind_inv in H as ([] & m9 & n9 & Hu & H). rewrite update_runs in Hu. injection Hu as <- <-.
  apply bind_inv in H as (e & m10 & n10 & He & H).
  lazymatch type of He with _ ?s ?k = _ =>
    destruct (make_event_runs uuid wall turn_started turn None false None s k) as (e' & He' & _) end. rewrite He' in He. injection He as <- <- <-.
  apply bind_inv in H as ([] & m11 & n11 & Hu & H). rewrite update_runs in Hu. injection Hu as <- <-. injection H as <- <- _.
  eexists. cbn [ct_session_id ct_turn_id ct_epoch turn]. rewrite !lookup_alter_eq, Hm4. split; [reflexivity|]. by split.
Qed.

Lemma memory_complete t q r ep m n : memory_active m t ->
  exists e m' n', complete_turn uuid wall canonical sha256 t q r ep m n = (Ok e, m', n') /\ memory_idle m' (ct_session_id t) /\ ce_checkpoint e <> None.
Proof.
  intros (s & Hm & Ha & He). unfold complete_turn. rewrite (bind_ok _ _ _ _ _ _ _ (active_runs m t n s Hm Ha He)). cbv beta.
  rewrite (bind_ok (read_clock wall) _ _ _ _ _ _ eq_refl). cbv beta zeta.
  edestruct (record_runs uuid wall (ct_session_id t)) as (e & _ & Hc & ->); [exact Hm|].
  do 3 eexists. split; [reflexivity|]. split; [|by rewrite Hc]. eexists. split; [apply lookup_insert_eq | done].
Qed.
Lemma memory_interrupt t d m n : memory_active m t ->
  exists e m' n', interrupt_turn uuid wall t d m n = (Ok e, m', n') /\ memory_idle m' (ct_session_id t).
Proof.
  intros (s & Hm & Ha & He). unfold interrupt_turn. rewrite (bind_ok _ _ _ _ _ _ _ (active_runs m t n s Hm Ha He)). cbv beta.
  edestruct (record_runs uuid wall (ct_session_id t)) as (e & _ & _ & ->); [exact Hm|].
  do 3 eexists. split; [reflexivity|]. eexists. split; [apply lookup_insert_eq | done].
Qed.
Definition memory_laws : ContinuationLaws (gmap string Session) :=
  {| turn_active := memory_active; session_idle := memory_idle; begin_active := memory_begin; complete_closes := memory_complete;
     interrupt_closes := memory_interrupt |}.
End memory.

(** ** A request inside a turn *)

Section turns.
Context {R : Runtime} {T A C : Type} `{TL : ToolLedgerOps T} `{AS : AttemptStoreOps A} `{CL : ContinuationLaws C}.
Context (adapters : odict string ProviderAdapter).
Abbreviation gw := (ProxyGateway T A C).
Abbreviation keeps_turns c m := (preserves (fun g : gw => continuation_store g = c) m).

Lemma zoom_keeps {B X} (get : gw -> X) (put : X -> gw -> gw) (m : M exn X B) c :
  (forall x g, continuation_store (put x g) = continuation_store g) -> keeps_turns c (zoom get put m).
Proof.
  intros Hput g n Hg. unfold zoom, out_st. destruct (m (get g) n) as [[r x] n']. cbn. by rewrite Hput.
Qed.
Lemma sync_route_keeps c pool pr : keeps_turns c (sync_route (T := T) (A := A) (C := C) pool pr).
Proof. unfold sync_route, on_registry. preserve; done. Qed.
Lemma deliver_keeps c : keeps_turns c (deliver_pool_calls (T := T) (A := A) (C := C)).
Proof. unfold deliver_pool_calls, on_pools. preserve; try done. by apply zoom_keeps. Qed.

Lemma finally_keeps {B} c (m : M exn gw B) (h : M exn gw unit) : keeps_turns c m -> keeps_turns c h -> keeps_turns c (finally_do m h).
Proof.
  intros Hm Hh g n Hg. unfold finally_do, out_st. specialize (Hm g n Hg). unfold out_st in Hm. destruct (m g n) as [[r g1] n1].
  specialize (Hh g1 n1 Hm). unfold out_st in Hh. by destruct (h g1 n1) as [[[|] g2] n2].
Qed.

Lemma complete_keeps c fuel r pool : keeps_turns c (complete (T := T) (A := A) (C := C) adapters fuel r pool).
Proof.
  unfold complete, sync_endpoints. preserve; try apply sync_route_keeps.
  apply finally_keeps; [by apply zoom_keeps | apply deliver_keeps].
Qed.

(** Outcomes of a request made in a turn. *)
Definition turn_outcome (g : gw) (cr : ContinuationRequest) (n : nat) (x : res exn (option (NormalizedResponse * RoutingDecision * AttemptLedger * option ContinuationEvent)))
    (g' : gw) : Prop :=
  match co_begin_turn cr (continuation_store g) n with
  | (Raise e, c, _) => x = Raise e /\ continuation_store g' = c
  | (Ok t, _, _) =>
      match x with
      | Ok None => True (* the fuel ended *)
      | Ok (Some (_, ev)) => session_idle (continuation_store g') (ct_session_id t) /\ exists e, ev = Some e /\ ce_checkpoint e <> None
      | Raise _ => session_idle (continuation_store g') (ct_session_id t)
      end
  end.

Lemma turn_closed fuel r pool cr g n x g' n' :
  gateway_complete_turn adapters fuel r pool (Some cr) g n = (x, g', n') -> turn_outcome g cr n x g'.
Proof.
  unfold gateway_complete_turn, turn_outcome, on_continuations. intros Hrun.
  destruct (co_begin_turn cr (continuation_store g) n) as [[[t|e] c1] n1] eqn:Eb.
  2: { rewrite (bind_raise _ _ _ _ e (set_continuations c1 g) n1) in Hrun; [by injection Hrun as <- <- <-|]. unfold zoom. by rewrite Eb. }
  rewrite (bind_ok _ _ _ _ t (set_continuations c1 g) n1) in Hrun by (unfold zoom; by rewrite Eb). cbv beta in Hrun.
  apply begin_active in Eb. set (g1 := set_continuations c1 g) in *.
  pose proof (complete_keeps c1 fuel r pool g1 n1 eq_refl) as Hk. unfold out_st, out_res in Hk.
  destruct (complete adapters fuel r pool g1 n1) as [[[o|e] g2] n2] eqn:Ec; cbn [fst snd] in Hk.
  - rewrite (bind_ok _ _ _ _ o g2 n2) in Hrun by (by rewrite Ec). cbv beta in Hrun.
    destruct o as [[[resp dec] led]|]; [|by injection Hrun as <- <- <-].
    destruct (complete_closes t r resp (selected_id dec) c1 n2 Eb) as (ev & c3 & n3 & Hc & Hi & Hck).
    rewrite (bind_ok _ _ _ _ ev (set_continuations c3 g2) n3) in Hrun by (unfold zoom; by rewrite Hk, Hc). cbv beta in Hrun.
    injection Hrun as <- <- <-. split; [done|]. by exists ev.
  - destruct (interrupt_closes t (err_str (describe e)) c1 n2 Eb) as (ev & c3 & n3 & Hc & Hi).
    rewrite (bind_raise _ _ _ _ e (set_continuations c3 g2) n3) in Hrun; [by injection Hrun as <- <- <-|].
    rewrite Ec. erewrite bind_ok by (unfold zoom; rewrite Hk, Hc; reflexivity). reflexivity.
Qed.
End turns.

(** ** Mirroring routes *)

Section mirror.
Context {R : Runtime} {T A C : Type}.
Abbreviation gw := (ProxyGateway T A C).
Implicit Types g : gw.

Definition registry_of g : CapabilityRegistry := capability_registry (router (gw_executor g)).
Definition registered g (pool : string) (r : RouteDefinition) : Prop :=
  exists e, get_endpoint (qualified pool (rt_id r)) (registry_of g) = Some e /\ ep_id e = qualified pool (rt_id r).
(** What was mirrored is in the registry. *)
Definition mirror_ok g : Prop :=
  forall k, k ∈ synced g -> exists e, get_endpoint k (registry_of g) = Some e /\ ep_id e = k.
Definition needs_sync (pool : string) (r : RouteDefinition) g : bool :=
  negb (existsb (String.eqb (qualified pool (rt_id r))) (synced g)) && usable (pool_manager g) r.

(** One route, as a function of the state. *)
Definition mirrored (pool : string) g (pr : Z * RouteDefinition) : gw :=
  if needs_sync pool (snd pr) g then
    set_synced (synced g ++ [qualified pool (rt_id (snd pr))])
      (set_executor (set_router (set_caps (register_endpoint (endpoint_from_route (snd pr) pool (fst pr))) (router (gw_executor g))) (gw_executor g)) g)
  else g.
Lemma sync_route_runs pool pr g n : sync_route pool pr g n = (Ok tt, mirrored pool g pr, n).
Proof. unfold sync_route, mirrored. rewrite (bind_ok get _ _ _ _ _ _ eq_refl). cbv beta. fold (needs_sync pool (snd pr) g). by destruct (needs_sync pool (snd pr) g). Qed.
Lemma for_each_runs {E S B} (f : B -> M E S unit) (h : S -> B -> S) l s n :
  (forall x s n, f x s n = (Ok tt, h s x, n)) -> for_each l f s n = (Ok tt, foldl h s l, n).
Proof.
  intros Hf. revert s. induction l as [|x l IH]; intros s; [done|]. cbn [for_each foldl].
  rewrite (bind_ok _ _ _ _ _ _ _ (Hf x s n)). apply IH.
Qed.
Definition mirror_pool (pool : string) (routes : list RouteDefinition) g : gw := foldl (mirrored pool) g (enumerate_from 1 routes).
Lemma sync_runs g n : sync_endpoints g n =
  (Ok tt, mirror_pool "general_agent" (agent_routes (pool_manager g)) (mirror_pool "coding" (coding_routes (pool_manager g)) g), n).
Proof.
  unfold sync_endpoints. rewrite (bind_ok get _ _ _ _ _ _ eq_refl). cbv beta.
  rewrite (bind_ok _ _ _ _ _ _ _ (for_each_runs _ _ _ _ _ (sync_route_runs "coding"))). cbv beta.
  apply for_each_runs, sync_route_runs.
Qed.

Lemma existsb_elem x l : existsb (String.eqb x) l = true <-> x ∈ l.
Proof.
  rewrite existsb_exists, list_elem_of_In. split; [intros (y & Hy & ->%String.eqb_eq); done | intros Hx; exists x; split; [done | apply String.eqb_refl]].
Qed.

Lemma mirrored_ok pool g pr : mirror_ok g ->
  mirror_ok (mirrored pool g pr) /\ pool_manager (mirrored pool g pr) = pool_manager g /\ (forall k, k ∈ synced g -> k ∈ synced (mirrored pool g pr)) /\
  (usable (pool_manager g) (snd pr) = true -> qualified pool (rt_id (snd pr)) ∈ synced (mirrored pool g pr)).
Proof.
  intros Hok. unfold mirrored. destruct (needs_sync pool (snd pr) g) eqn:E.
  - cbn [synced set_synced pool_manager set_executor]. split_and!; [|done|set_solver|set_solver].
    intros k Hk. unfold registry_of, get_endpoint. cbn [gw_executor set_synced set_executor set_router router set_caps capability_registry].
    unfold register_endpoint. cbn [endpoints profile endpoint_from_route ep_id]. rewrite od_get_set_cases.
    destruct (decide (k = qualified pool (rt_id (snd pr)))) as [->|Hne]; [by eexists|].
    cbn [synced set_synced] in Hk. apply Hok. set_solver.
  - split_and!; [done | done | done|]. intros Hu. unfold needs_sync in E. rewrite Hu, andb_true_r in E. apply negb_false_iff, existsb_elem in E. done.
Qed.

Lemma mirror_pool_ok pool routes g : mirror_ok g -> let g' := mirror_pool pool routes g in
  mirror_ok g' /\ pool_manager g' = pool_manager g /\ (forall k, k ∈ synced g -> k ∈ synced g') /\
  forall r, r ∈ routes -> usable (pool_manager g) r = true -> qualified pool (rt_id r) ∈ synced g'.
Proof.
  unfold mirror_pool. generalize 1%Z. revert g. induction routes as [|r routes IH]; intros g i Hok; cbn [enumerate_from foldl]; [split_and!; [done..|set_solver]|].
  destruct (mirrored_ok pool g (i, r) Hok) as (H1 & H2 & H3 & H4). destruct (IH (mirrored pool g (i, r)) (i + 1)%Z H1) as (I1 & I2 & I3 & I4).
  rewrite H2 in I2, I4. split_and!; [done | done | auto|]. intros r' [->|Hr]%elem_of_cons Hu; [apply I3, H4, Hu | by apply I4].
Qed.

(** Nothing is left to mirror. *)
Lemma mirror_pool_idle pool routes g : (forall r, r ∈ routes -> usable (pool_manager g) r = true -> qualified pool (rt_id r) ∈ synced g) ->
  mirror_pool pool routes g = g.
Proof.
  unfold mirror_pool. generalize 1%Z. induction routes as [|r routes IH]; intros i H; [done|]. cbn [enumerate_from foldl].
  assert (mirrored pool g (i, r) = g) as ->; [|apply IH; intros r' Hr; apply H; by right].
  unfold mirrored, needs_sync. cbn [snd]. destruct (usable (pool_manager g) r) eqn:Hu; [|by rewrite andb_false_r].
  pose proof (H r ltac:(left) Hu) as Hin. apply existsb_elem in Hin. by rewrite Hin.
Qed.
End mirror.

(** ** Feedback to the pools *)

Lemma py_lower_app a b : py_lower (a ++ b) = (py_lower a ++ py_lower b)%string.
Proof. induction a as [|c a IH]; [done|]. rewrite !app_string_cons. cbn [py_lower]. by rewrite IH, app_string_cons. Qed.

(** No route of the pool is named like a qualified endpoint. *)
Definition plain_ids (pool : string) (s : IsolatedPoolManager) : Prop :=
  Forall (fun x => starts_with (py_lower pool ++ ":") (py_lower (rt_id x)) = false) (routes_of pool s).
Lemma qualified_unmatched pool rid x : starts_with (py_lower pool ++ ":") (py_lower (rt_id x)) = false ->
  py_lower (rt_id x) <> py_lower (qualified pool rid).
Proof.
  intros Hx E. rewrite E in Hx. unfold qualified in Hx. rewrite !py_lower_app in Hx.
  assert (starts_with (py_lower pool ++ ":") (py_lower pool ++ py_lower ":" ++ py_lower rid) = true) as E2; [|congruence].
  apply prefix_true. exists (py_lower rid). by rewrite app_string_assoc.
Qed.

(** ** Claims *)

(** Mirroring the pools into the executor's registry never fails, leaves the
    pools alone, gives every usable route of both pools its endpoint, and repeated
    at once changes nothing. *)
Theorem gateway_mirrors_routes `{R : Runtime} {T A C : Type} (g : ProxyGateway T A C) n : mirror_ok g ->
  exists g', sync_endpoints g n = (Ok tt, g', n) /\ mirror_ok g' /\ pool_manager g' = pool_manager g /\
  (forall r, r ∈ coding_routes (pool_manager g) -> usable (pool_manager g) r = true -> registered g' "coding" r) /\
  (forall r, r ∈ agent_routes (pool_manager g) -> usable (pool_manager g) r = true -> registered g' "general_agent" r) /\
  forall n', sync_endpoints g' n' = (Ok tt, g', n').
Proof.
  intros Hok. rewrite sync_runs. destruct (mirror_pool_ok "coding" (coding_routes (pool_manager g)) g Hok) as (H1 & H2 & _ & H4).
  set (g1 := mirror_pool "coding" _ g) in *. destruct (mirror_pool_ok "general_agent" (agent_routes (pool_manager g)) g1 H1) as (I1 & I2 & I3 & I4).
  set (g2 := mirror_pool "general_agent" _ g1) in *. rewrite H2 in I2, I4. exists g2. split_and!; [done | done | done | | |].
  - intros r Hr Hu. apply I1, I3, H4; done.
  - intros r Hr Hu. apply I1, I4; done.
  - intros n'. rewrite sync_runs, I2. rewrite (mirror_pool_idle "coding" _ g2); [|rewrite I2; auto].
    by rewrite (mirror_pool_idle "general_agent" _ g2); [|rewrite I2; auto].
Qed.

(** C24: a request made inside a continuation turn never leaves the turn hanging:
    whether the executor answers or raises, afterwards the session has no active
    turn; an answer comes with the checkpoint of the turn, and a refused turn runs
    nothing.  Proved for any store that keeps the protocol's laws. *)
Theorem gateway_turn_closed `{R : Runtime} {T A C : Type} `{TL : ToolLedgerOps T} `{AS : AttemptStoreOps A} `{CS : ContinuationStore C}
    (laws : ContinuationLaws C) adapters fuel r pool cr (g : ProxyGateway T A C) n x g' n' :
  gateway_complete_turn adapters fuel r pool (Some cr) g n = (x, g', n') -> turn_outcome g cr n x g'.
Proof. apply turn_closed. Qed.

(** The executor reports cooldowns and successes to the pool manager under the
    qualified name of the endpoint, which no route has: a reported cooldown makes
    no route ineligible, and a reported success gives no route the sticky
    preference (it also ends the preference another route had). *)
Theorem executor_feedback_unmatched monotonic pool r prio seconds s n tm tw now candidates :
  plain_ids pool s -> Forall (fun x => x ∈ routes_of pool s) candidates ->
  let i := ep_id (endpoint_from_route r pool prio) in
  Forall (fun x => eligible tm tw pool (out_st (mark_cooldown monotonic pool i seconds s n)) x = eligible tm tw pool s x) (routes_of pool s) /\
  sticky_route pool now (out_st (record_route_success monotonic pool i s n)) candidates = None.
Proof.
  intros Hp Hc i. unfold plain_ids in Hp. rewrite Forall_forall in Hp. split.
  - apply Forall_forall. intros x Hx. rewrite cooldown_effect. rewrite decide_False; [done|]. by apply qualified_unmatched, Hp.
  - unfold sticky_route. change (last_success (out_st _)) with (od_set (py_lower pool) (py_lower i) (last_success s)). rewrite od_get_set_eq.
    destruct (truthy (py_lower i) && _); [|done]. destruct (find _ candidates) as [x|] eqn:E; [|done].
    apply find_some in E as [Hx%list_elem_of_In Ex%String.eqb_eq]. rewrite Forall_forall in Hc.
    destruct (qualified_unmatched pool (rt_id r) x); [apply Hp, Hc, Hx | done].
Qed.

(** ** Witnesses *)

Definition demo_route (id provider model : string) : RouteDefinition :=
  {| rt_id := id; rt_provider := provider; rt_model := model; rt_pool := "coding"; rt_base_url := "https://example.com"; rt_api_format := "openai";
     rt_env_key := None; rt_env_keys := []; rt_context_length := 65536; rt_max_output_tokens := 4096; rt_headers := []; rt_is_discovered := false |}.
Definition demo_pools : IsolatedPoolManager :=
  set_routes [demo_route "a" "groq" "llama"; demo_route "b" "mistral" "codestral"] [] (new_pool_manager None []).
#[local] Instance demo_continuations : ContinuationStore (gmap string Session) := memory_continuations py_str_nat Qnat (fun _ => "{}") (fun s => s).
Definition demo_gateway : ProxyGateway ToolExecutionLedger Database (gmap string Session) :=
  new_gateway demo_pools (demo_executor [] (new_breaker_registry None)) ∅.
Definition demo_turn : ContinuationRequest :=
  {| cr_protocol_version := ACP_VERSION; cr_session_id := None; cr_parent_checkpoint_digest := None;
     cr_state_digest := "0123456789abcdef0123456789abcdef0123456789abcdef0123456789abcdef" |}.
Definition demo_turn_run := gateway_complete_turn flaky_then_good 60 (demo_request []) "coding" (Some demo_turn) demo_gateway 0%nat.

(** The first route fails over to the second inside one turn. *)
Example demo_turn_answers :
  match out_res demo_turn_run with
  | Ok (Some (r, d, _, Some e)) => (resp_content r, ep_id <$> selected_endpoint d, ck_epoch <$> ce_checkpoint e)
  | _ => (None, None, None)
  end = (Some "fine", Some "coding:b", Some 0%Z).
Proof. vm_compute. reflexivity. Qed.

Lemma gateway_turn_closed_witness :
  turn_outcome (CL := memory_laws py_str_nat Qnat (fun _ => "{}") (fun s => s)) demo_gateway demo_turn 0 demo_turn_run.1.1 demo_turn_run.1.2.
Proof.
  unfold demo_turn_run. destruct (gateway_complete_turn flaky_then_good 60 (demo_request []) "coding" (Some demo_turn) demo_gateway 0%nat) as [[x g'] n'] eqn:E.
  exact (gateway_turn_closed (memory_laws py_str_nat Qnat (fun _ => "{}") (fun s => s)) flaky_then_good 60 (demo_request []) "coding" demo_turn
    demo_gateway 0%nat x g' n' E).
Defined.

Lemma gateway_mirrors_routes_witness :
  exists g', sync_endpoints demo_gateway 0%nat = (Ok tt, g', 0%nat) /\ registered g' "coding" (demo_route "b" "mistral" "codestral").
Proof.
  destruct (gateway_mirrors_routes demo_gateway 0%nat) as (g' & Hs & _ & _ & Hc & _ & _).
  - intros k Hk. by apply elem_of_nil in Hk.
  - exists g'. split; [exact Hs|]. apply Hc; [right; left | reflexivity].
Defined.

Lemma executor_feedback_unmatched_witness :
  plain_ids "coding" demo_pools /\
  Forall (fun x => eligible 0 0 "coding" (out_st (mark_cooldown Qnat "coding" "coding:a" 60 demo_pools 0%nat)) x = eligible 0 0 "coding" demo_pools x)
    (routes_of "coding" demo_pools) /\
  sticky_route "coding" 0 (out_st (record_route_success Qnat "coding" "coding:a" demo_pools 0%nat)) (routes_of "coding" demo_pools) = None.
Proof.
  assert (plain_ids "coding" demo_pools) as Hp by (repeat constructor).
  split; [exact Hp|].
  apply (executor_feedback_unmatched Qnat "coding" (demo_route "a" "groq" "llama") 1 60 demo_pools 0%nat 0 0 0 (routes_of "coding" demo_pools) Hp).
  apply Forall_forall. by intros x Hx.
Defined.
