(* ===== verification/Mcp.v ===== *)
(** * MCP proxy

    [src/durallm/mcp/proxy.py]: JSON-RPC dispatch of tool calls through the
    idempotency ledger.  The state is the ledger and a log of the handler runs,
    which are the side effects; nothing reads the log.  A handler's answer may depend on the
    reading.  Operation and call identifiers that are not texts, and arguments that
    [dict] would build from a list of pairs, are outside the typed ledger and raise
    [untyped].  Log calls have no effect on the state. *)

From stdpp Require Import base tactics list gmap strings.
From Stdlib Require Import QArith Qround.
From S2P Require Import Prelude Json Models PyText PyDyn ToolLedger ToolValidation Classifier Interfaces Executor.

(** ** Tools *)

(** What running a handler gives: a text, a value [json.dumps] renders, a value it
    raises on, or an exception. *)
Inductive handler_result : Type :=
| HText (s : string)
| HValue (j : json)
| HUnserialisable (message : string)
| HRaised (message : string).

Record MCPToolDefinition : Type := {
  mt_name : string;
  mt_description : string;
  mt_input_schema : json;
  mt_handler : option (json -> nat -> handler_result);
}.

Record MCPProxy : Type := {
  mcp_tools : odict string MCPToolDefinition;
  mcp_validator : ToolCallValidator;
}.
Definition register_tool (t : MCPToolDefinition) (p : MCPProxy) : MCPProxy :=
  {| mcp_tools := od_set (mt_name t) t (mcp_tools p); mcp_validator := mcp_validator p |}.
Definition new_mcp_proxy (tools : list MCPToolDefinition) (v : option ToolCallValidator) : MCPProxy :=
  foldl (fun p t => register_tool t p) {| mcp_tools := []; mcp_validator := default (new_validator true) v |} tools.

(** One run of a handler: for which operation, on what, and how it ended. *)
Record effect : Type := { ef_operation : string; ef_tool : string; ef_arguments : json; ef_result : handler_result }.

Record McpWorld (T : Type) : Type := { mw_ledger : T; mw_effects : list effect }.
Arguments mw_ledger {T}. Arguments mw_effects {T}. Arguments Build_McpWorld {T}.

(** [(http_status, json_rpc_response, response_headers)] *)
Definition rpc_reply : Type := Z * json * odict string string.
Definition rpc_error (id : json) (code : Z) (message : json) : json :=
  JObj [("jsonrpc", JStr "2.0"); ("id", id); ("error", JObj [("code", JInt code); ("message", message)])].
Definition rpc_result (id result : json) : json := JObj [("jsonrpc", JStr "2.0"); ("id", id); ("result", result)].
Definition text_content (text : string) : json := JArr [JObj [("type", JStr "text"); ("text", JStr text)]].
Definition JSON_CONTENT : string * string := ("Content-Type", "application/json").

Definition untyped : exn := RuntimeError "untyped".
Definition attribute_error_exn : exn := RuntimeError "AttributeError".

(** [dict(arguments)] *)
Definition dict_of (j : json) : res exn json :=
  match j with
  | JObj fs => Ok (JObj fs)
  | JArr [] | JStr "" => Ok (JObj [])
  | JArr _ => Raise untyped
  | JStr _ => Raise (ValueError "dictionary update sequence")
  | _ => Raise (RuntimeError "TypeError")
  end.

(** [a or b or ...] *)
Definition first_truthy (l : list json) : json := foldr jor JNull l.
Definition header (k : string) (hs : odict string string) : json :=
  match od_get k hs with Some s => JStr s | None => JNull end.
Definition field (k : string) (fs : odict string json) : json := default JNull (od_get k fs).

Section mcp.
Context {R : Runtime} {T : Type} `{TL : ToolLedgerOps T} `{TR : ToolRunnerOps T}.
(** [json.dumps(ensure_ascii=False)] and [str] of values that are not texts. *)
Context (dumps_text py_repr : json -> string).
Local Abbreviation X := (M exn (McpWorld T)).

Definition on_mcp_ledger {B} (m : M exn T B) : X B :=
  zoom mw_ledger (fun t w => {| mw_ledger := t; mw_effects := mw_effects w |}) m.
(** Running a handler is the side effect. *)
Definition run_handler (h : json -> nat -> handler_result) (name op : string) (args : json) : X handler_result := fun w n =>
  let e := {| ef_operation := op; ef_tool := name; ef_arguments := args; ef_result := h args n |} in
  (Ok (h args n), {| mw_ledger := mw_ledger w; mw_effects := mw_effects w ++ [e] |}, S n).

(** ** Dispatch *)

Definition handle_initialize (id : json) (params : odict string json) : rpc_reply :=
  (200%Z, rpc_result id (JObj
     [("protocolVersion", default (JStr "2024-11-05") (od_get "protocolVersion" params));
      ("capabilities", JObj [("tools", JObj [("listChanged", JBool false)])]);
      ("serverInfo", JObj [("name", JStr "durallm-mcp-proxy"); ("version", JStr "3.0.0")])]), [JSON_CONTENT]).

Definition handle_tools_list (p : MCPProxy) (id : json) : rpc_reply :=
  (200%Z, rpc_result id (JObj [("tools", JArr (map (fun t =>
     JObj [("name", JStr (mt_name t)); ("description", JStr (mt_description t)); ("inputSchema", mt_input_schema t)])
     (od_values (mcp_tools p))))]), [JSON_CONTENT]).

(** ** One tool call *)

(** Schema validation of a registered tool: its arguments, or the refusal. *)
Definition validate_arguments (p : MCPProxy) (id : json) (name : string) (args : json) : res exn (json + rpc_reply) :=
  match od_get name (mcp_tools p) with
  | None => Ok (inl args)
  | Some t =>
      let! report := validate_tool_call dumps loads_lax literal_eval float_str (mcp_validator p) name args (Some (mt_input_schema t)) None in
      if is_executable report then Ok (inl (JObj (validated_arguments report)))
      else
        let text := ("Schema Validation Error: " ++ match tv_error report with Some x => render x | None => "None" end)%string in
        Ok (inr (200%Z, rpc_result id (JObj [("content", text_content text); ("isError", JBool true); ("_lcb_status", JStr "schema_invalid")]),
                 [("X-LCB-Tool-Status", "schema_invalid")]))
  end.

Definition meta_of (params : odict string json) : odict string json :=
  match od_get "_meta" params with Some (JObj fs) => fs | _ => [] end.

(** The operation the call belongs to: the caller's key, or one derived from the
    tool and its arguments. *)
Definition operation_of (params : odict string json) (headers : odict string string) (name : string) (args : json) : res exn string :=
  let meta := meta_of params in
  match first_truthy [field "operation_id" meta; field "idempotency_key" meta; field "operation_id" params; field "idempotency_key" params;
                      header "Idempotency-Key" headers; header "idempotency-key" headers;
                      header "X-LCB-Operation-Id" headers; header "x-lcb-operation-id" headers] with
  | JStr s => if truthy s then Ok s else Ok ("op_" ++ name ++ "_" ++ str_take 16 (compute_arguments_hash dumps_sorted sha256 args))%string
  | j => if jtruthy j then Raise untyped
         else Ok ("op_" ++ name ++ "_" ++ str_take 16 (compute_arguments_hash dumps_sorted sha256 args))%string
  end.

(** The ledger's name for this call; the clock is read only for a falsy id. *)
Definition call_id_of (params : odict string json) (headers : odict string string) (op : string) (id : json) : X string :=
  match first_truthy [field "tool_call_id" (meta_of params); field "tool_call_id" params;
                      header "X-LCB-Tool-Call-Id" headers; header "x-lcb-tool-call-id" headers] with
  | JStr s => if truthy s then mret s else
      if jtruthy id then mret ("mcp_" ++ op ++ "_" ++ py_str py_repr id)%string
      else now ← read_clock wall; mret ("mcp_" ++ op ++ "_" ++ py_str_int (Qfloor (now * 1000)))%string
  | j => if jtruthy j then raise untyped else
      if jtruthy id then mret ("mcp_" ++ op ++ "_" ++ py_str py_repr id)%string
      else now ← read_clock wall; mret ("mcp_" ++ op ++ "_" ++ py_str_int (Qfloor (now * 1000)))%string
  end.

Definition blocked_reply (id : json) (name op : string) : rpc_reply :=
  (409%Z, JObj [("jsonrpc", JStr "2.0"); ("id", id); ("error", JObj
     [("code", JInt (-32001));
      ("message", JStr ("Duplicate side-effect hazard: tool '" ++ name ++ "' has indeterminate status from a prior execution. Automatic re-execution prohibited by DuraLLM.")%string);
      ("data", JObj [("operation_id", JStr op); ("indeterminate", JBool true)])])],
   [("X-LCB-Tool-Status", "indeterminate"); ("X-LCB-Tool-Idempotency", "blocked")]).

Definition replayed_reply (id receipt : json) : res exn rpc_reply :=
  match receipt with
  | JObj fs =>
      let output := default (JStr "") (od_get "output" fs) in
      let text := match output with JStr s => s | j => dumps_text j end in
      Ok (200%Z, rpc_result id (JObj [("content", text_content text); ("isError", default (JBool false) (od_get "is_error" fs));
                                      ("_lcb_status", JStr "replayed"); ("_lcb_receipt", receipt)]),
          [("X-LCB-Tool-Status", "replayed"); ("X-LCB-Tool-Idempotency", "replayed"); JSON_CONTENT])
  | _ => Raise attribute_error_exn
  end.

(** Steps 3 and 4: the reply that ends the call here, if any. *)
Definition mcp_guard (id : json) (name op call : string) (args : json) : X (option rpc_reply) :=
  ind ← on_mcp_ledger (tl_has_indeterminate_operation op name args);
  if ind : bool then mret (Some (blocked_reply id name op)) else
  receipt ← on_mcp_ledger (tl_check_idempotency op name args);
  match receipt with
  | (true, Some cached) =>
      on_mcp_ledger (tl_mark_replayed call cached) ;;
      reply ← lift (replayed_reply id cached);
      mret (Some reply)
  | _ => mret None
  end.

(** Step 5: the write-ahead record. *)
Definition mcp_begin (name op call : string) (args : json) : X unit :=
  dict ← lift (dict_of args);
  on_mcp_ledger (tl_register_tool_call call op name dict) ;;
  on_mcp_ledger (tl_mark_validated call) ;;
  on_mcp_ledger (tr_mark_submitted call).

Definition receipt_of (output : string) (now : Q) : json :=
  JObj [("status", JStr "committed"); ("output", JStr output); ("is_error", JBool false); ("timestamp", JFloat now)].
Definition committed_reply (id : json) (output : string) (receipt : json) : rpc_reply :=
  (200%Z, rpc_result id (JObj [("content", text_content output); ("isError", JBool false); ("_lcb_status", JStr "committed");
                               ("_lcb_receipt", receipt)]),
   [("X-LCB-Tool-Status", "committed"); ("X-LCB-Tool-Idempotency", "committed"); JSON_CONTENT]).
Definition failed_reply (id : json) (message : string) : rpc_reply :=
  (200%Z, rpc_result id (JObj [("content", text_content ("Error: " ++ message)); ("isError", JBool true); ("_lcb_status", JStr "failed")]),
   [("X-LCB-Tool-Status", "failed"); JSON_CONTENT]).

Definition mcp_commit (id : json) (call output : string) : X rpc_reply :=
  now ← read_clock wall;
  let receipt := receipt_of output now in
  on_mcp_ledger (tr_mark_committed call receipt) ;;
  mret (committed_reply id output receipt).
Definition mcp_fail (id : json) (call message : string) : X rpc_reply :=
  on_mcp_ledger (tl_mark_failed call message) ;;
  mret (failed_reply id message).

(** Step 6. *)
Definition mcp_execute (p : MCPProxy) (id : json) (name op call : string) (args : json) : X rpc_reply :=
  match od_get name (mcp_tools p) ≫= mt_handler with
  | Some handler =>
      raw ← run_handler handler name op args;
      match raw with
      | HText s => catch (mcp_commit id call s) (fun _ => true) (fun x => mcp_fail id call (err_str (describe x)))
      | HValue j => catch (mcp_commit id call (dumps_text j)) (fun _ => true) (fun x => mcp_fail id call (err_str (describe x)))
      | HUnserialisable m | HRaised m => mcp_fail id call m
      end
  | None =>
      mcp_commit id call (dumps (JObj [("acknowledged", JBool true); ("tool", JStr name); ("arguments", args)]))
  end.

(** [_handle_tools_call] *)
Definition handle_tools_call (p : MCPProxy) (id : json) (params : odict string json) (headers : odict string string) : X rpc_reply :=
  match od_get "name" params with
  | Some (JStr (String _ _ as name)) =>
      checked ← lift (validate_arguments p id name (default (JObj []) (od_get "arguments" params)));
      match checked with
      | inr refusal => mret refusal
      | inl args =>
          op ← lift (operation_of params headers name args);
          call ← call_id_of params headers op id;
          ended ← mcp_guard id name op call args;
          match ended with
          | Some reply => mret reply
          | None => mcp_begin name op call args ;; mcp_execute p id name op call args
          end
      end
  | _ => mret (200%Z, rpc_error id (-32602) (JStr "Invalid params: 'name' is required"), [])
  end.

(** [handle_json_rpc]: [body.get] comes before the check that [body] is a dict. *)
Definition handle_json_rpc (p : MCPProxy) (body : json) (headers : odict string string) : X rpc_reply :=
  match body with
  | JObj fs =>
      let id := field "id" fs in
      match jeqs "2.0" (field "jsonrpc" fs), od_get "method" fs with
      | true, Some method =>
          let params := match od_get "params" fs with Some (JObj ps) => ps | _ => [] end in
          if jeqs "initialize" method then mret (handle_initialize id params)
          else if jeqs "tools/list" method || jeqs "tools/list_tools" method then mret (handle_tools_list p id)
          else if jeqs "tools/call" method then handle_tools_call p id params headers
          else mret (200%Z, rpc_error id (-32601) (JStr ("Method not found: " ++ py_str py_repr method)%string), [])
      | _, _ => mret (400%Z, rpc_error id (-32600) (JStr "Invalid Request: must be valid JSON-RPC 2.0"), [])
      end
  | _ => raise attribute_error_exn
  end.
End mcp.
