(* ===== verification/McpProps.v ===== *)
(** * What the MCP proxy guarantees

    Effects pass the schema, the unresolved-operation check and the receipt check;
    with fresh call identifiers and a ledger that forgets nothing no operation is
    run again once it succeeded.  Reused identifiers, unserialisable results and
    interleaved requests break this. *)

From stdpp Require Import base tactics list gmap strings.
From Stdlib Require Import QArith Qround Lqa.
From S2P Require Import Prelude Json Models PyText PyDyn ToolLedger ToolValidation Classifier Interfaces LedgerLaws Executor ExecutorDemo ExecutorProps Mcp.
Import ToolLedgerProps.

(** ** Any ledger: what an effect has passed *)

Section guarded.
Context {R : Runtime} {T : Type} `{TL : ToolLedgerOps T} `{!ToolLedgerLaws T} `{TR : ToolRunnerOps T}.
Context (dumps_text py_repr : json -> string).
Implicit Types w : McpWorld T.

(** Steps on the ledger alone. *)
Definition quiet {B} (m : M exn (McpWorld T) B) : Prop := forall log, preserves (fun w => mw_effects w = log) m.
Lemma quiet_ledger {B} (m : M exn T B) : quiet (on_mcp_ledger m).
Proof. intros log w n Hw. unfold on_mcp_ledger, zoom. by destruct (m (mw_ledger w) n) as [[r t] n']. Qed.
Lemma quiet_commit id call out : quiet (mcp_commit id call out).
Proof. intros log. unfold mcp_commit. preserve. apply quiet_ledger. Qed.
Lemma quiet_fail id call out : quiet (mcp_fail id call out).
Proof. intros log. unfold mcp_fail. preserve. apply quiet_ledger. Qed.
Lemma quiet_begin name op call args : quiet (mcp_begin name op call args).
Proof. intros log. unfold mcp_begin. apply preserves_bind; [apply preserves_lift | intros ?]. preserve; apply quiet_ledger. Qed.
Lemma call_id_reads params headers op id P : preserves P (call_id_of py_repr params headers op id : M exn (McpWorld T) string).
Proof. unfold call_id_of. repeat case_match; preserve. Qed.
Lemma quiet_guard id name op call args : quiet (mcp_guard dumps_text id name op call args).
Proof.
  intros log. unfold mcp_guard. apply preserves_bind; [apply quiet_ledger | intros [|]]; [preserve|].
  apply preserves_bind; [apply quiet_ledger | intros [[|] [c|]]]; preserve; [apply quiet_ledger | apply preserves_lift].
Qed.

Lemma execute_effects p id name op call args w n :
  let w' := out_st (mcp_execute dumps_text p id name op call args w n) in
  mw_effects w' = mw_effects w \/
  exists t handler, od_get name (mcp_tools p) = Some t /\ mt_handler t = Some handler /\
    mw_effects w' = mw_effects w ++ [{| ef_operation := op; ef_tool := name; ef_arguments := args; ef_result := handler args n |}].
Proof.
  unfold mcp_execute. destruct (od_get name (mcp_tools p)) as [t|]; cbn [mbind option_bind]; [destruct (mt_handler t) as [handler|] eqn:Eh|].
  - right. exists t, handler. split_and!; [done..|]. erewrite bind_ok by reflexivity. cbv beta.
    set (w1 := {| mw_ledger := _; mw_effects := _ |}). set (log := mw_effects w ++ _).
    assert (forall m : M exn (McpWorld T) rpc_reply, quiet m -> mw_effects (out_st (m w1 (S n))) = log) as Hq by (intros m Hm; by apply (Hm log w1 (S n))).
    destruct (handler args n); apply Hq; intros log'; try apply quiet_fail; apply preserves_catch; intros; try apply quiet_fail; apply quiet_commit.
  - left. by apply (quiet_commit _ _ _ (mw_effects w)).
  - left. by apply (quiet_commit _ _ _ (mw_effects w)).
Qed.

(** What a call has passed when it goes on past the guard. *)
Definition admitted (w : McpWorld T) (op name : string) (args : json) : Prop :=
  ~ unresolved (mw_ledger w) op name args /\
  exists m o t' m', tl_check_idempotency op name args (mw_ledger w) m = (Ok o, t', m') /\ (forall r, o <> (true, Some r)).
Lemma guard_admits id name op call args w n w' n' :
  mcp_guard dumps_text id name op call args w n = (Ok None, w', n') -> admitted w op name args.
Proof.
  unfold mcp_guard. intros H. apply bind_inv in H as (ind & w1 & n1 & Hi & H).
  unfold on_mcp_ledger at 1, zoom in Hi. destruct (tl_has_indeterminate_operation op name args (mw_ledger w) n) as [[r t] m] eqn:E.
  injection Hi as -> <- <-. apply indeterminate_exact in E as [-> Hex]. destruct ind; [done|].
  apply bind_inv in H as (o & w2 & n2 & Hc & H). unfold on_mcp_ledger, zoom in Hc. cbn [mw_ledger] in Hc.
  destruct (tl_check_idempotency op name args (mw_ledger w) m) as [[r t'] m'] eqn:Ec. injection Hc as -> <- <-.
  split; [intros Hu; by apply Hex in Hu | exists m, o, t', m'; split; [done|]]. intros rc ->.
  do 2 (apply bind_inv in H as (? & ? & ? & _ & H)). done.
Qed.

Definition guarded (p : MCPProxy) (w : McpWorld T) (e : effect) : Prop :=
  admitted w (ef_operation e) (ef_tool e) (ef_arguments e) /\
  exists t handler raw report, od_get (ef_tool e) (mcp_tools p) = Some t /\ mt_handler t = Some handler /\
    validate_tool_call dumps loads_lax literal_eval float_str (mcp_validator p) (ef_tool e) raw (Some (mt_input_schema t)) None = Ok report /\
    is_executable report = true /\ ef_arguments e = JObj (validated_arguments report).

Lemma call_guarded p id params headers w n :
  let w' := out_st (handle_tools_call dumps_text py_repr p id params headers w n) in
  mw_effects w' = mw_effects w \/ exists e, mw_effects w' = mw_effects w ++ [e] /\ guarded p w e.
Proof.
  unfold handle_tools_call. destruct (od_get "name" params) as [[| | | |[|a name']| |]|]; try by left. set (name := String a name').
  destruct (validate_arguments p id name _) as [[args|refusal]|x] eqn:Ev; [|by left..].
  erewrite bind_ok by reflexivity. cbv beta iota. destruct (operation_of params headers name args) as [op|x]; [|by left].
  erewrite bind_ok by reflexivity. cbv beta.
  destruct (call_id_of py_repr params headers op id w n) as [[[call|x] w1] n1] eqn:Ec;
    pose proof (preserves_run _ _ _ _ _ _ _ (call_id_reads _ _ _ _ (fun w1 => w1 = w)) Ec eq_refl) as ->;
    [erewrite bind_ok by exact Ec | by erewrite bind_raise by exact Ec; left]. cbv beta.
  destruct (mcp_guard dumps_text id name op call args w n1) as [[o w1] n2] eqn:Eg.
  pose proof (preserves_run _ _ _ _ _ _ _ (quiet_guard id name op call args (mw_effects w)) Eg eq_refl) as Hlog.
  destruct o as [[reply|]|x]; [erewrite bind_ok by exact Eg; by left | erewrite bind_ok by exact Eg | erewrite bind_raise by exact Eg; by left].
  cbv beta iota. apply guard_admits in Eg.
  destruct (mcp_begin name op call args w1 n2) as [[o w2] n3] eqn:Eb.
  pose proof (preserves_run _ _ _ _ _ _ _ (quiet_begin name op call args (mw_effects w)) Eb Hlog) as Hlog2.
  destruct o as [u|x]; [erewrite bind_ok by exact Eb | erewrite bind_raise by exact Eb; by left]. cbv beta.
  destruct (execute_effects p id name op call args w2 n3) as [He|(t & handler & Ht & Hh & He)]; rewrite Hlog2 in He; [by left|].
  right. eexists. split; [exact He|]. split; [done|]. unfold validate_arguments in Ev. rewrite Ht in Ev.
  destruct (validate_tool_call _ _ _ _ _ _ _ _ _) as [report|] eqn:Hr; [|done]. cbn [res_bind] in Ev.
  destruct (is_executable report) eqn:Ex; [|done]. injection Ev as <-.
  by exists t, handler, (default (JObj []) (od_get "arguments" params)), report.
Qed.

Lemma rpc_guarded p body headers w n :
  let w' := out_st (handle_json_rpc dumps_text py_repr p body headers w n) in
  mw_effects w' = mw_effects w \/ exists e, mw_effects w' = mw_effects w ++ [e] /\ guarded p w e.
Proof.
  unfold handle_json_rpc. destruct body as [| | | | | |fs]; try by left. cbv zeta. destruct (jeqs "2.0" _); [|by left].
  destruct (od_get "method" fs) as [m|]; [|by left]. repeat (case_match; [first [by left | apply call_guarded]|]). by left.
Qed.
End guarded.

(** ** The in-memory ledger: no operation is run again once it succeeded *)

Section at_most_once.
Context {R : Runtime} (dumps_text py_repr : json -> string).
Abbreviation W := (McpWorld ToolExecutionLedger).
Implicit Types w : W.
Abbreviation args_hash := (compute_arguments_hash dumps_sorted sha256).

Definition effect_key (e : effect) : string := op_key (ef_operation e) (ef_tool e) (args_hash (ef_arguments e)).
Definition succeeded (e : effect) : bool := match ef_result e with HText _ | HValue _ => true | _ => false end.
(** No run follows a successful one of the same operation. *)
Definition once (log : list effect) : Prop :=
  forall i j a b, (i < j)%nat -> log !! i = Some a -> log !! j = Some b -> effect_key a = effect_key b -> succeeded a = false.

Lemma once_snoc log e : once log -> (forall a, a ∈ log -> effect_key a = effect_key e -> succeeded a = false) -> once (log ++ [e]).
Proof.
  intros Ho He i j a b Hij Ha Hb Hk. rewrite lookup_app_l in Ha by (apply lookup_lt_Some in Hb; rewrite length_app in Hb; cbn in Hb; lia).
  destruct (decide (j < length log)%nat) as [Hj|Hj]; [rewrite lookup_app_l in Hb by done; by eapply (Ho i j)|].
  rewrite lookup_app_r in Hb by lia. apply list_lookup_singleton_Some in Hb as [_ <-]. apply He; [by eapply list_elem_of_lookup_2 | done].
Qed.

(** The retention of the ledger covers every two readings of its clock. *)
Variable ttl : option Q.
Hypothesis retained : forall i j, expired ttl (wall i) (wall j) = false.
Definition stamped {V} (stamp : V -> Q) (d : odict string V) : Prop := Forall (fun kv => exists j, stamp (snd kv) = wall j) d.

(** A ledger with that retention and room for [mx] entries that holds at most
    [kr] records, all for used calls, and [kp] receipts, one for every success. *)
Record roomy (mx kr kp : nat) (used : list string) (w : W) : Prop := {
  room_ttl : ttl_seconds (mw_ledger w) = ttl;
  room_stamps : stamped created_at (records_by_call_id (mw_ledger w)) /\ stamped snd (receipts_by_op_hash (mw_ledger w));
  room_max : max_records (mw_ledger w) = mx;
  room_records : (length (records_by_call_id (mw_ledger w)) <= kr)%nat;
  room_receipts : (length (receipts_by_op_hash (mw_ledger w)) <= kp)%nat;
  room_calls : forall c, od_get c (records_by_call_id (mw_ledger w)) <> None -> c ∈ used;
  room_done : forall e, e ∈ mw_effects w -> succeeded e = true -> od_get (effect_key e) (receipts_by_op_hash (mw_ledger w)) <> None;
  room_once : once (mw_effects w);
}.
Lemma roomy_mono mx kr kp used kr' kp' c w : roomy mx kr kp used w -> (kr <= kr')%nat -> (kp <= kp')%nat -> roomy mx kr' kp' (c :: used) w.
Proof. intros [] ??. split; try done; try lia. intros c' Hc'. right. auto. Qed.

Lemma evict_roomy {V} max i (stamp : V -> Q) d : stamped stamp d -> (length d <= max)%nat -> evict_store ttl max (wall i) stamp d = d.
Proof.
  intros Hs Hd. unfold evict_store. replace (drop_while _ d) with d.
  2: { destruct Hs as [|[k v] d [j Hj] _]; simpl; [done|]. simpl in Hj. by rewrite Hj, retained. }
  unfold drop_excess. by replace (length d - max)%nat with 0%nat by lia.
Qed.
Lemma evict_ledger_roomy i l : ttl_seconds l = ttl -> stamped created_at (records_by_call_id l) -> stamped snd (receipts_by_op_hash l) ->
  (length (records_by_call_id l) <= max_records l)%nat ->
  (length (receipts_by_op_hash l) <= max_records l)%nat -> evict_ledger (wall i) l = l.
Proof. intros Ht S1 S2 H1 H2. unfold evict_ledger. rewrite Ht, !evict_roomy by done. by destruct l. Qed.
Lemma stamped_set {V} (stamp : V -> Q) k v d j : stamped stamp d -> stamp v = wall j -> stamped stamp (od_set k v d).
Proof. intros Hd Hv. apply od_Forall_set; eauto. Qed.
Lemma stamped_get {V} (stamp : V -> Q) k v d : stamped stamp d -> od_get k d = Some v -> exists j, stamp v = wall j.
Proof. intros Hd Hk%od_get_In. unfold stamped in Hd. rewrite Forall_forall in Hd. exact (Hd _ Hk). Qed.

(** The record of a call is that of its operation. *)
Definition names_key (key : string) (r : ToolExecutionRecord) : Prop := op_key (logical_operation_id r) (tool_name r) (arguments_hash r) = key.
Definition current (call key : string) (w : W) : Prop :=
  exists r, od_get call (records_by_call_id (mw_ledger w)) = Some r /\ names_key key r.
Definition rec_only (f : ToolExecutionRecord -> M exn ToolExecutionLedger ToolExecutionRecord) : Prop :=
  forall r l n, exists r' n', f r l n = (Ok r', l, n') /\ created_at r' = created_at r /\
    forall key, names_key key r -> names_key key r'.

Lemma update_run c f w n : rec_only f -> exists w' n', on_mcp_ledger (update_record c f) w n = (Ok tt, w', n') /\
  (forall mx kr kp used, roomy mx kr kp used w -> roomy mx kr kp used w') /\ (forall call key, current call key w -> current call key w') /\
  mw_effects w' = mw_effects w /\ receipts_by_op_hash (mw_ledger w') = receipts_by_op_hash (mw_ledger w).
Proof.
  intros Hf. unfold on_mcp_ledger, zoom, update_record. mstep. destruct w as [l log]. cbn [mw_ledger mw_effects].
  destruct (od_get c (records_by_call_id l)) as [r|] eqn:Er; [|by eexists _, _].
  destruct (Hf r l n) as (r' & n' & Hr & Hcr & Hk). erewrite bind_ok by exact Hr. cbv beta. eexists _, _. split; [reflexivity|].
  cbn [mw_ledger mw_effects]. split_and!; [| |done..].
  - intros mx kr kp used []. split; try done; cbn.
    + destruct room_stamps0 as [S1 S2]. split; [|done]. destruct (stamped_get _ _ _ _ S1 Er) as [j Hj].
      eapply stamped_set; [done | by rewrite Hcr].
    + by erewrite od_set_present_length.
    + intros c' Hc'. apply room_calls0. cbn. rewrite od_get_set_cases in Hc'. case_decide; [subst; by rewrite Er | done].
  - intros call key (r0 & H0 & Hn0). cbn in *. destruct (decide (call = c)) as [->|Hne].
    + exists r'. cbn. rewrite od_get_set_eq. split; [done|]. apply Hk. congruence.
    + exists r0. cbn. by rewrite od_get_set_ne.
Qed.

Lemma validated_rec_only : rec_only (fun rec => if decide (status rec = PROPOSED) then now ← read_clock wall; mret (set_status VALIDATED now rec) else mret rec).
Proof. intros r l n. case_decide; by eexists _, _. Qed.
Lemma submitted_rec_only : rec_only (fun rec => now ← read_clock wall; mret (set_status SUBMITTED now rec)).
Proof. intros r l n. by eexists _, _. Qed.
Lemma failed_rec_only m : rec_only (fun rec => now ← read_clock wall; mret (set_error m (set_status FAILED now rec))).
Proof. intros r l n. by eexists _, _. Qed.
Lemma replayed_rec_only j : rec_only (fun rec => now ← read_clock wall; mret (set_receipt j (set_status REPLAYED now rec))).
Proof. intros r l n. by eexists _, _. Qed.

Lemma dict_hash args d : dict_of args = Ok d -> args_hash d = args_hash args.
Proof. unfold compute_arguments_hash. destruct args as [| | | |[]|[]|]; by intros [= <-]. Qed.

Lemma register_run mx k used name op call args w n : roomy mx k k used w -> call ∉ used -> (k < mx)%nat ->
  exists w' n', on_mcp_ledger (tl_register_tool_call call op name args) w n = (Ok tt, w', n') /\ roomy mx (S k) k (call :: used) w' /\
    current call (op_key op name (args_hash args)) w' /\ mw_effects w' = mw_effects w /\
    receipts_by_op_hash (mw_ledger w') = receipts_by_op_hash (mw_ledger w).
Proof.
  intros Hw Hc Hk. destruct w as [l log]. pose proof Hw as [Ht [S1 S2] Hm Hr Hp Hu Hd Ho]. cbn in *.
  assert (od_get call (records_by_call_id l) = None) as Hn by (destruct (od_get call _) eqn:E; [|done]; exfalso; apply Hc, Hu; congruence).
  assert (exists rec n', register_tool_call dumps_sorted sha256 wall call op name args l n =
    (Ok rec, with_records (od_set call rec (records_by_call_id l)) l, n') /\ created_at rec = wall n /\
    names_key (op_key op name (args_hash args)) rec) as (rec & n' & Hreg & Hcr & Hkey).
  { unfold register_tool_call, evict. mstep. rewrite Hn. eexists _, _. split.
    - mstep. cbv zeta. mstep. erewrite bind_ok; [reflexivity|]. mstep. unfold modify.
      rewrite evict_ledger_roomy; cbn; try done; try lia; [by eapply stamped_set|]. rewrite od_set_absent, length_app by done. cbn. lia.
    - by split. }
  unfold on_mcp_ledger, zoom. cbn [tl_register_tool_call memory_ledger mw_ledger]. unfold ignore. erewrite bind_ok by exact Hreg.
  eexists _, _. split; [reflexivity|]. split_and!; [|exists rec; cbn; by rewrite od_get_set_eq | done..].
  split; cbn; try done; [split; [by eapply stamped_set | done] | rewrite od_set_absent, length_app by done; cbn; lia|].
  intros c'. rewrite od_get_set_cases. case_decide; [subst; by left | right; auto].
Qed.

(** The receipts are kept, and the record is that of the call, until its end. *)
Lemma begin_run mx k used name op call args w n : roomy mx k k used w -> call ∉ used -> (k < mx)%nat ->
  let o := mcp_begin name op call args w n in
  roomy mx (S k) k (call :: used) (out_st o) /\ mw_effects (out_st o) = mw_effects w /\
  receipts_by_op_hash (mw_ledger (out_st o)) = receipts_by_op_hash (mw_ledger w) /\
  (out_res o = Ok tt -> current call (op_key op name (args_hash args)) (out_st o)).
Proof.
  intros Hw Hc Hk. cbv zeta. unfold mcp_begin. destruct (dict_of args) as [d|x] eqn:Ed.
  2:{ cbn. split_and!; [by eapply roomy_mono; [done|lia..] | done..]. }
  erewrite bind_ok by reflexivity. cbv beta. destruct (register_run mx k used name op call d w n Hw Hc Hk) as (w1 & n1 & H1 & Hr1 & Hc1 & He1 & Hp1).
  rewrite (dict_hash _ _ Ed) in Hc1. erewrite bind_ok by exact H1. cbv beta.
  destruct (update_run call _ w1 n1 validated_rec_only) as (w2 & n2 & H2 & Hr2 & Hc2 & He2 & Hp2). erewrite bind_ok by exact H2. cbv beta.
  destruct (update_run call _ w2 n2 submitted_rec_only) as (w3 & n3 & H3 & Hr3 & Hc3 & He3 & Hp3).
  change (on_mcp_ledger (tr_mark_submitted call)) with (on_mcp_ledger (update_record call (fun rec => now ← read_clock wall; mret (set_status SUBMITTED now rec)))).
  rewrite H3. cbn [out_st out_res fst snd]. split_and!; [auto | congruence | congruence | auto].
Qed.

Lemma commit_run mx kr kp used id call key out w n : roomy mx kr kp used w -> (kr <= mx)%nat -> (kp < mx)%nat -> current call key w ->
  exists reply rec stamp n', (exists i, created_at rec = wall i) /\ (exists j, snd stamp = wall j) /\ mcp_commit id call out w n = (Ok reply, {| mw_ledger := with_receipts (od_set key stamp (receipts_by_op_hash (mw_ledger w)))
    (with_records (od_set call rec (records_by_call_id (mw_ledger w))) (mw_ledger w)); mw_effects := mw_effects w |}, n').
Proof.
  intros [Ht [S1 S2] Hm Hr Hp Hu Hd Ho] Hkr Hkp (r & Hr0 & Hk). destruct w as [l log]. cbn in *. unfold mcp_commit. mstep. cbv zeta.
  unfold on_mcp_ledger, zoom. cbn [tr_mark_committed memory_runner mw_ledger].
  destruct (stamped_get _ _ _ _ S1 Hr0) as [i Hi].
  assert (exists rec stamp n', created_at rec = wall i /\ (exists j, snd stamp = wall j) /\ mark_committed wall wall call (receipt_of out (wall n)) l (S n) = (Ok tt, with_receipts (od_set key stamp (receipts_by_op_hash l))
    (with_records (od_set call rec (records_by_call_id l)) l), n')) as (rec & stamp & n' & Hrec & Hst & Hc).
  { exists (set_receipt (receipt_of out (wall n)) (set_status COMMITTED (wall (S n)) r)), (receipt_of out (wall n), wall (S (S n))).
    unfold mark_committed. mstep. rewrite Hr0. eexists. split; [done|]. split; [by eexists|].
    mstep. mstep. cbv zeta. mstep. mstep. unfold evict. mstep. unfold modify.
    rewrite evict_ledger_roomy; cbn; [by rewrite Hk | done | by eapply stamped_set | by eapply stamped_set | by erewrite od_set_present_length; [lia|] |].
    rewrite Hk, Hm. pose proof (od_length_set (receipts_by_op_hash l) key (receipt_of out (wall n), wall (S (S n)))). lia. }
  unfold mbind, M_bind. cbn [mw_ledger]. rewrite Hc. eexists _, rec, stamp, _. eauto.
Qed.

(** A commit keeps the ledger roomy, with a receipt for one more operation, and
    makes up for a success that was only logged. *)
Lemma commit_roomy mx kr kp used id call key out w n log : roomy mx kr kp used {| mw_ledger := mw_ledger w; mw_effects := log |} ->
  (kr <= mx)%nat -> (kp < mx)%nat -> current call key w -> once (mw_effects w) ->
  (forall e, e ∈ mw_effects w -> e ∈ log \/ effect_key e = key) ->
  exists reply, out_res (mcp_commit id call out w n) = Ok reply /\ roomy mx kr (S kp) used (out_st (mcp_commit id call out w n)).
Proof.
  intros Hw Hkr Hkp Hc Ho Hlog.
  assert (exists reply rec stamp n', (exists i, created_at rec = wall i) /\ (exists j, snd stamp = wall j) /\ mcp_commit id call out w n = (Ok reply, {| mw_ledger := with_receipts (od_set key stamp (receipts_by_op_hash (mw_ledger w)))
    (with_records (od_set call rec (records_by_call_id (mw_ledger w))) (mw_ledger w)); mw_effects := mw_effects w |}, n')) as (reply & rec & stamp & n' & [i Hi] & [j Hj] & ->).
  { destruct (commit_run mx kr kp used id call key out {| mw_ledger := mw_ledger w; mw_effects := log |} n Hw Hkr Hkp Hc) as (reply & rec & stamp & n' & Hi & Hj & H).
    exists reply, rec, stamp, n'. split; [done|]. split; [done|]. revert H. unfold mcp_commit, on_mcp_ledger, zoom, mbind, M_bind. cbn [read_clock mw_ledger mw_effects].
    destruct (tr_mark_committed _ _ _ _) as [[[u|x] l'] m]; cbn; intros [= <- -> <-]. done. }
  exists reply. split; [done|]. destruct Hw as [Ht [S1 S2] Hm Hr Hp Hu Hd _]. destruct Hc as (r & Hr0 & _). cbn in *. split; cbn; try done.
  - split; by eapply stamped_set.
  - by erewrite od_set_present_length.
  - pose proof (od_length_set (receipts_by_op_hash (mw_ledger w)) key stamp). lia.
  - intros c. rewrite od_get_set_cases. case_decide; [subst; intros _; apply Hu; congruence | auto].
  - intros e He Hs. rewrite od_get_set_cases. case_decide; [done|]. destruct (Hlog e He) as [Hin|]; [by apply Hd | done].
Qed.

Lemma execute_run mx k used p id name op call args w n : let key := op_key op name (args_hash args) in
  roomy mx (S k) k (call :: used) w -> (S k <= mx)%nat -> current call key w -> od_get key (receipts_by_op_hash (mw_ledger w)) = None ->
  roomy mx (S k) (S k) (call :: used) (out_st (mcp_execute dumps_text p id name op call args w n)).
Proof.
  intros key Hw Hk Hc Hnew. unfold mcp_execute. destruct (od_get name (mcp_tools p) ≫= mt_handler) as [handler|].
  2:{ match goal with |- context [mcp_commit id call ?out w n] =>
        destruct (commit_roomy mx (S k) k (call :: used) id call key out w n (mw_effects w)) as (reply & _ & Hr) end;
      [by destruct w | lia | lia | done | apply Hw | by left | exact Hr]. }
  erewrite bind_ok by reflexivity. cbv beta. set (e := {| ef_operation := op |}). set (w1 := {| mw_ledger := mw_ledger w; mw_effects := _ |}).
  assert (once (mw_effects w1)) as Ho.
  { apply once_snoc; [apply Hw|]. intros a Ha Hkey. destruct (succeeded a) eqn:Es; [|done]. exfalso. by apply (room_done _ _ _ _ _ Hw a Ha Es); rewrite Hkey. }
  assert (forall out, roomy mx (S k) (S k) (call :: used) (out_st (catch (mcp_commit id call out) (fun _ => true)
    (fun x => mcp_fail id call (err_str (describe x))) w1 (S n)))) as Hcommit.
  { intros out. destruct (commit_roomy mx (S k) k (call :: used) id call key out w1 (S n) (mw_effects w)) as (reply & Hok & Hr); try done.
    - destruct Hw; by split.
    - cbn. intros e'. rewrite elem_of_app, list_elem_of_singleton. intros [?| ->]; [by left | by right].
    - unfold catch. destruct (mcp_commit id call out w1 (S n)) as [[r w2] n2]. cbn in *. by subst r. }
  assert (forall m, succeeded e = false -> roomy mx (S k) (S k) (call :: used) (out_st (mcp_fail id call m w1 (S n)))) as Hfail.
  { intros m Hs. unfold mcp_fail. destruct (update_run call _ w1 (S n) (failed_rec_only m)) as (w2 & n2 & H2 & Hr2 & _).
    erewrite bind_ok by exact H2. cbn. apply Hr2. destruct Hw. split; try done; cbn in *; [lia|].
    intros e'. rewrite elem_of_app, list_elem_of_singleton. intros [He| ->]; [auto | congruence]. }
  destruct (handler args n) eqn:Eh; [apply Hcommit | apply Hcommit | by apply Hfail..].
Qed.

(** The guard only touches the record of the call, and lets no receipt pass. *)
Lemma guard_keeps mx kr kp used d id name op call args :
  preserves (fun w => roomy mx kr kp used w /\ receipts_by_op_hash (mw_ledger w) = d) (mcp_guard dumps_text id name op call args).
Proof.
  unfold mcp_guard. apply preserves_bind; [by intros [l log] n Hw | intros [|]]; [apply preserves_ret|].
  apply preserves_bind.
  - intros [l log] n Hw. unfold on_mcp_ledger, zoom. cbn [tl_check_idempotency memory_ledger mw_ledger mw_effects].
    assert (preserves (fun l' => l' = l) (check_idempotency dumps_sorted sha256 wall op name args)) as Hp by (unfold check_idempotency; preserve).
    specialize (Hp l n eq_refl). destruct (check_idempotency _ _ _ _ _ _ l n) as [[r l'] n']. cbn in Hp. by rewrite Hp.
  - intros [[|] [c|]]; try apply preserves_ret. apply preserves_bind; [|intros _; apply preserves_bind; [apply preserves_lift | intros; apply preserves_ret]].
    intros w n [Hr Hd]. destruct (update_run call _ w n (replayed_rec_only c)) as (w' & n' & H & Hr' & _ & _ & Hd').
    change (on_mcp_ledger (tl_mark_replayed call c)) with (on_mcp_ledger (update_record call (fun rec => now ← read_clock wall; mret (set_receipt c (set_status REPLAYED now rec))))).
    rewrite H. split; [by apply Hr' | by rewrite <- Hd].
Qed.
Lemma admitted_new op name args (w : W) : ttl_seconds (mw_ledger w) = ttl -> stamped snd (receipts_by_op_hash (mw_ledger w)) -> admitted w op name args ->
  od_get (op_key op name (args_hash args)) (receipts_by_op_hash (mw_ledger w)) = None.
Proof.
  intros Ht Hst (_ & m & o & t' & m' & Hc & Ho). cbn [tl_check_idempotency memory_ledger] in Hc. unfold check_idempotency in Hc.
  apply bind_inv in Hc as (? & ? & ? & [= <- <- <-] & Hc). destruct (od_get _ _) as [[r st]|] eqn:Eg; [|done]. exfalso.
  destruct (stamped_get _ _ _ _ Hst Eg) as [j Hj]. simpl in Hj.
  apply bind_inv in Hc as (now & ? & ? & [= <- <- <-] & Hc). rewrite Ht in Hc. simpl in Hc. rewrite Hj, retained in Hc. injection Hc as <- _ _. by apply (Ho r).
Qed.

Lemma call_tail_roomy mx k used p id name op call args w n : roomy mx k k used w -> call ∉ used -> (k < mx)%nat ->
  roomy mx (S k) (S k) (call :: used) (out_st ((ended ← mcp_guard dumps_text id name op call args;
    match ended with
    | Some reply => mret reply
    | None => mcp_begin name op call args ;; mcp_execute dumps_text p id name op call args
    end) w n)).
Proof.
  intros Hw Hc Hk. set (d := receipts_by_op_hash (mw_ledger w)).
  pose proof (guard_keeps mx k k used d id name op call args w n (conj Hw eq_refl)) as Hg.
  destruct (mcp_guard dumps_text id name op call args w n) as [[[[reply|]|x] w1] n1] eqn:Eg;
    [erewrite bind_ok by exact Eg | erewrite bind_ok by exact Eg | erewrite bind_raise by exact Eg]; destruct Hg as [Hr1 Hd1];
    cbv beta iota; [eapply roomy_mono; [exact Hr1 | lia..]| | eapply roomy_mono; [exact Hr1 | lia..]].
  apply guard_admits, admitted_new in Eg; [|apply Hw | apply Hw].
  destruct (begin_run mx k used name op call args w1 n1 Hr1 Hc Hk) as (Hr2 & _ & Hd2 & Hcur).
  destruct (mcp_begin name op call args w1 n1) as [[[[]|x] w2] n2] eqn:Eb; cbn in *;
    [erewrite bind_ok by exact Eb | erewrite bind_raise by exact Eb].
  - apply execute_run; [done | lia | auto | by rewrite Hd2, Hd1].
  - eapply roomy_mono with (c := call) in Hr2; [|reflexivity|]. 2:{ instantiate (1 := S k). lia. } destruct Hr2. split; try done. intros c Hcc. specialize (room_calls0 c Hcc). set_solver.
Qed.

(** ** Clients that name their operations and calls *)

Record client_call : Type := { cl_id : json; cl_tool : string; cl_arguments : json; cl_operation : string; cl_call : string }.
Definition call_body (c : client_call) : json :=
  JObj [("jsonrpc", JStr "2.0"); ("id", cl_id c); ("method", JStr "tools/call");
        ("params", JObj [("name", JStr (cl_tool c)); ("arguments", cl_arguments c); ("operation_id", JStr (cl_operation c));
                         ("tool_call_id", JStr (cl_call c))])].
(** One HTTP request after the other; an exception ends its request. *)
Definition serve (p : MCPProxy) (calls : list client_call) (w : W) (n : nat) : W * nat :=
  foldl (fun s c => let o := handle_json_rpc dumps_text py_repr p (call_body c) [] (fst s) (snd s) in (out_st o, out_tick o)) (w, n) calls.

Lemma body_runs p id a name args b op d call w n : let c := {| cl_id := id; cl_tool := String a name; cl_arguments := args;
    cl_operation := String b op; cl_call := String d call |} in
  handle_json_rpc dumps_text py_repr p (call_body c) [] w n =
  match validate_arguments p id (cl_tool c) args with
  | Ok (inl args') => (ended ← mcp_guard dumps_text id (cl_tool c) (cl_operation c) (cl_call c) args';
      match ended with
      | Some reply => mret reply
      | None => mcp_begin (cl_tool c) (cl_operation c) (cl_call c) args' ;;
                mcp_execute dumps_text p id (cl_tool c) (cl_operation c) (cl_call c) args'
      end) w n
  | Ok (inr refusal) => (Ok refusal, w, n)
  | Raise x => (Raise x, w, n)
  end.
Proof.
  cbv zeta. transitivity (handle_tools_call dumps_text py_repr p id
    [("name", JStr (String a name)); ("arguments", args); ("operation_id", JStr (String b op)); ("tool_call_id", JStr (String d call))] [] w n);
    [reflexivity|].
  unfold handle_tools_call. change (od_get "name" _) with (Some (JStr (String a name))). cbv iota.
  change (default (JObj []) (od_get "arguments" _)) with args. cbn [cl_tool cl_operation cl_call].
  destruct (validate_arguments p id (String a name) args) as [[args'|r]|x]; reflexivity.
Qed.

Lemma served_roomy mx k used p c w n : roomy mx k k used w -> cl_call c ∉ used -> (k < mx)%nat ->
  truthy (cl_operation c) = true -> truthy (cl_call c) = true ->
  roomy mx (S k) (S k) (cl_call c :: used) (out_st (handle_json_rpc dumps_text py_repr p (call_body c) [] w n)).
Proof.
  intros Hw Hc Hk Hop Hcall. assert (roomy mx (S k) (S k) (cl_call c :: used) w) as Hstay by (eapply roomy_mono; [done|lia..]).
  destruct c as [id [|a name] args [|b op] [|d call]]; try discriminate; [exact Hstay|]. rewrite body_runs.
  destruct (validate_arguments _ _ _ _) as [[args'|r]|x]; [by apply call_tail_roomy | done..].
Qed.

Lemma serve_roomy mx p calls : forall k used w n, roomy mx k k used w -> (k + length calls <= mx)%nat ->
  NoDup (map cl_call calls) -> (forall c, c ∈ calls -> cl_call c ∉ used /\ truthy (cl_operation c) = true /\ truthy (cl_call c) = true) ->
  exists k' used', roomy mx k' k' used' (fst (serve p calls w n)).
Proof.
  unfold serve. induction calls as [|c calls IH]; intros k used w n Hw Hk Hnd Hc; [by exists k, used|]. cbn [foldl fst snd].
  cbn in Hk, Hnd. apply NoDup_cons in Hnd as [Hnin Hnd]. destruct (Hc c ltac:(left)) as (Hu & Ho & Hcc).
  apply (IH (S k) (cl_call c :: used)); [apply served_roomy; (done || lia) | lia | done|].
  intros c' Hin. destruct (Hc c' ltac:(by right)) as (Hu' & ? & ?). split; [|done]. rewrite not_elem_of_cons. split; [|done].
  intros Heq. apply Hnin. rewrite <- Heq. apply list_elem_of_In, in_map, list_elem_of_In, Hin.
Qed.
End at_most_once.

(** ** Claims *)

(** C15: What an effect of the MCP proxy has passed.  Whatever the request, at most
    one handler runs; it is the handler of a registered tool, on arguments that the
    validator produced from the caller's for that tool's schema; when it ran, the
    ledger had neither an unresolved submission nor a receipt of the operation. *)
Theorem mcp_effects_guarded `{Runtime} `{ToolLedgerOps T} `{!ToolLedgerLaws T} `{ToolRunnerOps T} dumps_text py_repr p body headers
    (w : McpWorld T) n :
  let w' := out_st (handle_json_rpc dumps_text py_repr p body headers w n) in
  mw_effects w' = mw_effects w \/ exists e, mw_effects w' = mw_effects w ++ [e] /\ guarded p w e.
Proof. apply rpc_guarded. Qed.

(** C7: No operation is run again once it succeeded, while its receipt is retained.
    Clients name the operations and use every call identifier once, the ledger has
    room for all calls, and no two readings of its clock are further apart than its
    retention (an unlimited one always covers them): then, whatever the tools, their
    schemas and what the handlers return, a run of an operation (its name, tool and
    arguments) that succeeded is followed by no other run of it. *)
Theorem mcp_at_most_once `{Runtime} dumps_text py_repr p calls mx ttl n :
  (forall i j, expired ttl (wall i) (wall j) = false) ->
  (length calls <= mx)%nat -> NoDup (map cl_call calls) ->
  Forall (fun c => truthy (cl_operation c) = true /\ truthy (cl_call c) = true) calls ->
  once (mw_effects (fst (serve dumps_text py_repr p calls {| mw_ledger := new_ledger mx ttl; mw_effects := [] |} n))).
Proof.
  intros Hlive Hlen Hnd Hall. rewrite Forall_forall in Hall.
  destruct (serve_roomy dumps_text py_repr ttl Hlive mx p calls 0 [] {| mw_ledger := new_ledger mx ttl; mw_effects := [] |} n) as (k & used & Hr).
  - split; cbn; try done; try lia; [split; constructor | set_solver..].
  - cbn. lia.
  - done.
  - intros c Hc. split; [apply not_elem_of_nil | by apply Hall].
  - apply Hr.
Qed.

(** ** A concrete proxy *)

Definition note_tool (h : handler_result) : MCPToolDefinition :=
  {| mt_name := "note"; mt_description := ""; mt_input_schema := JObj []; mt_handler := Some (fun _ _ => h) |}.
Definition note_proxy (h : handler_result) : MCPProxy := new_mcp_proxy [note_tool h] None.
Definition note_call (op call : string) : client_call :=
  {| cl_id := JInt 1; cl_tool := "note"; cl_arguments := JObj [("x", JInt 1)]; cl_operation := op; cl_call := call |}.
Definition empty_world : McpWorld ToolExecutionLedger := {| mw_ledger := new_ledger 8 None; mw_effects := [] |}.
Definition plain (_ : json) : string := "{}".
Definition notes (h : handler_result) (calls : list client_call) : list effect :=
  mw_effects (fst (serve plain plain (note_proxy h) calls empty_world 0%nat)).

(** The default retention of an hour, and a clock that stays within 3000 seconds. *)
Definition hour_runtime : Runtime := {|
  wall n := Qnat (Nat.min n 3000); mono := mono; breaker_clock := breaker_clock; draws := draws; uuids := uuids; environ := environ;
  dumps := dumps; dumps_sorted := dumps_sorted; dumps_indent := dumps_indent; loads := loads; loads_lax := loads_lax;
  literal_eval := literal_eval; float_str := float_str; sha256 := sha256; parse_http_date := parse_http_date; describe := describe;
  render := render |}.
Definition notes_within (rt : Runtime) (ttl : option Q) (h : handler_result) (calls : list client_call) : list effect :=
  mw_effects (fst (serve (R := rt) plain plain (note_proxy h) calls {| mw_ledger := new_ledger 8 ttl; mw_effects := [] |} 0%nat)).

(** The same operation asked for three times, and another one. *)
Lemma mcp_at_most_once_witness :
  let calls := [note_call "a" "c1"; note_call "a" "c2"; note_call "b" "c3"; note_call "a" "c4"] in
  let run := notes_within hour_runtime (Some 3600%Q) (HText "noted") calls in
  map ef_operation run = ["a"; "b"] /\ once run.
Proof.
  split; [vm_compute; exact eq_refl|].
  apply (mcp_at_most_once (H := hour_runtime)); [|cbn; lia | | repeat constructor].
  - intros i j. change ((3600 ≺ (Qnat (Nat.min i 3000) - Qnat (Nat.min j 3000))%Q) = false). apply Qltb_false.
    pose proof (proj1 (Qnat_le (Nat.min i 3000) 3000) (Nat.le_min_r i 3000)) as Hi.
    pose proof (Qnat_nonneg (Nat.min j 3000)) as Hj. assert (Qnat 3000 == 3000)%Q as H3 by reflexivity. lra.
  - apply (bool_decide_unpack _). vm_compute. exact I.
Defined.

(** Two requests whose guards both run before either call is registered. *)
Definition interleaved : McpWorld ToolExecutionLedger :=
  let args := JObj [("x", JInt 1)] in
  let p := note_proxy (HText "noted") in
  out_st ((g1 ← mcp_guard plain (JInt 1) "note" "a" "c1" args;
           g2 ← mcp_guard plain (JInt 2) "note" "a" "c2" args;
           match g1, g2 with
           | None, None =>
               mcp_begin "note" "a" "c1" args ;; mcp_begin "note" "a" "c2" args ;;
               mcp_execute plain p (JInt 1) "note" "a" "c1" args ;; mcp_execute plain p (JInt 2) "note" "a" "c2" args
           | _, _ => mret (0%Z, JNull, [])
           end) empty_world 0%nat).

(** Where idempotency is lost.  Once the retention has passed, an operation that
    succeeded is run again; a call identifier used for two operations makes
    the second commit under the first one's key, so the second is run again when
    asked for again; a handler that did its work but whose result is not JSON is
    filed as failed and run again; and two requests for one operation that are
    checked before either is registered both run. *)
Theorem mcp_idempotency_gaps :
  map ef_operation (notes_within demo_runtime (Some 4%Q) (HText "noted") [note_call "a" "c1"; note_call "b" "c2"; note_call "a" "c3"]) = ["a"; "b"; "a"] /\
  map ef_operation (notes (HText "noted") [note_call "a" "c"; note_call "b" "c"; note_call "b" "d"]) = ["a"; "b"; "b"] /\
  ~ once (notes (HText "noted") [note_call "a" "c"; note_call "b" "c"; note_call "b" "d"]) /\
  map ef_operation (notes (HUnserialisable "not JSON") [note_call "a" "c1"; note_call "a" "c2"]) = ["a"; "a"] /\
  map ef_operation (mw_effects interleaved) = ["a"; "a"] /\ ~ once (mw_effects interleaved).
Proof.
  split_and!; try (vm_compute; exact eq_refl).
  - intros Ho. assert (match notes (HText "noted") [note_call "a" "c"; note_call "b" "c"; note_call "b" "d"] with
      | [_; a; b] => effect_key a = effect_key b /\ succeeded a = true | _ => False end) as Hl by (vm_compute; by split).
    destruct (notes _ _) as [|x [|a [|b [|]]]]; try done. destruct Hl as [Hk Hs]. rewrite (Ho 1%nat 2%nat a b) in Hs; [done | lia | done..].
  - intros Ho. assert (match mw_effects interleaved with
      | [a; b] => effect_key a = effect_key b /\ succeeded a = true | _ => False end) as Hl by (vm_compute; by split).
    destruct (mw_effects interleaved) as [|a [|b [|]]]; try done. destruct Hl as [Hk Hs]. rewrite (Ho 0%nat 1%nat a b) in Hs; [done | lia | done..].
Qed.
