(* ===== verification/ProxyWire.v ===== *)
(** * HTTP proxy: what it reads and writes

    The pure part of [src/durallm/proxy.py]: headers and bodies of requests,
    telemetry and continuation headers, and the synthetic event streams.  Header
    names are compared without case, as [http.server] and Starlette do. *)

From stdpp Require Import base tactics list strings.
From Stdlib Require Import QArith Qround Ascii.
From S2P Require Import Prelude PyText Utf8 Json Models PyDyn IR Profile Requirements Execution Continuation Sse.

(** ** Requests *)

Definition http_headers : Type := list (string * string).
Definition hget (name : string) (hs : http_headers) : option string :=
  snd <$> find (fun kv => String.eqb (py_lower (fst kv)) (py_lower name)) hs.
(** [headers.get(name) or None] *)
Definition hget_or_none (name : string) (hs : http_headers) : option string :=
  match hget name hs with Some s => if truthy s then Some s else None | None => None end.

Definition pool_for_model (requested_model : string) : string :=
  let m := py_lower requested_model in
  if starts_with "claude-" m || existsb (fun k => contains k m) ["code"; "claude"; "coder"] then "coding" else "general_agent".

(** The path of the state database: the argument wins over the environment; an
    empty one keeps the state in memory. *)
Definition state_db_path (storage_path env : option string) : option string :=
  match storage_path with
  | Some p => if truthy p then Some p else None
  | None => match env with Some p => if truthy p then Some p else None | None => None end
  end.

Definition continuation_request_from_headers (hs : http_headers) : res exn (option ContinuationRequest) :=
  match hget "X-LCB-ACP-Version" hs with
  | None =>
      if existsb (fun name => match hget_or_none name hs with Some _ => true | None => false end)
           ["X-LCB-Session-Id"; "X-LCB-Parent-Checkpoint-Digest"; "X-LCB-State-Digest"]
      then Raise (ContinuationProtocolError 400) else Ok None
  | Some version =>
      Ok (Some {| cr_state_digest := default "" (hget_or_none "X-LCB-State-Digest" hs);
                  cr_session_id := hget_or_none "X-LCB-Session-Id" hs;
                  cr_parent_checkpoint_digest := hget_or_none "X-LCB-Parent-Checkpoint-Digest" hs;
                  cr_protocol_version := version |})
  end.

Definition logical_operation_id_from_headers (hs : http_headers) : res exn (option string) :=
  match hget_or_none "X-LCB-Operation-Id" hs with
  | None => Ok None
  | Some value =>
      if (256 <? String.length value)%nat || contains (String cr "") value || contains (String nl "") value
      then Raise (ToolOperationProtocolError 400) else Ok (Some value)
  end.

Definition StreamingMode_value (m : StreamingMode) : string :=
  match m with TRUE_STREAMING => "true_streaming" | ATOMIC_BUFFERED => "atomic_buffered" end.
Definition parse_mode (s : string) : option StreamingMode :=
  find (fun m => String.eqb (StreamingMode_value m) s) [TRUE_STREAMING; ATOMIC_BUFFERED].

Section wire.
(** [json.dumps(ensure_ascii=False)] and [str] of values that are not texts. *)
Context (json_dumps py_repr : json -> string).

Definition streaming_mode_from_request (body : odict string json) (hs : http_headers) : res exn StreamingMode :=
  let raw := match hget_or_none "X-LCB-Streaming-Mode" hs with
             | Some s => JStr s
             | None => jor (default JNull (od_get "lcb_stream_mode" body)) (JStr "atomic_buffered")
             end in
  match parse_mode (py_lower (py_str py_repr raw)) with Some m => Ok m | None => Raise ConfigurationError end.

(** ** Answers *)

(** The ledger identifiers of the tool calls, beside the provider's own fields. *)
Definition tool_operation (tc : NormalizedToolCall) : list json :=
  match od_get "ledger_call_id" (tc_metadata tc) with
  | Some key =>
      if jtruthy key then
        [JObj [("tool_call_id", JStr (tc_id tc)); ("ledger_call_id", key);
               ("status", JStr (if jtruthy (default JNull (od_get "replayed" (tc_metadata tc))) then "replayed" else "validated"))]]
      else []
  | None => []
  end.
Definition attach_tool_operation_metadata (body : odict string json) (r : NormalizedResponse) : odict string json :=
  match concat (map tool_operation (resp_tool_calls r)) with
  | [] => body
  | ops => od_set "lcb_tool_operations" (JArr ops) body
  end.

Definition build_failover_telemetry (requested_model : string) (d : RoutingDecision) (l : AttemptLedger)
    : http_headers * option json :=
  let active := match selected_endpoint d with Some e => ep_model e | None => "unknown" end in
  let selected := match selected_endpoint d with Some e => ep_id e | None => "unknown" end in
  let headers := [("X-LCB-Requested-Model", requested_model); ("X-LCB-Active-Model", active); ("X-LCB-Selected-Endpoint", selected)] in
  let is_virtual_alias :=
    existsb (String.eqb requested_model) ["auto-coding-agent"; "hermes-default"; "openclaw-default"; "default"] ||
    starts_with "claude-" (py_lower requested_model) in
  let has_failover :=
    (0 <? fallback_count l)%nat || existsb (fun c => negb (eligible c)) (evaluated_candidates d) ||
    (negb is_virtual_alias && negb (String.eqb active requested_model)) in
  if has_failover then
    let reason := match fallback_reason d with Some s => if truthy s then s else "upstream_failover" | None => "upstream_failover" end in
    (headers ++ [("X-LCB-Failover", "true"); ("X-LCB-Failover-Reason", reason)],
     Some (JObj [("triggered", JBool true); ("requested_model", JStr requested_model); ("active_model", JStr active);
                 ("selected_endpoint", JStr selected); ("failover_reason", JStr reason);
                 ("attempts", JInt (Z.of_nat (total_attempts l)))]))
  else (headers, None).

Definition continuation_headers (event : option ContinuationEvent) : http_headers :=
  match event with
  | None => []
  | Some e =>
      [("X-LCB-ACP-Version", ce_protocol_version e); ("X-LCB-Continuation-Event", event_name (ce_type e));
       ("X-LCB-Session-Id", ce_session_id e); ("X-LCB-Turn-Id", ce_turn_id e); ("X-LCB-Epoch", py_str_int (ce_epoch e));
       ("X-LCB-Ack-Required", if ack_required e then "true" else "false")] ++
      match ce_checkpoint e with
      | Some c => [("X-LCB-Checkpoint-Id", checkpoint_id c); ("X-LCB-Checkpoint-Digest", gateway_digest c)]
      | None => []
      end
  end.

(** ** Synthetic streams *)

Definition emit_block {S} (idx : Z) (b : json) : M dyn_error S (list string) :=
  btype ← py_get "type" b;
  if jeqs "thinking" btype then
    th ← py_get_or "thinking" (JStr "") b;
    sg ← py_get "signature" b;
    mret ([block_start json_dumps idx [("type", JStr "thinking"); ("thinking", JStr "")];
           block_delta json_dumps idx [("type", JStr "thinking_delta"); ("thinking", th)]] ++
          (if jtruthy sg then [block_delta json_dumps idx [("type", JStr "signature_delta"); ("signature", sg)]] else []) ++
          [block_stop json_dumps idx])
  else if jeqs "text" btype then
    t ← py_get_or "text" (JStr "") b;
    mret [block_start json_dumps idx [("type", JStr "text"); ("text", JStr "")];
          block_delta json_dumps idx [("type", JStr "text_delta"); ("text", t)]; block_stop json_dumps idx]
  else if jeqs "tool_use" btype then
    i ← py_get "id" b;
    nm ← py_get "name" b;
    input ← py_get_or "input" (JObj []) b;
    mret [block_start json_dumps idx [("type", JStr "tool_use"); ("id", i); ("name", nm); ("input", JObj [])];
          block_delta json_dumps idx [("type", JStr "input_json_delta"); ("partial_json", JStr (json_dumps input))];
          block_stop json_dumps idx]
  else mret [].
Fixpoint emit_blocks {S} (idx : Z) (bs : list json) : M dyn_error S (list string) :=
  match bs with
  | [] => mret []
  | b :: bs' => fs ← emit_block idx b; rest ← emit_blocks (idx + 1) bs'; mret (fs ++ rest)
  end.

(** [_emit_synthetic_anthropic_stream]: the frames written; a broken pipe only
    loses what is written after it. *)
Definition emit_synthetic_anthropic_stream {S} (resp : json) : M dyn_error S (list string) :=
  msg_id ← py_get_or "id" (JStr "msg_synthetic") resp;
  model ← py_get_or "model" (JStr "auto-coding-agent") resp;
  usage ← py_get_or "usage" (JObj []) resp;
  tin ← py_get_or "input_tokens" (JInt 0) usage;
  content ← py_get_or "content" (JArr []) resp;
  blocks ← py_iter content;
  bodies ← emit_blocks 0 blocks;
  stop ← py_get_or "stop_reason" (JStr "end_turn") resp;
  tout ← py_get_or "output_tokens" (JInt 10) usage;
  mret ([frame json_dumps "message_start" (JObj [("type", JStr "message_start"); ("message", JObj [
           ("id", msg_id); ("type", JStr "message"); ("role", JStr "assistant"); ("model", model); ("content", JArr []);
           ("stop_reason", JNull); ("stop_sequence", JNull);
           ("usage", JObj [("input_tokens", tin); ("output_tokens", JInt 1)])])])] ++
        bodies ++
        [frame json_dumps "message_delta" (JObj [("type", JStr "message_delta");
           ("delta", JObj [("stop_reason", stop); ("stop_sequence", JNull)]); ("usage", JObj [("output_tokens", tout)])]);
         frame json_dumps "message_stop" (JObj [("type", JStr "message_stop")])]).

(** [_emit_synthetic_openai_stream]: one chunk and the end mark. *)
Definition emit_synthetic_openai_stream {S} (created : Z) (resp : json) (model : json) : M dyn_error S (list string) :=
  choices ← py_get_or "choices" (JArr []) resp;
  msg ← (if jtruthy choices then c0 ← py_first choices; py_get_or "message" (JObj []) c0 else mret (JObj []));
  i ← py_get_or "id" (JStr "chatcmpl-stream") resp;
  content ← py_get "content" msg;
  calls ← py_get "tool_calls" msg;
  fin ← (if jtruthy choices then c0 ← py_first choices; py_get_or "finish_reason" (JStr "stop") c0 else mret (JStr "stop"));
  mret [data_frame (json_dumps (JObj [("id", i); ("object", JStr "chat.completion.chunk"); ("created", JInt created); ("model", model);
          ("choices", JArr [JObj [("index", JInt 0);
             ("delta", JObj [("role", JStr "assistant"); ("content", content); ("tool_calls", calls)]); ("finish_reason", fin)]])]));
        data_frame "[DONE]"].
End wire.

From S2P Require Import JsonText SseProps CodecAnthropic CodecOpenAI.
Import JsonTextProps.

(** ** What the proxy's synthetic streams convey

    The stream emitted for an Anthropic client is the reference synthesis of the
    part of the answer that the client's protocol can carry, and reads back as
    that.  The stream emitted for an OpenAI client loses reasoning and runs
    several tool calls together. *)
Module ProxyWireProps.

(** ** The Anthropic stream *)

(** What the client is sent of an answer: reasoning only with its signature, and
    the arguments as an object. *)
Definition sent_call (tc : NormalizedToolCall) : NormalizedToolCall :=
  {| tc_id := tc_id tc; tc_name := tc_name tc; tc_arguments := tc_arguments tc; raw_arguments := ""; tc_metadata := tc_metadata tc |}.
Definition sent (r : NormalizedResponse) : NormalizedResponse :=
  {| response_id := response_id r; resp_model := resp_model r; resp_content := resp_content r;
     resp_reasoning_content := match present (resp_reasoning_content r), present (resp_reasoning_signature r) with Some t, Some _ => Some t | _, _ => None end;
     resp_tool_calls := map sent_call (resp_tool_calls r); finish_reason := finish_reason r; input_tokens := input_tokens r;
     output_tokens := output_tokens r; resp_reasoning_signature := resp_reasoning_signature r; raw_response := raw_response r |}.

Section anthropic_stream.
Context (json_dumps : json -> string) (uuid : nat -> string).

Definition served_frames (r : NormalizedResponse) (model : string) (n : nat) : res dyn_error (list string) :=
  out_res ((j ← ir_to_anthropic_response uuid r model; emit_synthetic_anthropic_stream json_dumps j) tt n).

Lemma emit_blocks_app {S} idx l1 l2 f1 f2 (s : S) n : emit_blocks json_dumps idx l1 s n = (Ok f1, s, n) ->
  emit_blocks json_dumps (idx + Z.of_nat (length l1)) l2 s n = (Ok f2, s, n) -> emit_blocks json_dumps idx (l1 ++ l2) s n = (Ok (f1 ++ f2), s, n).
Proof.
  revert idx f1. induction l1 as [|b l1 IH]; intros idx f1 H1 H2; cbn in *.
  - injection H1 as <-. by rewrite Z.add_0_r in H2.
  - apply bind_inv in H1 as (f & s1 & n1 & Hb & H1). apply bind_inv in H1 as (rest & s2 & n2 & Hl & [= <- -> ->]).
    assert (s1 = s /\ n1 = n) as [-> ->].
    { clear -Hb. unfold emit_block, py_get, py_get_or in Hb. destruct b; try done. repeat (apply bind_inv in Hb as (? & ? & ? & [= <- <- <-] & Hb)).
      repeat case_match; repeat (apply bind_inv in Hb as (? & ? & ? & [= <- <- <-] & Hb)); by injection Hb. }
    erewrite bind_ok by exact Hb. cbv beta. erewrite bind_ok by (eapply IH; [exact Hl | by replace (idx + 1 + Z.of_nat (length l1))%Z with (idx + Z.pos (Pos.of_succ_nat (length l1)))%Z by lia]).
    by rewrite app_assoc.
Qed.

Lemma emit_calls {S} idx tcs (s : S) n :
  emit_blocks json_dumps idx (map tool_use_block tcs) s n = (Ok (tools_frames json_dumps idx (map sent_call tcs)), s, n).
Proof.
  revert idx. induction tcs as [|tc tcs IH]; intros idx; [done|]. cbn [map emit_blocks tools_frames].
  erewrite bind_ok by reflexivity. cbv beta. erewrite bind_ok by apply IH. reflexivity.
Qed.
Lemma answer_calls {S} tcs (s : S) n : Forall (fun tc => truthy (tc_id tc) = true) tcs ->
  map_m (answer_call uuid) tcs s n = (Ok (map tool_use_block tcs), s, n).
Proof.
  intros H. induction H as [|tc tcs Htc _ IH]; [done|]. cbn [map_m map].
  assert (answer_call uuid tc s n = (Ok (tool_use_block tc), s, n)) as Ha by (unfold answer_call; by rewrite Htc).
  erewrite bind_ok by exact Ha. cbv beta. by erewrite bind_ok by exact IH.
Qed.

Lemma served_is_synthesized r model n : Forall (fun tc => truthy (tc_id tc) = true) (resp_tool_calls r) ->
  served_frames r model n = Ok (synthesize_anthropic_sse json_dumps (sent r) model).
Proof.
  intros Hids. unfold served_frames, ir_to_anthropic_response. erewrite bind_ok; [|erewrite bind_ok by exact (answer_calls _ _ _ Hids); reflexivity].
  cbv beta. unfold emit_synthetic_anthropic_stream. do 6 (erewrite bind_ok by reflexivity; cbv beta).
  unfold synthesize_anthropic_sse.
  set (th := thinking_block _ _). set (tx := text_block _).
  destruct (thinking_frames json_dumps 0 (sent r)) as [fth i1] eqn:Eth. destruct (text_frames json_dumps i1 (sent r)) as [ftx i2] eqn:Etx.
  assert (emit_blocks json_dumps 0 th tt n = (Ok fth, tt, n) /\ i1 = Z.of_nat (length th)) as [Hth ->].
  { revert Eth. subst th. unfold thinking_frames, thinking_block, sent. cbn. unfold present.
    destruct (resp_reasoning_content r) as [[|a x]|], (resp_reasoning_signature r) as [[|b y]|]; intros [= <- <-]; by split. }
  assert (emit_blocks json_dumps (Z.of_nat (length th)) tx tt n = (Ok ftx, tt, n) /\ i2 = (Z.of_nat (length th) + Z.of_nat (length tx))%Z) as [Htx ->].
  { revert Etx. subst tx. unfold text_frames, text_block, sent. cbn. unfold present.
    destruct (resp_content r) as [[|a x]|]; intros [= <- <-]; cbn; (split; [done|lia]). }
  erewrite bind_ok; [|apply (emit_blocks_app 0 th); [exact Hth|]; apply (emit_blocks_app _ tx); [exact Htx | apply emit_calls]].
  cbv beta. do 2 (erewrite bind_ok by reflexivity; cbv beta). cbn. by rewrite <- !app_assoc.
Qed.
End anthropic_stream.

(** ** Claims *)

Definition object_arguments (tc : NormalizedToolCall) : Prop := exists fs, tc_arguments tc = JObj fs.

(** C17: The stream served to an Anthropic client is the reference synthesis of
    what its protocol carries of the answer, and a client that parses it, however
    the bytes are cut, recovers exactly that: the text, the reasoning with its
    signature, and every tool call in order with its identifier, name and
    arguments. *)
Theorem served_stream_roundtrip dumps loads `{!JsonCodec dumps loads} uuid r model n chunks :
  Forall (fun tc => truthy (tc_id tc) = true) (resp_tool_calls r) -> Forall object_arguments (resp_tool_calls r) ->
  response_ok (sent r) model = true ->
  served_frames dumps uuid r model n = Ok (synthesize_anthropic_sse dumps (sent r) model) /\
  (join "" chunks = join "" (synthesize_anthropic_sse dumps (sent r) model) ->
   exists a, process_events (feed_all loads chunks new_parser).1 new_assembler 0%nat = (Ok tt, a, 0%nat) /\
     text_content a = default "" (resp_content r) /\
     (asm_reasoning_content a, asm_reasoning_signature a) =
       match present (resp_reasoning_content r), present (resp_reasoning_signature r) with
       | Some th, Some sg => (th, JStr sg) | _, _ => ("", JNull) end /\
     assembled_tool_calls loads a = Ok (map expected_call (resp_tool_calls r))).
Proof.
  intros Hids Hargs Hok. split; [by apply served_is_synthesized|]. intros E. rewrite feed_all_events, E.
  destruct (synthesize_conveys dumps loads (sent r) model Hok) as (fs & -> & Hfs & Hrun).
  exists (answered dumps (sent r)). rewrite (run_frames loads dumps fs Hfs). split_and!; [by apply Hrun | done | |].
  - cbn. unfold present. destruct (resp_reasoning_content r) as [[|a x]|], (resp_reasoning_signature r) as [[|b y]|]; done.
  - transitivity (Ok (E := dyn_error) (map expected_call (map sent_call (resp_tool_calls r)))).
    + eapply (assembled_slots dumps loads); [| |reflexivity].
      * unfold response_ok in Hok. rewrite !andb_true_iff in Hok. by destruct Hok.
      * cbn. rewrite Forall_map. eapply Forall_impl; [exact Hargs|]. intros tc Ha. split; [done | by left].
    + by rewrite map_map.
Qed.

(** A signed thought, a text and two calls, read back from single bytes. *)
Definition two_calls : NormalizedResponse :=
  {| response_id := "r1"; resp_model := "m"; resp_content := Some "h"; resp_reasoning_content := Some "why";
     resp_reasoning_signature := Some "sig";
     resp_tool_calls := [{| tc_id := "c1"; tc_name := "ls"; tc_arguments := JObj [("a", JInt 1)]; raw_arguments := ""; tc_metadata := [] |};
                         {| tc_id := "c2"; tc_name := "rm"; tc_arguments := JObj [("b", JInt 2)]; raw_arguments := ""; tc_metadata := [] |}];
     finish_reason := "tool_calls"; input_tokens := 3; output_tokens := 4; raw_response := None |}.
Lemma served_stream_roundtrip_witness :
  served_frames demo_dumps py_str_nat two_calls "m" 0%nat = Ok (synthesize_anthropic_sse demo_dumps (sent two_calls) "m") /\
  exists a, process_events (feed_all loads (synthesize_anthropic_sse demo_dumps (sent two_calls) "m") new_parser).1 new_assembler 0%nat = (Ok tt, a, 0%nat) /\
    text_content a = "h" /\ assembled_tool_calls loads a = Ok (map expected_call (resp_tool_calls two_calls)).
Proof.
  destruct (served_stream_roundtrip demo_dumps loads py_str_nat two_calls "m" 0%nat (synthesize_anthropic_sse demo_dumps (sent two_calls) "m")) as [H1 H2].
  - repeat constructor.
  - repeat constructor; by eexists.
  - vm_compute. reflexivity.
  - split; [exact H1|]. destruct (H2 eq_refl) as (a & Hr & Ht & _ & Hc). exists a. split; [exact Hr|]. split; [exact Ht | exact Hc].
Defined.

(** The chunk a client of [/v1/chat/completions] is sent when it asked for a stream. *)
Definition openai_served (r : NormalizedResponse) : res dyn_error (list string) :=
  out_res (emit_synthetic_openai_stream demo_dumps 0 (ir_to_openai_response demo_dumps 0 r "m") (JStr "m") tt 0%nat).

(** The OpenAI stream is not a replay.  An answer with reasoning and two tool
    calls is sent without the reasoning and with calls that carry no index; the
    gateway's own parser reads one call, with the second one's identifier and name
    and the two argument texts run together, which is not JSON.  From the reference
    synthesis it reads both calls and the reasoning. *)
Theorem openai_stream_merges_calls :
  let read frames := let o := process_events (feed_all loads frames new_parser).1 new_assembler 0%nat in
    (asm_reasoning_content (out_st o), assembled_tool_calls loads (out_st o)) in
  (match openai_served two_calls with Ok frames => read frames | Raise e => ("", Raise e) end) =
    ("", Ok [JObj [("id", JStr "c2"); ("name", JStr "rm"); ("arguments", JObj [("_raw", JStr (demo_dumps (JObj [("a", JInt 1)]) ++ demo_dumps (JObj [("b", JInt 2)])))])]]) /\
  read (synthesize_openai_sse demo_dumps demo_dumps 0 two_calls "m") = ("why", Ok (map expected_call (resp_tool_calls two_calls))).
Proof. split; vm_compute; exact eq_refl. Qed.

End ProxyWireProps.
