(* ===== verification/Canary.v ===== *)
(** * Nightly canary

    [src/durallm/canary.py]: the probe that keeps the quirks ledger and the route
    pools up to date, and its schedule.  The state is the ledger file and the pool
    manager; what the network answers, the API keys and the time stamps are
    arguments.  A ledger or catalogue of another shape raises as in Python; what
    was done to the pools before stays done.  The local clock of
    [Europe/London] is a reading in seconds of naive local time, since Python
    subtracts two times of one zone without their offsets.  Log calls and the
    thread are left out: the loop is [scheduler_pass]. *)

From stdpp Require Import base tactics list strings.
From Stdlib Require Import QArith Qround Ascii Lqa.
From S2P Require Import Prelude PyText Utf8 Json PyDyn Pools.

(** ** The schedule *)

Definition DAY : Q := 86400.
(** [compute_seconds_until_next_1am_uk], at a local time. *)
Definition seconds_until_next_1am (now : Q) : Q :=
  let midnight := (inject_Z (Qfloor (now / DAY)) * DAY)%Q in
  let target_today := (midnight + 3600)%Q in
  let target := if target_today ⪯ now then (target_today + DAY)%Q else target_today in
  py_max 0 (target - now).

(** The inner loop of [_scheduler_loop]: the naps, until the time is up or a stop
    is seen before a nap ([stopped k] before the [k]-th). *)
Fixpoint naps (fuel : nat) (stopped : nat -> bool) (k : nat) (elapsed sleep_sec : Q) : list Q * bool :=
  match fuel with
  | O => ([], false)
  | S fuel' =>
      if (elapsed ≺ sleep_sec) && negb (stopped k) then
        let '(l, done) := naps fuel' stopped (S k) (elapsed + 10) sleep_sec in
        (py_min 10 (sleep_sec - elapsed) :: l, done)
      else ([], true)
  end.

(** [round(x, 1)], ties to even. *)
Definition py_round1 (q : Q) : Q :=
  let x := (q * 10)%Q in
  let f := Qfloor x in
  let d := (x - inject_Z f)%Q in
  let r := if d ≺ (1 # 2) then f else if (1 # 2) ≺ d then (f + 1)%Z else if Z.even f then f else (f + 1)%Z in
  (inject_Z r / 10)%Q.

(** ** The catalogue *)

Record free_model : Type := { fm_id : string; fm_name : json; fm_context : Z; fm_tools : bool }.

(** [float(j)] and [int(j)]; a text that is no number raises. *)
Definition float_of {S} (j : json) : M dyn_error S Q :=
  match j with
  | JInt z => mret (inject_Z z)
  | JFloat q => mret q
  | JBool b => mret (if b then 1 else 0)%Q
  | JStr s => match py_float s with Some q => mret q | None => raise Untyped end
  | _ => raise TypeError
  end.
Definition int_of {S} (j : json) : M dyn_error S Z :=
  match j with
  | JInt z => mret z
  | JFloat q => mret (if 0 ⪯ q then Qfloor q else Qceiling q)
  | JBool b => mret (if b then 1 else 0)%Z
  | JStr s => match py_int s with Some z => mret z | None => raise Untyped end
  | _ => raise TypeError
  end.

(** One entry of the catalogue: the free model it describes, if any. *)
Definition catalog_item {S} (item : json) : M dyn_error S (option free_model) :=
  mid ← py_get_or "id" (JStr "") item;
  pricing ← py_get_or "pricing" (JObj []) item;
  id ← (match mid with JStr s => mret s | _ => raise AttributeError end);
  free ← (if ends_with ":free" id then mret true else
          p ← py_get_or "prompt" (JInt 1) pricing; pf ← float_of (jor p (JInt 1));
          if Qeqb pf 0 then c ← py_get_or "completion" (JInt 1) pricing; cf ← float_of (jor c (JInt 1)); mret (Qeqb cf 0)
          else mret false);
  if free : bool then
    params ← py_get_or "supported_parameters" (JArr []) item;
    name ← py_get_or "name" mid item;
    ctx ← py_get_or "context_length" (JInt 0) item;
    window ← int_of (jor ctx (JInt 0));
    tools ← (if jtruthy params then py_in "tools" params else mret true);
    mret (Some {| fm_id := id; fm_name := name; fm_context := window; fm_tools := tools |})
  else mret None.
(** The loop; an exception ends it and keeps what was found. *)
Fixpoint catalog_items (items : list json) : list free_model :=
  match items with
  | [] => []
  | i :: items' =>
      match out_res (catalog_item i tt 0%nat) with
      | Ok (Some m) => m :: catalog_items items'
      | Ok None => catalog_items items'
      | Raise _ => []
      end
  end.
(** [fetch_openrouter_free_models]; [None] when the request or its JSON failed. *)
Definition fetch_openrouter_free_models (catalog : option json) : list free_model :=
  match catalog with
  | None => []
  | Some c =>
      match out_res ((d ← py_get_or "data" (JArr []) c; py_iter d) tt 0%nat) with
      | Ok items => catalog_items items
      | Raise _ => []
      end
  end.

(** ** Probes *)

Inductive probe_answer : Type :=
| ProbeOk (status : Z) (limit_tokens limit_requests : option string)
| ProbeHTTPError (code : Z) (body : string)
| ProbeFailed (message : string).

Definition jopt_str (o : option string) : json := match o with Some s => JStr s | None => JNull end.
(** [ping_endpoint]: what is reported of an answer that took [latency_ms]. *)
Definition ping_endpoint (api_key : string) (latency_ms : Q) (a : probe_answer) : odict string json :=
  if negb (truthy api_key) then [("status", JStr "skipped"); ("reason", JStr "no_api_key_configured")] else
  match a with
  | ProbeOk status tokens reqs =>
      [("status", JStr "active"); ("status_code", JInt status); ("latency_ms", JFloat (py_round1 latency_ms));
       ("rate_limit_tokens", jopt_str tokens); ("rate_limit_requests", jopt_str reqs)]
  | ProbeHTTPError code body =>
      if (code =? 404)%Z || (code =? 410)%Z || contains "unavailable for free" body then
        [("status", JStr "deprecated"); ("status_code", JInt code); ("message", JStr (utake 160 body))]
      else if (code =? 429)%Z then
        if contains "free-models-per-day" body then
          [("status", JStr "quota_exhausted"); ("status_code", JInt 429); ("message", JStr "free-models-per-day")]
        else [("status", JStr "rate_limited"); ("status_code", JInt 429); ("latency_ms", JFloat (py_round1 latency_ms))]
      else [("status", JStr "error"); ("status_code", JInt code); ("message", JStr (utake 160 body))]
  | ProbeFailed message => [("status", JStr "unreachable"); ("error", JStr (utake 160 message))]
  end.

(** The sample routes: provider, model and the name of the key. *)
Definition PROBED_ROUTES : list (string * string * string) :=
  [("cerebras", "qwen-3.8-27b", "CEREBRAS_API_KEY"); ("gemini", "gemini-2.5-flash", "GEMINI_API_KEY");
   ("groq", "qwen/qwen3.6-27b", "GROQ_API_KEY"); ("openrouter", "openrouter/free", "OPENROUTER_API_KEY");
   ("nvidia", "meta/llama-3.2-11b-vision-instruct", "NVIDIA_API_KEY")].

(** ** The ledger *)

Inductive ledger_file : Type := FileMissing | FileUnreadable | FileJson (j : json).
Definition load_ledger (f : ledger_file) : json :=
  match f with
  | FileMissing =>
      JObj [("version", JStr "1.0.0"); ("last_updated_utc", JNull);
            ("scheduler", JObj [("target_time_local", JStr "01:00"); ("timezone", JStr "Europe/London")]); ("providers", JObj [])]
  | FileUnreadable => JObj [("version", JStr "1.0.0"); ("last_updated_utc", JNull); ("providers", JObj [])]
  | FileJson j => j
  end.

Record CanaryWorld : Type := { cw_file : ledger_file; cw_pools : IsolatedPoolManager }.
Local Abbreviation C := (M dyn_error CanaryWorld).
Definition on_canary_pools {B} (m : M Empty_set IsolatedPoolManager B) : C B := fun w n =>
  match m (cw_pools w) n with
  | (Ok b, p, n') => (Ok b, {| cw_file := cw_file w; cw_pools := p |}, n')
  | (Raise e, _, _) => match e with end
  end.
Definition save_ledger (j : json) : C unit := modify (fun w => {| cw_file := FileJson j; cw_pools := cw_pools w |}).

(** The fields of a value that must be a dict. *)
Definition as_dict (j : json) : C (odict string json) := match j with JObj fs => mret fs | _ => raise AttributeError end.
(** [fs.setdefault(k, d)], read as a dict. *)
Definition sub_dict (k : string) (d : odict string json) (fs : odict string json) : C (odict string json) :=
  as_dict (default (JObj d) (od_get k fs)).

Section probe.
Context (update_pools : bool) (now_iso : string).

(** [d.setdefault("quirks", []).append(note)] *)
Definition add_quirk (note : string) (d : odict string json) : C (odict string json) :=
  match default (JArr []) (od_get "quirks" d) with
  | JArr l => mret (od_set "quirks" (JArr (l ++ [JStr note])) d)
  | _ => raise AttributeError
  end.

(** One model of the ledger against the live catalogue. *)
Definition retire_model (active_ids : list string) (kv : string * json) : C (string * json) :=
  let '(mid, mdata) := kv in
  if ends_with ":free" mid && negb (existsb (String.eqb mid) active_ids) then
    d ← as_dict mdata;
    if jeqs "active" (default JNull (od_get "status" d)) then
      d' ← add_quirk "Removed from live OpenRouter free catalog"
             (od_set "last_verified_utc" (JStr now_iso) (od_set "status" (JStr "deprecated") d));
      when update_pools (on_canary_pools (mark_deprecated "coding" mid ;; mark_deprecated "general_agent" mid)) ;;
      mret (mid, JObj d')
    else mret kv
  else mret kv.
Definition retire_models (active_ids : list string) (models : odict string json) : C (odict string json) :=
  match active_ids with [] => mret models | _ => map_m (retire_model active_ids) models end.

(** [a or b] on integers *)
Definition zor (a b : Z) : Z := if (a =? 0)%Z then b else a.
Definition canary_pool (mid : string) : string :=
  if existsb (fun k => contains k (py_lower mid)) ["code"; "coder"; "devstral"; "codestral"] then "coding" else "general_agent".
Definition discovered_entry (m : free_model) : json :=
  JObj [("pool", JStr (canary_pool (fm_id m))); ("context_window", JInt (zor (fm_context m) 65536));
        ("safe_input_tokens", JInt (Z.min 32000 (zor (fm_context m) 32000))); ("max_output_tokens", JInt 8192);
        ("supports_tools", JBool (fm_tools m)); ("supports_streaming", JBool true); ("status", JStr "active");
        ("last_verified_utc", JStr now_iso); ("quirks", JArr [JStr "Discovered via live OpenRouter aggregator catalog"])].
Definition discovered_route (m : free_model) : RouteDefinition :=
  {| rt_id := ("openrouter-canary-" ++ slash_to_dash (fm_id m))%string; rt_provider := "openrouter"; rt_model := fm_id m;
     rt_pool := canary_pool (fm_id m); rt_base_url := "https://openrouter.ai/api/v1"; rt_api_format := "openai";
     rt_env_key := Some "OPENROUTER_API_KEY"; rt_env_keys := []; rt_context_length := zor (fm_context m) 65536;
     rt_max_output_tokens := 8192; rt_headers := []; rt_is_discovered := true |}.
Fixpoint discover_models (ms : list free_model) (models : odict string json) : C (odict string json) :=
  match ms with
  | [] => mret models
  | m :: ms' =>
      if od_mem (fm_id m) models then discover_models ms' models
      else
        when update_pools (on_canary_pools (add_discovered_route (canary_pool (fm_id m)) (discovered_route m))) ;;
        discover_models ms' (od_set (fm_id m) (discovered_entry m) models)
  end.

(** What a probe says of the model's entry. *)
Definition probed_entry (model : string) (res d : odict string json) : C (odict string json) :=
  let d := od_set "last_verified_utc" (JStr now_iso) d in
  let status := default JNull (od_get "status" res) in
  if jeqs "active" status || jeqs "rate_limited" status then
    let d := od_set "status" (JStr "active") d in
    mret (match od_get "latency_ms" res with Some l => od_set "last_probe_latency_ms" l d | None => d end)
  else if jeqs "deprecated" status then
    when update_pools (on_canary_pools (mark_deprecated "coding" model)) ;;
    mret (od_set "status" (JStr "deprecated") d)
  else mret d.
(** The entry is reached through dicts that may be missing. *)
Definition probe_ledger (prov model : string) (res : odict string json) (ledger : odict string json) : C (odict string json) :=
  providers ← sub_dict "providers" [] ledger;
  prov_data ← sub_dict prov [] providers;
  models ← sub_dict "models" [] prov_data;
  match od_get model models with
  | Some entry =>
      if jtruthy entry then
        match entry with
        | JObj d =>
            d' ← probed_entry model res d;
            mret (od_set "providers" (JObj (od_set prov (JObj (od_set "models" (JObj (od_set model (JObj d') models)) prov_data)) providers)) ledger)
        | _ => raise TypeError
        end
      else mret ledger
  | None => mret ledger
  end.

(** The clock is read before the request and after an HTTP answer. *)
Definition probe_latency (mono : nat -> Q) (key : string) (a : probe_answer) : C Q :=
  if negb (truthy key) then mret 0%Q else
  t0 ← read_clock mono;
  match a with
  | ProbeFailed _ => mret 0%Q
  | _ => t1 ← read_clock mono; mret ((t1 - t0) * 1000)%Q
  end.
Definition probe_route (keys : odict string string) (mono : nat -> Q) (answer : string -> string -> probe_answer)
    (route : string * string * string) (acc : odict string json * odict string json) : C (odict string json * odict string json) :=
  let '(prov, model, env) := route in
  let '(ledger, results) := acc in
  let key := default "" (od_get env keys) in
  latency ← probe_latency mono key (answer prov model);
  let res := ping_endpoint key latency (answer prov model) in
  ledger' ← probe_ledger prov model res ledger;
  mret (ledger', od_set (prov ++ ":" ++ model)%string (JObj res) results).
Fixpoint probe_routes (keys : odict string string) (mono : nat -> Q) (answer : string -> string -> probe_answer)
    (routes : list (string * string * string)) (acc : odict string json * odict string json) : C (odict string json * odict string json) :=
  match routes with
  | [] => mret acc
  | r :: routes' => acc' ← probe_route keys mono answer r acc; probe_routes keys mono answer routes' acc'
  end.

Definition openrouter_default : odict string json :=
  [("name", JStr "OpenRouter"); ("base_url", JStr "https://openrouter.ai/api/v1"); ("auth_env", JStr "OPENROUTER_API_KEY"); ("models", JObj [])].

(** The catalogue's part of the ledger. *)
Definition update_catalog (found : list free_model) (ledger : odict string json) : C (odict string json) :=
  providers ← sub_dict "providers" [] ledger;
  prov ← sub_dict "openrouter" openrouter_default providers;
  models ← sub_dict "models" [] prov;
  models ← retire_models (map fm_id found) models;
  models ← discover_models found models;
  mret (od_set "providers" (JObj (od_set "openrouter" (JObj (od_set "models" (JObj models) prov)) providers)) ledger).

(** [run_probe] *)
Definition run_probe (keys : odict string string) (mono : nat -> Q) (catalog : option json) (answer : string -> string -> probe_answer) : C json :=
  w ← get;
  fs ← (match load_ledger (cw_file w) with JObj fs => mret fs | _ => raise TypeError end);
  let found := fetch_openrouter_free_models catalog in
  ledger ← update_catalog found (od_set "last_updated_utc" (JStr now_iso) fs);
  out ← probe_routes keys mono answer PROBED_ROUTES (ledger, []);
  save_ledger (JObj (fst out)) ;;
  mret (JObj [("status", JStr "success"); ("timestamp", JStr now_iso); ("discovered_free_models", JInt (Z.of_nat (length found)));
              ("probed_endpoints", JObj (snd out))]).
End probe.

(** ** The scheduler *)

Record NightlyCanaryScheduler : Type := {
  target_hour : Z;
  target_minute : Z;
  last_run_utc : json;
  last_run_result : json;
}.
(** [trigger_now]: what a run returned is remembered; one that raised is not. *)
Definition trigger_now (res : json) (s : NightlyCanaryScheduler) : NightlyCanaryScheduler :=
  {| target_hour := target_hour s; target_minute := target_minute s;
     last_run_utc := match res with JObj fs => default JNull (od_get "timestamp" fs) | _ => JNull end; last_run_result := res |}.
(** [status]: two readings of the local clock; [stamp] prints an instant. *)
Definition two_digits (z : Z) : string := let s := py_str_int z in if (String.length s <? 2)%nat then ("0" ++ s)%string else s.
Definition scheduler_status (alive : bool) (now now' : Q) (stamp : Q -> string) (s : NightlyCanaryScheduler) : json :=
  let sec_until := seconds_until_next_1am now in
  JObj [("running", JBool alive);
        ("target_schedule", JStr (two_digits (target_hour s) ++ ":" ++ two_digits (target_minute s) ++ " Europe/London"));
        ("seconds_until_next_run", JFloat (py_round1 sec_until)); ("next_scheduled_run_uk", JStr (stamp (now' + sec_until)));
        ("last_run_utc", last_run_utc s); ("last_run_summary", last_run_result s)].
(** One pass of [_scheduler_loop]: the sleep it plans, the naps, and whether a run follows. *)
Definition scheduler_pass (s : NightlyCanaryScheduler) (fuel : nat) (local_now : Q) (stopped : nat -> bool) : Q * list Q * bool :=
  let sleep_sec := seconds_until_next_1am local_now in
  let '(l, _) := naps fuel stopped 0 0 sleep_sec in
  (sleep_sec, l, negb (stopped (length l))).

(** The threads: the one the scheduler knows, those still alive, and the stop event. *)
Record SchedulerThreads : Type := {
  th_current : option nat;
  th_alive : list nat;
  th_stop : bool;
  th_next : nat;
}.
Definition new_threads : SchedulerThreads := {| th_current := None; th_alive := []; th_stop := false; th_next := 0 |}.
Definition th_running (s : SchedulerThreads) : bool :=
  match th_current s with Some i => existsb (Nat.eqb i) (th_alive s) | None => false end.
Definition start (s : SchedulerThreads) : SchedulerThreads :=
  if th_running s then s
  else {| th_current := Some (th_next s); th_alive := th_alive s ++ [th_next s]; th_stop := false; th_next := S (th_next s) |}.
Definition end_thread (i : nat) (s : SchedulerThreads) : SchedulerThreads :=
  {| th_current := th_current s; th_alive := filter (fun j => j <> i) (th_alive s); th_stop := th_stop s; th_next := th_next s |}.
(** A thread sees the event only between naps of up to ten seconds. *)
Definition wake (i : nat) (s : SchedulerThreads) : SchedulerThreads := if th_stop s then end_thread i s else s.
(** [stop] joins for two seconds: [woke] tells whether the thread woke up in that
    time.  Then the thread is forgotten. *)
Definition stop (woke : bool) (s : SchedulerThreads) : SchedulerThreads :=
  let s1 := {| th_current := th_current s; th_alive := th_alive s; th_stop := true; th_next := th_next s |} in
  let s2 := match th_current s with Some i => if woke then wake i s1 else s1 | None => s1 end in
  {| th_current := None; th_alive := th_alive s2; th_stop := th_stop s2; th_next := th_next s2 |}.

(** ** What the canary guarantees

    After a run that saw a catalogue, the ledger lists every free model of it and
    keeps none active that is gone; a failed fetch retires nothing.  The schedule
    never spins and always lands on one o'clock, whatever hour was configured. *)
Module CanaryProps.

(** ** The ledger after the catalogue *)

Section ledger.
Context (up : bool) (now_iso : string) (ids : list string).

Definition active (mdata : json) : bool :=
  match mdata with JObj d => jeqs "active" (default JNull (od_get "status" d)) | _ => false end.
(** Not active, unless it is in the catalogue or outside its scope. *)
Definition settled (kv : string * json) : Prop :=
  ends_with ":free" (fst kv) = true -> active (snd kv) = true -> fst kv ∈ ids.

Lemma retire_settles kv w n kv' w' n' : retire_model up now_iso ids kv w n = (Ok kv', w', n') -> fst kv' = fst kv /\ settled kv'.
Proof.
  destruct kv as [mid mdata]. unfold retire_model. destruct (ends_with ":free" mid && _) eqn:Ec.
  2:{ intros [= <- _ _]. split; [done|]. intros Hf _. cbn [fst] in Hf |- *. rewrite Hf in Ec. cbn [andb] in Ec. apply negb_false_iff, existsb_exists in Ec as (x & Hx & ->%String.eqb_eq).
      by apply list_elem_of_In. }
  intros H. apply bind_inv in H as (d & w1 & n1 & Hd & H). destruct mdata as [| | | | | |d0]; try done. injection Hd as <- <- <-.
  destruct (jeqs "active" _) eqn:Ea.
  - apply bind_inv in H as (d' & w2 & n2 & Hq & H). apply bind_inv in H as (? & w3 & n3 & _ & [= <- _ _]). split; [done|].
    intros _ Hact. cbn in Hact. exfalso. unfold add_quirk in Hq. destruct (default (JArr []) _); try done. injection Hq as <- _ _.
    rewrite !od_get_set_ne in Hact by done. by rewrite od_get_set_eq in Hact.
  - injection H as <- _ _. split; [done|]. intros _ Hact. cbn in Hact. congruence.
Qed.
Lemma retire_all models w n models' w' n' : retire_models up now_iso ids models w n = (Ok models', w', n') -> ids <> [] ->
  od_keys models' = od_keys models /\ Forall settled models'.
Proof.
  unfold retire_models. destruct ids as [|i ids'] eqn:Eids; [done|]. rewrite <- Eids in *. intros H _. revert w n models' w' n' H.
  induction models as [|kv models IH]; intros w n models' w' n' H; cbn [map_m] in H; [by injection H as <- _ _|].
  apply bind_inv in H as (kv' & w1 & n1 & H1 & H). apply bind_inv in H as (l & w2 & n2 & H2 & [= <- _ _]).
  apply retire_settles in H1 as [Hk Hs]. apply IH in H2 as [Hks Hss]. unfold od_keys in *. csimpl. rewrite Hk, Hks. split; [done | by constructor].
Qed.

Lemma discover_all ms models w n models' w' n' : discover_models up now_iso ms models w n = (Ok models', w', n') ->
  (forall m, m ∈ ms -> fm_id m ∈ ids) -> Forall settled models ->
  Forall settled models' /\ (forall k, k ∈ od_keys models -> k ∈ od_keys models') /\ (forall m, m ∈ ms -> fm_id m ∈ od_keys models').
Proof.
  revert models w n. induction ms as [|m ms IH]; intros models w n H Hin Hs; cbn [discover_models] in H.
  { injection H as <- _ _. split_and!; [done.. | by intros m ?%not_elem_of_nil]. }
  assert (forall m', m' ∈ ms -> fm_id m' ∈ ids) as Hin' by (intros; apply Hin; by right).
  destruct (od_mem (fm_id m) models) eqn:Em.
  - apply IH in H as (H1 & H2 & H3); [|done..]. split_and!; [done..|]. intros m' [->|Hm']%elem_of_cons; [|by apply H3].
    apply H2. unfold od_mem in Em. destruct (od_get (fm_id m) models) eqn:Eg; [|done]. apply dec_stable. intros Hn%od_get_None. congruence.
  - apply bind_inv in H as (? & w1 & n1 & _ & H). apply IH in H as (H1 & H2 & H3); [|done|].
    2:{ apply od_Forall_set; [|done]. intros _ _. apply Hin. by left. }
    assert (forall k, k ∈ od_keys (od_set (fm_id m) (discovered_entry now_iso m) models) -> k ∈ od_keys models') as H2' by done.
    split_and!; [done| |].
    + intros k Hk. apply H2. rewrite od_keys_set. case_decide; [done|]. apply elem_of_app. by left.
    + intros m' [->|Hm']%elem_of_cons; [|by apply H3]. apply H2. rewrite od_keys_set. case_decide; [done|]. apply elem_of_app. right. by left.
Qed.
End ledger.

(** ** The ledger after the probes *)

Definition dict_at (k : string) (j : json) : option json := match j with JObj fs => od_get k fs | _ => None end.
(** The OpenRouter models of a ledger. *)
Definition catalog_models (ledger : odict string json) : option (odict string json) :=
  match (od_get "providers" ledger ≫= dict_at "openrouter") ≫= dict_at "models" with Some (JObj m) => Some m | _ => None end.

Lemma sub_dict_inv k d fs w n x w' n' : sub_dict k d fs w n = (Ok x, w', n') -> default (JObj d) (od_get k fs) = JObj x /\ w' = w /\ n' = n.
Proof. unfold sub_dict, as_dict. destruct (default (JObj d) (od_get k fs)); try done. by intros [= <- <- <-]. Qed.

Lemma probe_keeps up now_iso prov model res ledger w n ledger' w' n' m :
  probe_ledger up now_iso prov model res ledger w n = (Ok ledger', w', n') -> (prov = "openrouter" -> ends_with ":free" model = false) ->
  catalog_models ledger = Some m -> exists m', catalog_models ledger' = Some m' /\ od_keys m' = od_keys m /\
    forall k, ends_with ":free" k = true -> od_get k m' = od_get k m.
Proof.
  intros H Hfree Hm. unfold probe_ledger in H. apply bind_inv in H as (ps & w1 & n1 & Hp & H). apply sub_dict_inv in Hp as (Hp & -> & ->).
  apply bind_inv in H as (p & w1 & n1 & Hq & H). apply sub_dict_inv in Hq as (Hq & -> & ->).
  apply bind_inv in H as (ms & w1 & n1 & Hr & H). apply sub_dict_inv in Hr as (Hr & -> & ->).
  destruct (od_get model ms) as [entry|] eqn:Em; [|injection H as <- _ _; by exists m]. destruct (jtruthy entry); [|injection H as <- _ _; by exists m].
  destruct entry as [| | | | | |d]; try done. apply bind_inv in H as (d' & w1 & n1 & _ & [= <- _ _]).
  unfold catalog_models in *. rewrite od_get_set_eq. cbn [mbind option_bind dict_at] in *.
  destruct (decide (prov = "openrouter")) as [->|Hne].
  - rewrite od_get_set_eq. cbn [mbind option_bind dict_at]. rewrite od_get_set_eq. eexists. split; [reflexivity|].
    assert (ms = m) as ->.
    { destruct (od_get "providers" ledger) as [jp|]; [|done]. cbn in Hp, Hm. subst jp. cbn in Hm.
      destruct (od_get "openrouter" ps) as [jq|]; [|done]. cbn in Hq, Hm. subst jq. cbn in Hm.
      destruct (od_get "models" p) as [jr|]; [|done]. cbn in Hr. subst jr. congruence. }
    split; [by eapply od_keys_set_in|]. intros k Hk. rewrite od_get_set_ne; [done|]. intros ->. by rewrite Hfree in Hk.
  - rewrite od_get_set_ne by done. destruct (od_get "providers" ledger) as [jp|]; [|done]. cbn in Hp. subst jp. by exists m.
Qed.

Lemma probes_keep up now_iso keys mono answer routes ledger results w n out w' n' m :
  Forall (fun r => r.1.1 = "openrouter" -> ends_with ":free" r.1.2 = false) routes ->
  probe_routes up now_iso keys mono answer routes (ledger, results) w n = (Ok out, w', n') ->
  catalog_models ledger = Some m -> exists m', catalog_models (fst out) = Some m' /\ od_keys m' = od_keys m /\
    forall k, ends_with ":free" k = true -> od_get k m' = od_get k m.
Proof.
  intros Hr. revert ledger results w n m. induction Hr as [|[[prov model] env] routes Hpm _ IH]; intros ledger results w n m H Hm; cbn [probe_routes] in H.
  { injection H as <- _ _. by exists m. }
  apply bind_inv in H as ([ledger1 results1] & w1 & n1 & H1 & H). unfold probe_route in H1.
  apply bind_inv in H1 as (lat & w2 & n2 & _ & H1). cbv zeta in H1. apply bind_inv in H1 as (ledger2 & w3 & n3 & H1 & [= <- <- _ _]).
  eapply probe_keeps in H1 as (m1 & Hm1 & Hk1 & Hg1); [|exact Hpm | exact Hm].
  eapply IH in H as (m2 & Hm2 & Hk2 & Hg2); [|exact Hm1]. exists m2. split_and!; [done | congruence|].
  intros k Hk. by rewrite Hg2, Hg1.
Qed.

Lemma catalog_after up now_iso found ledger w n ledger' w' n' : update_catalog up now_iso found ledger w n = (Ok ledger', w', n') ->
  exists m', catalog_models ledger' = Some m' /\ (found = [] -> m' = default [] (catalog_models ledger)) /\
  (found <> [] -> Forall (settled (map fm_id found)) m' /\ (forall f, f ∈ found -> fm_id f ∈ od_keys m') /\
     forall m, catalog_models ledger = Some m -> forall k, k ∈ od_keys m -> k ∈ od_keys m').
Proof.
  intros H. unfold update_catalog in H. apply bind_inv in H as (ps & w1 & n1 & Hp & H). apply sub_dict_inv in Hp as (Hp & -> & ->).
  apply bind_inv in H as (p & w1 & n1 & Hq & H). apply sub_dict_inv in Hq as (Hq & -> & ->).
  apply bind_inv in H as (ms & w1 & n1 & Hr & H). apply sub_dict_inv in Hr as (Hr & -> & ->).
  apply bind_inv in H as (m1 & w1 & n1 & H1 & H). apply bind_inv in H as (m2 & w2 & n2 & H2 & [= <- _ _]).
  assert (default [] (catalog_models ledger) = ms) as Hms.
  { unfold catalog_models. destruct (od_get "providers" ledger) as [jp|]; cbn in Hp; [subst jp | injection Hp as <-]; cbn.
    - destruct (od_get "openrouter" ps) as [jq|]; cbn in Hq; [subst jq | injection Hq as <-; cbn in Hr; by injection Hr as <-]. cbn.
      destruct (od_get "models" p) as [jr|]; cbn in Hr; [by subst jr | by injection Hr as <-].
    - cbn in Hq. injection Hq as <-. cbn in Hr. by injection Hr as <-. }
  exists m2. unfold catalog_models at 1. rewrite od_get_set_eq. cbn [mbind option_bind dict_at]. rewrite od_get_set_eq. cbn [mbind option_bind dict_at].
  rewrite od_get_set_eq. split; [done|]. split.
  - intros ->. cbn in H1, H2. injection H1 as <- _ _. injection H2 as <- _ _. done.
  - intros Hf. destruct (retire_all up now_iso (map fm_id found) _ _ _ _ _ _ H1) as [Hk1 Hs1]; [by destruct found|].
    eapply (discover_all up now_iso (map fm_id found)) in H2 as (Hs2 & Hk2 & Hf2); [| |exact Hs1].
    2:{ intros f Hin. apply list_elem_of_In, in_map, list_elem_of_In, Hin. }
    split_and!; [done..|]. intros m Hm k Hk. apply Hk2. rewrite Hk1. rewrite Hm in Hms. cbn in Hms. by rewrite <- Hms.
Qed.

(** ** Claims *)

(** The quirks ledger follows the live catalogue.  When a run ends and the fetch
    gave free models, the ledger lists all of them, lists every model it listed
    before, and has no free model marked active that the catalogue no longer has;
    when the fetch gave nothing, no free model's entry has changed. *)
Theorem canary_ledger_current up now_iso keys mono catalog answer w n res w' n' fs :
  load_ledger (cw_file w) = JObj fs -> run_probe up now_iso keys mono catalog answer w n = (Ok res, w', n') ->
  let found := fetch_openrouter_free_models catalog in
  exists fs' models, cw_file w' = FileJson (JObj fs') /\ catalog_models fs' = Some models /\
  (found <> [] ->
    (forall f, f ∈ found -> fm_id f ∈ od_keys models) /\
    (forall m k, catalog_models fs = Some m -> k ∈ od_keys m -> k ∈ od_keys models) /\
    forall k d, od_get k models = Some d -> ends_with ":free" k = true -> active d = true -> k ∈ map fm_id found) /\
  (found = [] -> forall k, ends_with ":free" k = true -> od_get k models = od_get k (default [] (catalog_models fs))).
Proof.
  intros Hfs H found. unfold run_probe in H. apply bind_inv in H as (? & ? & ? & [= <- <- <-] & H). rewrite Hfs in H.
  apply bind_inv in H as (? & ? & ? & [= <- <- <-] & H). cbv zeta in H. fold found in H.
  apply bind_inv in H as (ledger & w1 & n1 & Hc & H). apply bind_inv in H as ([fs' results] & w2 & n2 & Hp & H).
  apply bind_inv in H as (? & w3 & n3 & [= _ <- _] & [= _ <- _]).
  assert (catalog_models (od_set "last_updated_utc" (JStr now_iso) fs) = catalog_models fs) as Hsame.
  { unfold catalog_models. by rewrite od_get_set_ne. }
  apply catalog_after in Hc as (m1 & Hm1 & Hnone & Hsome). rewrite Hsame in Hnone, Hsome.
  eapply probes_keep in Hp as (m2 & Hm2 & Hk2 & Hg2); [| |exact Hm1]. 2:{ repeat constructor; try done; by intros _. }
  exists fs', m2. split_and!; [done..| |].
  - intros Hf. destruct (Hsome Hf) as (Hset & Hall & Hold). split_and!.
    + intros f Hin. rewrite Hk2. by apply Hall.
    + intros m k Hm Hk. rewrite Hk2. by eapply Hold.
    + intros k d Hd Hfree Hact. rewrite Hg2 in Hd by done. apply od_get_In in Hd. rewrite Forall_forall in Hset. by apply (Hset (k, d)).
  - intros Hf k Hk. rewrite Hg2 by done. by rewrite (Hnone Hf).
Qed.

(** The ledger of a gateway that knew two free models, one of which is gone. *)
Definition old_entry : json := JObj [("status", JStr "active")].
Definition canary_before : CanaryWorld :=
  {| cw_file := FileJson (JObj [("providers", JObj [("openrouter", JObj [("models", JObj [("a/x:free", old_entry); ("b/y:free", old_entry)])])])]);
     cw_pools := new_pool_manager None [] |}.
Definition canary_catalog : option json :=
  Some (JObj [("data", JArr [JObj [("id", JStr "b/y:free")]; JObj [("id", JStr "c/coder"); ("pricing", JObj [("prompt", JStr "0"); ("completion", JStr "0")])]])]).
Definition canary_run := run_probe true "now" [] (fun n => Qnat n) canary_catalog (fun _ _ => ProbeFailed "") canary_before 0%nat.
Lemma canary_ledger_current_witness :
  match canary_run with
  | (Ok _, w', _) => match cw_file w' with FileJson (JObj fs') => od_keys (default [] (catalog_models fs')) = ["a/x:free"; "b/y:free"; "c/coder"] | _ => False end /\
      exists fs' models, cw_file w' = FileJson (JObj fs') /\ catalog_models fs' = Some models /\
        forall k d, od_get k models = Some d -> ends_with ":free" k = true -> active d = true -> k ∈ ["b/y:free"; "c/coder"]
  | _ => False
  end.
Proof.
  assert (match canary_run with
    | (Ok _, w', _) => match cw_file w' with FileJson (JObj fs') => od_keys (default [] (catalog_models fs')) = ["a/x:free"; "b/y:free"; "c/coder"] | _ => False end
    | _ => False end) as Hc by (vm_compute; exact eq_refl).
  destruct canary_run as [[[res|x] w'] n'] eqn:E; [|done]. split; [exact Hc|].
  destruct (canary_ledger_current true "now" [] (fun n => Qnat n) canary_catalog (fun _ _ => ProbeFailed "") canary_before 0%nat res w' n' _ eq_refl E) as (fs' & models & Hf & Hm & Hsome & _).
  exists fs', models. split_and!; [exact Hf | exact Hm|]. destruct Hsome as (_ & _ & Ha); [vm_compute; discriminate|]. exact Ha.
Defined.

(** ** The schedule *)

Definition Qsum (l : list Q) : Q := foldr Qplus 0 l.
Lemma naps_step fuel k e t : naps (S fuel) (fun _ => false) k e t =
  if e ≺ t then let '(l, b) := naps fuel (fun _ => false) (S k) (e + 10) t in (py_min 10 (t - e) :: l, b) else ([], true).
Proof. cbn [naps negb]. by rewrite andb_true_r. Qed.
Lemma naps_sum fuel k e t : (t - e <= 10 * inject_Z (Z.of_nat fuel))%Q ->
  let '(l, b) := naps (S fuel) (fun _ => false) k e t in b = true /\ (Qsum l == if e ≺ t then t - e else 0)%Q.
Proof.
  revert k e. induction fuel as [|fuel IH]; intros k e Hf; rewrite naps_step; destruct (e ≺ t) eqn:Ee; try done; apply Qltb_true in Ee.
  - exfalso. change (inject_Z (Z.of_nat 0)) with 0%Q in Hf. lra.
  - specialize (IH (S k) (e + 10)%Q). rewrite Nat2Z.inj_succ, <- Z.add_1_r, inject_Z_plus in Hf.
    change (inject_Z 1) with 1%Q in Hf. specialize (IH ltac:(lra)).
    destruct (naps (S fuel) _ (S k) (e + 10)%Q t) as [l b]. destruct IH as [-> Hs]. split; [done|]. cbn [Qsum foldr]. fold (Qsum l). rewrite Hs.
    unfold py_min. destruct ((e + 10) ≺ t) eqn:E1; destruct ((t - e) ≺ 10) eqn:E2; rewrite ?Qltb_true, ?Qltb_false in *; lra.
Qed.

Lemma seconds_spec now : let t := seconds_until_next_1am now in
  (0 < t <= 86400)%Q /\ exists d : Z, (now + t == inject_Z d * 86400 + 3600)%Q.
Proof.
  unfold seconds_until_next_1am, DAY. set (d := Qfloor (now / 86400)).
  assert (inject_Z d * 86400 <= now /\ now < (inject_Z d + 1) * 86400)%Q as [H1 H2].
  { pose proof (Qfloor_le (now / 86400)) as Hl. pose proof (Qlt_floor (now / 86400)) as Hu. fold d in Hl, Hu. rewrite inject_Z_plus in Hu.
    change (inject_Z 1) with 1%Q in Hu. assert (now == (now / 86400) * 86400)%Q as He by (field; done).
    split; [rewrite He at 1; apply Qmult_le_compat_r; [done|lra] | rewrite He at 1; apply Qmult_lt_compat_r; [lra|done]]. }
  cbv zeta. unfold py_max. destruct ((inject_Z d * 86400 + 3600) ⪯ now) eqn:E; rewrite ?Qle_bool_true in E.
  - replace (0 ≺ _) with true by (symmetry; apply Qltb_true; lra). split; [lra|]. exists (d + 1)%Z. rewrite inject_Z_plus. change (inject_Z 1) with 1%Q. lra.
  - assert (now < inject_Z d * 86400 + 3600)%Q by (apply Qnot_le_lt; rewrite <- Qle_bool_true; congruence).
    replace (0 ≺ _) with true by (symmetry; apply Qltb_true; lra). split; [lra|]. exists d. lra.
Qed.

(** The nightly schedule.  Whatever the local time, the sleep is positive and at
    most a day, and ends at one o'clock; undisturbed, the naps end, after at most
    8640 of them, having slept exactly that long; and the hour and minute a
    scheduler was configured with change nothing. *)
Theorem canary_schedule s s' now stopped fuel : let t := seconds_until_next_1am now in
  (0 < t <= 86400)%Q /\ (exists d : Z, now + t == inject_Z d * 86400 + 3600)%Q /\
  (let '(l, done) := naps 8641 (fun _ => false) 0 0 t in done = true /\ (Qsum l == t)%Q) /\
  scheduler_pass s fuel now stopped = scheduler_pass s' fuel now stopped.
Proof.
  destruct (seconds_spec now) as [Hb Hd]. split_and!; [apply Hb..| exact Hd | | done].
  pose proof (naps_sum 8640 0 0 (seconds_until_next_1am now)) as Hn. destruct (naps _ _ _ _ _) as [l done].
  destruct Hn as [Hdone Hs]; [change (inject_Z (Z.of_nat 8640)) with 8640%Q; lra|]. split; [done|]. rewrite Hs.
  replace (0 ≺ _) with true by (symmetry; apply Qltb_true, Hb). lra.
Qed.

(** A price of zero that is a number is not free.  [pricing.get(k, 1) or 1] turns
    the number zero into one, so such a model is left out although the same prices
    written as texts list it. *)
Theorem numeric_zero_price_not_free :
  let item zero := JObj [("id", JStr "m"); ("pricing", JObj [("prompt", zero); ("completion", zero)])] in
  fetch_openrouter_free_models (Some (JObj [("data", JArr [item (JInt 0); item (JFloat 0)])])) = [] /\
  map fm_id (fetch_openrouter_free_models (Some (JObj [("data", JArr [item (JStr "0")])]))) = ["m"].
Proof. split; vm_compute; exact eq_refl. Qed.

(** Restarting the scheduler can leave two of them running.  [stop] waits two
    seconds for a thread that may nap for ten and then forgets it; a [start] that
    follows clears the stop event before the thread has seen it, so the old thread
    goes on beside the new one, for as long as nobody stops again. *)
Theorem restart_doubles_scheduler :
  let s := start (stop false (start new_threads)) in
  th_running s = true /\ length (th_alive s) = 2%nat /\ forall naps, foldl (fun s i => wake i s) s naps = s.
Proof. split_and!; [done..|]. intros l. induction l as [|i l IH]; [done|]. cbn [foldl]. exact IH. Qed.

End CanaryProps.
