(* ===== verification/Discovery.v ===== *)
(** * Model discovery

    [src/durallm/discovery.py]: the free models of a live catalogue, the catalogue
    file with its deprecations, and their registration in the route pools.  The
    network's answer, the time stamp and the file are arguments or state; an
    ill-typed catalogue raises as in Python.  Identifiers that are not texts are
    outside the typed catalogue.  [main], which prints, is left out. *)

From stdpp Require Import base tactics list strings sorting.
From Stdlib Require Import QArith Qround Ascii.
From S2P Require Import Prelude PyText Json PyDyn Pools Canary.

Definition MIN_CONTEXT_LENGTH : Z := 16384.

(** ** Filters *)

(** [float(pricing.get(k, "0") or 0) == 0] *)
Definition costs_nothing (fs : odict string json) (k : string) : bool :=
  match out_res (float_of (jor (default (JStr "0") (od_get k fs)) (JInt 0)) tt 0%nat) with Ok q => Qeqb q 0 | Raise _ => false end.
Definition is_model_free (pricing : json) : bool :=
  match pricing with JObj fs => forallb (costs_nothing fs) ["prompt"; "completion"; "request"; "image"] | _ => false end.

Definition supports_tool_calling (item : json) : bool :=
  match item with
  | JObj fs => match od_get "supported_parameters" fs with
               | Some (JArr l) => existsb (jeqs "tools") l
               | _ => true
               end
  | _ => true
  end.

Definition CODING_KEYWORDS : list string := ["coder"; "code"; "devstral"; "codestral"; "deepseek-coder"; "starcoder"; "wizardcoder"].
Definition is_coding_model (py_repr : json -> string) (model_id name : json) : bool :=
  let combined := py_lower (py_str py_repr model_id ++ " " ++ py_str py_repr name)%string in
  existsb (fun k => contains k combined) CODING_KEYWORDS.

(** ** The catalogue *)

(** [fetch_openrouter_catalog]; [None] when the request or its JSON failed. *)
Definition fetch_openrouter_catalog (answer : option json) : json :=
  match answer with Some (JObj fs) => default (JArr []) (od_get "data" fs) | _ => JArr [] end.

Definition no_catalog : json := JObj [("free_models", JArr []); ("deprecated_models", JArr []); ("last_updated", JNull)].
Definition load_model_catalog (f : ledger_file) : json := match f with FileJson j => j | _ => no_catalog end.

(** An entry that passed the filters. *)
Record listed : Type := { ls_id : json; ls_name : json; ls_context : Z; ls_item : json }.
Definition list_item {S} (min_context : Z) (item : json) : M dyn_error S (option listed) :=
  mid ← py_get_or "id" (JStr "") item;
  pricing ← py_get_or "pricing" (JObj []) item;
  ctx ← py_get_or "context_length" (JInt 0) item;
  window ← int_of (jor ctx (JInt 0));
  if negb (is_model_free pricing) then mret None
  else if negb (supports_tool_calling item) then mret None
  else if (window <? min_context)%Z then mret None
  else name ← py_get_or "name" mid item; mret (Some {| ls_id := mid; ls_name := name; ls_context := window; ls_item := item |}).
Definition list_items {S} (min_context : Z) (raw : json) : M dyn_error S (list listed) :=
  l ← py_iter raw;
  os ← map_m (list_item min_context) l;
  mret (omap id os).

(** [sort(key=context_length, reverse=True)], which keeps the order of equals. *)
Fixpoint insert_desc (x : listed) (l : list listed) : list listed :=
  match l with [] => [x] | y :: l' => if (ls_context y <=? ls_context x)%Z then x :: l else y :: insert_desc x l' end.
Definition sort_desc (l : list listed) : list listed := foldr insert_desc [] l.

Definition catalog_entry (x : listed) : json :=
  JObj [("id", ls_id x); ("name", ls_name x); ("context_length", JInt (ls_context x));
        ("pricing", match ls_item x with JObj fs => default (JObj []) (od_get "pricing" fs) | _ => JObj [] end);
        ("supported_parameters", match ls_item x with JObj fs => default (JArr []) (od_get "supported_parameters" fs) | _ => JArr [] end)].

(** [{m["id"] for m in ...}] and [sorted(set)] *)
Definition id_of_entry {S} (m : json) : M dyn_error S string := i ← py_item "id" m; want_str i.
Fixpoint insert_text (x : string) (l : list string) : list string :=
  match l with [] => [x] | y :: l' => if String.leb x y then x :: l else y :: insert_text x l' end.
Definition sorted_set (l : list string) : list string := foldr insert_text [] (remove_dups l).

(** [discover_models] *)
Definition discover_catalog (min_context : Z) (now_iso : string) (answer : option json) : M dyn_error ledger_file json :=
  file ← get;
  let existing := load_model_catalog file in
  let raw := fetch_openrouter_catalog answer in
  if negb (jtruthy raw) then mret existing else
  found ← list_items min_context raw;
  let current := sort_desc found in
  old ← py_get_or "free_models" (JArr []) existing;
  olds ← py_iter old;
  old_ids ← map_m id_of_entry olds;
  new_ids ← map_m (fun x => want_str (ls_id x)) current;
  dep ← py_get_or "deprecated_models" (JArr []) existing;
  deps ← py_iter dep;
  known ← map_m want_str deps;
  let missing := filter (fun i => ~ i ∈ new_ids) old_ids in
  let catalog := JObj [("last_updated", JStr now_iso); ("total_free_models_discovered", JInt (Z.of_nat (length current)));
                       ("free_models", JArr (map catalog_entry current)); ("deprecated_models", JArr (map JStr (sorted_set (known ++ missing))))] in
  modify (fun _ => FileJson catalog) ;;
  mret catalog.

Definition get_top_free_models (limit : nat) (min_context : Z) (now_iso : string) (answer : option json) : M dyn_error ledger_file (list json) :=
  catalog ← discover_catalog min_context now_iso answer;
  models ← py_get_or "free_models" (JArr []) catalog;
  match models with JArr l => mret (take limit l) | _ => raise Untyped end.

(** ** Registration *)

(** [discover_free_models]: the models of the two pools. *)
Definition discover_free_models {S} (py_repr : json -> string) (min_context : Z) (answer : option json) : M dyn_error S (list listed * list listed) :=
  found ← list_items min_context (fetch_openrouter_catalog answer);
  let name x := match ls_item x with JObj fs => default (JStr "") (od_get "name" fs) | _ => JStr "" end in
  let coding x := is_coding_model py_repr (ls_id x) (name x) in
  mret (sort_desc (List.filter coding found), sort_desc (List.filter (fun x => negb (coding x)) found)).

Definition catalog_route (pool id : string) (x : listed) : RouteDefinition :=
  {| rt_id := ("openrouter-discovered-" ++ slash_to_dash id)%string; rt_provider := "openrouter"; rt_model := id; rt_pool := pool;
     rt_base_url := "https://openrouter.ai/api/v1"; rt_api_format := "openai"; rt_env_key := Some "OPENROUTER_API_KEY"; rt_env_keys := [];
     rt_context_length := ls_context x; rt_max_output_tokens := 4096; rt_headers := []; rt_is_discovered := true |}.
(** Registers models until one has no text for an identifier; [false] is that
    exception. *)
Fixpoint register_models (pool : string) (l : list listed) : M Empty_set IsolatedPoolManager bool :=
  match l with
  | [] => mret true
  | x :: l' =>
      match ls_id x with
      | JStr id => add_discovered_route pool (catalog_route pool id x) ;; register_models pool l'
      | _ => mret false
      end
  end.
(** [register_discovered_models_to_pools]: exceptions are logged, what was added
    before stays. *)
Definition register_discovered_models_to_pools (py_repr : json -> string) (limit_per_pool : nat) (answer : option json)
    : M Empty_set IsolatedPoolManager unit :=
  match out_res (discover_free_models py_repr MIN_CONTEXT_LENGTH answer tt 0%nat) with
  | Raise _ => mret tt
  | Ok (coding, agent) =>
      ok ← register_models "coding" (take limit_per_pool coding);
      when ok (register_models "general_agent" (take limit_per_pool agent) ;; mret tt)
  end.

(** ** What discovery guarantees *)
Module DiscoveryProps.

(** ** Sorting *)

Definition desc (x y : listed) : Prop := (ls_context y <= ls_context x)%Z.
Lemma insert_desc_perm x l : insert_desc x l ≡ₚ x :: l.
Proof. induction l as [|y l IH]; [done|]. cbn. destruct (_ <=? _)%Z; [done|]. rewrite IH. apply Permutation_swap. Qed.
Lemma sort_desc_perm l : sort_desc l ≡ₚ l.
Proof. induction l as [|x l IH]; [done|]. cbn. by rewrite insert_desc_perm, IH. Qed.
Lemma insert_desc_sorted x l : StronglySorted desc l -> StronglySorted desc (insert_desc x l).
Proof.
  induction 1 as [|y l Hs IH Hall]; [by repeat constructor|]. cbn. destruct (Z.leb_spec (ls_context y) (ls_context x)) as [Hle|Hlt].
  - constructor; [by constructor|]. constructor; [done|]. eapply Forall_impl; [exact Hall|]. unfold desc. lia.
  - constructor; [done|]. rewrite insert_desc_perm. constructor; [unfold desc; lia | done].
Qed.
Lemma sort_desc_sorted l : StronglySorted desc (sort_desc l).
Proof. induction l as [|x l IH]; [constructor|]. by apply insert_desc_sorted. Qed.

Lemma insert_text_elem x y l : y ∈ insert_text x l <-> y = x \/ y ∈ l.
Proof.
  induction l as [|z l IH]; cbn; [by rewrite list_elem_of_singleton, elem_of_nil; naive_solver|].
  destruct (String.leb x z); [by rewrite !elem_of_cons|]. rewrite !elem_of_cons, IH. naive_solver.
Qed.
Lemma sorted_set_elem y l : y ∈ sorted_set l <-> y ∈ l.
Proof.
  unfold sorted_set. rewrite <- (elem_of_remove_dups l y). induction (remove_dups l) as [|x xs IH]; [done|]. cbn. by rewrite insert_text_elem, IH, elem_of_cons.
Qed.

(** ** The filters *)

Definition admissible (min_context : Z) (x : listed) : Prop :=
  exists fs, ls_item x = JObj fs /\ is_model_free (default (JObj []) (od_get "pricing" fs)) = true /\
    supports_tool_calling (JObj fs) = true /\ (min_context <= ls_context x)%Z /\ ls_id x = default (JStr "") (od_get "id" fs).

Lemma list_item_spec {S} min_context item o (s s' : S) n n' : list_item min_context item s n = (Ok o, s', n') ->
  s' = s /\ forall x, o = Some x -> ls_item x = item /\ admissible min_context x.
Proof.
  unfold list_item. destruct item as [| | | | | |fs]; try done. intros (mid & s1 & n1 & [= <- <- <-] & H)%bind_inv.
  apply bind_inv in H as (pricing & s2 & n2 & [= <- <- <-] & H). apply bind_inv in H as (ctx & s3 & n3 & [= <- <- <-] & H).
  apply bind_inv in H as (window & s4 & n4 & Hw & H).
  assert (s4 = s) as -> by (revert Hw; unfold int_of; repeat case_match; by intros [= _ <- _]).
  destruct (is_model_free _) eqn:Ef; cbn [negb] in H; [|by injection H as <- <- _].
  destruct (supports_tool_calling _) eqn:Et; cbn [negb] in H; [|by injection H as <- <- _].
  destruct (Z.ltb_spec window min_context) as [|Hw']; [by injection H as <- <- _|].
  apply bind_inv in H as (name & s5 & n5 & [= <- <- <-] & [= <- <- _]). split; [done|]. intros x [= <-]. split; [done|]. exists fs. done.
Qed.
Lemma list_items_spec {S} min_context raw l (s s' : S) n n' : list_items min_context raw s n = (Ok l, s', n') ->
  s' = s /\ Forall (admissible min_context) l.
Proof.
  unfold list_items. intros (items & s1 & n1 & Hi & H)%bind_inv. apply bind_inv in H as (os & s2 & n2 & Hm & [= <- <- _]).
  assert (s1 = s) as -> by (revert Hi; unfold py_iter; case_match; by intros [= _ <- _]). clear Hi raw.
  revert os n1 s2 n2 Hm. induction items as [|i items IH]; intros os n1 s2 n2; cbn [map_m]; [by intros [= <- <- _]|].
  intros (o & s3 & n3 & Ho & H)%bind_inv. apply bind_inv in H as (os' & s4 & n4 & Hos & [= <- <- _]).
  destruct (list_item_spec _ _ _ _ _ _ _ Ho) as [-> Hx]. destruct (IH _ _ _ _ Hos) as [-> Hl]. split; [done|].
  destruct o as [x|]; [|done]. constructor; [by apply (Hx x) | done].
Qed.

Lemma map_m_pairs {S A} (f : A -> M dyn_error S string) (P : A -> string -> Prop) l ts (s s' : S) n n' :
  (forall x t s1 n1 s2 n2, f x s1 n1 = (Ok t, s2, n2) -> s2 = s1 /\ P x t) -> map_m f l s n = (Ok ts, s', n') -> s' = s /\ Forall2 P l ts.
Proof.
  intros Hf. revert ts n s' n'. induction l as [|x l IH]; intros ts n s' n'; cbn [map_m]; [by intros [= <- <- _]|].
  intros (t & s1 & n1 & Ht & H)%bind_inv. apply bind_inv in H as (ts' & s2 & n2 & Hts & [= <- <- _]).
  destruct (Hf _ _ _ _ _ _ Ht) as [-> Hp]. destruct (IH _ _ _ _ Hts) as [-> Hall]. split; [done | by constructor].
Qed.
Lemma pairs_l {A B} (P : A -> B -> Prop) l ts x : Forall2 P l ts -> x ∈ l -> exists t, t ∈ ts /\ P x t.
Proof. intros H [i Hi]%list_elem_of_lookup. destruct (Forall2_lookup_l _ _ _ _ _ H Hi) as (t & Ht & Hp). exists t. split; [by eapply list_elem_of_lookup_2 | done]. Qed.
Lemma pairs_r {A B} (P : A -> B -> Prop) l ts t : Forall2 P l ts -> t ∈ ts -> exists x, x ∈ l /\ P x t.
Proof. intros H [i Hi]%list_elem_of_lookup. destruct (Forall2_lookup_r _ _ _ _ _ H Hi) as (x & Hx & Hp). exists x. split; [by eapply list_elem_of_lookup_2 | done]. Qed.
(** [existing.get(k, [])], iterated. *)
Lemma listed_under {S} k existing (v : json) l (s s1 s2 : S) n n1 n2 : py_get_or k (JArr []) existing s n = (Ok v, s1, n1) -> py_iter v s1 n1 = (Ok l, s2, n2) ->
  s2 = s /\ forall l', jget k existing = Some (JArr l') -> l = l'.
Proof.
  unfold py_get_or. destruct existing as [| | | | | |fs]; try done. intros [= <- <- <-] H. split.
  - revert H. unfold py_iter. case_match; by intros [= _ <- _].
  - cbn [jget]. intros l' E. rewrite E in H. by injection H.
Qed.
Lemma want_str_keeps {S} x t (s1 : S) n1 (s2 : S) n2 : want_str x s1 n1 = (Ok t, s2, n2) -> s2 = s1 /\ x = JStr t.
Proof. unfold want_str. case_match; by intros [= <- <- _]. Qed.
Lemma id_of_entry_keeps {S} m t (s1 : S) n1 (s2 : S) n2 : id_of_entry m s1 n1 = (Ok t, s2, n2) -> s2 = s1 /\ jget "id" m = Some (JStr t).
Proof.
  unfold id_of_entry. intros (i & s3 & n3 & Hi & Hw)%bind_inv. destruct (want_str_keeps _ _ _ _ _ _ Hw) as [-> ->].
  unfold py_item in Hi. destruct m as [| | | | | |fs]; try done. cbn [jget]. destruct (od_get "id" fs); [by injection Hi as -> <- _ | done].
Qed.

(** ** Claims *)

(** Discovery writes a sound catalogue.  When the live catalogue is empty or was not
    fetched, what is on file is returned and kept.  Otherwise the file is replaced by
    what is returned: every model in it is free, supports tools and has the context
    asked for, the largest context first; every model that was listed before and is
    gone is deprecated, and a deprecated model stays deprecated. *)
Theorem discovery_catalog_sound min_context now answer file n j file' n' :
  discover_catalog min_context now answer file n = (Ok j, file', n') ->
  let existing := load_model_catalog file in
  (jtruthy (fetch_openrouter_catalog answer) = false -> j = existing /\ file' = file) /\
  (jtruthy (fetch_openrouter_catalog answer) = true ->
     exists found deprecated, file' = FileJson j /\
       jget "free_models" j = Some (JArr (map catalog_entry found)) /\ Forall (admissible min_context) found /\ StronglySorted desc found /\
       jget "deprecated_models" j = Some (JArr (map JStr deprecated)) /\
       (forall olds m i, jget "free_models" existing = Some (JArr olds) -> m ∈ olds -> jget "id" m = Some (JStr i) ->
          i ∈ deprecated \/ exists x, x ∈ found /\ ls_id x = JStr i) /\
       (forall deps i, jget "deprecated_models" existing = Some (JArr deps) -> JStr i ∈ deps -> i ∈ deprecated)).
Proof.
  intros H existing. unfold discover_catalog in H. apply bind_inv in H as (f & s0 & n0 & [= <- <- <-] & H). fold existing in H. cbv zeta in H.
  destruct (jtruthy (fetch_openrouter_catalog answer)) eqn:Et; cbn [negb] in H; [|injection H as <- <- _; by split].
  split; [done|]. intros _. apply bind_inv in H as (found & s1 & n1 & Hf & H). destruct (list_items_spec _ _ _ _ _ _ _ Hf) as [-> Hadm].
  apply bind_inv in H as (old & s2 & n2 & Ho & H). apply bind_inv in H as (olds & s3 & n3 & Hi & H).
  apply bind_inv in H as (old_ids & s4 & n4 & Hold & H). apply bind_inv in H as (new_ids & s5 & n5 & Hnew & H).
  apply bind_inv in H as (dep & s6 & n6 & Hd & H). apply bind_inv in H as (deps & s7 & n7 & Hdi & H).
  apply bind_inv in H as (known & s8 & n8 & Hk & H). apply bind_inv in H as (u & s9 & n9 & [= _ <- _] & [= <- <- _]).
  destruct (listed_under _ _ _ _ _ _ _ _ _ _ Ho Hi) as [-> Eo]. destruct (listed_under _ _ _ _ _ _ _ _ _ _ Hd Hdi) as [-> Ed].
  destruct (map_m_pairs _ (fun m t => jget "id" m = Some (JStr t)) _ _ _ _ _ _ id_of_entry_keeps Hold) as [-> Pold].
  destruct (map_m_pairs _ (fun x t => ls_id x = JStr t) _ _ _ _ _ _ (fun x => want_str_keeps (ls_id x)) Hnew) as [-> Pnew].
  destruct (map_m_pairs _ (fun x t => x = JStr t) _ _ _ _ _ _ want_str_keeps Hk) as [-> Pk].
  exists (sort_desc found), (sorted_set (known ++ filter (fun i => ~ i ∈ new_ids) old_ids)). split_and!; try reflexivity.
  - by rewrite sort_desc_perm.
  - apply sort_desc_sorted.
  - intros olds' m i Ho' Hm Hid. rewrite <- (Eo _ Ho') in Hm. destruct (pairs_l _ _ _ _ Pold Hm) as (t & Ht & Ei).
    assert (t = i) as -> by congruence. destruct (decide (i ∈ new_ids)) as [Hin|Hout].
    + right. destruct (pairs_r _ _ _ _ Pnew Hin) as (x & Hx & Ex). by exists x.
    + left. apply sorted_set_elem, elem_of_app. right. by apply list_elem_of_filter.
  - intros deps' i Hd' Hin. rewrite <- (Ed _ Hd') in Hin. destruct (pairs_l _ _ _ _ Pk Hin) as (t & Ht & [= ->]).
    apply sorted_set_elem, elem_of_app. by left.
Qed.

Definition item (id : string) (pricing : json) (ctx : Z) : json :=
  JObj [("id", JStr id); ("pricing", pricing); ("context_length", JInt ctx); ("supported_parameters", JArr [JStr "tools"])].
Definition zero_price : json := JObj [("prompt", JStr "0"); ("completion", JStr "0")].
Definition answer_of (l : list json) : option json := Some (JObj [("data", JArr l)]).
(** Two runs: a model is listed, gone, and back. *)
Definition run_catalog (l : list json) (f : ledger_file) : ledger_file := out_st (discover_catalog 16384 "t" (answer_of l) f 0%nat).
Definition gone_and_back : ledger_file :=
  run_catalog [item "a/x" zero_price 20000; item "a/y" zero_price 32000] (run_catalog [item "a/y" zero_price 32000]
    (run_catalog [item "a/x" zero_price 20000; item "a/y" zero_price 32000] FileMissing)).

Lemma discovery_catalog_sound_witness :
  exists j found, run_catalog [item "a/y" zero_price 32000] FileMissing = FileJson j /\ jget "free_models" j = Some (JArr (map catalog_entry found)) /\
    StronglySorted desc found.
Proof.
  destruct (discover_catalog 16384 "t" (answer_of [item "a/y" zero_price 32000]) FileMissing 0%nat) as [[[j|e] f] n] eqn:E; [|vm_compute in E; discriminate E].
  destruct (discovery_catalog_sound 16384 "t" (answer_of [item "a/y" zero_price 32000]) FileMissing 0%nat j f n E) as [_ H].
  destruct (H eq_refl) as (found & deprecated & Hf & Hfree & _ & Hs & _). exists j, found. split_and!; [|exact Hfree | exact Hs].
  unfold run_catalog. rewrite E. exact Hf.
Defined.

(** ** Registration *)

(** [s'] has up to [k] more routes at the end of the pool, and nothing else is new. *)
Definition extends (pool : string) (k : nat) (s s' : IsolatedPoolManager) : Prop := exists c a,
  s' = set_routes (coding_routes s ++ c) (agent_routes s ++ a) s /\ (length c + length a <= k)%nat /\ (if is_coding pool then a = [] else c = []) /\
  (NoDup (map rt_id (routes_of pool s)) -> NoDup (map rt_id (routes_of pool s'))).
Lemma extends_refl pool k s : extends pool k s s.
Proof. exists [], []. rewrite !app_nil_r. split_and!; [by destruct s | cbn; lia | by destruct (is_coding pool) | done]. Qed.
Lemma extends_trans pool k1 k2 s1 s2 s3 : extends pool k1 s1 s2 -> extends pool k2 s2 s3 -> extends pool (k1 + k2) s1 s3.
Proof.
  intros (c1 & a1 & -> & L1 & P1 & N1) (c2 & a2 & -> & L2 & P2 & N2). exists (c1 ++ c2), (a1 ++ a2). rewrite !length_app. split_and!.
  - cbn [set_routes coding_routes agent_routes]. by rewrite <- !app_assoc.
  - lia.
  - destruct (is_coding pool); by rewrite P1, P2.
  - auto.
Qed.

Lemma add_route_extends pool r s n : exists s' n', add_discovered_route pool r s n = (Ok tt, s', n') /\ extends pool 1 s s'.
Proof.
  unfold add_discovered_route, modify. eexists _, _. split; [reflexivity|]. case_bool_decide as Eb; [apply extends_refl|].
  unfold extends, routes_of in *. destruct (is_coding pool).
  - exists [r], []. rewrite app_nil_r. split_and!; [done | done | done|]. cbn [coding_routes set_routes]. rewrite map_app. intros Hn.
    apply NoDup_app. split_and!; [done| |apply NoDup_singleton]. by intros x Hx ->%list_elem_of_singleton.
  - exists [], [r]. rewrite app_nil_r. split_and!; [done | done | done|]. cbn [agent_routes set_routes]. rewrite map_app. intros Hn.
    apply NoDup_app. split_and!; [done| |apply NoDup_singleton]. by intros x Hx ->%list_elem_of_singleton.
Qed.
Lemma register_extends pool l s n : exists b s' n', register_models pool l s n = (Ok b, s', n') /\ extends pool (length l) s s'.
Proof.
  revert s n. induction l as [|x l IH]; intros s n; cbn [register_models length]; [exists true, s, n; split; [done | apply extends_refl]|].
  destruct (ls_id x) as [| | | |id| |]; try (exists false, s, n; split; [done | apply extends_refl]).
  destruct (add_route_extends pool (catalog_route pool id x) s n) as (s1 & n1 & E1 & X1). destruct (IH s1 n1) as (b & s2 & n2 & E2 & X2).
  exists b, s2, n2. split; [by erewrite bind_ok by exact E1 | exact (extends_trans pool 1 _ _ _ _ X1 X2)].
Qed.

(** Registration is bounded and additive.  Whatever the live catalogue is, broken
    entries included, registering it adds at most [limit] routes at the end of each
    pool, keeps the identifiers of a pool distinct, and changes nothing else of the
    pool manager. *)
Theorem registration_bounded py_repr limit answer s n :
  exists s' n' c a, register_discovered_models_to_pools py_repr limit answer s n = (Ok tt, s', n') /\
    s' = set_routes (coding_routes s ++ c) (agent_routes s ++ a) s /\ (length c <= limit)%nat /\ (length a <= limit)%nat /\
    (NoDup (map rt_id (coding_routes s)) -> NoDup (map rt_id (coding_routes s'))) /\
    (NoDup (map rt_id (agent_routes s)) -> NoDup (map rt_id (agent_routes s'))).
Proof.
  unfold register_discovered_models_to_pools.
  assert (s = set_routes (coding_routes s ++ []) (agent_routes s ++ []) s) as Hid by (rewrite !app_nil_r; by destruct s).
  destruct (out_res _) as [[coding agent]|e]; [|exists s, n, [], []; split_and!; [done | done | cbn; lia | cbn; lia | done | done]].
  destruct (register_extends "coding" (take limit coding) s n) as (b & s1 & n1 & E1 & c1 & a1 & -> & L1 & P1 & N1). cbn in P1. subst a1.
  rewrite length_take in L1. erewrite bind_ok by exact E1. cbv beta. destruct b; cbn [when].
  - edestruct (register_extends "general_agent" (take limit agent)) as (b2 & s2 & n2 & E2 & c2 & a2 & -> & L2 & P2 & N2). erewrite bind_ok by exact E2.
    cbn in P2. subst c2. rewrite length_take in L2. cbn in L1, L2. eexists _, _, c1, a2. split; [reflexivity|].
    cbn [set_routes coding_routes agent_routes] in *. rewrite !app_nil_r in *. split_and!; [done | lia | lia | exact N1 | exact N2].
  - eexists _, _, c1, []. split; [reflexivity|]. cbn in L1. rewrite app_nil_r in *. split_and!; [done | lia | cbn; lia | exact N1 | done].
Qed.

(** Two places where discovery and the rest disagree.  A model without a price, or with
    one given as the number zero, is free for discovery and not for the nightly
    canary; and a model that left the catalogue and came back is both free and
    deprecated ever after, since nothing is removed from the deprecated list. *)
Theorem discovery_gaps :
  is_model_free (JObj []) = true /\ is_model_free (JObj [("prompt", JInt 0); ("completion", JInt 0)]) = true /\
  fetch_openrouter_free_models (answer_of [item "m" (JObj []) 20000; item "m" (JObj [("prompt", JInt 0); ("completion", JInt 0)]) 20000]) = [] /\
  match gone_and_back with
  | FileJson j => jget "deprecated_models" j = Some (JArr [JStr "a/x"]) /\
      match jget "free_models" j with Some (JArr l) => map (fun m => jget "id" m) l = [Some (JStr "a/y"); Some (JStr "a/x")] | _ => False end
  | _ => False
  end.
Proof. split_and!; vm_compute; reflexivity || (split; reflexivity). Qed.

End DiscoveryProps.
