(* ===== verification/LegacyRouter.v ===== *)
(** * The first-generation router

    [src/durallm/router.py] and [classify_api_error] of [src/durallm/classifier.py]:
    dispatch over the routes of a pool, with the pool manager of [Pools] as its
    shared state.  The network is a function of the request and of the reading at
    which it is sent; every request sent is logged in [lw_sent], which nothing reads.
    Payloads are JSON values: the clamp of [max_tokens], which the code writes into the
    caller's dict, reaches the later attempts here and not the caller.  A field of a configured fallback is given or
    absent; one that is given as null, or with another type, is outside the model. *)

From stdpp Require Import base tactics list sets strings.
From Stdlib Require Import QArith Qround Ascii.
From S2P Require Import Prelude PyText Utf8 Json PyDyn Models Security Classifier Pools Context Pruner Interfaces Prepare Translators Discovery.

(** ** State *)

Record FallbackItem : Type := {
  fi_id : option string;
  fi_provider : option string;
  fi_model : option string;
  fi_pool : option string;
  fi_base_url : option string;
  fi_api_format : option string;
  fi_key_env : option string;
  fi_env_key : option string;
  fi_context_length : option Z;
  fi_headers : option (list (string * string));
}.

Record UniversalFailoverRouter : Type := {
  lr_default_pool : string;
  lr_allowed : option (list string);
  fallback_chain : list FallbackItem;
  provider_cooldowns : odict string Q;
  deprecated_models : list string;
  auth_failed_providers : list string;
  fallback_index : Z;
}.

(** One upstream request. *)
Record sent_request : Type := { sr_url : string; sr_headers : odict string string; sr_body : string }.

Record LegacyWorld : Type := {
  lw_router : UniversalFailoverRouter;
  lw_pools : IsolatedPoolManager;
  lw_sent : list sent_request;
}.
Definition set_lw_router (r : UniversalFailoverRouter) (w : LegacyWorld) : LegacyWorld := {| lw_router := r; lw_pools := lw_pools w; lw_sent := lw_sent w |}.
Definition set_lw_pools (p : IsolatedPoolManager) (w : LegacyWorld) : LegacyWorld := {| lw_router := lw_router w; lw_pools := p; lw_sent := lw_sent w |}.
Definition log_sent (r : sent_request) (w : LegacyWorld) : LegacyWorld := {| lw_router := lw_router w; lw_pools := lw_pools w; lw_sent := lw_sent w ++ [r] |}.

(** What the network does with a request. *)
Inductive net_answer : Type :=
| NetResponse (status : Z) (headers : list (string * string)) (body : string)
| NetHttpError (code : Z) (headers : list (string * string)) (body : string)
| NetFailed (text : string).

(** [pool or self.default_pool] *)
Definition or_text (o : option string) (d : string) : string := match o with Some s => if truthy s then s else d | None => d end.

(** ** Construction *)

Definition item_provider (i : FallbackItem) : string := ustrip (py_lower (or_text (fi_provider i) "")).
Definition item_route (dflt : string) (i : FallbackItem) : RouteDefinition :=
  let str o := default "None" o in
  {| rt_id := or_text (fi_id i) (str (fi_provider i) ++ "-" ++ str (fi_model i))%string; rt_provider := default "custom" (fi_provider i);
     rt_model := default "default" (fi_model i); rt_pool := default dflt (fi_pool i);
     rt_base_url := default "https://api.openai.com/v1" (fi_base_url i); rt_api_format := default "openai" (fi_api_format i);
     rt_env_key := match fi_key_env i with Some k => if truthy k then Some k else fi_env_key i | None => fi_env_key i end; rt_env_keys := [];
     rt_context_length := default 65536%Z (fi_context_length i); rt_max_output_tokens := 4096; rt_headers := default [] (fi_headers i);
     rt_is_discovered := false |}.

(** The providers an argument, else [LLM_ALLOWED_PROVIDERS], admits. *)
Definition allowed_of (arg : option (list string)) (env : option string) : option (list string) :=
  match arg with
  | Some ps => Some (map (fun p => ustrip (py_lower p)) ps)
  | None =>
      match env with
      | Some e => if truthy e then Some (map (fun p => ustrip (py_lower p)) (List.filter (fun p => truthy (ustrip p)) (split_on "," e))) else None
      | None => None
      end
  end.
Definition set_allowed (ps : list string) (s : IsolatedPoolManager) : IsolatedPoolManager :=
  {| coding_routes := coding_routes s; agent_routes := agent_routes s; allowed_providers := Some ps; pm_keys := pm_keys s; cooldowns := cooldowns s;
     exhausted_quotas := exhausted_quotas s; account_lockouts := account_lockouts s; deprecated := deprecated s; last_success := last_success s;
     last_success_at := last_success_at s; coding_index := coding_index s; agent_index := agent_index s |}.

Definition admits_item (allowed : option (list string)) (i : FallbackItem) : bool :=
  match allowed with Some ps => existsb (String.eqb (item_provider i)) ps | None => true end.
(** [__init__]; the pool manager is the shared one.  [answer] is what the catalogue
    request gives when discovery is asked for. *)
Definition new_router (configured : list FallbackItem) (auto_discover : option bool) (auto_env : bool) (max_discovered_free : nat) (dflt : string)
    (arg : option (list string)) (env : option string) (py_repr : json -> string) (answer : option json)
    (pm : IsolatedPoolManager) (n : nat) : LegacyWorld :=
  let allowed := allowed_of arg env in
  let pm1 := match allowed with Some ps => set_allowed ps pm | None => pm end in
  let chain := List.filter (admits_item allowed) configured in
  let routes := map (item_route dflt) chain in
  let pm2 := if is_coding dflt then set_routes (routes ++ coding_routes pm1) (agent_routes pm1) pm1
             else set_routes (coding_routes pm1) (routes ++ agent_routes pm1) pm1 in
  let pm3 := if default auto_env auto_discover then out_st (register_discovered_models_to_pools py_repr max_discovered_free answer pm2 n) else pm2 in
  {| lw_router := {| lr_default_pool := dflt; lr_allowed := allowed; fallback_chain := chain; provider_cooldowns := []; deprecated_models := [];
                     auth_failed_providers := []; fallback_index := -1 |};
     lw_pools := pm3; lw_sent := [] |}.

(** ** Methods *)

Section router.
Context (mono wall : nat -> Q) (environ : string -> option string) (uuid : nat -> string).
(** [json.dumps] with [ensure_ascii=False], plain, and indented; [str] of a value that
    is not a text; the text of an exception of the defence. *)
Context (dumps_text dumps_ascii dumps_indent py_repr : json -> string) (json_loads : string -> option json).
Context (parse_http_date : string -> option Q) (security_text : security_error -> string).
Context (network : sent_request -> Q -> nat -> net_answer).
Local Abbreviation L := (M dyn_error LegacyWorld).

Definition on_lw_pools {B} (m : M Empty_set IsolatedPoolManager B) : L B := fun w n =>
  match m (lw_pools w) n with
  | (Ok b, p, n') => (Ok b, set_lw_pools p w, n')
  | (Raise e, _, _) => match e with end
  end.
Definition on_router (f : UniversalFailoverRouter -> UniversalFailoverRouter) : L unit := modify (fun w => set_lw_router (f (lw_router w)) w).
(** Functions of their arguments and the clocks; the classifier raises nothing. *)
Definition purely {B} (m : M dyn_error unit B) : L B := fun w n => let '(r, _, n') := m tt n in (r, w, n').
Definition classifying {B} (m : M exn unit B) : L B := fun w n =>
  match m tt n with (Ok b, _, n') => (Ok b, w, n') | (Raise _, _, n') => (Raise Untyped, w, n') end.

Definition with_cooldowns c r : UniversalFailoverRouter :=
  {| lr_default_pool := lr_default_pool r; lr_allowed := lr_allowed r; fallback_chain := fallback_chain r; provider_cooldowns := c;
     deprecated_models := deprecated_models r; auth_failed_providers := auth_failed_providers r; fallback_index := fallback_index r |}.
Definition with_blacklist m r : UniversalFailoverRouter :=
  {| lr_default_pool := lr_default_pool r; lr_allowed := lr_allowed r; fallback_chain := fallback_chain r; provider_cooldowns := provider_cooldowns r;
     deprecated_models := m; auth_failed_providers := auth_failed_providers r; fallback_index := fallback_index r |}.
Definition with_auth_failed a r : UniversalFailoverRouter :=
  {| lr_default_pool := lr_default_pool r; lr_allowed := lr_allowed r; fallback_chain := fallback_chain r; provider_cooldowns := provider_cooldowns r;
     deprecated_models := deprecated_models r; auth_failed_providers := a; fallback_index := fallback_index r |}.
Definition with_fallback_index i r : UniversalFailoverRouter :=
  {| lr_default_pool := lr_default_pool r; lr_allowed := lr_allowed r; fallback_chain := fallback_chain r; provider_cooldowns := provider_cooldowns r;
     deprecated_models := deprecated_models r; auth_failed_providers := auth_failed_providers r; fallback_index := i |}.

Definition add_once (x : string) (l : list string) : list string := if existsb (String.eqb x) l then l else x :: l.
Definition router_mark_cooldown (provider : string) (seconds : Q) (pool route_id : option string) : L unit :=
  now ← read_clock mono;
  on_router (fun r => with_cooldowns (od_set (py_lower provider) (now + seconds)%Q (provider_cooldowns r)) r) ;;
  w ← get;
  on_lw_pools (mark_cooldown mono (or_text pool (lr_default_pool (lw_router w))) (or_text route_id provider) seconds).
Definition router_mark_deprecated (model : string) (pool : option string) : L unit :=
  on_router (fun r => with_blacklist (add_once model (deprecated_models r)) r) ;;
  w ← get;
  on_lw_pools (mark_deprecated (or_text pool (lr_default_pool (lw_router w))) model).
Definition router_record_success (provider : string) (pool route_id : option string) : L unit :=
  let p := py_lower provider in
  on_router (fun r => with_cooldowns (od_pop p (provider_cooldowns r)) r) ;;
  on_router (fun r => with_auth_failed (List.filter (fun x => negb (String.eqb x p)) (auth_failed_providers r)) r) ;;
  w ← get;
  on_lw_pools (clear_cooldown (or_text route_id p) None) ;;
  match route_id with
  | Some i => when (truthy i) (on_lw_pools (record_route_success mono (or_text pool (lr_default_pool (lw_router w))) i))
  | None => mret tt
  end.
Definition mark_auth_failed (provider : string) : L unit :=
  on_router (fun r => with_auth_failed (add_once (py_lower provider) (auth_failed_providers r)) r).

(** What the two queries return: an item of the chain, or a route's fields. *)
Inductive active_route : Type := ChainItem (i : FallbackItem) | PoolRoute (r : RouteDefinition).
Definition active_provider : L (option active_route) :=
  w ← get;
  let r := lw_router w in
  match fallback_chain r with
  | [] => o ← on_lw_pools (select_route mono wall (lr_default_pool r)); mret (PoolRoute <$> o)
  | chain => mret (ChainItem <$> chain !! Z.to_nat (Z.max 0 (fallback_index r) mod Z.of_nat (length chain)))
  end.

(** The guards of the chain loop; the clock is read last. *)
Definition item_admitted (i : FallbackItem) : L bool :=
  w ← get;
  let r := lw_router w in
  let p := py_lower (default "" (fi_provider i)) in
  let m := default "" (fi_model i) in
  if match lr_allowed r with Some ps => negb (existsb (String.eqb p) ps) | None => false end then mret false
  else if existsb (String.eqb p) (auth_failed_providers r) then mret false
  else if existsb (String.eqb m) (deprecated_models r) then mret false
  else now ← read_clock mono; mret (negb (now ≺ default 0%Q (od_get p (provider_cooldowns r)))).
Fixpoint next_in_chain (attempts : nat) : L (option FallbackItem) :=
  match attempts with
  | O => mret None
  | S attempts' =>
      w ← get;
      let chain := fallback_chain (lw_router w) in
      let i := ((fallback_index (lw_router w) + 1) mod Z.of_nat (length chain))%Z in
      on_router (with_fallback_index i) ;;
      match chain !! Z.to_nat i with
      | None => mret None
      | Some candidate =>
          ok ← item_admitted candidate;
          if (ok : bool) then mret (Some candidate) else next_in_chain attempts'
      end
  end.
Definition get_next_available_route (pool : option string) : L (option active_route) :=
  w ← get;
  found ← match fallback_chain (lw_router w) with [] => mret None | chain => next_in_chain (length chain * 2) end;
  match found with
  | Some i => mret (Some (ChainItem i))
  | None => o ← on_lw_pools (select_route mono wall (or_text pool (lr_default_pool (lw_router w)))); mret (PoolRoute <$> o)
  end.

(** [resolve_secret]; [dotfiles] are the lines of the files a scan reads. *)
Definition resolve_secret (dotfiles : list (list string)) (pm : IsolatedPoolManager) (key_name : string) : option string :=
  let nonblank o := match o with Some v => if truthy (ustrip v) then Some (ustrip v) else None | None => None end in
  match nonblank (environ key_name) with
  | Some v => Some v
  | None => match nonblank (od_get key_name (pm_keys pm)) with
            | Some v => Some v
            | None => od_get key_name (load_all_env_keys environ dotfiles (Some [key_name]) None)
            end
  end.

(** ** One upstream call *)

(** [calculate_adaptive_timeout] *)
Definition calculate_adaptive_timeout (provider : string) (payload : json) (default_timeout : Q) : M dyn_error unit Q :=
  let base := if existsb (String.eqb (py_lower provider)) ["nvidia"; "sambanova"; "cerebras"] then 45 else 35 in
  ms ← py_get_or "messages" (JArr []) payload;
  l ← py_iter ms;
  let size m := match m with JObj fs => slen (py_str py_repr (default (JStr "") (od_get "content" fs))) | _ => O end in
  let approx := (Z.of_nat (list_sum (map size l)) / 4)%Z in
  let extra := if (16000 <? approx)%Z then 25 else if (8000 <? approx)%Z then 15 else 0 in
  mret (py_min default_timeout (base + extra)).

Definition int_or (d : Z) (o : option json) : M dyn_error unit Z :=
  match o with None => mret d | Some (JInt z) => mret z | Some (JFloat _ | JBool _) => raise Untyped | Some _ => raise TypeError end.
Definition gemini_request (route : RouteDefinition) (api_key : option string) (payload : json) : M dyn_error unit sent_request :=
  fs ← convert_openai_to_gemini_payload py_repr json_loads payload;
  tokens ← int_or (rt_max_output_tokens route) (match payload with JObj ps => od_get "max_tokens" ps | _ => None end);
  let temperature := match payload with JObj ps => default (JFloat (7 # 10)) (od_get "temperature" ps) | _ => JNull end in
  let fs := od_set "generationConfig" (JObj [("maxOutputTokens", JInt (Z.min (Z.min tokens (rt_max_output_tokens route)) 8192));
                                            ("temperature", temperature)]) fs in
  mret {| sr_url := (rstrip_slash (rt_base_url route) ++ "/models/" ++ rt_model route ++ ":generateContent")%string;
          sr_headers := [("Content-Type", "application/json")] ++ auth_header "x-goog-api-key" "" api_key;
          sr_body := dumps_text (JObj fs) |}.
Definition chat_request (route : RouteDefinition) (api_key : option string) (payload : json) : M dyn_error unit sent_request :=
  match payload with
  | JObj ps =>
      let ps := od_set "model" (JStr (rt_model route)) ps in
      ps ← (match od_get "max_tokens" ps with
            | None => mret ps
            | some => z ← int_or 0 some; mret (od_set "max_tokens" (JInt (Z.min (Z.min z (rt_max_output_tokens route)) 8192)) ps)
            end);
      let ps := if existsb (String.eqb (rt_provider route)) ["anthropic"; "openrouter"] then ps else od_pop "thinking" ps in
      mret {| sr_url := (rstrip_slash (rt_base_url route) ++ "/chat/completions")%string;
              sr_headers := CodecGemini.od_update ([("Content-Type", "application/json"); ("Accept", "application/json"); ("User-Agent", BROWSER_UA)] ++
                              auth_header "Authorization" "Bearer " api_key) (rt_headers route);
              sr_body := dumps_text (JObj ps) |}
  | _ => raise Untyped
  end.

Definition BLOCKED_PREFIX : string := "transport_error:blocked: ".
Definition screened (r : sent_request) : res security_error unit :=
  match validate_upstream_url (sr_url r) DEFAULT_SCHEMES (env_flag environ "DURALLM_ALLOW_LOCAL_UPSTREAM") with
  | Raise e => Raise e
  | Ok _ => enforce_payload_limit (Z.of_nat (String.length (sr_body r))) MAX_PAYLOAD_BYTES
  end.
(** What is read of an answer. *)
Definition received (a : net_answer) : Z * odict string string * string :=
  match a with
  | NetResponse status headers body =>
      let read := str_take (Z.to_nat MAX_PAYLOAD_BYTES + 1) body in
      match enforce_payload_limit (Z.of_nat (String.length read)) MAX_PAYLOAD_BYTES with
      | Ok _ => (status, clean_headers headers, read)
      | Raise e => (599%Z, [], security_text e)
      end
  | NetHttpError code headers body => (code, clean_headers headers, body)
  | NetFailed text => (599%Z, [], text)
  end.
Definition ask_network (req : sent_request) (timeout : Q) : L (Z * odict string string * string) :=
  modify (log_sent req) ;; a ← ((fun w n => (Ok (network req timeout n), w, S n)) : L net_answer); mret (received a).
Definition execute_upstream_request (route : RouteDefinition) (payload : json) (timeout : Q) : L (Z * odict string string * string) :=
  w ← get;
  let api_key := match rt_env_key route with Some k => if truthy k then od_get k (pm_keys (lw_pools w)) else None | None => None end in
  req ← purely (if String.eqb (rt_api_format route) "gemini" then gemini_request route api_key payload else chat_request route api_key payload);
  match screened req with
  | Raise e => mret (599%Z, [], (BLOCKED_PREFIX ++ security_text e)%string)
  | Ok _ => ask_network req timeout
  end.

(** ** Failures *)

(** [classify_api_error] of a text, with the pool, route and provider the dispatch
    passes; the clean-up of the pool manager raises nothing. *)
Definition classify_api_error (error : string) (status_code : Z) (pool route_id : string) (provider : option string) : L FailureClassification :=
  c ← classifying (classify_failure wall parse_http_date (text_error error) (Some status_code) []);
  (if bool_decide (fc_reason c = billing) && truthy pool && truthy route_id then
     let seconds := default 86400 (q_or (fc_retry_after_seconds c) (Some 86400)) in
     on_lw_pools (mark_quota_exhausted wall pool route_id seconds) ;;
     when (jtruthy (default JNull (od_get "account_wide" (fc_details c))))
       (on_lw_pools (mark_provider_quota_exhausted wall pool
          (or_text provider (List.last (split_on ":" (hd "" (split_on "-" route_id))) "")) seconds))
   else if (bool_decide (fc_reason c = model_not_found) || fc_is_permanent c) && truthy pool && truthy route_id then
     on_lw_pools (mark_deprecated pool route_id)
   else mret tt) ;;
  mret c.

(** The clamp on [max_tokens]: [None] when the cap does not bind. *)
Definition clamped (payload : json) (body : string) : L (option json) :=
  match parse_output_cap_from_error body with
  | None => mret None
  | Some cap =>
      if negb (0 <? cap)%Z then mret None else
      current ← py_get "max_tokens" payload;
      over ← match current with
             | JNull => mret true
             | JInt z => mret (cap <? z)%Z
             | JFloat q => mret (inject_Z cap ≺ q)
             | JBool _ => raise Untyped
             | _ => raise TypeError
             end;
      match payload with
      | JObj fs => if (over : bool) then mret (Some (JObj (od_set "max_tokens" (JInt (if (64 <? cap)%Z then Z.max 1 (cap - 64) else cap)) fs))) else mret None
      | _ => mret None
      end
  end.
Definition pruned (payload : json) (tokens : Z) : L json :=
  purely (prune_openai_request dumps_text dumps_indent json_loads payload tokens 2048 2).
Definition narrowed (payload : json) (body : string) : L (option json) :=
  match parse_input_tpm_limit body with
  | None => mret None
  | Some limit => if (0 <? limit)%Z then j ← pruned payload (Z.max 1000 (limit * 85 / 100)); mret (Some j) else mret None
  end.

Definition rate_limit_cooldown (headers : odict string string) : Z :=
  match py_float (or_text (od_get "retry-after" headers) "60") with
  | Some q => Z.min 120 (Z.max 30 (Qfloor q))
  | None => 60
  end.
(** What the attempt's failure does to the route, once the payload is settled. *)
Definition punish (pool : string) (route : RouteDefinition) (status : Z) (headers : odict string string) (c : FailureClassification) : L unit :=
  let reason := fc_reason c in
  if bool_decide (reason = billing) then
    let m := py_lower (fc_message c) in
    if contains "free-models-per-day" m || contains "free model requests" m || String.eqb (py_lower (rt_provider route)) "openrouter"
    then reset ← classifying (calculate_seconds_until_utc_midnight wall);
         on_lw_pools (mark_provider_quota_exhausted wall pool (rt_provider route) reset)
    else on_lw_pools (mark_quota_exhausted wall pool (rt_id route) 86400)
  else if bool_decide (reason = rate_limit) || bool_decide (reason = upstream_rate_limit) then
    on_lw_pools (mark_cooldown mono pool (rt_id route) (inject_Z (rate_limit_cooldown headers)))
  else if bool_decide (reason = model_not_found) || (status =? 404)%Z then on_lw_pools (mark_deprecated pool (rt_model route))
  else if existsb (fun r => bool_decide (reason = r)) [overloaded; server_error; timeout; connection_refused] then
    on_lw_pools (mark_cooldown mono pool (rt_id route) 30)
  else mret tt.
(** The rest of the body after a failed attempt; the payload of the next attempt. *)
Definition after_failure (pool : string) (route : RouteDefinition) (payload : json) (status : Z) (headers : odict string string) (body : string) : L json :=
  let raw := utf8_ignore body in
  c ← classify_api_error raw status pool (rt_id route) (Some (rt_provider route));
  clamp ← (if bool_decide (fc_reason c = output_cap_exceeded) then clamped payload raw else mret None);
  match clamp with
  | Some p => mret p
  | None =>
      narrow ← (if bool_decide (fc_reason c = payload_too_large) || bool_decide (fc_reason c = context_overflow) then narrowed payload raw else mret None);
      match narrow with
      | Some p => mret p
      | None => punish pool route status headers c ;; mret payload
      end
  end.

(** ** Dispatch *)

(** The [try] block of a status 200. *)
Definition parsed_answer (pool : string) (route : RouteDefinition) (body : string) : L (option json) :=
  try_except
    (raw ← match utf8_decode body ≫= json_loads with Some j => mret j | None => raise TypeError end;
     parsed ← (if String.eqb (rt_api_format route) "gemini"
               then purely (convert_gemini_to_openai_response dumps_ascii uuid wall raw (rt_model route)) else mret raw);
     on_lw_pools (record_route_success mono pool (rt_id route)) ;;
     mret (Some parsed))
    (mret None).
(** An attempt on [route]: an answer, or the payload of the next attempt. *)
Definition attempt (default_timeout : Q) (pool : string) (payload : json) (route : RouteDefinition) : L (json + json) :=
  p ← pruned payload (rt_context_length route);
  t ← purely (calculate_adaptive_timeout (rt_provider route) p default_timeout);
  answer ← execute_upstream_request route p (inject_Z (Qfloor t));
  let '(status, headers, body) := answer in
  parsed ← (if (status =? 200)%Z then parsed_answer pool route body else mret None);
  match parsed with
  | Some j => mret (inl j)
  | None => p' ← after_failure pool route payload (if (status =? 200)%Z then 502 else status)%Z headers body; mret (inr p')
  end.
Fixpoint dispatch_loop (default_timeout : Q) (pool : string) (left : nat) (payload : json) : L (option (json * RouteDefinition)) :=
  match left with
  | O => mret None
  | S left' =>
      o ← on_lw_pools (select_route mono wall pool);
      match o with
      | None => mret None
      | Some route =>
          r ← attempt default_timeout pool payload route;
          match r with
          | inl j => mret (Some (j, route))
          | inr payload' => dispatch_loop default_timeout pool left' payload'
          end
      end
  end.
Definition unavailable (pool : string) : json :=
  JObj [("error", JObj [("message", JStr ("All providers in pool '" ++ pool ++ "' are temporarily unavailable.")%string)])].
Definition dispatch (default_timeout : Q) (pool : string) (payload : json) (max_attempts : nat) : L (Z * json * option RouteDefinition) :=
  o ← dispatch_loop default_timeout pool max_attempts payload;
  mret (match o with Some (j, route) => (200%Z, j, Some route) | None => (503%Z, unavailable pool, None) end).
End router.

From S2P Require Import JsonText PoolsProps.

(** ** What a dispatch does

    Every dispatch of the first-generation router ends, sends a bounded number of
    screened requests, answers from a route of its own pool, and leaves the other
    pool's own tables as they were; the account-wide lockouts, which the pools share,
    it changes only for the accounts of its own routes.  A route that refuses its key
    keeps being tried. *)
Module LegacyRouterProps.

(** ** Selection *)

Section selection.
Context (mono wall : nat -> Q).
Lemma candidates_of_pool pool s n l s' n' : get_candidate_routes mono wall pool s n = (Ok l, s', n') ->
  sublist l (routes_of pool s) /\ routes_of pool s' = routes_of pool s.
Proof.
  intros (u & s1 & n1 & H1 & H)%bind_inv. rewrite expire_runs in H1. injection H1 as _ <- _.
  apply bind_inv in H as (rs & s2 & n2 & [= <- <- _] & H). apply bind_inv in H as (tm & s3 & n3 & [= _ <- _] & H).
  apply filter_m_spec in H as (-> & _ & Hsub & _); [by split|].
  intros x k. destruct (admits_runs wall pool tm x (after_expiry (Some pool) (mono n) (wall (S n)) s) k) as (b & k' & ? & ? & _). eauto.
Qed.

Lemma select_of_pool pool s n r s' n' : select_route mono wall pool s n = (Ok (Some r), s', n') -> r ∈ routes_of pool s.
Proof.
  intros (first & s1 & n1 & H1 & H)%bind_inv. destruct (candidates_of_pool _ _ _ _ _ _ H1) as [Hsub Hr].
  apply bind_inv in H as (cs & s2 & n2 & H2 & H).
  assert (sublist cs (routes_of pool s)) as Hcs.
  { destruct first as [|x first]; [|by injection H2 as <- _ _]. apply bind_inv in H2 as (s3 & s4 & n3 & [= <- <- _] & H2).
    destruct (oldest_cooldown pool s1) as [k|]; [|by injection H2 as <- _ _].
    apply bind_inv in H2 as (u & s5 & n5 & [= _ <- _] & H2). apply candidates_of_pool in H2 as [H2 _].
    etrans; [exact H2|]. change (sublist (routes_of pool s1) (routes_of pool s)). by rewrite Hr. }
  destruct cs as [|c cs]; [done|].
  destruct (choose_route_runs mono pool (c :: cs) s2 n2) as (r' & s3 & n3 & E & Hin & _); [done|].
  rewrite E in H. injection H as -> _ _. by eapply elem_of_sublist.
Qed.
End selection.

(** ** Frames *)

(** ** The clock of a dispatch only advances *)

Lemma ticking_map_m {E S A B} (f : A -> M E S B) l : (forall x, ticking (f x)) -> ticking (map_m f l).
Proof. intros Hf. induction l as [|x l IH]; cbn [map_m]; ticks. Qed.
Lemma ticking_imap_m {E S A B} (f : nat -> A -> M E S B) i l : (forall i x, ticking (f i x)) -> ticking (imap_m f i l).
Proof. intros Hf. revert i. induction l as [|x l IH]; intros i; cbn [imap_m]; ticks. Qed.
Lemma ticking_read {S} k j : ticking (py_get k j : M dyn_error S json).
Proof. unfold py_get, py_get_or. ticks. Qed.
Lemma ticking_read_or {S} k d j : ticking (py_get_or k d j : M dyn_error S json).
Proof. unfold py_get_or. ticks. Qed.
Lemma ticking_iter {S} j : ticking (py_iter j : M dyn_error S (list json)).
Proof. unfold py_iter. ticks. Qed.
Lemma ticking_fresh {S} u pre len : ticking (CodecOpenAI.fresh_id u pre len : M dyn_error S string).
Proof. intros s k. unfold out_tick. cbn. lia. Qed.
#[local] Hint Resolve ticking_map_m ticking_imap_m ticking_read ticking_read_or ticking_iter ticking_fresh : ticking.

Lemma ticking_dict {S} (f : fields -> M dyn_error S fields) msg : (forall fs, ticking (f fs)) -> ticking (on_dict f msg).
Proof. intros Hf. unfold on_dict. ticks. Qed.
#[local] Hint Resolve ticking_dict : ticking.
Lemma ticking_short {S} di ld msg : ticking (compact_short di ld msg : M dyn_error S json).
Proof. unfold compact_short. ticks. Qed.
Lemma ticking_tool_turn {S} di ld a b i msg : ticking (compact_tool_turn di ld a b i msg : M dyn_error S json).
Proof. unfold compact_tool_turn. ticks. Qed.
Lemma ticking_assistant {S} di ld a b i msg : ticking (compact_assistant di ld a b i msg : M dyn_error S json).
Proof. unfold compact_assistant. ticks. Qed.
#[local] Hint Resolve ticking_short ticking_tool_turn ticking_assistant : ticking.
Lemma ticking_prune {S} d di ld req mx margin tail : ticking (prune_openai_request d di ld req mx margin tail : M dyn_error S json).
Proof. unfold prune_openai_request, openai_window, messages_of, start_index. ticks. Qed.

Lemma ticking_clean_keys rp deeper cleaned fs : (forall j, ticking (deeper j)) -> ticking (CodecGemini.clean_keys rp deeper cleaned fs).
Proof.
  intros Hd. revert cleaned. induction fs as [|kv fs IH]; intros cleaned; cbn [CodecGemini.clean_keys]; [ticks|].
  apply ticking_bind; [|auto]. unfold CodecGemini.clean_key, CodecGemini.clean_type. ticks. apply ticking_map_m. intros x. ticks.
Qed.
Lemma ticking_clean_nested rp fuel defs depth j : ticking (CodecGemini.clean_nested rp fuel defs depth j).
Proof.
  revert depth j. induction fuel as [|fuel IH]; intros depth j; cbn [CodecGemini.clean_nested]; [ticks|].
  assert (forall fs, ticking (CodecGemini.clean_keys rp (CodecGemini.clean_nested rp fuel defs (Datatypes.S depth)) [] fs)) as Hk
    by (intros fs; by apply ticking_clean_keys). ticks.
Qed.
Lemma ticking_cleaned {S} rp j : ticking (CodecGemini.cleaned_parameters rp j : M dyn_error S json).
Proof.
  assert (ticking (CodecGemini.clean_gemini_schema rp j)) as Hc.
  { unfold CodecGemini.clean_gemini_schema, CodecGemini.collect_definitions, CodecGemini.as_dict. ticks; apply ticking_clean_nested. }
  intros s k. specialize (Hc tt k). unfold CodecGemini.cleaned_parameters.
  destruct (CodecGemini.clean_gemini_schema rp j tt k) as [[[x|[|e]] u] k1]; exact Hc.
Qed.
#[local] Hint Resolve ticking_cleaned : ticking.

Lemma ticking_to_gemini {S} rp ld req : ticking (convert_openai_to_gemini_payload rp ld req : M dyn_error S (odict string json)).
Proof.
  assert (forall tc, ticking (call_to_gemini ld tc : M dyn_error S json)) as Hc by (intros tc; unfold call_to_gemini; ticks).
  assert (forall t, ticking (tool_to_gemini rp t : M dyn_error S json)) as Ht by (intros t; unfold tool_to_gemini; ticks).
  assert (forall m, ticking (message_to_gemini rp ld m : M dyn_error S _)) as Hm by (intros m; unfold message_to_gemini; ticks).
  assert (forall ms sys, ticking (messages_to_gemini rp ld sys ms : M dyn_error S _)) as Hms
    by (induction ms; intros sys; cbn [messages_to_gemini]; ticks).
  unfold convert_openai_to_gemini_payload. ticks.
Qed.
Lemma ticking_from_gemini {S} du u clk resp model : ticking (convert_gemini_to_openai_response du u clk resp model : M dyn_error S json).
Proof.
  assert (forall ps, ticking (parts_to_openai du u ps : M dyn_error S _)) as Hp
    by (induction ps; cbn [parts_to_openai]; unfold py_in, py_item; ticks).
  assert (forall x, ticking (py_text x : M dyn_error S _)) as Hx by (intros x; unfold py_text; ticks).
  unfold convert_gemini_to_openai_response, py_first. ticks.
Qed.
Lemma ticking_classify clk date e code hs : ticking (classify_failure clk date e code hs : M exn unit FailureClassification).
Proof. unfold classify_failure, parse_retry_after, calculate_seconds_until_utc_midnight. ticks. Qed.
Section frames.
Context (mono wall : nat -> Q) (environ : string -> option string) (uuid : nat -> string).
Context (dumps_text dumps_ascii dumps_indent py_repr : json -> string) (json_loads : string -> option json).
Context (parse_http_date : string -> option Q) (security_text : security_error -> string).
Context (network : sent_request -> Q -> nat -> net_answer).
Context (p q : string) (Hpq : py_lower p <> py_lower q) (Hc : is_coding p <> is_coding q).
Local Abbreviation L := (M dyn_error LegacyWorld).

(** From [w] to [w'] at most [k] requests were sent, all of them screened, the router
    and the other pool [q] being left as they were. *)
Definition within (k : nat) (w w' : LegacyWorld) : Prop :=
  lw_router w' = lw_router w /\ same_view q (lw_pools w) (lw_pools w') /\
  exists l, lw_sent w' = lw_sent w ++ l /\ (length l <= k)%nat /\ Forall (fun r => screened environ r = Ok tt) l.
Definition sends {A} (k : nat) (m : L A) : Prop := forall w n, within k w (out_st (m w n)).

Lemma within_refl k w : within k w w.
Proof. split_and!; [done | apply same_view_refl | exists []; split_and!; [by rewrite app_nil_r | cbn; lia | done]]. Qed.
Lemma within_trans j k w1 w2 w3 : within j w1 w2 -> within k w2 w3 -> within (j + k) w1 w3.
Proof.
  intros (R1 & V1 & l1 & S1 & N1 & F1) (R2 & V2 & l2 & S2 & N2 & F2). split_and!; [congruence | by eapply same_view_trans|].
  exists (l1 ++ l2). rewrite S2, S1, app_assoc, length_app. split_and!; [done | lia | by apply Forall_app].
Qed.

Lemma sends_ret {A} k (a : A) : sends k (mret a).
Proof. intros w n. apply within_refl. Qed.
Lemma sends_raise {A} k e : sends k (raise e : L A).
Proof. intros w n. apply within_refl. Qed.
Lemma sends_get k : sends k (get : L LegacyWorld).
Proof. intros w n. apply within_refl. Qed.
Lemma sends_purely {A} k (m : M dyn_error unit A) : sends k (purely m).
Proof. intros w n. unfold purely. destruct (m tt n) as [[r u] n']. apply within_refl. Qed.
Lemma sends_classifying {A} k (m : M exn unit A) : sends k (classifying m).
Proof. intros w n. unfold classifying. destruct (m tt n) as [[[a|e] u] n']; apply within_refl. Qed.
Lemma sends_bind {A B} j k (m : L A) (f : A -> L B) : sends j m -> (forall a, sends k (f a)) -> sends (j + k) (mbind f m).
Proof.
  intros Hm Hf w n. specialize (Hm w n). unfold mbind, M_bind, out_st in *. destruct (m w n) as [[[a|e] w1] n1]; cbn in *.
  - eapply within_trans; [exact Hm | apply Hf].
  - rewrite <- (Nat.add_0_r j) in Hm. destruct Hm as (? & ? & l & ? & ? & ?). split_and!; [done..|]. exists l. split_and!; [done | lia | done].
Qed.
Lemma sends_quiet {A B} (m : L A) k (f : A -> L B) : sends 0 m -> (forall a, sends k (f a)) -> sends k (mbind f m).
Proof. apply (sends_bind 0). Qed.
Lemma sends_pools {A} k (m : PM A) : keeps_view q m -> sends k (on_lw_pools m).
Proof.
  intros Hm w n. specialize (Hm (lw_pools w) n). unfold on_lw_pools. destruct (m (lw_pools w) n) as [[[a|[]] s] n']. cbn in *.
  split_and!; [done | exact Hm | exists []; split_and!; [by rewrite app_nil_r | cbn; lia | done]].
Qed.
Lemma sends_try {A} j k (m h : L A) : sends j m -> sends k h -> sends (j + k) (try_except m h).
Proof.
  intros Hm Hh w n. specialize (Hm w n). unfold try_except, out_st in *. destruct (m w n) as [[[a|e] w1] n1]; cbn in *.
  - destruct Hm as (? & ? & l & ? & ? & ?). split_and!; [done..|]. exists l. split_and!; [done | lia | done].
  - eapply within_trans; [exact Hm | apply Hh].
Qed.
Lemma sends_weaken {A} j k (m : L A) : (j <= k)%nat -> sends j m -> sends k m.
Proof. intros Hk Hm w n. destruct (Hm w n) as (? & ? & l & ? & ? & ?). split_and!; [done..|]. exists l. split_and!; [done | lia | done]. Qed.

(** ** The steps of a dispatch *)

Lemma keeps_for_each {A} (l : list A) (f : A -> PM unit) : (forall x, keeps_view q (f x)) -> keeps_view q (for_each l f).
Proof. intros Hf. induction l as [|x l IH]; [apply keeps_ret|]. cbn [for_each]. apply keeps_bind; [apply Hf | intros _; exact IH]. Qed.
Lemma keeps_lockout provider seconds : keeps_view q (mark_provider_quota_exhausted wall p provider seconds).
Proof.
  unfold mark_provider_quota_exhausted. apply keeps_bind; [apply keeps_clock | intros now].
  apply keeps_bind; [apply keeps_modify; intros s; by split_and! | intros _]. apply keeps_bind; [apply keeps_gets | intros rs].
  apply keeps_for_each. intros r. unfold when. destruct (same_provider _ r); [|apply keeps_ret].
  apply keeps_bind; [apply keeps_clock | intros t]. apply keeps_modify. intros s. split_and!; try done.
  intros i. apply od_get_set_ne. by apply key_other.
Qed.
Lemma keeps_cooldown id seconds : keeps_view q (mark_cooldown mono p id seconds).
Proof. apply (keeps_op mono wall p q Hpq Hc (OpCooldown id seconds)). Qed.
Lemma keeps_quota id seconds : keeps_view q (mark_quota_exhausted wall p id seconds).
Proof. apply (keeps_op mono wall p q Hpq Hc (OpQuota id seconds)). Qed.
Lemma keeps_deprecate m : keeps_view q (mark_deprecated p m).
Proof. apply (keeps_op mono wall p q Hpq Hc (OpDeprecate m)). Qed.
Lemma keeps_recorded id : keeps_view q (record_route_success mono p id).
Proof. apply (keeps_op mono wall p q Hpq Hc (OpSuccess id)). Qed.
Lemma keeps_chosen : keeps_view q (select_route mono wall p).
Proof. by apply keeps_select. Qed.

Create HintDb sends.
Hint Resolve sends_ret sends_raise sends_get sends_purely sends_classifying sends_pools
  keeps_lockout keeps_cooldown keeps_quota keeps_deprecate keeps_recorded keeps_chosen : sends.
Ltac quiet := repeat first
  [ solve [eauto with sends] | apply sends_quiet; [|intros ?] | case_match ].

Lemma classify_sends error status id provider : sends 0 (classify_api_error wall parse_http_date error status p id provider).
Proof. unfold classify_api_error, when. quiet. Qed.
Lemma clamped_sends payload body : sends 0 (clamped payload body).
Proof. unfold clamped, py_get, py_get_or. quiet. Qed.
Lemma narrowed_sends payload body : sends 0 (narrowed dumps_text dumps_indent json_loads payload body).
Proof. unfold narrowed, pruned. quiet. Qed.
Lemma punish_sends route status headers c : sends 0 (punish mono wall p route status headers c).
Proof. unfold punish. quiet. Qed.
Hint Resolve classify_sends clamped_sends narrowed_sends punish_sends : sends.
Lemma after_failure_sends route payload status headers body :
  sends 0 (after_failure mono wall dumps_text dumps_indent json_loads parse_http_date p route payload status headers body).
Proof. unfold after_failure. quiet. Qed.
Lemma parsed_answer_sends route body : sends 0 (parsed_answer mono wall uuid dumps_ascii json_loads p route body).
Proof. unfold parsed_answer. apply (sends_try 0 0); quiet. Qed.
Hint Resolve after_failure_sends parsed_answer_sends : sends.

Lemma network_sends req timeout : screened environ req = Ok tt -> sends 1 (ask_network security_text network req timeout).
Proof.
  intros Hs w n. cbn. split_and!; [done | apply same_view_refl|]. exists [req]. by split_and!; [|cbn; lia|constructor].
Qed.
Lemma upstream_sends route payload timeout :
  sends 1 (execute_upstream_request environ dumps_text py_repr json_loads security_text network route payload timeout).
Proof.
  unfold execute_upstream_request. apply sends_quiet; [eauto with sends | intros w]. apply sends_quiet; [eauto with sends | intros req].
  destruct (screened environ req) as [[]|e] eqn:E; [by apply network_sends | apply sends_ret].
Qed.
Local Abbreviation attempts := (attempt mono wall environ uuid dumps_text dumps_ascii dumps_indent py_repr json_loads
  parse_http_date security_text network).
Lemma attempt_sends t payload route : sends 1 (attempts t p payload route).
Proof.
  unfold attempt, pruned. apply sends_quiet; [eauto with sends | intros p']. apply sends_quiet; [eauto with sends | intros t'].
  apply (sends_bind 1 0); [apply upstream_sends|]. intros [[status headers] body]. quiet.
Qed.

Local Abbreviation loop := (dispatch_loop mono wall environ uuid dumps_text dumps_ascii dumps_indent py_repr json_loads
  parse_http_date security_text network).
Lemma loop_sends t left payload : sends left (loop t p left payload).
Proof.
  revert payload. induction left as [|left IH]; intros payload; cbn [dispatch_loop]; [apply sends_ret|].
  apply sends_quiet; [eauto with sends | intros [route|]; [|apply sends_ret]].
  apply (sends_bind 1 left); [apply attempt_sends|]. intros [j|payload']; [apply sends_ret | apply IH].
Qed.
Lemma pools_of_bind {A} (m : PM A) w n a w' n' : on_lw_pools m w n = (Ok a, w', n') -> exists s', m (lw_pools w) n = (Ok a, s', n') /\ w' = set_lw_pools s' w.
Proof. unfold on_lw_pools. destruct (m (lw_pools w) n) as [[[b|[]] s] k]. intros [= <- <- <-]. by exists s. Qed.
(** *** Account-wide lockouts

    They are shared by the pools: a dispatch may add those of the providers its own
    routes name, and drops those that have run out. *)
Section lockouts.
Context (routes : list RouteDefinition).

(** The accounts a route stands for: its provider, or what its identifier begins with. *)
Definition accounts_of (r : RouteDefinition) : list string :=
  [py_lower (rt_provider r);
   py_lower (or_text (Some (rt_provider r)) (List.last (split_on ":" (hd "" (split_on "-" (rt_id r)))) ""))].
Definition own (a : string) : Prop := exists r, r ∈ routes /\ a ∈ accounts_of r.
(** From the [n]-th to the [n']-th reading. *)
Definition lockouts_moved (n n' : nat) (s s' : IsolatedPoolManager) : Prop :=
  (n <= n')%nat /\
  (forall a v, (a, v) ∈ account_lockouts s' -> (a, v) ∈ account_lockouts s \/ own a) /\
  (forall a v, (a, v) ∈ account_lockouts s ->
     (a, v) ∈ account_lockouts s' \/ own a \/ exists m, in_run n n' m /\ (v <= wall m)%Q).

Lemma moved_same n n' s s' : (n <= n')%nat -> account_lockouts s' = account_lockouts s -> lockouts_moved n n' s s'.
Proof. intros Hn E. split; [done|]. split; intros a v; rewrite E; auto. Qed.
Lemma moved_trans n1 n2 n3 s1 s2 s3 : lockouts_moved n1 n2 s1 s2 -> lockouts_moved n2 n3 s2 s3 -> lockouts_moved n1 n3 s1 s3.
Proof.
  intros (N1 & A1 & B1) (N2 & A2 & B2). split; [lia|]. split; intros a v H.
  - destruct (A2 a v H); auto.
  - destruct (B1 a v H) as [H1|[?|(m & Hm & ?)]]; [|auto|right; right; exists m; split; [by eapply in_run_widen | done]].
    destruct (B2 a v H1) as [?|[?|(m & Hm & ?)]]; [auto..|right; right; exists m; split; [eapply in_run_widen; [exact Hm|lia..] | done]].
Qed.
Lemma moved_set a t s n : own a -> lockouts_moved n n s (set_lockouts (od_set a t (account_lockouts s)) s).
Proof.
  intros Ho. split; [done|]. split; intros b v H; cbn [account_lockouts set_lockouts] in *.
  - apply od_set_elem in H as [[= -> _]|H]; auto.
  - destruct (decide (b = a)) as [->|Hne]; [auto|]. left. revert H. induction (account_lockouts s) as [|[k x] d IH]; [set_solver|].
    cbn [od_set]. case_decide; set_solver.
Qed.

Definition pool_moves {A} (m : PM A) : Prop := forall s n, lockouts_moved n (out_tick (m s n)) s (out_st (m s n)).
Definition moves {A} (m : L A) : Prop := forall w n, lockouts_moved n (out_tick (m w n)) (lw_pools w) (lw_pools (out_st (m w n))).
Lemma pool_moves_bind {A B} (m : PM A) (k : A -> PM B) : pool_moves m -> (forall a, pool_moves (k a)) -> pool_moves (mbind k m).
Proof.
  intros Hm Hk s n. specialize (Hm s n). unfold mbind, M_bind, out_st, out_tick in *. destruct (m s n) as [[[a|[]] s1] n1].
  eapply moved_trans; [exact Hm | apply Hk].
Qed.
Lemma pool_moves_same {A} (m : PM A) : ticking m -> (forall s n, account_lockouts (out_st (m s n)) = account_lockouts s) -> pool_moves m.
Proof. intros Ht H s n. apply moved_same; [apply Ht | apply H]. Qed.
Lemma moves_bind {A B} (m : L A) (k : A -> L B) : moves m -> (forall a, moves (k a)) -> moves (mbind k m).
Proof.
  intros Hm Hk w n. specialize (Hm w n). unfold mbind, M_bind, out_st, out_tick in *. destruct (m w n) as [[[a|e] w1] n1]; [|exact Hm].
  eapply moved_trans; [exact Hm | apply Hk].
Qed.
Lemma moves_still {A} (m : L A) : ticking m -> (forall w n, lw_pools (out_st (m w n)) = lw_pools w) -> moves m.
Proof. intros Ht H w n. apply moved_same; [apply Ht | by rewrite H]. Qed.
Lemma moves_ret {A} (a : A) : moves (mret a).
Proof. apply moves_still; [ticks | done]. Qed.
Lemma moves_raise {A} e : moves (raise e : L A).
Proof. apply moves_still; [ticks | done]. Qed.
Lemma moves_get : moves (get : L LegacyWorld).
Proof. apply moves_still; [ticks | done]. Qed.
Lemma moves_purely {A} (m : M dyn_error unit A) : ticking m -> moves (purely m).
Proof.
  intros Ht. apply moves_still; intros w n; unfold purely; specialize (Ht tt n); by destruct (m tt n) as [[r u] n'].
Qed.
Lemma moves_classifying {A} (m : M exn unit A) : ticking m -> moves (classifying m).
Proof.
  intros Ht. apply moves_still; intros w n; unfold classifying; specialize (Ht tt n); by destruct (m tt n) as [[[a|e] u] n'].
Qed.
Lemma moves_pools {A} (m : PM A) : pool_moves m -> moves (on_lw_pools m).
Proof. intros Hm w n. specialize (Hm (lw_pools w) n). unfold on_lw_pools. by destruct (m (lw_pools w) n) as [[[a|[]] s] n']. Qed.
Lemma moves_try {A} (m h : L A) : moves m -> moves h -> moves (try_except m h).
Proof.
  intros Hm Hh w n. specialize (Hm w n). unfold try_except, out_st, out_tick in *. destruct (m w n) as [[[a|e] w1] n1]; [exact Hm|].
  eapply moved_trans; [exact Hm | apply Hh].
Qed.

Lemma moved_expiry pool tm m n n' s : in_run n n' m -> lockouts_moved n n' s (after_expiry pool tm (wall m) s).
Proof.
  intros Hm. split; [unfold in_run in Hm; lia|]. split; intros a v H; unfold after_expiry in *; cbn [account_lockouts set_lockouts] in *.
  - by apply list_elem_of_filter in H as [_ H]; left.
  - destruct (Qle_bool v (wall m)) eqn:E; [right; right; exists m; split; [done | by apply Qle_bool_true] | left; by apply list_elem_of_filter].
Qed.
Lemma filter_m_still {A} (f : A -> PM bool) l : (forall x s n, out_st (f x s n) = s) -> forall s n, out_st (filter_m f l s n) = s.
Proof.
  intros Hf. induction l as [|x l IH]; intros s n; [done|]. cbn [filter_m]. unfold mbind, M_bind, out_st in *.
  specialize (Hf x s n). destruct (f x s n) as [[[b|[]] s1] n1]. cbn in Hf. subst s1.
  specialize (IH s n1). destruct (filter_m f l s n1) as [[[rest|[]] s2] n2]. exact IH.
Qed.
Lemma ticking_filter {A} (f : A -> PM bool) l : (forall x, ticking (f x)) -> ticking (filter_m f l).
Proof. intros Hf. induction l as [|x l IH]; cbn [filter_m]; ticks. Qed.
Lemma ticking_admits now r : ticking (admits wall p now r).
Proof. unfold admits, is_route_quota_exhausted. ticks. Qed.
Lemma candidates_move : pool_moves (get_candidate_routes mono wall p).
Proof.
  unfold get_candidate_routes. apply pool_moves_bind; [intros s n; rewrite expire_runs; apply moved_expiry; unfold in_run; cbn; lia | intros _].
  apply pool_moves_same; [ticks; apply ticking_filter; apply ticking_admits|]. intros s n. unfold gets, read_clock, mbind, M_bind, out_st. cbn [fst snd].
  f_equal. apply (filter_m_still (admits wall p (mono n))). intros x s' n'.
  unfold admits, is_route_quota_exhausted, get, read_clock, gets, mbind, M_bind, out_st. destruct (negb _); [done|]. cbn. by destruct (quota_locked _ _ _ _ _).
Qed.
Lemma select_moves : pool_moves (select_route mono wall p).
Proof.
  assert (forall cs s n, account_lockouts (out_st (round_robin p cs s n)) = account_lockouts s) as Hr
    by (intros cs s n; unfold round_robin, get, modify, mbind, M_bind, out_st, set_pool_index; cbn [fst snd]; by destruct (is_coding p)).
  unfold select_route. apply pool_moves_bind; [apply candidates_move | intros first]. apply pool_moves_bind.
  - destruct first; [|apply pool_moves_same; [ticks | done]]. apply pool_moves_bind; [apply pool_moves_same; [ticks | done] | intros s].
    destruct (oldest_cooldown p s); [|apply pool_moves_same; [ticks | done]].
    apply pool_moves_bind; [apply pool_moves_same; [ticks | done] | intros _; apply candidates_move].
  - intros [|c cs]; apply pool_moves_same; [ticks | done | unfold choose_route, round_robin; ticks|]. intros s n. unfold choose_route, get, mbind, M_bind. cbn [fst snd].
    destruct (od_get _ _); [|apply Hr]. destruct (truthy _); [|apply Hr]. unfold read_clock. destruct (sticky_route _ _ _ _); [done | apply Hr].
Qed.
Lemma lockout_moves provider seconds : own (py_lower provider) -> pool_moves (mark_provider_quota_exhausted wall p provider seconds).
Proof.
  intros Ho. unfold mark_provider_quota_exhausted. apply pool_moves_bind; [apply pool_moves_same; [ticks | done] | intros now].
  apply pool_moves_bind; [intros s n; by apply moved_set | intros _]. apply pool_moves_bind; [apply pool_moves_same; [ticks | done] | intros rs].
  induction rs as [|r rs IH]; cbn [for_each]; [apply pool_moves_same; [ticks | done]|]. apply pool_moves_bind; [|intros _; exact IH].
  apply pool_moves_same; [unfold when; ticks|]. intros s n. unfold when. by destruct (same_provider _ r).
Qed.
Lemma quiet_moves (m : PM unit) : ticking m -> (forall s n, account_lockouts (out_st (m s n)) = account_lockouts s) -> moves (on_lw_pools m).
Proof. intros Ht H. by apply moves_pools, pool_moves_same. Qed.
Lemma cooldown_moves id seconds : moves (on_lw_pools (mark_cooldown mono p id seconds)).
Proof. apply quiet_moves; [unfold mark_cooldown, mark_quota_exhausted, record_route_success; ticks | done]. Qed.
Lemma quota_moves id seconds : moves (on_lw_pools (mark_quota_exhausted wall p id seconds)).
Proof. apply quiet_moves; [unfold mark_cooldown, mark_quota_exhausted, record_route_success; ticks | done]. Qed.
Lemma deprecate_moves m : moves (on_lw_pools (mark_deprecated p m)).
Proof. apply quiet_moves; [unfold mark_deprecated; ticks|]. intros s n. cbn. by case_bool_decide. Qed.
Lemma success_moves id : moves (on_lw_pools (record_route_success mono p id)).
Proof. apply quiet_moves; [unfold mark_cooldown, mark_quota_exhausted, record_route_success; ticks | done]. Qed.

Lemma ticking_timeout provider payload t : ticking (calculate_adaptive_timeout py_repr provider payload t).
Proof. unfold calculate_adaptive_timeout. ticks. Qed.
Lemma ticking_request (b : bool) route key payload :
  ticking (if b then gemini_request dumps_text py_repr json_loads route key payload else chat_request dumps_text route key payload).
Proof.
  assert (forall d o, ticking (int_or d o)) as Hi by (intros d o; unfold int_or; ticks).
  unfold gemini_request, chat_request. destruct b; [apply ticking_bind; [apply ticking_to_gemini | intros fs]|]; ticks.
Qed.
Lemma ticking_midnight : ticking (calculate_seconds_until_utc_midnight wall : M exn unit Q).
Proof. unfold calculate_seconds_until_utc_midnight. ticks. Qed.
Create HintDb moves.
Hint Resolve ticking_prune ticking_timeout ticking_request ticking_midnight ticking_from_gemini ticking_classify : moves.
Hint Resolve moves_ret moves_raise moves_get moves_purely moves_classifying moves_pools lockout_moves cooldown_moves quota_moves
  deprecate_moves success_moves : moves.
Ltac moving := repeat first [ solve [eauto with moves] | apply moves_bind; [|intros ?] | case_match ].

Lemma attempt_moves t payload route : route ∈ routes -> moves (attempts t p payload route).
Proof.
  intros Hr. assert (own (py_lower (rt_provider route))) as Ho1 by (exists route; split; [done|]; unfold accounts_of; set_solver).
  assert (own (py_lower (or_text (Some (rt_provider route)) (List.last (split_on ":" (hd "" (split_on "-" (rt_id route)))) "")))) as Ho2
    by (exists route; split; [done|]; unfold accounts_of; set_solver).
  unfold attempt, pruned. apply moves_bind; [eauto with moves | intros p']. apply moves_bind; [eauto with moves | intros t'].
  apply moves_bind.
  { unfold execute_upstream_request. apply moves_bind; [eauto with moves | intros w]. apply moves_bind; [eauto with moves | intros req].
    destruct (screened environ req); [|eauto with moves]. apply moves_still; [|done].
    unfold ask_network. ticks. intros ? ?. unfold out_tick. cbn. lia. }
  intros [[status headers] body]. apply moves_bind; [destruct (_ =? _)%Z; [|eauto with moves]; unfold parsed_answer; apply moves_try; moving|].
  intros [j|]; [eauto with moves|]. apply moves_bind; [|eauto with moves].
  unfold after_failure, classify_api_error, clamped, narrowed, pruned, punish, py_get, py_get_or, when. moving.
Qed.
Lemma loop_moves t left payload w n : routes_of p (lw_pools w) = routes ->
  lockouts_moved n (out_tick (loop t p left payload w n)) (lw_pools w) (lw_pools (out_st (loop t p left payload w n))).
Proof.
  revert payload w n. induction left as [|left IH]; intros payload w n Hr; cbn [dispatch_loop]; [by apply moved_same|].
  pose proof (moves_pools _ select_moves w n) as M1. pose proof (sends_pools 0 _ keeps_chosen w n) as (_ & V1 & _).
  unfold mbind, M_bind, out_st, out_tick in *. destruct (on_lw_pools (select_route mono wall p) w n) as [[[o|e] w1] n1] eqn:E1; [|exact M1]. cbn in M1, V1.
  destruct o as [route|]; [|exact M1]. assert (routes_of p (lw_pools w1) = routes) as Hr1.
  { destruct V1 as (_ & _ & Ec & Ea & _). rewrite <- Hr. unfold routes_of. by rewrite Ec, Ea. }
  assert (route ∈ routes) as Hin by (apply pools_of_bind in E1 as (s1 & E1 & _); rewrite <- Hr; by eapply select_of_pool).
  pose proof (attempt_moves t payload route Hin w1 n1) as M2. pose proof (attempt_sends t payload route w1 n1) as (_ & V2 & _).
  unfold out_st, out_tick in *. destruct (attempts t p payload route w1 n1) as [[[x|e] w2] n2]; cbn in M2, V2; [|by eapply moved_trans].
  destruct x as [j|payload']; [by eapply moved_trans|]. eapply moved_trans; [exact M1|]. eapply moved_trans; [exact M2|]. apply IH.
  destruct V2 as (_ & _ & Ec & Ea & _). rewrite <- Hr1. unfold routes_of. by rewrite Ec, Ea.
Qed.
End lockouts.

Lemma loop_route t left payload w n j route w' n' :
  loop t p left payload w n = (Ok (Some (j, route)), w', n') -> route ∈ routes_of p (lw_pools w).
Proof.
  revert payload w n. induction left as [|left IH]; intros payload w n; cbn [dispatch_loop]; [done|].
  intros (o & w1 & n1 & H1 & H)%bind_inv. pose proof (sends_pools 0 _ keeps_chosen w n) as Hv. rewrite H1 in Hv.
  apply pools_of_bind in H1 as (s1 & H1 & _). destruct o as [r|]; [|done]. apply bind_inv in H as (x & w2 & n2 & H2 & H).
  pose proof (attempt_sends t payload r w1 n1) as Hv2. rewrite H2 in Hv2. destruct (within_trans _ _ _ _ _ Hv Hv2) as (_ & V & _).
  destruct x as [j'|payload'].
  - injection H as _ <- _ _. by eapply select_of_pool.
  - apply IH in H. destruct V as (_ & _ & Ec & Ea & _). cbn in Ec, Ea. revert H. unfold routes_of. by rewrite Ec, Ea.
Qed.
End frames.

(** ** Claims *)


(** A pool of two keyed routes on different hosts; the first succeeded a moment ago. *)
Definition host_route (id model host key : string) : RouteDefinition := cloud_route id id model "coding" host key 131072 4096.
Definition alpha : RouteDefinition := host_route "alpha" "a-1" "https://alpha.example/v1" "ALPHA_KEY".
Definition beta : RouteDefinition := host_route "beta" "b-1" "https://beta.example/v1" "BETA_KEY".
Definition two_hosts : LegacyWorld :=
  {| lw_router := {| lr_default_pool := "coding"; lr_allowed := None; fallback_chain := []; provider_cooldowns := []; deprecated_models := [];
                     auth_failed_providers := []; fallback_index := -1 |};
     lw_pools := set_success [("coding", "alpha")] [("coding", 0%Q)]
                   (set_routes [alpha; beta] [] (new_pool_manager None [("ALPHA_KEY", "k1"); ("BETA_KEY", "k2")]));
     lw_sent := [] |}.
(** The first host answers with [code] and [body], the second with an empty object. *)
Definition refusing (code : Z) (body : string) (r : sent_request) (_ : Q) (_ : nat) : net_answer :=
  if starts_with "https://alpha" (sr_url r) then NetHttpError code [] body else NetResponse 200 [] "{}".
Definition hello : json := JObj [("messages", JArr [JObj [("role", JStr "user"); ("content", JStr "hello")]])].
Definition demo_dumps (j : json) : string := JsonText.dumps (fun _ => "0.5") j.
Definition demo_dispatch (code : Z) (body : string) (attempts : nat) :=
  dispatch tick_clock tick_clock (fun _ => None) (fun _ => "u") demo_dumps demo_dumps demo_dumps (fun _ => "") JsonText.loads
    (fun _ => None) (fun _ => "blocked") (refusing code body) 120 "coding" hello attempts two_hosts 0%nat.
Definition urls (w : LegacyWorld) : list string := map sr_url (lw_sent w).


(** A rejected key pins the dispatch to its route.  The classifier files a 401 as
    permanent and deprecates the route's id, which is compared with model names
    and so excludes nothing, and the dispatch has no branch for it: a route that
    succeeded recently is tried on all eight attempts and the caller gets 503 while
    another route of the pool answers.  An overloaded route is left after one. *)
Theorem rejected_key_pins_route :
  (let run := demo_dispatch 401 "invalid api key" 8 in
   out_res run = Ok (503%Z, unavailable "coding", None) /\ urls (out_st run) = replicate 8 "https://alpha.example/v1/chat/completions" /\
   deprecated (lw_pools (out_st run)) = [("coding", "alpha")] /\ cooldowns (lw_pools (out_st run)) = []) /\
  (let run := demo_dispatch 503 "overloaded" 8 in
   out_res run = Ok (200%Z, JObj [], Some beta) /\
   urls (out_st run) = ["https://alpha.example/v1/chat/completions"; "https://beta.example/v1/chat/completions"]).
Proof. by vm_compute. Qed.

End LegacyRouterProps.
