(* ===== verification/Proxy.v ===== *)
(** * HTTP proxy: the server

    [src/durallm/proxy.py]: what each request does to the gateway and what it is
    answered.  The standard-library handler and the ASGI application are both
    modelled.  The state is the gateway, the canary's scheduler and its ledger
    file.  A request handler that raises gives no answer: the connection is
    dropped (or, under ASGI, answered by the framework).  [None] marks a run whose
    fuel ended.  A body whose model is no text is outside the model.  Sockets are left
    out.  A client of a native stream may leave: [client] is the
    number of chunks after which it does. *)

From stdpp Require Import base tactics list gmap strings.
From Stdlib Require Import QArith Qround Ascii.
From S2P Require Import Prelude Json Models PyText Utf8 PyDyn Observability Security Execution Metrics Breaker Registry Profile Telemetry Requirements Router Pools SqliteStore DurableLedger ToolLedger ToolValidation Classifier IR Context Continuation ContinuationSqlite Interfaces Executor ExecutorStream Gateway Sse CodecAnthropic CodecOpenAI Pruner Canary Mcp ProxyWire.

(** ** Replies *)

Inductive reply_body : Type := JsonBody (j : json) | StreamBody (chunks : list string) | NoBody.
Record http_reply : Type := { rp_status : Z; rp_headers : http_headers; rp_body : reply_body }.

Record Server (T A C : Type) : Type := {
  sv_gateway : ProxyGateway T A C;
  sv_canary : NightlyCanaryScheduler;
  sv_ledger_file : ledger_file;
}.
Arguments sv_gateway {T A C}. Arguments sv_canary {T A C}. Arguments sv_ledger_file {T A C}.

(** Which protocol a generation endpoint speaks. *)
Inductive wire_api : Type := AnthropicApi | OpenAIApi.
Definition api_protocol (a : wire_api) : string := match a with AnthropicApi => "anthropic" | OpenAIApi => "openai" end.
Definition default_model (a : wire_api) : string := match a with AnthropicApi => "auto-coding-agent" | OpenAIApi => "hermes-default" end.
(** [body.get("model", default)]; a model that is no text is outside the model. *)
Definition requested_model {S} (a : wire_api) (body : odict string json) : M dyn_error S string :=
  want_str (default (JStr (default_model a)) (od_get "model" body)).
Definition api_pool (a : wire_api) (model : string) : string := match a with AnthropicApi => "coding" | OpenAIApi => pool_for_model model end.
Definition error_object (kind message : string) : json := JObj [("type", JStr kind); ("message", JStr message)].
Definition error_body (a : wire_api) (kind message : string) : json :=
  match a with
  | AnthropicApi => JObj [("type", JStr "error"); ("error", error_object kind message)]
  | OpenAIApi => JObj [("error", error_object kind message)]
  end.
Definition plain_error (message : string) : json := JObj [("error", JObj [("message", JStr message)])].

Definition dyn_exn (e : dyn_error) : exn :=
  RuntimeError (match e with
    | AttributeError => "AttributeError" | TypeError => "TypeError" | PyDyn.KeyError => "KeyError"
    | IndexError => "IndexError" | Untyped => "untyped" end).

Definition with_request_id (id : option string) (r : NormalizedRequest) : NormalizedRequest :=
  match id with
  | None => r
  | Some rid =>
      {| request_id := rid; req_model := req_model r; messages := messages r; system_instruction := system_instruction r;
         tools := tools r; req_max_output_tokens := req_max_output_tokens r; temperature := temperature r; stream := stream r;
         system_cache_control := system_cache_control r; tool_choice := tool_choice r; req_metadata := req_metadata r |}
  end.

(** [ToolExecutionRecord.to_dict] *)
Definition record_to_dict (r : ToolExecutionRecord) : json :=
  JObj [("tool_call_id", JStr (tool_call_id r)); ("logical_operation_id", JStr (logical_operation_id r)); ("tool_name", JStr (tool_name r));
        ("arguments_hash", JStr (arguments_hash r)); ("arguments", arguments r); ("status", JStr (status_value (status r)));
        ("execution_receipt", default JNull (execution_receipt r)); ("created_at", JFloat (created_at r));
        ("updated_at", JFloat (updated_at r)); ("error_message", opt_str (error_message r))].

(** What a turn was answered. *)
Record served : Type := {
  srv_status : Z;
  srv_body : json;
  srv_route : option Endpoint;
  srv_event : option ContinuationEvent;
  srv_headers : http_headers;
}.

Section server.
Context {R : Runtime} {T A C : Type} `{TL : ToolLedgerOps T} `{TR : ToolRunnerOps T} `{AS : AttemptStoreOps A} `{CO : ContinuationStore C}.
Context (adapters : odict string ProviderAdapter) (stream_adapters : odict string StreamAdapter).
(** [json.dumps(ensure_ascii=False)], [str] of values that are not texts, and the
    status code of the classification a non-recoverable failure carries. *)
Context (dumps_text py_repr : json -> string) (failure_status : exn -> option Z).
Context (fuel : nat).
Local Abbreviation S := (M exn (Server T A C)).

Definition on_gateway {B} (m : M exn (ProxyGateway T A C) B) : S B :=
  zoom sv_gateway (fun g s => {| sv_gateway := g; sv_canary := sv_canary s; sv_ledger_file := sv_ledger_file s |}) m.
Definition from_dyn {B} (m : M dyn_error unit B) : S B := fun s n =>
  match m tt n with (Ok b, _, n') => (Ok b, s, n') | (Raise e, _, n') => (Raise (dyn_exn e), s, n') end.
Definition on_tool_ledger {B} (m : M exn T B) : S B := on_gateway (on_executor (zoom tool_ledger set_tool_ledger m)).

(** [str(exc)] *)
Definition message_of (e : exn) : string := err_str (describe e).
Definition error_of (e : exn) : Z * string := http_error_for e (failure_status e).

Definition send_json (status : Z) (data : json) (extra : http_headers) : http_reply :=
  {| rp_status := status;
     rp_headers := [("Content-Type", "application/json"); ("Content-Length", py_str_nat (String.length (dumps_text data)));
                    ("Access-Control-Allow-Origin", "*"); ("Connection", "close")] ++ extra;
     rp_body := JsonBody data |}.
Definition sse_reply (headers : http_headers) (chunks : list string) : http_reply :=
  {| rp_status := 200;
     rp_headers := [("Content-Type", "text/event-stream"); ("Cache-Control", "no-cache"); ("Connection", "close")] ++ headers;
     rp_body := StreamBody chunks |}.

Definition sender : Type := Z -> json -> http_headers -> http_reply.

(** ** Turns *)

Definition decode_request (a : wire_api) (body : odict string json) : M dyn_error unit NormalizedRequest :=
  match a with
  | AnthropicApi => anthropic_request_to_ir py_repr dumps_text uuids (JObj body)
  | OpenAIApi => openai_request_to_ir py_repr dumps_text loads uuids (JObj body)
  end.
Definition encode_response (a : wire_api) (r : NormalizedResponse) (model : string) : M dyn_error unit (odict string json) :=
  match a with
  | AnthropicApi =>
      j ← ir_to_anthropic_response uuids r model;
      match j with JObj fs => mret fs | _ => raise TypeError end
  | OpenAIApi =>
      now ← read_clock wall;
      match ir_to_openai_response dumps_text (Qfloor now) r model with JObj fs => mret fs | _ => raise TypeError end
  end.

(** [serve_messages], [serve_chat_completions] *)
Definition serve_turn (a : wire_api) (body : odict string json) (continuation : option ContinuationRequest) (op : option string)
    : S (option served) :=
  model ← from_dyn (requested_model a body);
  o ← catch
        (r ← from_dyn (decode_request a body);
         out ← on_gateway (gateway_complete_turn adapters fuel (with_request_id op r) (api_pool a model) continuation);
         mret (inl out))
        is_GatewayError
        (fun e => mret (inr {| srv_status := fst (error_of e); srv_body := error_body a (snd (error_of e)) (message_of e);
                               srv_route := None; srv_event := None; srv_headers := [] |}));
  match o with
  | inr failed => mret (Some failed)
  | inl None => mret None
  | inl (Some (response, decision, ledger, event)) =>
      let '(headers, meta) := build_failover_telemetry model decision ledger in
      fs ← from_dyn (encode_response a response model);
      let fs := match meta with Some m => od_set "lcb_failover" m fs | None => fs end in
      mret (Some {| srv_status := 200; srv_body := JObj (attach_tool_operation_metadata fs response);
                    srv_route := selected_endpoint decision; srv_event := event; srv_headers := headers |})
  end.

(** [ProxyGateway.open_native_stream] and the two functions that call it. *)
Definition gateway_open_native_stream (r : NormalizedRequest) (pool client_protocol : string) : M exn (ProxyGateway T A C) (option NativeStreamHandle) :=
  sync_endpoints ;;
  g ← get;
  finally_do (on_executor (open_native_stream stream_adapters fuel r pool (Some "priority") (pm_keys (pool_manager g)) client_protocol 300000))
    deliver_pool_calls.
Definition open_native (a : wire_api) (body : odict string json) (op : option string) : S (option NativeStreamHandle) :=
  model ← from_dyn (requested_model a body);
  r ← from_dyn (decode_request a body);
  on_gateway (gateway_open_native_stream (with_request_id op r) (api_pool a model) (api_protocol a)).

(** What a relay sees of the iteration: the chunks, and the exception that ended it, if
    any.  An exception of the report that ends the iteration takes the place of the one
    reported, unless the client has left: then the iterator is closed behind its back. *)
Definition relay_view (h : NativeStreamHandle) (client : option nat) : S (list string * option error_value * option NativeStreamHandle) := fun s n =>
  match on_gateway (on_executor (handle_iter_bytes h client)) s n with
  | (Ok (chunks, ending, h'), s', n') => (Ok (chunks, sb_error <$> ending, Some h'), s', n')
  | (Raise x, s', n') =>
      let '(chunks, ending) := relayed h client in
      let left := match ending with Some b => String.eqb (err_type (sb_error b)) "GeneratorExit" | None => false end in
      (Ok (chunks, if left then sb_error <$> ending else Some (describe x), None), s', n')
  end.
Definition is_exit (e : error_value) : bool := String.eqb (err_type e) "GeneratorExit".

(** [_emit_native_stream]: the bytes the client gets.  A break of the provider is
    announced if a chunk was visible; a client that left is told nothing. *)
Definition relay_stream (a : wire_api) (h : NativeStreamHandle) (client : option nat) : S (list string) :=
  out ← relay_view h client;
  let '(chunks, ending, _) := out in
  mret (chunks ++ match ending with
    | Some e =>
        let visible := match chunks with [] => false | _ => true end in
        if is_exit e || negb visible then [] else [interruption_sse dumps_text (api_protocol a) (err_str e) (ep_id (h_endpoint h))]
    | None => []
    end).

(** [native_stream_chunks]: the generator of the ASGI application, and the handle it
    leaves; [except Exception] does not see the closing of the generator, and what did not
    complete is cancelled in the [finally] clause. *)
Definition native_stream_chunks (a : wire_api) (h : NativeStreamHandle) (client : option nat) : S (list string * option NativeStreamHandle) :=
  out ← relay_view h client;
  let '(chunks, ending, h') := out in
  match ending with
  | None => mret (chunks, h')
  | Some e =>
      let announced := if is_exit e then chunks
                       else chunks ++ [interruption_sse dumps_text (api_protocol a) (err_str e) (ep_id (h_endpoint h))] in
      mret (announced, handle_cancel "ASGI downstream stream ended" <$> h')
  end.

(** ** Endpoints *)

(** What the action does to a known call. *)
Definition apply_action (body : odict string json) (id action : string) : S unit :=
  if String.eqb action "submit" then on_tool_ledger (tr_mark_submitted id)
  else if String.eqb action "commit" then
    match od_get "receipt" body with
    | Some (JObj receipt) => on_tool_ledger (tr_mark_committed id (JObj receipt))
    | _ => raise (ToolOperationProtocolError 400)
    end
  else if String.eqb action "indeterminate" then
    on_tool_ledger (tl_mark_indeterminate id (py_str py_repr (default (JStr "Lost tool acknowledgement") (od_get "reason" body))))
  else raise (ToolOperationProtocolError 404).
(** [update_tool_operation] *)
Definition update_tool_operation (body : odict string json) (action : string) : S json :=
  match od_get "ledger_call_id" body with
  | Some (JStr (String _ _ as id)) =>
      known ← on_tool_ledger (tr_get_record id);
      match known with
      | None => raise (ToolOperationProtocolError 404)
      | Some _ =>
          apply_action body id action ;;
          record ← on_tool_ledger (tr_get_record id);
          match record with
          | None => raise (ToolOperationProtocolError 409)
          | Some rec => mret (JObj [("tool_operation", record_to_dict rec)])
          end
      end
  | _ => raise (ToolOperationProtocolError 400)
  end.
(** Any exception is answered: a gateway error with its status, others with 409. *)
Definition post_tool_operation (send : sender) (body : json) (action : string) : S http_reply :=
  catch
    (fs ← (match body with JObj fs => mret fs | _ => raise attribute_error_exn end);
     result ← update_tool_operation fs action;
     mret (send 200%Z result []))
    (fun _ => true)
    (fun e => mret (if is_GatewayError e then send (fst (error_of e)) (JObj [("error", error_object (snd (error_of e)) (message_of e))]) []
                    else send 409%Z (JObj [("error", error_object "tool_operation_protocol_error" (message_of e))]) [])).

(** [/v1/continuations/ack]; a missing or malformed epoch is a client error. *)
Definition post_ack (send : sender) (body : json) : S http_reply :=
  fs ← (match body with JObj fs => mret fs | _ => raise attribute_error_exn end);
  let text k := py_str py_repr (default (JStr "") (od_get k fs)) in
  match out_res ((e ← py_get "epoch" (JObj fs); int_of e) tt 0%nat) with
  | Raise e => mret (send 400%Z (JObj [("error", error_object "continuation_protocol_error" (message_of (dyn_exn e)))]) [])
  | Ok epoch =>
      catch
        (event ← on_gateway (acknowledge_continuation (text "session_id") (text "turn_id") epoch (text "checkpoint_digest"));
         mret (send 200%Z (JObj [("continuation", event_to_dict event)]) (continuation_headers (Some event))))
        (fun e => is_GatewayError e || match e with ValueError _ => true | _ => false end)
        (fun e => let '(status, kind) := if is_GatewayError e then error_of e else (400%Z, "continuation_protocol_error") in
                  mret (send status (JObj [("error", error_object kind (message_of e))]) []))
  end.

(** The MCP endpoint makes a proxy of its own for every request, without tools. *)
Definition on_mcp {B} (m : M exn (McpWorld T) B) : S B := on_tool_ledger (fun t n =>
  let '(r, w, n') := m {| mw_ledger := t; mw_effects := [] |} n in (r, mw_ledger w, n')).
Definition post_mcp (send : sender) (body : json) (hs : http_headers) : S http_reply :=
  reply ← on_mcp (handle_json_rpc dumps_text py_repr (new_mcp_proxy [] None) body (foldl (fun d kv => od_set (fst kv) (snd kv) d) [] hs));
  let '(status, resp, headers) := reply in
  mret (send status resp headers).

Definition ACP_STREAM_MESSAGE : string := "ACP turns require atomic_buffered streaming until checkpoint completion is stream-aware".

(** A request for a native stream, after the mode was read; each server has a relay of
    its own. *)
Definition native_headers (endpoint : string) : http_headers :=
  [("X-LCB-Streaming-Mode", "true_streaming"); ("X-LCB-Selected-Endpoint", endpoint)].
Definition post_native (send : sender) (stream_reply : http_headers -> list string -> http_reply)
    (relay : wire_api -> NativeStreamHandle -> option nat -> S (list string)) (a : wire_api) (body : odict string json)
    (continuation : option ContinuationRequest) (op : option string) (client : option nat) : S (option http_reply) :=
  match continuation with
  | Some _ => mret (Some (send 409%Z (error_body a "continuation_protocol_error" ACP_STREAM_MESSAGE) []))
  | None =>
      o ← catch (h ← open_native a body op; mret (inl h)) is_GatewayError
            (fun e => mret (inr (send (fst (error_of e)) (error_body a (snd (error_of e)) (message_of e)) [])));
      match o with
      | inr failed => mret (Some failed)
      | inl None => mret None
      | inl (Some h) =>
          chunks ← relay a h client;
          mret (Some (stream_reply (native_headers (ep_id (h_endpoint h))) chunks))
      end
  end.

(** [/v1/messages] and [/v1/chat/completions] *)
Definition synthetic_frames (a : wire_api) (body : odict string json) (resp : json) : S (list string) :=
  match a with
  | AnthropicApi => from_dyn (emit_synthetic_anthropic_stream dumps_text resp)
  | OpenAIApi =>
      now ← read_clock wall;
      from_dyn (emit_synthetic_openai_stream dumps_text (Qfloor now) resp (default (JStr "hermes-default") (od_get "model" body)))
  end.
Definition wants_stream (body : odict string json) : bool := jtruthy (default (JBool false) (od_get "stream" body)).
Definition post_generation (a : wire_api) (body : json) (hs : http_headers) (continuation : option ContinuationRequest) (op : option string)
    (client : option nat) : S (option http_reply) :=
  fs ← (match body with JObj fs => mret fs | _ => raise attribute_error_exn end);
  match streaming_mode_from_request py_repr fs hs with
  | Raise e => mret (Some (send_json (fst (error_of e)) (error_body a (snd (error_of e)) (message_of e)) []))
  | Ok mode =>
      if wants_stream fs && match mode with TRUE_STREAMING => true | ATOMIC_BUFFERED => false end
      then post_native send_json sse_reply relay_stream a fs continuation op client
      else
        o ← serve_turn a fs continuation op;
        match o with
        | None => mret None
        | Some sv =>
            let headers := foldl (fun d kv => od_set (fst kv) (snd kv) d) (continuation_headers (srv_event sv)) (srv_headers sv) in
            if (srv_status sv =? 200)%Z && wants_stream fs then
              frames ← synthetic_frames a fs (srv_body sv);
              mret (Some (sse_reply headers frames))
            else mret (Some (send_json (srv_status sv) (srv_body sv) headers))
        end
  end.

(** ** POST *)

Definition TOOL_OPERATION_ACTIONS : odict string string :=
  [("/v1/tool-operations/submit", "submit"); ("/v1/tool-operations/commit", "commit"); ("/v1/tool-operations/indeterminate", "indeterminate")].
Definition path_in (path : string) (l : list string) : bool := existsb (String.eqb path) l.

(** The canary run an operator asks for: its world is the gateway's pools. *)
Definition post_canary (now_iso : string) (keys : odict string string) (catalog : option json) (answer : string -> string -> probe_answer) : S http_reply :=
  fun s n =>
    let g := sv_gateway s in
    match run_probe true now_iso keys mono catalog answer {| cw_file := sv_ledger_file s; cw_pools := pool_manager g |} n with
    | (r, w, n') =>
        let s' scheduler := {| sv_gateway := set_pools (cw_pools w) g; sv_canary := scheduler; sv_ledger_file := cw_file w |} in
        match r with
        | Ok result => (Ok (send_json 200 result []), s' (trigger_now result (sv_canary s)), n')
        | Raise e => (Raise (dyn_exn e), s' (sv_canary s), n')
        end
    end.

(** [int(self.headers.get("Content-Length", 0))] *)
Definition content_length (hs : http_headers) : option Z :=
  match hget "Content-Length" hs with Some v => py_int v | None => Some 0%Z end.
(** The bytes read of what the client sent, and their JSON. *)
Definition read_body (len : Z) (sent : string) : string := if (0 <? len)%Z then str_take (Z.to_nat len) sent else "{}".
Definition parse_body (raw : string) : option json :=
  if truthy raw then match utf8_decode raw with Some t => loads t | None => None end else Some (JObj []).

(** After the body was parsed. *)
Definition route_post (canary : S http_reply) (path : string) (hs : http_headers) (body : json) (client : option nat) : S (option http_reply) :=
  let some m : S (option http_reply) := (x ← m; mret (Some x)) in
  if String.eqb path "/admin/canary/run" then some canary
  else if String.eqb path "/v1/continuations/ack" then some (post_ack send_json body)
  else match od_get path TOOL_OPERATION_ACTIONS with
  | Some action => some (post_tool_operation send_json body action)
  | None =>
      if path_in path ["/v1/mcp"; "/mcp"; "/v1/mcp/tools/call"] then some (post_mcp send_json body hs)
      else
        match continuation_request_from_headers hs, logical_operation_id_from_headers hs with
        | Raise e, _ | Ok _, Raise e => mret (Some (send_json (fst (error_of e)) (JObj [("error", error_object (snd (error_of e)) (message_of e))]) []))
        | Ok continuation, Ok op =>
            if path_in path ["/v1/messages/count_tokens"; "/messages/count_tokens"]
            then mret (Some (send_json 200 (JObj [("input_tokens", JInt (payload_tokens dumps body))]) []))
            else if path_in path ["/v1/messages"; "/messages"] then post_generation AnthropicApi body hs continuation op client
            else if path_in path ["/v1/chat/completions"; "/chat/completions"] then post_generation OpenAIApi body hs continuation op client
            else mret (Some (send_json 404 (plain_error ("POST endpoint " ++ path ++ " not found")) []))
        end
  end.

Definition limit_text (size : Z) : string :=
  ("Security violation: Request/Response size (" ++ py_str_int size ++ " bytes) exceeds limit (" ++ py_str_int MAX_PAYLOAD_BYTES ++ " bytes).")%string.
(** [do_POST]; [json_text] is the text of the parser's exception. *)
Definition do_POST (canary : S http_reply) (json_text : string -> string)
    (path : string) (hs : http_headers) (sent : string) (client : option nat) : S (option http_reply) :=
  match content_length hs with
  | None => mret (Some (send_json 400 (plain_error "Invalid Content-Length header") []))
  | Some len =>
      match enforce_payload_limit len MAX_PAYLOAD_BYTES with
      | Raise _ => mret (Some (send_json 413 (plain_error (limit_text len)) []))
      | Ok _ =>
          match parse_body (read_body len sent) with
          | None => mret (Some (send_json 400 (plain_error ("Malformed JSON body: " ++ json_text (read_body len sent))) []))
          | Some body => route_post canary path hs body client
          end
      end
  end.

(** ** The ASGI application

    The framework parses the body.  A buffered turn is always answered as one
    document, also when the client asked for a stream. *)

Definition asgi_json (status : Z) (data : json) (extra : http_headers) : http_reply :=
  {| rp_status := status; rp_headers := ("content-type", "application/json") :: extra; rp_body := JsonBody data |}.
Definition asgi_stream (headers : http_headers) (chunks : list string) : http_reply :=
  {| rp_status := 200; rp_headers := ("content-type", "text/event-stream") :: headers; rp_body := StreamBody chunks |}.

(** [StreamingResponse] runs the generator. *)
Definition asgi_relay (a : wire_api) (h : NativeStreamHandle) (client : option nat) : S (list string) :=
  out ← native_stream_chunks a h client; mret (fst out).

Definition asgi_generation (a : wire_api) (body : json) (hs : http_headers) (client : option nat) : S (option http_reply) :=
  let refuse e : S (option http_reply) := mret (Some (asgi_json (fst (error_of e)) (error_body a (snd (error_of e)) (message_of e)) [])) in
  match continuation_request_from_headers hs, logical_operation_id_from_headers hs with
  | Raise e, _ | Ok _, Raise e => refuse e
  | Ok continuation, Ok op =>
      fs ← (match body with JObj fs => mret fs | _ => raise attribute_error_exn end);
      match streaming_mode_from_request py_repr fs hs with
      | Raise e => refuse e
      | Ok mode =>
          if wants_stream fs && match mode with TRUE_STREAMING => true | ATOMIC_BUFFERED => false end
          then post_native asgi_json asgi_stream asgi_relay a fs continuation op client
          else
            o ← serve_turn a fs continuation op;
            mret (match o with
              | None => None
              | Some sv => Some (asgi_json (srv_status sv) (srv_body sv)
                  (foldl (fun d kv => od_set (fst kv) (snd kv) d) (continuation_headers (srv_event sv)) (srv_headers sv)))
              end)
      end
  end.
(** The routes of [create_proxy_app]; [None] for a path it does not have. *)
Definition asgi_post (path : string) (hs : http_headers) (body : json) (client : option nat) : option (S (option http_reply)) :=
  let some m : S (option http_reply) := (x ← m; mret (Some x)) in
  if String.eqb path "/v1/messages/count_tokens" then
    Some (mret (Some (asgi_json 200 (JObj [("input_tokens", JInt (payload_tokens dumps body))]) [])))
  else if String.eqb path "/v1/messages" then Some (asgi_generation AnthropicApi body hs client)
  else if String.eqb path "/v1/chat/completions" then Some (asgi_generation OpenAIApi body hs client)
  else if String.eqb path "/v1/continuations/ack" then Some (some (post_ack asgi_json body))
  else if starts_with "/v1/tool-operations/" path then
    let action := String.substring 20 (String.length path - 20) path in
    if truthy action && negb (contains "/" action) then Some (some (post_tool_operation asgi_json body action)) else None
  else if path_in path ["/v1/mcp"; "/mcp"; "/v1/mcp/tools/call"] then
    Some (some (post_mcp asgi_json body (map (fun kv => (py_lower (fst kv), snd kv)) hs)))
  else None.

(** ** GET, HEAD and OPTIONS *)

Definition HEALTH_PATHS : list string := ["/health"; "/healthz"; "/free-gateway/health"].
Definition model_entry (created : Z) (id owner : string) : json :=
  JObj [("id", JStr id); ("object", JStr "model"); ("created", JInt created); ("owned_by", JStr owner)].
Definition VIRTUAL_MODELS : list (string * string) :=
  map (fun id => (id, "circuit-breaker")) ["auto-coding-agent"; "hermes-default"; "openclaw-default"] ++
  map (fun id => (id, "durallm-harness"))
    ["claude-opus-5"; "claude-3-5-haiku"; "claude-3-5-haiku-20241022"; "claude-3-5-sonnet"; "claude-3-7-sonnet"].
Definition listed_models (p : IsolatedPoolManager) : list (string * string) :=
  VIRTUAL_MODELS ++
  map (fun r => (("coding/" ++ rt_provider r ++ "/" ++ rt_model r)%string, rt_provider r)) (coding_routes p) ++
  map (fun r => (("agent/" ++ rt_provider r ++ "/" ++ rt_model r)%string, rt_provider r)) (agent_routes p).
(** The clock is read for every entry. *)
Definition get_models : S http_reply :=
  s ← get;
  entries ← map_m (fun e => now ← read_clock wall; mret (model_entry (Qfloor now) (fst e) (snd e))) (listed_models (pool_manager (sv_gateway s)));
  mret (send_json 200 (JObj [("object", JStr "list"); ("data", JArr entries)]) []).

Definition pool_summary (rs : list RouteDefinition) : json :=
  JObj [("active_candidates", JInt (Z.of_nat (length rs))); ("models", JArr (map (fun r => JStr (rt_provider r ++ "/" ++ rt_model r)) rs))].
(** Taking a breaker's snapshot may move it from OPEN to HALF_OPEN. *)
Definition breaker_summary (id : string) : S (string * json) :=
  snap ← on_gateway (on_executor (zoom router set_router (on_breakers (on_breaker id (snapshot breaker_clock)))));
  mret (id, JStr (bs_state snap)).
Definition get_health : S http_reply :=
  coding ← on_gateway (on_pools (get_candidate_routes mono wall "coding"));
  agent ← on_gateway (on_pools (get_candidate_routes mono wall "general_agent"));
  s ← get;
  snaps ← map_m breaker_summary (od_keys (breakers (breaker_registry (router (gw_executor (sv_gateway s))))));
  s ← get;
  let p := pool_manager (sv_gateway s) in
  cools ← map_m (fun kv => now ← read_clock mono;
                   mret ((fst (fst kv) ++ ":" ++ snd (fst kv))%string, JInt (Z.max 0 (if 0 ⪯ (snd kv - now) then Qfloor (snd kv - now) else Qceiling (snd kv - now)))))
             (cooldowns p);
  mret (send_json 200 (JObj
    [("status", JStr "healthy"); ("ok", JBool true); ("engine", JStr "durallm"); ("service", JStr "claude-free-resilient");
     ("gateway", JStr "anthropic-messages-bridge"); ("version", JStr "0.2.1");
     ("pools", JObj [("coding", pool_summary coding); ("general_agent", pool_summary agent)]);
     ("circuit_breakers", JObj snaps); ("active_keys", JArr (map JStr (od_keys (pm_keys p)))); ("cooldowns", JObj cools)]) []).
Definition get_hello : http_reply :=
  send_json 200 (JObj [("ok", JBool true); ("status", JStr "healthy"); ("service", JStr "claude-free-resilient");
                       ("gateway", JStr "anthropic-messages-bridge"); ("engine", JStr "durallm")]) [].

(** [snapshot()] of a breaker and the members of a health snapshot, as documents. *)
Definition metrics_dict (m : MetricsSnapshot) : json :=
  JObj [("total_calls", JInt (Z.of_nat (total_calls m))); ("success_calls", JInt (Z.of_nat (success_calls m)));
        ("failed_calls", JInt (Z.of_nat (failed_calls m))); ("slow_calls", JInt (Z.of_nat (slow_calls m)));
        ("failure_rate", JFloat (failure_rate m)); ("slow_call_rate", JFloat (slow_call_rate m))].
Definition breaker_dict (b : BreakerSnapshot) : json :=
  JObj [("id", JStr (bs_id b)); ("state", JStr (bs_state b)); ("metrics", metrics_dict (bs_metrics b));
        ("remaining_wait_seconds", JFloat (bs_remaining_wait_seconds b));
        ("half_open_in_flight", JInt (Z.of_nat (bs_half_open_in_flight b))); ("half_open_successes", JInt (Z.of_nat (bs_half_open_successes b)))].
Definition jnat (n : nat) : json := JInt (Z.of_nat n).
Definition jopt_float (q : option Q) : json := match q with Some x => JFloat x | None => JNull end.
Definition health_dict (h : EndpointHealthSnapshot) : json :=
  JObj [("endpoint_id", JStr (hs_endpoint_id h)); ("provider", JStr (hs_provider h)); ("model", JStr (hs_model h));
        ("total_calls", jnat (hs_total_calls h)); ("successful_calls", jnat (hs_successful_calls h)); ("failed_calls", jnat (hs_failed_calls h));
        ("consecutive_failures", jnat (consecutive_failures h)); ("ema_latency_ms", jopt_float (ema_latency_ms h));
        ("last_latency_ms", jopt_float (last_latency_ms h)); ("ema_ttft_ms", jopt_float (ema_ttft_ms h)); ("last_ttft_ms", jopt_float (last_ttft_ms h));
        ("timeout_count", jnat (timeout_count h)); ("rate_limit_429_count", jnat (rate_limit_429_count h));
        ("server_error_5xx_count", jnat (server_error_5xx_count h)); ("semantic_failure_count", jnat (semantic_failure_count h));
        ("tool_calls_attempted", jnat (tool_calls_attempted h)); ("tool_calls_succeeded", jnat (tool_calls_succeeded h));
        ("tool_calls_failed", jnat (tool_calls_failed h)); ("cooldown_until_monotonic", JFloat (cooldown_until_monotonic h));
        ("quota_exhausted_until", JFloat (quota_exhausted_until h)); ("is_dead", JBool (hs_is_dead h)); ("dead_reason", opt_str (dead_reason h));
        ("last_error_message", opt_str (last_error_message h)); ("last_updated", JFloat (last_updated h))].

Definition breaker_entry (id : string) : S (string * json) :=
  snap ← on_gateway (on_executor (zoom router set_router (on_breakers (on_breaker id (snapshot breaker_clock)))));
  mret (id, breaker_dict snap).
Definition all_breakers : S json :=
  s ← get;
  entries ← map_m breaker_entry (od_keys (breakers (breaker_registry (router (gw_executor (sv_gateway s))))));
  mret (JObj entries).
(** [DEFAULT_HEALTH_STORE]: the module-wide store.  An executor makes a store of its own
    unless it is handed one, and the proxy hands it none, so this one is as it was made. *)
Definition DEFAULT_HEALTH_STORE : HealthTelemetryStore := new_health_store (1 # 5).
Definition get_metrics : S http_reply :=
  all_b ← all_breakers;
  mret (send_json 200 (JObj [("circuit_breakers", all_b);
    ("health_telemetry", JObj (map (fun kv => (fst kv, health_dict (snd kv))) (snapshots DEFAULT_HEALTH_STORE)))]) []).
Definition get_breakers : S http_reply := all_b ← all_breakers; mret (send_json 200 (JObj [("breakers", all_b)]) []).
(** The scheduler's thread, the British clock and the format of its instants. *)
Context (canary_alive : bool) (uk_now : nat -> Q) (uk_stamp : Q -> string).
Definition get_canary_status : S http_reply :=
  now ← read_clock uk_now; now' ← read_clock uk_now; s ← get;
  mret (send_json 200 (JObj [("scheduler", scheduler_status canary_alive now now' uk_stamp (sv_canary s));
    ("quirks_ledger", load_ledger (sv_ledger_file s))]) []).

Definition do_GET (path : string) : S http_reply :=
  if path_in path HEALTH_PATHS then get_health
  else if String.eqb path "/api/hello" then mret get_hello
  else if String.eqb path "/metrics" then get_metrics
  else if String.eqb path "/admin/breakers" then get_breakers
  else if String.eqb path "/admin/canary/status" then get_canary_status
  else if path_in path ["/v1/models"; "/models"] then get_models
  else mret (send_json 404 (plain_error ("Endpoint " ++ path ++ " not found")) []).

Definition HEAD_PATHS : list string :=
  ["/health"; "/healthz"; "/api/hello"; "/free-gateway/health"; "/metrics"; "/admin/breakers"; "/admin/canary/status"; "/v1/models"; "/models"].
Definition do_HEAD (path : string) : http_reply :=
  {| rp_status := if path_in path HEAD_PATHS then 200 else 404;
     rp_headers := [("Content-Type", "application/json"); ("Access-Control-Allow-Origin", "*"); ("Connection", "close")]; rp_body := NoBody |}.
Definition do_OPTIONS : http_reply :=
  {| rp_status := 204;
     rp_headers := [("Access-Control-Allow-Origin", "*"); ("Access-Control-Allow-Methods", "GET, POST, HEAD, OPTIONS");
                    ("Access-Control-Allow-Headers", "*"); ("Connection", "close")]; rp_body := NoBody |}.

(** The routes of [create_proxy_app] that answer GET. *)
Definition asgi_get (path : string) : option http_reply :=
  if String.eqb path "/health" then Some (asgi_json 200 (JObj [("status", JStr "healthy"); ("engine", JStr "durallm")]) []) else None.

(** [log_request]: one event for every reply, with the route that served it. *)
Definition log_request (upper : string -> string) (request_id method : option string) (path : string) (code : Z) (started : option Q)
    (route : option Endpoint) : S log_line :=
  duration ← match started with
             | Some t => if Qeqb t 0 then mret JNull else now ← read_clock mono; mret (JFloat (py_round1 ((now - t) * 1000)))
             | None => mret JNull
             end;
  now ← read_clock wall;
  mret (log_event dumps_text upper false "durallm.events" now "INFO" "proxy_response" request_id
    [("method", opt_str method); ("path", JStr path); ("status", JInt code); ("duration_ms", duration);
     ("provider", opt_str (option_map ep_provider route)); ("model", opt_str (option_map ep_model route))]).
End server.

(** ** Start *)

(** [GatewayExecutor()] over the module-wide registries. *)
Definition default_executor {T A} (tl : T) (st : option A) : GatewayExecutor T A :=
  new_executor (new_router new_registry (new_breaker_registry None) (new_health_store (1 # 5))) default_policy tl st.

(** A proxy whose state is the process's own, or one over a database file.  The tool
    ledger, the attempts and the continuations of the latter are views of one database,
    and write tables of their own. *)
Inductive built_gateway : Type :=
| ProcessLocal (g : ProxyGateway ToolExecutionLedger Database (gmap string Session))
| OverDatabase (g : ProxyGateway DurableLedger.World Database ContinuationWorld).

(** [build_proxy_gateway]; [file] is what the database file holds. *)
Definition build_proxy_gateway `{Runtime} (pools : IsolatedPoolManager) (file : string -> Database) (storage_path : option string) (n : nat)
    : res exn built_gateway * nat :=
  match state_db_path storage_path (environ "LLM_BREAKER_STATE_DB") with
  | None => (Ok (ProcessLocal (new_gateway pools (default_executor default_ledger None) ∅)), n)
  | Some path =>
      match open_ledger wall ("ledger_" ++ uuids n)%string 30 true (file path) (S n) with
      | (Raise x, _, n1) => (Raise x, n1)
      | (Ok l, d, n1) =>
          let g := new_gateway pools (default_executor {| ledger := l; store := d |} (Some d))
                     {| cs_self := new_continuation_store ("acp_" ++ uuids n1)%string 120; cs_db := d |} in
          match get_active_quota_lockouts wall None d (S n1) with
          | (Raise _, _, n2) => (Ok (OverDatabase g), n2)
          | (Ok items, _, n2) => let '(_, g', n3) := sync_lockouts items g n2 in (Ok (OverDatabase g'), n3)
          end
      end
  end.

(** What the command does, in order. *)
Inductive startup : Type :=
| LoadQuirksLedger | PrintLine (text : string) | DiscoverModels | StartCanary | BindServer (host : string) (port : Z) | ServeForever
| StopCanary | ShutdownServer | CloseServer.
Definition canary_enabled (flag : bool) (env : option string) : bool :=
  flag || existsb (String.eqb (py_lower (default "" env))) ["true"; "1"; "yes"].
Definition banner (host : string) (port : Z) : list startup :=
  let url := ("http://" ++ host ++ ":" ++ py_str_int port)%string in
  let rule := Nat.iter 65 (String (chr 61)) "" in
  map PrintLine
    [(String (chr 10) rule); "  ⚡ DURALLM MULTI-AGENT GATEWAY ONLINE"; "  - Server Address: " ++ url;
     "  - Claude Code (Coding Pool): " ++ url ++ "/v1/messages"; "  - Hermes / OpenClaw (Agent Pool): " ++ url ++ "/v1/chat/completions";
     "  - Canary Status: " ++ url ++ "/admin/canary/status"; "  - Health Diagnostics: " ++ url ++ "/health"; rule ++ String (chr 10) ""]%string.
(** [main]; [interrupted] tells whether the server was stopped from the keyboard. *)
Definition main (host : string) (port : Z) (discover canary : bool) (env : option string) (interrupted : bool) : list startup :=
  [LoadQuirksLedger] ++ banner host port ++ (if discover then [DiscoverModels] else []) ++
  (if canary_enabled canary env then [StartCanary] else []) ++ [BindServer host port; ServeForever] ++
  (if interrupted then (if canary_enabled canary env then [StopCanary] else []) ++
     [PrintLine (String (chr 10) "Stopping DuraLLM Gateway..."); ShutdownServer; CloseServer] else []).
