(* ===== verification/ProxyProps.v ===== *)
(** * What the HTTP proxy guarantees

    The tool-operation endpoint on the in-memory ledger, the agreement of the two
    servers, and where the endpoints do not do what they say. *)

From stdpp Require Import base tactics list gmap strings.
From Stdlib Require Import QArith Qround Ascii.
From S2P Require Import Prelude Json Models PyText Utf8 PyDyn Security Execution Metrics Breaker BreakerSpec Registry Profile Telemetry Requirements Router Pools SqliteStore ContinuationSqlite ToolLedger ToolValidation Classifier IR Context Continuation Interfaces Executor ExecutorDemo ExecutorProps ExecutorRuns ExecutorStream ExecutorBudget Gateway Sse CodecAnthropic CodecOpenAI Pruner Canary Mcp McpProps ProxyWire Proxy.
Import ToolLedgerProps.

(** ** The tool-operation endpoint *)

Section operations.
Context {R : Runtime} {A C : Type} `{AS : AttemptStoreOps A} `{CO : ContinuationStore C}.
Context (py_repr : json -> string) (failure_status : exn -> option Z) (send : sender).
Abbreviation V := (Server ToolExecutionLedger A C).
Implicit Types s : V.

Definition ledger_of s : ToolExecutionLedger := tool_ledger (gw_executor (sv_gateway s)).
Definition put_ledger (l : ToolExecutionLedger) s : V :=
  {| sv_gateway := set_executor (set_tool_ledger l (gw_executor (sv_gateway s))) (sv_gateway s); sv_canary := sv_canary s; sv_ledger_file := sv_ledger_file s |}.
Definition post := post_tool_operation (T := ToolExecutionLedger) (A := A) (C := C) py_repr failure_status send.

Lemma on_tool_ledger_run {B} (m : M exn ToolExecutionLedger B) s n r l' n' : m (ledger_of s) n = (r, l', n') ->
  on_tool_ledger m s n = (r, put_ledger l' s, n').
Proof. intros H. unfold on_tool_ledger, on_gateway, on_executor, zoom. fold (ledger_of s). by rewrite H. Qed.
Lemma ledger_put l s : ledger_of (put_ledger l s) = l.
Proof. done. Qed.
Lemma put_same s : put_ledger (ledger_of s) s = s.
Proof. by destruct s as [[? [] ? ?] ? ?]. Qed.
Lemma put_ledger_put l l' s : put_ledger l' (put_ledger l s) = put_ledger l' s.
Proof. done. Qed.
Lemma read_record id s n : on_tool_ledger (tr_get_record id) s n = (Ok (od_get id (records_by_call_id (ledger_of s))), s, n).
Proof. rewrite (on_tool_ledger_run _ s n _ _ _ eq_refl). by rewrite put_same. Qed.

Definition answered (rec : ToolExecutionRecord) : http_reply := send 200%Z (JObj [("tool_operation", record_to_dict rec)]) [].
Definition refused (code : Z) : http_reply :=
  send code (JObj [("error", error_object "tool_operation_protocol_error" (message_of (ToolOperationProtocolError code)))]) [].

(** The endpoint runs the operation and renders its result. *)
Lemma post_ok body action s n j s' n' : update_tool_operation py_repr body action s n = (Ok j, s', n') ->
  post (JObj body) action s n = (Ok (send 200%Z j []), s', n').
Proof.
  intros H. unfold post, post_tool_operation, catch. erewrite bind_ok; [|reflexivity]. cbv beta. by erewrite bind_ok by exact H.
Qed.
Lemma post_refused body action code s n s' n' : update_tool_operation py_repr body action s n = (Raise (ToolOperationProtocolError code), s', n') ->
  post (JObj body) action s n = (Ok (refused code), s', n').
Proof.
  intros H. unfold post, post_tool_operation, catch. erewrite bind_ok; [|reflexivity]. cbv beta. by erewrite bind_raise by exact H.
Qed.

(** A known call and an action that rewrites its record. *)
Lemma operation_runs body id action rec rec' l' s n n' : truthy id = true ->
  od_get "ledger_call_id" body = Some (JStr id) -> od_get id (records_by_call_id (ledger_of s)) = Some rec ->
  apply_action py_repr body id action s n = (Ok tt, put_ledger l' s, n') -> od_get id (records_by_call_id l') = Some rec' ->
  post (JObj body) action s n = (Ok (answered rec'), put_ledger l' s, n').
Proof.
  intros Ht Hid Hrec Hact Hrec'. apply post_ok. unfold update_tool_operation. rewrite Hid. destruct id as [|a id]; [done|].
  erewrite bind_ok by apply read_record. cbv beta. rewrite Hrec. erewrite bind_ok by exact Hact. cbv beta.
  erewrite bind_ok by apply read_record. cbv beta. by rewrite ledger_put, Hrec'.
Qed.

Lemma update_record_run id f l rec rec' n n' : od_get id (records_by_call_id l) = Some rec -> f rec l n = (Ok rec', l, n') ->
  update_record id f l n = (Ok tt, with_records (od_set id rec' (records_by_call_id l)) l, n').
Proof. intros Hr Hf. unfold update_record. mstep. rewrite Hr. by erewrite bind_ok by exact Hf. Qed.

Definition op_key_of (rec : ToolExecutionRecord) : string := op_key (logical_operation_id rec) (tool_name rec) (arguments_hash rec).
Lemma evict_unlimited now l : ttl_seconds l = None -> (length (records_by_call_id l) <= max_records l)%nat ->
  (length (receipts_by_op_hash l) <= max_records l)%nat -> evict_ledger now l = l.
Proof.
  intros Ht H1 H2. assert (forall V (stamp : V -> Q) (d : odict string V), (length d <= max_records l)%nat ->
    evict_store None (max_records l) now stamp d = d) as He.
  { intros V stamp d Hd. unfold evict_store. replace (drop_while _ d) with d by (by destruct d).
    unfold drop_excess. by rewrite (proj2 (Nat.sub_0_le _ _)). }
  unfold evict_ledger. rewrite Ht, !He by done. by destruct l.
Qed.
Lemma commit_memory id receipt l rec n : od_get id (records_by_call_id l) = Some rec -> ttl_seconds l = None ->
  (length (records_by_call_id l) <= max_records l)%nat -> (length (receipts_by_op_hash l) < max_records l)%nat ->
  exists l' n', mark_committed wall wall id receipt l n = (Ok tt, l', n') /\
    od_get id (records_by_call_id l') = Some (set_receipt receipt (set_status COMMITTED (wall n) rec)) /\ ttl_seconds l' = None /\
    exists stamp, od_get (op_key_of rec) (receipts_by_op_hash l') = Some (receipt, stamp).
Proof.
  intros Hr Ht H1 H2. unfold mark_committed. mstep. rewrite Hr. eexists _, _. split.
  { mstep. mstep. cbv zeta. mstep. mstep. unfold evict. mstep. unfold modify. rewrite evict_unlimited; [reflexivity | done | |]; cbn.
    - by erewrite od_set_present_length.
    - etrans; [apply od_length_set | lia]. }
  cbn. rewrite !od_get_set_eq. split_and!; [done..|]. by eexists.
Qed.
End operations.

(** ** Claims *)

(** The tool-operation endpoint on the in-memory ledger.  For a known call,
    [submit] and [indeterminate] rewrite its record and answer it, and the
    operation is unresolved from then on; [commit] with an object stores the
    receipt, answers the committed record, and the receipt is what every later
    query for the operation finds; a missing identifier or receipt is answered 400
    and an unknown call 404, and the ledger is left alone. *)
Theorem tool_operation_endpoint `{Runtime} `{AttemptStoreOps A} `{ContinuationStore C} py_repr failure_status send
    (s : Server ToolExecutionLedger A C) n body id rec :
  let post := post py_repr failure_status send in
  let l := ledger_of s in
  truthy id = true -> od_get "ledger_call_id" body = Some (JStr id) -> od_get id (records_by_call_id l) = Some rec ->
  let set_to r := put_ledger (with_records (od_set id r (records_by_call_id l)) l) s in
  (let r := set_status SUBMITTED (wall n) rec in post (JObj body) "submit" s n = (Ok (answered send r), set_to r, S n)) /\
  (let r := set_error (py_str py_repr (default (JStr "Lost tool acknowledgement") (od_get "reason" body))) (set_status INDETERMINATE (wall n) rec) in
   post (JObj body) "indeterminate" s n = (Ok (answered send r), set_to r, S n)) /\
  (forall st err args m, st = SUBMITTED \/ st = INDETERMINATE -> arguments_hash rec = compute_arguments_hash dumps_sorted sha256 args ->
     forall r, r = set_status st (wall n) rec \/ r = set_error err (set_status st (wall n) rec) ->
     out_res (has_indeterminate_operation dumps_sorted sha256 (logical_operation_id rec) (tool_name rec) args (ledger_of (set_to r)) m) = Ok true) /\
  (forall receipt, od_get "receipt" body = Some (JObj receipt) -> ttl_seconds l = None ->
     (length (records_by_call_id l) <= max_records l)%nat -> (length (receipts_by_op_hash l) < max_records l)%nat ->
     exists s' n', post (JObj body) "commit" s n = (Ok (answered send (set_receipt (JObj receipt) (set_status COMMITTED (wall n) rec))), s', n') /\
       forall args m, arguments_hash rec = compute_arguments_hash dumps_sorted sha256 args ->
         out_res (check_idempotency dumps_sorted sha256 wall (logical_operation_id rec) (tool_name rec) args (ledger_of s') m) = Ok (true, Some (JObj receipt))) /\
  ((forall receipt, od_get "receipt" body <> Some (JObj receipt)) -> post (JObj body) "commit" s n = (Ok (refused send 400), s, n)) /\
  (forall action body', (forall x, od_get "ledger_call_id" body' = Some (JStr x) -> x = "") -> post (JObj body') action s n = (Ok (refused send 400), s, n)) /\
  (forall action body' x, truthy x = true -> od_get "ledger_call_id" body' = Some (JStr x) -> od_get x (records_by_call_id l) = None ->
     post (JObj body') action s n = (Ok (refused send 404), s, n)).
Proof.
  intros post l Ht Hid Hrec set_to. split_and!.
  - eapply operation_runs; [done..| |]; [apply on_tool_ledger_run, update_record_run with (rec := rec); done | cbn; apply od_get_set_eq].
  - eapply operation_runs; [done..| |]; [apply on_tool_ledger_run, update_record_run with (rec := rec); done | cbn; apply od_get_set_eq].
  - intros st err args m Hst Hh r Hr. unfold has_indeterminate_operation, gets, out_res. cbn [fst]. f_equal. apply existsb_exists. exists r. split.
    + apply list_elem_of_In. unfold set_to. rewrite ledger_put. apply (list_elem_of_fmap_2 snd _ (id, r)), od_get_In, od_get_set_eq.
    + rewrite <- Hh. destruct Hr as [-> | ->]; cbn; rewrite !String.eqb_refl; by destruct Hst as [-> | ->].
  - intros receipt Hrc Httl H1' H2'. destruct (commit_memory id (JObj receipt) l rec n) as (l' & n' & Hm & Hr' & Httl' & stamp & Hst); [done..|].
    exists (put_ledger l' s), n'. split.
    + eapply operation_runs; [done..| |exact Hr']. unfold apply_action. cbn [String.eqb Ascii.eqb Bool.eqb]. rewrite Hrc. by apply on_tool_ledger_run.
    + intros args m Hh. rewrite ledger_put. unfold check_idempotency. mstep. rewrite <- Hh. fold (op_key_of rec). rewrite Hst. mstep.
      unfold expired. by rewrite Httl'.
  - intros Hn. apply post_refused. unfold update_tool_operation. rewrite Hid. destruct id as [|a id]; [done|].
    erewrite bind_ok by apply read_record. cbv beta. fold l. rewrite Hrec. erewrite bind_raise; [reflexivity|].
    unfold apply_action. cbn [String.eqb Ascii.eqb Bool.eqb]. destruct (od_get "receipt" body) as [[| | | | | |fs]|]; try done. by destruct (Hn fs).
  - intros action body' Hx. apply post_refused. unfold update_tool_operation.
    destruct (od_get "ledger_call_id" body') as [[| | | |x| |]|]; try done. by rewrite (Hx x eq_refl).
  - intros action body' x Hx Hb Hn. apply post_refused. unfold update_tool_operation. rewrite Hb. destruct x as [|a x]; [done|].
    erewrite bind_ok by apply read_record. cbv beta. fold l. by rewrite Hn.
Qed.

(** ** A concrete server *)

#[local] Instance demo_continuations : ContinuationStore (gmap string Session) := memory_continuations uuids wall dumps sha256.
Definition demo_server (l : ToolExecutionLedger) : Server ToolExecutionLedger Database (gmap string Session) :=
  {| sv_gateway := new_gateway (new_pool_manager None []) (set_tool_ledger l (demo_executor [] (new_breaker_registry None))) ∅;
     sv_canary := {| target_hour := 1; target_minute := 0; last_run_utc := JNull; last_run_result := JNull |}; sv_ledger_file := FileMissing |}.
Definition one_call : ToolExecutionLedger :=
  out_st (register_tool_call dumps_sorted sha256 wall "c1" "op" "note" (JObj []) (new_ledger 8 None) 0%nat).
Definition one_record : ToolExecutionRecord :=
  {| tool_call_id := "c1"; logical_operation_id := "op"; tool_name := "note"; arguments_hash := "{}"; arguments := JObj []; status := PROPOSED;
     execution_receipt := None; created_at := 0; updated_at := 0; error_message := None |}.
Definition demo_send : sender := send_json (fun _ => "{}").
Definition commit_body : odict string json := [("ledger_call_id", JStr "c1"); ("receipt", JObj [("output", JStr "done")])].

Lemma tool_operation_endpoint_witness :
  post (fun _ => "") (fun _ => None) demo_send (JObj [("ledger_call_id", JStr "zz")]) "commit" (demo_server one_call) 5%nat =
    (Ok (refused demo_send 404), demo_server one_call, 5%nat) /\
  exists s' n', post (fun _ => "") (fun _ => None) demo_send (JObj commit_body) "commit" (demo_server one_call) 5%nat =
    (Ok (answered demo_send (set_receipt (JObj [("output", JStr "done")]) (set_status COMMITTED 5 one_record))), s', n').
Proof.
  destruct (tool_operation_endpoint (fun _ => "") (fun _ => None) demo_send (demo_server one_call) 5%nat commit_body "c1" one_record
    eq_refl eq_refl eq_refl) as (_ & _ & _ & Hcommit & _ & _ & Hunknown).
  split; [exact (Hunknown "commit" [("ledger_call_id", JStr "zz")] "zz" eq_refl eq_refl eq_refl)|].
  destruct (Hcommit [("output", JStr "done")] eq_refl eq_refl) as (s' & n' & Hp & _); [vm_compute; lia | vm_compute; lia | by exists s', n'].
Defined.

(** ** The two servers *)

(** Equal up to the fixed headers of the server. *)
Definition same_answer (r1 r2 : res exn (option http_reply)) : Prop :=
  match r1, r2 with
  | Ok (Some p), Ok (Some q) => rp_status p = rp_status q /\ rp_body p = rp_body q
  | Ok None, Ok None => True
  | Raise e, Raise e' => e = e'
  | _, _ => False
  end.
Definition same_run {S} (o1 o2 : res exn (option http_reply) * S * nat) : Prop :=
  same_answer (out_res o1) (out_res o2) /\ out_st o1 = out_st o2 /\ out_tick o1 = out_tick o2.

Lemma same_run_bind {S B} (m : M exn S B) (k1 k2 : B -> M exn S (option http_reply)) s n :
  (forall b s1 n1, same_run (k1 b s1 n1) (k2 b s1 n1)) -> same_run ((m ≫= k1) s n) ((m ≫= k2) s n).
Proof.
  intros Hk. destruct (m s n) as [[[b|e] s1] n1] eqn:E; [by rewrite !(bind_ok _ _ _ _ _ _ _ E)|].
  rewrite !(bind_raise _ _ _ _ _ _ _ E). done.
Qed.
Lemma same_run_ret {S} p q (s : S) n : rp_status p = rp_status q -> rp_body p = rp_body q -> same_run ((mret (Some p) : M exn S _) s n) ((mret (Some q) : M exn S _) s n).
Proof. done. Qed.

Section servers.
Context {R : Runtime} {T A C : Type} `{TL : ToolLedgerOps T} `{TR : ToolRunnerOps T} `{AS : AttemptStoreOps A} `{CO : ContinuationStore C}.
Context (adapters : odict string ProviderAdapter) (stream_adapters : odict string StreamAdapter).
Context (dumps_text py_repr : json -> string) (failure_status : exn -> option Z) (fuel : nat).

(** A break of the provider comes after the chunk that was fetched before the answer began. *)
Lemma relay_view_visible h client (s : Server T A C) n chunks e h' s' n' :
  relay_view h client s n = (Ok (chunks, Some e, h'), s', n') -> is_exit e = true \/ exists c rest, chunks = c :: rest.
Proof.
  assert (forall ending, relayed h client = (chunks, ending) ->
    (exists b, ending = Some b /\ is_exit (sb_error b) = true) \/ exists c rest, chunks = c :: rest) as Hr.
  { intros ending. unfold relayed. destruct client as [k|]; [|intros [= <- <-]; right; by eexists _, _].
    destruct (_ <=? _)%nat; intros [= <- <-]; [left; by eexists | right; by eexists _, _]. }
  unfold relay_view, on_gateway, on_executor, zoom, handle_iter_bytes.
  destruct (bool_decide (client = Some 0%nat)); [cbn; intros [=]|]. destruct (relayed h client) as [cs ending] eqn:E.
  destruct ((match ending with Some b => finish_failure h b | None => finish_success h end) _ _) as [[[u|x] w] k]; cbn; intros H;
    injection H as <- He _ _ _; destruct (Hr ending eq_refl) as [(b & -> & Hb)|?]; auto; left; cbn in He.
  - by injection He as <-.
  - unfold is_exit in Hb. rewrite Hb in He. by injection He as <-.
Qed.

(** The two relays of a native stream hand on the same bytes and end in the same state. *)
Lemma relays_agree a h client (s : Server T A C) n : relay_stream dumps_text a h client s n = asgi_relay dumps_text a h client s n.
Proof.
  pose proof (relay_view_visible h client s n) as Hv. unfold asgi_relay, native_stream_chunks, relay_stream, mbind, M_bind.
  destruct (relay_view h client s n) as [[[[[chunks [e|]] h']|x] s'] n']; try done; cbn.
  - destruct (Hv _ _ _ _ _ eq_refl) as [->|(c & rest & ->)]; [by rewrite app_nil_r|].
    rewrite orb_false_r. destruct (is_exit e); [by rewrite app_nil_r | done].
  - by rewrite app_nil_r.
Qed.

Lemma native_same a fs continuation op client (s : Server T A C) n :
  same_run (post_native stream_adapters dumps_text py_repr failure_status fuel (send_json dumps_text) sse_reply (relay_stream dumps_text) a fs continuation op client s n)
           (post_native stream_adapters dumps_text py_repr failure_status fuel asgi_json asgi_stream (asgi_relay dumps_text) a fs continuation op client s n).
Proof.
  unfold post_native. destruct continuation; [by apply same_run_ret|].
  destruct (open_native stream_adapters dumps_text py_repr fuel a fs op s n) as [[[h|e] s1] n1] eqn:Eo.
  - erewrite !bind_ok by (unfold catch; by erewrite bind_ok by exact Eo). cbv beta iota. destruct h as [h|]; [|done].
    unfold mbind, M_bind. rewrite <- relays_agree. destruct (relay_stream dumps_text a h client s1 n1) as [[[chunks|x] s2] n2]; [by apply same_run_ret | done].
  - destruct (is_GatewayError e) eqn:Eg.
    + erewrite !bind_ok by (unfold catch; erewrite bind_raise by exact Eo; by rewrite Eg). by apply same_run_ret.
    + erewrite !bind_raise by (unfold catch; erewrite bind_raise by exact Eo; by rewrite Eg). done.
Qed.
End servers.

Definition generation_path (a : wire_api) : string := match a with AnthropicApi => "/v1/messages" | OpenAIApi => "/v1/chat/completions" end.


(** ** Requests on a server with one endpoint *)

Definition busy_server : Server ToolExecutionLedger Database (gmap string Session) :=
  {| sv_gateway := new_gateway (new_pool_manager None []) (demo_executor [demo_endpoint "b" "mistral" "codestral" 2 []] (new_breaker_registry None)) ∅;
     sv_canary := sv_canary (demo_server one_call); sv_ledger_file := FileMissing |}.
Definition chat_body (streamed : bool) : odict string json :=
  [("model", JStr "claude-x"); ("messages", JArr [JObj [("role", JStr "user"); ("content", JStr "hi")]]); ("stream", JBool streamed)].
Abbreviation std_run := (fun fs => post_generation flaky_then_good [] (fun _ => "{}") (fun _ => "") (fun _ => None) 60 AnthropicApi (JObj fs) [] None None None busy_server 0%nat).
Abbreviation asgi_run := (fun fs => asgi_generation flaky_then_good [] (fun _ => "{}") (fun _ => "") (fun _ => None) 60 AnthropicApi (JObj fs) [] None busy_server 0%nat).
Definition body_of {S} (o : res exn (option http_reply) * S * nat) : option reply_body :=
  match out_res o with Ok (Some r) => Some (rp_body r) | _ => None end.


(** An MCP request to the HTTP endpoint. *)
Definition mcp_request (method : string) (params : odict string json) : json :=
  JObj [("jsonrpc", JStr "2.0"); ("id", JInt 1); ("method", JStr method); ("params", JObj params)].
Definition mcp_run (method : string) (params : odict string json) (s : Server ToolExecutionLedger Database (gmap string Session)) :=
  post_mcp (fun _ => "{}") (fun _ => "1") demo_send (mcp_request method params) [] s 0%nat.
Definition result_field (k : string) (r : http_reply) : json :=
  match rp_body r with JsonBody (JObj fs) => match od_get "result" fs with Some (JObj rs) => default JNull (od_get k rs) | _ => JNull end | _ => JNull end.
Definition mcp_field (k method : string) (params : odict string json) : json :=
  match out_res (mcp_run method params (demo_server (new_ledger 8 None))) with Ok r => result_field k r | _ => JNull end.
Definition rm_params : odict string json := [("name", JStr "rm"); ("arguments", JObj []); ("operation_id", JStr "op")].

(** A committed call that is submitted again. *)
Definition resubmitted : Server ToolExecutionLedger Database (gmap string Session) :=
  let post := post (fun _ => "") (fun _ => None) demo_send in
  out_st (post (JObj commit_body) "submit" (out_st (post (JObj commit_body) "commit" (demo_server one_call) 5%nat)) 9%nat).

(** The first endpoint tried answered at once; another one's breaker was open. *)
Definition other_endpoint : Endpoint := demo_endpoint "c" "groq" "llama" 2 [].
Definition calm_decision : RoutingDecision :=
  match out_res (execute flaky_then_good 60 (demo_request []) "coding" (Some "priority") 300000 [] None
    (demo_executor [demo_endpoint "b" "mistral" "codestral" 1 []; other_endpoint] (tripped (resource_key other_endpoint))) 20%nat) with
  | Ok (Some (_, d, _)) => d
  | _ => {| dec_request_id := ""; strategy := ""; selected_endpoint := None; evaluated_candidates := []; total_considered := 0; total_eligible := 0;
            fallback_reason := None; shadow_recommended_endpoint := None; shadow_recommended_score := None; shadow_abstained := true |}
  end.

(** What the endpoints say and do differ.  The MCP endpoint knows no tool and yet
    answers a call of any tool as committed, and records it so, without running
    anything; a committed operation that is submitted again becomes unresolved
    although its receipt is still there, so the executor replays it and the MCP
    proxy refuses it; an answer of the first endpoint tried is labelled a failover
    when the breaker of another endpoint is open; and the ASGI application
    answers a client that asked for a stream with one document. *)
Theorem proxy_endpoint_gaps :
  (mcp_field "tools" "tools/list" [] = JArr [] /\ mcp_field "_lcb_status" "tools/call" rm_params = JStr "committed" /\
   map status (od_values (records_by_call_id (ledger_of (out_st (mcp_run "tools/call" rm_params (demo_server (new_ledger 8 None))))))) = [COMMITTED]) /\
  (out_res (has_indeterminate_operation dumps_sorted sha256 "op" "note" (JObj []) (ledger_of resubmitted) 0%nat) = Ok true /\
   out_res (check_idempotency dumps_sorted sha256 wall "op" "note" (JObj []) (ledger_of resubmitted) 0%nat) = Ok (true, Some (JObj [("output", JStr "done")]))) /\
  (fallback_reason calm_decision = None /\ ep_id <$> selected_endpoint calm_decision = Some "b" /\
   hget "X-LCB-Failover" (fst (build_failover_telemetry "claude-x" calm_decision new_attempt_ledger)) = Some "true") /\
  (match body_of (std_run (chat_body true)), body_of (asgi_run (chat_body true)) with Some (StreamBody _), Some (JsonBody _) => True | _, _ => False end).
Proof. split_and!; vm_compute; first [exact eq_refl | exact I]. Qed.

(** ** Pages *)

Section pages.
Context {R : Runtime} {T A C : Type} `{TL : ToolLedgerOps T} `{AS : AttemptStoreOps A} `{CO : ContinuationStore C}.
Context (dumps_text : json -> string) (canary_alive : bool) (uk_now : nat -> Q) (uk_stamp : Q -> string).
Implicit Types s : Server T A C.
Local Abbreviation get_page := (do_GET (T := T) (A := A) (C := C) dumps_text canary_alive uk_now uk_stamp).

Lemma returns_map_m {E S X B} (f : X -> M E S B) l : (forall x, returns (f x)) -> returns (map_m f l).
Proof. intros Hf. induction l as [|x l IH]; cbn [map_m]; answers; done. Qed.
Lemma returns_calm {S B} (m : M Empty_set S B) : returns (calm m).
Proof. intros s n. unfold calm. by destruct (m s n) as [[[b|[]] s'] n']. Qed.
Lemma returns_snapshot clk : returns (snapshot clk : M exn (CircuitBreaker * option unit) BreakerSnapshot).
Proof.
  intros w n. unfold snapshot. destruct (check_spec clk w n) as (w1 & n1 & Hc & _). mstep. mstep.
  erewrite bind_ok by apply self_snapshot_eq. done.
Qed.
Lemma returns_pools {B} (m : M Empty_set IsolatedPoolManager B) : returns (on_gateway (T := T) (A := A) (C := C) (on_pools m)).
Proof. unfold on_gateway, on_pools. answers. apply returns_calm. Qed.
Lemma returns_breaker_page id : returns (on_gateway (T := T) (A := A) (C := C) (on_executor (zoom router set_router (on_breakers (on_breaker id (snapshot breaker_clock)))))).
Proof. unfold on_gateway, on_executor, on_breakers. answers. apply returns_on_breaker, returns_snapshot. Qed.
Hint Resolve returns_map_m returns_pools returns_breaker_page : returns.
Lemma returns_all_breakers : returns (all_breakers (T := T) (A := A) (C := C)).
Proof. unfold all_breakers, breaker_entry. answers. apply returns_map_m. intros x. answers. Qed.
Hint Resolve returns_all_breakers : returns.

(** A method that returns a reply of a given status. *)
Definition replies (status : Z) (m : M exn (Server T A C) http_reply) : Prop :=
  forall s n, exists r s' n', m s n = (Ok r, s', n') /\ rp_status r = status.
Lemma replies_ret status r : rp_status r = status -> replies status (mret r).
Proof. intros H s n. by exists r, s, n. Qed.
Lemma replies_bind {B} status (m : M exn (Server T A C) B) k : returns m -> (forall b, replies status (k b)) -> replies status (mbind k m).
Proof.
  intros Hm Hk s n. specialize (Hm s n). unfold mbind, M_bind. destruct (m s n) as [[[b|e] s'] n']; [apply Hk | done].
Qed.
Ltac page := repeat (apply replies_bind; [first [solve [answers] | apply returns_map_m; intros ?; unfold breaker_summary; answers] | intros ?]); by apply replies_ret.
Lemma health_replies : replies 200 (get_health dumps_text).
Proof. unfold get_health. page. Qed.
Lemma models_replies : replies 200 (get_models dumps_text).
Proof. unfold get_models. page. Qed.
Lemma status_pages_reply : replies 200 (get_metrics dumps_text) /\ replies 200 (get_breakers dumps_text) /\
  replies 200 (get_canary_status dumps_text canary_alive uk_now uk_stamp).
Proof. unfold get_metrics, get_breakers, get_canary_status. split_and!; page. Qed.
End pages.

(** Every page is answered: no GET raises, and HEAD of a path announces the status its
    GET has. *)
Theorem head_announces_get `{Runtime} `{ToolLedgerOps T} `{AttemptStoreOps A} `{ContinuationStore C} dumps_text canary_alive uk_now uk_stamp path
    (s : Server T A C) n :
  exists r s' n', do_GET dumps_text canary_alive uk_now uk_stamp path s n = (Ok r, s', n') /\ rp_status r = rp_status (do_HEAD path).
Proof.
  destruct (status_pages_reply (T := T) (A := A) (C := C) dumps_text canary_alive uk_now uk_stamp) as (Hm & Hb & Hc).
  enough (replies (rp_status (do_HEAD path)) (do_GET (T := T) (A := A) (C := C) dumps_text canary_alive uk_now uk_stamp path)) as Hr by apply Hr.
  pose proof (health_replies (T := T) (A := A) (C := C) dumps_text) as Hh. pose proof (models_replies (T := T) (A := A) (C := C) dumps_text) as Hl.
  destruct (decide (path ∈ HEAD_PATHS)) as [Hin|Hout].
  - apply list_elem_of_In in Hin. cbn in Hin.
    repeat (destruct Hin as [<-|Hin]; [first [exact Hh | exact Hm | exact Hb | exact Hc | exact Hl | by apply replies_ret]|]). done.
  - assert (forall p, p ∈ HEAD_PATHS -> String.eqb path p = false) as Hno by (intros p Hp; apply String.eqb_neq; congruence).
    unfold do_GET, do_HEAD, path_in, HEALTH_PATHS, HEAD_PATHS in *. cbn [existsb rp_status].
    rewrite !Hno by (apply list_elem_of_In; cbn; tauto). cbn. by apply replies_ret.
Qed.

(** The metrics page shows no telemetry.  It prints the module-wide store, which the
    executor of the proxy never uses: whatever has been measured, the page is empty. *)
Theorem metrics_page_omits_telemetry `{Runtime} `{ToolLedgerOps T} `{AttemptStoreOps A} `{ContinuationStore C} dumps_text (s : Server T A C) n :
  exists b r s' n', get_metrics dumps_text s n = (Ok r, s', n') /\
    rp_body r = JsonBody (JObj [("circuit_breakers", b); ("health_telemetry", JObj [])]).
Proof.
  unfold get_metrics. pose proof (returns_all_breakers s n) as Hr. unfold mbind, M_bind.
  destruct (all_breakers s n) as [[[b|e] s'] n']; [|done]. by eexists b, _, s', n'.
Qed.

