(* ===== verification/Runner.v ===== *)
(** * The unattended runner

    [examples/durable_runner.py]: it starts a gateway when none listens, writes the
    settings of the coding agent, and launches the agent turn after turn under a
    watchdog that ends a turn without repository activity.

    What the runner observes of the outside is given by reading: whether the port
    accepts, what [poll] says of the running process, the repository's tree, and how
    much longer than asked a sleep takes.  What it does is the list of its effects. *)

From stdpp Require Import base tactics list strings.
From Stdlib Require Import QArith Qround Lqa.
From S2P Require Import Prelude Json PyDyn Models PyText Classifier ClassifierProps Pools Executor LegacyRouter.

(** ** State *)

Definition line_feed : string := String (chr 10) "".

(** The entries of a directory; a file whose [stat] raises has no time. *)
Inductive entry : Type :=
| File (name : string) (mtime : option Q)
| Dir (name : string) (children : list entry).

Inductive effect : Type :=
| Printed (text : string)
| Slept (seconds : Q)
| StartedGateway (port : Z)
| LaunchedTurn (command : list string) (env : odict string string)
| Terminated
| Killed.

Record World : Type := {
  rn_now : Q;
  rn_effects : list effect;
  rn_settings : option string;
  rn_backups : odict string string;
}.
Definition emit (e : effect) (w : World) : World :=
  {| rn_now := rn_now w; rn_effects := rn_effects w ++ [e]; rn_settings := rn_settings w; rn_backups := rn_backups w |}.
Definition pass_time (q : Q) (w : World) : World :=
  {| rn_now := rn_now w + q; rn_effects := rn_effects w; rn_settings := rn_settings w; rn_backups := rn_backups w |}.
Definition write_settings (s : string) (w : World) : World :=
  {| rn_now := rn_now w; rn_effects := rn_effects w; rn_settings := Some s; rn_backups := rn_backups w |}.
Definition back_up (name text : string) (w : World) : World :=
  {| rn_now := rn_now w; rn_effects := rn_effects w; rn_settings := rn_settings w; rn_backups := od_set name text (rn_backups w) |}.

(** [SystemExit] and the [RuntimeError] of a gateway that does not start. *)
Inductive runner_exit : Type := GoalMissing | SettingsExist | GatewayDown (port : Z).

Section runner.
Context (port_open : nat -> bool) (poll : nat -> option Z) (tree : nat -> list entry) (lag : nat -> Q)
  (progress_exists : nat -> bool) (environ : odict string string) (dumps_indent : json -> string).
Context (watchdog_timeout : Q).
Local Abbreviation W := (M runner_exit World).

Definition read {B} (f : nat -> B) : W B := fun w n => (Ok (f n), w, S n).
Definition act (e : effect) : W unit := modify (emit e).
Definition print (s : string) : W unit := act (Printed s).
Definition rn_sleep (q : Q) : W unit := fun w n => (Ok tt, pass_time (q + lag n) (emit (Slept q) w), S n).
Definition rn_time : W Q := gets rn_now.

(** ** The gateway *)

(** The loop of twenty polls. *)
Fixpoint await_port (k : nat) (port : Z) : W bool :=
  match k with
  | O => raise (GatewayDown port)
  | S k' =>
      up ← read port_open;
      if up : bool then print ("[✔] Gateway online on port " ++ py_str_int port)%string ;; mret true
      else rn_sleep (1 # 2) ;; await_port k' port
  end.

(** [ensure_gateway_running]: whether it started a process. *)
Definition ensure_gateway_running (port : Z) : W bool :=
  up ← read port_open;
  if up : bool then print ("[✔] DuraLLM Gateway is already active on port " ++ py_str_int port)%string ;; mret false
  else
    print ("[⚡] Starting DuraLLM Gateway on port " ++ py_str_int port ++ "...")%string ;;
    act (StartedGateway port) ;;
    await_port 20 port.

(** ** Settings *)

Definition base_url_of (port : Z) : string := ("http://127.0.0.1:" ++ py_str_int port)%string.
Definition claude_settings (port : Z) : json :=
  JObj [("env", JObj
    [("ANTHROPIC_BASE_URL", JStr (base_url_of port)); ("ANTHROPIC_AUTH_TOKEN", JStr "sk-circuit-breaker-token"); ("ANTHROPIC_API_KEY", JStr "");
     ("ANTHROPIC_DEFAULT_SONNET_MODEL", JStr "claude-3-7-sonnet-20250219"); ("ANTHROPIC_DEFAULT_HAIKU_MODEL", JStr "claude-3-5-haiku-20241022");
     ("CLAUDE_CODE_SUBAGENT_MODEL", JStr "claude-3-7-sonnet-20250219"); ("CLAUDE_CODE_DISABLE_1M_CONTEXT", JStr "1");
     ("DISABLE_TELEMETRY", JStr "1"); ("API_TIMEOUT_MS", JStr "600000")])].
Definition backup_name (now : Q) : string := ("settings.json.bak-" ++ py_str_int (py_trunc now))%string.

(** [configure_claude_settings] *)
Definition configure_claude_settings (port : Z) (force : bool) : W unit :=
  w ← get;
  match rn_settings w with
  | Some old =>
      if force then
        now ← rn_time;
        modify (back_up (backup_name now) old) ;;
        print ("[i] Backed up existing settings -> " ++ backup_name now)%string
      else raise SettingsExist
  | None => mret tt
  end ;;
  modify (write_settings (dumps_indent (claude_settings port))) ;;
  print ("[✔] Configured Claude Code settings -> " ++ base_url_of port)%string.

(** ** Repository activity *)

Definition newer (acc m : Q) : Q := if acc ≺ m then m else acc.
Definition scan_file (acc : Q) (e : entry) : Q := match e with File _ (Some m) => newer acc m | _ => acc end.
Definition pruned (name : string) : bool := String.eqb name ".git" || String.eqb name "__pycache__".

(** The walk below one directory: its files, then its subdirectories in order. *)
Fixpoint scan_dir (acc : Q) (e : entry) : Q :=
  match e with
  | File _ _ => acc
  | Dir _ children =>
      fold_left (fun acc c => match c with Dir name _ => if pruned name then acc else scan_dir acc c | File _ _ => acc end)
        children (fold_left scan_file children acc)
  end.
(** [get_latest_repo_mutation_time] *)
Definition get_latest_repo_mutation_time : W Q :=
  children ← read tree;
  let latest := scan_dir 0 (Dir "" children) in
  if Qeqb latest 0 then rn_time else mret latest.

(** ** A turn *)

(** The watchdog's way to end a turn; an exception of the signals is dropped. *)
Definition end_turn (idle_seconds : Q) : W Z :=
  print (line_feed ++ "[⚠️ WATCHDOG] No repository activity detected for " ++ py_str_int (py_trunc idle_seconds) ++ "s.")%string ;;
  print "[⚠️ WATCHDOG] Claude Code appears stalled. Terminating turn cleanly for restart..." ;;
  act Terminated ;;
  rn_sleep 2 ;;
  p ← read poll;
  match p with None => act Killed | Some _ => mret tt end ;;
  mret 99%Z.

(** The watchdog loop; [None] when the fuel is spent. *)
Fixpoint watch (fuel : nat) (last_mutation start_time : Q) : W (option Z) :=
  match fuel with
  | O => mret None
  | S fuel' =>
      p ← read poll;
      match p with
      | Some code => mret (Some code)
      | None =>
          rn_sleep 5 ;;
          current_mutation ← get_latest_repo_mutation_time;
          let last_mutation := newer last_mutation current_mutation in
          now ← rn_time;
          let idle_seconds := (now - last_mutation)%Q in
          if (watchdog_timeout ≺ idle_seconds) && (watchdog_timeout ≺ now - start_time)%Q
          then code ← end_turn idle_seconds; mret (Some code)
          else watch fuel' last_mutation start_time
      end
  end.

Definition turn_prompt (goal : string) (turn : Z) (has_progress : bool) : string :=
  ("You are executing autonomous engineering task: " ++ goal ++ "." ++ line_feed ++
   "This is engineering execution turn #" ++ py_str_int turn ++ "." ++ line_feed ++
   (if has_progress then line_feed ++ "Refer to PROGRESS.md to inspect validated checkpoints from previous turns." ++ line_feed else "") ++
   "Instructions for this turn:" ++ line_feed ++
   "1. Inspect the codebase, tests, and recent failure logs (if any)." ++ line_feed ++
   "2. Implement or fix the required logic." ++ line_feed ++
   "3. Run automated tests to verify your changes." ++ line_feed ++
   "4. Record milestones and verified checkpoints in PROGRESS.md." ++ line_feed ++
   "Do not stop until the task objectives and test suites are 100% complete and passing.")%string.
Definition turn_env (port : Z) : odict string string :=
  od_set "DISABLE_TELEMETRY" "1"
    (od_set "ANTHROPIC_DEFAULT_SONNET_MODEL" "claude-3-7-sonnet-20250219"
      (od_set "ANTHROPIC_API_KEY" ""
        (od_set "ANTHROPIC_AUTH_TOKEN" "sk-circuit-breaker-token"
          (od_set "ANTHROPIC_BASE_URL" (base_url_of port) environ)))).
Definition turn_command (prompt : string) (skip_permissions : bool) : list string :=
  ["claude"] ++ (if skip_permissions then ["--dangerously-skip-permissions"] else []) ++ ["-p"; prompt].

Context (goal goal_name repo : string).

(** [run_claude_turn] *)
Definition run_claude_turn (fuel : nat) (turn port : Z) (skip_permissions : bool) : W (option Z) :=
  has_progress ← read progress_exists;
  let prompt := turn_prompt goal turn has_progress in
  print (line_feed ++ "==============================================================")%string ;;
  print ("  [RUNNER] Launching Claude Code Turn #" ++ py_str_int turn)%string ;;
  print ("  [RUNNER] Goal: " ++ goal_name ++ " | Working Directory: " ++ repo)%string ;;
  print ("==============================================================" ++ line_feed)%string ;;
  act (LaunchedTurn (turn_command prompt skip_permissions) (turn_env port)) ;;
  last_mutation ← get_latest_repo_mutation_time;
  start_time ← rn_time;
  watch fuel last_mutation start_time.

(** ** The session *)

(** The loop over the turns, [k] of them left; [None] when a turn's fuel is spent. *)
Fixpoint session (fuel k : nat) (turn port : Z) (skip_permissions : bool) : W (option unit) :=
  match k with
  | O => mret (Some tt)
  | S k' =>
      o ← run_claude_turn fuel turn port skip_permissions;
      match o with
      | None => mret None
      | Some exit_code =>
          print ("[RUNNER] Turn #" ++ py_str_int turn ++ " completed with exit code " ++ py_str_int exit_code)%string ;;
          if (exit_code =? 0)%Z then print ("[✔] Goal '" ++ goal_name ++ "' completed successfully!")%string ;; mret (Some tt)
          else
            print ("[RUNNER] Preparing turn #" ++ py_str_int (turn + 1) ++ " with clean context...")%string ;;
            rn_sleep 3 ;;
            session fuel k' (turn + 1) port skip_permissions
      end
  end.

(** [main], with the parsed arguments. *)
Definition main (fuel : nat) (goal_exists : bool) (max_turns port : Z) (force_settings skip_permissions : bool) : W (option unit) :=
  if negb goal_exists then print ("Goal file not found: " ++ goal)%string ;; raise GoalMissing
  else
    ensure_gateway_running port ;;
    configure_claude_settings port force_settings ;;
    o ← session fuel (Z.to_nat max_turns) 1 port skip_permissions;
    match o with
    | None => mret None
    | Some _ => print "[RUNNER] Autonomous session loop finished." ;; mret (Some tt)
    end.
End runner.

(** ** The integration example

    [examples/openclaw_example.py]: one turn of an agent over the first-generation
    router.  The client library's answer is a function of the route and of the reading. *)

Module OpenClaw.
Inductive step_end : Type := Answered (text : string) | Reraised (err : error_value) | Exhausted.

Section openclaw.
Context (mono wall : nat -> Q) (parse_http_date : string -> option Q) (key_error : error_value).
Context (ask : active_route -> nat -> string + error_value).
Local Abbreviation L := (M dyn_error LegacyWorld).

Definition route_provider (r : active_route) : string :=
  match r with ChainItem i => default "" (fi_provider i) | PoolRoute p => rt_provider p end.
Definition route_model (r : active_route) : string :=
  match r with ChainItem i => default "" (fi_model i) | PoolRoute p => rt_model p end.
(** The [try] body; the empty dictionary of no route has no provider. *)
Definition ask_route (route : option active_route) : L (string + error_value) := fun w n =>
  match route with Some r => (Ok (ask r n), w, S n) | None => (Ok (inr key_error), w, n) end.

(** The [while True] loop; [None] when the fuel is spent. *)
Fixpoint run_openclaw_step (fuel : nat) : L (option step_end) :=
  match fuel with
  | O => mret None
  | S fuel' =>
      route ← active_provider mono wall;
      answer ← ask_route route;
      match answer with
      | inl text => mret (Some (Answered text))
      | inr err =>
          classified ← classifying (classify_failure wall parse_http_date err None []);
          if negb (fc_should_fallback classified) then mret (Some (Reraised err))
          else
            match route with
            | Some r =>
                if is_rate_limit_reason (fc_reason classified) then router_mark_cooldown mono (route_provider r) 60 None None
                else if bool_decide (fc_reason classified = model_not_found) then router_mark_deprecated (route_model r) None
                else mret tt
            | None => mret tt
            end ;;
            next_route ← get_next_available_route mono wall None;
            match next_route with None => mret (Some Exhausted) | Some _ => run_openclaw_step fuel' end
      end
  end.
End openclaw.
End OpenClaw.

(** ** Correctness *)

Module RunnerProps.

(** *** The newest file *)

Section entries.
Context (P : entry -> Prop) (Hfile : forall name m, P (File name m)) (Hdir : forall name children, Forall P children -> P (Dir name children)).
Fixpoint entry_nested_ind (e : entry) : P e :=
  match e with
  | File name m => Hfile name m
  | Dir name children =>
      Hdir name children ((fix go (l : list entry) : Forall P l :=
        match l with [] => List.Forall_nil _ | x :: l' => List.Forall_cons P x l' (entry_nested_ind x) (go l') end) children)
  end.
End entries.

(** The times of the files below a directory, less the pruned ones. *)
Fixpoint mtimes (e : entry) : list Q :=
  match e with
  | File _ (Some m) => [m]
  | File _ None => []
  | Dir _ children => flat_map (fun c => match c with Dir name _ => if pruned name then [] else mtimes c | File _ _ => mtimes c end) children
  end.
(** [r] is the greatest of [acc] and the elements of [l]. *)
Definition greatest (acc r : Q) (l : list Q) : Prop := (acc <= r)%Q /\ Forall (fun m => (m <= r)%Q) l /\ (r = acc \/ r ∈ l).

Lemma newer_greatest acc m : greatest acc (newer acc m) [m].
Proof.
  unfold newer, greatest. destruct (acc ≺ m) eqn:E; qbool.
  - split_and!; [lra | repeat constructor; lra | right; left].
  - split_and!; [lra | repeat constructor; lra | by left].
Qed.
Lemma greatest_trans a b c l1 l2 : greatest a b l1 -> greatest b c l2 -> greatest a c (l1 ++ l2).
Proof.
  intros (H1 & H2 & H3) (K1 & K2 & K3). unfold greatest. rewrite Forall_app, elem_of_app. split_and!; [lra | | done |].
  - eapply Forall_impl; [exact H2|]. cbn. intros x Hx. lra.
  - destruct K3 as [->|K3]; [|tauto]. destruct H3; tauto.
Qed.
Lemma greatest_perm a r l l' : (forall x, x ∈ l <-> x ∈ l') -> greatest a r l -> greatest a r l'.
Proof. intros Hl (H1 & H2 & H3). unfold greatest. rewrite Forall_forall in *. split_and!; [done | intros x Hx; by apply H2, Hl | rewrite <- Hl; done]. Qed.
Lemma fold_greatest {B} (f : Q -> B -> Q) (g : B -> list Q) l a :
  Forall (fun x => forall a, greatest a (f a x) (g x)) l -> greatest a (fold_left f l a) (flat_map g l).
Proof.
  intros Hl. revert a. induction Hl as [|x l Hx _ IH]; intros a; cbn; [split_and!; [lra | constructor | by left]|].
  eapply greatest_trans; [apply Hx | apply IH].
Qed.
Lemma scan_dir_greatest e a : match e with Dir _ _ => greatest a (scan_dir a e) (mtimes e) | File _ _ => True end.
Proof.
  revert a. induction e as [|name children IH] using entry_nested_ind; intros a; [done|]. cbn [scan_dir].
  apply greatest_perm with (l := flat_map (fun c => match c with File _ (Some m) => [m] | _ => [] end) children ++
     flat_map (fun c => match c with Dir nm _ => if pruned nm then [] else mtimes c | File _ _ => [] end) children).
  - intros x. rewrite elem_of_app, !list_elem_of_In, !in_flat_map. cbn [mtimes]. rewrite in_flat_map. split.
    + intros [(c & Hc & Hx)|(c & Hc & Hx)]; exists c; (split; [done|]); destruct c as [? [?|]|]; done.
    + intros (c & Hc & Hx). destruct c as [nm m|nm ch]; [left|right]; eexists; (split; [exact Hc|]); [by destruct m | done].
  - eapply greatest_trans; apply fold_greatest.
    + apply Forall_true. intros [nm [m|]|nm ch] b; cbn; [apply newer_greatest | |]; (split_and!; [lra | constructor | by left]).
    + eapply Forall_impl; [exact IH|]. intros [nm m|nm ch] Hc b; [split_and!; [lra | constructor | by left]|].
      destruct (pruned nm); [split_and!; [lra | constructor | by left] | apply Hc].
Qed.

(** *** The watchdog *)

Section watchdog.
Context (poll : nat -> option Z) (tree : nat -> list entry) (lag : nat -> Q) (watchdog_timeout : Q).
Local Abbreviation watch := (watch poll tree lag watchdog_timeout).
Implicit Types w : World.

(** The newest visible file at a reading, or the present when there is none. *)
Definition newest (n : nat) (now : Q) : Q :=
  let latest := scan_dir 0 (Dir "" (tree n)) in if Qeqb latest 0 then now else latest.
Definition after_nap (n : nat) (w : World) : World := pass_time (5 + lag n) (emit (Slept 5) w).

Lemma mutation_time_eq w n : get_latest_repo_mutation_time tree w n = (Ok (newest n (rn_now w)), w, S n).
Proof. unfold get_latest_repo_mutation_time, newest, mbind, M_bind, read. cbn. by destruct (Qeqb _ 0). Qed.
Lemma watch_step fuel last start w n : poll n = None ->
  watch (S fuel) last start w n =
    let w1 := after_nap (S n) w in
    let last' := newer last (newest (S (S n)) (rn_now w1)) in
    if (watchdog_timeout ≺ rn_now w1 - last') && (watchdog_timeout ≺ rn_now w1 - start)
    then (code ← end_turn poll lag (rn_now w1 - last'); mret (Some code)) w1 (S (S (S n)))
    else watch fuel last' start w1 (S (S (S n))).
Proof.
  intros Hp. cbn [Runner.watch]. unfold mbind at 1, M_bind at 1, read at 1. rewrite Hp. unfold mbind at 1, M_bind at 1, rn_sleep at 1.
  unfold mbind at 1, M_bind at 1. rewrite mutation_time_eq. unfold mbind at 1, M_bind at 1, rn_time, gets. cbv zeta. by destruct (_ && _).
Qed.
(** Ending a turn: the signal is sent, and a process that is still there is killed. *)
Lemma end_turn_eq idle w n : poll (S n) = None ->
  exists w', (code ← end_turn poll lag idle; mret (Some code)) w n = (Ok (Some 99%Z), w', S (S n)) /\
    Terminated ∈ rn_effects w' /\ last (rn_effects w') = Some Killed.
Proof.
  intros Hp. unfold end_turn, print, act, rn_sleep, read, modify, mbind, M_bind, mret, M_ret. cbn. rewrite Hp. eexists. split_and!; [reflexivity | cbn | cbn; by rewrite last_snoc].
  rewrite !elem_of_app, !list_elem_of_singleton. tauto.
Qed.

(** No process exit, files that do not change: the deadline passes. *)
Definition idle_since (m : Q) : Prop := forall k, let l := scan_dir 0 (Dir "" (tree k)) in (0 < l /\ l <= m)%Q.
Lemma newest_idle m k now : idle_since m -> (newest k now <= m)%Q.
Proof. intros H. destruct (H k) as [H1 H2]. unfold newest. cbv zeta. destruct (Qeqb _ 0) eqn:E; [apply andb_true_iff in E as [E1 E2]; qbool; lra | done]. Qed.
Lemma newer_le a b c : (a <= c)%Q -> (b <= c)%Q -> (newer a b <= c)%Q.
Proof. unfold newer. by destruct (a ≺ b). Qed.
Lemma stalled_watch m start fuel lst w n :
  (forall k, poll k = None) -> (forall k, (0 <= lag k)%Q) -> idle_since m -> (m <= start)%Q -> (lst <= start)%Q ->
  (rn_now w <= start + watchdog_timeout)%Q -> (start + watchdog_timeout < rn_now w + 5 * Qnat fuel)%Q ->
  exists w' n', watch fuel lst start w n = (Ok (Some 99%Z), w', n') /\ Terminated ∈ rn_effects w' /\ last (rn_effects w') = Some Killed.
Proof.
  intros Hp Hlag Hidle Hm. revert lst w n. induction fuel as [|fuel IH]; intros lst w n Hl Hn Hf.
  - assert (Qnat 0 == 0)%Q by reflexivity. nra.
  - rewrite watch_step by apply Hp. cbv zeta. set (w1 := after_nap (S n) w). set (lst' := newer lst _).
    assert (rn_now w + 5 <= rn_now w1)%Q as Hn1 by (specialize (Hlag (S n)); cbn; lra).
    assert (lst' <= start)%Q as Hl' by (apply newer_le; [done | pose proof (newest_idle m (S (S n)) (rn_now w1) Hidle); lra]).
    assert (Qnat (S fuel) == Qnat fuel + 1)%Q as HS by (unfold Qnat; rewrite Nat2Z.inj_succ; unfold Z.succ; by rewrite inject_Z_plus).
    destruct (_ && _) eqn:E.
    + destruct (end_turn_eq (rn_now w1 - lst') w1 (S (S (S n))) (Hp _)) as (w' & -> & H). by eexists _, _.
    + apply IH; [done | |].
      * apply andb_false_iff in E as [E|E]; qbool; lra.
      * rewrite HS in Hf. lra.
Qed.

(** Without a visible file the present counts as activity. *)
Lemma blind_watch start fuel last w n :
  (forall k, poll k = None) -> (forall k, scan_dir 0 (Dir "" (tree k)) == 0) -> (0 <= watchdog_timeout)%Q ->
  out_res (watch fuel last start w n) = Ok None.
Proof.
  intros Hp Ht HT. revert last w n. induction fuel as [|fuel IH]; intros lst w n; [done|]. rewrite watch_step by apply Hp. cbv zeta.
  set (w1 := after_nap (S n) w). assert (newest (S (S n)) (rn_now w1) = rn_now w1) as ->.
  { unfold newest. cbv zeta. destruct (Qeqb _ 0) eqn:E; [done|]. specialize (Ht (S (S n))). apply andb_false_iff in E as [E|E]; qbool; lra. }
  assert (rn_now w1 <= newer lst (rn_now w1))%Q by (unfold newer; destruct (lst ≺ rn_now w1) eqn:E; qbool; lra).
  destruct (watchdog_timeout ≺ rn_now w1 - newer lst (rn_now w1)) eqn:E; qbool; [lra | apply IH].
Qed.

(** The time of look [j] of a loop that starts at the time [now] and the reading [n]; a
    round polls the process, naps and walks the repository, in three readings. *)
Fixpoint look_time (now : Q) (n j : nat) : Q :=
  let t := (now + (5 + lag (S n)))%Q in
  match j with O => t | S j' => look_time t (S (S (S n))) j' end.
Definition seen_at (now : Q) (n i : nat) : Q := newest (n + 3 * i + 2) (look_time now n i).

Lemma newer_ge_l a b : (a <= newer a b)%Q.
Proof. unfold newer. destruct (a ≺ b) eqn:E; qbool; lra. Qed.
Lemma newer_ge a b : (b <= newer a b)%Q.
Proof. unfold newer. destruct (a ≺ b) eqn:E; qbool; lra. Qed.
Lemma end_turn_run idle w n : exists w', (code ← end_turn poll lag idle; mret (Some code)) w n = (Ok (Some 99%Z), w', S (S n)) /\
  rn_now w' = (rn_now w + (2 + lag n))%Q.
Proof. unfold end_turn, print, act, rn_sleep, read, modify, mbind, M_bind, mret, M_ret. cbn. by destruct (poll (S n)); eexists. Qed.

(** The watchdog acts on idle turns only: if it sent its signal, it did so at a look of
    this loop, the loop ended there, and nothing had been seen to move for the timeout. *)
Lemma watch_acts_idle start fuel lst w n :
  let run := watch fuel lst start w n in
  Terminated ∉ rn_effects w -> Terminated ∈ rn_effects (out_st run) ->
  exists j, (j < fuel)%nat /\ (forall i, (i <= j)%nat -> poll (n + 3 * i) = None) /\ out_res run = Ok (Some 99%Z) /\
    (let t := look_time (rn_now w) n j in
     rn_now (out_st run) = t + (2 + lag (n + 3 * j + 3)) /\ watchdog_timeout < t - start /\ watchdog_timeout < t - lst /\
     forall i, (i <= j)%nat -> watchdog_timeout < t - seen_at (rn_now w) n i)%Q.
Proof.
  cbv zeta. revert lst w n. induction fuel as [|fuel IH]; intros lst w n Hw; [done|]. destruct (poll n) as [code|] eqn:Hp.
  { cbn [Runner.watch]. unfold mbind, M_bind, read. rewrite Hp. done. }
  rewrite watch_step by done. cbv zeta. set (w1 := after_nap (S n) w). set (lst' := newer lst _).
  assert (rn_now w1 = rn_now w + (5 + lag (S n)))%Q as Hn1 by done.
  assert (seen_at (rn_now w) n 0 = newest (S (S n)) (rn_now w1)) as Hs0 by (unfold seen_at; rewrite Hn1; by replace (n + 3 * 0 + 2)%nat with (S (S n)) by lia).
  destruct (_ && _) eqn:E.
  - intros _. apply andb_true_iff in E as [E1 E2]. qbool. destruct (end_turn_run (rn_now w1 - lst') w1 (S (S (S n)))) as (w' & -> & Hn').
    pose proof (newer_ge lst (newest (S (S n)) (rn_now w1))). pose proof (newer_ge_l lst (newest (S (S n)) (rn_now w1))). fold lst' in H, H0.
    exists 0%nat. split_and!; [lia | intros i Hi; by replace i with 0%nat by lia; rewrite Nat.add_0_r | done | | | |].
    + cbn. rewrite Hn', Hn1. by replace (n + 0 + 3)%nat with (S (S (S n))) by lia.
    + done.
    + cbn [look_time]. rewrite <- Hn1. lra.
    + intros i Hi. replace i with 0%nat by lia. cbn [look_time]. rewrite Hs0, <- Hn1. lra.
  - intros Hi. destruct (IH lst' w1 (S (S (S n)))) as (j & Hj & Hpoll & Hr & Ht & Hst & Hl & Hseen); [|exact Hi|].
    { cbn. rewrite elem_of_app, list_elem_of_singleton. by intros [?|?]. }
    pose proof (newer_ge lst (newest (S (S n)) (rn_now w1))). pose proof (newer_ge_l lst (newest (S (S n)) (rn_now w1))). fold lst' in H, H0.
    assert (look_time (rn_now w) n (S j) = look_time (rn_now w1) (S (S (S n))) j) as Hlt by done.
    exists (S j). rewrite Hlt. split_and!; [lia | | done | | done | lra |].
    + intros [|i] Hi'; [by rewrite Nat.add_0_r|]. replace (n + 3 * S i)%nat with (S (S (S n)) + 3 * i)%nat by lia. apply Hpoll. lia.
    + rewrite Ht. by replace (n + 3 * S j + 3)%nat with (S (S (S n)) + 3 * j + 3)%nat by lia.
    + intros [|i] Hi'; [rewrite Hs0; lra|]. assert (seen_at (rn_now w) n (S i) = seen_at (rn_now w1) (S (S (S n))) i) as ->.
      { unfold seen_at. cbn [look_time]. rewrite <- Hn1. by replace (n + 3 * S i + 2)%nat with (S (S (S n)) + 3 * i + 2)%nat by lia. }
      apply Hseen. lia.
Qed.
End watchdog.

(** *** Turns *)

Section turns.
Context (port_open : nat -> bool) (poll : nat -> option Z) (tree : nat -> list entry) (lag : nat -> Q)
  (progress_exists : nat -> bool) (environ : odict string string) (dumps_indent : json -> string) (watchdog_timeout : Q)
  (goal goal_name repo : string).
Local Abbreviation run_turn := (run_claude_turn poll tree lag progress_exists environ watchdog_timeout goal goal_name repo).
Local Abbreviation session := (session poll tree lag progress_exists environ watchdog_timeout goal goal_name repo).

(** A turn is its launch and the watchdog's loop. *)
Lemma turn_unfold fuel turn port skip w n : exists w1 c env,
  run_turn fuel turn port skip w n = watch poll tree lag watchdog_timeout fuel (newest tree (S n) (rn_now w)) (rn_now w) w1 (S (S n)) /\
  rn_now w1 = rn_now w /\ exists ps, rn_effects w1 = rn_effects w ++ map Printed ps ++ [LaunchedTurn c env].
Proof.
  unfold run_claude_turn, print, act, read, modify, mbind, M_bind. cbn. rewrite mutation_time_eq. cbn.
  eexists _, _, _. split_and!; [reflexivity | done|]. cbn. eexists [_; _; _; _]. cbn. by rewrite <- !app_assoc.
Qed.

Definition is_launch (e : effect) : bool := match e with LaunchedTurn _ _ => true | _ => false end.
Definition launched (l : list effect) : nat := length (List.filter is_launch l).
Definition launches (w : World) : nat := launched (rn_effects w).
Definition success_line : effect := Printed ("[✔] Goal '" ++ goal_name ++ "' completed successfully!")%string.
Lemma launched_app l l' : launched (l ++ l') = (launched l + launched l')%nat.
Proof. unfold launched. by rewrite List.filter_app, length_app. Qed.
Lemma launches_emit k e : is_launch e = false -> preserves (fun w => launches w = k) (act e).
Proof.
  intros He w n Hw. change (launched (rn_effects w ++ [e]) = k). rewrite launched_app. unfold launched at 2. cbn. rewrite He. cbn.
  unfold launches in Hw. lia.
Qed.
Lemma launches_read {B} k (f : nat -> B) : preserves (fun w => launches w = k) (read f).
Proof. by intros w n Hw. Qed.
Lemma launches_sleep k q : preserves (fun w => launches w = k) (rn_sleep lag q).
Proof. intros w n Hw. exact (launches_emit k (Slept q) eq_refl w n Hw). Qed.
Hint Resolve launches_emit launches_read launches_sleep : launches.
Lemma launches_watch k fuel lst start : preserves (fun w => launches w = k) (watch poll tree lag watchdog_timeout fuel lst start).
Proof.
  revert lst. induction fuel as [|fuel IH]; intros lst; cbn [watch]; unfold get_latest_repo_mutation_time, end_turn, print, rn_time;
    preserve; auto with launches.
Qed.
Lemma turn_launches fuel turn port skip w n : launches (out_st (run_turn fuel turn port skip w n)) = S (launches w).
Proof.
  destruct (turn_unfold fuel turn port skip w n) as (w1 & c & env & -> & _ & ps & He).
  apply launches_watch. unfold launches. rewrite He, !launched_app. change (launched [LaunchedTurn c env]) with 1%nat.
  assert (launched (map Printed ps) = 0)%nat as -> by (clear He; unfold launched; by induction ps). lia.
Qed.
(** What follows a turn. *)
Definition reported (turn code : Z) (w : World) : World :=
  emit (Printed ("[RUNNER] Turn #" ++ py_str_int turn ++ " completed with exit code " ++ py_str_int code)%string) w.
Definition rested (turn : Z) (n : nat) (w : World) : World :=
  pass_time (3 + lag n) (emit (Slept 3) (emit (Printed ("[RUNNER] Preparing turn #" ++ py_str_int (turn + 1) ++ " with clean context...")%string) w)).
Lemma session_step fuel k turn port skip w n code w1 n1 : run_turn fuel turn port skip w n = (Ok (Some code), w1, n1) ->
  session fuel (S k) turn port skip w n =
    if (code =? 0)%Z then (Ok (Some tt), emit success_line (reported turn code w1), n1)
    else session fuel k (turn + 1) port skip (rested turn n1 (reported turn code w1)) (S n1).
Proof. intros Er. cbn [Runner.session]. erewrite bind_ok by exact Er. by destruct (code =? 0)%Z eqn:E; unfold mbind, M_bind; cbn; rewrite E. Qed.
Lemma launches_plain e w : is_launch e = false -> launches (emit e w) = launches w.
Proof. intros He. exact (launches_emit (launches w) e He w 0%nat eq_refl). Qed.
Lemma launches_rested turn code n w : launches (rested turn n (reported turn code w)) = launches w.
Proof.
  unfold rested, reported. etrans; [apply (launches_plain (Slept 3)); done|]. by rewrite !launches_plain.
Qed.
Lemma session_turns fuel k turn port skip w n :
  let o := session fuel k turn port skip w n in
  (launches (out_st o) <= launches w + k)%nat /\
  (out_res o = Ok (Some tt) -> launches (out_st o) = (launches w + k)%nat \/ success_line ∈ rn_effects (out_st o)).
Proof.
  revert turn w n. induction k as [|k IH]; intros turn w n; cbv zeta; [cbn; split; [lia | intros _; left; lia]|].
  pose proof (turn_launches fuel turn port skip w n) as Ht.
  destruct (run_turn fuel turn port skip w n) as [[[[code|]|x] w1] n1] eqn:Er; cbn in Ht.
  - rewrite (session_step fuel k turn port skip w n code w1 n1 Er). destruct (code =? 0)%Z.
    + cbn [out_st out_res fst snd]. unfold out_st, out_res. cbn [fst snd]. rewrite launches_plain by done. unfold reported at 1. rewrite launches_plain by done.
      split; [lia|]. intros _. right. cbn. rewrite elem_of_app. right. by apply list_elem_of_singleton.
    + specialize (IH (turn + 1)%Z (rested turn n1 (reported turn code w1)) (S n1)). cbv zeta in IH. rewrite launches_rested in IH.
      destruct IH as [IH1 IH2]. split; [lia|]. intros Hr. destruct (IH2 Hr) as [H|H]; [left; lia | by right].
  - cbn [Runner.session]. erewrite bind_ok by exact Er. cbn. split; [lia | done].
  - cbn [Runner.session]. erewrite bind_raise by exact Er. cbn. split; [lia | done].
Qed.
End turns.

(** ** Claims *)

(** C40: The watchdog ends the turns that stand still, and only those.  If it sent its
    signal in a turn, it did so at the last look of that turn: the process had not ended at
    any look, the turn had lasted longer than the timeout, the newest visible file of the
    repository, at the launch and at every look of the turn, was older than the timeout at
    that moment, and the turn ended with code 99 after the two seconds of grace.  And a
    turn that neither ends nor touches a repository in which there are visible files is
    ended with code 99, by the signal and then by force, after no more than the timeout
    divided by the nap, plus one, rounds of the loop. *)
Theorem watchdog_judges_turns poll tree lag progress_exists environ timeout goal goal_name repo fuel turn port skip m w n :
  let run := run_claude_turn poll tree lag progress_exists environ timeout goal goal_name repo fuel turn port skip w n in
  let first := (n + 2)%nat in
  (Terminated ∉ rn_effects w -> Terminated ∈ rn_effects (out_st run) ->
   exists j, (forall i, (i <= j)%nat -> poll (first + 3 * i)%nat = None) /\ out_res run = Ok (Some 99%Z) /\
     (let t := look_time lag (rn_now w) first j in
      rn_now (out_st run) = t + (2 + lag (first + 3 * j + 3)%nat) /\ timeout < t - rn_now w /\
      timeout < t - newest tree (n + 1) (rn_now w) /\
      forall i, (i <= j)%nat -> timeout < t - seen_at tree lag (rn_now w) first i)%Q) /\
  ((forall k, poll k = None) -> (forall k, (0 <= lag k)%Q) -> idle_since tree m -> (m <= rn_now w)%Q -> (0 <= timeout < 5 * Qnat fuel)%Q ->
   out_res run = Ok (Some 99%Z) /\ Terminated ∈ rn_effects (out_st run) /\ last (rn_effects (out_st run)) = Some Killed).
Proof.
  intros run first. subst run. destruct (turn_unfold poll tree lag progress_exists environ timeout goal goal_name repo fuel turn port skip w n)
    as (w1 & c & env & -> & Hn & ps & He). unfold first. rewrite (Nat.add_comm n 2), (Nat.add_comm n 1). cbn [Nat.add]. split.
  - intros Hw Hi. destruct (watch_acts_idle poll tree lag timeout (rn_now w) fuel (newest tree (S n) (rn_now w)) w1 (S (S n)))
      as (j & _ & Hp & Hr & Ht & Hs & Hl & Hseen); [|exact Hi|].
    { rewrite He, !elem_of_app, list_elem_of_fmap, list_elem_of_singleton. by intros [?|[(? & ? & ?)|?]]. }
    rewrite Hn in Ht, Hs, Hl, Hseen. exists j. by split_and!.
  - intros Hp Hlag Hidle Hm [HT1 HT2].
    destruct (stalled_watch poll tree lag timeout m (rn_now w) fuel (newest tree (S n) (rn_now w)) w1 (S (S n))) as (w' & n' & -> & H1 & H2); try done.
    + pose proof (newest_idle tree m (S n) (rn_now w) Hidle). lra.
    + rewrite Hn. lra.
    + rewrite Hn. lra.
Qed.
(** A repository with one old file and a process that hangs, under the default timeout: the
    turn is ended at its 61st look. *)
Lemma watchdog_judges_turns_witness :
  let w := {| rn_now := 1000; rn_effects := []; rn_settings := None; rn_backups := [] |} in
  let run := run_claude_turn (fun _ => None) (fun _ => [File "main.py" (Some 100)]) (fun _ => 0) (fun _ => false) [] 300 "/g.md" "g.md" "/r" 61 1 4001 false w 0%nat in
  (exists j, rn_now (out_st run) = look_time (fun _ => 0) 1000 2 j + (2 + 0) /\ 300 < look_time (fun _ => 0) 1000 2 j - 1000)%Q /\
  out_res run = Ok (Some 99%Z).
Proof.
  intros w run.
  destruct (watchdog_judges_turns (fun _ => None) (fun _ => [File "main.py" (Some 100)]) (fun _ => 0) (fun _ => false) [] 300 "/g.md" "g.md" "/r" 61 1 4001 false 100
    w 0%nat) as [Honly Hends].
  destruct Hends as (Hr & Ht & _);
    [reflexivity | intros k; lra | intros k; vm_compute; split; [reflexivity | discriminate] | vm_compute; discriminate | vm_compute; split; [discriminate | reflexivity] |].
  destruct Honly as (j & _ & _ & Hnow & Hlong & _); [apply not_elem_of_nil | exact Ht|].
  split; [exists j; exact (conj Hnow Hlong) | exact Hr].
Defined.

(** A repository without files: [latest or time.time()] makes every look an activity, so
    a hanging turn is never ended, whatever the timeout. *)
Theorem empty_repository_blinds_watchdog poll tree lag progress_exists environ timeout goal goal_name repo fuel turn port skip w n :
  (forall k, poll k = None) -> (forall k, scan_dir 0 (Dir "" (tree k)) == 0) -> (0 <= timeout)%Q ->
  out_res (run_claude_turn poll tree lag progress_exists environ timeout goal goal_name repo fuel turn port skip w n) = Ok None.
Proof.
  intros Hp Ht HT. destruct (turn_unfold poll tree lag progress_exists environ timeout goal goal_name repo fuel turn port skip w n)
    as (w1 & c & env & -> & _). by apply blind_watch.
Qed.

(** The newest visible file is what the walk returns, when its time is positive. *)
Theorem mutation_time_is_newest tree w n m :
  m ∈ mtimes (Dir "" (tree n)) -> (0 < m)%Q ->
  exists r, get_latest_repo_mutation_time tree w n = (Ok r, w, S n) /\ r ∈ mtimes (Dir "" (tree n)) /\
    Forall (fun m' => (m' <= r)%Q) (mtimes (Dir "" (tree n))).
Proof.
  intros Hm H0. rewrite mutation_time_eq. eexists. split; [done|].
  destruct (scan_dir_greatest (Dir "" (tree n)) 0) as (H1 & H2 & H3).
  pose proof (proj1 (Forall_forall _ _) H2 m Hm) as Hle. cbv beta in Hle. unfold newest. cbv zeta.
  destruct (Qeqb (scan_dir 0 (Dir "" (tree n))) 0) eqn:E; [apply andb_true_iff in E as [E1 E2]; qbool; lra|].
  split; [|done]. destruct H3 as [H3|H3]; [|done]. rewrite H3 in Hle. lra.
Qed.

(** The session is bounded: at most [max_turns] turns are launched, and when fewer are,
    a turn ended with exit code 0 and the goal was reported complete. *)
Theorem session_bounded poll tree lag progress_exists environ timeout goal goal_name repo fuel k port skip w n :
  let o := session poll tree lag progress_exists environ timeout goal goal_name repo fuel k 1 port skip w n in
  (launches (out_st o) <= launches w + k)%nat /\
  (out_res o = Ok (Some tt) -> (launches (out_st o) < launches w + k)%nat -> success_line goal_name ∈ rn_effects (out_st o)).
Proof.
  destruct (session_turns poll tree lag progress_exists environ timeout goal goal_name repo fuel k 1 port skip w n) as [H1 H2].
  split; [exact H1|]. intros Hr Hlt. destruct (H2 Hr) as [H|H]; [cbv zeta in *; lia | exact H].
Qed.

(** Waiting for the gateway: it returns as soon as the port accepts, or raises after
    twenty looks and ten seconds of sleep. *)
Lemma await_port_spec port_open lag k port w n :
  match await_port port_open lag k port w n with
  | (Ok b, w', n') => b = true /\ exists j, (j < k)%nat /\ port_open (n + 2 * j)%nat = true /\ (forall i, (i < j)%nat -> port_open (n + 2 * i)%nat = false)
  | (Raise x, w', n') => x = GatewayDown port /\ (forall i, (i < k)%nat -> port_open (n + 2 * i)%nat = false) /\
      rn_effects w' = rn_effects w ++ replicate k (Slept (1 # 2))
  end.
Proof.
  revert w n. induction k as [|k IH]; intros w n; cbn [await_port].
  { split_and!; [done | lia | by rewrite app_nil_r]. }
  unfold mbind at 1, M_bind at 1, read. destruct (port_open n) eqn:E.
  - cbn. split; [done|]. exists 0%nat. split_and!; [lia | by rewrite Nat.add_0_r | lia].
  - unfold mbind, M_bind, rn_sleep. specialize (IH (pass_time ((1 # 2) + lag (S n)) (emit (Slept (1 # 2)) w)) (S (S n))).
    assert (forall i, (i < S k)%nat -> (forall i, (i < k)%nat -> port_open (S (S n) + 2 * i)%nat = false) -> port_open (n + 2 * i)%nat = false) as Hi.
    { intros [|i] Hi Ha; [by rewrite Nat.add_0_r | rewrite <- (Ha i) by lia; f_equal; lia]. }
    destruct (await_port _ _ _ _ _ _) as [[[b|x] w'] n'].
    + destruct IH as (-> & j & Hj & Hp & Hb). split; [done|]. exists (S j). split_and!; [lia | rewrite <- Hp; f_equal; lia|].
      intros [|i] Hij; [by rewrite Nat.add_0_r | rewrite <- (Hb i) by lia; f_equal; lia].
    + destruct IH as (-> & Hb & He). split_and!; [done | intros i Hk; by apply Hi | rewrite He; cbn; by rewrite <- app_assoc].
Qed.

(** Settings of the user are not lost: they are kept, or copied before they are replaced. *)
Theorem settings_kept_or_backed_up dumps_indent port force old w n :
  rn_settings w = Some old ->
  let o := configure_claude_settings dumps_indent port force w n in
  if force then out_res o = Ok tt /\ od_get (backup_name (rn_now w)) (rn_backups (out_st o)) = Some old /\
                rn_settings (out_st o) = Some (dumps_indent (claude_settings port))
  else o = (Raise SettingsExist, w, n).
Proof.
  intros Hw. unfold configure_claude_settings, mbind, M_bind, get. cbn. rewrite Hw. destruct force; [|done]. cbn.
  split_and!; [done | apply od_get_set_eq | done].
Qed.

(** Starting a gateway launches no turn and leaves the settings alone. *)
Definition untouched (w0 w : World) : Prop := launches w = launches w0 /\ rn_settings w = rn_settings w0.
Lemma untouched_act w0 e : is_launch e = false -> preserves (untouched w0) (act e).
Proof. intros He w n [H1 H2]. split; [by rewrite <- H1; apply launches_plain | done]. Qed.
Lemma untouched_await port_open lag k port w0 : preserves (untouched w0) (await_port port_open lag k port).
Proof.
  induction k as [|k IH]; cbn [await_port]; unfold print; preserve; auto using untouched_act; [by intros ? ? ?|].
  intros w n H. exact (untouched_act w0 (Slept (1 # 2)) eq_refl w n H).
Qed.
Lemma ensure_gateway_spec port_open lag port w n :
  untouched w (out_st (ensure_gateway_running port_open lag port w n)) /\
  match out_res (ensure_gateway_running port_open lag port w n) with Ok _ => True | Raise x => x = GatewayDown port end.
Proof.
  unfold ensure_gateway_running, mbind, M_bind, read. destruct (port_open n); [by repeat split; apply launches_plain|]. unfold print, act, modify.
  match goal with |- context [await_port _ _ _ _ ?a ?b] =>
    pose proof (await_port_spec port_open lag 20 port a b) as Ha; pose proof (untouched_await port_open lag 20 port w a b) as Hk;
    destruct (await_port port_open lag 20 port a b) as [[[r|x] w2] n2] end.
  all: split; [apply Hk; split; [by rewrite !launches_plain | done] | done || by destruct Ha].
Qed.
(** The runner refuses the settings it wrote itself: with them in place and without the
    flag, no turn is ever launched again, though a gateway may have been started. *)
Theorem second_run_refused port_open poll tree lag progress_exists environ dumps_indent timeout goal goal_name repo fuel max_turns port skip w n :
  rn_settings w <> None ->
  match main port_open poll tree lag progress_exists environ dumps_indent timeout goal goal_name repo fuel true max_turns port false skip w n with
  | (Ok _, _, _) => False
  | (Raise x, w', _) => (x = SettingsExist \/ x = GatewayDown port) /\ launches w' = launches w
  end.
Proof.
  intros Hw. unfold main. cbn [negb]. destruct (ensure_gateway_spec port_open lag port w n) as [[He Hs] Hx].
  unfold mbind at 1, M_bind at 1. destruct (ensure_gateway_running port_open lag port w n) as [[[b|x] w1] n1]; cbn in He, Hs, Hx; [|by split; [right|]].
  unfold mbind at 1, M_bind at 1, configure_claude_settings, mbind at 1, M_bind at 1, get. cbn. rewrite Hs.
  destruct (rn_settings w); [|done]. cbn. by split; [left|].
Qed.

(** *** The integration example *)

Section openclaw.
Context (mono wall : nat -> Q) (parse_http_date : string -> option Q) (key_error err : error_value).
Context (ask : active_route -> nat -> string + error_value).

(** A chain none of whose items was ever put aside. *)
Definition open_chain (w : LegacyWorld) : Prop :=
  let r := lw_router w in
  fallback_chain r <> [] /\ lr_allowed r = None /\ auth_failed_providers r = [] /\ deprecated_models r = [] /\ provider_cooldowns r = [].
Lemma chain_lookup (w : LegacyWorld) z : fallback_chain (lw_router w) <> [] ->
  exists i, fallback_chain (lw_router w) !! Z.to_nat (z mod Z.of_nat (length (fallback_chain (lw_router w)))) = Some i.
Proof.
  intros Hne. apply lookup_lt_is_Some_2. destruct (fallback_chain (lw_router w)) as [|x l]; [done|].
  pose proof (Z.mod_pos_bound z (Z.of_nat (length (x :: l)))). cbn [length] in *. lia.
Qed.
Lemma open_chain_next w n : (forall k, (0 <= mono k)%Q) -> open_chain w ->
  exists r w' n', get_next_available_route mono wall None w n = (Ok (Some r), w', n') /\ open_chain w'.
Proof.
  intros Hm (Hne & Ha & Hf & Hd & Hc). unfold get_next_available_route. mstep.
  destruct (chain_lookup w (fallback_index (lw_router w) + 1) Hne) as [item Hi].
  destruct (fallback_chain (lw_router w)) as [|x l] eqn:Ec; [done|]. set (w1 := set_lw_router (with_fallback_index ((fallback_index (lw_router w) + 1) mod Z.of_nat (length (x :: l))) (lw_router w)) w).
  assert (next_in_chain mono (length (x :: l) * 2) w n = (Ok (Some item), w1, S n)) as Hn.
  { cbn [length Nat.mul Nat.add next_in_chain]. unfold mbind at 1, M_bind at 1, get. rewrite Ec. unfold on_router, mbind at 1, M_bind at 1, modify. rewrite Hi.
    unfold item_admitted, mbind, M_bind, get, read_clock. cbn. rewrite Ha, Hf, Hd, Hc. cbn.
    destruct (mono n ≺ 0) eqn:E; qbool; [specialize (Hm n); lra | done]. }
  erewrite bind_ok by exact Hn. exists (ChainItem item), w1, (S n). split; [done|]. unfold open_chain. cbn. rewrite Ec, Ha, Hf, Hd, Hc. done.
Qed.
(** The loop has no bound: when every provider fails with an error that puts nothing
    aside, such as a server error, the turn goes round the chain for ever. *)
Theorem openclaw_turn_never_ends fuel w n :
  (forall k, (0 <= mono k)%Q) -> (forall r k, ask r k = inr err) ->
  (forall w k, exists f k', classifying (classify_failure wall parse_http_date err None []) w k = (Ok f, w, k') /\
     fc_should_fallback f = true /\ is_rate_limit_reason (fc_reason f) = false /\ fc_reason f <> model_not_found) ->
  open_chain w ->
  out_res (OpenClaw.run_openclaw_step mono wall parse_http_date key_error ask fuel w n) = Ok None.
Proof.
  intros Hm Hask Hcl. revert w n. induction fuel as [|fuel IH]; intros w n Hw; [done|]. cbn [OpenClaw.run_openclaw_step].
  assert (exists r, active_provider mono wall w n = (Ok (Some r), w, n)) as [r Hr].
  { destruct Hw as [Hne _]. unfold active_provider, mbind, M_bind, get. destruct (chain_lookup w (Z.max 0 (fallback_index (lw_router w))) Hne) as [i Hi].
    destruct (fallback_chain (lw_router w)) as [|x l] eqn:Ec; [done|]. exists (ChainItem i). unfold mret, M_ret. by rewrite Hi. }
  erewrite bind_ok by exact Hr. cbv beta. unfold mbind at 1, M_bind at 1, OpenClaw.ask_route. rewrite Hask.
  destruct (Hcl w (S n)) as (f & k & Hf & H1 & H2 & H3). erewrite bind_ok by exact Hf. cbv beta. rewrite H1, H2. cbn [negb].
  rewrite bool_decide_false by done. erewrite bind_ok by reflexivity. cbv beta.
  destruct (open_chain_next w k Hm Hw) as (x & w' & n' & Hx & Hw'). erewrite bind_ok by exact Hx. cbv beta. by apply IH.
Qed.
End openclaw.
Definition lone_chain : LegacyWorld :=
  {| lw_router := {| lr_default_pool := "general_agent"; lr_allowed := None;
       fallback_chain := [{| fi_id := None; fi_provider := Some "groq"; fi_model := Some "llama"; fi_pool := None; fi_base_url := None; fi_api_format := None;
                             fi_key_env := None; fi_env_key := None; fi_context_length := None; fi_headers := None |}];
       provider_cooldowns := []; deprecated_models := []; auth_failed_providers := []; fallback_index := -1 |};
     lw_pools := new_pool_manager None []; lw_sent := [] |}.
Lemma openclaw_turn_never_ends_witness :
  out_res (OpenClaw.run_openclaw_step Qnat Qnat (fun _ => None) (text_error "'provider'") (fun _ _ => inr (text_error "Service Unavailable")) 40 lone_chain 0%nat) = Ok None.
Proof.
  apply (openclaw_turn_never_ends Qnat Qnat (fun _ => None) (text_error "'provider'") (text_error "Service Unavailable")).
  - intros k. apply Qnat_nonneg.
  - reflexivity.
  - intros w k. eexists _, _. split; [reflexivity|]. vm_compute. repeat split. discriminate.
  - vm_compute. repeat split. discriminate.
Defined.
End RunnerProps.
